(* ===== verification/_CoqProject ===== *)
-Q . S2P
Prelude.v
SshErr.v
Wire.v
SshQueue.v
SshBuf.v
SshBufGetPut.v
SshBufInv.v
SshBufSpec.v
SshBufIO.v
SshBufLife.v
SshBufFree.v
SshBufClient.v
SshBufThms.v
Channel.v
ChanInv.v
ChanFlow.v
ChanSys.v
Compat.v
CompatThms.v
Match.v
MatchThms.v
Addr.v
AddrThms.v
Stego.v
Poly1305.v
Curve25519.v
Curve25519Limbs.v
Curve25519Thms.v
Products.v
Fe25519.v
Fe25519Thms.v
Sc25519.v
Sc25519Thms.v
Primes.v
Abelian.v
Edwards.v
EdGroup.v
Ge25519Base.v
Ge25519.v
Ge25519Thms.v
Ge25519Bytes.v
EdOrder.v
ChaCha.v
ChachaPoly.v
Digest.v
Hmac.v
SshCipher.v
CipherLink.v
KeyTypes.v
AuthCtxt.v
Packet.v
PacketSend.v
Plain.v
PacketRead.v
PacketFrame.v
Kex.v
PacketQueue.v
PacketBounds.v
PacketPoll.v
PacketLink.v
PacketTyped.v
KexConf.v
KexKeys.v
KexGen.v
KexGenThms.v
KexC25519.v
Ed25519.v
Ed25519Thms.v
Ed25519Wire.v
PacketState.v
CipherResume.v
PacketMove.v
Auth.v
AuthFrame.v
AuthPolicy.v
AuthStep.v
AuthThms.v
