(* ===== verification/Prelude.v ===== *)
(** A verification of programs of the SeS laboratories: the core of OpenSSH 8.8p1
    (src/Labo05_ssh/openssh-8.8p1) and two laboratory programs (src/Labo04_Valgrind,
    src/Labo06_FileSystem).

    * How to read it

    Each component of the C code is translated function by function; a definition has
    the name of the C function it translates.  C integers are [Z] with their wrap-around
    written out ([u8], [u16], [u32], [u64] of this file), memory areas are [list byte],
    and undefined behaviour or a raised signal is a value of the result type ([Crash],
    [None]), so that a theorem that a function returns says that it does not happen.
    Code that is not in the repository (the allocator's choice to fail, the kernel's
    answers to read and write, getaddrinfo, a malloc'ed block's content) is an argument.
    Debug messages are left out.

    * The files

    - Prelude: bytes, machine integers, slices of memory areas, the tactics [zlen],
      [case_bool] and [byte_ranges], and the rewrite database [zlen].
    - SshErr (ssherr.h, ssherr.c): the error codes and their texts.
    - Wire (sshbuf.h): the big-endian readers and writers PEEK_U* and POKE_U*.
    - Buffers.  SshBuf (sshbuf.c, recallocarray.c) is the model: a heap of blocks, a
      table of buffer objects with offset, size, allocation, limit, parent and reference
      count, and a monad whose results are a value, an error code or a crash.
      SshBufGetPut (sshbuf-getput-basic.c) adds the typed accessors.  SshBufInv states
      when a heap is well formed (every buffer passes sshbuf_check_sanity, storage is
      owned by one root buffer, counts equal the handles and children held), SshBufSpec,
      SshBufIO, SshBufLife and SshBufFree prove what every operation does to it, and
      SshQueue is the specification: bytes queues with a limit.  SshBufClient puts them
      together: a client issuing any legal sequence of calls sees byte queues
      ([client_refines_queues]) and leaks nothing ([client_frees_everything]).
      SshBufThms has further properties of single functions.
    - Channels.  Channel (nchan.c, the data path of channels.c) models one end of a
      channel as a state monad that also records the messages sent and the descriptors
      used; its buffers are the queues of SshQueue.  ChanInv has the rules for
      handlers and the invariant of the close handshake, ChanFlow the invariant of flow
      control over two ends and the packets in flight, ChanSys the two-party system and
      its theorems.
    - Compat, CompatThms (openbsd-compat): strlcpy, strlcat, strsep, strtonum,
      timingsafe_bcmp.
    - Match, MatchThms (match.c): glob patterns, pattern lists, proposal filters.
    - Addr, AddrThms (addr.c, addrmatch.c): CIDR matching.
    - Stego (bitmap_corr.C, soft_Q2.c): hiding a text in a picture, writing files.
    - Poly1305, ChaCha, ChachaPoly (poly1305.c, chacha.c, cipher-chachapoly.c): the
      authenticated cipher, against its definition.
    - Digest (digest-openssl.c), Hmac (hmac.c): the table of digests, digests in progress
      around libcrypto's ([Digest], [DigestLaws]), and HMAC against RFC 2104.
    - SshCipher (cipher.c, mac.c), CipherLink: the ciphers and MACs of a connection, with
      libcrypto as a class of operations ([Crypto], [CryptoLaws]), and the interface
      [PacketCipher] of two linked ends: what the one enciphers the other deciphers.
    - KeyTypes (sshkey.c): the names of key and signature algorithms.
    - The packet layer (packet.c).  Packet is the session, a record of the fields of struct
      ssh and struct session_state, and the monad of its functions, with the operating
      system and zlib as the class [Env].  PacketSend has the way of an outgoing packet:
      compression, padding, MAC, enciphering, the decision to rekey, the queue that holds
      packets back during a key exchange, new keys.  PacketRead has the way of an incoming
      one, the discarding of what follows a corrupted packet, the waiting for descriptors
      and the parameters of a session.  Plain is a concrete environment for examples.
      PacketFrame proves what a function leaves alone, by its shape.
    - PacketState (packet.c: ssh_packet_get_state, ssh_packet_set_state): a session as bytes,
      for the process that goes on with it, and the session that process makes of them.
      CipherResume: a cipher that goes on where another stopped.
    - Kex (kex.c, dispatch.c): name lists, proposals, the choice of algorithms, the
      derivation of keys, the messages around an exchange, and the dispatch loop.

    - The key exchange.  KexGen (kexgen.c, the host key functions of kex.c): the two messages,
      the hash over what was exchanged, its signature; a method's groups are the class
      [KeyAgreement], host keys and signatures the class [HostKeys].  Curve25519
      (smult_curve25519_ref.c): multiplication on the curve in limbs of eight bits;
      Curve25519Limbs proves its arithmetic modulo 2^255 - 19.  KexC25519 (kexc25519.c): the
      method over that curve.

    - The arithmetic of the Ed25519 signatures, in limbs of eight bits.  Products: the loops
      over products and their columns.  Fe25519, Fe25519Thms (fe25519.c): the integers modulo
      2^255 - 19.  Sc25519, Sc25519Thms (sc25519.c): scalars modulo the order of the group, and
      the digits they are read in.

    - The Ed25519 signatures over it.  The mathematics: Primes proves 2^255 - 19 prime (by
      Pocklington's criterion), Edwards the complete addition law of a twisted Edwards curve
      and its associativity, Abelian has commutative groups and multiples as a class, EdGroup
      the points of the curve as an instance, over integers modulo a sealed prime.  The code:
      Ge25519Base is the table of ge25519_base.data, Ge25519 all of ge25519.c, Ed25519 keys,
      signatures and their wire form (ed25519.c, verify.c, hash.c, ssh-ed25519.c), SHA-512
      and malloc being the class [Libraries].  Ge25519Thms relates coordinates to points
      ([rep3]) and has the multiples, Ge25519Bytes points as bytes, EdOrder the order of the
      base point, Ed25519Thms signing and opening, Ed25519Wire the functions of ssh-ed25519.c.

    - The authentication of a user by a server.  AuthCtxt (auth.h) is its context, a part of
      the session.  Auth has the requests, the methods none, password and
      keyboard-interactive, the lists of methods and the answers (auth2.c, auth2-none.c,
      auth2-passwd.c, auth2-kbdint.c, auth2-chall.c, and the limits of auth.c); the check of
      a password, the methods publickey and hostbased and the devices of
      keyboard-interactive are the class [AuthEnv].  AuthFrame proves that the packet layer
      and an exchange leave all of it alone, AuthPolicy what the lists require, AuthStep
      what each message makes of the context.

    * What is proved of a connection

    - PacketQueue: over any sequence of calls that send, what was submitted is what was
      sent, in order, followed by what waits ([sent_in_order]); between KEXINIT and NEWKEYS
      only key exchange messages are sent ([exchange_exclusive]); NEWKEYS empties the queue
      or starts another exchange ([newkeys_flushes]).
    - PacketTyped: the integers of any reachable session are in the range of their C types.
    - PacketBounds: the padding, and the end of the loops over zlib.
    - PacketPoll: the loop over the input ends, and a packet that arrives in pieces is read
      as if it had arrived at once.
    - PacketLink: what one end sends the other reads, for linked ends ([packets_arrive]).
    - KexConf: proposals survive their encoding ([proposal_roundtrip]), and both ends choose
      the algorithms of RFC 4253 ([ends_agree]).
    - KexKeys: the keys are those of RFC 4253, and the ends that take them into use are
      linked ([exchange_links_ends]), which is the hypothesis of [packets_arrive].
    - KexGenThms: what is hashed determines what was exchanged ([transcript_injective]); a
      client uses no keys before it has verified the signature of a trusted host key over
      all it saw ([server_authenticated]); the two ends of an exchange derive linked keys
      from one secret ([exchange_agrees]), for any method with the laws [AgreementLaws].
    - Curve25519Thms: the multiplication is X25519 of RFC 7748 ([scalarmult_is_x25519]).
    - KexC25519: what the ends compute with it ([c25519_exchange]).  That their numbers are
      equal is a theorem about the curve, commutativity of the ladder, which is not proved
      here; [c25519_laws] has it as a hypothesis ([LadderCommutes]).
    - Fe25519Thms: the operations are those of the field ([fe25519_field]), and exactly which
      numbers are written and compared as they should be ([fe25519_canonical],
      [product_not_canonical]).
    - Sc25519Thms: reduction, sums and products modulo the order ([sc25519_modulo_order]); the
      digits determine the scalar ([sc25519_digits]).
    - Ge25519Thms: multiples of points are those of the group, whatever the points and the
      scalars ([ge25519_multiples]).  Ge25519Bytes: a point is read as the negative of what was
      written ([ge25519_reads_back]).
    - Ed25519Wire: a key accepts what it signs ([ed25519_signature_verifies]) and exactly what
      satisfies the equation of the signature ([ed25519_accepts_equation]).  Both ask that no
      coordinate that is packed is within 2^18 of zero, because of [product_not_canonical].
    - PacketMove: a session that moves to another process stays linked with its peer, in both
      directions ([connection_moves]).
    - AuthThms: a server that lets a user in has had all methods of a configured list succeed
      in its order, for a user of its password file, and root only as the options say
      ([authentication_sound]); failures are counted and bounded, and the user cannot be
      changed ([failures_counted]); the outcome of an attempt on every branch
      ([userauth_finish_correct]).

    * Bounds and fuel

    Recursion over a list is structural.  Loops that take bytes from a buffer have the
    length of the buffer plus one or two as fuel; the loop over the packets in the input
    too, which [read_poll_fuel] proves enough.  The rounds of deflate are bounded by the
    limit of a buffer (32770 times 4096 bytes), those of inflate by what is left of the
    input and of the buffer ([zlib_loops_end]).  [expand_key] has as many rounds as bytes
    are needed, each of which adds a digest ([does_expand_key]).  Loops that wait for the
    peer have no bound in the code; they have [patience] rounds here, a parameter of the
    environment, after which the result is [Wait].

    * What is not modelled

    - Third-party code: libcrypto and zlib are parameters with documented laws.  umac.c and
      the groups of the other key exchange methods (kexdh.c, kexecdh.c, kexsntrup761x25519.c)
      are in the repository and are parameters too, for their size; group exchange
      (kexgex*.c) is left out.
    - In packet.c: addresses, socket options, logging and fatal errors.  In kex.c: the
      exchange of version strings.  In sshkey.c: the keys, but for the fields of an Ed25519 key.
      In cipher.c and mac.c: the release of
      contexts.  In channels.c: listeners, X11, agent and dynamic forwarding.
    - Of the authentication: the methods publickey and hostbased, the password file, PAM,
      GSSAPI, logging, the delay after a failure, and the process that checks on behalf of an
      unprivileged one (monitor.c).
    - The programs around these components (ssh, sshd, sftp, scp, ssh-agent, ssh-keygen):
      sessions, configuration and the keys themselves.
    - src/.Trash-1001 is a deleted copy of the same sources. *)

From Stdlib Require Export ZArith Lia List Strings.Byte Strings.String.
From stdpp Require Export base gmap list strings.
#[export] Set Default Goal Selector "!".
Export ListNotations.
#[global] Open Scope Z_scope.
#[global] Open Scope list_scope.

(** ** Bytes *)

Declare Scope bytes_scope.
Delimit Scope bytes_scope with bytes.

(** A memory area, a packet or a C string without its terminator. *)
Abbreviation bytes := (list byte).

#[global] Instance byte_eq_dec : EqDecision byte := Byte.byte_eq_dec.

(** A string literal of the C source, as the bytes before its terminator. *)
Definition lit (s : string) : bytes := list_byte_of_string s.
Arguments lit s%_string.

(** The value of an [unsigned char]. *)
Definition byte_val (b : byte) : Z := Z.of_N (Byte.to_N b).

(** Conversion of an integer to [unsigned char]: reduction modulo 256. *)
Definition byte_of_Z (z : Z) : byte :=
  match Byte.of_N (Z.to_N (z mod 256)) with
  | Some b => b
  | None => x00
  end.

Lemma byte_val_range b : 0 <= byte_val b < 256.
Proof. unfold byte_val. pose proof (Byte.to_N_bounded b). lia. Qed.

Lemma byte_val_of_Z z : byte_val (byte_of_Z z) = z mod 256.
Proof.
  unfold byte_val, byte_of_Z.
  pose proof (Z.mod_pos_bound z 256 ltac:(lia)).
  destruct (Byte.of_N (Z.to_N (z mod 256))) as [b|] eqn:E.
  - apply Byte.to_of_N in E. rewrite E. lia.
  - apply Byte.of_N_None_iff in E. lia.
Qed.

Lemma byte_of_val b : byte_of_Z (byte_val b) = b.
Proof.
  unfold byte_of_Z. pose proof (byte_val_range b).
  rewrite Z.mod_small by lia. unfold byte_val.
  now rewrite N2Z.id, Byte.of_to_N.
Qed.

Lemma byte_val_inj b c : byte_val b = byte_val c -> b = c.
Proof. intros H. now rewrite <- (byte_of_val b), H, byte_of_val. Qed.

#[global] Instance byte_val_Inj : Inj (=) (=) byte_val := byte_val_inj.

Lemma byte_val_of_Z_small z : 0 <= z < 256 -> byte_val (byte_of_Z z) = z.
Proof. intros. now rewrite byte_val_of_Z, Z.mod_small. Qed.

(** Every byte is the image of its value: the induction principle that lets a
    fact about the 256 bytes be checked by evaluation. *)
Lemma byte_forall (P : byte -> bool) :
  forallb (fun n => P (byte_of_Z (Z.of_nat n))) (seq 0 256) = true ->
  forall b, P b = true.
Proof.
  intros H b. rewrite forallb_forall in H.
  pose proof (byte_val_range b).
  specialize (H (Z.to_nat (byte_val b))).
  rewrite Z2Nat.id, byte_of_val in H by lia.
  apply H, in_seq. lia.
Qed.

Lemma byte_of_to_N b : default x00 (Byte.of_N (Byte.to_N b)) = b.
Proof. now rewrite Byte.of_to_N. Qed.

#[global] Instance byte_countable : Countable byte :=
  inj_countable' Byte.to_N (fun n => default x00 (Byte.of_N n)) byte_of_to_N.

(** ** Machine integers *)

(** Unsigned wrap-around at a width. *)
Definition wrap (w z : Z) : Z := z mod 2 ^ w.
Definition u8 := wrap 8.
Definition u16 := wrap 16.
Definition u32 := wrap 32.
Definition u64 := wrap 64.

(** [SIZE_MAX] of the 64-bit targets the repository builds for. *)
Definition SIZE_MAX : Z := 2 ^ 64 - 1.

Lemma wrap_range w z : 0 <= w -> 0 <= wrap w z < 2 ^ w.
Proof. intros. apply Z.mod_pos_bound. lia. Qed.

Lemma wrap_small w z : 0 <= z < 2 ^ w -> wrap w z = z.
Proof. apply Z.mod_small. Qed.

Lemma u32_small z : 0 <= z < 4294967296 -> u32 z = z.
Proof. apply Z.mod_small. Qed.

Lemma u64_small z : 0 <= z < 18446744073709551616 -> u64 z = z.
Proof. apply Z.mod_small. Qed.

Lemma u32_range z : 0 <= u32 z < 4294967296.
Proof. apply (wrap_range 32); lia. Qed.

Lemma u64_range z : 0 <= u64 z < 18446744073709551616.
Proof. apply (wrap_range 64); lia. Qed.

(** ** Bit operations *)

(** Joining a shifted high part with a low part that fits below it. *)
Lemma lor_shiftl_add a b k : 0 <= k -> 0 <= b < 2 ^ k ->
  Z.lor (Z.shiftl a k) b = a * 2 ^ k + b.
Proof.
  intros Hk Hb. rewrite <- Z.shiftl_mul_pow2 by lia. symmetry.
  apply Z.add_nocarry_lor, Z.bits_inj'. intros n Hn.
  rewrite Z.land_spec, Z.bits_0. destruct (Z.lt_ge_cases n k).
  - now rewrite Z.shiftl_spec_low.
  - rewrite (proj1 (Z.bounded_iff_bits_nonneg k b Hk (proj1 Hb)) (proj2 Hb) n)
      by lia. apply andb_false_r.
Qed.

Lemma lor_shiftl_shiftl a b k m : 0 <= k -> 0 <= m -> 0 <= b < 2 ^ k ->
  Z.lor (Z.shiftl a (k + m)) (Z.shiftl b m) = Z.shiftl (a * 2 ^ k + b) m.
Proof.
  intros. rewrite <- (Z.shiftl_shiftl a k m) by lia.
  rewrite <- Z.shiftl_lor. f_equal. now apply lor_shiftl_add.
Qed.

Lemma land_255 z : Z.land z 255 = z mod 256.
Proof. change 255 with (Z.ones 8). now rewrite Z.land_ones by lia. Qed.

(** ** Slices of a memory area *)

Definition zlen {A} (l : list A) : Z := Z.of_nat (List.length l).

(** [n] elements from offset [o]. *)
Definition slice {A} (o n : Z) (l : list A) : list A :=
  take (Z.to_nat n) (drop (Z.to_nat o) l).

(** [memcpy] / [memmove] of [v] at offset [o]. *)
Definition blit {A} (o : Z) (v l : list A) : list A :=
  take (Z.to_nat o) l ++ v ++ drop (Z.to_nat o + List.length v) l.

(** [n] zero bytes. *)
Definition zeros (n : Z) : bytes := replicate (Z.to_nat n) x00.

Create Rewrite HintDb zlen.

Lemma zlen_nonneg {A} (l : list A) : 0 <= zlen l.
Proof. unfold zlen. lia. Qed.

Lemma zlen_nil {A} : zlen (@nil A) = 0.
Proof. reflexivity. Qed.

Lemma zlen_cons {A} (a : A) l : zlen (a :: l) = 1 + zlen l.
Proof. unfold zlen. simpl List.length. lia. Qed.

Lemma zlen_app {A} (l1 l2 : list A) : zlen (l1 ++ l2) = zlen l1 + zlen l2.
Proof. unfold zlen. rewrite length_app. lia. Qed.

Lemma zlen_take {A} n (l : list A) : 0 <= n ->
  zlen (take (Z.to_nat n) l) = Z.min n (zlen l).
Proof. unfold zlen. rewrite length_take. lia. Qed.

Lemma zlen_drop {A} n (l : list A) : 0 <= n ->
  zlen (drop (Z.to_nat n) l) = Z.max 0 (zlen l - n).
Proof. unfold zlen. rewrite length_drop. lia. Qed.

Lemma zlen_zeros n : 0 <= n -> zlen (zeros n) = n.
Proof. unfold zlen, zeros. rewrite length_replicate. lia. Qed.

Lemma zlen_map {A B} (f : A -> B) l : zlen (map f l) = zlen l.
Proof. unfold zlen. now rewrite length_map. Qed.

Lemma zlen_0_nil {A} (l : list A) : zlen l = 0 -> l = [].
Proof. destruct l; [done|]. unfold zlen. simpl. lia. Qed.

Lemma zlen_slice {A} o n (l : list A) : 0 <= o -> 0 <= n -> o + n <= zlen l ->
  zlen (slice o n l) = n.
Proof. unfold slice, zlen. rewrite length_take, length_drop. lia. Qed.

Lemma zlen_blit {A} o (v l : list A) : 0 <= o -> o + zlen v <= zlen l ->
  zlen (blit o v l) = zlen l.
Proof.
  unfold blit, zlen. rewrite !length_app, length_take, length_drop. lia.
Qed.

#[export] Hint Rewrite @zlen_nil @zlen_cons @zlen_app @zlen_map : zlen.
#[export] Hint Rewrite @zlen_take @zlen_drop @zlen_slice @zlen_blit zlen_zeros
  using lia : zlen.

Lemma slice_all {A} (l : list A) : slice 0 (zlen l) l = l.
Proof. unfold slice, zlen. rewrite Nat2Z.id. apply take_ge. simpl. lia. Qed.

Lemma slice_0 {A} o (l : list A) : slice o 0 l = [].
Proof. reflexivity. Qed.

(** Two adjacent slices. *)
Lemma slice_app_split {A} o m n (l : list A) : 0 <= o -> 0 <= m -> 0 <= n ->
  slice o (m + n) l = slice o m l ++ slice (o + m) n l.
Proof.
  intros. unfold slice. rewrite !Z2Nat.inj_add by lia.
  rewrite <- drop_drop. now rewrite take_take_drop.
Qed.

Lemma slice_app_l {A} n (l1 l2 : list A) : n = zlen l1 ->
  slice 0 n (l1 ++ l2) = l1.
Proof. intros ->. unfold slice, zlen. rewrite Nat2Z.id. apply take_app_length. Qed.

(** A slice of a concatenation, inside either part. *)
Lemma slice_prefix {A} o n (l1 l2 : list A) : 0 <= o -> 0 <= n -> o + n <= zlen l1 ->
  slice o n (l1 ++ l2) = slice o n l1.
Proof.
  unfold slice, zlen. intros.
  rewrite drop_app_le, take_app_le by (rewrite ?length_drop; lia). done.
Qed.

Lemma slice_suffix {A} o n (l1 l2 : list A) : zlen l1 <= o ->
  slice o n (l1 ++ l2) = slice (o - zlen l1) n l2.
Proof.
  unfold slice, zlen. intros. rewrite drop_app_ge by lia. do 2 f_equal. lia.
Qed.

Lemma slice_slice {A} o n o' n' (l : list A) :
  0 <= o -> 0 <= o' -> 0 <= n' -> o' + n' <= n ->
  slice o' n' (slice o n l) = slice (o + o') n' l.
Proof.
  intros. unfold slice.
  rewrite skipn_firstn_comm, drop_drop, take_take, <- Z2Nat.inj_add by lia.
  f_equal. lia.
Qed.

(** Reading back what was just copied in. *)
Lemma slice_blit_same {A} o (v l : list A) : 0 <= o -> o + zlen v <= zlen l ->
  slice o (zlen v) (blit o v l) = v.
Proof.
  unfold slice, blit, zlen. intros Ho Hl.
  rewrite drop_app_ge by (rewrite length_take; lia).
  rewrite length_take, Nat.min_l, Nat.sub_diag, drop_0, Nat2Z.id by lia.
  apply take_app_length.
Qed.

(** A copy does not change what lies before it, nor what lies after it. *)
Lemma slice_blit_before {A} o (v l : list A) a n :
  0 <= a -> 0 <= n -> a + n <= o -> o <= zlen l -> slice a n (blit o v l) = slice a n l.
Proof.
  unfold slice, blit, zlen. intros.
  rewrite drop_app_le by (rewrite length_take; lia).
  rewrite take_app_le by (rewrite length_drop, length_take; lia).
  rewrite skipn_firstn_comm, take_take. f_equal. lia.
Qed.

Lemma slice_blit_after {A} o (v l : list A) a n :
  0 <= o -> o + zlen v <= a -> o <= zlen l -> slice a n (blit o v l) = slice a n l.
Proof.
  unfold slice, blit, zlen. intros.
  rewrite app_assoc, drop_app_ge by (rewrite length_app, length_take; lia).
  rewrite length_app, length_take, drop_drop. do 2 f_equal. lia.
Qed.

(** A copy inside a window, seen from the window. *)
Lemma slice_blit_window {A} a n o (v l : list A) :
  0 <= a -> 0 <= o -> o + zlen v <= n -> a + n <= zlen l ->
  slice a n (blit (a + o) v l) = blit o v (slice a n l).
Proof.
  unfold slice, blit, zlen. intros.
  rewrite drop_app_le by (rewrite length_take; lia).
  rewrite skipn_firstn_comm, take_app_ge by (rewrite length_take, length_drop; lia).
  rewrite length_take, length_drop.
  rewrite take_app_ge by lia. rewrite take_take, skipn_firstn_comm, drop_drop.
  f_equal; [f_equal; lia|]. f_equal. f_equal; [lia|]. f_equal. lia.
Qed.

(** ** Loops *)

(** A loop: at most [n] rounds of [step], which either goes on ([inl]) or leaves the loop
    ([inr]).  The bound is binary, so that a bound of millions of rounds evaluates. *)
Fixpoint loop {S R} (step : S -> S + R) (n : positive) (s : S) : S + R :=
  match n with
  | xH => step s
  | xO n =>
    match loop step n s with inl s' => loop step n s' | inr r => inr r end
  | xI n =>
    match step s with
    | inl s' => match loop step n s' with inl s' => loop step n s' | inr r => inr r end
    | inr r => inr r
    end
  end.

Lemma loop_invariant {S R} (step : S -> S + R) (P : S -> Prop) (m : S -> Z) n s :
  (forall s s', P s -> step s = inl s' -> P s' /\ m s' < m s) ->
  P s -> forall s', loop step n s = inl s' -> P s' /\ m s' <= m s - Zpos n.
Proof.
  intros H. revert s. induction n as [n IH|n IH|]; intros s Hs s'; simpl.
  - destruct (step s) as [s1|] eqn:E1; [|done]. destruct (H _ _ Hs E1) as [P1 M1].
    destruct (loop step n s1) as [s2|] eqn:E2; [|done]. destruct (IH _ P1 _ E2) as [P2 M2].
    intros E3. destruct (IH _ P2 _ E3). split; [done|lia].
  - destruct (loop step n s) as [s2|] eqn:E2; [|done]. destruct (IH _ Hs _ E2) as [P2 M2].
    intros E3. destruct (IH _ P2 _ E3). split; [done|lia].
  - intros E1. destruct (H _ _ Hs E1). split; [done|lia].
Qed.

(** A loop whose rounds decrease a measure ends within the bound. *)
Lemma loop_ends {S R} (step : S -> S + R) (P : S -> Prop) (m : S -> Z) n s :
  (forall s s', P s -> step s = inl s' -> P s' /\ m s' < m s) ->
  (forall s, P s -> 0 <= m s) -> P s -> m s < Zpos n ->
  exists r, loop step n s = inr r.
Proof.
  intros H H0 Hs Hm. destruct (loop step n s) as [s'|r] eqn:E; [|eauto].
  destruct (loop_invariant step P m n s H Hs s' E) as [Hp Hle]. specialize (H0 _ Hp). lia.
Qed.

(** What the rounds preserve holds where the loop stops, and what holds whenever a round
    leaves the loop holds of its result. *)
Lemma loop_sound {S R} (step : S -> S + R) (P : S -> Prop) (Q : R -> Prop) n s :
  (forall s s', P s -> step s = inl s' -> P s') ->
  (forall s r, P s -> step s = inr r -> Q r) ->
  P s -> match loop step n s with inl s' => P s' | inr r => Q r end.
Proof.
  intros H1 H2. revert s. induction n as [n IH|n IH|]; intros s Hs; simpl.
  - destruct (step s) as [s1|] eqn:E1; [|eauto]. specialize (IH s1) as IH1.
    destruct (loop step n s1) as [s2|]; [|eauto]. apply IH. eauto.
  - specialize (IH s Hs) as IH1. destruct (loop step n s) as [s2|]; [|done]. by apply IH.
  - destruct (step s) eqn:E; eauto.
Qed.

(** ** Tactics *)

(** Reduce the lengths of the goal and of the context, then arithmetic. *)
Ltac zlen :=
  autorewrite with zlen in *;
  repeat match goal with
  | |- context [zlen ?l] =>
      lazymatch goal with
      | _ : 0 <= zlen l |- _ => fail
      | _ => pose proof (zlen_nonneg l)
      end
  end; try lia.

(** Case analysis on the boolean tests of the code, as arithmetic facts. *)
Ltac case_bool :=
  match goal with
  | |- context [if ?b then _ else _] =>
      lazymatch b with
      | Z.ltb ?x ?y => destruct (Z.ltb_spec x y)
      | Z.leb ?x ?y => destruct (Z.leb_spec x y)
      | Z.gtb ?x ?y => rewrite (Z.gtb_ltb x y); destruct (Z.ltb_spec y x)
      | Z.geb ?x ?y => rewrite (Z.geb_leb x y); destruct (Z.leb_spec y x)
      | Z.eqb ?x ?y => destruct (Z.eqb_spec x y)
      | _ => destruct b eqn:?
      end
  end.

(** The byte range facts of every [byte_val] in sight. *)
Ltac byte_ranges :=
  repeat match goal with
  | |- context [byte_val ?b] =>
      lazymatch goal with
      | _ : 0 <= byte_val b < 256 |- _ => fail
      | _ => pose proof (byte_val_range b)
      end
  | _ : context [byte_val ?b] |- _ =>
      lazymatch goal with
      | _ : 0 <= byte_val b < 256 |- _ => fail
      | _ => pose proof (byte_val_range b)
      end
  end.

(** A setter is the record rebuilt from its own fields, with one of them replaced: the
    tactic abstracts the field in the eta-expansion of the record. *)
Ltac setter e p x :=
  let t := eval red in e in
  match eval pattern p in t with ?g _ => let r := eval cbv beta in (g x) in exact r end.
