(* ===== verification/SshErr.v ===== *)
(** Error codes of the library (ssherr.h, ssherr.c).

    Every fallible function of the code returns an [int]: 0 for success, one of
    the negative codes of ssherr.h otherwise.  The model returns [res]: the value
    or the error, the code being [code e]; [code_neg] is why the two tests the
    source uses for failure, [r != 0] and [r < 0], are the same test. *)

From S2P Require Import Prelude.

Inductive ssh_error : Type :=
| SSH_ERR_INTERNAL_ERROR
| SSH_ERR_ALLOC_FAIL
| SSH_ERR_MESSAGE_INCOMPLETE
| SSH_ERR_INVALID_FORMAT
| SSH_ERR_BIGNUM_IS_NEGATIVE
| SSH_ERR_STRING_TOO_LARGE
| SSH_ERR_BIGNUM_TOO_LARGE
| SSH_ERR_ECPOINT_TOO_LARGE
| SSH_ERR_NO_BUFFER_SPACE
| SSH_ERR_INVALID_ARGUMENT
| SSH_ERR_KEY_BITS_MISMATCH
| SSH_ERR_EC_CURVE_INVALID
| SSH_ERR_KEY_TYPE_MISMATCH
| SSH_ERR_KEY_TYPE_UNKNOWN
| SSH_ERR_EC_CURVE_MISMATCH
| SSH_ERR_EXPECTED_CERT
| SSH_ERR_KEY_LACKS_CERTBLOB
| SSH_ERR_KEY_CERT_UNKNOWN_TYPE
| SSH_ERR_KEY_CERT_INVALID_SIGN_KEY
| SSH_ERR_KEY_INVALID_EC_VALUE
| SSH_ERR_SIGNATURE_INVALID
| SSH_ERR_LIBCRYPTO_ERROR
| SSH_ERR_UNEXPECTED_TRAILING_DATA
| SSH_ERR_SYSTEM_ERROR
| SSH_ERR_KEY_CERT_INVALID
| SSH_ERR_AGENT_COMMUNICATION
| SSH_ERR_AGENT_FAILURE
| SSH_ERR_DH_GEX_OUT_OF_RANGE
| SSH_ERR_DISCONNECTED
| SSH_ERR_MAC_INVALID
| SSH_ERR_NO_CIPHER_ALG_MATCH
| SSH_ERR_NO_MAC_ALG_MATCH
| SSH_ERR_NO_COMPRESS_ALG_MATCH
| SSH_ERR_NO_KEX_ALG_MATCH
| SSH_ERR_NO_HOSTKEY_ALG_MATCH
| SSH_ERR_NO_HOSTKEY_LOADED
| SSH_ERR_PROTOCOL_MISMATCH
| SSH_ERR_NO_PROTOCOL_VERSION
| SSH_ERR_NEED_REKEY
| SSH_ERR_PASSPHRASE_TOO_SHORT
| SSH_ERR_FILE_CHANGED
| SSH_ERR_KEY_UNKNOWN_CIPHER
| SSH_ERR_KEY_WRONG_PASSPHRASE
| SSH_ERR_KEY_BAD_PERMISSIONS
| SSH_ERR_KEY_CERT_MISMATCH
| SSH_ERR_KEY_NOT_FOUND
| SSH_ERR_AGENT_NOT_PRESENT
| SSH_ERR_AGENT_NO_IDENTITIES
| SSH_ERR_BUFFER_READ_ONLY
| SSH_ERR_KRL_BAD_MAGIC
| SSH_ERR_KEY_REVOKED
| SSH_ERR_CONN_CLOSED
| SSH_ERR_CONN_TIMEOUT
| SSH_ERR_CONN_CORRUPT
| SSH_ERR_PROTOCOL_ERROR
| SSH_ERR_KEY_LENGTH
| SSH_ERR_NUMBER_TOO_LARGE
| SSH_ERR_SIGN_ALG_UNSUPPORTED
| SSH_ERR_FEATURE_UNSUPPORTED
| SSH_ERR_DEVICE_NOT_FOUND.

#[global] Instance ssh_error_eq_dec : EqDecision ssh_error.
Proof. solve_decision. Defined.

(** The numeric value of a code. *)
Definition code (e : ssh_error) : Z :=
  match e with
  | SSH_ERR_INTERNAL_ERROR => -1
  | SSH_ERR_ALLOC_FAIL => -2
  | SSH_ERR_MESSAGE_INCOMPLETE => -3
  | SSH_ERR_INVALID_FORMAT => -4
  | SSH_ERR_BIGNUM_IS_NEGATIVE => -5
  | SSH_ERR_STRING_TOO_LARGE => -6
  | SSH_ERR_BIGNUM_TOO_LARGE => -7
  | SSH_ERR_ECPOINT_TOO_LARGE => -8
  | SSH_ERR_NO_BUFFER_SPACE => -9
  | SSH_ERR_INVALID_ARGUMENT => -10
  | SSH_ERR_KEY_BITS_MISMATCH => -11
  | SSH_ERR_EC_CURVE_INVALID => -12
  | SSH_ERR_KEY_TYPE_MISMATCH => -13
  | SSH_ERR_KEY_TYPE_UNKNOWN => -14
  | SSH_ERR_EC_CURVE_MISMATCH => -15
  | SSH_ERR_EXPECTED_CERT => -16
  | SSH_ERR_KEY_LACKS_CERTBLOB => -17
  | SSH_ERR_KEY_CERT_UNKNOWN_TYPE => -18
  | SSH_ERR_KEY_CERT_INVALID_SIGN_KEY => -19
  | SSH_ERR_KEY_INVALID_EC_VALUE => -20
  | SSH_ERR_SIGNATURE_INVALID => -21
  | SSH_ERR_LIBCRYPTO_ERROR => -22
  | SSH_ERR_UNEXPECTED_TRAILING_DATA => -23
  | SSH_ERR_SYSTEM_ERROR => -24
  | SSH_ERR_KEY_CERT_INVALID => -25
  | SSH_ERR_AGENT_COMMUNICATION => -26
  | SSH_ERR_AGENT_FAILURE => -27
  | SSH_ERR_DH_GEX_OUT_OF_RANGE => -28
  | SSH_ERR_DISCONNECTED => -29
  | SSH_ERR_MAC_INVALID => -30
  | SSH_ERR_NO_CIPHER_ALG_MATCH => -31
  | SSH_ERR_NO_MAC_ALG_MATCH => -32
  | SSH_ERR_NO_COMPRESS_ALG_MATCH => -33
  | SSH_ERR_NO_KEX_ALG_MATCH => -34
  | SSH_ERR_NO_HOSTKEY_ALG_MATCH => -35
  | SSH_ERR_NO_HOSTKEY_LOADED => -36
  | SSH_ERR_PROTOCOL_MISMATCH => -37
  | SSH_ERR_NO_PROTOCOL_VERSION => -38
  | SSH_ERR_NEED_REKEY => -39
  | SSH_ERR_PASSPHRASE_TOO_SHORT => -40
  | SSH_ERR_FILE_CHANGED => -41
  | SSH_ERR_KEY_UNKNOWN_CIPHER => -42
  | SSH_ERR_KEY_WRONG_PASSPHRASE => -43
  | SSH_ERR_KEY_BAD_PERMISSIONS => -44
  | SSH_ERR_KEY_CERT_MISMATCH => -45
  | SSH_ERR_KEY_NOT_FOUND => -46
  | SSH_ERR_AGENT_NOT_PRESENT => -47
  | SSH_ERR_AGENT_NO_IDENTITIES => -48
  | SSH_ERR_BUFFER_READ_ONLY => -49
  | SSH_ERR_KRL_BAD_MAGIC => -50
  | SSH_ERR_KEY_REVOKED => -51
  | SSH_ERR_CONN_CLOSED => -52
  | SSH_ERR_CONN_TIMEOUT => -53
  | SSH_ERR_CONN_CORRUPT => -54
  | SSH_ERR_PROTOCOL_ERROR => -55
  | SSH_ERR_KEY_LENGTH => -56
  | SSH_ERR_NUMBER_TOO_LARGE => -57
  | SSH_ERR_SIGN_ALG_UNSUPPORTED => -58
  | SSH_ERR_FEATURE_UNSUPPORTED => -59
  | SSH_ERR_DEVICE_NOT_FOUND => -60
  end.

(** The result of a fallible function. *)
Inductive res (A : Type) : Type :=
| Ok (a : A)
| Err (e : ssh_error).
Arguments Ok {A} a.
Arguments Err {A} e.

(** [ssh_err]: the text of a code. [errno_text] stands for [strerror(errno)]. *)
Definition ssh_err (errno_text : string) (n : Z) : string :=
  match n with
  | 0 => "success"%string
  | -1 => "unexpected internal error"%string
  | -2 => "memory allocation failed"%string
  | -3 => "incomplete message"%string
  | -4 => "invalid format"%string
  | -5 => "bignum is negative"%string
  | -6 => "string is too large"%string
  | -7 => "bignum is too large"%string
  | -8 => "elliptic curve point is too large"%string
  | -9 => "insufficient buffer space"%string
  | -10 => "invalid argument"%string
  | -11 => "key bits do not match"%string
  | -12 => "invalid elliptic curve"%string
  | -13 => "key type does not match"%string
  | -14 => "unknown or unsupported key type"%string
  | -15 => "elliptic curve does not match"%string
  | -16 => "plain key provided where certificate required"%string
  | -17 => "key lacks certificate data"%string
  | -18 => "unknown/unsupported certificate type"%string
  | -19 => "invalid certificate signing key"%string
  | -20 => "invalid elliptic curve value"%string
  | -21 => "incorrect signature"%string
  | -22 => "error in libcrypto"%string
  | -23 => "unexpected bytes remain after decoding"%string
  | -24 => errno_text
  | -25 => "invalid certificate"%string
  | -26 => "communication with agent failed"%string
  | -27 => "agent refused operation"%string
  | -28 => "DH GEX group out of range"%string
  | -29 => "disconnected"%string
  | -30 => "message authentication code incorrect"%string
  | -31 => "no matching cipher found"%string
  | -32 => "no matching MAC found"%string
  | -33 => "no matching compression method found"%string
  | -34 => "no matching key exchange method found"%string
  | -35 => "no matching host key type found"%string
  | -37 => "protocol version mismatch"%string
  | -38 => "could not read protocol version"%string
  | -36 => "could not load host key"%string
  | -39 => "rekeying not supported by peer"%string
  | -40 => "passphrase is too short (minimum five characters)"%string
  | -41 => "file changed while reading"%string
  | -42 => "key encrypted using unsupported cipher"%string
  | -43 => "incorrect passphrase supplied to decrypt private key"%string
  | -44 => "bad permissions"%string
  | -45 => "certificate does not match key"%string
  | -46 => "key not found"%string
  | -47 => "agent not present"%string
  | -48 => "agent contains no identities"%string
  | -49 => "internal error: buffer is read-only"%string
  | -50 => "KRL file has invalid magic number"%string
  | -51 => "Key is revoked"%string
  | -52 => "Connection closed"%string
  | -53 => "Connection timed out"%string
  | -54 => "Connection corrupted"%string
  | -55 => "Protocol error"%string
  | -56 => "Invalid key length"%string
  | -57 => "number is too large"%string
  | -58 => "signature algorithm not supported"%string
  | -59 => "requested feature not supported"%string
  | -60 => "device not found"%string
  | _ => "unknown error"%string
  end.
#[global] Instance code_inj : Inj (=) (=) code.
Proof. intros e1 e2. destruct e1, e2; (reflexivity || discriminate). Qed.

Lemma code_range e : -60 <= code e <= -1.
Proof. destruct e; cbn [code]; lia. Qed.

(** C1. A code is negative, so the tests [r != 0] and [r < 0] of the callers agree;
    distinct errors have distinct codes; and, [errno] texts aside, every error of
    ssherr.h has a message of its own in [ssh_err], none of them the text that
    reports success or the one for an unknown code. *)
Theorem ssh_err_faithful (t : string) (e1 e2 : ssh_error) :
  e1 <> SSH_ERR_SYSTEM_ERROR -> e2 <> SSH_ERR_SYSTEM_ERROR ->
  code e1 < 0 /\
  (ssh_err t (code e1) = ssh_err t (code e2) <-> e1 = e2) /\
  ssh_err t (code e1) <> ssh_err t 0 /\
  ssh_err t (code e1) <> ssh_err t (-61).
Proof.
  intros H1 H2. pose proof (code_range e1). split; [lia|].
  split; [split; [|now intros ->]|]; destruct e1; try easy;
    destruct e2; try easy.
Qed.
