(* ===== verification/Wire.v ===== *)
(** Integers on the wire: the PEEK/POKE macros of sshbuf.h.

    The encoders write the bytes of an unsigned integer most significant first,
    the decoders join them with shifts and [|].  The rewriting lemmas
    [PEEK_POKE_U32] and its siblings are the round trips the buffer code uses;
    [POKE_PEEK_U32] and siblings say that decoding loses nothing. *)

From S2P Require Import Prelude.

(** ** Encoders *)

Definition POKE_U64 (v : Z) : bytes :=
  [ byte_of_Z (Z.land (Z.shiftr v 56) 255);
    byte_of_Z (Z.land (Z.shiftr v 48) 255);
    byte_of_Z (Z.land (Z.shiftr v 40) 255);
    byte_of_Z (Z.land (Z.shiftr v 32) 255);
    byte_of_Z (Z.land (Z.shiftr v 24) 255);
    byte_of_Z (Z.land (Z.shiftr v 16) 255);
    byte_of_Z (Z.land (Z.shiftr v 8) 255);
    byte_of_Z (Z.land v 255) ].

Definition POKE_U32 (v : Z) : bytes :=
  [ byte_of_Z (Z.land (Z.shiftr v 24) 255);
    byte_of_Z (Z.land (Z.shiftr v 16) 255);
    byte_of_Z (Z.land (Z.shiftr v 8) 255);
    byte_of_Z (Z.land v 255) ].

Definition POKE_U16 (v : Z) : bytes :=
  [ byte_of_Z (Z.land (Z.shiftr v 8) 255);
    byte_of_Z (Z.land v 255) ].

(** ** Decoders *)

(** [p[i]], as an integer. *)
Definition at_ (p : bytes) (i : nat) : Z := byte_val (nth i p x00).

Definition PEEK_U64 (p : bytes) : Z :=
  Z.lor (Z.lor (Z.lor (Z.lor (Z.lor (Z.lor (Z.lor
    (Z.shiftl (at_ p 0) 56) (Z.shiftl (at_ p 1) 48)) (Z.shiftl (at_ p 2) 40))
    (Z.shiftl (at_ p 3) 32)) (Z.shiftl (at_ p 4) 24)) (Z.shiftl (at_ p 5) 16))
    (Z.shiftl (at_ p 6) 8)) (at_ p 7).

Definition PEEK_U32 (p : bytes) : Z :=
  Z.lor (Z.lor (Z.lor
    (Z.shiftl (at_ p 0) 24) (Z.shiftl (at_ p 1) 16)) (Z.shiftl (at_ p 2) 8))
    (at_ p 3).

Definition PEEK_U16 (p : bytes) : Z :=
  Z.lor (Z.shiftl (at_ p 0) 8) (at_ p 1).

(** ** Positional form *)

(** The value of a big-endian byte string. *)
Definition be_val (p : bytes) : Z :=
  fold_left (fun acc b => acc * 256 + byte_val b) p 0.

Lemma lor_byte a b : 0 <= b < 256 -> Z.lor (Z.shiftl a 8) b = a * 256 + b.
Proof. intros. now rewrite (lor_shiftl_add a b 8) by lia. Qed.

Lemma lor_byte_shift a b m k : k = 8 + m -> 0 <= b < 256 -> 0 <= m ->
  Z.lor (Z.shiftl a k) (Z.shiftl b m) = Z.shiftl (a * 256 + b) m.
Proof. intros -> **. now rewrite (lor_shiftl_shiftl a b 8 m) by lia. Qed.

(** Collapse a chain of shifted bytes, innermost first. *)
Ltac join_bytes :=
  repeat match goal with
  | |- context [Z.lor (Z.shiftl ?a ?k) (Z.shiftl ?b ?m)] =>
      rewrite (lor_byte_shift a b m k) by (byte_ranges; lia)
  | |- context [Z.lor (Z.shiftl ?a 8) ?b] =>
      rewrite (lor_byte a b) by (byte_ranges; lia)
  end.

Lemma PEEK_U64_val b0 b1 b2 b3 b4 b5 b6 b7 :
  PEEK_U64 [b0; b1; b2; b3; b4; b5; b6; b7] = be_val [b0; b1; b2; b3; b4; b5; b6; b7].
Proof.
  unfold PEEK_U64, at_, be_val. cbn [nth fold_left]. join_bytes. lia.
Qed.

Lemma PEEK_U32_val b0 b1 b2 b3 :
  PEEK_U32 [b0; b1; b2; b3] = be_val [b0; b1; b2; b3].
Proof.
  unfold PEEK_U32, at_, be_val. cbn [nth fold_left]. join_bytes. lia.
Qed.

Lemma PEEK_U16_val b0 b1 : PEEK_U16 [b0; b1] = be_val [b0; b1].
Proof.
  unfold PEEK_U16, at_, be_val. cbn [nth fold_left]. join_bytes. lia.
Qed.

Lemma poke_byte v k : 0 <= k ->
  byte_val (byte_of_Z (Z.land (Z.shiftr v k) 255)) = (v / 2 ^ k) mod 256.
Proof.
  intros. rewrite byte_val_of_Z, land_255, Z.mod_mod, Z.shiftr_div_pow2 by lia. done.
Qed.

Lemma poke_byte0 v : byte_val (byte_of_Z (Z.land v 255)) = v mod 256.
Proof. now rewrite byte_val_of_Z, land_255, Z.mod_mod by lia. Qed.

(** One more byte below the ones already decoded. *)
Lemma mod_step v n k j m : j = 8 + k -> m = 256 * n -> 0 <= k -> 0 < n ->
  (v / 2 ^ j) mod n * 256 + (v / 2 ^ k) mod 256 = (v / 2 ^ k) mod m.
Proof.
  intros -> -> **. rewrite Z.pow_add_r, (Z.mul_comm (2 ^ 8)), <- Z.div_div by lia.
  change (2 ^ 8) with 256. rewrite Z.rem_mul_r by lia. lia.
Qed.

Lemma mod_step0 v n m : m = 256 * n -> 0 < n ->
  (v / 2 ^ 8) mod n * 256 + v mod 256 = v mod m.
Proof.
  intros. pose proof (mod_step v n 0 8 m eq_refl ltac:(assumption)) as E.
  rewrite Z.pow_0_r, Z.div_1_r in E. apply E; lia.
Qed.

Ltac decode_poke :=
  unfold be_val; cbn [fold_left]; rewrite ?poke_byte, ?poke_byte0, ?Z.mul_0_l, ?Z.add_0_l by lia.

Lemma PEEK_POKE_U16 v : PEEK_U16 (POKE_U16 v) = u16 v.
Proof.
  unfold POKE_U16. rewrite PEEK_U16_val. decode_poke. now apply mod_step0.
Qed.

Lemma PEEK_POKE_U32 v : PEEK_U32 (POKE_U32 v) = u32 v.
Proof.
  unfold POKE_U32. rewrite PEEK_U32_val. decode_poke.
  rewrite (mod_step v 256 16 24 (2 ^ 16)), (mod_step v (2 ^ 16) 8 16 (2 ^ 24))
    by lia.
  now apply mod_step0.
Qed.

Lemma PEEK_POKE_U64 v : PEEK_U64 (POKE_U64 v) = u64 v.
Proof.
  unfold POKE_U64. rewrite PEEK_U64_val. decode_poke.
  rewrite (mod_step v 256 48 56 (2 ^ 16)), (mod_step v (2 ^ 16) 40 48 (2 ^ 24)),
    (mod_step v (2 ^ 24) 32 40 (2 ^ 32)), (mod_step v (2 ^ 32) 24 32 (2 ^ 40)),
    (mod_step v (2 ^ 40) 16 24 (2 ^ 48)), (mod_step v (2 ^ 48) 8 16 (2 ^ 56)) by lia.
  now apply mod_step0.
Qed.

(** ** Decoding is injective *)

Lemma be_val_app p q : be_val (p ++ q) = be_val p * 256 ^ zlen q + be_val q.
Proof.
  unfold be_val. rewrite fold_left_app.
  generalize (fold_left (fun acc b => acc * 256 + byte_val b) p 0). intros a.
  revert a. induction q as [|b q IH] using rev_ind; intros a.
  - unfold zlen. simpl. lia.
  - rewrite !fold_left_app. cbn [fold_left]. rewrite IH, zlen_app.
    change (zlen [b]) with 1. rewrite Z.pow_add_r by (zlen; lia). lia.
Qed.

Lemma be_val_cons b p : be_val (b :: p) = byte_val b * 256 ^ zlen p + be_val p.
Proof. apply (be_val_app [b] p). Qed.

Lemma be_val_range p : 0 <= be_val p < 256 ^ zlen p.
Proof.
  induction p as [|b p IH]; [unfold be_val, zlen; simpl; lia|].
  rewrite be_val_cons, zlen_cons, Z.pow_add_r by (zlen; lia).
  byte_ranges. nia.
Qed.

Lemma be_val_inj p q : zlen p = zlen q -> be_val p = be_val q -> p = q.
Proof.
  revert q. induction p as [|b p IH]; intros [|c q] Hl Hv;
    try (unfold zlen in Hl; simpl in Hl; lia); [done|].
  rewrite !zlen_cons in Hl. rewrite !be_val_cons in Hv.
  assert (zlen p = zlen q) as Hpq by lia. rewrite Hpq in Hv.
  pose proof (be_val_range p). pose proof (be_val_range q). rewrite Hpq in *.
  assert (byte_val b = byte_val c) as Hb by nia.
  rewrite (byte_val_inj b c Hb), (IH q) by nia. done.
Qed.

Lemma PEEK_U32_range b0 b1 b2 b3 : 0 <= PEEK_U32 [b0; b1; b2; b3] < 2 ^ 32.
Proof. rewrite PEEK_U32_val. apply (be_val_range [b0; b1; b2; b3]). Qed.

Lemma zlen_POKE_U64 v : zlen (POKE_U64 v) = 8.
Proof. reflexivity. Qed.
Lemma zlen_POKE_U32 v : zlen (POKE_U32 v) = 4.
Proof. reflexivity. Qed.
Lemma zlen_POKE_U16 v : zlen (POKE_U16 v) = 2.
Proof. reflexivity. Qed.
#[export] Hint Rewrite zlen_POKE_U64 zlen_POKE_U32 zlen_POKE_U16 : zlen.

Lemma POKE_PEEK_U32 b0 b1 b2 b3 : POKE_U32 (PEEK_U32 [b0; b1; b2; b3]) = [b0; b1; b2; b3].
Proof.
  apply be_val_inj; [done|].
  assert (E : be_val (POKE_U32 (PEEK_U32 [b0; b1; b2; b3])) =
              PEEK_U32 (POKE_U32 (PEEK_U32 [b0; b1; b2; b3])))
    by (symmetry; apply PEEK_U32_val).
  rewrite E, PEEK_POKE_U32, u32_small; [apply PEEK_U32_val|apply PEEK_U32_range].
Qed.
