(* ===== verification/SshQueue.v ===== *)
(** The buffers as their users see them: queues of bytes.

    Writers append an encoding, readers split a prefix off.  SshBufIO shows that the
    code over the shared store refines these functions, SshBufClient that this holds for
    any interleaving of calls on any number of buffers; the components that only use
    buffers are modelled on the lists directly. *)

From S2P Require Import Prelude SshErr Wire.

Definition SSHBUF_SIZE_MAX : Z := 0x8000000.

(** [memchr(p, '\0', len)]: the index of the first zero byte. *)
Fixpoint memchr0 (v : bytes) : option Z :=
  match v with
  | [] => None
  | c :: v => if byte_val c =? 0 then Some 0
              else option_map (Z.add 1) (memchr0 v)
  end.

(** Drop the leading zero bytes of a number. *)
Fixpoint skip_zeros (v : bytes) : bytes :=
  match v with
  | c :: v' => if byte_val c =? 0 then skip_zeros v' else v
  | [] => []
  end.

Definition msb_set (v : bytes) : bool :=
  match v with
  | c :: _ => negb (Z.land (byte_val c) 0x80 =? 0)
  | [] => false
  end.

(** ** The abstract readers *)

Definition rd (n : Z) (c : bytes) : res (bytes * bytes) :=
  if zlen c <? n then Err SSH_ERR_MESSAGE_INCOMPLETE
  else Ok (take (Z.to_nat n) c, drop (Z.to_nat n) c).

Definition rd_map {A B} (f : A -> B) (r : res (A * bytes)) : res (B * bytes) :=
  match r with Ok (a, c) => Ok (f a, c) | Err e => Err e end.

Definition rd_u8 (c : bytes) : res (Z * bytes) := rd_map (fun v => at_ v 0) (rd 1 c).
Definition rd_u16 (c : bytes) : res (Z * bytes) := rd_map PEEK_U16 (rd 2 c).
Definition rd_u32 (c : bytes) : res (Z * bytes) := rd_map PEEK_U32 (rd 4 c).
Definition rd_u64 (c : bytes) : res (Z * bytes) := rd_map PEEK_U64 (rd 8 c).

(** A string: four bytes of length, then that many bytes. *)
Definition rd_string (c : bytes) : res (bytes * bytes) :=
  match rd_u32 c with
  | Err e => Err e
  | Ok (len, rest) =>
    if len >? SSHBUF_SIZE_MAX - 4 then Err SSH_ERR_STRING_TOO_LARGE
    else rd len rest
  end.

(** A C string: a NUL may only end it. *)
Definition rd_cstring (c : bytes) : res (bytes * bytes) :=
  match rd_string c with
  | Err e => Err e
  | Ok (v, rest) =>
    match memchr0 v with
    | Some z => if z <? zlen v - 1 then Err SSH_ERR_INVALID_FORMAT else Ok (v, rest)
    | None => Ok (v, rest)
    end
  end.

(** The encodings of the writers. *)
Definition wr_string (v : bytes) : bytes := POKE_U32 (zlen v) ++ v.

Definition wr_bignum2 (v : bytes) : bytes :=
  let s := skip_zeros v in
  wr_string ((if msb_set s then [x00] else []) ++ s).

(** [sshbuf_put] on an unshared buffer limited to [max_size] bytes. *)
Definition q_put (max_size : Z) (q v : bytes) : res bytes :=
  if zlen q + zlen v >? max_size then Err SSH_ERR_NO_BUFFER_SPACE
  else Ok (q ++ v).

(** ** Round trips on lists *)

Lemma rd_app n v rest : n = zlen v -> rd n (v ++ rest) = Ok (v, rest).
Proof.
  intros ->. unfold rd. rewrite zlen_app. pose proof (zlen_nonneg rest).
  destruct (Z.ltb_spec (zlen v + zlen rest) (zlen v)); [lia|].
  unfold zlen. by rewrite Nat2Z.id, take_app_length, drop_app_length.
Qed.

Lemma rd_u8_app v rest : rd_u8 (byte_of_Z v :: rest) = Ok (u8 v, rest).
Proof.
  unfold rd_u8. change (byte_of_Z v :: rest) with ([byte_of_Z v] ++ rest).
  rewrite rd_app by done. cbn [rd_map]. unfold at_. cbn [nth].
  by rewrite byte_val_of_Z.
Qed.

Lemma rd_u16_app v rest : rd_u16 (POKE_U16 v ++ rest) = Ok (u16 v, rest).
Proof. unfold rd_u16. rewrite rd_app by done. cbn [rd_map]. by rewrite PEEK_POKE_U16. Qed.

Lemma rd_u32_app v rest : rd_u32 (POKE_U32 v ++ rest) = Ok (u32 v, rest).
Proof. unfold rd_u32. rewrite rd_app by done. cbn [rd_map]. by rewrite PEEK_POKE_U32. Qed.

Lemma rd_u64_app v rest : rd_u64 (POKE_U64 v ++ rest) = Ok (u64 v, rest).
Proof. unfold rd_u64. rewrite rd_app by done. cbn [rd_map]. by rewrite PEEK_POKE_U64. Qed.

Lemma rd_string_app v rest : zlen v <= SSHBUF_SIZE_MAX - 4 ->
  rd_string (wr_string v ++ rest) = Ok (v, rest).
Proof.
  intros Hv. unfold rd_string, wr_string. rewrite <- app_assoc, rd_u32_app.
  pose proof (zlen_nonneg v). unfold SSHBUF_SIZE_MAX in *.
  rewrite u32_small, Z.gtb_ltb by lia.
  destruct (Z.ltb_spec (0x8000000 - 4) (zlen v)); [lia|]. by apply rd_app.
Qed.
