(* ===== verification/SshBuf.v ===== *)
(** The reference-counted buffers of sshbuf.c and sshbuf-getput-basic.c, over an
    explicit heap.

    Buffers share memory: [sshbuf_fromb] and [sshbuf_froms] make a read-only child
    that points into its parent's storage, and the reference counts decide when the
    parent may be written to or released.  The model therefore has a store: memory
    blocks, live [struct sshbuf] objects, and pointers as block and offset.  Every
    access is checked; a read or write outside a live block, a use of a released
    object, a double free, and the [raise(SIGSEGV)] of [sshbuf_check_sanity] are the
    outcome [Crash].  [malloc] may fail: the heap carries the schedule of the
    failures to come. *)

From S2P Require Import Prelude SshErr Wire SshQueue.

(** ** The store *)

Abbreviation blk := positive (only parsing).
Abbreviation bufid := positive (only parsing).

(** A pointer: a block and an offset in it. *)
Record ptr := Ptr { pblk : blk; poff : Z }.

#[global] Instance ptr_eq_dec : EqDecision ptr.
Proof. solve_decision. Defined.

(** Pointer arithmetic. *)
Definition padd (p : ptr) (n : Z) : ptr := Ptr (pblk p) (poff p + n).

(** [struct sshbuf]; [None] is the null pointer. *)
Record sshbuf := mk_sshbuf {
  d : option ptr;
  cd : option ptr;
  off : Z;
  size_ : Z;
  max_size : Z;
  alloc : Z;
  readonly : bool;
  refcount : Z;
  parent : option bufid
}.

Record heap := mk_heap {
  mem : gmap blk bytes;
  bufs : gmap bufid sshbuf;
  next_id : positive;      (* fresh identifier for a block or an object *)
  oom : list bool;         (* [true]: the allocation fails; exhausted: none does *)
  getpagesize : Z
}.

Inductive outcome (A : Type) : Type :=
| Ret (a : A) (h : heap)
| Fail (e : ssh_error) (h : heap)
| Crash.
Arguments Ret {A} a h.
Arguments Fail {A} e h.
Arguments Crash {A}.

(** Computations over the store: [Fail] is a non-zero return value. *)
Definition M (A : Type) : Type := heap -> outcome A.

Definition mret {A} (a : A) : M A := Ret a.
Definition mfail {A} (e : ssh_error) : M A := Fail e.
Definition mcrash {A} : M A := fun _ => Crash.
Definition mbind {A B} (m : M A) (f : A -> M B) : M B := fun h =>
  match m h with
  | Ret a h' => f a h'
  | Fail e h' => Fail e h'
  | Crash => Crash
  end.
(** Run [m] and give its return value to a caller that tests it. *)
Definition mtry {A} (m : M A) : M (res A) := fun h =>
  match m h with
  | Ret a h' => Ret (Ok a) h'
  | Fail e h' => Ret (Err e) h'
  | Crash => Crash
  end.

Declare Scope heap_scope.
Delimit Scope heap_scope with heap.
Notation "'let!' x := m 'in' k" := (mbind m (fun x => k))
  (at level 10, x name, m at level 100, k at level 200) : heap_scope.
Notation "m ;; k" := (mbind m (fun _ => k))
  (at level 100, right associativity) : heap_scope.
Open Scope heap_scope.

(** ** Memory primitives *)

Definition set_mem (m : gmap blk bytes) (h : heap) : heap :=
  mk_heap m (bufs h) (next_id h) (oom h) (getpagesize h).
Definition set_bufs (m : gmap bufid sshbuf) (h : heap) : heap :=
  mk_heap (mem h) m (next_id h) (oom h) (getpagesize h).

(** One allocation request against the schedule: does it succeed? *)
Definition request : M bool := fun h =>
  match oom h with
  | [] => Ret true h
  | f :: fs => Ret (negb f) (mk_heap (mem h) (bufs h) (next_id h) fs (getpagesize h))
  end.

(** A new block with the given contents. *)
Definition new_block (c : bytes) : M ptr := fun h =>
  Ret (Ptr (next_id h) 0)
      (mk_heap (<[next_id h := c]> (mem h)) (bufs h) (Pos.succ (next_id h)) (oom h)
         (getpagesize h)).

Definition calloc (n size : Z) : M (option ptr) :=
  let! ok := request in
  if ok then let! p := new_block (zeros (n * size)) in mret (Some p)
  else mret None.

(** [n] bytes at [p]. *)
Definition load (p : ptr) (n : Z) : M bytes := fun h =>
  match mem h !! pblk p with
  | Some c => if (0 <=? poff p) && (0 <=? n) && (poff p + n <=? zlen c)
              then Ret (slice (poff p) n c) h else Crash
  | None => Crash
  end.

(** Write [v] at [p]. *)
Definition store (p : ptr) (v : bytes) : M unit := fun h =>
  match mem h !! pblk p with
  | Some c => if (0 <=? poff p) && (poff p + zlen v <=? zlen c)
              then Ret tt (set_mem (<[pblk p := blit (poff p) v c]> (mem h)) h)
              else Crash
  | None => Crash
  end.

(** [free]: the pointer must be the start of a live block. *)
Definition free (p : ptr) : M unit := fun h =>
  match mem h !! pblk p with
  | Some _ => if poff p =? 0 then Ret tt (set_mem (delete (pblk p) (mem h)) h)
              else Crash
  | None => Crash
  end.

(** Dereference of a pointer that may be null. *)
Definition deref (p : option ptr) : M ptr :=
  match p with Some q => mret q | None => mcrash end.

Definition get_buf (b : bufid) : M sshbuf := fun h =>
  match bufs h !! b with Some s => Ret s h | None => Crash end.

Definition set_buf (b : bufid) (s : sshbuf) : M unit := fun h =>
  match bufs h !! b with
  | Some _ => Ret tt (set_bufs (<[b := s]> (bufs h)) h)
  | None => Crash
  end.

(** [2^32], the square root of [SIZE_MAX + 1]. *)
Definition MUL_NO_OVERFLOW : Z := Z.shiftl 1 32.

(** openbsd-compat/recallocarray.c. *)
Definition recallocarray (ptr_ : option ptr) (oldnmemb newnmemb size : Z)
  : M (option ptr) :=
  match ptr_ with
  | None => calloc newnmemb size
  | Some p =>
    if ((newnmemb >=? MUL_NO_OVERFLOW) || (size >=? MUL_NO_OVERFLOW)) &&
       (newnmemb >? 0) && (SIZE_MAX / newnmemb <? size) then mret None
    else
    let newsize := u64 (newnmemb * size) in
    if ((oldnmemb >=? MUL_NO_OVERFLOW) || (size >=? MUL_NO_OVERFLOW)) &&
       (oldnmemb >? 0) && (SIZE_MAX / oldnmemb <? size) then mret None
    else
    let oldsize := u64 (oldnmemb * size) in
    fun h =>
    if (newsize <=? oldsize) && (oldsize - newsize <? oldsize / 2) &&
       (oldsize - newsize <? getpagesize h)
    then (store (padd p newsize) (zeros (oldsize - newsize)) ;; mret (Some p)) h
    else
    (let! ok := request in
     if negb ok then mret None
     else
     let! c := (if newsize >? oldsize
                then let! v := load p oldsize in mret (v ++ zeros (newsize - oldsize))
                else load p newsize) in
     let! q := new_block c in
     store p (zeros oldsize) ;;
     free p ;;
     mret (Some q)) h
  end.

(** ** sshbuf.c *)

Definition SSHBUF_REFS_MAX : Z := 0x100000.
Definition SSHBUF_MAX_BIGNUM : Z := 16384 / 8.
Definition SSHBUF_SIZE_INIT : Z := 256.
Definition SSHBUF_SIZE_INC : Z := 256.
Definition SSHBUF_PACK_MIN : Z := 8192.

Definition ROUNDUP (x y : Z) : Z := u64 ((u64 (x + (y - 1)) / y) * y).

(** Record updates. *)
Definition with_view (o z : Z) (s : sshbuf) : sshbuf :=
  mk_sshbuf (d s) (cd s) o z (max_size s) (alloc s) (readonly s) (refcount s) (parent s).
Definition with_storage (p : option ptr) (n : Z) (s : sshbuf) : sshbuf :=
  mk_sshbuf p p (off s) (size_ s) (max_size s) n (readonly s) (refcount s) (parent s).
Definition with_max (m : Z) (s : sshbuf) : sshbuf :=
  mk_sshbuf (d s) (cd s) (off s) (size_ s) m (alloc s) (readonly s) (refcount s) (parent s).
Definition with_refs (n : Z) (s : sshbuf) : sshbuf :=
  mk_sshbuf (d s) (cd s) (off s) (size_ s) (max_size s) (alloc s) (readonly s) n (parent s).
Definition with_parent (p : option bufid) (s : sshbuf) : sshbuf :=
  mk_sshbuf (d s) (cd s) (off s) (size_ s) (max_size s) (alloc s) (readonly s)
    (refcount s) p.

(** The condition [sshbuf_check_sanity] accepts. *)
Definition sane (s : sshbuf) : bool :=
  negb ((negb (readonly s) && negb (bool_decide (d s = cd s))) ||
        (refcount s <? 1) || (refcount s >? SSHBUF_REFS_MAX) ||
        bool_decide (cd s = None) ||
        (max_size s >? SSHBUF_SIZE_MAX) ||
        (alloc s >? max_size s) ||
        (size_ s >? alloc s) ||
        (off s >? size_ s)).

(** A buffer that is not sane raises SIGSEGV with the default action. *)
Definition sshbuf_check_sanity (b : bufid) : M unit :=
  let! s := get_buf b in
  if sane s then mret tt else mcrash.

Definition sshbuf_maybe_pack (b : bufid) (force : bool) : M unit :=
  let! s := get_buf b in
  if (off s =? 0) || readonly s || (refcount s >? 1) then mret tt
  else if force || ((off s >=? SSHBUF_PACK_MIN) && (off s >=? size_ s / 2)) then
    let! p := deref (d s) in
    let! v := load (padd p (off s)) (size_ s - off s) in
    store p v ;;
    set_buf b (with_view 0 (size_ s - off s) s)
  else mret tt.

(** Allocation of the [struct sshbuf] itself. *)
Definition new_buf (s : sshbuf) : M bufid := fun h =>
  Ret (next_id h)
      (mk_heap (mem h) (<[next_id h := s]> (bufs h)) (Pos.succ (next_id h)) (oom h)
         (getpagesize h)).

Definition sshbuf_new : M (option bufid) :=
  let! ok := request in
  if negb ok then mret None
  else
  let! p := calloc 1 SSHBUF_SIZE_INIT in
  match p with
  | None => mret None
  | Some _ =>
    let! b := new_buf (mk_sshbuf p p 0 0 SSHBUF_SIZE_MAX SSHBUF_SIZE_INIT false 1 None) in
    mret (Some b)
  end.

Definition sshbuf_from (blob : option ptr) (len : Z) : M (option bufid) :=
  match blob with
  | None => mret None
  | Some p =>
    if len >? SSHBUF_SIZE_MAX then mret None
    else
    let! ok := request in
    if negb ok then mret None
    else let! b := new_buf (mk_sshbuf None (Some p) 0 len len len true 1 None) in
         mret (Some b)
  end.

Definition sshbuf_set_parent (child parent_ : bufid) : M unit :=
  sshbuf_check_sanity child ;;
  sshbuf_check_sanity parent_ ;;
  let! c := get_buf child in
  set_buf child (with_parent (Some parent_) c) ;;
  let! p := get_buf parent_ in
  set_buf parent_ (with_refs (u32 (refcount p + 1)) p).

Definition sshbuf_len (b : bufid) : M Z :=
  sshbuf_check_sanity b ;;
  let! s := get_buf b in mret (size_ s - off s).

Definition sshbuf_avail (b : bufid) : M Z :=
  sshbuf_check_sanity b ;;
  let! s := get_buf b in
  if readonly s || (refcount s >? 1) then mret 0
  else mret (max_size s - (size_ s - off s)).

Definition sshbuf_ptr (b : bufid) : M ptr :=
  sshbuf_check_sanity b ;;
  let! s := get_buf b in
  let! p := deref (cd s) in mret (padd p (off s)).

Definition sshbuf_mutable_ptr (b : bufid) : M (option ptr) :=
  sshbuf_check_sanity b ;;
  let! s := get_buf b in
  if readonly s || (refcount s >? 1) then mret None
  else let! p := deref (d s) in mret (Some (padd p (off s))).

(** [sshbuf_free], [n] bounding the chain of parents. *)
Fixpoint sshbuf_free_chain (n : nat) (buf : option bufid) : M unit :=
  match n, buf with
  | _, None => mret tt
  | O, Some _ => mcrash
  | S n, Some b =>
    sshbuf_check_sanity b ;;
    let! s := get_buf b in
    let rc := u32 (refcount s - 1) in
    set_buf b (with_refs rc s) ;;
    if rc >? 0 then mret tt
    else
    sshbuf_free_chain n (parent s) ;;
    let! s := get_buf b in
    set_buf b (with_parent None s) ;;
    (if readonly s then mret tt
     else let! p := deref (d s) in
          store p (zeros (alloc s)) ;; free p) ;;
    fun h => Ret tt (set_bufs (delete b (bufs h)) h)
  end.

(** The chain of parents is at most as long as there are buffers. *)
Definition sshbuf_free (buf : option bufid) : M unit := fun h =>
  sshbuf_free_chain (S (size (bufs h))) buf h.

Definition sshbuf_fromb (buf : bufid) : M (option bufid) :=
  sshbuf_check_sanity buf ;;
  let! p := sshbuf_ptr buf in
  let! n := sshbuf_len buf in
  let! ret := sshbuf_from (Some p) n in
  match ret with
  | None => mret None
  | Some c =>
    let! r := mtry (sshbuf_set_parent c buf) in
    match r with
    | Err _ => sshbuf_free (Some c) ;; mret None
    | Ok _ => mret (Some c)
    end
  end.

Definition sshbuf_reset (b : bufid) : M unit :=
  let! s := get_buf b in
  if readonly s || (refcount s >? 1) then set_buf b (with_view (size_ s) (size_ s) s)
  else
  sshbuf_check_sanity b ;;
  set_buf b (with_view 0 0 s) ;;
  (if negb (alloc s =? SSHBUF_SIZE_INIT) then
     let! q := recallocarray (d s) (alloc s) SSHBUF_SIZE_INIT 1 in
     match q with
     | Some _ => set_buf b (with_storage q SSHBUF_SIZE_INIT (with_view 0 0 s))
     | None => mret tt
     end
   else mret tt) ;;
  let! s := get_buf b in
  let! p := deref (d s) in
  store p (zeros SSHBUF_SIZE_INIT).

Definition sshbuf_set_max_size (b : bufid) (max : Z) : M unit :=
  sshbuf_check_sanity b ;;
  let! s := get_buf b in
  if max =? max_size s then mret tt
  else if readonly s || (refcount s >? 1) then mfail SSH_ERR_BUFFER_READ_ONLY
  else if max >? SSHBUF_SIZE_MAX then mfail SSH_ERR_NO_BUFFER_SPACE
  else
  sshbuf_maybe_pack b (max <? size_ s) ;;
  let! s := get_buf b in
  (if (max <? alloc s) && (max >? size_ s) then
     let rlen := if size_ s <? SSHBUF_SIZE_INIT then SSHBUF_SIZE_INIT
                 else ROUNDUP (size_ s) SSHBUF_SIZE_INC in
     let rlen := if rlen >? max then max else rlen in
     let! dp := recallocarray (d s) (alloc s) rlen 1 in
     match dp with
     | None => mfail SSH_ERR_ALLOC_FAIL
     | Some _ => set_buf b (with_storage dp rlen s)
     end
   else mret tt) ;;
  let! s := get_buf b in
  if max <? alloc s then mfail SSH_ERR_NO_BUFFER_SPACE
  else set_buf b (with_max max s).

Definition sshbuf_check_reserve (b : bufid) (len : Z) : M unit :=
  sshbuf_check_sanity b ;;
  let! s := get_buf b in
  if readonly s || (refcount s >? 1) then mfail SSH_ERR_BUFFER_READ_ONLY
  else if (len >? max_size s) || (max_size s - len <? size_ s - off s)
  then mfail SSH_ERR_NO_BUFFER_SPACE
  else mret tt.

(** The new allocation size: in units of [SSHBUF_SIZE_INC] unless that overflows
    [max_size]. *)
Definition allocate_rlen (s : sshbuf) (len : Z) : Z :=
  let need := u64 (len + size_ s - alloc s) in
  let rlen := ROUNDUP (u64 (alloc s + need)) SSHBUF_SIZE_INC in
  if rlen >? max_size s then u64 (alloc s + need) else rlen.

Definition sshbuf_allocate (b : bufid) (len : Z) : M unit :=
  sshbuf_check_reserve b len ;;
  let! s := get_buf b in
  sshbuf_maybe_pack b (u64 (size_ s + len) >? max_size s) ;;
  let! s := get_buf b in
  if u64 (len + size_ s) <=? alloc s then mret tt
  else
  let rlen := allocate_rlen s len in
  let! dp := recallocarray (d s) (alloc s) rlen 1 in
  match dp with
  | None => mfail SSH_ERR_ALLOC_FAIL
  | Some _ =>
    set_buf b (with_storage dp rlen s) ;;
    sshbuf_check_reserve b len
  end.

Definition sshbuf_reserve (b : bufid) (len : Z) : M ptr :=
  sshbuf_allocate b len ;;
  let! s := get_buf b in
  let! p := deref (d s) in
  set_buf b (with_view (off s) (u64 (size_ s + len)) s) ;;
  mret (padd p (size_ s)).

Definition sshbuf_consume (b : bufid) (len : Z) : M unit :=
  sshbuf_check_sanity b ;;
  if len =? 0 then mret tt
  else
  let! n := sshbuf_len b in
  if len >? n then mfail SSH_ERR_MESSAGE_INCOMPLETE
  else
  let! s := get_buf b in
  let off' := u64 (off s + len) in
  if off' =? size_ s then set_buf b (with_view 0 0 s)
  else set_buf b (with_view off' (size_ s) s).

Definition sshbuf_consume_end (b : bufid) (len : Z) : M unit :=
  sshbuf_check_sanity b ;;
  if len =? 0 then mret tt
  else
  let! n := sshbuf_len b in
  if len >? n then mfail SSH_ERR_MESSAGE_INCOMPLETE
  else
  let! s := get_buf b in
  set_buf b (with_view (off s) (size_ s - len) s).
