(* ===== verification/SshBufGetPut.v ===== *)
(** Typed reads and writes of sshbuf-getput-basic.c, over the store of SshBuf. *)

From S2P Require Import Prelude SshErr Wire SshQueue SshBuf.

(** What a [const void *v, size_t len] argument points at: memory of the caller that
    no buffer can touch, or memory of the store, which may be a buffer's own. *)
Inductive src :=
| Outside (v : bytes)
| Inside (p : ptr) (n : Z).

Definition src_len (v : src) : Z :=
  match v with Outside v => zlen v | Inside _ n => n end.

Definition load_src (v : src) : M bytes :=
  match v with Outside v => mret v | Inside p n => load p n end.

(** [sshbuf_get] into caller memory: the bytes copied out. *)
Definition sshbuf_get (b : bufid) (len : Z) : M bytes :=
  let! p := sshbuf_ptr b in
  sshbuf_consume b len ;;
  if len =? 0 then mret [] else load p len.

Definition sshbuf_get_u64 (b : bufid) : M Z :=
  let! p := sshbuf_ptr b in
  sshbuf_consume b 8 ;;
  let! v := load p 8 in mret (PEEK_U64 v).

Definition sshbuf_get_u32 (b : bufid) : M Z :=
  let! p := sshbuf_ptr b in
  sshbuf_consume b 4 ;;
  let! v := load p 4 in mret (PEEK_U32 v).

Definition sshbuf_get_u16 (b : bufid) : M Z :=
  let! p := sshbuf_ptr b in
  sshbuf_consume b 2 ;;
  let! v := load p 2 in mret (PEEK_U16 v).

Definition sshbuf_get_u8 (b : bufid) : M Z :=
  let! p := sshbuf_ptr b in
  sshbuf_consume b 1 ;;
  let! v := load p 1 in mret (at_ v 0).

Definition check_offset (b : bufid) (wr : bool) (offset len : Z) : M unit :=
  let! _p := sshbuf_ptr b in
  if offset >=? SIZE_MAX - len then mfail SSH_ERR_INVALID_ARGUMENT
  else
  let! n := sshbuf_len b in
  if offset + len >? n then
    mfail (if wr then SSH_ERR_NO_BUFFER_SPACE else SSH_ERR_MESSAGE_INCOMPLETE)
  else mret tt.

Definition check_roffset (b : bufid) (offset len : Z) : M ptr :=
  check_offset b false offset len ;;
  let! p := sshbuf_ptr b in mret (padd p offset).

Definition sshbuf_peek_u64 (b : bufid) (offset : Z) : M Z :=
  let! p := check_roffset b offset 8 in
  let! v := load p 8 in mret (PEEK_U64 v).

Definition sshbuf_peek_u32 (b : bufid) (offset : Z) : M Z :=
  let! p := check_roffset b offset 4 in
  let! v := load p 4 in mret (PEEK_U32 v).

Definition sshbuf_peek_u16 (b : bufid) (offset : Z) : M Z :=
  let! p := check_roffset b offset 2 in
  let! v := load p 2 in mret (PEEK_U16 v).

Definition sshbuf_peek_u8 (b : bufid) (offset : Z) : M Z :=
  let! p := check_roffset b offset 1 in
  let! v := load p 1 in mret (at_ v 0).

(** A string in place: a pointer into the buffer's memory and a length. *)
Definition sshbuf_peek_string_direct (b : bufid) : M (ptr * Z) :=
  let! p := sshbuf_ptr b in
  let! n := sshbuf_len b in
  if n <? 4 then mfail SSH_ERR_MESSAGE_INCOMPLETE
  else
  let! v := load p 4 in
  let len := PEEK_U32 v in
  if len >? SSHBUF_SIZE_MAX - 4 then mfail SSH_ERR_STRING_TOO_LARGE
  else if n - 4 <? len then mfail SSH_ERR_MESSAGE_INCOMPLETE
  else mret (padd p 4, len).

Definition sshbuf_get_string_direct (b : bufid) : M (ptr * Z) :=
  let! pl := sshbuf_peek_string_direct b in
  let! r := mtry (sshbuf_consume b (snd pl + 4)) in
  match r with
  | Err _ => mfail SSH_ERR_INTERNAL_ERROR
  | Ok _ => mret pl
  end.

(** The copy is followed by a NUL; the model returns the [len] bytes before it. *)
Definition sshbuf_get_string (b : bufid) : M bytes :=
  let! pl := sshbuf_get_string_direct b in
  let! ok := request in
  if negb ok then mfail SSH_ERR_ALLOC_FAIL
  else if snd pl =? 0 then mret [] else load (fst pl) (snd pl).

(** [sshbuf_skip_string] is the macro for a string read with null results. *)
Definition sshbuf_skip_string (b : bufid) : M unit :=
  let! _pl := sshbuf_get_string_direct b in mret tt.

Definition sshbuf_get_cstring (b : bufid) : M bytes :=
  let! pl := sshbuf_peek_string_direct b in
  let p := fst pl in
  let len := snd pl in
  let! bad := (if len >? 0 then
                 let! v := load p len in
                 mret match memchr0 v with Some z => z <? len - 1 | None => false end
               else mret false) in
  if (bad : bool) then mfail SSH_ERR_INVALID_FORMAT
  else
  let! r := mtry (sshbuf_skip_string b) in
  match r with
  | Err _ => mfail SSH_ERR_INTERNAL_ERROR  (* return -1 *)
  | Ok _ =>
    let! ok := request in
    if negb ok then mfail SSH_ERR_ALLOC_FAIL
    else if len =? 0 then mret [] else load p len
  end.

Definition sshbuf_get_stringb (b v : bufid) : M unit :=
  let! _pl := sshbuf_peek_string_direct b in
  let! len := sshbuf_get_u32 b in
  let! p := sshbuf_reserve v len in
  let! c := sshbuf_get b len in
  if len =? 0 then mret tt else store p c.

Definition sshbuf_put (b : bufid) (v : src) : M unit :=
  let! p := sshbuf_reserve b (src_len v) in
  if src_len v =? 0 then mret tt
  else let! c := load_src v in store p c.

Definition sshbuf_putb (b : bufid) (v : option bufid) : M unit :=
  match v with
  | None => mret tt
  | Some v =>
    let! p := sshbuf_ptr v in
    let! n := sshbuf_len v in
    sshbuf_put b (Inside p n)
  end.

(** [text]: what [vsnprintf] formats, [None] when it fails. *)
Definition sshbuf_putfv (b : bufid) (text : option bytes) : M unit :=
  match text with
  | None => mfail SSH_ERR_INVALID_ARGUMENT
  | Some t =>
    if zlen t =? 0 then mret tt
    else
    let! p := sshbuf_reserve b (zlen t + 1) in
    store p (t ++ [x00]) ;;
    sshbuf_consume_end b 1
  end.

Definition sshbuf_put_u64 (b : bufid) (val : Z) : M unit :=
  let! p := sshbuf_reserve b 8 in store p (POKE_U64 val).

Definition sshbuf_put_u32 (b : bufid) (val : Z) : M unit :=
  let! p := sshbuf_reserve b 4 in store p (POKE_U32 val).

Definition sshbuf_put_u16 (b : bufid) (val : Z) : M unit :=
  let! p := sshbuf_reserve b 2 in store p (POKE_U16 val).

Definition sshbuf_put_u8 (b : bufid) (val : Z) : M unit :=
  let! p := sshbuf_reserve b 1 in store p [byte_of_Z val].

Definition check_woffset (b : bufid) (offset len : Z) : M ptr :=
  check_offset b true offset len ;;
  let! m := sshbuf_mutable_ptr b in
  match m with
  | None => mfail SSH_ERR_BUFFER_READ_ONLY
  | Some p => mret (padd p offset)
  end.

Definition sshbuf_poke_u64 (b : bufid) (offset val : Z) : M unit :=
  let! p := check_woffset b offset 8 in store p (POKE_U64 val).

Definition sshbuf_poke_u32 (b : bufid) (offset val : Z) : M unit :=
  let! p := check_woffset b offset 4 in store p (POKE_U32 val).

Definition sshbuf_poke_u16 (b : bufid) (offset val : Z) : M unit :=
  let! p := check_woffset b offset 2 in store p (POKE_U16 val).

Definition sshbuf_poke_u8 (b : bufid) (offset val : Z) : M unit :=
  let! p := check_woffset b offset 1 in store p [byte_of_Z val].

Definition sshbuf_poke (b : bufid) (offset : Z) (v : src) : M unit :=
  let! p := check_woffset b offset (src_len v) in
  let! c := load_src v in store p c.

Definition sshbuf_put_string (b : bufid) (v : src) : M unit :=
  if src_len v >? SSHBUF_SIZE_MAX - 4 then mfail SSH_ERR_NO_BUFFER_SPACE
  else
  let! p := sshbuf_reserve b (src_len v + 4) in
  store p (POKE_U32 (src_len v)) ;;
  if src_len v =? 0 then mret tt
  else let! c := load_src v in store (padd p 4) c.

Definition sshbuf_put_cstring (b : bufid) (v : option bytes) : M unit :=
  sshbuf_put_string b (Outside match v with None => [] | Some v => v end).

Definition sshbuf_put_stringb (b : bufid) (v : option bufid) : M unit :=
  match v with
  | None => sshbuf_put_string b (Outside [])
  | Some v =>
    let! p := sshbuf_ptr v in
    let! n := sshbuf_len v in
    sshbuf_put_string b (Inside p n)
  end.

(** [sshbuf_froms] with [buf] and [bufp] given. *)
Definition sshbuf_froms (b : bufid) : M bufid :=
  let! pl := sshbuf_peek_string_direct b in
  let! ret := sshbuf_from (Some (fst pl)) (snd pl) in
  match ret with
  | None => mfail SSH_ERR_ALLOC_FAIL
  | Some c =>
    let! r := mtry (sshbuf_consume b (snd pl + 4) ;; sshbuf_set_parent c b) in
    match r with
    | Err e => sshbuf_free (Some c) ;; mfail e
    | Ok _ => mret c
    end
  end.

Definition sshbuf_put_bignum2_bytes (b : bufid) (v : bytes) : M unit :=
  if zlen v >? SSHBUF_SIZE_MAX - 5 then mfail SSH_ERR_NO_BUFFER_SPACE
  else
  let s := skip_zeros v in
  let prepend := if msb_set s then 1 else 0 in
  let! p := sshbuf_reserve b (zlen s + 4 + prepend) in
  store p (POKE_U32 (zlen s + prepend)) ;;
  (if prepend =? 1 then store (padd p 4) [x00] else mret tt) ;;
  if zlen s =? 0 then mret tt else store (padd p (4 + prepend)) s.

(** The bytes designated by the returned pointer and length. *)
Definition sshbuf_get_bignum2_bytes_direct (b : bufid) : M bytes :=
  let! pl := sshbuf_peek_string_direct b in
  let olen := snd pl in
  let! v := load (fst pl) olen in
  if msb_set v then mfail SSH_ERR_BIGNUM_IS_NEGATIVE
  else if (olen >? SSHBUF_MAX_BIGNUM + 1) ||
          ((olen =? SSHBUF_MAX_BIGNUM + 1) && negb (at_ v 0 =? 0))
  then mfail SSH_ERR_BIGNUM_TOO_LARGE
  else
  let! r := mtry (sshbuf_consume b (olen + 4)) in
  match r with
  | Err _ => mfail SSH_ERR_INTERNAL_ERROR
  | Ok _ => mret (skip_zeros v)
  end.
