(* ===== verification/SshBufInv.v ===== *)
(** The invariant of the buffer store, and the reasoning rules for it.

    [wf own ext h]: the live buffers of [h] are sane, a writable buffer is the only
    buffer on its block, a child points into its parent's block and its parent is
    alive, a read-only buffer without parent points into caller memory [ext], and
    every reference count is the number of live children plus the references that the
    clients of the library still hold ([own b]).  [frame b h h'] is what an operation on [b] may
    change.  [excl_update] is the one lemma through which every write goes. *)

From S2P Require Import Prelude SshErr Wire SshQueue SshBuf.

(** ** Weakest preconditions *)

Definition wp {A} (m : M A) (h : heap) (Q : res A -> heap -> Prop) : Prop :=
  match m h with
  | Ret a h' => Q (Ok a) h'
  | Fail e h' => Q (Err e) h'
  | Crash => False
  end.

Lemma wp_mono {A} (m : M A) h (P Q : res A -> heap -> Prop) :
  wp m h P -> (forall r h', P r h' -> Q r h') -> wp m h Q.
Proof. unfold wp. destruct (m h); auto. Qed.

Lemma wp_bind {A B} (m : M A) (f : A -> M B) h Q :
  wp m h (fun r h' => match r with
                      | Ok a => wp (f a) h' Q
                      | Err e => Q (Err e) h'
                      end) -> wp (mbind m f) h Q.
Proof. unfold wp, mbind. destruct (m h); auto. Qed.

Lemma wp_ret {A} (a : A) h (Q : res A -> heap -> Prop) : Q (Ok a) h -> wp (mret a) h Q.
Proof. done. Qed.

Lemma wp_fail {A} e h (Q : res A -> heap -> Prop) : Q (Err e) h -> wp (mfail e) h Q.
Proof. done. Qed.

Lemma wp_try {A} (m : M A) h Q : wp m h (fun r h' => Q (Ok r) h') -> wp (mtry m) h Q.
Proof. unfold wp, mtry. destruct (m h); auto. Qed.

Lemma wp_get_buf b s h Q : bufs h !! b = Some s -> Q (Ok s) h -> wp (get_buf b) h Q.
Proof. intros H HQ. unfold wp, get_buf. now rewrite H. Qed.

Lemma wp_set_buf b s s' h Q : bufs h !! b = Some s ->
  Q (Ok tt) (set_bufs (<[b := s']> (bufs h)) h) -> wp (set_buf b s') h Q.
Proof. intros H HQ. unfold wp, set_buf. now rewrite H. Qed.

Lemma wp_load p n c h Q : mem h !! pblk p = Some c ->
  0 <= poff p -> 0 <= n -> poff p + n <= zlen c ->
  Q (Ok (slice (poff p) n c)) h -> wp (load p n) h Q.
Proof.
  intros Hc H1 H2 H3 HQ. unfold wp, load. rewrite Hc.
  repeat (case_bool; try lia); try done; rewrite !andb_true_iff in *; lia.
Qed.

Lemma wp_store p v c h Q : mem h !! pblk p = Some c ->
  0 <= poff p -> poff p + zlen v <= zlen c ->
  Q (Ok tt) (set_mem (<[pblk p := blit (poff p) v c]> (mem h)) h) -> wp (store p v) h Q.
Proof.
  intros Hc H1 H3 HQ. unfold wp, store. rewrite Hc.
  destruct (Z.leb_spec 0 (poff p)); [|lia].
  destruct (Z.leb_spec (poff p + zlen v) (zlen c)); [done|lia].
Qed.

Lemma wp_free k c h Q : mem h !! k = Some c ->
  Q (Ok tt) (set_mem (delete k (mem h)) h) -> wp (free (Ptr k 0)) h Q.
Proof. intros Hc HQ. unfold wp, free. cbn. now rewrite Hc. Qed.

(** ** The invariant *)

Definition bounds (s : sshbuf) : Prop :=
  1 <= refcount s <= SSHBUF_REFS_MAX /\ max_size s <= SSHBUF_SIZE_MAX /\
  alloc s <= max_size s /\ size_ s <= alloc s /\ 0 <= off s <= size_ s.

Lemma sane_of_bounds s : bounds s -> cd s <> None ->
  (readonly s = false -> d s = cd s) -> sane s = true.
Proof.
  unfold sane, bounds. intros H Hcd Hd.
  rewrite (bool_decide_eq_false_2 (cd s = None)) by done.
  assert (negb (readonly s) && negb (bool_decide (d s = cd s)) = false) as ->.
  { destruct (readonly s); [done|]. now rewrite bool_decide_eq_true_2 by auto. }
  rewrite !Z.gtb_ltb.
  repeat match goal with
  | |- context [?a <? ?b] => destruct (Z.ltb_spec a b); [lia|]
  end. done.
Qed.

(** The bytes a buffer holds: those between [off] and [size]. *)
Definition view (h : heap) (s : sshbuf) : bytes :=
  match cd s with
  | Some p => match mem h !! pblk p with
              | Some c => slice (poff p + off s) (size_ s - off s) c
              | None => []
              end
  | None => []
  end.

Definition contents (h : heap) (b : bufid) : bytes :=
  match bufs h !! b with Some s => view h s | None => [] end.

Definition children (h : heap) (b : bufid) : gset bufid :=
  filter (fun c => (bufs h !! c ≫= parent) = Some b) (dom (bufs h)).

Definition buf_ok (ext : gset blk) (h : heap) (b : bufid) (s : sshbuf) : Prop :=
  bounds s /\
  if readonly s then
    d s = None /\ exists p c, cd s = Some p /\ mem h !! pblk p = Some c /\
      0 <= poff p /\ poff p + alloc s <= zlen c /\
      match parent s with
      | None => pblk p ∈ ext
      | Some q => (q < b)%positive /\
          exists sq pq, bufs h !! q = Some sq /\ cd sq = Some pq /\ pblk pq = pblk p
      end
  else
    parent s = None /\ exists k c, d s = Some (Ptr k 0) /\ cd s = Some (Ptr k 0) /\
      mem h !! k = Some c /\ alloc s <= zlen c /\ k ∉ ext.

Record wf (own : bufid -> Z) (ext : gset blk) (h : heap) : Prop := {
  wf_next_buf : forall b s, bufs h !! b = Some s -> (b < next_id h)%positive;
  wf_next_blk : forall k c, mem h !! k = Some c -> (k < next_id h)%positive;
  wf_buf : forall b s, bufs h !! b = Some s -> buf_ok ext h b s;
  wf_excl : forall b1 b2 s1 s2 k, bufs h !! b1 = Some s1 -> bufs h !! b2 = Some s2 ->
    d s1 = Some (Ptr k 0) -> d s2 = Some (Ptr k 0) -> b1 = b2;
  wf_refs : forall b s, bufs h !! b = Some s ->
    refcount s = own b + Z.of_nat (size (children h b));
  wf_own : forall b, own b <> 0 -> is_Some (bufs h !! b);
  wf_own_pos : forall b, 0 <= own b;
  wf_ext : forall k, k ∈ ext -> is_Some (mem h !! k);
  wf_page : 0 <= getpagesize h
}.

(** What an operation on [b] leaves alone. *)
Record frame (ext : gset blk) (b : bufid) (h h' : heap) : Prop := {
  fr_others : forall b', b' <> b -> bufs h' !! b' = bufs h !! b';
  fr_contents : forall b', b' <> b -> contents h' b' = contents h b';
  fr_ext : forall k, k ∈ ext -> mem h' !! k = mem h !! k;
  fr_self : forall s, bufs h !! b = Some s -> exists s', bufs h' !! b = Some s' /\
    readonly s' = readonly s /\ refcount s' = refcount s /\ parent s' = parent s
}.

#[global] Instance frame_refl ext b : Reflexive (frame ext b).
Proof. intros h. constructor; eauto. Qed.

#[global] Instance frame_trans ext b : Transitive (frame ext b).
Proof.
  intros h1 h2 h3 [A1 A2 A3 A4] [B1 B2 B3 B4]. constructor.
  - intros b' Hb. now rewrite B1, A1.
  - intros b' Hb. now rewrite B2, A2.
  - intros k Hk. now rewrite B3, A3.
  - intros s Hs. destruct (A4 s Hs) as (s2 & Hs2 & ? & ? & ?).
    destruct (B4 s2 Hs2) as (s3 & ? & ? & ? & ?). exists s3. repeat split; congruence.
Qed.

Lemma elem_of_children h b c :
  c ∈ children h b <-> exists s, bufs h !! c = Some s /\ parent s = Some b.
Proof.
  unfold children. rewrite elem_of_filter, elem_of_dom. split.
  - intros [H [s Hs]]. rewrite Hs in H. cbn in H. eauto.
  - intros (s & Hs & H). rewrite Hs. cbn. eauto.
Qed.

Lemma buf_ok_sane ext h b s : buf_ok ext h b s -> sane s = true.
Proof.
  intros [Hb H]. apply sane_of_bounds; [done| |].
  - destruct (readonly s); destruct H as (_ & ? & ? & ?); intros E;
      destruct_and?; congruence.
  - intros E. rewrite E in H. destruct H as (_ & k & c & -> & -> & _). done.
Qed.

(** An unshared writable buffer has no children. *)
Lemma no_children own ext h b s c :
  wf own ext h -> bufs h !! b = Some s -> 1 <= own b -> refcount s <= 1 ->
  c ∉ children h b.
Proof.
  intros W Hb Ho Hrc Hc. pose proof (wf_refs _ _ _ W b s Hb) as E.
  assert (children h b = ∅) as Z by (apply leibniz_equiv, size_empty_inv; lia).
  rewrite Z in Hc. set_solver.
Qed.

(** It is then the only buffer on its block: following parents from any other buffer
    ends at a writable buffer or at caller memory. *)
Lemma exclusive own ext h b s k :
  wf own ext h -> bufs h !! b = Some s -> d s = Some (Ptr k 0) -> 1 <= own b ->
  refcount s <= 1 ->
  forall b' s' p', bufs h !! b' = Some s' -> cd s' = Some p' -> pblk p' = k -> b' = b.
Proof.
  intros W Hb Hd Ho Hrc.
  assert (Hk : k ∉ ext).
  { destruct (wf_buf _ _ _ W b s Hb) as [_ H]. destruct (readonly s).
    - destruct H as [H _]. congruence.
    - destruct H as (_ & k' & c & E & _ & _ & _ & N). congruence. }
  intros b'. remember (Pos.to_nat b') as n eqn:En. revert b' En.
  induction n as [n IH] using lt_wf_ind. intros b' -> s' p' Hb' Hcd Hp.
  destruct (wf_buf _ _ _ W b' s' Hb') as [_ H]. destruct (readonly s') eqn:R.
  - destruct H as (_ & p & c & E & _ & _ & _ & Hpar). rewrite Hcd in E. injection E as <-.
    destruct (parent s') as [q|] eqn:Q; [|congruence].
    destruct Hpar as (Hlt & sq & pq & Hq & Hcq & Hbq).
    assert (q = b) as ->.
    { eapply (IH (Pos.to_nat q)); [lia|done|done|done|congruence]. }
    exfalso. eapply (no_children own ext h b s b'); [done..|].
    apply elem_of_children. eauto.
  - destruct H as (_ & k' & c & E & Ec & _). rewrite Hcd in Ec. injection Ec as ->.
    cbn in Hp. subst k'. eapply (wf_excl _ _ _ W); eauto.
Qed.

(** Only the parent field of the records matters for [children]. *)
Lemma children_update h h' b s s' a :
  bufs h !! b = Some s -> parent s' = parent s -> bufs h' = <[b := s']> (bufs h) ->
  children h' a = children h a.
Proof.
  intros Hb Hp E. apply leibniz_equiv. intros c. rewrite !elem_of_children, E.
  destruct (decide (c = b)) as [->|Hc].
  - rewrite lookup_insert_eq, Hb. split; intros (x & [= <-] & ?); eexists; split; eauto; congruence.
  - now rewrite lookup_insert_ne by done.
Qed.

(** ** The update rule *)

(** [h'] differs from [h] in the record of [b] and in [b]'s storage: block [k']
    holds it, which is the old block or a fresh one. *)
Record updated (b : bufid) (s s' : sshbuf) (k' : blk) (h h' : heap) : Prop := {
  up_bufs : bufs h' = <[b := s']> (bufs h);
  up_page : getpagesize h' = getpagesize h;
  up_next : (next_id h <= next_id h')%positive;
  up_blk : Some (Ptr k' 0) = d s \/ mem h !! k' = None;
  up_bound : forall j c, mem h' !! j = Some c -> (j < next_id h')%positive;
  up_mem : forall j, Some (Ptr j 0) <> d s -> j <> k' -> mem h' !! j = mem h !! j
}.

Section excl_update.
Context (own : bufid -> Z) (ext : gset blk) (h h' : heap).
Context (b : bufid) (s s' : sshbuf) (k' : blk) (c' : bytes).
Hypothesis W : wf own ext h.
Hypothesis Ho : 1 <= own b.
Hypothesis Hb : bufs h !! b = Some s.
Hypothesis Hro : readonly s = false.
Hypothesis Hrc : refcount s <= 1.
Hypothesis U : updated b s s' k' h h'.
Hypothesis Hro' : readonly s' = false.
Hypothesis Hrc' : refcount s' = refcount s.
Hypothesis Hpar' : parent s' = None.
Hypothesis Hd' : d s' = Some (Ptr k' 0).
Hypothesis Hcd' : cd s' = Some (Ptr k' 0).
Hypothesis Hbd' : bounds s'.
Hypothesis Hm' : mem h' !! k' = Some c'.
Hypothesis Hal' : alloc s' <= zlen c'.

Lemma excl_old : parent s = None /\ exists k c, d s = Some (Ptr k 0) /\
    cd s = Some (Ptr k 0) /\ mem h !! k = Some c /\ alloc s <= zlen c /\ k ∉ ext.
Proof. destruct (wf_buf _ _ _ W b s Hb) as [_ Hok]. now rewrite Hro in Hok. Qed.

Lemma excl_new_not_ext : k' ∉ ext.
Proof.
    destruct excl_old as (_ & k & c & Hd & _ & _ & _ & Hk).
    destruct (up_blk _ _ _ _ _ _ U) as [E|E]; [congruence|].
    intros X. destruct (wf_ext _ _ _ W k' X). congruence.
Qed.

  (** No other buffer points into the new storage. *)
Lemma excl_other_block b' s2 p : b' <> b -> bufs h !! b' = Some s2 ->
    cd s2 = Some p -> is_Some (mem h !! pblk p) ->
    pblk p <> k' /\ mem h' !! pblk p = mem h !! pblk p.
Proof.
    intros Hne Hb' Hp Hl. destruct excl_old as (_ & k & c & Hd & _).
    assert (pblk p <> k) as N1.
    { intros E. apply Hne. eapply (exclusive own ext h b s k); eauto. }
    assert (pblk p <> k') as N2.
    { intros X. destruct (up_blk _ _ _ _ _ _ U) as [E|E]; [congruence|].
      destruct Hl. congruence. }
    split; [done|]. apply (up_mem _ _ _ _ _ _ U); [congruence|done].
Qed.

Lemma live_block b' s2 : bufs h !! b' = Some s2 ->
    exists p, cd s2 = Some p /\ is_Some (mem h !! pblk p).
Proof.
    intros E. destruct (wf_buf _ _ _ W b' s2 E) as [_ H]. destruct (readonly s2).
    - destruct H as (_ & p & c & ? & ? & _). eauto.
    - destruct H as (_ & k & c & _ & ? & ? & _). exists (Ptr k 0). eauto.
Qed.

Lemma excl_frame : frame ext b h h'.
Proof.
    constructor.
    - intros b' Hne. now rewrite (up_bufs _ _ _ _ _ _ U), lookup_insert_ne.
    - intros b' Hne. unfold contents.
      rewrite (up_bufs _ _ _ _ _ _ U), lookup_insert_ne by done.
      destruct (bufs h !! b') as [s2|] eqn:E; [|done]. unfold view.
      destruct (live_block b' s2 E) as (p & Hp & Hl). rewrite Hp.
      now destruct (excl_other_block b' s2 p Hne E Hp Hl) as [_ ->].
    - intros j Hj. destruct excl_old as (_ & k & c & Hd & _ & _ & _ & Hk).
      apply (up_mem _ _ _ _ _ _ U); [congruence|].
      intros ->. now apply excl_new_not_ext.
    - intros s2 E. rewrite Hb in E. injection E as <-.
      destruct excl_old as (Hp & _). exists s'.
      rewrite (up_bufs _ _ _ _ _ _ U), lookup_insert_eq. repeat split; congruence.
Qed.

Lemma excl_buf_ok b' s2 : b' <> b -> bufs h !! b' = Some s2 -> buf_ok ext h' b' s2.
Proof.
    intros Hne E. destruct (live_block b' s2 E) as (p & Hp & Hl).
    destruct (excl_other_block b' s2 p Hne E Hp Hl) as [_ Hmem].
    destruct (wf_buf _ _ _ W b' s2 E) as [Hbd2 H2]. split; [done|].
    destruct (readonly s2) eqn:R2.
    - destruct H2 as (? & p2 & c2 & X & Y & ? & ? & Hq). split; [done|].
      rewrite Hp in X. injection X as ->. exists p2, c2. rewrite Hmem.
      repeat split; auto. destruct (parent s2) as [q|] eqn:Q; [|done].
      destruct Hq as (? & sq & pq & Hq & Hcq & Hbq). split; [done|].
      destruct (decide (q = b)) as [->|Hqb].
      + exfalso. eapply (no_children own ext h b s b'); eauto.
        apply elem_of_children. eauto.
      + exists sq, pq. now rewrite (up_bufs _ _ _ _ _ _ U), lookup_insert_ne.
    - destruct H2 as (? & k2 & c2 & ? & X & Y & ?). split; [done|].
      rewrite Hp in X. injection X as ->. exists k2, c2. cbn in Hmem. now rewrite Hmem.
Qed.

Lemma excl_unique b' s2 : b' <> b -> bufs h !! b' = Some s2 ->
    d s2 <> Some (Ptr k' 0).
Proof.
    intros Hne E Hd2. destruct (live_block b' s2 E) as (p & Hp & Hl).
    destruct (excl_other_block b' s2 p Hne E Hp Hl) as [N _].
    destruct (wf_buf _ _ _ W b' s2 E) as [_ H]. destruct (readonly s2).
    - destruct H. congruence.
    - destruct H as (_ & k & c & ? & ? & _). assert (p = Ptr k' 0) by congruence.
      now subst p.
Qed.

Lemma excl_wf : wf own ext h'.
Proof.
    destruct excl_old as (Hpar & k & c & Hd & Hcd & _).
    pose proof (up_bufs _ _ _ _ _ _ U) as UB. pose proof (up_next _ _ _ _ _ _ U) as UN.
    constructor.
    - intros b' s2. rewrite UB. intros [[<- _]|[_ E]]%lookup_insert_Some.
      + pose proof (wf_next_buf _ _ _ W b s Hb). lia.
      + pose proof (wf_next_buf _ _ _ W b' s2 E). lia.
    - apply (up_bound _ _ _ _ _ _ U).
    - intros b' s2. rewrite UB. intros [[<- <-]|[N E]]%lookup_insert_Some.
      + split; [done|]. rewrite Hro'. split; [done|]. exists k', c'.
        repeat split; auto using excl_new_not_ext.
      + apply excl_buf_ok; auto.
    - intros b1 b2 s1 s2 j. rewrite UB.
      intros [[<- <-]|[N1 E1]]%lookup_insert_Some [[<- <-]|[N2 E2]]%lookup_insert_Some D1 D2;
        [done| | |by eapply (wf_excl _ _ _ W)]; exfalso.
      + apply (excl_unique b2 s2); congruence.
      + apply (excl_unique b1 s1); congruence.
    - intros b' s2. rewrite (children_update h h' b s s') by congruence. rewrite UB.
      intros [[<- <-]|[N E]]%lookup_insert_Some; [rewrite Hrc'|];
        now apply (wf_refs _ _ _ W).
    - intros b' Hb'. rewrite UB. apply lookup_insert_is_Some'. right.
      now apply (wf_own _ _ _ W).
    - apply (wf_own_pos _ _ _ W).
    - intros j Hj. rewrite (fr_ext _ _ _ _ excl_frame j Hj). now apply (wf_ext _ _ _ W).
    - rewrite (up_page _ _ _ _ _ _ U). apply (wf_page _ _ _ W).
Qed.
Lemma excl_update : wf own ext h' /\ frame ext b h h'.
Proof. exact (conj excl_wf excl_frame). Qed.
End excl_update.

(** Moving the window of any buffer, shared or not, touches no memory. *)
Section view_update.
Context (own : bufid -> Z) (ext : gset blk) (h : heap) (b : bufid) (s : sshbuf) (o z : Z).
Hypothesis W : wf own ext h.
Hypothesis Hb : bufs h !! b = Some s.
Hypothesis Ho : 0 <= o <= z.
Hypothesis Hz : z <= alloc s.

Let h' := set_bufs (<[b := with_view o z s]> (bufs h)) h.

Lemma view_old b' s2 : bufs h' !! b' = Some s2 ->
    exists s0, bufs h !! b' = Some s0 /\ d s2 = d s0 /\ cd s2 = cd s0 /\
      alloc s2 = alloc s0 /\ readonly s2 = readonly s0 /\ parent s2 = parent s0 /\
      refcount s2 = refcount s0 /\ bounds s2.
Proof.
    unfold h'. cbn. intros [[<- <-]|[_ E]]%lookup_insert_Some.
    - destruct (wf_buf _ _ _ W b s Hb) as [B _]. exists s. unfold bounds in *.
      cbn. repeat split; auto; lia.
    - destruct (wf_buf _ _ _ W b' s2 E) as [B _]. exists s2. repeat split; auto; apply B.
Qed.

Lemma view_new b' s0 : bufs h !! b' = Some s0 ->
    exists s2, bufs h' !! b' = Some s2 /\ cd s2 = cd s0 /\ readonly s2 = readonly s0 /\
      refcount s2 = refcount s0 /\ parent s2 = parent s0.
Proof.
    intros E. unfold h'. cbn. destruct (decide (b' = b)) as [->|N].
    - rewrite lookup_insert_eq. assert (s0 = s) as -> by congruence. eauto 7.
    - rewrite lookup_insert_ne by done. eauto 7.
Qed.

Lemma view_wf : wf own ext h'.
Proof.
    constructor; try apply W.
    - intros b' s2 (s0 & E & _)%view_old. by eapply (wf_next_buf _ _ _ W).
    - intros b' s2 (s0 & E & Ed & Ec & Ea & Er & Ep & _ & B)%view_old.
      split; [done|]. destruct (wf_buf _ _ _ W b' s0 E) as [_ H0].
      rewrite Ed, Ec, Ea, Er, Ep. destruct (readonly s0); [|done].
      destruct H0 as (? & p & c & ? & ? & ? & ? & Hq). split; [done|]. exists p, c.
      repeat split; auto. destruct (parent s0) as [q|]; [|done].
      destruct Hq as (? & sq & pq & Hq & Hcq & Hbq). split; [done|].
      destruct (view_new q sq Hq) as (sq' & ? & Ecq & _). exists sq', pq.
      repeat split; congruence.
    - intros b1 b2 s1 s2 k (t1 & E1 & F1 & _)%view_old (t2 & E2 & F2 & _)%view_old D1 D2.
      apply (wf_excl _ _ _ W b1 b2 t1 t2 k); congruence.
    - intros b' s2 (s0 & E & _ & _ & _ & _ & _ & Er & _)%view_old.
      rewrite (children_update h h' b s (with_view o z s)), Er by done.
      by apply (wf_refs _ _ _ W).
    - intros b' [s0 E]%(wf_own _ _ _ W). destruct (view_new b' s0 E) as (? & ? & _). eauto.
Qed.

Lemma view_frame : frame ext b h h'.
Proof.
    constructor; [| |done|].
    - intros. by apply lookup_insert_ne.
    - intros b' N. unfold contents. cbn. now rewrite lookup_insert_ne.
    - intros s2 E. destruct (view_new b s2 E) as (s3 & ? & ? & ? & ? & ?). eauto 6.
Qed.
End view_update.

(** ** Rules for the operations *)

(** A sane buffer passes the check. *)
Lemma wp_check_sanity own ext h b s Q : wf own ext h -> bufs h !! b = Some s ->
  Q (Ok tt) h -> wp (sshbuf_check_sanity b) h Q.
Proof.
  intros W Hb HQ. apply wp_bind. apply (wp_get_buf b s); [done|].
  destruct (wf_buf _ _ _ W b s Hb) as [B H].
  now rewrite (buf_ok_sane ext h b s (conj B H)).
Qed.

Lemma wf_bounds own ext h b s : wf own ext h -> bufs h !! b = Some s -> bounds s.
Proof. intros W Hb. apply (wf_buf _ _ _ W b s Hb). Qed.

(** The storage of a live buffer. *)
Lemma wf_storage own ext h b s : wf own ext h -> bufs h !! b = Some s ->
  exists p c, cd s = Some p /\ mem h !! pblk p = Some c /\ 0 <= poff p /\
    poff p + alloc s <= zlen c.
Proof.
  intros W Hb. destruct (wf_buf _ _ _ W b s Hb) as [_ H]. destruct (readonly s).
  - destruct H as (_ & p & c & ? & ? & ? & ? & _). eauto 7.
  - destruct H as (_ & k & c & _ & ? & ? & ? & _). exists (Ptr k 0), c. cbn.
    repeat split; auto; lia.
Qed.

Lemma zlen_contents own ext h b s : wf own ext h -> bufs h !! b = Some s ->
  zlen (contents h b) = size_ s - off s.
Proof.
  intros W Hb. unfold contents. rewrite Hb. unfold view.
  destruct (wf_storage own ext h b s W Hb) as (p & c & -> & -> & ? & ?).
  pose proof (wf_bounds own ext h b s W Hb) as B. unfold bounds in B.
  apply zlen_slice; lia.
Qed.

(** Reading inside the window of a buffer. *)
Lemma wp_load_window own ext h b s p o n Q :
  wf own ext h -> bufs h !! b = Some s -> cd s = Some p ->
  0 <= o -> 0 <= n -> o + n <= size_ s - off s ->
  Q (Ok (slice o n (contents h b))) h ->
  wp (load (padd p (off s + o)) n) h Q.
Proof.
  intros W Hb Hcd H1 H2 H3 HQ.
  destruct (wf_storage own ext h b s W Hb) as (p' & c & E & Hc & ? & ?).
  assert (p' = p) as -> by congruence.
  pose proof (wf_bounds own ext h b s W Hb) as B. unfold bounds in B.
  apply (wp_load _ _ c); cbn; try done; try lia.
  unfold contents, view in HQ. rewrite Hb, Hcd, Hc in HQ.
  rewrite slice_slice in HQ by lia. rewrite Z.add_assoc. done.
Qed.

Lemma wp_len own ext h b s Q : wf own ext h -> bufs h !! b = Some s ->
  Q (Ok (zlen (contents h b))) h -> wp (sshbuf_len b) h Q.
Proof.
  intros W Hb HQ. rewrite (zlen_contents own ext h b s W Hb) in HQ.
  apply wp_bind, (wp_check_sanity own ext h b s); [done..|].
  apply wp_bind, (wp_get_buf b s); done.
Qed.

Lemma wp_ptr own ext h b s p Q : wf own ext h -> bufs h !! b = Some s ->
  cd s = Some p -> Q (Ok (padd p (off s))) h -> wp (sshbuf_ptr b) h Q.
Proof.
  intros W Hb Hcd HQ.
  apply wp_bind, (wp_check_sanity own ext h b s); [done..|].
  apply wp_bind, (wp_get_buf b s); [done|].
  apply wp_bind. now rewrite Hcd.
Qed.
