(* ===== verification/SshBufSpec.v ===== *)
(** What the buffer operations promise: the specifications of sshbuf.c.

    Each lemma runs an operation on a store that satisfies [wf] and states the result,
    the bytes the buffer then holds, the invariant and the frame.  That an operation
    cannot reach [Crash] (an access outside live memory, a use after free, a corrupted
    buffer) is part of every statement, since [wp] is false of [Crash]. *)

From S2P Require Import Prelude SshErr Wire SshQueue SshBuf SshBufInv.

Definition set_oom (fs : list bool) (h : heap) : heap :=
  mk_heap (mem h) (bufs h) (next_id h) fs (getpagesize h).

Lemma wf_set_oom own ext h fs : wf own ext h -> wf own ext (set_oom fs h).
Proof. intros W. constructor; apply W. Qed.

Lemma frame_set_oom ext b h fs : frame ext b h (set_oom fs h).
Proof. constructor; eauto. Qed.

(** An allocation request only consumes the schedule. *)
Lemma wp_request h (Q : res bool -> heap -> Prop) :
  (forall ok fs, (ok = false -> exists fs', oom h = true :: fs') ->
     Q (Ok ok) (set_oom fs h)) -> wp request h Q.
Proof.
  intros HQ. unfold wp, request. destruct (oom h) as [|f fs] eqn:F.
  - replace h with (set_oom [] h) at 1; [by apply HQ|].
    unfold set_oom. rewrite <- F. by destruct h.
  - apply (HQ (negb f) fs). destruct f; [eauto|done].
Qed.

(** [b] is a writable buffer held by the client and shared with no child. *)
Record exclusive_buf (own : bufid -> Z) (h : heap) (b : bufid) (s : sshbuf) : Prop := {
  eb_lookup : bufs h !! b = Some s;
  eb_own : 1 <= own b;
  eb_rw : readonly s = false;
  eb_refs : refcount s <= 1
}.

Lemma eb_storage own ext h b s : wf own ext h -> exclusive_buf own h b s ->
  parent s = None /\ exists k c, d s = Some (Ptr k 0) /\ cd s = Some (Ptr k 0) /\
    mem h !! k = Some c /\ alloc s <= zlen c.
Proof.
  intros W [Hb _ Hro _]. destruct (wf_buf _ _ _ W b s Hb) as [_ H]. rewrite Hro in H.
  destruct H as (? & k & c & ? & ? & ? & ? & _). eauto 8.
Qed.

(** ** Reading: [sshbuf_consume], [sshbuf_consume_end] *)

Lemma view_contents own ext h b s o z :
  wf own ext h -> bufs h !! b = Some s -> off s <= o <= z -> z <= size_ s ->
  contents (set_bufs (<[b := with_view o z s]> (bufs h)) h) b =
  slice (o - off s) (z - o) (contents h b).
Proof.
  intros W Hb Ho Hz. destruct (wf_storage own ext h b s W Hb) as (p & c & Hp & Hc & ? & ?).
  pose proof (wf_bounds own ext h b s W Hb) as B. unfold bounds, SSHBUF_SIZE_MAX, SSHBUF_REFS_MAX in B.
  unfold contents. cbn. rewrite lookup_insert_eq, Hb. unfold view. cbn.
  rewrite Hp, Hc, slice_slice by lia. f_equal. lia.
Qed.

Lemma consume_spec own ext h b s len :
  wf own ext h -> bufs h !! b = Some s -> 0 <= len < 2 ^ 64 ->
  wp (sshbuf_consume b len) h (fun r h' =>
    wf own ext h' /\ frame ext b h h' /\ mem h' = mem h /\ oom h' = oom h /\
    match r with
    | Ok _ => len <= zlen (contents h b) /\
              contents h' b = drop (Z.to_nat len) (contents h b)
    | Err e => h' = h /\ e = SSH_ERR_MESSAGE_INCOMPLETE /\ zlen (contents h b) < len
    end).
Proof.
  intros W Hb Hlen. pose proof (wf_bounds own ext h b s W Hb) as B. unfold bounds, SSHBUF_SIZE_MAX, SSHBUF_REFS_MAX in B.
  pose proof (zlen_contents own ext h b s W Hb) as L.
  apply wp_bind, (wp_check_sanity own ext h b s); [done..|].
  destruct (Z.eqb_spec len 0) as [->|N].
  { apply wp_ret. split_and!; try done. apply zlen_nonneg. }
  apply wp_bind, (wp_len own ext h b s); [done..|]. rewrite Z.gtb_ltb.
  destruct (Z.ltb_spec (zlen (contents h b)) len); [done|].
  apply wp_bind, (wp_get_buf b s); [done|].
  cbv zeta. rewrite (u64_small (off s + len)) by lia.
  destruct (Z.eqb_spec (off s + len) (size_ s)) as [E|E]; apply (wp_set_buf b s); try done;
    (split; [apply view_wf; done || lia|split; [apply view_frame; done || lia|]]).
  - split_and!; [done|done|lia|]. unfold contents at 1. cbn. rewrite lookup_insert_eq.
    unfold view. cbn. rewrite drop_ge by (unfold zlen in *; lia).
    destruct (cd s) as [p|]; [|done]. by destruct (mem h !! pblk p).
  - split_and!; [done|done|lia|]. rewrite (view_contents own ext) by (done || lia).
    replace (off s + len - off s) with len by lia.
    unfold slice. apply take_ge. rewrite length_drop. unfold zlen in L. lia.
Qed.

Lemma consume_end_spec own ext h b s len :
  wf own ext h -> bufs h !! b = Some s -> 0 <= len < 2 ^ 64 ->
  wp (sshbuf_consume_end b len) h (fun r h' =>
    wf own ext h' /\ frame ext b h h' /\ mem h' = mem h /\ oom h' = oom h /\
    match r with
    | Ok _ => len <= zlen (contents h b) /\
              contents h' b = take (Z.to_nat (zlen (contents h b) - len)) (contents h b)
    | Err e => h' = h /\ e = SSH_ERR_MESSAGE_INCOMPLETE /\ zlen (contents h b) < len
    end).
Proof.
  intros W Hb Hlen. pose proof (wf_bounds own ext h b s W Hb) as B. unfold bounds, SSHBUF_SIZE_MAX, SSHBUF_REFS_MAX in B.
  pose proof (zlen_contents own ext h b s W Hb) as L.
  apply wp_bind, (wp_check_sanity own ext h b s); [done..|].
  destruct (Z.eqb_spec len 0) as [->|N].
  { apply wp_ret. split_and!; try done; [lia|].
    rewrite take_ge; [done|]. unfold zlen. lia. }
  apply wp_bind, (wp_len own ext h b s); [done..|]. rewrite Z.gtb_ltb.
  destruct (Z.ltb_spec (zlen (contents h b)) len); [done|].
  apply wp_bind, (wp_get_buf b s); [done|]. apply (wp_set_buf b s); [done|].
  split; [apply view_wf; done || lia|split; [apply view_frame; done || lia|]].
  split_and!; [done|done|lia|]. rewrite (view_contents own ext) by (done || lia).
  unfold slice. rewrite Z.sub_diag. cbn. f_equal. lia.
Qed.

(** ** Moving a block: [recallocarray] *)

Record relocated (k k' : blk) (c c' : bytes) (o n : Z) (h h' : heap) : Prop := {
  rl_bufs : bufs h' = bufs h;
  rl_page : getpagesize h' = getpagesize h;
  rl_next : (next_id h <= next_id h')%positive;
  rl_blk : k' = k \/ mem h !! k' = None;
  rl_bound : forall j e, mem h' !! j = Some e -> (j < next_id h')%positive;
  rl_mem : forall j, j <> k -> j <> k' -> mem h' !! j = mem h !! j;
  rl_new : mem h' !! k' = Some c';
  rl_len : n <= zlen c';
  rl_keep : forall a m, 0 <= a -> 0 <= m -> a + m <= Z.min o n ->
    slice a m c' = slice a m c;
  rl_zero : forall a m, o <= a -> 0 <= m -> a + m <= n -> o < n ->
    slice a m c' = zeros m
}.

Lemma slice_zeros a m n : 0 <= a -> 0 <= m -> a + m <= n -> slice a m (zeros n) = zeros m.
Proof.
  intros. unfold slice, zeros. rewrite drop_replicate, take_replicate. f_equal. lia.
Qed.

(** The copying path: a new block, the old one wiped and freed. *)
Lemma wp_move_block k c o n h (Q : res (option ptr) -> heap -> Prop) :
  (forall j e, mem h !! j = Some e -> (j < next_id h)%positive) ->
  mem h !! k = Some c -> 0 <= o <= zlen c -> 0 <= n ->
  (forall k' c' h', relocated k k' c c' o n h h' -> Q (Ok (Some (Ptr k' 0))) h') ->
  wp (let! v := (if n >? o
                 then let! v := load (Ptr k 0) o in mret (v ++ zeros (n - o))
                 else load (Ptr k 0) n) in
      let! q := new_block v in
      store (Ptr k 0) (zeros o) ;; free (Ptr k 0) ;; mret (Some q)) h Q.
Proof.
  intros Hb Hc Ho Hn HS.
  set (v := slice 0 (Z.min o n) c ++ zeros (n - Z.min o n)).
  assert (zlen v = n) as Lv by (unfold v; rewrite zlen_app, zlen_slice, zlen_zeros; lia).
  apply wp_bind, (wp_mono _ _ (fun r h' => h' = h /\ r = Ok v)).
  { unfold v. rewrite Z.gtb_ltb. destruct (Z.ltb_spec o n).
    - apply wp_bind, (wp_load _ _ c); cbn; try done; try lia.
      split; [done|]. now rewrite Z.min_l by lia.
    - apply (wp_load _ _ c); cbn; try done; try lia.
      rewrite Z.min_r, Z.sub_diag by lia. split; [done|]. now rewrite app_nil_r. }
  intros r h' [-> ->]. cbv beta iota.
  assert (Hk : next_id h <> k) by (specialize (Hb k c Hc); lia).
  apply wp_bind. unfold wp, new_block.
  apply wp_bind, (wp_store _ _ c); cbn; rewrite ?zlen_zeros by lia; try lia.
  { now rewrite lookup_insert_ne. }
  eapply wp_bind, wp_free; [cbn; apply lookup_insert_eq|].
  apply HS with (c' := v). constructor; cbn; auto; try lia.
  - right. destruct (mem h !! next_id h) eqn:E; [|done]. apply Hb in E. lia.
  - intros j e [_ [[<- _]|[_ [[<- <-]|[_ E]]%lookup_insert_Some]]%lookup_insert_Some]%lookup_delete_Some;
      [|lia|]; [specialize (Hb k c Hc); lia|specialize (Hb j e E); lia].
  - intros j N1 N2. now rewrite lookup_delete_ne, !lookup_insert_ne.
  - now rewrite lookup_delete_ne, lookup_insert_ne, lookup_insert_eq.
  - intros a m ? ? ?. unfold v.
    rewrite (slice_prefix a m) by (rewrite ?zlen_slice by lia; lia).
    rewrite slice_slice by lia. f_equal.
  - intros a m ? ? ? ?. unfold v. rewrite Z.min_l by lia.
    rewrite slice_suffix by (rewrite ?zlen_slice by lia; lia).
    rewrite zlen_slice by lia. apply slice_zeros; lia.
Qed.

Lemma relocated_oom k k' c c' o n h h' fs :
  relocated k k' c c' o n (set_oom fs h) h' -> relocated k k' c c' o n h h'.
Proof. intros []. now constructor. Qed.

Lemma wp_recallocarray k c o n h (Q : res (option ptr) -> heap -> Prop) :
  (forall j e, mem h !! j = Some e -> (j < next_id h)%positive) ->
  mem h !! k = Some c -> 0 <= o <= zlen c -> o < 2 ^ 32 -> 0 <= n < 2 ^ 32 ->
  (forall fs, oom h = true :: fs -> Q (Ok None) (set_oom fs h)) ->
  (forall k' c' h', relocated k k' c c' o n h h' -> Q (Ok (Some (Ptr k' 0))) h') ->
  wp (recallocarray (Some (Ptr k 0)) o n 1) h Q.
Proof.
  intros Hb Hc Ho Ho2 Hn HF HS. unfold recallocarray.
  change MUL_NO_OVERFLOW with (2 ^ 32).
  assert (forall a, 0 <= a < 2 ^ 32 ->
    ((a >=? 2 ^ 32) || (1 >=? 2 ^ 32)) && (a >? 0) && (SIZE_MAX / a <? 1) = false) as G.
  { intros a Ha. rewrite (Z.geb_leb a). destruct (Z.leb_spec (2 ^ 32) a); [lia|done]. }
  rewrite (G n), (G o), !Z.mul_1_r, !u64_small by lia. clear G.
  unfold wp. match goal with |- context [if ?t then _ else _] => destruct t eqn:T end.
  - rewrite !andb_true_iff, Z.leb_le in T. destruct T as [[T _] _].
    apply wp_bind, (wp_store _ _ c); cbn; rewrite ?zlen_zeros by lia; try done; [lia..|].
    apply HS with (c' := blit n (zeros (o - n)) c). constructor; cbn; auto; try lia.
    + intros j e [[<- <-]|[_ E]]%lookup_insert_Some; eauto.
    + intros. by rewrite lookup_insert_ne.
    + by rewrite lookup_insert_eq.
    + rewrite zlen_blit; [lia..|]. rewrite zlen_zeros; lia.
    + intros. apply slice_blit_before; lia.
  - clear T. apply wp_bind. unfold wp, request.
    destruct (oom h) as [|[] fs] eqn:F; cbn [negb]; [| by apply HF|].
    + apply (wp_move_block k c o n); done || lia.
    + apply (wp_move_block k c o n (set_oom fs h)); try done; try lia.
      intros. eapply HS, relocated_oom. done.
Qed.

(** ** Writing: storage of an exclusive buffer *)

(** The record of [b] after its storage became block [k'] of [n] bytes. *)
Lemma realloc_update own ext h h1 b s k k' c c' n :
  wf own ext h -> exclusive_buf own h b s -> d s = Some (Ptr k 0) ->
  cd s = Some (Ptr k 0) -> mem h !! k = Some c -> relocated k k' c c' (alloc s) n h h1 ->
  size_ s <= n <= max_size s ->
  let h' := set_bufs (<[b := with_storage (Some (Ptr k' 0)) n s]> (bufs h1)) h1 in
  wf own ext h' /\ frame ext b h h' /\ contents h' b = contents h b.
Proof.
  intros W X Hd Hcd Hc R Hn h'. destruct X as [Hb Ho Hro Hrc].
  destruct (eb_storage own ext h b s W) as (Hpar & _); [by constructor|].
  pose proof (wf_bounds own ext h b s W Hb) as B. unfold bounds in B.
  assert (updated b s (with_storage (Some (Ptr k' 0)) n s) k' h h') as U.
  { constructor; cbn; try apply R.
    - now rewrite (rl_bufs _ _ _ _ _ _ _ _ R).
    - rewrite Hd. destruct (rl_blk _ _ _ _ _ _ _ _ R) as [->|?]; auto.
    - rewrite Hd. intros j N1 N2. apply (rl_mem _ _ _ _ _ _ _ _ R); congruence. }
  destruct (excl_update own ext h h' b s _ k' c' W Ho Hb Hro Hrc U) as [W' F'];
    try done; try (unfold bounds; cbn; lia); try apply R.
  split_and!; try done. unfold contents, h'. cbn. rewrite lookup_insert_eq, Hb.
  unfold view. cbn. rewrite (rl_new _ _ _ _ _ _ _ _ R), Hcd. cbn. rewrite Hc.
  apply (rl_keep _ _ _ _ _ _ _ _ R); lia.
Qed.

(** A write inside the window. *)
Lemma wp_store_window own ext h b s k o v (Q : res unit -> heap -> Prop) :
  wf own ext h -> exclusive_buf own h b s -> cd s = Some (Ptr k 0) ->
  0 <= o -> o + zlen v <= size_ s - off s ->
  (forall h', wf own ext h' -> frame ext b h h' -> bufs h' = bufs h -> oom h' = oom h ->
     contents h' b = blit o v (contents h b) -> Q (Ok tt) h') ->
  wp (store (padd (Ptr k 0) (off s + o)) v) h Q.
Proof.
  intros W X Hcd H1 H2 HQ. destruct (eb_storage own ext h b s W X) as (Hpar & k2 & c & Hd & E & Hc & Hal).
  assert (k2 = k) as -> by congruence. destruct X as [Hb Ho Hro Hrc].
  pose proof (wf_bounds own ext h b s W Hb) as B. unfold bounds in B.
  pose proof (zlen_nonneg v).
  apply (wp_store _ _ c); cbn; try done; try lia.
  assert (zlen (blit (off s + o) v c) = zlen c) as L by (rewrite zlen_blit; lia).
  set (h' := set_mem _ h).
  assert (updated b s s k h h') as U.
  { constructor; cbn; auto; try lia.
    - now rewrite insert_id.
    - intros j e [[<- _]|[_ E2]]%lookup_insert_Some; by eapply (wf_next_blk _ _ _ W).
    - intros j N1 N2. now rewrite lookup_insert_ne. }
  assert (mem h' !! k = Some (blit (off s + o) v c)) as Hm' by (cbn; apply lookup_insert_eq).
  destruct (excl_update own ext h h' b s s k (blit (off s + o) v c) W Ho Hb Hro Hrc U) as [W' F'];
    try done; try (unfold bounds; lia).
  apply HQ; try done. unfold contents. cbn. rewrite Hb. unfold view. rewrite Hcd. cbn.
  rewrite Hc, lookup_insert_eq, !Z.add_0_l. apply slice_blit_window; lia.
Qed.

(** ** Growing: [sshbuf_check_reserve], [sshbuf_maybe_pack], [sshbuf_allocate] *)

(** The two reasons for which a buffer of record [s] refuses [len] more bytes. *)
Definition reserve_error (s : sshbuf) (n len : Z) (e : ssh_error) : Prop :=
  (e = SSH_ERR_BUFFER_READ_ONLY /\ (readonly s = true \/ 1 < refcount s)) \/
  (e = SSH_ERR_NO_BUFFER_SPACE /\ readonly s = false /\ refcount s <= 1 /\
   max_size s < n + len).

Lemma check_reserve_spec own ext h b s len :
  wf own ext h -> bufs h !! b = Some s -> 0 <= len ->
  wp (sshbuf_check_reserve b len) h (fun r h' => h' = h /\
    match r with
    | Ok _ => readonly s = false /\ refcount s <= 1 /\
              zlen (contents h b) + len <= max_size s
    | Err e => reserve_error s (zlen (contents h b)) len e
    end).
Proof.
  intros W Hb Hlen. pose proof (wf_bounds own ext h b s W Hb) as B. unfold bounds in B.
  pose proof (zlen_contents own ext h b s W Hb) as L. rewrite L.
  apply wp_bind, (wp_check_sanity own ext h b s); [done..|].
  apply wp_bind, (wp_get_buf b s); [done|]. rewrite !Z.gtb_ltb.
  destruct (readonly s) eqn:R; cbn [orb].
  { split; [done|]. left. auto. }
  destruct (Z.ltb_spec 1 (refcount s)).
  { split; [done|]. left. auto. }
  destruct (Z.ltb_spec (max_size s) len); cbn [orb].
  { split; [done|]. right. split_and!; auto; lia. }
  destruct (Z.ltb_spec (max_size s - len) (size_ s - off s)).
  { split; [done|]. right. split_and!; auto; lia. }
  split_and!; auto; lia.
Qed.

(** The window of an exclusive buffer moved to the start of its block. *)
Lemma pack_update own ext h b s k c :
  wf own ext h -> exclusive_buf own h b s -> d s = Some (Ptr k 0) ->
  cd s = Some (Ptr k 0) -> mem h !! k = Some c -> alloc s <= zlen c ->
  let n := size_ s - off s in
  let h1 := set_mem (<[k := blit 0 (slice (off s) n c) c]> (mem h)) h in
  let h' := set_bufs (<[b := with_view 0 n s]> (bufs h1)) h1 in
  wf own ext h' /\ frame ext b h h' /\ contents h' b = contents h b.
Proof.
  intros W X Hd Hcd Hc Hal n h1 h'.
  destruct (eb_storage own ext h b s W X) as (Hpar & _). destruct X as [Hb Ho Hro Hrc].
  pose proof (wf_bounds own ext h b s W Hb) as B. unfold bounds in B.
  assert (zlen (slice (off s) n c) = n) as Ln by (apply zlen_slice; lia).
  assert (zlen (blit 0 (slice (off s) n c) c) = zlen c) as L by (rewrite zlen_blit; lia).
  assert (updated b s (with_view 0 n s) k h h') as U.
  { constructor; cbn; auto; try lia.
    - intros j e [[<- _]|[_ E2]]%lookup_insert_Some; by eapply (wf_next_blk _ _ _ W).
    - intros j N1 N2. now rewrite lookup_insert_ne. }
  assert (mem h' !! k = Some (blit 0 (slice (off s) n c) c)) as Hm'
    by (cbn; apply lookup_insert_eq).
  destruct (excl_update own ext h h' b s (with_view 0 n s) k
    (blit 0 (slice (off s) n c) c) W Ho Hb Hro Hrc U) as [W' F'];
    try done; try (unfold bounds; cbn; lia).
  split_and!; try done. unfold contents, h'. cbn. rewrite lookup_insert_eq, Hb.
  unfold view. cbn. rewrite Hcd. cbn. rewrite Hc, lookup_insert_eq, Z.sub_0_r.
  pose proof (slice_blit_same 0 (slice (off s) n c) c) as P.
  rewrite Ln in P. apply P; lia.
Qed.

Lemma maybe_pack_spec own ext h b s force :
  wf own ext h -> exclusive_buf own h b s ->
  wp (sshbuf_maybe_pack b force) h (fun r h' => r = Ok tt /\
    wf own ext h' /\ frame ext b h h' /\ oom h' = oom h /\
    contents h' b = contents h b /\
    exists o, bufs h' !! b = Some (with_view o (size_ s - off s + o) s) /\
      0 <= o <= off s /\ (force = true -> o = 0)).
Proof.
  intros W X. destruct (eb_storage own ext h b s W X) as (Hpar & k & c & Hd & Hcd & Hc & Hal).
  assert (X' := X). destruct X as [Hb Ho Hro Hrc].
  pose proof (wf_bounds own ext h b s W Hb) as B. unfold bounds in B.
  assert (Hsame : with_view (off s) (size_ s - off s + off s) s = s).
  { destruct s; unfold with_view; cbn. f_equal. lia. }
  apply wp_bind, (wp_get_buf b s); [done|]. rewrite Z.gtb_ltb, Hro, orb_false_r.
  destruct (Z.ltb_spec 1 (refcount s)); [lia|]. rewrite orb_false_r.
  destruct (Z.eqb_spec (off s) 0) as [E|E].
  { split_and!; try done. exists (off s). rewrite Hsame. split_and!; auto; lia. }
  match goal with |- context [if ?t then _ else _] => destruct t eqn:T end.
  2:{ split_and!; try done. exists (off s). rewrite Hsame. split_and!; try done; try lia.
      intros ->. done. }
  apply wp_bind. rewrite Hd. apply wp_ret.
  apply wp_bind, (wp_load _ _ c); cbn [pblk poff padd]; try done; try lia.
  rewrite Z.add_0_l. assert (zlen (slice (off s) (size_ s - off s) c) = size_ s - off s)
    as Ln by (apply zlen_slice; lia).
  apply wp_bind, (wp_store _ _ c); cbn [pblk poff padd]; try done; try lia.
  apply (wp_set_buf b s); [done|].
  destruct (pack_update own ext h b s k c W X' Hd Hcd Hc Hal) as (W2 & F2 & C2).
  split_and!; try done. exists 0. cbn. rewrite lookup_insert_eq, Z.add_0_r.
  split_and!; auto; lia.
Qed.

(** What a successful reservation gives: [len] bytes at the end of the window, at [p]. *)
Definition reserved (own : bufid -> Z) (ext : gset blk) (h h' : heap) (b : bufid)
    (len : Z) (p : ptr) : Prop :=
  exists s' k junk, exclusive_buf own h' b s' /\ cd s' = Some (Ptr k 0) /\
    p = padd (Ptr k 0) (off s' + zlen (contents h b)) /\
    contents h' b = contents h b ++ junk /\ zlen junk = len.

Lemma eb_frame own ext h h' b s s' : exclusive_buf own h b s -> frame ext b h h' ->
  bufs h' !! b = Some s' -> exclusive_buf own h' b s'.
Proof.
  intros [Hb Ho Hro Hrc] F Hb'. destruct (fr_self _ _ _ _ F s Hb) as (s2 & E & ? & ? & _).
  assert (s2 = s') as -> by congruence. constructor; auto; congruence.
Qed.

Lemma ROUNDUP_bounds x : 0 <= x < 2 ^ 32 -> x <= ROUNDUP x 256 < 2 ^ 33.
Proof.
  intros. unfold ROUNDUP. rewrite (u64_small (x + _)) by lia.
  pose proof (Z.div_mod (x + (256 - 1)) 256 ltac:(lia)).
  pose proof (Z.mod_pos_bound (x + (256 - 1)) 256 ltac:(lia)).
  rewrite u64_small; lia.
Qed.

(** The allocation request of [sshbuf_allocate] and of [sshbuf_set_max_size]. *)
Lemma wp_realloc own ext h b s n (Q : res (option ptr) -> heap -> Prop) :
  wf own ext h -> exclusive_buf own h b s -> size_ s <= n <= max_size s -> 0 <= n ->
  (forall fs, oom h = true :: fs -> Q (Ok None) (set_oom fs h)) ->
  (forall k' h1, bufs h1 = bufs h ->
     let h' := set_bufs (<[b := with_storage (Some (Ptr k' 0)) n s]> (bufs h1)) h1 in
     wf own ext h' -> frame ext b h h' -> contents h' b = contents h b ->
     Q (Ok (Some (Ptr k' 0))) h1) ->
  wp (recallocarray (d s) (alloc s) n 1) h Q.
Proof.
  intros W X Hn H0 HF HS.
  destruct (eb_storage own ext h b s W X) as (Hpar & k & c & Hd & Hcd & Hc & Hal).
  pose proof (wf_bounds own ext h b s W (eb_lookup _ _ _ _ X)) as B.
  unfold bounds, SSHBUF_SIZE_MAX in B. rewrite Hd.
  apply (wp_recallocarray k c); try done; try lia.
  { apply (wf_next_blk _ _ _ W). }
  intros k' c' h1 R.
  destruct (realloc_update own ext h h1 b s k k' c c' n W X Hd Hcd Hc R Hn) as (? & ? & ?).
  apply HS; try done. apply R.
Qed.

Lemma allocate_rlen_bounds s len : bounds s -> 0 <= len ->
  size_ s + len <= max_size s -> alloc s < size_ s + len ->
  size_ s + len <= allocate_rlen s len <= max_size s.
Proof.
  unfold bounds, SSHBUF_SIZE_MAX, allocate_rlen. intros B H0 H1 H2.
  rewrite (u64_small (len + size_ s - alloc s)) by lia.
  replace (alloc s + (len + size_ s - alloc s)) with (size_ s + len) by lia.
  rewrite (u64_small (size_ s + len)) by lia.
  pose proof (ROUNDUP_bounds (size_ s + len) ltac:(lia)).
  change SSHBUF_SIZE_INC with 256. rewrite Z.gtb_ltb.
  destruct (Z.ltb_spec (max_size s) (ROUNDUP (size_ s + len) 256)); lia.
Qed.

(** The outcome of [sshbuf_allocate] on a buffer of record [s] holding [n] bytes. *)
Definition allocated (own : bufid -> Z) (ext : gset blk) (h : heap) (b : bufid)
    (s : sshbuf) (len : Z) (r : res unit) (h' : heap) : Prop :=
  wf own ext h' /\ frame ext b h h' /\ contents h' b = contents h b /\
  match r with
  | Ok _ => exists s', exclusive_buf own h' b s' /\ max_size s' = max_size s /\
      size_ s' + len <= alloc s' /\ off s' <= off s /\
      zlen (contents h b) + len <= max_size s
  | Err e => reserve_error s (zlen (contents h b)) len e \/
      (e = SSH_ERR_ALLOC_FAIL /\ exists fs, oom h = true :: fs)
  end.

(** The part of [sshbuf_allocate] after the packing. *)
Lemma grow_spec own ext h b s len :
  wf own ext h -> exclusive_buf own h b s -> 0 <= len -> size_ s + len <= max_size s ->
  alloc s < size_ s + len ->
  wp (let! dp := recallocarray (d s) (alloc s) (allocate_rlen s len) 1 in
      match dp with
      | None => mfail SSH_ERR_ALLOC_FAIL
      | Some _ => set_buf b (with_storage dp (allocate_rlen s len) s) ;;
                  sshbuf_check_reserve b len
      end) h (allocated own ext h b s len).
Proof.
  intros W X Hlen Hroom Hgrow. pose proof (wf_bounds own ext h b s W (eb_lookup _ _ _ _ X)) as B.
  pose proof (zlen_contents own ext h b s W (eb_lookup _ _ _ _ X)) as L.
  pose proof (allocate_rlen_bounds s len B Hlen Hroom Hgrow) as HR. unfold bounds in B.
  apply wp_bind, (wp_realloc own ext h b s); try done; try lia.
  - intros fs Hfs. split_and!.
    + by apply wf_set_oom.
    + apply frame_set_oom.
    + done.
    + right. eauto.
  - cbv beta iota. intros k' h2 Hb2 h3 W3 F3 C3.
    apply wp_bind, (wp_set_buf b s). { rewrite Hb2. apply X. } fold h3.
    set (s3 := with_storage (Some (Ptr k' 0)) (allocate_rlen s len) s) in *.
    assert (Hb3 : bufs h3 !! b = Some s3) by (cbn; apply lookup_insert_eq).
    assert (X3 : exclusive_buf own h3 b s3) by (eapply eb_frame; eauto).
    eapply wp_mono; [apply (check_reserve_spec own ext h3 b s3 len); done || lia|].
    intros r ? [-> Hr]. split_and!; [done..|]. rewrite C3 in Hr. destruct r as [[]|e].
    + exists s3. split_and!; auto; cbn in *; lia.
    + exfalso. destruct X. destruct Hr as [(_ & [?|?])|(_ & _ & _ & ?)]; cbn in *;
        try lia; congruence.
Qed.

(** [sshbuf_allocate] keeps the contents and, on success, leaves [len] bytes of
    room after the window, inside the allocation and inside [max_size]. *)
Lemma allocate_spec own ext h b s len :
  wf own ext h -> bufs h !! b = Some s -> 1 <= own b -> 0 <= len < 2 ^ 64 ->
  wp (sshbuf_allocate b len) h (allocated own ext h b s len).
Proof.
  intros W Hb Ho Hlen. pose proof (wf_bounds own ext h b s W Hb) as B.
  unfold bounds, SSHBUF_SIZE_MAX in B. pose proof (zlen_contents own ext h b s W Hb) as L.
  apply wp_bind. eapply wp_mono; [apply (check_reserve_spec own ext h b s len); done || lia|].
  intros r ? [-> Hr]. destruct r as [[]|e]; [|by split_and!; auto].
  destruct Hr as (Hro & Hrc & Hmax). assert (X : exclusive_buf own h b s) by done.
  apply wp_bind, (wp_get_buf b s); [done|].
  apply wp_bind. eapply wp_mono; [by apply (maybe_pack_spec own ext h b s)|].
  cbv beta iota. intros r h1 (-> & W1 & F1 & O1 & C1 & o & Hb1 & Ho1 & Hforce).
  rewrite Z.gtb_ltb, (u64_small (size_ s + len)) in Hforce by lia.
  set (s1 := with_view o (size_ s - off s + o) s) in *.
  assert (X1 : exclusive_buf own h1 b s1) by (eapply eb_frame; eauto).
  assert (Hroom : size_ s1 + len <= max_size s1).
  { cbn. destruct (Z.ltb_spec (max_size s) (size_ s + len)); [rewrite Hforce by done|]; lia. }
  apply wp_bind, (wp_get_buf b s1); [done|]. cbv zeta.
  rewrite (u64_small (len + size_ s1)) by (cbn in *; lia).
  destruct (Z.leb_spec (len + size_ s1) (alloc s1)) as [Hfit|Hgrow].
  { split_and!; auto. exists s1. split_and!; auto; cbn in *; lia. }
  eapply wp_mono; [apply (grow_spec own ext h1 b s1); done || lia|].
  intros r h2 (W2 & F2 & C2 & Hr). rewrite C1 in *. rewrite O1 in Hr.
  split_and!; [done|by etrans|done|]. destruct r as [[]|e]; [|done].
  destruct Hr as (s2 & ? & ? & ? & ? & ?). exists s2. cbn in *. split_and!; auto; lia.
Qed.

(** [sshbuf_reserve] appends [len] unspecified bytes and returns where they are. *)
Lemma reserve_spec own ext h b s len :
  wf own ext h -> bufs h !! b = Some s -> 1 <= own b -> 0 <= len < 2 ^ 64 ->
  wp (sshbuf_reserve b len) h (fun r h' => wf own ext h' /\ frame ext b h h' /\
    match r with
    | Ok p => reserved own ext h h' b len p /\ zlen (contents h b) + len <= max_size s
    | Err e => contents h' b = contents h b /\
        (reserve_error s (zlen (contents h b)) len e \/
         (e = SSH_ERR_ALLOC_FAIL /\ exists fs, oom h = true :: fs))
    end).
Proof.
  intros W Hb Ho Hlen.
  apply wp_bind. eapply wp_mono; [by apply (allocate_spec own ext h b s len)|].
  intros r h1 (W1 & F1 & C1 & Hr). destruct r as [[]|e]; [|by split_and!].
  destruct Hr as (s1 & X1 & Emax & Hfit & Hoff & Hmax).
  destruct (eb_storage own ext h1 b s1 W1 X1) as (Hpar & k & c & Hd & Hcd & Hc & Hal).
  pose proof (wf_bounds own ext h1 b s1 W1 (eb_lookup _ _ _ _ X1)) as B.
  pose proof (zlen_contents own ext h1 b s1 W1 (eb_lookup _ _ _ _ X1)) as L.
  unfold bounds, SSHBUF_SIZE_MAX in B. rewrite C1 in L.
  apply wp_bind, (wp_get_buf b s1); [apply X1|]. apply wp_bind. rewrite Hd. apply wp_ret.
  apply wp_bind, (wp_set_buf b s1); [apply X1|]. cbv beta iota.
  rewrite (u64_small (size_ s1 + len)) by lia.
  set (s2 := with_view (off s1) (size_ s1 + len) s1). set (h2 := set_bufs _ h1).
  assert (wf own ext h2) as W2 by (apply view_wf; [done|apply X1|lia..]).
  assert (frame ext b h1 h2) as F2 by (apply view_frame, X1).
  assert (Hb2 : bufs h2 !! b = Some s2) by (cbn; apply lookup_insert_eq).
  split_and!; [done|by etrans| |done]. exists s2, k, (slice (size_ s1) len c). split_and!.
  - by eapply eb_frame.
  - done.
  - f_equal. cbn. lia.
  - unfold contents at 1. rewrite Hb2. rewrite <- C1. unfold contents.
    rewrite (eb_lookup _ _ _ _ X1). unfold view. cbn. rewrite Hcd. cbn. rewrite Hc.
    replace (size_ s1 + len - off s1) with (size_ s1 - off s1 + len) by lia.
    rewrite slice_app_split by lia. f_equal. f_equal. lia.
  - apply zlen_slice; lia.
Qed.

