(* ===== verification/SshBufIO.v ===== *)
(** The typed reads and writes refine list operations.

    The abstract specification of a buffer is the list of bytes it holds: writers
    append, readers are partial functions that split a prefix off ([rd_u32],
    [rd_string], ...).  [appends] and [reads] state the refinement for the code over
    the store; the theorems about protocol components are proved against the list
    functions. *)

From S2P Require Import Prelude SshErr Wire SshQueue SshBuf SshBufGetPut SshBufInv SshBufSpec.

(** ** Refinement predicates *)

Section refinement.
Context (own : bufid -> Z) (ext : gset blk).

  (** The writer appended [v], or failed and left the contents alone. *)
Definition appends (b : bufid) (v : bytes) (h : heap) (r : res unit) (h' : heap) : Prop :=
    wf own ext h' /\ frame ext b h h' /\
    match r with
    | Ok _ => contents h' b = contents h b ++ v
    | Err e => contents h' b = contents h b /\ exists s, bufs h !! b = Some s /\
        (reserve_error s (zlen (contents h b)) (zlen v) e \/
         (e = SSH_ERR_ALLOC_FAIL /\ exists fs, oom h = true :: fs))
    end.

  (** The reader computes [f] on the contents; only [malloc] can make it differ. *)
Definition reads {A} (b : bufid) (f : bytes -> res (A * bytes)) (h : heap)
      (r : res A) (h' : heap) : Prop :=
    wf own ext h' /\ frame ext b h h' /\ mem h' = mem h /\
    match f (contents h b), r with
    | Ok (a, rest), Ok a' => a' = a /\ contents h' b = rest
    | Err e, Err e' => e' = e /\ h' = h
    | Ok (_, rest), Err e' => e' = SSH_ERR_ALLOC_FAIL /\ contents h' b = rest /\
        exists fs, oom h = true :: fs
    | Err _, Ok _ => False
    end.

  (** ** Readers *)

Lemma take_slice_0 (n : Z) (c : bytes) : slice 0 n c = take (Z.to_nat n) c.
Proof. unfold slice. now rewrite drop_0. Qed.

  (** The shape all fixed-width readers share. *)
Lemma fixed_reader {A} (f : bytes -> A) b n h :
    wf own ext h -> is_Some (bufs h !! b) -> 0 < n < 2 ^ 64 ->
    wp (let! p := sshbuf_ptr b in
        sshbuf_consume b n ;;
        let! v := load p n in mret (f v)) h (reads b (fun c => rd_map f (rd n c)) h).
Proof.
    intros W [s Hb] Hn. pose proof (wf_bounds own ext h b s W Hb) as B. unfold bounds in B.
    destruct (wf_storage own ext h b s W Hb) as (p & c & Hp & Hc & ? & ?).
    apply wp_bind, (wp_ptr own ext h b s p); try done. cbv beta iota.
    apply wp_bind. eapply wp_mono; [apply (consume_spec own ext h b s n); done || lia|].
    intros r h1 (W1 & F1 & M1 & O1 & Hr). destruct r as [[]|e].
    - destruct Hr as [Hlen Hc1]. apply wp_bind, (wp_load _ _ c); cbn; try lia.
      { now rewrite M1. }
      { rewrite (zlen_contents own ext h b s W Hb) in Hlen. lia. }
      unfold reads, rd, rd_map. destruct (Z.ltb_spec (zlen (contents h b)) n); [lia|].
      split_and!; try done. f_equal. rewrite <- take_slice_0.
      unfold contents. rewrite Hb. unfold view. rewrite Hp, Hc.
      rewrite slice_slice; [f_equal; lia|lia..|].
      rewrite (zlen_contents own ext h b s W Hb) in Hlen. lia.
    - destruct Hr as (-> & -> & Hlt). unfold reads, rd, rd_map.
      destruct (Z.ltb_spec (zlen (contents h b)) n); [|lia]. done.
Qed.

Lemma get_u64_spec b h : wf own ext h -> is_Some (bufs h !! b) ->
    wp (sshbuf_get_u64 b) h (reads b rd_u64 h).
Proof. intros. by apply (fixed_reader PEEK_U64). Qed.

Lemma get_u32_spec b h : wf own ext h -> is_Some (bufs h !! b) ->
    wp (sshbuf_get_u32 b) h (reads b rd_u32 h).
Proof. intros. by apply (fixed_reader PEEK_U32). Qed.

Lemma get_u16_spec b h : wf own ext h -> is_Some (bufs h !! b) ->
    wp (sshbuf_get_u16 b) h (reads b rd_u16 h).
Proof. intros. by apply (fixed_reader PEEK_U16). Qed.

Lemma get_u8_spec b h : wf own ext h -> is_Some (bufs h !! b) ->
    wp (sshbuf_get_u8 b) h (reads b rd_u8 h).
Proof. intros. by apply (fixed_reader (fun v => at_ v 0)). Qed.

  (** ** Writers *)

  (** Filling part of a reservation. *)
Lemma wp_fill h h1 b s1 k o v junk p (Q : res unit -> heap -> Prop) :
    wf own ext h1 -> exclusive_buf own h1 b s1 -> cd s1 = Some (Ptr k 0) ->
    p = padd (Ptr k 0) (off s1 + zlen (contents h b)) ->
    contents h1 b = contents h b ++ junk -> 0 <= o -> o + zlen v <= zlen junk ->
    (forall h2, wf own ext h2 -> frame ext b h1 h2 -> exclusive_buf own h2 b s1 ->
      contents h2 b = contents h b ++ blit o v junk -> Q (Ok tt) h2) ->
    wp (store (padd p o) v) h1 Q.
Proof.
    intros W X Hcd -> Hc H1 H2 HQ. pose proof (zlen_nonneg (contents h b)).
    pose proof (zlen_contents own ext h1 b s1 W (eb_lookup _ _ _ _ X)) as L.
    rewrite Hc, zlen_app in L.
    replace (padd (padd (Ptr k 0) (off s1 + zlen (contents h b))) o)
      with (padd (Ptr k 0) (off s1 + (zlen (contents h b) + o)))
      by (unfold padd; cbn; f_equal; lia).
    apply (wp_store_window own ext h1 b s1 k); try done; try lia.
    intros h2 W2 F2 B2 _ C2. apply HQ; try done.
    - destruct X. constructor; congruence.
    - rewrite C2, Hc. unfold blit, zlen in *.
      rewrite take_app_ge, drop_app_ge by lia. rewrite <- app_assoc. f_equal. f_equal.
      + f_equal. lia.
      + f_equal. f_equal. lia.
Qed.

Lemma padd_0 p : padd p 0 = p.
Proof. destruct p. unfold padd. cbn. f_equal. lia. Qed.

Lemma blit_all {A} (v junk : list A) : zlen v = zlen junk -> blit 0 v junk = v.
Proof.
    unfold blit, zlen. intros. cbn. rewrite drop_ge by lia. apply app_nil_r.
Qed.

Lemma blit_blit {A} (p v junk : list A) : zlen p + zlen v = zlen junk ->
    blit (zlen p) v (blit 0 p junk) = p ++ v.
Proof.
    unfold blit, zlen. intros. change (Z.to_nat 0) with 0%nat.
    rewrite Nat2Z.id, take_0, app_nil_l, take_app_length.
    rewrite drop_ge by (rewrite length_app, length_drop; lia). by rewrite app_nil_r.
Qed.

  (** Reserve [zlen v] bytes and store [v] there. *)
Lemma reserve_store b v h : wf own ext h -> 1 <= own b -> zlen v < 2 ^ 64 ->
    wp (let! p := sshbuf_reserve b (zlen v) in store p v) h (appends b v h).
Proof.
    intros W Ho Hv. pose proof (zlen_nonneg v).
    destruct (wf_own _ _ _ W b) as [s Hb]; [lia|].
    apply wp_bind. eapply wp_mono; [apply (reserve_spec own ext h b s); done || lia|].
    intros r h1 (W1 & F1 & Hr). destruct r as [p|e].
    - destruct Hr as [(s1 & k & junk & X1 & Hcd & Hp & Hc & Hj) _].
      rewrite <- (padd_0 p). apply (wp_fill h h1 b s1 k 0 v junk); try done; try lia.
      intros h2 W2 F2 X2 C2. split_and!; [done|by etrans|].
      rewrite C2, blit_all by lia. done.
    - destruct Hr as [Hc Hr]. split_and!; eauto.
Qed.

Lemma put_u64_spec b v h : wf own ext h -> 1 <= own b ->
    wp (sshbuf_put_u64 b v) h (appends b (POKE_U64 v) h).
Proof. intros. by apply (reserve_store b (POKE_U64 v)). Qed.

Lemma put_u32_spec b v h : wf own ext h -> 1 <= own b ->
    wp (sshbuf_put_u32 b v) h (appends b (POKE_U32 v) h).
Proof. intros. by apply (reserve_store b (POKE_U32 v)). Qed.

Lemma put_u16_spec b v h : wf own ext h -> 1 <= own b ->
    wp (sshbuf_put_u16 b v) h (appends b (POKE_U16 v) h).
Proof. intros. by apply (reserve_store b (POKE_U16 v)). Qed.

Lemma put_u8_spec b v h : wf own ext h -> 1 <= own b ->
    wp (sshbuf_put_u8 b v) h (appends b [byte_of_Z v] h).
Proof. intros. by apply (reserve_store b [byte_of_Z v]). Qed.
  (** The source of a copy: bytes [bs] that are outside the store, or in the window of
      a live buffer other than the one being written. *)
Definition source (b : bufid) (h : heap) (v : src) (bs : bytes) : Prop :=
    src_len v = zlen bs /\
    match v with
    | Outside w => w = bs
    | Inside p n => exists b' s' q o, b' <> b /\ bufs h !! b' = Some s' /\
        cd s' = Some q /\ p = padd q (off s' + o) /\ 0 <= o /\
        o + n <= size_ s' - off s' /\ bs = slice o n (contents h b')
    end.

Lemma source_outside b h v : source b h (Outside v) v.
Proof. done. Qed.

Lemma load_src_spec b h h1 v bs (Q : res bytes -> heap -> Prop) :
    source b h v bs -> wf own ext h1 -> frame ext b h h1 -> Q (Ok bs) h1 ->
    wp (load_src v) h1 Q.
Proof.
    intros [Hlen Hv] W F HQ. destruct v as [w|p n]; cbn in *; [by subst|].
    destruct Hv as (b' & s' & q & o & Hne & Hb & Hq & -> & Ho & Hon & ->).
    pose proof (zlen_nonneg (slice o n (contents h b'))).
    apply (wp_load_window own ext h1 b' s'); try done; try lia.
    { by rewrite (fr_others _ _ _ _ F). }
    by rewrite (fr_contents _ _ _ _ F).
Qed.

Lemma source_len b h v bs : source b h v bs -> src_len v = zlen bs.
Proof. by intros []. Qed.

Lemma put_spec b v bs h : wf own ext h -> 1 <= own b -> zlen bs < 2 ^ 64 ->
    source b h v bs -> wp (sshbuf_put b v) h (appends b bs h).
Proof.
    intros W Ho Hn Hsrc. unfold sshbuf_put. rewrite (source_len _ _ _ _ Hsrc).
    pose proof (zlen_nonneg bs). destruct (wf_own _ _ _ W b) as [s Hb]; [lia|].
    apply wp_bind. eapply wp_mono; [apply (reserve_spec own ext h b s); done || lia|].
    intros r h1 (W1 & F1 & Hr). destruct r as [p|e].
    2:{ destruct Hr as [Hc Hr]. split_and!; eauto. }
    destruct Hr as [(s1 & k & junk & X1 & Hcd & Hp & Hc & Hj) _].
    destruct (Z.eqb_spec (zlen bs) 0) as [E|E].
    - split_and!; try done. apply zlen_0_nil in E as ->.
      rewrite Hc. f_equal. by apply zlen_0_nil.
    - apply wp_bind, (load_src_spec b h h1 v bs); try done. cbv beta iota.
      rewrite <- (padd_0 p). apply (wp_fill h h1 b s1 k 0 bs junk); try done; try lia.
      intros h2 W2 F2 X2 C2. split_and!; [done|by etrans|].
      rewrite C2, blit_all by lia. done.
Qed.

  (** A buffer copied into another one. *)
Lemma source_buffer b b' h s q : wf own ext h -> b' <> b -> bufs h !! b' = Some s ->
    cd s = Some q ->
    source b h (Inside (padd q (off s)) (zlen (contents h b'))) (contents h b').
Proof.
    intros W N Hb Hq. split; [done|]. exists b', s, q, 0.
    pose proof (zlen_contents own ext h b' s W Hb). split_and!; try done; try lia.
    - f_equal. lia.
    - by rewrite slice_all.
Qed.

Lemma zlen_contents_small h b : wf own ext h -> zlen (contents h b) <= SSHBUF_SIZE_MAX.
Proof.
    intros W. unfold contents. destruct (bufs h !! b) as [s|] eqn:Hb.
    - pose proof (zlen_contents own ext h b s W Hb) as L. unfold contents in L.
      rewrite Hb in L. rewrite L.
      pose proof (wf_bounds own ext h b s W Hb) as B. unfold bounds in B. lia.
    - by vm_compute.
Qed.

Lemma putb_spec b b' h : wf own ext h -> 1 <= own b -> is_Some (bufs h !! b') ->
    b' <> b -> wp (sshbuf_putb b (Some b')) h (appends b (contents h b') h).
Proof.
    intros W Ho [s Hb] N. destruct (wf_storage own ext h b' s W Hb) as (q & c & Hq & _).
    apply wp_bind, (wp_ptr own ext h b' s q); try done. cbv beta iota.
    apply wp_bind, (wp_len own ext h b' s); try done. cbv beta iota.
    pose proof (zlen_contents_small h b' W) as L. unfold SSHBUF_SIZE_MAX in L.
    apply put_spec; try done; [lia|]. by apply source_buffer.
Qed.

Lemma put_string_spec b v bs h : wf own ext h -> 1 <= own b ->
    zlen bs <= SSHBUF_SIZE_MAX - 4 -> source b h v bs ->
    wp (sshbuf_put_string b v) h (appends b (wr_string bs) h).
Proof.
    intros W Ho Hn Hsrc. unfold sshbuf_put_string. rewrite (source_len _ _ _ _ Hsrc).
    pose proof (zlen_nonneg bs). destruct (wf_own _ _ _ W b) as [s Hb]; [lia|].
    unfold SSHBUF_SIZE_MAX in *. rewrite Z.gtb_ltb.
    destruct (Z.ltb_spec (0x8000000 - 4) (zlen bs)); [lia|].
    apply wp_bind. eapply wp_mono; [apply (reserve_spec own ext h b s); done || lia|].
    assert (E4 : zlen (wr_string bs) = zlen bs + 4)
      by (unfold wr_string; rewrite zlen_app, zlen_POKE_U32; lia).
    intros r h1 (W1 & F1 & Hr). destruct r as [p|e].
    2:{ destruct Hr as [Hc Hr]. split_and!; eauto. rewrite E4. eauto. }
    destruct Hr as [(s1 & k & junk & X1 & Hcd & Hp & Hc & Hj) _].
    apply wp_bind. rewrite <- (padd_0 p) at 1.
    apply (wp_fill h h1 b s1 k 0 (POKE_U32 (zlen bs)) junk); try done;
      rewrite ?zlen_POKE_U32; try lia.
    intros h2 W2 F2 X2 C2. cbv beta iota.
    assert (L2 : zlen (blit 0 (POKE_U32 (zlen bs)) junk) = zlen bs + 4)
      by (rewrite zlen_blit; rewrite ?zlen_POKE_U32; lia).
    assert (F12 : frame ext b h h2) by (by etrans).
    destruct (Z.eqb_spec (zlen bs) 0) as [E|E].
    { split_and!; try done. rewrite C2. f_equal. unfold wr_string.
      rewrite blit_all by (rewrite zlen_POKE_U32; lia).
      apply zlen_0_nil in E as ->. by rewrite app_nil_r. }
    apply wp_bind, (load_src_spec b h h2 v bs); try done. cbv beta iota.
    apply (wp_fill h h2 b s1 k 4 bs _ p _ W2 X2 Hcd Hp C2); try lia.
    intros h3 W3 F3 X3 C3. split_and!; [done|by etrans|]. rewrite C3. f_equal.
    apply (blit_blit (POKE_U32 (zlen bs)) bs junk). rewrite zlen_POKE_U32. lia.
Qed.

Lemma put_stringb_spec b b' h : wf own ext h -> 1 <= own b ->
    is_Some (bufs h !! b') -> b' <> b -> zlen (contents h b') <= SSHBUF_SIZE_MAX - 4 ->
    wp (sshbuf_put_stringb b (Some b')) h (appends b (wr_string (contents h b')) h).
Proof.
    intros W Ho [s Hb] N Hn. destruct (wf_storage own ext h b' s W Hb) as (q & c & Hq & _).
    apply wp_bind, (wp_ptr own ext h b' s q); try done. cbv beta iota.
    apply wp_bind, (wp_len own ext h b' s); try done. cbv beta iota.
    apply put_string_spec; try done. by apply source_buffer.
Qed.

  (** ** Strings in place *)

  (** What [sshbuf_peek_string_direct] returns designates the string in the buffer. *)
Definition peeked (b : bufid) (h : heap) (r : res (ptr * Z)) : Prop :=
    match r, rd_string (contents h b) with
    | Ok (p, len), Ok (v, rest) => exists s q, bufs h !! b = Some s /\ cd s = Some q /\
        p = padd q (off s + 4) /\ len = zlen v /\ v = slice 4 len (contents h b) /\
        rest = drop (Z.to_nat (len + 4)) (contents h b) /\
        len + 4 <= zlen (contents h b)
    | Err e, Err e' => e = e'
    | _, _ => False
    end.

Lemma PEEK_U32_take c : 4 <= zlen c -> 0 <= PEEK_U32 (take 4 c) < 2 ^ 32.
Proof.
    intros H. destruct c as [|b0 [|b1 [|b2 [|b3 c]]]]; try (unfold zlen in H; cbn in H; lia).
    apply PEEK_U32_range.
Qed.

Lemma peek_string_direct_spec b h : wf own ext h -> is_Some (bufs h !! b) ->
    wp (sshbuf_peek_string_direct b) h (fun r h' => h' = h /\ peeked b h r).
Proof.
    intros W [s Hb]. destruct (wf_storage own ext h b s W Hb) as (q & c & Hq & _).
    pose proof (zlen_contents own ext h b s W Hb) as L.
    apply wp_bind, (wp_ptr own ext h b s q); try done. cbv beta iota.
    apply wp_bind, (wp_len own ext h b s); try done. cbv beta iota.
    unfold peeked, rd_string, rd_u32, rd, rd_map.
    destruct (Z.ltb_spec (zlen (contents h b)) 4); [done|].
    apply wp_bind. rewrite <- (Z.add_0_r (off s)) at 1.
    apply (wp_load_window own ext h b s); try done; try lia. cbv beta iota zeta.
    rewrite take_slice_0. change (Z.to_nat 4) with 4%nat.
    set (len := PEEK_U32 (take 4 (contents h b))).
    pose proof (PEEK_U32_take (contents h b) ltac:(lia)) as Hr. fold len in Hr.
    rewrite !Z.gtb_ltb. destruct (Z.ltb_spec (SSHBUF_SIZE_MAX - 4) len); [done|].
    assert (zlen (drop 4 (contents h b)) = zlen (contents h b) - 4) as Ed
      by (unfold zlen in *; rewrite length_drop; lia).
    rewrite Ed. destruct (Z.ltb_spec (zlen (contents h b) - 4) len); [done|].
    split; [done|]. exists s, q. split_and!; try done.
    - unfold padd. cbn. f_equal. lia.
    - rewrite zlen_take, Ed by lia. lia.
    - rewrite drop_drop. f_equal. lia.
    - lia.
Qed.

Lemma get_string_direct_spec b h : wf own ext h -> is_Some (bufs h !! b) ->
    wp (sshbuf_get_string_direct b) h (fun r h' =>
      wf own ext h' /\ frame ext b h h' /\ mem h' = mem h /\ oom h' = oom h /\
      peeked b h r /\
      match rd_string (contents h b) with
      | Ok (_, rest) => contents h' b = rest
      | Err _ => h' = h
      end).
Proof.
    intros W [s Hb]. apply wp_bind.
    eapply wp_mono; [by apply peek_string_direct_spec; eauto|].
    intros r ? [-> Hr]. destruct r as [[p len]|e].
    2:{ split_and!; try done. unfold peeked in Hr. by destruct (rd_string _) as [[??]|]. }
    assert (Hr' := Hr). unfold peeked in Hr.
    destruct (rd_string (contents h b)) as [[v rest]|] eqn:E; [|done].
    destruct Hr as (s2 & q & Hs2 & Hq & Hp & Hl & Hv & Hrest & Hfit).
    pose proof (zlen_nonneg v). pose proof (zlen_contents_small h b W) as Hm.
    unfold SSHBUF_SIZE_MAX in Hm. apply wp_bind, wp_try. cbn [snd].
    eapply wp_mono; [apply (consume_spec own ext h b s (len + 4)); done || lia|].
    intros r h1 (W1 & F1 & M1 & O1 & Hc). destruct r as [[]|e'].
    - split_and!; try done. by rewrite (proj2 Hc).
    - lia.
Qed.
  (** The bytes a peeked pointer designates are still there after a read. *)
Lemma load_peeked b h h1 p len v rest (Q : res bytes -> heap -> Prop) :
    wf own ext h -> peeked b h (Ok (p, len)) -> rd_string (contents h b) = Ok (v, rest) ->
    mem h1 = mem h -> Q (Ok v) h1 -> wp (load p len) h1 Q.
Proof.
    intros W Hp E M HQ. unfold peeked in Hp. rewrite E in Hp.
    destruct Hp as (s & q & Hb & Hq & -> & Hl & Hv & _ & Hfit). pose proof (zlen_nonneg v).
    destruct (wf_storage own ext h b s W Hb) as (q' & c & Eq & Hc & ? & ?).
    assert (q' = q) as -> by congruence.
    pose proof (wf_bounds own ext h b s W Hb) as B. unfold bounds in B.
    pose proof (zlen_contents own ext h b s W Hb) as L.
    apply (wp_load _ _ c); cbn; try lia; [by rewrite M|].
    assert (slice (poff q + (off s + 4)) len c = v) as ->; [|done].
    rewrite Hv. unfold contents. rewrite Hb. unfold view. rewrite Hq, Hc.
    rewrite slice_slice by lia. f_equal. lia.
Qed.

  (** The [malloc]ed copy of a string that was just consumed. *)
Lemma copy_out b h h1 p len v rest : wf own ext h -> wf own ext h1 ->
    frame ext b h h1 -> mem h1 = mem h -> oom h1 = oom h -> contents h1 b = rest ->
    peeked b h (Ok (p, len)) -> rd_string (contents h b) = Ok (v, rest) ->
    wp (let! ok := request in
        if negb ok then mfail SSH_ERR_ALLOC_FAIL
        else if len =? 0 then mret [] else load p len) h1
      (fun r h2 => wf own ext h2 /\ frame ext b h h2 /\ mem h2 = mem h /\
        match r with
        | Ok a => a = v /\ contents h2 b = rest
        | Err e => e = SSH_ERR_ALLOC_FAIL /\ contents h2 b = rest /\
            exists fs, oom h = true :: fs
        end).
Proof.
    intros W W1 F1 M1 O1 C1 Hp E.
    apply wp_bind, wp_request. cbv beta iota. intros ok fs Hok. set (h2 := set_oom fs h1).
    assert (wf own ext h2) as W2 by by apply wf_set_oom.
    assert (frame ext b h h2) as F by (etrans; [done|apply frame_set_oom]).
    assert (mem h2 = mem h) as M by done. assert (contents h2 b = rest) as C by done.
    destruct ok; cbn [negb].
    - assert (Hl : len = zlen v).
      { unfold peeked in Hp. rewrite E in Hp.
        by destruct Hp as (s & q & _ & _ & _ & Hl & _). }
      destruct (Z.eqb_spec len 0) as [E0|E0].
      + split_and!; try done. symmetry. apply zlen_0_nil. lia.
      + by apply (load_peeked b h h2 p len v rest).
    - split_and!; try done. rewrite <- O1. auto.
Qed.

Lemma get_string_spec b h : wf own ext h -> is_Some (bufs h !! b) ->
    wp (sshbuf_get_string b) h (reads b rd_string h).
Proof.
    intros W Hb. apply wp_bind.
    eapply wp_mono; [by apply get_string_direct_spec|].
    intros r h1 (W1 & F1 & M1 & O1 & Hp & Hr). assert (Hp' := Hp). unfold peeked in Hp.
    unfold reads. destruct r as [[p len]|e];
      destruct (rd_string (contents h b)) as [[v rest]|] eqn:E; try done.
    by apply (copy_out b h h1 p len v rest).
Qed.

Lemma get_cstring_spec b h : wf own ext h -> is_Some (bufs h !! b) ->
    wp (sshbuf_get_cstring b) h (reads b rd_cstring h).
Proof.
    intros W Hb. apply wp_bind. eapply wp_mono; [by apply peek_string_direct_spec|].
    intros r ? [-> Hp]. assert (Hp' := Hp). unfold peeked in Hp.
    unfold reads, rd_cstring. destruct r as [[p len]|e];
      destruct (rd_string (contents h b)) as [[v rest]|] eqn:E; try done.
    destruct Hp as (_ & _ & _ & _ & _ & Hl & _). cbn [fst snd]. cbv zeta.
    apply wp_bind, (wp_mono _ _ (fun r h' => h' = h /\
      r = Ok match memchr0 v with Some z => z <? len - 1 | None => false end)).
    { rewrite Z.gtb_ltb. destruct (Z.ltb_spec 0 len).
      - apply wp_bind. by apply (load_peeked b h h p len v rest).
      - pose proof (zlen_nonneg v). assert (v = []) as -> by (apply zlen_0_nil; lia). done. }
    intros r ? [-> ->]. cbv beta iota. rewrite <- Hl.
    destruct (memchr0 v) as [z|]; [destruct (z <? len - 1); [by split_and!|]|];
    apply wp_bind, wp_try, wp_bind; (eapply wp_mono; [by apply get_string_direct_spec|]);
    intros r h1 (W1 & F1 & M1 & O1 & Hp1 & Hr); rewrite E in Hr; unfold peeked in Hp1;
    rewrite E in Hp1; (destruct r as [[p1 l1]|e1]; [|done]);
    by apply (copy_out b h h1 p len v rest).
Qed.

Lemma sshbuf_get_spec b n h : wf own ext h -> is_Some (bufs h !! b) -> 0 <= n < 2 ^ 64 ->
    wp (sshbuf_get b n) h (reads b (rd n) h).
Proof.
    intros W Hb Hn. destruct (Z.eq_dec n 0) as [->|N].
    - destruct Hb as [s Hb]. destruct (wf_storage own ext h b s W Hb) as (q & c & Hq & _).
      apply wp_bind, (wp_ptr own ext h b s q); try done. cbv beta iota.
      apply wp_bind. eapply wp_mono; [apply (consume_spec own ext h b s 0); done || lia|].
      intros r h1 (W1 & F1 & M1 & O1 & Hr). pose proof (zlen_nonneg (contents h b)).
      unfold reads, rd. destruct (Z.ltb_spec (zlen (contents h b)) 0); [lia|].
      destruct r as [[]|e]; [|lia]. split_and!; try done. apply Hr.
    - unfold sshbuf_get. destruct (Z.eqb_spec n 0); [done|].
      pose proof (fixed_reader (fun v => v) b n h W Hb ltac:(lia)) as R.
      unfold wp, mbind in *. destruct (sshbuf_ptr b h) as [p h1| |]; try done.
      + destruct (sshbuf_consume b n h1) as [[] h2| |]; try done.
        * destruct (load p n h2); try done; unfold reads, rd_map in *;
          by destruct (rd n (contents h b)) as [[]|].
        * unfold reads, rd_map in *. by destruct (rd n (contents h b)) as [[]|].
      + unfold reads, rd_map in *. by destruct (rd n (contents h b)) as [[]|].
Qed.
End refinement.
