(* ===== verification/SshBufLife.v ===== *)
(** The life of a buffer: creation, sharing, release.

    [sshbuf_new] and [sshbuf_fromb] hand the client one reference to a fresh buffer;
    [sshbuf_free] gives one back and releases the buffer, then its parents, when it
    was the last.  The specifications say how the reference function [own] of the
    invariant changes, and that no other buffer's bytes do. *)

From S2P Require Import Prelude SshErr Wire SshQueue SshBuf SshBufGetPut SshBufInv SshBufSpec.
From S2P Require Import SshBufIO.

(** [own] with [n] more references to [b]. *)
Definition refs_upd (b : bufid) (n : Z) (own : bufid -> Z) : bufid -> Z :=
  fun x => if decide (x = b) then own x + n else own x.

Lemma refs_upd_eq b n own : refs_upd b n own b = own b + n.
Proof. unfold refs_upd. by rewrite decide_True. Qed.

Lemma refs_upd_ne b n own x : x <> b -> refs_upd b n own x = own x.
Proof. intros. unfold refs_upd. by rewrite decide_False. Qed.

(** [buf_ok] depends on the buffer's block and on where its parent points. *)
Lemma buf_ok_mono ext h h' b s : buf_ok ext h b s ->
  (forall p c, cd s = Some p -> mem h !! pblk p = Some c -> mem h' !! pblk p = Some c) ->
  (forall q sq, parent s = Some q -> bufs h !! q = Some sq ->
     exists sq', bufs h' !! q = Some sq' /\ cd sq' = cd sq) ->
  buf_ok ext h' b s.
Proof.
  intros [B H] Hm Hq. split; [done|]. destruct (readonly s).
  - destruct H as (? & p & c & ? & ? & ? & ? & H). split; [done|]. exists p, c.
    split_and!; eauto. destruct (parent s) as [q|]; [|done].
    destruct H as (? & sq & pq & G1 & G2 & ?). split; [done|].
    destruct (Hq q sq eq_refl G1) as (sq' & ? & ?). exists sq', pq.
    split_and!; congruence.
  - destruct H as (? & k & c & ? & ? & ? & ? & ?). split; [done|]. exists k, c.
    split_and!; try done. by apply (Hm (Ptr k 0)).
Qed.

(** A fresh identifier is nobody's child, parent or block. *)
Lemma fresh_buf own ext h b : wf own ext h -> (next_id h <= b)%positive ->
  bufs h !! b = None.
Proof.
  intros W Hn. destruct (bufs h !! b) eqn:E; [|done].
  pose proof (wf_next_buf _ _ _ W _ _ E). lia.
Qed.

Lemma fresh_blk own ext h k : wf own ext h -> (next_id h <= k)%positive ->
  mem h !! k = None.
Proof.
  intros W Hn. destruct (mem h !! k) eqn:E; [|done].
  pose proof (wf_next_blk _ _ _ W _ _ E). lia.
Qed.

Lemma parent_live own ext h b s q : wf own ext h -> bufs h !! b = Some s ->
  parent s = Some q -> (q < b)%positive /\ is_Some (bufs h !! q).
Proof.
  intros W Hb Hp. destruct (wf_buf _ _ _ W b s Hb) as [_ H]. destruct (readonly s).
  - destruct H as (_ & p & c & _ & _ & _ & _ & H). rewrite Hp in H.
    destruct H as (? & sq & pq & ? & _). eauto.
  - destruct H as [H _]. congruence.
Qed.

Lemma own_fresh own ext h b : wf own ext h -> bufs h !! b = None -> own b = 0.
Proof.
  intros W Hb. destruct (Z.eq_dec (own b) 0) as [|N]; [done|].
  destruct (wf_own _ _ _ W b N). congruence.
Qed.

Lemma children_fresh own ext h b : wf own ext h -> bufs h !! b = None ->
  children h b = ∅.
Proof.
  intros W Hb. apply leibniz_equiv, set_equiv. intros c.
  rewrite elem_of_children. split; [|set_solver]. intros (s & Hc & Hp).
  destruct (parent_live own ext h c s b W Hc Hp) as [_ []]. congruence.
Qed.

(** ** [sshbuf_new] *)

(** A writable buffer on a fresh block. *)
Lemma wf_add_writable own ext h b k s c nid fs :
  wf own ext h -> (next_id h <= k)%positive -> (next_id h <= b)%positive ->
  (k < nid)%positive -> (b < nid)%positive ->
  readonly s = false -> refcount s = 1 -> parent s = None -> d s = Some (Ptr k 0) ->
  cd s = Some (Ptr k 0) -> bounds s -> alloc s <= zlen c ->
  wf (refs_upd b 1 own) ext
     (mk_heap (<[k := c]> (mem h)) (<[b := s]> (bufs h)) nid fs (getpagesize h)).
Proof.
  intros W Hk Hb Hk2 Hb2 Hro Hrc Hpar Hd Hcd B Hal.
  pose proof (fresh_buf own ext h b W Hb) as Nb. pose proof (fresh_blk own ext h k W Hk) as Nk.
  set (h' := mk_heap _ _ _ _ _).
  assert (Hch : forall x, children h' x = children h x).
  { intros x. apply leibniz_equiv, set_equiv. intros y. rewrite !elem_of_children. cbn.
    destruct (decide (y = b)) as [->|N].
    - rewrite lookup_insert_eq, Nb. split; [|by intros (?&?&?)].
      intros (s' & [= <-] & ?). congruence.
    - by rewrite lookup_insert_ne. }
  constructor; cbn.
  - intros x s' [[<- _]|[_ E]]%lookup_insert_Some; [lia|].
    pose proof (wf_next_buf _ _ _ W _ _ E). lia.
  - intros x c' [[<- _]|[_ E]]%lookup_insert_Some; [lia|].
    pose proof (wf_next_blk _ _ _ W _ _ E). lia.
  - intros x s' [[<- <-]|[N E]]%lookup_insert_Some.
    + split; [done|]. rewrite Hro. split; [done|]. exists k, c. cbn.
      rewrite lookup_insert_eq. split_and!; try done. intros X.
      destruct (wf_ext _ _ _ W k X). congruence.
    + apply (buf_ok_mono ext h); [by apply (wf_buf _ _ _ W)| |].
      * intros p c' _ Hc'. cbn. rewrite lookup_insert_ne; [done|congruence].
      * intros q sq _ Hq. exists sq. cbn. rewrite lookup_insert_ne; [done|congruence].
  - intros b1 b2 s1 s2 j [[<- <-]|[N1 E1]]%lookup_insert_Some
      [[<- <-]|[N2 E2]]%lookup_insert_Some D1 D2; try done.
    + destruct (wf_buf _ _ _ W b2 s2 E2) as [_ H]. destruct (readonly s2);
        [destruct H; congruence|]. destruct H as (_ & j' & ? & ? & _ & ? & _). congruence.
    + destruct (wf_buf _ _ _ W b1 s1 E1) as [_ H]. destruct (readonly s1);
        [destruct H; congruence|]. destruct H as (_ & j' & ? & ? & _ & ? & _). congruence.
    + by eapply (wf_excl _ _ _ W).
  - intros x s' [[<- <-]|[N E]]%lookup_insert_Some; rewrite Hch.
    + rewrite refs_upd_eq, (own_fresh own ext h b W Nb), (children_fresh own ext h b W Nb).
      by rewrite size_empty, Hrc.
    + rewrite refs_upd_ne by done. by apply (wf_refs _ _ _ W).
  - intros x Hx. apply lookup_insert_is_Some'. destruct (decide (b = x)) as [->|N]; [by left|].
    right. apply (wf_own _ _ _ W). by rewrite refs_upd_ne in Hx by done.
  - intros x. unfold refs_upd. pose proof (wf_own_pos _ _ _ W x). case_decide; lia.
  - intros j Hj. apply lookup_insert_is_Some'. right. by apply (wf_ext _ _ _ W).
  - apply (wf_page _ _ _ W).
Qed.

(** What creating [b] leaves alone. *)
Definition others_kept (b : bufid) (h h' : heap) : Prop :=
  forall x, x <> b -> contents h' x = contents h x /\
    (is_Some (bufs h' !! x) <-> is_Some (bufs h !! x)).

Lemma contents_kept own ext h h' x : wf own ext h ->
  (forall s, bufs h !! x = Some s -> exists s', bufs h' !! x = Some s' /\
     cd s' = cd s /\ off s' = off s /\ size_ s' = size_ s) ->
  (bufs h !! x = None -> bufs h' !! x = None) ->
  (forall k c, mem h !! k = Some c -> mem h' !! k = Some c) ->
  contents h' x = contents h x /\ (is_Some (bufs h' !! x) <-> is_Some (bufs h !! x)).
Proof.
  intros W Hs Hn Hm. unfold contents. destruct (bufs h !! x) as [s|] eqn:E.
  - destruct (Hs s eq_refl) as (s' & -> & Ecd & Eo & Ez). split; [|done].
    destruct (wf_storage own ext h x s W E) as (p & c & Hp & Hc & _).
    unfold view. by rewrite Ecd, Eo, Ez, Hp, Hc, (Hm _ _ Hc).
  - by rewrite (Hn eq_refl).
Qed.

Lemma sshbuf_new_spec own ext h : wf own ext h ->
  wp sshbuf_new h (fun r h' =>
    match r with
    | Ok (Some b) => wf (refs_upd b 1 own) ext h' /\ bufs h !! b = None /\
        is_Some (bufs h' !! b) /\ contents h' b = [] /\ others_kept b h h'
    | Ok None => wf own ext h' /\ bufs h' = bufs h /\ mem h' = mem h
    | Err _ => False
    end).
Proof.
  intros W. unfold sshbuf_new.
  assert (Hok : forall fs, wf own ext (set_oom fs h)) by (intros; by apply wf_set_oom).
  assert (Hmain : forall h1 fs, h1 = set_oom fs h -> 
    let k := next_id h in let b := Pos.succ (next_id h) in
    let s := mk_sshbuf (Some (Ptr k 0)) (Some (Ptr k 0)) 0 0 SSHBUF_SIZE_MAX
      SSHBUF_SIZE_INIT false 1 None in
    let h' := mk_heap (<[k := zeros (1 * SSHBUF_SIZE_INIT)]> (mem h1)) (<[b := s]> (bufs h1))
      (Pos.succ b) (oom h1) (getpagesize h1) in
    wf (refs_upd b 1 own) ext h' /\ bufs h !! b = None /\
        is_Some (bufs h' !! b) /\ contents h' b = [] /\ others_kept b h h').
  { intros h1 fs -> k b s h'.
    assert (bufs h !! b = None) as Nb by (apply (fresh_buf own ext h b W); lia).
    split_and!; try done.
    - apply wf_add_writable; try done; try (unfold b, k; cbn; lia).
    - cbn. rewrite lookup_insert_eq. eauto.
    - unfold contents, h'. cbn [bufs]. rewrite lookup_insert_eq. unfold view.
      cbn [cd s mem pblk]. by rewrite lookup_insert_eq.
    - intros x N. apply (contents_kept own ext h h' x W).
      + intros s' E. exists s'. cbn. by rewrite lookup_insert_ne.
      + intros E. cbn. by rewrite lookup_insert_ne.
      + intros j c Hj. cbn. rewrite lookup_insert_ne; [done|]. intros <-.
        pose proof (wf_next_blk _ _ _ W _ _ Hj). unfold k in *. lia. }
  apply wp_bind, wp_request. cbv beta iota. intros ok fs Hf. destruct ok; cbn [negb].
  2:{ by split_and!. }
  apply wp_bind, wp_bind, wp_request. cbv beta iota. intros ok fs2 Hf2. destruct ok.
  - by apply (Hmain (set_oom fs2 (set_oom fs h)) fs2).
  - split_and!; try done. apply (Hok fs2).
Qed.

(** ** [sshbuf_fromb] *)

(** The record of a child over the window of [s]. *)
Definition child_of (b : bufid) (p : ptr) (s : sshbuf) : sshbuf :=
  mk_sshbuf None (Some (padd p (off s))) 0 (size_ s - off s) (size_ s - off s)
    (size_ s - off s) true 1 (Some b).

Section add_child.
Context (own : bufid -> Z) (ext : gset blk) (h : heap) (b c : bufid) (s : sshbuf) (p : ptr)
    (nid : positive) (fs : list bool).
Hypothesis W : wf own ext h.
Hypothesis Hb : bufs h !! b = Some s.
Hypothesis Hcd : cd s = Some p.
Hypothesis Hrc : refcount s < SSHBUF_REFS_MAX.
Hypothesis Hc : (next_id h <= c)%positive.
Hypothesis Hn : (c < nid)%positive.

Let s1 := with_refs (refcount s + 1) s.
Let h' := mk_heap (mem h) (<[b := s1]> (<[c := child_of b p s]> (bufs h))) nid fs
    (getpagesize h).

Lemma ac_fresh : bufs h !! c = None.
Proof. by apply (fresh_buf own ext). Qed.

Lemma ac_ne : b <> c.
Proof. intros ->. pose proof ac_fresh. congruence. Qed.

Lemma ac_inv x s' : bufs h' !! x = Some s' ->
    (x = b /\ s' = s1) \/ (x = c /\ s' = child_of b p s) \/
    (x <> b /\ x <> c /\ bufs h !! x = Some s').
Proof.
    unfold h'. cbn.
    intros [[<- <-]|[N1 [[<- <-]|[N2 E]]%lookup_insert_Some]]%lookup_insert_Some; auto.
Qed.

Lemma ac_old x s' : bufs h !! x = Some s' -> exists s2, bufs h' !! x = Some s2 /\
    cd s2 = cd s' /\ off s2 = off s' /\ size_ s2 = size_ s' /\ d s2 = d s' /\
    readonly s2 = readonly s' /\ parent s2 = parent s'.
Proof.
    intros E. cbn. destruct (decide (x = b)) as [->|N].
    - rewrite lookup_insert_eq. exists s1. assert (s' = s) as -> by congruence. done.
    - rewrite !lookup_insert_ne by (done || (pose proof ac_fresh; congruence)). eauto 10.
Qed.

Lemma ac_children x : children h' x = if decide (x = b) then {[c]} ∪ children h x
                                        else children h x.
Proof.
    apply leibniz_equiv, set_equiv. intros y.
    assert (y ∈ children h' x <-> (y = c /\ x = b) \/ y ∈ children h x) as ->;
      [|destruct (decide (x = b)) as [->|N]; rewrite ?elem_of_union, ?elem_of_singleton;
        tauto].
    rewrite !elem_of_children. split.
    - intros (s' & Hy & Hp). destruct (ac_inv y s' Hy) as [[-> ->]|[[-> ->]|(_ & _ & E)]];
        cbn in Hp; eauto. left. split; congruence.
    - intros [[-> ->]|(s' & E & Hp)].
      + exists (child_of b p s). cbn. rewrite lookup_insert_ne, lookup_insert_eq; [done|].
        apply ac_ne.
      + destruct (ac_old y s' E) as (s2 & ? & _ & _ & _ & _ & _ & ?). exists s2.
        split; congruence.
Qed.

Lemma ac_buf_ok x s' : bufs h' !! x = Some s' -> buf_ok ext h' x s'.
Proof.
    pose proof (wf_buf _ _ _ W b s Hb) as [B H]. unfold bounds in B.
    assert (Hmono : forall y t, buf_ok ext h y t -> buf_ok ext h' y t).
    { intros y t Ht. apply (buf_ok_mono ext h); [done|done|].
      intros q sq _ Hq. destruct (ac_old q sq Hq) as (s2 & ? & ? & _). eauto. }
    intros [[-> ->]|[[-> ->]|(_ & _ & E)]]%ac_inv.
    - destruct (Hmono b s (wf_buf _ _ _ W b s Hb)) as [_ H']. split; [|done].
      unfold bounds. cbn. lia.
    - destruct (wf_storage own ext h b s W Hb) as (p' & e & Ep & He & ? & ?).
      assert (p' = p) as -> by congruence. split; [unfold bounds; cbn; unfold SSHBUF_SIZE_MAX, SSHBUF_REFS_MAX in *; lia|].
      cbn. split; [done|]. exists (padd p (off s)), e. cbn.
      split_and!; try done; try lia.
      + pose proof (wf_next_buf _ _ _ W b s Hb). lia.
      + exists s1, p. by rewrite lookup_insert_eq.
    - by apply Hmono, (wf_buf _ _ _ W).
Qed.

Lemma wf_add_child : wf (refs_upd c 1 own) ext h'.
Proof.
    constructor.
    - intros x s' [[-> ->]|[[-> ->]|(_ & _ & E)]]%ac_inv; cbn; [|lia|].
      + pose proof (wf_next_buf _ _ _ W b s Hb). lia.
      + pose proof (wf_next_buf _ _ _ W x s' E). lia.
    - intros k e E. cbn in *. pose proof (wf_next_blk _ _ _ W k e E). lia.
    - apply ac_buf_ok.
    - intros b1 b2 t1 t2 k E1 E2 D1 D2.
      assert (forall x t, bufs h' !! x = Some t -> d t = Some (Ptr k 0) ->
        exists t', bufs h !! x = Some t' /\ d t' = Some (Ptr k 0)) as X.
      { intros x t [[-> ->]|[[-> ->]|(_ & _ & E)]]%ac_inv D; [eauto|done|eauto]. }
      destruct (X _ _ E1 D1) as (? & ? & ?), (X _ _ E2 D2) as (? & ? & ?).
      by eapply (wf_excl _ _ _ W).
    - intros x s' Hx. rewrite ac_children.
      destruct (ac_inv x s' Hx) as [[-> ->]|[[-> ->]|(N1 & N2 & E)]].
      + rewrite refs_upd_ne, decide_True by (done || apply ac_ne). cbn.
        rewrite size_union, size_singleton, (wf_refs _ _ _ W b s Hb); [lia|].
        intros y ->%elem_of_singleton (t & Ht & _)%elem_of_children.
        pose proof ac_fresh. congruence.
      + rewrite refs_upd_eq, decide_False by (intros E; symmetry in E; by apply ac_ne in E).
        rewrite (own_fresh own ext h c W ac_fresh), (children_fresh own ext h c W ac_fresh).
        done.
      + rewrite refs_upd_ne, decide_False by done. by apply (wf_refs _ _ _ W).
    - intros x Hx. cbn. apply lookup_insert_is_Some'. right.
      apply lookup_insert_is_Some'. destruct (decide (c = x)) as [->|N]; [by left|right].
      apply (wf_own _ _ _ W). by rewrite refs_upd_ne in Hx by done.
    - intros x. unfold refs_upd. pose proof (wf_own_pos _ _ _ W x). case_decide; lia.
    - apply (wf_ext _ _ _ W).
    - apply (wf_page _ _ _ W).
Qed.

Lemma ac_contents : contents h' c = contents h b /\ others_kept c h h'.
Proof.
    split.
    - unfold contents. rewrite Hb. cbn.
      rewrite lookup_insert_ne, lookup_insert_eq by apply ac_ne. unfold view. cbn.
      rewrite Hcd. cbn. by rewrite Z.sub_0_r, Z.add_0_r.
    - intros x N. apply (contents_kept own ext h h' x W); [| |done].
      + intros s' E. destruct (ac_old x s' E) as (s2 & ? & ? & ? & ? & _). eauto.
      + intros E. cbn. rewrite !lookup_insert_ne by congruence. done.
Qed.
End add_child.

(** Sharing: the child reads the parent's bytes in place. *)
Lemma sshbuf_fromb_spec own ext h b s : wf own ext h -> bufs h !! b = Some s ->
  refcount s < SSHBUF_REFS_MAX ->
  wp (sshbuf_fromb b) h (fun r h' =>
    match r with
    | Ok (Some c) => wf (refs_upd c 1 own) ext h' /\ bufs h !! c = None /\
        is_Some (bufs h' !! c) /\ contents h' c = contents h b /\ others_kept c h h'
    | Ok None => wf own ext h' /\ bufs h' = bufs h /\ mem h' = mem h
    | Err _ => False
    end).
Proof.
  intros W Hb Hrc. destruct (wf_storage own ext h b s W Hb) as (p & e & Hp & He & ? & ?).
  pose proof (zlen_contents own ext h b s W Hb) as L.
  pose proof (zlen_contents_small own ext h b W) as Ls.
  apply wp_bind, (wp_check_sanity own ext h b s); [done..|]. cbv beta iota.
  apply wp_bind, (wp_ptr own ext h b s p); [done..|]. cbv beta iota.
  apply wp_bind, (wp_len own ext h b s); [done..|]. cbv beta iota.
  rewrite L in *. apply wp_bind. unfold sshbuf_from. rewrite Z.gtb_ltb.
  destruct (Z.ltb_spec SSHBUF_SIZE_MAX (size_ s - off s)); [lia|].
  apply wp_bind, wp_request. cbv beta iota. intros ok fs _. destruct ok; cbn [negb].
  2:{ split_and!; try done. by apply wf_set_oom. }
  set (c := next_id h). assert (bufs h !! c = None) as Nc by (apply (fresh_buf own ext); done || lia).
  assert (N : b <> c) by congruence.
  apply wp_bind. unfold wp at 1, new_buf. cbv beta iota. apply wp_ret. cbv beta iota.
  apply wp_bind, wp_try, wp_bind.
  set (s0 := mk_sshbuf None _ 0 _ _ _ true 1 None). set (h1 := mk_heap _ _ _ _ _).
  pose proof (wf_bounds own ext h b s W Hb) as B. unfold bounds in B.
  assert (sane s0 = true) as S0.
  { apply sane_of_bounds; try done. unfold bounds. cbn. unfold SSHBUF_SIZE_MAX, SSHBUF_REFS_MAX in *. lia. }
  assert (sane s = true) as S by apply (buf_ok_sane ext h b), (wf_buf _ _ _ W), Hb.
  assert (forall x t h2 (Q : res unit -> heap -> Prop), bufs h2 !! x = Some t ->
    sane t = true -> Q (Ok tt) h2 -> wp (sshbuf_check_sanity x) h2 Q) as Hchk.
  { intros x t h2 Q Hx Hs HQ. apply wp_bind, (wp_get_buf x t); [done|]. by rewrite Hs. }
  apply (Hchk c s0); [cbn; apply lookup_insert_eq|done|]. cbv beta iota.
  apply wp_bind, (Hchk b s); [cbn; by rewrite lookup_insert_ne|done|]. cbv beta iota.
  apply wp_bind, (wp_get_buf c s0); [cbn; apply lookup_insert_eq|]. cbv beta iota.
  apply wp_bind, (wp_set_buf c s0); [cbn; apply lookup_insert_eq|]. cbv beta iota.
  apply wp_bind, (wp_get_buf b s); [cbn; by rewrite !lookup_insert_ne by done|]. cbv beta iota.
  apply (wp_set_buf b s); [cbn; by rewrite !lookup_insert_ne by done|]. cbv beta iota.
  rewrite u32_small by (unfold SSHBUF_REFS_MAX in *; lia). cbn. rewrite insert_insert_eq.
  pose proof (wf_add_child own ext h b c s p (Pos.succ c) fs W Hb Hp Hrc
    ltac:(lia) ltac:(lia)) as W'.
  destruct (ac_contents own ext h b c s p (Pos.succ c) fs W Hb Hp ltac:(lia)) as [C1 C2].
  split_and!; try done. cbn. rewrite lookup_insert_ne, lookup_insert_eq by done. eauto.
Qed.
