(* ===== verification/SshBufFree.v ===== *)
(** Release: [sshbuf_free] gives one reference back.

    The recursion runs while the dying child is still in the store, so the argument has
    two parts: the run on the parents does not look at the dying record
    ([free_chain_add]), and without that record the store satisfies the invariant with
    the child's reference counted as the client's ([wf_remove]). *)

From S2P Require Import Prelude SshErr Wire SshQueue SshBuf SshBufGetPut SshBufInv SshBufSpec.
From S2P Require Import SshBufIO SshBufLife.

(** ** Records that the recursion does not reach *)

Definition add_buf (b : bufid) (s : sshbuf) (h : heap) : heap :=
  set_bufs (<[b := s]> (bufs h)) h.

Definition omap {A} (f : heap -> heap) (o : outcome A) : outcome A :=
  match o with Ret a h => Ret a (f h) | Fail e h => Fail e (f h) | Crash => Crash end.

(** [m] neither reads nor writes the record of [b]. *)
Definition indep {A} (b : bufid) (s : sshbuf) (m : M A) (h : heap) : Prop :=
  m (add_buf b s h) = omap (add_buf b s) (m h).

Lemma indep_bind {A B} b s (m : M A) (f : A -> M B) h :
  indep b s m h -> (forall a h', m h = Ret a h' -> indep b s (f a) h') ->
  indep b s (mbind m f) h.
Proof.
  unfold indep, mbind. intros -> Hf. destruct (m h) as [a h'|e h'|]; cbn; [|done|done].
  by apply Hf.
Qed.

Lemma indep_ret {A} b s (a : A) h : indep b s (mret a) h.
Proof. done. Qed.

Lemma indep_get b s x h : x <> b -> indep b s (get_buf x) h.
Proof.
  intros N. unfold indep, get_buf. cbn. rewrite lookup_insert_ne by done.
  by destruct (bufs h !! x).
Qed.

Lemma indep_set b s x t h : x <> b -> indep b s (set_buf x t) h.
Proof.
  intros N. unfold indep, set_buf. cbn. rewrite lookup_insert_ne by done.
  destruct (bufs h !! x); [|done]. cbn. unfold add_buf, set_bufs. cbn.
  by rewrite insert_insert_ne.
Qed.

Lemma indep_delete b s x h : x <> b ->
  indep b s (fun h => Ret tt (set_bufs (delete x (bufs h)) h)) h.
Proof.
  intros N. unfold indep, omap, add_buf, set_bufs. cbn. by rewrite delete_insert_ne.
Qed.

Lemma indep_sanity b s x h : x <> b -> indep b s (sshbuf_check_sanity x) h.
Proof.
  intros N. apply indep_bind; [by apply indep_get|]. intros t h' _. by destruct (sane t).
Qed.

Lemma indep_wipe b s t h :
  indep b s (if readonly t then mret tt
             else let! p := deref (d t) in store p (zeros (alloc t)) ;; free p) h.
Proof.
  destruct (readonly t); [done|]. apply indep_bind; [by destruct (d t)|]. intros p h1 _.
  apply indep_bind.
  - unfold indep, store. cbn. destruct (mem h1 !! pblk p); [|done].
    by destruct (_ && _).
  - intros [] h2 _. unfold indep, free. cbn. destruct (mem h2 !! pblk p); [|done].
    by destruct (poff p =? 0).
Qed.

(** Parents have smaller identifiers. *)
Definition par_dec (h : heap) : Prop :=
  forall x s q, bufs h !! x = Some s -> parent s = Some q -> (q < x)%positive.

Lemma wf_par_dec own ext h : wf own ext h -> par_dec h.
Proof. intros W x s q Hx Hp. by apply (parent_live own ext h x s q). Qed.

Lemma free_chain_add n buf b s h : par_dec h ->
  match buf with Some q => (q < b)%positive | None => True end ->
  indep b s (sshbuf_free_chain n buf) h.
Proof.
  revert buf h. induction n as [|n IH]; intros [q|] h P Hq; try done. cbn.
  assert (N : q <> b) by lia.
  apply indep_bind; [by apply indep_sanity|]. intros [] h1 E1.
  assert (h1 = h) as ->.
  { unfold sshbuf_check_sanity, mbind, get_buf in E1. destruct (bufs h !! q); [|done].
    destruct (sane _); [|done]. by injection E1. }
  apply indep_bind; [by apply indep_get|]. intros t h1 E.
  unfold get_buf in E. destruct (bufs h !! q) as [t'|] eqn:Ht; [|done].
  injection E as -> <-. apply indep_bind; [by apply indep_set|]. intros [] h1 E.
  unfold set_buf in E. rewrite Ht in E. injection E as <-.
  destruct (u32 (refcount t - 1) >? 0); [done|].
  apply indep_bind.
  - apply IH.
    + intros x t' q'. cbn. intros [[<- <-]|[_ E]]%lookup_insert_Some Hp; [|by apply (P x t')].
      by apply (P q t).
    + destruct (parent t) as [q'|] eqn:Hp; [|done]. pose proof (P q t q' Ht Hp). lia.
  - intros [] h2 _. apply indep_bind; [by apply indep_get|]. intros t2 h3 _.
    apply indep_bind; [by apply indep_set|]. intros [] h4 _.
    apply indep_bind; [by apply indep_wipe|]. intros [] h5 _. by apply indep_delete.
Qed.

(** ** The invariant without a buffer, a block, a reference *)

(** Dropping the record of a buffer whose only reference is the client's. *)
Definition refs_after (q : bufid) (s : sshbuf) (own : bufid -> Z) : bufid -> Z :=
  let own' := refs_upd q (-1) own in
  match parent s with Some p => refs_upd p 1 own' | None => own' end.

Lemma children_remove h q s x : bufs h !! q = Some s ->
  children (set_bufs (delete q (bufs h)) h) x = children h x ∖ {[q]}.
Proof.
  intros Hq. apply leibniz_equiv, set_equiv. intros y.
  rewrite elem_of_difference, elem_of_singleton, !elem_of_children. cbn.
  destruct (decide (y = q)) as [->|N].
  - rewrite lookup_delete_eq. split; [by intros (?&?&?)|by intros [_ []]].
  - rewrite lookup_delete_ne by done. tauto.
Qed.

Lemma wf_remove own ext h q s : wf own ext h -> bufs h !! q = Some s ->
  own q = 1 -> refcount s = 1 ->
  wf (refs_after q s own) ext (set_bufs (delete q (bufs h)) h).
Proof.
  intros W Hq Ho Hrc.
  assert (Hnoch : forall c, c ∉ children h q).
  { intros c. by apply (no_children own ext h q s); try lia. }
  assert (Hpar : forall p, parent s = Some p -> p <> q /\ is_Some (bufs h !! p)).
  { intros p Hp. destruct (parent_live own ext h q s p W Hq Hp). split; [lia|done]. }
  assert (Hown : forall x, x <> q -> refs_after q s own x =
    own x + (if decide (parent s = Some x) then 1 else 0)).
  { intros x N. unfold refs_after. destruct (parent s) as [p|].
    - destruct (decide (x = p)) as [->|Np].
      + rewrite refs_upd_eq, refs_upd_ne, decide_True by done. done.
      + rewrite !refs_upd_ne, decide_False by congruence. lia.
    - rewrite refs_upd_ne, decide_False by done. lia. }
  assert (Hownq : refs_after q s own q = 0).
  { unfold refs_after. destruct (parent s) as [p|] eqn:E.
    - destruct (Hpar p eq_refl). rewrite refs_upd_ne, refs_upd_eq by done. lia.
    - rewrite refs_upd_eq. lia. }
  constructor; cbn.
  - intros x t [_ E]%lookup_delete_Some. by apply (wf_next_buf _ _ _ W x t).
  - apply (wf_next_blk _ _ _ W).
  - intros x t [N E]%lookup_delete_Some.
    apply (buf_ok_mono ext h); [by apply (wf_buf _ _ _ W)|done|].
    intros p sp Hp Hsp. exists sp. cbn. rewrite lookup_delete_ne; [done|].
    intros ->. apply (Hnoch x), elem_of_children. eauto.
  - intros b1 b2 s1 s2 k [_ E1]%lookup_delete_Some [_ E2]%lookup_delete_Some.
    by apply (wf_excl _ _ _ W).
  - intros x t [N E]%lookup_delete_Some. rewrite (children_remove h q s x Hq), Hown by done.
    rewrite (wf_refs _ _ _ W x t E). destruct (decide (parent s = Some x)) as [Hp|Hp].
    + assert (q ∈ children h x) as Hin by (apply elem_of_children; eauto).
      rewrite (size_difference (children h x) {[q]}), size_singleton by set_solver.
      assert (1 <= size (children h x))%nat.
      { rewrite <- (size_singleton (C:=gset bufid) q). apply subseteq_size. set_solver. }
      lia.
    + rewrite (size_difference_alt (children h x) {[q]}).
      replace (children h x ∩ {[q]}) with (∅ : gset bufid); [rewrite size_empty; lia|].
      apply leibniz_equiv, set_equiv. intros y. split; [set_solver|].
      intros [(t' & Ht' & Hp')%elem_of_children ->%elem_of_singleton]%elem_of_intersection.
      congruence.
  - intros x Hx. destruct (decide (x = q)) as [->|N]; [congruence|]. cbn.
    rewrite lookup_delete_ne by done. rewrite Hown in Hx by done.
    destruct (decide (parent s = Some x)) as [Hp|Hp]; [by apply Hpar|].
    apply (wf_own _ _ _ W). lia.
  - intros x. destruct (decide (x = q)) as [->|N]; [lia|]. rewrite Hown by done.
    pose proof (wf_own_pos _ _ _ W x). case_decide; lia.
  - apply (wf_ext _ _ _ W).
  - apply (wf_page _ _ _ W).
Qed.

(** Dropping a block on which no buffer stands. *)
Lemma wf_drop_block own ext h k : wf own ext h -> k ∉ ext ->
  (forall x t p, bufs h !! x = Some t -> cd t = Some p -> pblk p <> k) ->
  wf own ext (set_mem (delete k (mem h)) h).
Proof.
  intros W Hk Hno. constructor; try apply W; cbn.
  - intros j c [_ E]%lookup_delete_Some. by apply (wf_next_blk _ _ _ W j c).
  - intros x t E. apply (buf_ok_mono ext h); [by apply (wf_buf _ _ _ W)| |eauto].
    intros p c Hp Hc. cbn. rewrite lookup_delete_ne; [done|].
    intros Hkp. by apply (Hno x t p).
  - intros j Hj. cbn. rewrite lookup_delete_ne by congruence. by apply (wf_ext _ _ _ W).
Qed.

(** Giving one of several references back. *)
Lemma wf_unref own ext h q s : wf own ext h -> bufs h !! q = Some s ->
  1 <= own q -> 1 < refcount s ->
  wf (refs_upd q (-1) own) ext (set_bufs (<[q := with_refs (refcount s - 1) s]> (bufs h)) h).
Proof.
  intros W Hq Ho Hrc. set (h' := set_bufs _ h).
  assert (Hold : forall x t', bufs h' !! x = Some t' -> exists t, bufs h !! x = Some t /\
    d t' = d t /\ cd t' = cd t).
  { intros x t'. unfold h'. cbn. intros [[<- <-]|[_ E]]%lookup_insert_Some; eauto. }
  assert (Hnew : forall x t, bufs h !! x = Some t -> exists t', bufs h' !! x = Some t' /\
    cd t' = cd t).
  { intros x t E. unfold h'. cbn. destruct (decide (q = x)) as [->|N].
    - rewrite lookup_insert_eq. assert (t = s) as -> by congruence. eauto.
    - rewrite lookup_insert_ne by done. eauto. }
  constructor; try apply W.
  - intros x t' (t & E & _)%Hold. by apply (wf_next_buf _ _ _ W x t).
  - assert (Hmono : forall x t, buf_ok ext h x t -> buf_ok ext h' x t).
    { intros x t Ht. apply (buf_ok_mono ext h); [done|done|]. intros p sp _. apply Hnew. }
    intros x t'. unfold h'. cbn. intros [[<- <-]|[_ E]]%lookup_insert_Some.
    + destruct (Hmono q s (wf_buf _ _ _ W q s Hq)) as [B H]. split; [|done].
      unfold bounds in *. cbn. lia.
    + by apply Hmono, (wf_buf _ _ _ W).
  - intros b1 b2 s1 s2 k E1 E2 D1 D2. destruct (Hold _ _ E1) as (t1 & ? & F1 & _).
    destruct (Hold _ _ E2) as (t2 & ? & F2 & _).
    apply (wf_excl _ _ _ W b1 b2 t1 t2 k); congruence.
  - intros x t'. rewrite (children_update h h' q s (with_refs (refcount s - 1) s)) by done.
    unfold h'. cbn. intros [[<- <-]|[N E]]%lookup_insert_Some.
    + rewrite refs_upd_eq. cbn. rewrite (wf_refs _ _ _ W q s Hq). lia.
    + rewrite refs_upd_ne by done. by apply (wf_refs _ _ _ W).
  - intros x Hx. cbn. apply lookup_insert_is_Some'. right. apply (wf_own _ _ _ W).
    unfold refs_upd in Hx. case_decide; subst; lia.
  - intros x. pose proof (wf_own_pos _ _ _ W x). unfold refs_upd. case_decide; subst; lia.
Qed.

(** ** [sshbuf_free] *)

(** What a release may do: drop records and blocks; the records and blocks that stay
    are the same. *)
Record shrunk (h h' : heap) : Prop := {
  sh_bufs : forall x t', bufs h' !! x = Some t' -> exists t, bufs h !! x = Some t /\
    cd t' = cd t /\ off t' = off t /\ size_ t' = size_ t;
  sh_mem : forall k c, mem h' !! k = Some c -> mem h !! k = Some c
}.

#[global] Instance shrunk_refl : Reflexive shrunk.
Proof. intros h. constructor; eauto. Qed.

#[global] Instance shrunk_trans : Transitive shrunk.
Proof.
  intros h1 h2 h3 [A1 A2] [B1 B2]. constructor; [|eauto].
  intros x t3 G3. destruct (B1 x t3 G3) as (t2 & G2 & ? & ? & ?).
  destruct (A1 x t2 G2) as (t1 & G1 & ? & ? & ?). exists t1. split_and!; congruence.
Qed.

(** A live buffer that stays keeps its bytes. *)
Lemma shrunk_contents own ext h h' x : wf own ext h' -> shrunk h h' ->
  is_Some (bufs h' !! x) -> contents h' x = contents h x.
Proof.
  intros W' S [t' E]. destruct (sh_bufs _ _ S x t' E) as (t & Et & Ec & Eo & Ez).
  destruct (wf_storage own ext h' x t' W' E) as (p & c & Hp & Hc & _).
  unfold contents. rewrite E, Et. unfold view. rewrite <- Ec, Hp, Hc.
  by rewrite (sh_mem _ _ S _ _ Hc), Eo, Ez.
Qed.

(** Wiping and freeing the storage of a writable buffer that left the store. *)
Lemma wipe_spec own own' ext h q s : wf own ext h -> bufs h !! q = Some s ->
  1 <= own q -> refcount s = 1 ->
  forall h1, wf own' ext h1 -> bufs h1 = delete q (bufs h) -> mem h1 = mem h ->
  readonly s = false -> forall t t', d t = d s -> alloc t = alloc s ->
  wp (let! p := deref (d t) in store p (zeros (alloc t)) ;; free p) (add_buf q t' h1)
    (fun r h2 => r = Ok tt /\ exists h3, h2 = add_buf q t' h3 /\ wf own' ext h3 /\
       bufs h3 = bufs h1 /\ shrunk h1 h3).
Proof.
  intros W Hq Ho Hrc h1 W1 B1 M1 Hro t t' Hd Hal.
  destruct (wf_buf _ _ _ W q s Hq) as [B H]. rewrite Hro in H.
  destruct H as (_ & k & c & Ed & Ecd & Hc & Hlen & Hk). unfold bounds in B.
  apply wp_bind. rewrite Hd, Ed. apply wp_ret. cbv beta iota.
  apply wp_bind, (wp_store _ _ c); cbn [pblk poff add_buf set_bufs mem].
  { by rewrite M1. }
  { done. }
  { rewrite zlen_zeros; lia. }
  eapply wp_free; [apply lookup_insert_eq|]. split; [done|].
  exists (set_mem (delete k (mem h1)) h1). split_and!.
  - unfold add_buf, set_mem, set_bufs. cbn. by rewrite delete_insert_eq.
  - apply wf_drop_block; [done|done|]. intros x tx p Hx Hp Hpk. rewrite B1 in Hx.
    apply lookup_delete_Some in Hx as [N Hx]. apply N. symmetry.
    by apply (exclusive own ext h q s k W Hq Ed Ho ltac:(lia) x tx p).
  - done.
  - constructor; cbn; [eauto|]. by intros j e [_ E]%lookup_delete_Some.
Qed.

Lemma wf_own_eq own own' ext h : (forall x, own x = own' x) -> wf own ext h ->
  wf own' ext h.
Proof.
  intros E W. constructor; try apply W.
  - intros b s Hb. rewrite <- E. by apply (wf_refs _ _ _ W).
  - intros b Hb. apply (wf_own _ _ _ W). by rewrite E.
  - intros b. rewrite <- E. apply (wf_own_pos _ _ _ W).
Qed.

(** The end of the release of [q], its parents being done with. *)
Lemma free_tail own own' ext h q s : wf own ext h -> bufs h !! q = Some s ->
  1 <= own q -> refcount s = 1 ->
  let hq := set_bufs (delete q (bufs h)) h in
  forall h1, wf own' ext h1 -> shrunk hq h1 -> (parent s = None -> h1 = hq) ->
  wp (let! t := get_buf q in
      set_buf q (with_parent None t) ;;
      (if readonly t then mret tt
       else let! p := deref (d t) in store p (zeros (alloc t)) ;; free p) ;;
      fun h => Ret tt (set_bufs (delete q (bufs h)) h)) (add_buf q (with_refs 0 s) h1)
    (fun r h' => r = Ok tt /\ wf own' ext h' /\ shrunk hq h').
Proof.
  intros W Hq Ho Hrc hq h1 W1 S1 Hpar. set (s0 := with_refs 0 s).
  assert (Nq : bufs h1 !! q = None).
  { destruct (bufs h1 !! q) as [t|] eqn:E; [|done].
    destruct (sh_bufs _ _ S1 q t E) as (t' & E' & _). cbn in E'.
    by rewrite lookup_delete_eq in E'. }
  apply wp_bind, (wp_get_buf q s0); [cbn; apply lookup_insert_eq|]. cbv beta iota.
  apply wp_bind, (wp_set_buf q s0); [cbn; apply lookup_insert_eq|]. cbv beta iota.
  set (t := with_parent None s0).
  assert (set_bufs (<[q := t]> (bufs (add_buf q s0 h1))) (add_buf q s0 h1) =
    add_buf q t h1) as -> by (unfold add_buf, set_bufs; cbn; by rewrite insert_insert_eq).
  assert (Hdel : forall h3, wf own' ext h3 -> bufs h3 = bufs h1 -> shrunk hq h3 ->
    wp (fun h => Ret tt (set_bufs (delete q (bufs h)) h)) (add_buf q t h3)
      (fun r h' => r = Ok tt /\ wf own' ext h' /\ shrunk hq h')).
  { intros h3 W3 B3 S3. unfold wp. cbn. rewrite delete_insert_id by (by rewrite B3).
    by destruct h3. }
  apply wp_bind. destruct (readonly s) eqn:Hro; cbn [readonly s0 with_refs]; rewrite ?Hro.
  - apply wp_ret. by apply Hdel.
  - destruct (wf_buf _ _ _ W q s Hq) as [_ H]. rewrite Hro in H. destruct H as [Hp _].
    specialize (Hpar Hp) as ->.
    eapply wp_mono; [by apply (wipe_spec own own' ext h q s W Hq Ho Hrc hq)|].
    intros r h2 (-> & h3 & -> & W3 & B3 & S3). by apply Hdel.
Qed.

(** One reference to [q] is given back; [q] and the chain of its parents are released
    as far as that reference was the last one. *)
Lemma free_chain_spec ext n : forall own q h, wf own ext h -> 1 <= own q ->
  (size (bufs h) <= n)%nat ->
  wp (sshbuf_free_chain n (Some q)) h (fun r h' => r = Ok tt /\
    wf (refs_upd q (-1) own) ext h' /\ shrunk h h').
Proof.
  induction n as [|n IH]; intros own q h W Ho Hn;
    destruct (wf_own _ _ _ W q ltac:(lia)) as [s Hq].
  { assert (bufs h = ∅) as E by (apply map_size_empty_inv; lia).
    by rewrite E, lookup_empty in Hq. }
  pose proof (wf_bounds own ext h q s W Hq) as B.
  unfold bounds, SSHBUF_REFS_MAX in B. cbn [sshbuf_free_chain].
  apply wp_bind, (wp_check_sanity own ext h q s); [done..|]. cbv beta iota.
  apply wp_bind, (wp_get_buf q s); [done|]. cbv beta iota zeta.
  rewrite u32_small by lia. apply wp_bind, (wp_set_buf q s); [done|]. cbv beta iota.
  rewrite Z.gtb_ltb. destruct (Z.ltb_spec 0 (refcount s - 1)) as [Hmore|Hlast].
  { split_and!; [done|by apply wf_unref; try lia|]. constructor; [|done].
    cbn. intros x t' [[<- <-]|[_ E]]%lookup_insert_Some; eauto. }
  assert (Hrc : refcount s = 1) by lia.
  assert (Ho1 : own q = 1) by (pose proof (wf_refs _ _ _ W q s Hq); lia).
  rewrite Hrc, Z.sub_diag. set (hq := set_bufs (delete q (bufs h)) h).
  assert (set_bufs (<[q := with_refs 0 s]> (bufs h)) h = add_buf q (with_refs 0 s) hq) as ->
    by (unfold add_buf, hq, set_bufs; cbn; by rewrite insert_delete_eq).
  pose proof (wf_remove own ext h q s W Hq Ho1 Hrc) as Wq. fold hq in Wq.
  assert (Sq : shrunk h hq).
  { constructor; [|done]. cbn. intros x t' [_ E]%lookup_delete_Some. eauto. }
  assert (Hsz : (size (bufs hq) <= n)%nat) by (cbn; rewrite map_size_delete, Hq; cbn; lia).
  assert (Hrec : wp (sshbuf_free_chain n (parent s)) hq (fun r h1 => r = Ok tt /\
    wf (refs_upd q (-1) own) ext h1 /\ shrunk hq h1 /\ (parent s = None -> h1 = hq))).
  { unfold refs_after in Wq. destruct (parent s) as [p|] eqn:Hp; [|by destruct n].
    eapply wp_mono; [apply (IH _ p hq Wq); [|done]|].
    - rewrite refs_upd_eq. pose proof (parent_live own ext h q s p W Hq Hp) as [? _].
      rewrite refs_upd_ne by lia. pose proof (wf_own_pos _ _ _ W p). lia.
    - intros r h1 (-> & W1 & S1). split_and!; try done.
      eapply wf_own_eq, W1. intros x. unfold refs_upd. repeat case_decide; lia. }
  apply wp_bind. unfold wp at 1. rewrite (free_chain_add n (parent s) q (with_refs 0 s) hq).
  2:{ by apply (wf_par_dec _ ext hq Wq). }
  2:{ destruct (parent s) as [p|] eqn:Hp; [|done]. by apply (parent_live own ext h q s p). }
  unfold wp in Hrec. destruct (sshbuf_free_chain n (parent s) hq) as [[] h1|e h1|];
    [|by destruct Hrec|done].
  destruct Hrec as (_ & W1 & S1 & Hnone). cbn [omap].
  eapply wp_mono; [by apply (free_tail own _ ext h q s W Hq Ho Hrc h1 W1 S1 Hnone)|].
  intros r h2 (-> & W2 & S2). split_and!; try done. by etrans.
Qed.

Lemma sshbuf_free_spec own ext h q : wf own ext h -> 1 <= own q ->
  wp (sshbuf_free (Some q)) h (fun r h' => r = Ok tt /\
    wf (refs_upd q (-1) own) ext h' /\ shrunk h h').
Proof. intros. unfold sshbuf_free. apply free_chain_spec; try done. lia. Qed.
