(* ===== verification/SshBufClient.v ===== *)
(** Clients of the buffer library: any sequence of calls on the buffers a client holds.

    [exec] runs one call, [run] a whole script.  [qstep] is the abstract machine the
    library promises: every held buffer is an independent queue of bytes.  The
    simulation [sim] says that the two agree, whatever the sharing of storage between
    parents and children and whichever allocations fail. *)

From S2P Require Import Prelude SshErr Wire SshQueue SshBuf SshBufGetPut SshBufInv SshBufSpec.
From S2P Require Import SshBufIO SshBufLife SshBufFree.

(** ** Calls *)

Inductive value :=
| VUnit
| VBuf (b : option bufid)
| VNum (n : Z)
| VBytes (v : bytes).

Inductive op :=
| ONew
| OFromb (b : bufid)
| OFree (b : bufid)
| OPut (b : bufid) (v : bytes)
| OPutb (b v : bufid)
| OPutU8 (b : bufid) (n : Z)
| OPutU16 (b : bufid) (n : Z)
| OPutU32 (b : bufid) (n : Z)
| OPutU64 (b : bufid) (n : Z)
| OPutString (b : bufid) (v : bytes)
| OConsume (b : bufid) (n : Z)
| OConsumeEnd (b : bufid) (n : Z)
| OGet (b : bufid) (n : Z)
| OGetU8 (b : bufid)
| OGetU16 (b : bufid)
| OGetU32 (b : bufid)
| OGetU64 (b : bufid)
| OGetString (b : bufid)
| OGetCstring (b : bufid).

Definition as_value {A} (f : A -> value) (m : M A) : M value :=
  let! a := m in mret (f a).

Definition unit_value (_ : unit) : value := VUnit.

Definition exec (o : op) : M value :=
  match o with
  | ONew => as_value VBuf sshbuf_new
  | OFromb b => as_value VBuf (sshbuf_fromb b)
  | OFree b => as_value unit_value (sshbuf_free (Some b))
  | OPut b v => as_value unit_value (sshbuf_put b (Outside v))
  | OPutb b v => as_value unit_value (sshbuf_putb b (Some v))
  | OPutU8 b n => as_value unit_value (sshbuf_put_u8 b n)
  | OPutU16 b n => as_value unit_value (sshbuf_put_u16 b n)
  | OPutU32 b n => as_value unit_value (sshbuf_put_u32 b n)
  | OPutU64 b n => as_value unit_value (sshbuf_put_u64 b n)
  | OPutString b v => as_value unit_value (sshbuf_put_string b (Outside v))
  | OConsume b n => as_value unit_value (sshbuf_consume b n)
  | OConsumeEnd b n => as_value unit_value (sshbuf_consume_end b n)
  | OGet b n => as_value VBytes (sshbuf_get b n)
  | OGetU8 b => as_value VNum (sshbuf_get_u8 b)
  | OGetU16 b => as_value VNum (sshbuf_get_u16 b)
  | OGetU32 b => as_value VNum (sshbuf_get_u32 b)
  | OGetU64 b => as_value VNum (sshbuf_get_u64 b)
  | OGetString b => as_value VBytes (sshbuf_get_string b)
  | OGetCstring b => as_value VBytes (sshbuf_get_cstring b)
  end.

(** ** The abstract machine *)

(** The bytes a writing call appends, and to which buffer. *)
Definition appended (o : op) (m : gmap bufid bytes) : option (bufid * bytes) :=
  match o with
  | OPut b v => Some (b, v)
  | OPutb b v => w ← m !! v; Some (b, w)
  | OPutU8 b n => Some (b, [byte_of_Z n])
  | OPutU16 b n => Some (b, POKE_U16 n)
  | OPutU32 b n => Some (b, POKE_U32 n)
  | OPutU64 b n => Some (b, POKE_U64 n)
  | OPutString b v => Some (b, wr_string v)
  | _ => None
  end.

Definition rd_skip (n : Z) (c : bytes) : res (unit * bytes) :=
  rd_map (fun _ => tt) (rd n c).

Definition rd_tail (n : Z) (c : bytes) : res (unit * bytes) :=
  if zlen c <? n then Err SSH_ERR_MESSAGE_INCOMPLETE
  else Ok (tt, take (Z.to_nat (zlen c - n)) c).

(** The reader a reading call applies, and to which buffer. *)
Definition reader (o : op) : option (bufid * (bytes -> res (value * bytes))) :=
  match o with
  | OConsume b n => Some (b, fun c => rd_map unit_value (rd_skip n c))
  | OConsumeEnd b n => Some (b, fun c => rd_map unit_value (rd_tail n c))
  | OGet b n => Some (b, fun c => rd_map VBytes (rd n c))
  | OGetU8 b => Some (b, fun c => rd_map VNum (rd_u8 c))
  | OGetU16 b => Some (b, fun c => rd_map VNum (rd_u16 c))
  | OGetU32 b => Some (b, fun c => rd_map VNum (rd_u32 c))
  | OGetU64 b => Some (b, fun c => rd_map VNum (rd_u64 c))
  | OGetString b => Some (b, fun c => rd_map VBytes (rd_string c))
  | OGetCstring b => Some (b, fun c => rd_map VBytes (rd_cstring c))
  | _ => None
  end.

(** The errors a writing call may return; nothing is written then. *)
Definition write_error (e : ssh_error) : Prop :=
  e = SSH_ERR_BUFFER_READ_ONLY \/ e = SSH_ERR_NO_BUFFER_SPACE \/ e = SSH_ERR_ALLOC_FAIL.

Inductive qstep : op -> gmap bufid bytes -> res value -> gmap bufid bytes -> Prop :=
| q_new m b : m !! b = None -> qstep ONew m (Ok (VBuf (Some b))) (<[b := []]> m)
| q_new_oom m : qstep ONew m (Ok (VBuf None)) m
| q_fromb m b c v : m !! b = Some v -> m !! c = None ->
    qstep (OFromb b) m (Ok (VBuf (Some c))) (<[c := v]> m)
| q_fromb_oom m b : qstep (OFromb b) m (Ok (VBuf None)) m
| q_free m b : qstep (OFree b) m (Ok VUnit) (delete b m)
| q_append m o b v w : appended o m = Some (b, w) -> m !! b = Some v ->
    qstep o m (Ok VUnit) (<[b := v ++ w]> m)
| q_append_err m o b w e : appended o m = Some (b, w) -> write_error e ->
    qstep o m (Err e) m
| q_read m o b f v a rest : reader o = Some (b, f) -> m !! b = Some v ->
    f v = Ok (a, rest) -> qstep o m (Ok a) (<[b := rest]> m)
| q_read_err m o b f v e : reader o = Some (b, f) -> m !! b = Some v ->
    f v = Err e -> qstep o m (Err e) m
| q_read_oom m o b f v a rest : reader o = Some (b, f) -> m !! b = Some v ->
    f v = Ok (a, rest) -> qstep o m (Err SSH_ERR_ALLOC_FAIL) (<[b := rest]> m).

(** ** Legal calls *)

(** What the C interface leaves to the caller: only buffers it holds; lengths are
    [size_t]; a buffer is not appended to itself; [sshbuf_fromb] does not exceed the
    reference count. *)
Definition legal (o : op) (held : gset bufid) (h : heap) : bool :=
  let has b := bool_decide (b ∈ held) in
  let size_t n := (0 <=? n) && (n <? 2 ^ 64) in
  match o with
  | ONew => true
  | OFromb b => has b &&
      match bufs h !! b with
      | Some s => refcount s <? SSHBUF_REFS_MAX
      | None => false
      end
  | OPut b v => has b && (zlen v <? 2 ^ 64)
  | OPutb b v => has b && has v && negb (bool_decide (v = b))
  | OPutString b v => has b && (zlen v <? 2 ^ 64)
  | OConsume b n | OConsumeEnd b n | OGet b n => has b && size_t n
  | OFree b | OPutU8 b _ | OPutU16 b _ | OPutU32 b _ | OPutU64 b _
  | OGetU8 b | OGetU16 b | OGetU32 b | OGetU64 b | OGetString b | OGetCstring b => has b
  end.

(** The handles held after a call. *)
Definition held_after (o : op) (r : res value) (held : gset bufid) : gset bufid :=
  match o, r with
  | OFree b, _ => held ∖ {[b]}
  | _, Ok (VBuf (Some b)) => {[b]} ∪ held
  | _, _ => held
  end.

(** A script, skipping the calls that are not legal; [None] when one crashes. *)
Fixpoint run (os : list op) (held : gset bufid) (h : heap)
  : option (list (op * res value) * gset bufid * heap) :=
  match os with
  | [] => Some ([], held, h)
  | o :: os =>
    if legal o held h then
      let continue r h' :=
        match run os (held_after o r held) h' with
        | Some (tr, held', h'') => Some ((o, r) :: tr, held', h'')
        | None => None
        end in
      match exec o h with
      | Ret a h' => continue (Ok a) h'
      | Fail e h' => continue (Err e) h'
      | Crash => None
      end
    else run os held h
  end.

Definition empty_heap (fs : list bool) (page : Z) : heap := mk_heap ∅ ∅ 1 fs page.

(** ** The simulation *)

Definition own_of (held : gset bufid) (b : bufid) : Z := if decide (b ∈ held) then 1 else 0.

Record sim (m : gmap bufid bytes) (h : heap) : Prop := {
  sim_wf : wf (own_of (dom m)) ∅ h;
  sim_bytes : forall b v, m !! b = Some v -> v = contents h b
}.

Lemma own_of_in held b : b ∈ held -> own_of held b = 1.
Proof. intros. unfold own_of. by rewrite decide_True. Qed.

Lemma own_of_out held b : b ∉ held -> own_of held b = 0.
Proof. intros. unfold own_of. by rewrite decide_False. Qed.

Lemma own_of_add held b x : b ∉ held ->
  refs_upd b 1 (own_of held) x = own_of ({[b]} ∪ held) x.
Proof.
  intros N. unfold refs_upd, own_of. case_decide; subst.
  - rewrite (decide_False (P := b ∈ held)) by done. rewrite decide_True by set_solver. lia.
  - destruct (decide (x ∈ held)) as [H'|H'].
    + rewrite decide_True by set_solver. lia.
    + rewrite decide_False by set_solver. lia.
Qed.

Lemma own_of_remove held b x : b ∈ held ->
  refs_upd b (-1) (own_of held) x = own_of (held ∖ {[b]}) x.
Proof.
  intros N. unfold refs_upd, own_of. case_decide; subst.
  - rewrite decide_True by done. rewrite decide_False by set_solver. lia.
  - destruct (decide (x ∈ held)) as [H'|H'].
    + rewrite decide_True by set_solver. lia.
    + rewrite decide_False by set_solver. lia.
Qed.

Lemma wp_as_value {A} (f : A -> value) (m : M A) h Q :
  wp m h (fun r h' => Q match r with Ok a => Ok (f a) | Err e => Err e end h') ->
  wp (as_value f m) h Q.
Proof. unfold wp, as_value, mbind. by destruct (m h). Qed.

Lemma consume_reads own ext h b n : wf own ext h -> is_Some (bufs h !! b) ->
  0 <= n < 2 ^ 64 ->
  wp (sshbuf_consume b n) h (reads own ext b (rd_skip n) h).
Proof.
  intros W [s Hb] Hn. eapply wp_mono; [by apply (consume_spec own ext h b s n)|].
  intros r h' (W' & F & Em & _ & Hr). unfold reads, rd_skip, rd. destruct r as [[]|e].
  - destruct Hr as [Hl Hc]. destruct (Z.ltb_spec (zlen (contents h b)) n); [lia|].
    by split_and!.
  - destruct Hr as (-> & -> & Hl). destruct (Z.ltb_spec (zlen (contents h b)) n); [|lia].
    by split_and!.
Qed.

Lemma consume_end_reads own ext h b n : wf own ext h -> is_Some (bufs h !! b) ->
  0 <= n < 2 ^ 64 ->
  wp (sshbuf_consume_end b n) h
    (reads own ext b (rd_tail n) h).
Proof.
  intros W [s Hb] Hn. eapply wp_mono; [by apply (consume_end_spec own ext h b s n)|].
  intros r h' (W' & F & Em & _ & Hr). unfold reads, rd_tail. destruct r as [[]|e].
  - destruct Hr as [Hl Hc]. destruct (Z.ltb_spec (zlen (contents h b)) n); [lia|].
    by split_and!.
  - destruct Hr as (-> & -> & Hl). destruct (Z.ltb_spec (zlen (contents h b)) n); [|lia].
    by split_and!.
Qed.

(** A string too long to be put: the error, before anything is done. *)
Lemma put_string_too_long own ext h b v : wf own ext h -> is_Some (bufs h !! b) ->
  SSHBUF_SIZE_MAX - 4 < zlen v ->
  wp (sshbuf_put_string b (Outside v)) h
    (fun r h' => r = Err SSH_ERR_NO_BUFFER_SPACE /\ h' = h).
Proof.
  intros W _ Hv. unfold sshbuf_put_string, src_len. rewrite Z.gtb_ltb.
  by destruct (Z.ltb_spec (SSHBUF_SIZE_MAX - 4) (zlen v)); [|lia].
Qed.

Section sim.
Context (m : gmap bufid bytes) (h : heap) (S : sim m h).

Lemma sim_live b : b ∈ dom m -> is_Some (bufs h !! b).
Proof. intros H. apply (wf_own _ _ _ (sim_wf _ _ S)). by rewrite own_of_in. Qed.

Lemma sim_lookup b : b ∈ dom m -> m !! b = Some (contents h b).
Proof.
    intros [v Hv]%elem_of_dom. rewrite Hv. f_equal. by apply (sim_bytes _ _ S).
Qed.

  (** A call that changes [b] only. *)
Lemma sim_frame b h' : b ∈ dom m -> wf (own_of (dom m)) ∅ h' -> frame ∅ b h h' ->
    sim (<[b := contents h' b]> m) h'.
Proof.
    intros Hb W F. constructor.
    - eapply wf_own_eq; [|done]. intros x. by rewrite dom_insert_lookup_L
        by (by apply elem_of_dom).
    - intros x v [[<- <-]|[N Hx]]%lookup_insert_Some; [done|].
      rewrite (fr_contents _ _ _ _ F) by done. by apply (sim_bytes _ _ S).
Qed.

  (** A call that changes no bytes. *)
Lemma sim_same b h' : b ∈ dom m -> wf (own_of (dom m)) ∅ h' -> frame ∅ b h h' ->
    contents h' b = contents h b -> sim m h'.
Proof.
    intros Hb W F E. rewrite <- (insert_id m b (contents h' b)).
    - by apply sim_frame.
    - by rewrite E, sim_lookup.
Qed.

  (** A call that adds the buffer [c]. *)
Lemma sim_add c v h' : bufs h !! c = None -> wf (refs_upd c 1 (own_of (dom m))) ∅ h' ->
    others_kept c h h' -> contents h' c = v -> m !! c = None /\ sim (<[c := v]> m) h'.
Proof.
    intros Hc W K E.
    assert (N : c ∉ dom m) by (intros H; destruct (sim_live c H); congruence).
    split; [by apply not_elem_of_dom|]. constructor.
    - eapply wf_own_eq; [|done]. intros x. by rewrite own_of_add, dom_insert_L.
    - intros x w [[<- <-]|[Nx Hx]]%lookup_insert_Some; [done|].
      destruct (K x) as [-> _]; [done|]. by apply (sim_bytes _ _ S).
Qed.

Lemma sim_bufs_mem h' : wf (own_of (dom m)) ∅ h' -> bufs h' = bufs h -> mem h' = mem h ->
    sim m h'.
Proof.
    intros W Eb Em. constructor; [done|]. intros x v Hx. rewrite (sim_bytes _ _ S x v Hx).
    unfold contents, view. by rewrite Eb, Em.
Qed.

  (** Only [ONew], [OFromb] and [OFree] change what is held. *)
Lemma held_after_io o r : is_Some (appended o m) \/ is_Some (reader o) ->
    (forall c, r <> Ok (VBuf c)) -> held_after o r (dom m) = dom m.
Proof.
    intros H N. destruct o; try (by destruct H as [[]|[]]);
      by destruct r as [[| [b'|] | |]|]; try done; destruct (N (Some b')).
Qed.

  (** What a call must establish. *)
Definition simulated (o : op) (r : res value) (h' : heap) : Prop :=
    exists m', qstep o m r m' /\ sim m' h' /\ dom m' = held_after o r (dom m).

Lemma reserve_error_write s n len e : reserve_error s n len e -> write_error e.
Proof. unfold write_error. intros [[-> _]|[-> _]]; eauto. Qed.

Lemma appended_sim o b w (mw : M unit) : appended o m = Some (b, w) -> b ∈ dom m ->
    wp mw h (appends (own_of (dom m)) ∅ b w h) ->
    wp (as_value unit_value mw) h (simulated o).
Proof.
    intros Ha Hb Hw. apply wp_as_value. eapply wp_mono; [done|].
    intros r h' (W & F & Hr). destruct r as [[]|e].
    - exists (<[b := contents h b ++ w]> m). split_and!.
      + by apply (q_append _ _ b (contents h b)), sim_lookup.
      + rewrite <- Hr. by apply sim_frame.
      + rewrite dom_insert_L, (held_after_io o); [set_solver| |done].
        left. by rewrite Ha.
    - destruct Hr as [Hc (s & _ & Hr)]. exists m.
      split_and!; [|by apply (sim_same b)|symmetry; apply held_after_io; [|done]].
      2:{ left. by rewrite Ha. }
      eapply q_append_err; [done|]. destruct Hr as [Hr|[-> _]].
      + by eapply reserve_error_write.
      + unfold write_error. eauto.
Qed.

Lemma reader_sim {A} o b (f : bytes -> res (A * bytes)) (g : A -> value) (mr : M A) :
    reader o = Some (b, fun c => rd_map g (f c)) -> b ∈ dom m ->
    (forall a c, g a <> VBuf c) ->
    wp mr h (reads (own_of (dom m)) ∅ b f h) -> wp (as_value g mr) h (simulated o).
Proof.
    intros Ho Hb Hg Hr. apply wp_as_value. eapply wp_mono; [done|].
    intros r h' (W & F & _ & Hf).
    assert (Hh : forall r, (forall c, r <> Ok (VBuf c)) -> held_after o r (dom m) = dom m)
      by (intros; apply held_after_io; [right; by rewrite Ho|done]).
    assert (Hd : forall v, dom (<[b := v]> m) = dom m)
      by (intros; rewrite dom_insert_L; set_solver).
    destruct (f (contents h b)) as [[a rest]|e] eqn:E; destruct r as [a'|e']; try done.
    - destruct Hf as [-> <-]. exists (<[b := contents h' b]> m). split_and!.
      + eapply q_read; [done|by apply sim_lookup|].
        cbv beta. by rewrite E.
      + by apply sim_frame.
      + rewrite Hd, Hh; [done|]. intros c [=]. by eapply Hg.
    - destruct Hf as (-> & <- & _). exists (<[b := contents h' b]> m). split_and!.
      + eapply q_read_oom; [done|by apply sim_lookup|].
        cbv beta. by rewrite E.
      + by apply sim_frame.
      + by rewrite Hd, Hh.
    - destruct Hf as (-> & ->). exists m. split_and!; [|done|by rewrite Hh].
      eapply q_read_err; [done|by apply sim_lookup|].
        cbv beta. by rewrite E.
Qed.
End sim.

(** ** One call *)

Lemma exec_new_sim m h : sim m h -> wp (exec ONew) h (simulated m ONew).
Proof.
  intros S. apply wp_as_value. eapply wp_mono; [apply sshbuf_new_spec, (sim_wf _ _ S)|].
  intros r h' Hr. destruct r as [[b|]|e]; [| |done].
  - destruct Hr as (W & Hb & _ & Hc & K).
    destruct (sim_add m h S b [] h') as [N S']; try done.
    exists (<[b := []]> m). split_and!; [by constructor|done|]. by rewrite dom_insert_L.
  - destruct Hr as (W & Eb & Em). exists m. split_and!; [constructor| |done].
    by apply (sim_bufs_mem m h S).
Qed.

Lemma exec_fromb_sim m h b s : sim m h -> b ∈ dom m -> bufs h !! b = Some s ->
  refcount s < SSHBUF_REFS_MAX -> wp (exec (OFromb b)) h (simulated m (OFromb b)).
Proof.
  intros S Hb Hs Hr. apply wp_as_value.
  eapply wp_mono; [by apply (sshbuf_fromb_spec _ _ h b s (sim_wf _ _ S))|].
  clear Hr. intros r h' Hr. destruct r as [[c|]|e]; [| |done].
  - destruct Hr as (W & Hc & _ & Hv & K).
    destruct (sim_add m h S c (contents h b) h') as [N S']; try done.
    exists (<[c := contents h b]> m). split_and!; [|done|by rewrite dom_insert_L].
    apply q_fromb; [by apply sim_lookup|done].
  - destruct Hr as (W & Eb & Em). exists m. split_and!; [constructor| |done].
    by apply (sim_bufs_mem m h S).
Qed.

Lemma exec_free_sim m h b : sim m h -> b ∈ dom m ->
  wp (exec (OFree b)) h (simulated m (OFree b)).
Proof.
  intros S Hb. apply wp_as_value.
  eapply wp_mono; [apply (sshbuf_free_spec _ _ h b (sim_wf _ _ S)); by rewrite own_of_in|].
  intros r h' (-> & W & K). exists (delete b m).
  assert (W' : wf (own_of (dom (delete b m))) ∅ h').
  { eapply wf_own_eq; [|done]. intros x. by rewrite own_of_remove, dom_delete_L. }
  split_and!; [constructor| |by rewrite dom_delete_L].
  constructor; [done|]. intros x v Hx. assert (Hd : x ∈ dom (delete b m)) by by apply elem_of_dom.
  rewrite (shrunk_contents _ _ h h' x W' K).
  - apply lookup_delete_Some in Hx as [_ Hx]. by apply (sim_bytes _ _ S).
  - apply (wf_own _ _ _ W'). by rewrite own_of_in.
Qed.

Ltac legal_facts :=
  rewrite ?andb_true_iff, ?bool_decide_eq_true, ?negb_true_iff, ?bool_decide_eq_false,
    ?Z.ltb_lt, ?Z.leb_le in *; destruct_and?.

Lemma exec_sim m h o : sim m h -> legal o (dom m) h = true ->
  wp (exec o) h (simulated m o).
Proof.
  intros S L. pose proof (sim_wf _ _ S) as W.
  assert (Hown : forall b, b ∈ dom m -> 1 <= own_of (dom m) b)
    by (intros; by rewrite own_of_in).
  pose proof (sim_live m h S) as Hlive.
  destruct o; cbn [legal] in L; cbv zeta in L; legal_facts; try done.
  - by apply exec_new_sim.
  - destruct (bufs h !! b) as [s|] eqn:Hs; [|done]. legal_facts.
    by apply (exec_fromb_sim m h b s).
  - by apply exec_free_sim.
  - apply (appended_sim m h S _ b v); try done. apply put_spec; auto using source_outside.
  - apply (appended_sim m h S _ b (contents h v)); try done.
    { cbn. by rewrite (sim_lookup m h S v). }
    apply putb_spec; auto with lia.
  - apply (appended_sim m h S _ b [byte_of_Z n]); try done. by apply put_u8_spec; auto.
  - apply (appended_sim m h S _ b (POKE_U16 n)); try done. by apply put_u16_spec; auto.
  - apply (appended_sim m h S _ b (POKE_U32 n)); try done. by apply put_u32_spec; auto.
  - apply (appended_sim m h S _ b (POKE_U64 n)); try done. by apply put_u64_spec; auto.
  - destruct (Z.le_gt_cases (zlen v) (SSHBUF_SIZE_MAX - 4)) as [Hv|Hv].
    + apply (appended_sim m h S _ b (wr_string v)); try done.
      apply put_string_spec; auto using source_outside.
    + apply wp_as_value. eapply wp_mono; [apply (put_string_too_long _ _ h b v W); auto|].
      intros r h' [-> ->]. exists m. split_and!; try done.
      eapply q_append_err; [done|]. unfold write_error. eauto.
  - eapply (reader_sim m h S (OConsume b n) b); try done.
    apply consume_reads; auto; lia.
  - eapply (reader_sim m h S (OConsumeEnd b n) b); try done.
    apply consume_end_reads; auto; lia.
  - eapply (reader_sim m h S (OGet b n) b); try done.
    apply sshbuf_get_spec; auto; lia.
  - eapply (reader_sim m h S (OGetU8 b) b); try done.
    apply get_u8_spec; auto; lia.
  - eapply (reader_sim m h S (OGetU16 b) b); try done.
    apply get_u16_spec; auto; lia.
  - eapply (reader_sim m h S (OGetU32 b) b); try done.
    apply get_u32_spec; auto; lia.
  - eapply (reader_sim m h S (OGetU64 b) b); try done.
    apply get_u64_spec; auto; lia.
  - eapply (reader_sim m h S (OGetString b) b); try done.
    apply get_string_spec; auto; lia.
  - eapply (reader_sim m h S (OGetCstring b) b); try done.
    apply get_cstring_spec; auto; lia.
Qed.

(** ** Scripts *)

(** The abstract machine along a trace. *)
Fixpoint qsteps (tr : list (op * res value)) (m m' : gmap bufid bytes) : Prop :=
  match tr with
  | [] => m' = m
  | (o, r) :: tr => exists m1, qstep o m r m1 /\ qsteps tr m1 m'
  end.

Lemma run_sim os : forall m h, sim m h -> exists tr m' h',
  run os (dom m) h = Some (tr, dom m', h') /\ qsteps tr m m' /\ sim m' h'.
Proof.
  induction os as [|o os IH]; intros m h S; cbn [run].
  { exists [], m, h. by split_and!. }
  destruct (legal o (dom m) h) eqn:L; [|by apply IH].
  pose proof (exec_sim m h o S L) as E. unfold wp in E.
  assert (Hk : forall r h1, simulated m o r h1 -> exists tr m' h',
    match run os (held_after o r (dom m)) h1 with
    | Some (tr, held', h'') => Some ((o, r) :: tr, held', h'')
    | None => None
    end = Some (tr, dom m', h') /\ qsteps tr m m' /\ sim m' h').
  { intros r h1 (m1 & Q & S1 & <-). destruct (IH m1 h1 S1) as (tr & m' & h' & -> & Qs & S').
    exists ((o, r) :: tr), m', h'. split_and!; try done. by exists m1. }
  destruct (exec o h); [by apply Hk..|done].
Qed.

Lemma sim_empty fs page : 0 <= page -> sim ∅ (empty_heap fs page).
Proof.
  intros. constructor; [|by intros]. constructor; cbn; try done.
Qed.

(** When nothing is held any more, nothing is left: the buffer with the largest
    identifier would have no child. *)
Lemma wf_nothing_held ext h : wf (own_of ∅) ext h -> bufs h = ∅.
Proof.
  intros W.
  assert (H : forall n b, (Pos.to_nat (next_id h) - Pos.to_nat b <= n)%nat ->
    bufs h !! b = None).
  { induction n as [|n IH]; intros b Hn; destruct (bufs h !! b) as [s|] eqn:Hb; try done;
      pose proof (wf_next_buf _ _ _ W b s Hb); [lia|].
    assert (children h b = ∅) as E.
    { apply leibniz_equiv, elem_of_equiv_empty. intros c (t & Hc & Hp)%elem_of_children.
      destruct (parent_live _ ext h c t b W Hc Hp) as [Hlt _].
      rewrite (IH c ltac:(lia)) in Hc. done. }
    pose proof (wf_refs _ _ _ W b s Hb) as R. rewrite E, size_empty, own_of_out in R by set_solver.
    pose proof (wf_bounds _ ext h b s W Hb) as B. unfold bounds in B. cbn in R. lia. }
  apply map_eq. intros b. rewrite lookup_empty. by eapply H.
Qed.

(** ** Theorems *)

(** Claim C1.  Whatever sequence of legal calls a client makes on the buffers it holds,
    and whichever allocations fail, no call crashes: no access outside a live block, no
    use of a released buffer, no double free, no failed sanity check.  Every return
    value and the bytes of every held buffer are those of the abstract machine in which
    buffers are independent byte queues. *)
Theorem client_refines_queues os fs page (Hpage : 0 <= page) :
  exists tr m h, run os ∅ (empty_heap fs page) = Some (tr, dom m, h) /\
    qsteps tr ∅ m /\ (forall b, b ∈ dom m -> m !! b = Some (contents h b)).
Proof.
  destruct (run_sim os ∅ _ (sim_empty fs page Hpage)) as (tr & m & h & E & Q & S).
  exists tr, m, h. rewrite dom_empty_L in E. split_and!; try done.
  by apply sim_lookup.
Qed.

(** Claim C11.  When a script has freed every buffer it created, no buffer object is
    left: reference counts never keep a parent alive after its last child. *)
Theorem client_frees_everything os fs page tr h (Hpage : 0 <= page) :
  run os ∅ (empty_heap fs page) = Some (tr, ∅, h) -> bufs h = ∅.
Proof.
  intros E. destruct (run_sim os ∅ _ (sim_empty fs page Hpage)) as (tr' & m & h' & E' & Q & S).
  rewrite dom_empty_L in E'. rewrite E in E'. injection E' as -> Hd ->.
  apply (wf_nothing_held ∅). pose proof (sim_wf _ _ S) as W. by rewrite <- Hd in W.
Qed.

(** A parent with two children, freed in the order parent, child, child. *)
Definition sharing_script : list op :=
  [ONew; OPutU32 2 258; OPutString 2 (lit "abc"); OFromb 2; OFromb 3; OFree 2; OGetU32 4;
   OFree 3; OGetString 4; OFree 4].

Lemma client_refines_queues_witness : 0 <= 4096 /\
  exists tr m h, run sharing_script ∅ (empty_heap [] 4096) = Some (tr, dom m, h) /\
    qsteps tr ∅ m /\ (forall b, b ∈ dom m -> m !! b = Some (contents h b)).
Proof. split; [lia|]. apply (client_refines_queues sharing_script [] 4096). lia. Defined.

Lemma client_frees_everything_witness :
  match run sharing_script ∅ (empty_heap [] 4096) with
  | Some (_, _, h) => bufs h = ∅
  | None => False
  end.
Proof.
  assert (E : exists tr h, run sharing_script ∅ (empty_heap [] 4096) = Some (tr, ∅, h))
    by (eexists _, _; vm_compute; reflexivity).
  destruct E as (tr & h & E). rewrite E.
  apply (client_frees_everything sharing_script [] 4096 tr h); [lia|exact E].
Defined.
