(* ===== verification/SshBufThms.v ===== *)
(** What callers of one operation rely on: appending, reading back, and the calls whose
    result is not a legal store. *)

From S2P Require Import Prelude SshErr Wire SshQueue SshBuf SshBufGetPut SshBufInv SshBufSpec.
From S2P Require Import SshBufIO SshBufLife SshBufFree SshBufClient.

(** A concrete store for the examples: one new buffer, number 2, on page size 4096. *)
Definition one_buffer : heap :=
  match sshbuf_new (empty_heap [] 4096) with Ret _ h => h | _ => empty_heap [] 4096 end.

Definition own2 (b : bufid) : Z := own_of {[2%positive]} b.

Lemma one_buffer_wf : wf own2 ∅ one_buffer.
Proof.
  pose proof (sshbuf_new_spec (own_of ∅) ∅ (empty_heap [] 4096)
    (sim_wf _ _ (sim_empty [] 4096 ltac:(lia)))) as S.
  assert (E : sshbuf_new (empty_heap [] 4096) = Ret (Some 2%positive) one_buffer)
    by reflexivity.
  unfold wp in S. rewrite E in S. destruct S as [W _].
  eapply wf_own_eq; [|exact W]. intros x. rewrite own_of_add by set_solver.
  done.
Qed.

Lemma one_buffer_own : 1 <= own2 2.
Proof. vm_compute. discriminate. Qed.

(** In a well-formed store, [sshbuf_put] appends exactly the given bytes to the
    buffer and nothing else changes for any other buffer or for caller memory; when it
    fails the contents are unchanged, and it fails only because the buffer is shared or
    read-only, because the limit would be exceeded, or because [malloc] failed. *)
Theorem sshbuf_put_appends own ext h b v s (W : wf own ext h) (Ho : 1 <= own b)
    (Hs : bufs h !! b = Some s) (Hv : zlen v < 2 ^ 64) :
  match sshbuf_put b (Outside v) h with
  | Ret _ h' => wf own ext h' /\ contents h' b = contents h b ++ v /\
      (forall x, x <> b -> bufs h' !! x = bufs h !! x /\ contents h' x = contents h x) /\
      (forall k, k ∈ ext -> mem h' !! k = mem h !! k)
  | Fail e h' => wf own ext h' /\ contents h' b = contents h b /\
      (e = SSH_ERR_BUFFER_READ_ONLY /\ (readonly s = true \/ 1 < refcount s) \/
       e = SSH_ERR_NO_BUFFER_SPACE /\ max_size s < zlen (contents h b) + zlen v \/
       e = SSH_ERR_ALLOC_FAIL /\ head (oom h) = Some true)
  | Crash => False
  end.
Proof.
  pose proof (put_spec own ext b (Outside v) v h W Ho Hv (source_outside b h v)) as P.
  unfold wp in P. destruct (sshbuf_put b (Outside v) h) as [[] h'|e h'|]; [| |done].
  - destruct P as (W' & F & Hc). split_and!; try done; [|apply F].
    intros x Hx. split; [by apply F|by apply F].
  - destruct P as (W' & F & Hc & t & Ht & He). split_and!; try done.
    assert (t = s) as -> by congruence.
    destruct He as [[[-> ?]|(-> & _ & _ & ?)]|[-> [fs ->]]]; eauto.
Qed.

Lemma sshbuf_put_appends_witness :
  match sshbuf_put 2 (Outside (lit "ssh-2.0")) one_buffer with
  | Ret _ h' => contents h' 2 = lit "ssh-2.0"
  | _ => False
  end.
Proof.
  assert (Hs : exists s, bufs one_buffer !! 2%positive = Some s)
    by (eexists; vm_compute; reflexivity).
  destruct Hs as [s Hs].
  pose proof (sshbuf_put_appends own2 ∅ one_buffer 2 (lit "ssh-2.0") s one_buffer_wf
    one_buffer_own Hs ltac:(vm_compute; reflexivity)) as P.
  vm_compute in P |- *. apply P.
Defined.

(** A string put into an empty buffer comes back: [sshbuf_get_string] returns
    the very bytes and leaves the buffer empty, unless the put itself was refused or the
    copy could not be allocated. *)
Theorem put_string_get_string own ext h b v (W : wf own ext h) (Ho : 1 <= own b)
    (Hv : zlen v <= SSHBUF_SIZE_MAX - 4) (Hc : contents h b = []) :
  match (let! _u := sshbuf_put_string b (Outside v) in sshbuf_get_string b) h with
  | Ret w h' => w = v /\ contents h' b = [] /\ wf own ext h'
  | Fail e h' => wf own ext h' /\ write_error e
  | Crash => False
  end.
Proof.
  pose proof (put_string_spec own ext b (Outside v) v h W Ho Hv (source_outside b h v)) as P.
  unfold wp, mbind in *. destruct (sshbuf_put_string b (Outside v) h) as [[] h1|e h1|];
    [| |done].
  - destruct P as (W1 & F1 & C1). rewrite Hc in C1. cbn [app] in C1.
    assert (L : is_Some (bufs h1 !! b)) by (apply (wf_own _ _ _ W1); lia).
    pose proof (get_string_spec own ext b h1 W1 L) as G. unfold wp, reads in G.
    rewrite C1 in G. rewrite <- (app_nil_r (wr_string v)), rd_string_app in G by done.
    destruct (sshbuf_get_string b h1) as [w h2|e h2|]; [| |done].
    + by destruct G as (W2 & _ & _ & -> & ?).
    + destruct G as (W2 & _ & _ & -> & _). split; [done|]. unfold write_error. eauto.
  - destruct P as (W1 & _ & _ & t & _ & He). split; [done|].
    destruct He as [He|[-> _]]; [by eapply reserve_error_write|].
    unfold write_error. eauto.
Qed.

Lemma put_string_get_string_witness :
  match (let! _u := sshbuf_put_string 2 (Outside (lit "rsa")) in sshbuf_get_string 2)
          one_buffer with
  | Ret w h' => w = lit "rsa" /\ contents h' 2 = []
  | _ => False
  end.
Proof.
  pose proof (put_string_get_string own2 ∅ one_buffer 2 (lit "rsa") one_buffer_wf
    one_buffer_own ltac:(vm_compute; discriminate) ltac:(reflexivity)) as P.
  destruct ((let! _u := sshbuf_put_string 2 (Outside (lit "rsa")) in sshbuf_get_string 2)
    one_buffer) eqn:E; vm_compute in E; try discriminate E.
  by destruct P as (-> & -> & _).
Defined.

(** ** Calls that leave the invariant *)

(** Set the limit to 100 bytes, reset, and ask for the length. *)
Definition limit_then_reset (limit : Z) : M Z :=
  let! b := sshbuf_new in
  match b with
  | None => mret 0
  | Some b => sshbuf_set_max_size b limit ;; sshbuf_reset b ;; sshbuf_len b
  end.

(** [sshbuf_reset] reallocates to 256 bytes without regard to [max_size]:
    after [sshbuf_set_max_size] with a limit of 100, a reset makes the next use of the
    buffer fail its sanity check and the process dies; with a limit of 256 it lives. *)
Lemma reset_ignores_max_size :
  limit_then_reset 100 (empty_heap [] 4096) = Crash /\
  (exists h, limit_then_reset 256 (empty_heap [] 4096) = Ret 0 h).
Proof. split; [by vm_compute|]. eexists. by vm_compute. Qed.

(** Put [v] in a new buffer and append the buffer to itself. *)
Definition append_to_itself (v : bytes) : M unit :=
  let! b := sshbuf_new in
  match b with
  | None => mret tt
  | Some b => sshbuf_put b (Outside v) ;; sshbuf_putb b (Some b)
  end.

(** [sshbuf_putb] with the same buffer twice reads the source after the
    reservation may have moved it: harmless while the contents fit in the allocation, a
    read of freed memory when they do not. *)
Lemma putb_of_itself :
  (exists h, append_to_itself (lit "abcd") (empty_heap [] 4096) = Ret tt h /\
     contents h 2 = lit "abcdabcd") /\
  append_to_itself (zeros 200) (empty_heap [] 4096) = Crash.
Proof. split; [eexists; split; by vm_compute|by vm_compute]. Qed.
