(* ===== verification/Channel.v ===== *)
(** Channels: the close handshake of nchan.c and the data path of channels.c.

    A [Channel] is the C structure without its callbacks; its three buffers are byte
    queues (SshQueue).  A handler is a computation over one channel that may end the
    process ([fatal], [ssh_packet_disconnect]) and that emits events: the packets it
    sends, the system calls it makes on descriptors, the errors it logs.  What the
    kernel answers is an argument of the handler. *)

From Stdlib Require Import Strings.String.
From S2P Require Import Prelude SshErr Wire SshQueue.

(** ** Constants of channels.h *)

Definition SSH_CHANNEL_OPENING : Z := 3.
Definition SSH_CHANNEL_OPEN : Z := 4.
Definition SSH_CHANNEL_X11_OPEN : Z := 7.
Definition SSH_CHANNEL_LARVAL : Z := 10.
Definition SSH_CHANNEL_CONNECTING : Z := 12.
Definition SSH_CHANNEL_DYNAMIC : Z := 13.
Definition SSH_CHANNEL_ZOMBIE : Z := 14.
Definition SSH_CHANNEL_ABANDONED : Z := 17.
Definition SSH_CHANNEL_MUX_PROXY : Z := 20.
Definition SSH_CHANNEL_RDYNAMIC_OPEN : Z := 21.
Definition SSH_CHANNEL_RDYNAMIC_FINISH : Z := 22.

Definition CHAN_INPUT_OPEN : Z := 0.
Definition CHAN_INPUT_WAIT_DRAIN : Z := 1.
Definition CHAN_INPUT_WAIT_OCLOSE : Z := 2.
Definition CHAN_INPUT_CLOSED : Z := 3.

Definition CHAN_OUTPUT_OPEN : Z := 0.
Definition CHAN_OUTPUT_WAIT_DRAIN : Z := 1.
Definition CHAN_OUTPUT_WAIT_IEOF : Z := 2.
Definition CHAN_OUTPUT_CLOSED : Z := 3.

Definition CHAN_CLOSE_SENT : Z := 0x01.
Definition CHAN_CLOSE_RCVD : Z := 0x02.
Definition CHAN_EOF_SENT : Z := 0x04.
Definition CHAN_EOF_RCVD : Z := 0x08.
Definition CHAN_LOCAL : Z := 0x10.

Definition CHAN_EXTENDED_IGNORE : Z := 0.
Definition CHAN_EXTENDED_READ : Z := 1.
Definition CHAN_EXTENDED_WRITE : Z := 2.

Definition CHANNEL_RESTORE_RFD : Z := 0x01.
Definition CHANNEL_RESTORE_WFD : Z := 0x02.
Definition CHANNEL_RESTORE_EFD : Z := 0x04.

Definition CHAN_RBUF : Z := 16 * 1024.
Definition CHAN_INPUT_MAX : Z := 16 * 1024 * 1024.

Definition CHANNEL_NONBLOCK_LEAVE : Z := 0.
Definition CHANNEL_NONBLOCK_STDIO : Z := 2.

Definition SSH_BUG_EXTEOF : Z := 0x00200000.
Definition SSH_NEW_OPENSSH : Z := 0x04000000.
Definition SSH2_EXTENDED_DATA_STDERR : Z := 1.

(** ** State *)

Record Channel := mk_Channel {
  c_type : Z;
  remote_id : Z;
  have_remote_id : bool;
  istate : Z;
  ostate : Z;
  flags : Z;
  rfd : Z;
  wfd : Z;
  efd : Z;
  sock : Z;
  isatty : bool;
  force_drain : bool;
  restore_block : Z;
  input : bytes;
  output : bytes;
  extended : bytes;
  remote_window : Z;
  remote_maxpacket : Z;
  local_window : Z;
  local_window_max : Z;
  local_consumed : Z;
  local_maxpacket : Z;
  extended_usage : Z;
  ctype : string;
  detach_user : bool;
  detach_close : bool;
  datagram : bool;
  mux_ctx : bool
}.

Definition set_type (v : Z) (c : Channel) : Channel :=
  mk_Channel v (remote_id c) (have_remote_id c) (istate c) (ostate c) (flags c) (rfd c)
    (wfd c) (efd c) (sock c) (isatty c) (force_drain c) (restore_block c) (input c)
    (output c) (extended c) (remote_window c) (remote_maxpacket c) (local_window c)
    (local_window_max c) (local_consumed c) (local_maxpacket c) (extended_usage c)
    (ctype c) (detach_user c) (detach_close c) (datagram c) (mux_ctx c).
Definition set_istate (v : Z) (c : Channel) : Channel :=
  mk_Channel (c_type c) (remote_id c) (have_remote_id c) v (ostate c) (flags c) (rfd c)
    (wfd c) (efd c) (sock c) (isatty c) (force_drain c) (restore_block c) (input c)
    (output c) (extended c) (remote_window c) (remote_maxpacket c) (local_window c)
    (local_window_max c) (local_consumed c) (local_maxpacket c) (extended_usage c)
    (ctype c) (detach_user c) (detach_close c) (datagram c) (mux_ctx c).
Definition set_ostate (v : Z) (c : Channel) : Channel :=
  mk_Channel (c_type c) (remote_id c) (have_remote_id c) (istate c) v (flags c) (rfd c)
    (wfd c) (efd c) (sock c) (isatty c) (force_drain c) (restore_block c) (input c)
    (output c) (extended c) (remote_window c) (remote_maxpacket c) (local_window c)
    (local_window_max c) (local_consumed c) (local_maxpacket c) (extended_usage c)
    (ctype c) (detach_user c) (detach_close c) (datagram c) (mux_ctx c).
Definition set_flags (v : Z) (c : Channel) : Channel :=
  mk_Channel (c_type c) (remote_id c) (have_remote_id c) (istate c) (ostate c) v (rfd c)
    (wfd c) (efd c) (sock c) (isatty c) (force_drain c) (restore_block c) (input c)
    (output c) (extended c) (remote_window c) (remote_maxpacket c) (local_window c)
    (local_window_max c) (local_consumed c) (local_maxpacket c) (extended_usage c)
    (ctype c) (detach_user c) (detach_close c) (datagram c) (mux_ctx c).
Definition set_rfd (v : Z) (c : Channel) : Channel :=
  mk_Channel (c_type c) (remote_id c) (have_remote_id c) (istate c) (ostate c) (flags c)
    v (wfd c) (efd c) (sock c) (isatty c) (force_drain c) (restore_block c) (input c)
    (output c) (extended c) (remote_window c) (remote_maxpacket c) (local_window c)
    (local_window_max c) (local_consumed c) (local_maxpacket c) (extended_usage c)
    (ctype c) (detach_user c) (detach_close c) (datagram c) (mux_ctx c).
Definition set_wfd (v : Z) (c : Channel) : Channel :=
  mk_Channel (c_type c) (remote_id c) (have_remote_id c) (istate c) (ostate c) (flags c)
    (rfd c) v (efd c) (sock c) (isatty c) (force_drain c) (restore_block c) (input c)
    (output c) (extended c) (remote_window c) (remote_maxpacket c) (local_window c)
    (local_window_max c) (local_consumed c) (local_maxpacket c) (extended_usage c)
    (ctype c) (detach_user c) (detach_close c) (datagram c) (mux_ctx c).
Definition set_efd (v : Z) (c : Channel) : Channel :=
  mk_Channel (c_type c) (remote_id c) (have_remote_id c) (istate c) (ostate c) (flags c)
    (rfd c) (wfd c) v (sock c) (isatty c) (force_drain c) (restore_block c) (input c)
    (output c) (extended c) (remote_window c) (remote_maxpacket c) (local_window c)
    (local_window_max c) (local_consumed c) (local_maxpacket c) (extended_usage c)
    (ctype c) (detach_user c) (detach_close c) (datagram c) (mux_ctx c).
Definition set_sock (v : Z) (c : Channel) : Channel :=
  mk_Channel (c_type c) (remote_id c) (have_remote_id c) (istate c) (ostate c) (flags c)
    (rfd c) (wfd c) (efd c) v (isatty c) (force_drain c) (restore_block c) (input c)
    (output c) (extended c) (remote_window c) (remote_maxpacket c) (local_window c)
    (local_window_max c) (local_consumed c) (local_maxpacket c) (extended_usage c)
    (ctype c) (detach_user c) (detach_close c) (datagram c) (mux_ctx c).
Definition set_input (v : bytes) (c : Channel) : Channel :=
  mk_Channel (c_type c) (remote_id c) (have_remote_id c) (istate c) (ostate c) (flags c)
    (rfd c) (wfd c) (efd c) (sock c) (isatty c) (force_drain c) (restore_block c) v
    (output c) (extended c) (remote_window c) (remote_maxpacket c) (local_window c)
    (local_window_max c) (local_consumed c) (local_maxpacket c) (extended_usage c)
    (ctype c) (detach_user c) (detach_close c) (datagram c) (mux_ctx c).
Definition set_output (v : bytes) (c : Channel) : Channel :=
  mk_Channel (c_type c) (remote_id c) (have_remote_id c) (istate c) (ostate c) (flags c)
    (rfd c) (wfd c) (efd c) (sock c) (isatty c) (force_drain c) (restore_block c)
    (input c) v (extended c) (remote_window c) (remote_maxpacket c) (local_window c)
    (local_window_max c) (local_consumed c) (local_maxpacket c) (extended_usage c)
    (ctype c) (detach_user c) (detach_close c) (datagram c) (mux_ctx c).
Definition set_extended (v : bytes) (c : Channel) : Channel :=
  mk_Channel (c_type c) (remote_id c) (have_remote_id c) (istate c) (ostate c) (flags c)
    (rfd c) (wfd c) (efd c) (sock c) (isatty c) (force_drain c) (restore_block c)
    (input c) (output c) v (remote_window c) (remote_maxpacket c) (local_window c)
    (local_window_max c) (local_consumed c) (local_maxpacket c) (extended_usage c)
    (ctype c) (detach_user c) (detach_close c) (datagram c) (mux_ctx c).
Definition set_remote_window (v : Z) (c : Channel) : Channel :=
  mk_Channel (c_type c) (remote_id c) (have_remote_id c) (istate c) (ostate c) (flags c)
    (rfd c) (wfd c) (efd c) (sock c) (isatty c) (force_drain c) (restore_block c)
    (input c) (output c) (extended c) v (remote_maxpacket c) (local_window c)
    (local_window_max c) (local_consumed c) (local_maxpacket c) (extended_usage c)
    (ctype c) (detach_user c) (detach_close c) (datagram c) (mux_ctx c).
Definition set_local_window (v : Z) (c : Channel) : Channel :=
  mk_Channel (c_type c) (remote_id c) (have_remote_id c) (istate c) (ostate c) (flags c)
    (rfd c) (wfd c) (efd c) (sock c) (isatty c) (force_drain c) (restore_block c)
    (input c) (output c) (extended c) (remote_window c) (remote_maxpacket c) v
    (local_window_max c) (local_consumed c) (local_maxpacket c) (extended_usage c)
    (ctype c) (detach_user c) (detach_close c) (datagram c) (mux_ctx c).
Definition set_local_consumed (v : Z) (c : Channel) : Channel :=
  mk_Channel (c_type c) (remote_id c) (have_remote_id c) (istate c) (ostate c) (flags c)
    (rfd c) (wfd c) (efd c) (sock c) (isatty c) (force_drain c) (restore_block c)
    (input c) (output c) (extended c) (remote_window c) (remote_maxpacket c)
    (local_window c) (local_window_max c) v (local_maxpacket c) (extended_usage c)
    (ctype c) (detach_user c) (detach_close c) (datagram c) (mux_ctx c).
Definition set_detach_user (v : bool) (c : Channel) : Channel :=
  mk_Channel (c_type c) (remote_id c) (have_remote_id c) (istate c) (ostate c) (flags c)
    (rfd c) (wfd c) (efd c) (sock c) (isatty c) (force_drain c) (restore_block c)
    (input c) (output c) (extended c) (remote_window c) (remote_maxpacket c)
    (local_window c) (local_window_max c) (local_consumed c) (local_maxpacket c)
    (extended_usage c) (ctype c) v (detach_close c) (datagram c) (mux_ctx c).
Definition set_restore_block (v : Z) (c : Channel) : Channel :=
  mk_Channel (c_type c) (remote_id c) (have_remote_id c) (istate c) (ostate c) (flags c)
    (rfd c) (wfd c) (efd c) (sock c) (isatty c) (force_drain c) v (input c) (output c)
    (extended c) (remote_window c) (remote_maxpacket c) (local_window c)
    (local_window_max c) (local_consumed c) (local_maxpacket c) (extended_usage c)
    (ctype c) (detach_user c) (detach_close c) (datagram c) (mux_ctx c).
Definition set_fds (r w e s usage : Z) (tty : bool) (restore : Z) (c : Channel) : Channel :=
  mk_Channel (c_type c) (remote_id c) (have_remote_id c) (istate c) (ostate c) (flags c)
    r w e s tty (force_drain c) restore (input c) (output c) (extended c)
    (remote_window c) (remote_maxpacket c) (local_window c) (local_window_max c)
    (local_consumed c) (local_maxpacket c) usage (ctype c) (detach_user c)
    (detach_close c) (datagram c) (mux_ctx c).
Definition set_windows (ty : string) (window window_max maxpack : Z) (c : Channel) : Channel :=
  mk_Channel (c_type c) (remote_id c) (have_remote_id c) (istate c) (ostate c) (flags c)
    (rfd c) (wfd c) (efd c) (sock c) (isatty c) (force_drain c) (restore_block c)
    (input c) (output c) (extended c) (remote_window c) (remote_maxpacket c) window
    window_max (local_consumed c) maxpack (extended_usage c) ty (detach_user c)
    (detach_close c) (datagram c) (mux_ctx c).
Definition set_remote (id window maxpacket : Z) (c : Channel) : Channel :=
  mk_Channel (c_type c) id true (istate c) (ostate c) (flags c) (rfd c) (wfd c) (efd c)
    (sock c) (isatty c) (force_drain c) (restore_block c) (input c) (output c)
    (extended c) window maxpacket (local_window c) (local_window_max c)
    (local_consumed c) (local_maxpacket c) (extended_usage c) (ctype c) (detach_user c)
    (detach_close c) (datagram c) (mux_ctx c).

(** ** Events *)

(** Packets about a channel, after the recipient's identifier. *)
Inductive msg :=
| MSG_CHANNEL_DATA (v : bytes)
| MSG_CHANNEL_EXTENDED_DATA (tcode : Z) (v : bytes)
| MSG_CHANNEL_WINDOW_ADJUST (n : Z)
| MSG_CHANNEL_EOF
| MSG_CHANNEL_CLOSE
| MSG_CHANNEL_EOW.         (* CHANNEL_REQUEST "eow@openssh.com" *)

Inductive event :=
| EvSend (remote : Z) (m : msg)
| EvIgnore (len : Z)       (* SSH2_MSG_IGNORE *)
| EvShutdownRead (fd : Z)
| EvShutdownWrite (fd : Z)
| EvRestoreBlock (fd : Z)
| EvCloexec (fd : Z)
| EvNonblock (fd : Z)
| EvClose (fd : Z)
| EvError (what : string)  (* error(): internal or protocol errors *)
| EvUpstream (m : msg)     (* passed on to the mux client *)
| EvUpstreamOpen           (* an open confirmation, likewise *)
| EvDetach                 (* the detach_user callback *)
| EvFree.                  (* channel_free *)

(** What read(2) and write(2) answer. *)
Inductive read_res := R_EINTR | R_EAGAIN | R_ERR | R_DATA (v : bytes).
Inductive write_res := W_EINTR | W_EAGAIN | W_ERR | W_OK (n : Z).

(** ** Handlers *)

Definition CM (A : Type) : Type := Channel -> option (A * Channel * list event).

#[export] Instance CM_ret : MRet CM := fun A a c => Some (a, c, []).
#[export] Instance CM_bind : MBind CM := fun A B f m c =>
  match m c with
  | None => None
  | Some (a, c1, e1) =>
    match f a c1 with
    | None => None
    | Some (b, c2, e2) => Some (b, c2, e1 ++ e2)
    end
  end.

Definition getc : CM Channel := fun c => Some (c, c, []).
Definition modify (f : Channel -> Channel) : CM unit := fun c => Some (tt, f c, []).
Definition emit (e : event) : CM unit := fun c => Some (tt, c, [e]).
(** [fatal] and [ssh_packet_disconnect]. *)
Definition fatal {A} : CM A := fun _ => None.
Definition whenb (b : bool) (m : CM unit) : CM unit := if b then m else mret tt.
Definition add_flag (f : Z) : CM unit := modify (fun c => set_flags (Z.lor (flags c) f) c).
Definition has_flag (c : Channel) (f : Z) : bool := negb (Z.land (flags c) f =? 0).

(** A packet to the peer; the channel must have a remote identifier. *)
Definition send (m : msg) : CM unit :=
  c ← getc;
  if negb (have_remote_id c) then fatal else emit (EvSend (remote_id c) m).

(** ** Descriptors *)

(** Which descriptor [channel_close_fd] is given. *)
Inductive fd_field := F_rfd | F_wfd | F_efd | F_sock.
Definition get_fd (f : fd_field) (c : Channel) : Z :=
  match f with F_rfd => rfd c | F_wfd => wfd c | F_efd => efd c | F_sock => sock c end.
Definition set_fd (f : fd_field) (v : Z) (c : Channel) : Channel :=
  match f with
  | F_rfd => set_rfd v c | F_wfd => set_wfd v c | F_efd => set_efd v c
  | F_sock => set_sock v c
  end.

Definition channel_close_fd (f : fd_field) : CM unit :=
  c ← getc;
  let fd := get_fd f c in
  let restores g mask := (fd =? g) && negb (Z.land (restore_block c) mask =? 0) in
  if fd =? -1 then mret tt
  else
    whenb (restores (rfd c) CHANNEL_RESTORE_RFD || restores (wfd c) CHANNEL_RESTORE_WFD ||
           restores (efd c) CHANNEL_RESTORE_EFD) (emit (EvRestoreBlock fd)) ;;
    emit (EvClose fd) ;;
    modify (set_fd f (-1)).

(** The descriptors of a new channel; [stdio fd]: [fd] is no terminal and
    [fcntl(fd, F_GETFL)] answers 0. *)
Definition channel_register_fds (stdio : Z -> bool) (rfd_ wfd_ efd_ extusage nonblock : Z)
    (is_tty : bool) : CM unit :=
  whenb (negb (rfd_ =? -1)) (emit (EvCloexec rfd_)) ;;
  whenb (negb (wfd_ =? -1) && negb (wfd_ =? rfd_)) (emit (EvCloexec wfd_)) ;;
  whenb (negb (efd_ =? -1) && negb (efd_ =? rfd_) && negb (efd_ =? wfd_))
    (emit (EvCloexec efd_)) ;;
  modify (fun c =>
    let sock := if rfd_ =? wfd_ then rfd_ else -1 in
    set_fds rfd_ wfd_ efd_ sock extusage is_tty 0 c) ;;
  let nb fd mask :=
    if nonblock =? CHANNEL_NONBLOCK_STDIO then
      whenb (negb (fd =? -1) && stdio fd)
        (modify (fun c => set_restore_block (Z.lor (restore_block c) mask) c) ;;
         emit (EvNonblock fd))
    else
      whenb (negb (nonblock =? CHANNEL_NONBLOCK_LEAVE) && negb (fd =? -1))
        (emit (EvNonblock fd)) in
  nb rfd_ CHANNEL_RESTORE_RFD ;; nb wfd_ CHANNEL_RESTORE_WFD ;; nb efd_ CHANNEL_RESTORE_EFD.

(** [xcalloc] of a channel. *)
Definition channel_zero : Channel :=
  mk_Channel 0 0 false 0 0 0 0 0 0 0 false false 0 [] [] [] 0 0 0 0 0 0 0 "" false false
    false false.

(** [channel_new] in the slot it found. *)
Definition channel_new (stdio : Z -> bool) (ctype_ : string)
    (type_ rfd_ wfd_ efd_ window maxpack extusage nonblock : Z) : CM unit :=
  modify (fun _ => channel_zero) ;;
  modify (set_ostate CHAN_OUTPUT_OPEN) ;;
  modify (set_istate CHAN_INPUT_OPEN) ;;
  channel_register_fds stdio rfd_ wfd_ efd_ extusage nonblock false ;;
  modify (fun c => set_windows ctype_ window window maxpack (set_type type_ c)).

(** ** nchan.c *)

Section nchan.
(** [ssh->compat]. *)
Context (compat : Z).

Definition chan_set_istate (next : Z) : CM unit :=
  c ← getc;
  if (istate c >? CHAN_INPUT_CLOSED) || (next >? CHAN_INPUT_CLOSED) then fatal
  else modify (set_istate next).

Definition chan_set_ostate (next : Z) : CM unit :=
  c ← getc;
  if (ostate c >? CHAN_OUTPUT_CLOSED) || (next >? CHAN_OUTPUT_CLOSED) then fatal
  else modify (set_ostate next).

Definition chan_shutdown_write : CM unit :=
  modify (set_output []) ;;
  c ← getc;
  if c_type c =? SSH_CHANNEL_LARVAL then mret tt
  else if negb (sock c =? -1) then emit (EvShutdownWrite (sock c))
  else channel_close_fd F_wfd.

Definition chan_shutdown_read : CM unit :=
  c ← getc;
  if c_type c =? SSH_CHANNEL_LARVAL then mret tt
  else if negb (sock c =? -1) then emit (EvShutdownRead (sock c))
  else channel_close_fd F_rfd.

Definition chan_shutdown_extended_read : CM unit :=
  c ← getc;
  if (c_type c =? SSH_CHANNEL_LARVAL) || (efd c =? -1) then mret tt
  else if negb (extended_usage c =? CHAN_EXTENDED_READ) &&
          negb (extended_usage c =? CHAN_EXTENDED_IGNORE) then mret tt
  else channel_close_fd F_efd.

Definition chan_send_eof2 : CM unit :=
  c ← getc;
  if istate c =? CHAN_INPUT_WAIT_DRAIN then
    send MSG_CHANNEL_EOF ;; add_flag CHAN_EOF_SENT
  else emit (EvError "cannot send eof for istate").

Definition chan_send_close2 : CM unit :=
  c ← getc;
  if negb (ostate c =? CHAN_OUTPUT_CLOSED) || negb (istate c =? CHAN_INPUT_CLOSED) then
    emit (EvError "cannot send close for istate/ostate")
  else if has_flag c CHAN_CLOSE_SENT then emit (EvError "already sent close")
  else send MSG_CHANNEL_CLOSE ;; add_flag CHAN_CLOSE_SENT.

Definition chan_send_eow2 : CM unit :=
  c ← getc;
  if ostate c =? CHAN_OUTPUT_CLOSED then
    emit (EvError "must not sent eow on closed output")
  else if Z.land compat SSH_NEW_OPENSSH =? 0 then mret tt
  else send MSG_CHANNEL_EOW.

Definition chan_read_failed : CM unit :=
  c ← getc;
  if istate c =? CHAN_INPUT_OPEN then
    chan_shutdown_read ;; chan_set_istate CHAN_INPUT_WAIT_DRAIN
  else emit (EvError "chan_read_failed for istate").

Definition chan_ibuf_empty : CM unit :=
  c ← getc;
  if negb (zlen (input c) =? 0) then emit (EvError "chan_ibuf_empty for non empty buffer")
  else if istate c =? CHAN_INPUT_WAIT_DRAIN then
    whenb (negb (has_flag c (Z.lor CHAN_CLOSE_SENT CHAN_LOCAL))) chan_send_eof2 ;;
    chan_set_istate CHAN_INPUT_CLOSED
  else emit (EvError "chan_ibuf_empty for istate").

Definition chan_obuf_empty : CM unit :=
  c ← getc;
  if negb (zlen (output c) =? 0) then emit (EvError "chan_obuf_empty for non empty buffer")
  else if ostate c =? CHAN_OUTPUT_WAIT_DRAIN then
    chan_shutdown_write ;; chan_set_ostate CHAN_OUTPUT_CLOSED
  else emit (EvError "internal error: obuf_empty for ostate").

Definition chan_rcvd_eow : CM unit :=
  c ← getc;
  whenb (istate c =? CHAN_INPUT_OPEN)
    (chan_shutdown_read ;; chan_set_istate CHAN_INPUT_CLOSED).

Definition CHANNEL_EFD_INPUT_ACTIVE (c : Channel) : bool :=
  (extended_usage c =? CHAN_EXTENDED_READ) &&
  (negb (efd c =? -1) || (zlen (extended c) >? 0)).

Definition CHANNEL_EFD_OUTPUT_ACTIVE (c : Channel) : bool :=
  (extended_usage c =? CHAN_EXTENDED_WRITE) && negb (efd c =? -1) &&
  (negb (has_flag c (Z.lor CHAN_EOF_RCVD CHAN_CLOSE_RCVD)) || (zlen (extended c) >? 0)).

Definition chan_rcvd_ieof : CM unit :=
  add_flag CHAN_EOF_RCVD ;;
  c ← getc;
  whenb (ostate c =? CHAN_OUTPUT_OPEN) (chan_set_ostate CHAN_OUTPUT_WAIT_DRAIN) ;;
  c ← getc;
  whenb ((ostate c =? CHAN_OUTPUT_WAIT_DRAIN) && (zlen (output c) =? 0) &&
         negb (CHANNEL_EFD_OUTPUT_ACTIVE c)) chan_obuf_empty.

Definition chan_rcvd_oclose : CM unit :=
  c ← getc;
  whenb (negb (has_flag c CHAN_LOCAL))
    (whenb (has_flag c CHAN_CLOSE_RCVD)
       (emit (EvError "protocol error: close rcvd twice")) ;;
     add_flag CHAN_CLOSE_RCVD) ;;
  c ← getc;
  if c_type c =? SSH_CHANNEL_LARVAL then
    chan_set_ostate CHAN_OUTPUT_CLOSED ;; chan_set_istate CHAN_INPUT_CLOSED
  else
    whenb (ostate c =? CHAN_OUTPUT_OPEN) (chan_set_ostate CHAN_OUTPUT_WAIT_DRAIN) ;;
    c ← getc;
    if istate c =? CHAN_INPUT_OPEN then
      chan_shutdown_read ;; chan_shutdown_extended_read ;;
      chan_set_istate CHAN_INPUT_CLOSED
    else if istate c =? CHAN_INPUT_WAIT_DRAIN then
      whenb (negb (has_flag c CHAN_LOCAL)) chan_send_eof2 ;;
      chan_shutdown_extended_read ;;
      chan_set_istate CHAN_INPUT_CLOSED
    else mret tt.

Definition chan_write_failed : CM unit :=
  c ← getc;
  if (ostate c =? CHAN_OUTPUT_OPEN) || (ostate c =? CHAN_OUTPUT_WAIT_DRAIN) then
    chan_shutdown_write ;;
    whenb (String.eqb (ctype c) "session") chan_send_eow2 ;;
    chan_set_ostate CHAN_OUTPUT_CLOSED
  else emit (EvError "chan_write_failed for ostate").

Definition chan_mark_dead : CM unit := modify (set_type SSH_CHANNEL_ZOMBIE).

Definition chan_is_dead (do_send : bool) : CM bool :=
  c ← getc;
  if c_type c =? SSH_CHANNEL_ZOMBIE then mret true
  else if negb (istate c =? CHAN_INPUT_CLOSED) || negb (ostate c =? CHAN_OUTPUT_CLOSED)
  then mret false
  else if negb (Z.land compat SSH_BUG_EXTEOF =? 0) &&
          (extended_usage c =? CHAN_EXTENDED_WRITE) && negb (efd c =? -1) &&
          (zlen (extended c) >? 0) then mret false
  else if has_flag c CHAN_LOCAL then mret true
  else if negb (has_flag c CHAN_CLOSE_SENT) && negb do_send && has_flag c CHAN_CLOSE_RCVD
  then mret true
  else
    whenb (negb (has_flag c CHAN_CLOSE_SENT) && do_send) chan_send_close2 ;;
    c ← getc;
    mret (has_flag c CHAN_CLOSE_SENT && has_flag c CHAN_CLOSE_RCVD).

(** ** channels.c: the data path *)

(** [sshbuf_put] whose failure is fatal, and [sshbuf_consume] likewise. *)
Definition put_fatal (max_size : Z) (get_ : Channel -> bytes)
    (set_ : bytes -> Channel -> Channel) (v : bytes) : CM unit :=
  c ← getc;
  match q_put max_size (get_ c) v with
  | Err _ => fatal
  | Ok q => modify (set_ q)
  end.

Definition consume_fatal (get_ : Channel -> bytes) (set_ : bytes -> Channel -> Channel)
    (n : Z) : CM unit :=
  c ← getc;
  match rd n (get_ c) with
  | Err _ => fatal
  | Ok (_, rest) => modify (set_ rest)
  end.

(** The descriptors [channel_pre_open] adds to the sets: (reading, writing). *)
Definition channel_pre_open : CM (list Z * list Z) :=
  c ← getc;
  let rset1 :=
    if (istate c =? CHAN_INPUT_OPEN) && (remote_window c >? 0) &&
       (zlen (input c) <? remote_window c) &&
       (zlen (input c) + CHAN_RBUF <=? CHAN_INPUT_MAX) then [rfd c] else [] in
  let opn := (ostate c =? CHAN_OUTPUT_OPEN) || (ostate c =? CHAN_OUTPUT_WAIT_DRAIN) in
  let wset1 := if opn && (zlen (output c) >? 0) then [wfd c] else [] in
  whenb (opn && negb (zlen (output c) >? 0) && (ostate c =? CHAN_OUTPUT_WAIT_DRAIN) &&
         negb (CHANNEL_EFD_OUTPUT_ACTIVE c)) chan_obuf_empty ;;
  c ← getc;
  if negb (efd c =? -1) &&
     negb ((istate c =? CHAN_INPUT_CLOSED) && (ostate c =? CHAN_OUTPUT_CLOSED)) then
    if (extended_usage c =? CHAN_EXTENDED_WRITE) && (zlen (extended c) >? 0) then
      mret (rset1, wset1 ++ [efd c])
    else if negb (has_flag c CHAN_EOF_SENT) &&
            ((extended_usage c =? CHAN_EXTENDED_READ) ||
             (extended_usage c =? CHAN_EXTENDED_IGNORE)) &&
            (zlen (extended c) <? remote_window c) then
      mret (rset1 ++ [efd c], wset1)
    else mret (rset1, wset1)
  else mret (rset1, wset1).

(** [c->input_filter] and [c->output_filter], when set. *)
Context (input_filter : option (bytes -> CM Z)).
Context (output_filter : option (CM (option bytes))).

(** A failed read or write of the data descriptors. *)
Definition io_failed (failed : CM unit) : CM Z :=
  c ← getc;
  (if negb (c_type c =? SSH_CHANNEL_OPEN) then chan_mark_dead else failed) ;;
  mret (-1).

Definition channel_handle_rfd (isset : bool) (res : read_res) : CM Z :=
  c ← getc;
  let force := isatty c && detach_close c && negb (istate c =? CHAN_INPUT_CLOSED) in
  if (rfd c =? -1) || (negb force && negb isset) then mret 1
  else
  match res with
  | R_EINTR => mret 1
  | R_EAGAIN => if force then io_failed chan_read_failed else mret 1
  | R_ERR | R_DATA [] => io_failed chan_read_failed
  | R_DATA buf =>
    match input_filter with
    | Some f => r ← f buf; whenb (r =? -1) chan_read_failed
    | None =>
      put_fatal CHAN_INPUT_MAX input set_input (if datagram c then wr_string buf else buf)
    end ;;
    mret 1
  end.

(** The bytes [channel_handle_wfd] writes; [None] when the filter stops. *)
Definition out_data : CM (option bytes) :=
  match output_filter with
  | Some f => f
  | None =>
    c ← getc;
    if datagram c then
      match rd_string (output c) with
      | Err _ => fatal
      | Ok (data, rest) => modify (set_output rest) ;; mret (Some data)
      end
    else mret (Some (output c))
  end.

(** [noecho]: the terminal is in canonical mode without echo. *)
Definition echo_ignore (noecho : bool) (buf : bytes) (len : Z) : CM unit :=
  c ← getc;
  whenb (isatty c && (zlen buf >=? 1) && negb (at_ buf 0 =? 13) && noecho)
    (emit (EvIgnore (4 + len))).

Definition account_consumed (olen : Z) : CM Z :=
  modify (fun c => set_local_consumed
    (u32 (local_consumed c + u32 (u64 (olen - zlen (output c))))) c) ;;
  mret 1.

Definition channel_handle_wfd (isset noecho : bool) (res : write_res) : CM Z :=
  c ← getc;
  if (wfd c =? -1) || negb isset || (zlen (output c) =? 0) then mret 1
  else
  let olen := zlen (output c) in
  data ← out_data;
  match data with
  | None => io_failed chan_write_failed
  | Some buf =>
    match res with
    | W_EINTR | W_EAGAIN => mret 1
    | W_ERR => io_failed chan_write_failed
    | W_OK len =>
      if len <=? 0 then io_failed chan_write_failed
      else
        (if datagram c then mret tt
         else echo_ignore noecho buf len ;; consume_fatal output set_output len) ;;
        account_consumed olen
    end
  end.

Definition channel_handle_efd_write (isset : bool) (res : write_res) : CM Z :=
  c ← getc;
  if negb isset || (zlen (extended c) =? 0) then mret 1
  else
  match res with
  | W_EINTR | W_EAGAIN => mret 1
  | W_ERR => channel_close_fd F_efd ;; mret 1
  | W_OK len =>
    if len <=? 0 then channel_close_fd F_efd ;; mret 1
    else
      consume_fatal extended set_extended len ;;
      modify (fun c => set_local_consumed (u32 (local_consumed c + len)) c) ;;
      mret 1
  end.

Definition channel_handle_efd_read (isset : bool) (res : read_res) : CM Z :=
  c ← getc;
  let force := isatty c && detach_close c && negb (istate c =? CHAN_INPUT_CLOSED) in
  if (efd c =? -1) || (negb force && negb isset) then mret 1
  else
  match res with
  | R_EINTR => mret 1
  | R_EAGAIN => if force then channel_close_fd F_efd ;; mret 1 else mret 1
  | R_ERR | R_DATA [] => channel_close_fd F_efd ;; mret 1
  | R_DATA buf =>
    if extended_usage c =? CHAN_EXTENDED_IGNORE then mret 1
    else put_fatal SSHBUF_SIZE_MAX extended set_extended buf ;; mret 1
  end.

Definition channel_handle_efd (risset wisset : bool) (rres : read_res) (wres : write_res)
    : CM Z :=
  c ← getc;
  if efd c =? -1 then mret 1
  else if extended_usage c =? CHAN_EXTENDED_WRITE then channel_handle_efd_write wisset wres
  else if (extended_usage c =? CHAN_EXTENDED_READ) ||
          (extended_usage c =? CHAN_EXTENDED_IGNORE)
  then channel_handle_efd_read risset rres
  else mret 1.

Definition channel_check_window : CM Z :=
  c ← getc;
  whenb ((c_type c =? SSH_CHANNEL_OPEN) &&
         negb (has_flag c (Z.lor CHAN_CLOSE_SENT CHAN_CLOSE_RCVD)) &&
         ((u32 (local_window_max c - local_window c) >? u32 (local_maxpacket c * 3)) ||
          (local_window c <? local_window_max c / 2)) &&
         (local_consumed c >? 0))
    (send (MSG_CHANNEL_WINDOW_ADJUST (local_consumed c)) ;;
     modify (fun c => set_local_consumed 0
       (set_local_window (u32 (local_window c + local_consumed c)) c))) ;;
  mret 1.

(** The answers of the kernel in one round of the event loop. *)
Record io := mk_io {
  io_rset : bool; io_read : read_res;        (* rfd *)
  io_wset : bool; io_write : write_res;      (* wfd *)
  io_noecho : bool;
  io_erset : bool; io_eread : read_res;      (* efd *)
  io_ewset : bool; io_ewrite : write_res
}.

Definition channel_post_open (a : io) : CM unit :=
  _ ← channel_handle_rfd (io_rset a) (io_read a);
  _ ← channel_handle_wfd (io_wset a) (io_noecho a) (io_write a);
  _ ← channel_handle_efd (io_erset a) (io_ewset a) (io_eread a) (io_ewrite a);
  _ ← channel_check_window;
  mret tt.

(** The [detach_user] callback. *)
Context (user_detach : CM unit).

Definition channel_garbage_collect : CM unit :=
  let collect := dead ← chan_is_dead true; whenb dead (emit EvFree) in
  c ← getc;
  if detach_user c then
    dead ← chan_is_dead (detach_close c);
    if negb dead then mret tt
    else
      emit EvDetach ;; user_detach ;;
      c ← getc;
      if detach_user c then mret tt else collect
  else collect.

Definition channel_output_poll_input_open : CM unit :=
  c ← getc;
  let len := zlen (input c) in
  if len =? 0 then
    whenb ((istate c =? CHAN_INPUT_WAIT_DRAIN) && negb (CHANNEL_EFD_INPUT_ACTIVE c))
      chan_ibuf_empty
  else if negb (have_remote_id c) then fatal
  else if datagram c then
    match rd_string (input c) with
    | Err _ => fatal
    | Ok (pkt, rest) =>
      modify (set_input rest) ;;
      if (zlen pkt >? remote_window c) || (zlen pkt >? remote_maxpacket c) then mret tt
      else
        send (MSG_CHANNEL_DATA pkt) ;;
        modify (fun c => set_remote_window (u32 (remote_window c - zlen pkt)) c)
    end
  else
    let len := Z.min (Z.min len (remote_window c)) (remote_maxpacket c) in
    if len =? 0 then mret tt
    else
      send (MSG_CHANNEL_DATA (take (Z.to_nat len) (input c))) ;;
      consume_fatal input set_input len ;;
      modify (fun c => set_remote_window (u32 (remote_window c - len)) c).

Definition channel_output_poll_extended_read : CM unit :=
  c ← getc;
  let len := Z.min (Z.min (zlen (extended c)) (remote_window c)) (remote_maxpacket c) in
  if len =? 0 then mret tt
  else
    send (MSG_CHANNEL_EXTENDED_DATA SSH2_EXTENDED_DATA_STDERR
      (take (Z.to_nat len) (extended c))) ;;
    consume_fatal extended set_extended len ;;
    modify (fun c => set_remote_window (u32 (remote_window c - len)) c).

(** The body of the loop of [channel_output_poll], for one channel. *)
Definition channel_output_poll : CM unit :=
  c ← getc;
  if negb (c_type c =? SSH_CHANNEL_OPEN) then mret tt
  else if has_flag c (Z.lor CHAN_CLOSE_SENT CHAN_CLOSE_RCVD) then mret tt
  else
    whenb ((istate c =? CHAN_INPUT_OPEN) || (istate c =? CHAN_INPUT_WAIT_DRAIN))
      channel_output_poll_input_open ;;
    c ← getc;
    whenb (negb (has_flag c CHAN_EOF_SENT) && (extended_usage c =? CHAN_EXTENDED_READ))
      channel_output_poll_extended_read.

(** ** channels.c: packets from the peer *)

(** [channel_lookup] finds the channel: its type is public. *)
Definition channel_lookup (c : Channel) : bool :=
  existsb (Z.eqb (c_type c))
    [SSH_CHANNEL_X11_OPEN; SSH_CHANNEL_LARVAL; SSH_CHANNEL_CONNECTING;
     SSH_CHANNEL_DYNAMIC; SSH_CHANNEL_RDYNAMIC_OPEN; SSH_CHANNEL_RDYNAMIC_FINISH;
     SSH_CHANNEL_OPENING; SSH_CHANNEL_OPEN; SSH_CHANNEL_ABANDONED;
     SSH_CHANNEL_MUX_PROXY].

(** Is the packet handled by the mux client?  [mux_ctx]: there is one. *)
Definition channel_proxy_upstream (m : msg) : CM bool :=
  c ← getc;
  if negb (c_type c =? SSH_CHANNEL_MUX_PROXY) || negb (mux_ctx c) then mret false
  else
    emit (EvUpstream m) ;;
    match m with
    | MSG_CHANNEL_CLOSE =>
      if has_flag c CHAN_CLOSE_SENT then emit EvFree else add_flag CHAN_CLOSE_RCVD
    | _ => mret tt
    end ;;
    mret true.

Definition channel_input_data (data : bytes) : CM unit :=
  c ← getc;
  if negb (channel_lookup c) then fatal
  else
  up ← channel_proxy_upstream (MSG_CHANNEL_DATA data);
  if (up : bool) then mret tt
  else if negb (c_type c =? SSH_CHANNEL_OPEN) &&
          negb (c_type c =? SSH_CHANNEL_RDYNAMIC_OPEN) &&
          negb (c_type c =? SSH_CHANNEL_RDYNAMIC_FINISH) &&
          negb (c_type c =? SSH_CHANNEL_X11_OPEN) then mret tt
  else
  let win_len := if datagram c then zlen data + 4 else zlen data in
  let shrink := modify (fun c => set_local_window (u32 (local_window c - win_len)) c) in
  if negb (ostate c =? CHAN_OUTPUT_OPEN) then
    shrink ;;
    modify (fun c => set_local_consumed (u32 (local_consumed c + win_len)) c)
  else if win_len >? local_maxpacket c then mret tt
  else if win_len >? local_window c then mret tt
  else
    shrink ;;
    put_fatal SSHBUF_SIZE_MAX output set_output (if datagram c then wr_string data else data).

Definition channel_input_extended_data (tcode : Z) (data : bytes) : CM unit :=
  c ← getc;
  if negb (channel_lookup c) then fatal
  else
  up ← channel_proxy_upstream (MSG_CHANNEL_EXTENDED_DATA tcode data);
  if (up : bool) then mret tt
  else if negb (c_type c =? SSH_CHANNEL_OPEN) then mret tt
  else if has_flag c CHAN_EOF_RCVD && (Z.land compat SSH_BUG_EXTEOF =? 0) then fatal
  else if (efd c =? -1) || negb (extended_usage c =? CHAN_EXTENDED_WRITE) ||
          negb (tcode =? SSH2_EXTENDED_DATA_STDERR) then mret tt
  else if zlen data >? local_window c then mret tt
  else
    match q_put SSHBUF_SIZE_MAX (extended c) data with
    | Ok q => modify (set_extended q)
    | Err _ => emit (EvError "append")
    end ;;
    modify (fun c => set_local_window (u32 (local_window c - zlen data)) c).

Definition channel_input_ieof : CM unit :=
  c ← getc;
  if negb (channel_lookup c) then fatal
  else
  up ← channel_proxy_upstream MSG_CHANNEL_EOF;
  if (up : bool) then mret tt
  else
    chan_rcvd_ieof ;;
    c ← getc;
    whenb (force_drain c && (istate c =? CHAN_INPUT_OPEN))
      (modify (set_istate CHAN_INPUT_WAIT_DRAIN) ;;
       c ← getc;
       whenb (zlen (input c) =? 0) chan_ibuf_empty).

Definition channel_input_oclose : CM unit :=
  c ← getc;
  if negb (channel_lookup c) then fatal
  else
  up ← channel_proxy_upstream MSG_CHANNEL_CLOSE;
  if (up : bool) then mret tt else chan_rcvd_oclose.

Definition channel_input_window_adjust (adjust : Z) : CM unit :=
  c ← getc;
  if negb (channel_lookup c) then mret tt
  else
  up ← channel_proxy_upstream (MSG_CHANNEL_WINDOW_ADJUST adjust);
  if (up : bool) then mret tt
  else
    let new_rwin := u32 (remote_window c + adjust) in
    if new_rwin <? remote_window c then fatal else modify (set_remote_window new_rwin).

(** [open_confirm]: the callback, when set.  For a proxied channel the packet goes to the
    mux client and the remote identifier is recorded. *)
Definition channel_input_open_confirmation (open_confirm : option (CM unit))
    (remote window maxpacket : Z) : CM unit :=
  c ← getc;
  if negb (channel_lookup c) then fatal
  else if (c_type c =? SSH_CHANNEL_MUX_PROXY) && mux_ctx c then
    emit EvUpstreamOpen ;;
    modify (fun c => set_remote remote (remote_window c) (remote_maxpacket c) c)
  else if negb (c_type c =? SSH_CHANNEL_OPENING) then fatal
  else
    modify (set_remote remote window maxpacket) ;;
    modify (set_type SSH_CHANNEL_OPEN) ;;
    match open_confirm with Some cb => cb | None => mret tt end.

(** The handler of each packet; "eow@openssh.com" requests reach [chan_rcvd_eow]. *)
Definition dispatch (m : msg) : CM unit :=
  match m with
  | MSG_CHANNEL_DATA v => channel_input_data v
  | MSG_CHANNEL_EXTENDED_DATA t v => channel_input_extended_data t v
  | MSG_CHANNEL_WINDOW_ADJUST n => channel_input_window_adjust n
  | MSG_CHANNEL_EOF => channel_input_ieof
  | MSG_CHANNEL_CLOSE => channel_input_oclose
  | MSG_CHANNEL_EOW => c ← getc; if negb (channel_lookup c) then fatal else chan_rcvd_eow
  end.
End nchan.
