(* ===== verification/ChanInv.v ===== *)
(** The close handshake: states only move forward, and the packets of a channel follow
    the protocol (no data after EOF, nothing after CLOSE). *)

From Stdlib Require Import Strings.String.
From S2P Require Import Prelude SshErr Wire SshQueue Channel.

(** ** Reasoning about handlers *)

(** If the process survives, [Q] holds of the result, the channel and the events. *)
Definition post {A} (m : CM A) (c : Channel) (Q : A -> Channel -> list event -> Prop)
    : Prop :=
  match m c with
  | None => True
  | Some (a, c', ev) => Q a c' ev
  end.

Lemma post_mono {A} (m : CM A) c (P Q : A -> Channel -> list event -> Prop) :
  post m c P -> (forall a c' ev, P a c' ev -> Q a c' ev) -> post m c Q.
Proof. unfold post. destruct (m c) as [[[a c'] ev]|]; auto. Qed.

Lemma post_bind {A B} (m : CM A) (f : A -> CM B) c Q :
  post m c (fun a c1 e1 => post (f a) c1 (fun b c2 e2 => Q b c2 (e1 ++ e2))) ->
  post (m ≫= f) c Q.
Proof.
  unfold post, mbind, CM_bind. destruct (m c) as [[[a c1] e1]|]; [|done].
  destruct (f a c1) as [[[b c2] e2]|]; auto.
Qed.

Lemma post_ret {A} (a : A) c (Q : A -> Channel -> list event -> Prop) :
  Q a c [] -> post (mret a) c Q.
Proof. done. Qed.

Lemma post_fatal {A} c (Q : A -> Channel -> list event -> Prop) : post fatal c Q.
Proof. done. Qed.

Lemma post_get {B} c (f : Channel -> CM B) Q : post (f c) c Q -> post (getc ≫= f) c Q.
Proof.
  intros H. apply post_bind. unfold post at 1. cbn. eapply post_mono; [exact H|auto].
Qed.

Lemma post_modify_bind {B} g c (f : unit -> CM B) Q :
  post (f tt) (g c) Q -> post (modify g ≫= f) c Q.
Proof.
  intros H. apply post_bind. unfold post at 1. cbn. eapply post_mono; [exact H|auto].
Qed.

Lemma post_emit_bind {B} e c (f : unit -> CM B) Q :
  post (f tt) c (fun b c' ev => Q b c' (e :: ev)) -> post (emit e ≫= f) c Q.
Proof. intros H. apply post_bind. exact H. Qed.

Lemma post_ret_bind {A B} (a : A) c (f : A -> CM B) Q :
  post (f a) c Q -> post (mret a ≫= f) c Q.
Proof.
  intros H. apply post_bind. unfold post at 1. cbn. eapply post_mono; [exact H|auto].
Qed.
Lemma post_modify g c (Q : unit -> Channel -> list event -> Prop) :
  Q tt (g c) [] -> post (modify g) c Q.
Proof. done. Qed.

Lemma post_emit e c (Q : unit -> Channel -> list event -> Prop) :
  Q tt c [e] -> post (emit e) c Q.
Proof. done. Qed.

(** ** Flags *)

Lemma land_lor_zero a b m : (Z.land (Z.lor a b) m =? 0) =
  (Z.land a m =? 0) && (Z.land b m =? 0).
Proof.
  rewrite Z.land_lor_distr_l.
  destruct (Z.eqb_spec (Z.lor (Z.land a m) (Z.land b m)) 0) as [E|N].
  - apply Z.lor_eq_0_iff in E as [-> ->]. done.
  - destruct (Z.eqb_spec (Z.land a m) 0) as [Ea|], (Z.eqb_spec (Z.land b m) 0) as [Eb|];
      try done. by rewrite Ea, Eb in N.
Qed.

Lemma has_flag_lor c f g : has_flag c (Z.lor f g) = has_flag c f || has_flag c g.
Proof.
  unfold has_flag. rewrite (Z.land_comm _ (Z.lor f g)), land_lor_zero.
  rewrite (Z.land_comm f), (Z.land_comm g), negb_andb. done.
Qed.

Lemma has_flag_add f g c :
  has_flag (set_flags (Z.lor (flags c) f) c) g = has_flag c g || negb (Z.land f g =? 0).
Proof.
  unfold has_flag. cbn. rewrite land_lor_zero, negb_andb. done.
Qed.

(** ** The protocol *)

(** What has been sent on a channel: data may follow, EOF was sent, CLOSE was sent. *)
Inductive phase := PData | PEof | PClosed.

Definition proto_step (p : phase) (m : msg) : option phase :=
  match p, m with
  | PClosed, _ => None
  | _, MSG_CHANNEL_CLOSE => Some PClosed
  | _, (MSG_CHANNEL_WINDOW_ADJUST _ | MSG_CHANNEL_EOW) => Some p
  | PData, (MSG_CHANNEL_DATA _ | MSG_CHANNEL_EXTENDED_DATA _ _) => Some PData
  | PData, MSG_CHANNEL_EOF => Some PEof
  | PEof, (MSG_CHANNEL_DATA _ | MSG_CHANNEL_EXTENDED_DATA _ _ | MSG_CHANNEL_EOF) => None
  end.

Fixpoint proto_run (p : phase) (ms : list msg) : option phase :=
  match ms with
  | [] => Some p
  | m :: ms => match proto_step p m with Some p' => proto_run p' ms | None => None end
  end.

Lemma proto_run_app p ms1 ms2 : proto_run p (ms1 ++ ms2) =
  match proto_run p ms1 with Some p' => proto_run p' ms2 | None => None end.
Proof.
  revert p. induction ms1 as [|m ms1 IH]; intros p; cbn; [done|].
  destruct (proto_step p m); auto.
Qed.

Definition sends (ev : list event) : list msg :=
  omap (fun e => match e with EvSend _ m => Some m | _ => None end) ev.

Lemma sends_app e1 e2 : sends (e1 ++ e2) = sends e1 ++ sends e2.
Proof. apply omap_app. Qed.

Definition phase_of (c : Channel) : phase :=
  if has_flag c CHAN_CLOSE_SENT then PClosed
  else if has_flag c CHAN_EOF_SENT then PEof else PData.

(** ** The invariant of one end *)

Record chan_ok (c : Channel) : Prop := {
  ok_istate : istate c = CHAN_INPUT_OPEN \/ istate c = CHAN_INPUT_WAIT_DRAIN \/
    istate c = CHAN_INPUT_CLOSED;
  ok_ostate : ostate c = CHAN_OUTPUT_OPEN \/ ostate c = CHAN_OUTPUT_WAIT_DRAIN \/
    ostate c = CHAN_OUTPUT_CLOSED;
  ok_eof : has_flag c CHAN_EOF_SENT = true -> istate c = CHAN_INPUT_CLOSED;
  ok_close : has_flag c CHAN_CLOSE_SENT = true ->
    istate c = CHAN_INPUT_CLOSED /\ ostate c = CHAN_OUTPUT_CLOSED
}.

(** A move of one end: the invariant holds after it, the states do not go back, and
    what was sent fits the protocol. *)
Record moves (c c' : Channel) (ev : list event) : Prop := {
  mv_ok : chan_ok c';
  mv_istate : istate c <= istate c';
  mv_ostate : ostate c <= ostate c';
  mv_flags : forall f, has_flag c f = true -> has_flag c' f = true;
  mv_proto : proto_run (phase_of c) (sends ev) = Some (phase_of c')
}.

Lemma moves_refl c : chan_ok c -> moves c c [].
Proof. constructor; auto; lia. Qed.

Lemma moves_trans c1 c2 c3 e1 e2 : moves c1 c2 e1 -> moves c2 c3 e2 ->
  moves c1 c3 (e1 ++ e2).
Proof.
  intros [A1 A2 A3 A4 A5] [B1 B2 B3 B4 B5]. constructor; auto; try lia.
  by rewrite sends_app, proto_run_app, A5.
Qed.

(** The fields the invariant is about. *)
Definition same_core (c c' : Channel) : Prop :=
  istate c' = istate c /\ ostate c' = ostate c /\ flags c' = flags c.

Lemma moves_core c c' ev : chan_ok c -> same_core c c' -> sends ev = [] -> moves c c' ev.
Proof.
  intros [A1 A2 A3 A4] (Ei & Eo & Ef) Hs. constructor.
  - constructor; unfold has_flag in *; rewrite ?Ei, ?Eo, ?Ef; auto.
  - lia.
  - lia.
  - intros f. unfold has_flag. by rewrite Ef.
  - rewrite Hs. cbn. unfold phase_of, has_flag. by rewrite Ef.
Qed.

(** ** Calm moves *)

(** The data a channel holds and its windows do not change, except that the output may
    be dropped; no data and no window is sent. *)
Record calm (c c' : Channel) (ev : list event) : Prop := {
  calm_input : input c' = input c;
  calm_output : output c' = output c \/ output c' = [];
  calm_extended : extended c' = extended c;
  calm_rw : remote_window c' = remote_window c;
  calm_lw : local_window c' = local_window c;
  calm_lc : local_consumed c' = local_consumed c;
  calm_max : local_window_max c' = local_window_max c;
  calm_fixed : extended_usage c' = extended_usage c /\ datagram c' = datagram c /\
    c_type c' = c_type c /\ remote_maxpacket c' = remote_maxpacket c /\
    local_maxpacket c' = local_maxpacket c;
  calm_sends : forall m, m ∈ sends ev ->
    m = MSG_CHANNEL_EOF \/ m = MSG_CHANNEL_CLOSE \/ m = MSG_CHANNEL_EOW
}.

Lemma calm_refl c : calm c c [].
Proof. constructor; auto. intros m Hm. by apply elem_of_nil in Hm. Qed.

Lemma calm_trans c1 c2 c3 e1 e2 : calm c1 c2 e1 -> calm c2 c3 e2 -> calm c1 c3 (e1 ++ e2).
Proof.
  intros [A1 A2 A3 A4 A5 A6 A7 A8 A9] [B1 B2 B3 B4 B5 B6 B7 B8 B9].
  constructor; try congruence.
  - destruct B2 as [->| ->]; auto.
  - destruct_and!. split_and!; congruence.
  - intros m. rewrite sends_app. intros [H|H]%elem_of_app; auto.
Qed.

(** Neither states nor flags change and nothing is sent. *)
Definition quiet (c c' : Channel) (ev : list event) : Prop :=
  same_core c c' /\ sends ev = [] /\ calm c c' ev.

Lemma calm_fields c c' ev : sends ev = [] -> input c' = input c ->
  output c' = output c \/ output c' = [] -> extended c' = extended c ->
  remote_window c' = remote_window c -> local_window c' = local_window c ->
  local_consumed c' = local_consumed c -> local_window_max c' = local_window_max c ->
  extended_usage c' = extended_usage c -> datagram c' = datagram c ->
  c_type c' = c_type c -> remote_maxpacket c' = remote_maxpacket c ->
  local_maxpacket c' = local_maxpacket c -> calm c c' ev.
Proof.
  intros Hs. constructor; auto. intros m. rewrite Hs. intros Hm. by apply elem_of_nil in Hm.
Qed.

(** Symbolic execution of a handler. *)
Ltac exec1 :=
  match goal with
  | |- post (getc ≫= _) _ _ => apply post_get; cbv beta zeta
  | |- post (modify _ ≫= _) _ _ => apply post_modify_bind
  | |- post (emit _ ≫= _) _ _ => apply post_emit_bind
  | |- post (mret _ ≫= _) _ _ => apply post_ret_bind; cbv beta
  | |- post (whenb ?b _ ≫= _) _ _ => unfold whenb at 1; destruct b eqn:?
  | |- post (whenb ?b _) _ _ => unfold whenb at 1; destruct b eqn:?
  | |- post (if ?b then _ else _) _ _ => destruct b eqn:?
  | |- post ((_ ≫= _) ≫= _) _ _ => apply post_bind
  | |- post (mret _) _ _ => apply post_ret; cbv beta
  | |- post (modify _) _ _ => apply post_modify; cbv beta
  | |- post (emit _) _ _ => apply post_emit; cbv beta
  | |- post fatal _ _ => exact I
  end.
Ltac exec := repeat exec1.

Ltac quiet_fields := split_and!; [done|done|by apply calm_fields; auto].

Lemma close_fd_quiet f c : post (channel_close_fd f) c (fun _ c' ev => quiet c c' ev).
Proof.
  unfold channel_close_fd. exec; destruct f; quiet_fields.
Qed.

Lemma shutdown_write_quiet c : post chan_shutdown_write c (fun _ c' ev => quiet c c' ev).
Proof.
  unfold chan_shutdown_write. exec; try quiet_fields.
  eapply post_mono; [apply close_fd_quiet|]. intros _ c' ev (H1 & H2 & [A1 A2 A3 A4 A5 A6 A7 A8 A9]).
  split_and!; [done|done|]. destruct_and!. apply calm_fields; auto.
  right. by destruct A2 as [->| ->].
Qed.

Lemma shutdown_read_quiet c : post chan_shutdown_read c (fun _ c' ev => quiet c c' ev).
Proof. unfold chan_shutdown_read. exec; try quiet_fields. apply close_fd_quiet. Qed.

Lemma shutdown_extended_read_quiet c :
  post chan_shutdown_extended_read c (fun _ c' ev => quiet c c' ev).
Proof.
  unfold chan_shutdown_extended_read. exec; try quiet_fields. apply close_fd_quiet.
Qed.

(** ** Good moves *)

Definition good (c c' : Channel) (ev : list event) : Prop := moves c c' ev /\ calm c c' ev.

Lemma good_refl c : chan_ok c -> good c c [].
Proof. split; [by apply moves_refl|apply calm_refl]. Qed.

Lemma good_trans c1 c2 c3 e1 e2 : good c1 c2 e1 -> good c2 c3 e2 -> good c1 c3 (e1 ++ e2).
Proof.
  intros [A1 A2] [B1 B2]. split; [by eapply moves_trans|by eapply calm_trans].
Qed.

Lemma good_quiet c c' ev : chan_ok c -> quiet c c' ev -> good c c' ev.
Proof. intros O (H1 & H2 & H3). split; [by apply moves_core|done]. Qed.

Lemma good_error c w : chan_ok c -> good c c [EvError w].
Proof. intros. apply good_quiet; [done|]. quiet_fields. Qed.

Definition good_handler {A} (m : CM A) : Prop :=
  forall c, chan_ok c -> post m c (fun _ c' ev => good c c' ev).

Lemma good_bind {A B} (m : CM A) (f : A -> CM B) :
  good_handler m -> (forall a, good_handler (f a)) -> good_handler (m ≫= f).
Proof.
  intros Hm Hf c O. apply post_bind. eapply post_mono; [by apply Hm|].
  intros a c1 e1 G1. eapply post_mono; [apply Hf, (mv_ok _ _ _ (proj1 G1))|].
  intros b c2 e2 G2. exact (good_trans _ _ _ _ _ G1 G2).
Qed.

Lemma good_ret {A} (a : A) : good_handler (mret a).
Proof. intros c O. by apply good_refl. Qed.

Lemma good_whenb b m : good_handler m -> good_handler (whenb b m).
Proof. intros H. destruct b; [done|apply good_ret]. Qed.

Lemma good_of_quiet {A} (m : CM A) : (forall c, post m c (fun _ c' ev => quiet c c' ev)) ->
  good_handler m.
Proof.
  intros H c O. eapply post_mono; [apply H|]. intros a c' ev Q. by apply good_quiet.
Qed.

(** Advancing a state. *)
Ltac chan_lia :=
  unfold CHAN_INPUT_OPEN, CHAN_INPUT_WAIT_DRAIN, CHAN_INPUT_CLOSED, CHAN_OUTPUT_OPEN,
    CHAN_OUTPUT_WAIT_DRAIN, CHAN_OUTPUT_CLOSED in *; lia.

Lemma good_set_istate c c1 e next : chan_ok c -> quiet c c1 e -> istate c <= next ->
  next = CHAN_INPUT_WAIT_DRAIN \/ next = CHAN_INPUT_CLOSED ->
  good c (set_istate next c1) e.
Proof.
  intros O ((Ei & Eo & Ef) & Es & Cm) Hle Hn.
  split; [|destruct Cm; constructor; auto]. destruct O as [O1 O2 O3 O4].
  assert (Hf : forall f, has_flag (set_istate next c1) f = has_flag c f)
    by (intros; unfold has_flag; cbn; by rewrite Ef).
  constructor; cbn; try chan_lia.
  - constructor; rewrite ?Hf; cbn; try chan_lia.
    + intros E%O3. chan_lia.
    + intros [E1 E2]%O4. split; [chan_lia|congruence].
  - intros f. by rewrite Hf.
  - rewrite Es. unfold phase_of. by rewrite !Hf.
Qed.

Lemma good_set_ostate c c1 e next : chan_ok c -> quiet c c1 e -> ostate c <= next ->
  next = CHAN_OUTPUT_WAIT_DRAIN \/ next = CHAN_OUTPUT_CLOSED ->
  good c (set_ostate next c1) e.
Proof.
  intros O ((Ei & Eo & Ef) & Es & Cm) Hle Hn.
  split; [|destruct Cm; constructor; auto]. destruct O as [O1 O2 O3 O4].
  assert (Hf : forall f, has_flag (set_ostate next c1) f = has_flag c f)
    by (intros; unfold has_flag; cbn; by rewrite Ef).
  constructor; cbn; try chan_lia.
  - constructor; rewrite ?Hf; cbn; rewrite ?Ei; try done; try chan_lia.
    intros [E1 E2]%O4. split; [done|chan_lia].
  - intros f. by rewrite Hf.
  - rewrite Es. unfold phase_of. by rewrite !Hf.
Qed.

(** EOF is sent and the input closed. *)
Lemma good_eof c c1 e ev : chan_ok c -> istate c = CHAN_INPUT_WAIT_DRAIN ->
  quiet (set_flags (Z.lor (flags c) CHAN_EOF_SENT) c) c1 e ->
  ev = EvSend (remote_id c) MSG_CHANNEL_EOF :: e -> good c (set_istate CHAN_INPUT_CLOSED c1) ev.
Proof.
  intros O Hi ((Ei & Eo & Ef) & Es & Cm) ->. destruct O as [O1 O2 O3 O4]. cbn in Ei, Eo, Ef.
  assert (Hf : forall f, has_flag (set_istate CHAN_INPUT_CLOSED c1) f =
    has_flag c f || negb (Z.land CHAN_EOF_SENT f =? 0))
    by (intros; rewrite <- has_flag_add; unfold has_flag; cbn; by rewrite Ef).
  assert (N1 : has_flag c CHAN_EOF_SENT = false)
    by (destruct (has_flag c CHAN_EOF_SENT); [by rewrite O3 in Hi|done]).
  assert (N2 : has_flag c CHAN_CLOSE_SENT = false)
    by (destruct (has_flag c CHAN_CLOSE_SENT); [by rewrite (proj1 (O4 eq_refl)) in Hi|done]).
  assert (Hr : sends (EvSend (remote_id c) MSG_CHANNEL_EOF :: e) = [MSG_CHANNEL_EOF])
    by (cbn; by rewrite <- Es).
  split.
  - constructor; cbn [istate ostate set_istate]; try chan_lia.
    + constructor; rewrite ?Hf; cbn; rewrite ?Eo, ?N2; auto. done.
    + intros f H. by rewrite Hf, H.
    + rewrite Hr. unfold phase_of. rewrite !Hf, N1, N2. done.
  - destruct Cm. constructor; auto. intros m. rewrite Hr, list_elem_of_singleton. auto.
Qed.

Lemma good_add_flag c f : chan_ok c -> f = CHAN_EOF_RCVD \/ f = CHAN_CLOSE_RCVD ->
  good c (set_flags (Z.lor (flags c) f) c) [].
Proof.
  intros O Hf. destruct O as [O1 O2 O3 O4].
  assert (E : has_flag (set_flags (Z.lor (flags c) f) c) CHAN_EOF_SENT =
    has_flag c CHAN_EOF_SENT /\
    has_flag (set_flags (Z.lor (flags c) f) c) CHAN_CLOSE_SENT = has_flag c CHAN_CLOSE_SENT).
  { rewrite !has_flag_add. destruct Hf as [-> | ->]; cbn; by rewrite !orb_false_r. }
  destruct E as [E1 E2]. split.
  - constructor; cbn; try lia.
    + constructor; rewrite ?E1, ?E2; auto.
    + intros g H. by rewrite has_flag_add, H.
    + unfold phase_of. by rewrite E1, E2.
  - apply calm_fields; auto.
Qed.

(** ** The functions of nchan.c *)

Section nchan.
Context (compat : Z).

(** A shutdown followed by a change of state. *)
Lemma good_then_istate (m : CM unit) c next : chan_ok c ->
  post m c (fun _ c' ev => quiet c c' ev) -> istate c <= next ->
  next = CHAN_INPUT_WAIT_DRAIN \/ next = CHAN_INPUT_CLOSED ->
  post (m ;; chan_set_istate next) c (fun _ c' ev => good c c' ev).
Proof.
  intros O H Hle Hn. apply post_bind. eapply post_mono; [exact H|].
  intros a c1 e1 Q. unfold chan_set_istate. exec. rewrite app_nil_r.
  by apply good_set_istate.
Qed.

Lemma good_then_ostate (m : CM unit) c next : chan_ok c ->
  post m c (fun _ c' ev => quiet c c' ev) -> ostate c <= next ->
  next = CHAN_OUTPUT_WAIT_DRAIN \/ next = CHAN_OUTPUT_CLOSED ->
  post (m ;; chan_set_ostate next) c (fun _ c' ev => good c c' ev).
Proof.
  intros O H Hle Hn. apply post_bind. eapply post_mono; [exact H|].
  intros a c1 e1 Q. unfold chan_set_ostate. exec. rewrite app_nil_r.
  by apply good_set_ostate.
Qed.

Lemma quiet_refl c : quiet c c [].
Proof. quiet_fields. Qed.

Lemma good_ostate c next : chan_ok c -> ostate c <= next ->
  next = CHAN_OUTPUT_WAIT_DRAIN \/ next = CHAN_OUTPUT_CLOSED ->
  post (chan_set_ostate next) c (fun _ c' ev => good c c' ev).
Proof.
  intros O Hle Hn. unfold chan_set_ostate. exec.
  apply good_set_ostate; try done. apply quiet_refl.
Qed.

Lemma good_istate c next : chan_ok c -> istate c <= next ->
  next = CHAN_INPUT_WAIT_DRAIN \/ next = CHAN_INPUT_CLOSED ->
  post (chan_set_istate next) c (fun _ c' ev => good c c' ev).
Proof.
  intros O Hle Hn. unfold chan_set_istate. exec.
  apply good_set_istate; try done. apply quiet_refl.
Qed.

Lemma chan_read_failed_good : good_handler chan_read_failed.
Proof.
  intros c O. unfold chan_read_failed. apply post_get.
  destruct (Z.eqb_spec (istate c) CHAN_INPUT_OPEN) as [E|N].
  - apply good_then_istate; auto using shutdown_read_quiet. chan_lia.
  - by apply good_error.
Qed.

Lemma chan_rcvd_eow_good : good_handler chan_rcvd_eow.
Proof.
  intros c O. unfold chan_rcvd_eow. apply post_get.
  destruct (Z.eqb_spec (istate c) CHAN_INPUT_OPEN) as [E|N]; cbn [whenb].
  - apply good_then_istate; auto using shutdown_read_quiet. chan_lia.
  - by apply good_refl.
Qed.

Lemma chan_obuf_empty_good : good_handler chan_obuf_empty.
Proof.
  intros c O. unfold chan_obuf_empty. apply post_get.
  destruct (negb _); [by apply good_error|].
  destruct (Z.eqb_spec (ostate c) CHAN_OUTPUT_WAIT_DRAIN) as [E|N]; [|by apply good_error].
  apply good_then_ostate; auto using shutdown_write_quiet. chan_lia.
Qed.

(** Something quiet that ends by closing the input. *)
Definition closes_input (m : CM unit) : Prop := forall c, post m c (fun _ c' ev =>
  exists c1, quiet c c1 ev /\ c' = set_istate CHAN_INPUT_CLOSED c1).

Lemma closes_input_set : closes_input (chan_set_istate CHAN_INPUT_CLOSED).
Proof. intros c. unfold chan_set_istate. exec. exists c. split; [apply quiet_refl|done]. Qed.

Lemma closes_input_then (m : CM unit) : (forall c, post m c (fun _ c' ev => quiet c c' ev)) ->
  closes_input (m ;; chan_set_istate CHAN_INPUT_CLOSED).
Proof.
  intros H c. apply post_bind. eapply post_mono; [apply H|]. intros a c1 e1 Q.
  unfold chan_set_istate. exec. rewrite app_nil_r. by exists c1.
Qed.

(** Sending EOF when the input drains, and closing the input. *)
Lemma good_drain b (m : CM unit) c : chan_ok c -> istate c = CHAN_INPUT_WAIT_DRAIN ->
  closes_input m ->
  post (whenb b chan_send_eof2 ;; m) c (fun _ c' ev => good c c' ev).
Proof.
  intros O E H. destruct b; cbn [whenb].
  - unfold chan_send_eof2, send, add_flag. exec; [|by rewrite E in Heqb].
    cbn [app]. eapply post_mono; [apply H|]. intros a c' e1 (c1 & Q & ->).
    eapply good_eof; [exact O|exact E|exact Q|reflexivity].
  - apply post_ret_bind. eapply post_mono; [apply H|]. intros a c' e1 (c1 & Q & ->).
    apply good_set_istate; auto. chan_lia.
Qed.

Lemma chan_ibuf_empty_good : good_handler chan_ibuf_empty.
Proof.
  intros c O. unfold chan_ibuf_empty. apply post_get.
  destruct (negb _); [by apply good_error|].
  destruct (Z.eqb_spec (istate c) CHAN_INPUT_WAIT_DRAIN) as [E|N]; [|by apply good_error].
  apply good_drain; [done|done|]. apply closes_input_set.
Qed.
(** A state dependent on the channel when the handler is entered. *)
Lemma good_get {B} (f : Channel -> CM B) :
  (forall c, chan_ok c -> post (f c) c (fun _ c' ev => good c c' ev)) ->
  good_handler (c ← getc; f c).
Proof. intros H c O. apply post_get. auto. Qed.

Lemma good_emit_error w : good_handler (emit (EvError w)).
Proof. intros c O. by apply good_error. Qed.

Lemma good_rcvd f : f = CHAN_EOF_RCVD \/ f = CHAN_CLOSE_RCVD -> good_handler (add_flag f).
Proof. intros Hf c O. by apply good_add_flag. Qed.

Lemma post_good_bind {A B} (m : CM A) (f : A -> CM B) c :
  post m c (fun _ c' ev => good c c' ev) -> (forall a, good_handler (f a)) ->
  post (m ≫= f) c (fun _ c' ev => good c c' ev).
Proof.
  intros Hm Hf. apply post_bind. eapply post_mono; [exact Hm|]. intros a c1 e1 G1.
  eapply post_mono; [apply Hf, (mv_ok _ _ _ (proj1 G1))|].
  intros b c2 e2 G2. exact (good_trans _ _ _ _ _ G1 G2).
Qed.

Lemma chan_rcvd_ieof_good : good_handler chan_rcvd_ieof.
Proof.
  apply good_bind; [by apply good_rcvd; auto|intros _].
  apply good_get. intros c O. apply post_good_bind.
  - destruct (Z.eqb_spec (ostate c) CHAN_OUTPUT_OPEN); [|by apply good_refl].
    apply good_ostate; auto. chan_lia.
  - intros _. apply good_get. intros c1 O1. by apply good_whenb, O1; apply chan_obuf_empty_good.
Qed.

Lemma ok_states c : chan_ok c -> istate c <= CHAN_INPUT_CLOSED /\ ostate c <= CHAN_OUTPUT_CLOSED.
Proof. intros [? ? _ _]. chan_lia. Qed.

Lemma chan_rcvd_oclose_good : good_handler chan_rcvd_oclose.
Proof.
  apply good_get. intros c O. apply post_good_bind.
  { apply good_whenb; [|done]. apply good_bind.
    - apply good_whenb, good_emit_error.
    - intros _. apply good_rcvd. auto. }
  intros _. apply good_get. clear c O. intros c O. destruct (_ =? SSH_CHANNEL_LARVAL).
  { apply post_good_bind.
    - apply good_ostate; auto. by apply ok_states.
    - intros _ c1 O1. apply good_istate; auto. by apply ok_states. }
  apply post_good_bind.
  { destruct (Z.eqb_spec (ostate c) CHAN_OUTPUT_OPEN); [|by apply good_refl].
    apply good_ostate; auto. chan_lia. }
  intros _. apply good_get. clear c O. intros c O.
  destruct (Z.eqb_spec (istate c) CHAN_INPUT_OPEN).
  { apply post_good_bind; [by apply good_of_quiet, O; apply shutdown_read_quiet|].
    intros _ c1 O1. apply good_then_istate; auto using shutdown_extended_read_quiet.
    by apply ok_states. }
  destruct (Z.eqb_spec (istate c) CHAN_INPUT_WAIT_DRAIN); [|by apply good_refl].
  apply good_drain; auto. apply closes_input_then, shutdown_extended_read_quiet.
Qed.

(** "eow" while the output is not closed. *)
Lemma send_eow2_good c : chan_ok c -> ostate c <> CHAN_OUTPUT_CLOSED ->
  post (chan_send_eow2 compat) c (fun _ c' ev => c' = c /\ good c c ev).
Proof.
  intros O N. unfold chan_send_eow2, send. exec; try by (split; [done|apply good_refl]).
  - split; [done|by apply good_error].
  - split; [done|]. split.
    + constructor; auto; try lia. cbn. unfold phase_of.
      destruct (has_flag c CHAN_CLOSE_SENT) eqn:E; [by destruct (ok_close _ O E)|].
      by destruct (has_flag c CHAN_EOF_SENT).
    + constructor; auto. cbn. intros m Hm%list_elem_of_singleton. auto.
Qed.

Lemma chan_write_failed_good : good_handler (chan_write_failed compat).
Proof.
  intros c O. unfold chan_write_failed. apply post_get.
  destruct (_ || _) eqn:E; [|by apply good_error].
  assert (N : ostate c <> CHAN_OUTPUT_CLOSED).
  { apply orb_true_iff in E. rewrite !Z.eqb_eq in E. chan_lia. }
  apply post_bind. eapply post_mono; [apply shutdown_write_quiet|]. intros a c1 e1 Q.
  pose proof (good_quiet _ _ _ O Q) as G1. assert (O1 := mv_ok _ _ _ (proj1 G1)).
  apply post_bind.
  eapply (post_mono _ _ (fun _ c' ev => c' = c1 /\ good c1 c1 ev)).
  { destruct (String.eqb _ _); cbn [whenb]; [|by split; [|apply good_refl]].
    apply send_eow2_good; [done|]. destruct Q as ((_ & -> & _) & _). done. }
  intros b ? e2 [-> G2]. eapply post_mono; [apply good_ostate|]; auto; [by apply ok_states|].
  intros d c3 e3 G3. exact (good_trans _ _ _ _ _ G1 (good_trans _ _ _ _ _ G2 G3)).
Qed.

Lemma chan_send_close2_good : good_handler chan_send_close2.
Proof.
  apply good_get. intros c O. destruct (_ || _) eqn:E; [by apply good_error|].
  destruct (has_flag c CHAN_CLOSE_SENT) eqn:F; [by apply good_error|].
  apply orb_false_iff in E as [Eo Ei]. rewrite !negb_false_iff, !Z.eqb_eq in Eo, Ei.
  unfold send, add_flag. exec. destruct O as [O1 O2 O3 O4].
  assert (Hf : forall f, has_flag (set_flags (Z.lor (flags c) CHAN_CLOSE_SENT) c) f =
    has_flag c f || negb (Z.land CHAN_CLOSE_SENT f =? 0)) by (intros; apply has_flag_add).
  split.
  - constructor; cbn [istate ostate set_flags]; try chan_lia.
    + constructor; auto.
    + intros f H. by rewrite Hf, H.
    + cbn. unfold phase_of. rewrite F, !Hf, F. by destruct (has_flag c CHAN_EOF_SENT).
  - constructor; auto. cbn. intros m Hm%list_elem_of_singleton. auto.
Qed.

Lemma chan_is_dead_good b : good_handler (chan_is_dead compat b).
Proof.
  apply good_get. intros c O.
  assert (R : forall x : bool, post (mret x) c (fun _ c' ev => good c c' ev))
    by (intros; by apply good_refl).
  repeat (match goal with |- post (if ?b then mret _ else _) _ _ => destruct b end;
    [apply R|]).
  apply post_good_bind; [by apply good_whenb, O; apply chan_send_close2_good|].
  intros _. apply good_get. intros c1 O1. by apply good_refl.
Qed.
End nchan.
