(* ===== verification/ChanFlow.v ===== *)
(** Flow control: a peer that respects the window is never over-run.

    [end_step] is one action of an end of a channel: a round of the event loop with any
    answers of the kernel, or the handler of the next packet.  Two ends and the two
    queues of packets between them make a system ([sys_step]); its invariant relates
    the sender's window, what is in flight and the receiver's window. *)

From Stdlib Require Import Strings.String.
From S2P Require Import Prelude SshErr Wire SshQueue Channel ChanInv.

(** ** Accounting *)

Definition msg_data (m : msg) : Z :=
  match m with
  | MSG_CHANNEL_DATA v | MSG_CHANNEL_EXTENDED_DATA _ v => zlen v
  | _ => 0
  end.
Definition msg_adjust (m : msg) : Z :=
  match m with MSG_CHANNEL_WINDOW_ADJUST n => n | _ => 0 end.

Fixpoint total (f : msg -> Z) (ms : list msg) : Z :=
  match ms with [] => 0 | m :: ms => f m + total f ms end.

Lemma total_app f ms1 ms2 : total f (ms1 ++ ms2) = total f ms1 + total f ms2.
Proof. induction ms1 as [|m ms1 IH]; cbn; [done|]. rewrite IH. lia. Qed.

Lemma total_zero f ms : (forall m, m ∈ ms -> f m = 0) -> total f ms = 0.
Proof.
  induction ms as [|m ms IH]; intros H; [done|]. cbn.
  rewrite H, IH; [done| |]; intros; [apply H|]; set_solver.
Qed.

(** Received data the descriptors have not taken yet. *)
Definition held (c : Channel) : Z :=
  zlen (output c) +
  (if extended_usage c =? CHAN_EXTENDED_WRITE then zlen (extended c) else 0).

(** The windows of an open stream channel are in order. *)
Record flow_ok (c : Channel) : Prop := {
  fl_open : c_type c = SSH_CHANNEL_OPEN;
  fl_stream : datagram c = false;
  fl_rw : 0 <= remote_window c < 2 ^ 32;
  fl_rmax : 0 <= remote_maxpacket c;
  fl_lw : 0 <= local_window c;
  fl_lc : 0 <= local_consumed c;
  fl_credit : local_window c + local_consumed c + held c <= local_window_max c;
  fl_max : local_window_max c < 2 ^ 32
}.

(** What an action does to the windows: it takes from the remote window what it sends,
    and gives to the local window what it announces. *)
Record flows (c c' : Channel) (ms : list msg) : Prop := {
  fw_ok : flow_ok c';
  fw_rw : remote_window c = remote_window c' + total msg_data ms;
  fw_lw : local_window c' = local_window c + total msg_adjust ms;
  fw_max : local_window_max c' = local_window_max c;
  fw_pos : Forall (fun m => 0 <= msg_adjust m) ms
}.

Lemma flows_refl c : flow_ok c -> flows c c [].
Proof. constructor; cbn; auto; lia. Qed.

Lemma flows_trans c1 c2 c3 e1 e2 : flows c1 c2 e1 -> flows c2 c3 e2 ->
  flows c1 c3 (e1 ++ e2).
Proof.
  intros [A1 A2 A3 A4 A5] [B1 B2 B3 B4 B5].
  constructor; auto; rewrite ?total_app, ?Forall_app; try lia; auto.
Qed.

Lemma calm_flow_ok c c' ev : flow_ok c -> calm c c' ev -> flow_ok c'.
Proof.
  intros [F1 F2 F3 F4 F5 F6 F7 F8] [C1 C2 C3 C4 C5 C6 C7 (U & D & T & R & L) _].
  assert (Hh : held c' <= held c).
  { unfold held. rewrite U, C3. pose proof (zlen_nonneg (output c)).
    destruct C2 as [-> | ->]; cbn; rewrite ?zlen_nil; lia. }
  constructor; try congruence; try lia.
Qed.

Lemma calm_flows c c' ev : flow_ok c -> calm c c' ev -> flows c c' (sends ev).
Proof.
  intros F C. assert (F' := calm_flow_ok c c' ev F C). destruct C as [C1 C2 C3 C4 C5 C6 C7 _ C9].
  assert (Z : forall m, m ∈ sends ev -> msg_data m = 0 /\ msg_adjust m = 0).
  { intros m H. by destruct (C9 m H) as [->|[->| ->]]. }
  constructor; auto.
  - rewrite total_zero by (intros; by apply Z). lia.
  - rewrite total_zero by (intros; by apply Z). lia.
  - apply Forall_forall. intros m H. rewrite (proj2 (Z m H)). done.
Qed.

(** ** Actions of one end *)

Definition step_ok (c c' : Channel) (ev : list event) : Prop :=
  moves c c' ev /\ flows c c' (sends ev).

Lemma step_refl c : chan_ok c -> flow_ok c -> step_ok c c [].
Proof. split; [by apply moves_refl|by apply flows_refl]. Qed.

Lemma step_trans c1 c2 c3 e1 e2 : step_ok c1 c2 e1 -> step_ok c2 c3 e2 ->
  step_ok c1 c3 (e1 ++ e2).
Proof.
  intros [A1 A2] [B1 B2]. split; [by eapply moves_trans|].
  rewrite sends_app. by eapply flows_trans.
Qed.

Definition step_handler {A} (m : CM A) : Prop :=
  forall c, chan_ok c -> flow_ok c -> post m c (fun _ c' ev => step_ok c c' ev).

Lemma good_step c c' ev : flow_ok c -> good c c' ev -> step_ok c c' ev.
Proof. intros F [M C]. split; [done|by apply calm_flows]. Qed.

Lemma good_step_handler {A} (m : CM A) : good_handler m -> step_handler m.
Proof.
  intros H c O F. eapply post_mono; [by apply H|]. intros a c' ev G. by apply good_step.
Qed.

Lemma post_step_bind {A B} (m : CM A) (f : A -> CM B) c :
  post m c (fun _ c' ev => step_ok c c' ev) -> (forall a, step_handler (f a)) ->
  post (m ≫= f) c (fun _ c' ev => step_ok c c' ev).
Proof.
  intros Hm Hf. apply post_bind. eapply post_mono; [exact Hm|]. intros a c1 e1 [M1 F1].
  eapply post_mono; [apply Hf; [apply (mv_ok _ _ _ M1)|apply (fw_ok _ _ _ F1)]|].
  intros b c2 e2 G2. exact (step_trans _ _ _ _ _ (conj M1 F1) G2).
Qed.

Lemma step_bind {A B} (m : CM A) (f : A -> CM B) :
  step_handler m -> (forall a, step_handler (f a)) -> step_handler (m ≫= f).
Proof. intros Hm Hf c O F. apply post_step_bind; auto. Qed.

Lemma step_get {B} (f : Channel -> CM B) :
  (forall c, chan_ok c -> flow_ok c -> post (f c) c (fun _ c' ev => step_ok c c' ev)) ->
  step_handler (c ← getc; f c).
Proof. intros H c O F. apply post_get. auto. Qed.

Lemma step_ret {A} (a : A) : step_handler (mret a).
Proof. intros c O F. by apply step_refl. Qed.

(** A change of data and windows only. *)
Lemma core_step c c' ev : chan_ok c -> same_core c c' ->
  phase_of c <> PClosed ->
  (forall m, m ∈ sends ev -> (exists n, m = MSG_CHANNEL_WINDOW_ADJUST n) \/
     phase_of c = PData /\ ((exists v, m = MSG_CHANNEL_DATA v) \/
                            exists t v, m = MSG_CHANNEL_EXTENDED_DATA t v)) ->
  moves c c' ev.
Proof.
  intros [A1 A2 A3 A4] (Ei & Eo & Ef) Hp Hm. constructor.
  - constructor; unfold has_flag in *; rewrite ?Ei, ?Eo, ?Ef; auto.
  - lia.
  - lia.
  - intros f. unfold has_flag. by rewrite Ef.
  - assert (phase_of c' = phase_of c) as -> by (unfold phase_of, has_flag; by rewrite Ef).
    induction (sends ev) as [|m ms IH]; [done|]. cbn.
    assert (proto_step (phase_of c) m = Some (phase_of c)) as ->.
    { destruct (Hm m) as [[n ->]|[-> [[v ->]|(t & v & ->)]]]; [by left| |done|done].
      by destruct (phase_of c). }
    apply IH. intros. apply Hm. by right.
Qed.

(** ** The data path *)

Definition no_in : option (bytes -> CM Z) := None.
Definition no_out : option (CM (option bytes)) := None.
(** A [detach_user] callback that cancels itself ([channel_cancel_cleanup]). *)
Definition cancel_cleanup : CM unit := modify (set_detach_user false).

Section data.
Context (compat : Z).

(** A change that touches neither states nor windows. *)
Lemma quiet_update c c' : chan_ok c -> flow_ok c -> same_core c c' ->
  flows c c' [] -> step_ok c c' [].
Proof.
  intros O F S Fl. split; [|done]. by apply moves_core.
Qed.

Lemma put_fatal_step max get_ set_ v : (forall q c, chan_ok c -> flow_ok c ->
    step_ok c (set_ q c) []) -> step_handler (put_fatal max get_ set_ v).
Proof.
  intros H. apply step_get. intros c O F. destruct (q_put _ _ _); [|done].
  apply post_modify. auto.
Qed.

Lemma set_input_step q c : chan_ok c -> flow_ok c -> step_ok c (set_input q c) [].
Proof.
  intros O F. apply quiet_update; auto; [done|]. constructor; cbn; try lia; [|done].
  destruct F. constructor; done.
Qed.

Lemma set_extended_step q c : extended_usage c <> CHAN_EXTENDED_WRITE ->
  chan_ok c -> flow_ok c -> step_ok c (set_extended q c) [].
Proof.
  intros N O F. apply quiet_update; auto; [done|]. constructor; cbn; try lia; [|done].
  destruct F. constructor; try done. unfold held in *. cbn.
  by rewrite (proj2 (Z.eqb_neq _ _) N) in *.
Qed.

Lemma io_failed_step (m : CM unit) : step_handler m -> step_handler (io_failed m).
Proof.
  intros H. apply step_get. intros c O F. rewrite (fl_open _ F). cbn [negb Z.eqb].
  apply post_step_bind; [by apply H|]. intros _. apply step_ret.
Qed.

Lemma read_failed_step : step_handler chan_read_failed.
Proof. apply good_step_handler, chan_read_failed_good. Qed.

Lemma write_failed_step : step_handler (chan_write_failed compat).
Proof. apply good_step_handler, chan_write_failed_good. Qed.

Lemma handle_rfd_step isset res : step_handler (channel_handle_rfd no_in isset res).
Proof.
  apply step_get. intros c O F. cbv zeta. destruct (_ || _); [by apply step_refl|].
  assert (R : forall x : Z, post (mret x) c (fun _ c' ev => step_ok c c' ev))
    by (intros; by apply step_refl).
  pose proof (io_failed_step _ read_failed_step c O F) as IO.
  destruct res as [| | |[|b v]]; try done.
  - by destruct (_ && _).
  - apply post_step_bind; [|intros _; apply step_ret].
    by apply put_fatal_step; auto using set_input_step.
Qed.

Lemma close_efd_step : step_handler (channel_close_fd F_efd ;; mret 1).
Proof.
  apply step_bind; [|intros _; apply step_ret].
  apply good_step_handler, good_of_quiet. apply close_fd_quiet.
Qed.

Lemma efd_read_step isset res c : extended_usage c <> CHAN_EXTENDED_WRITE ->
  chan_ok c -> flow_ok c ->
  post (channel_handle_efd_read isset res) c (fun _ c' ev => step_ok c c' ev).
Proof.
  intros N O F. unfold channel_handle_efd_read. apply post_get. cbv zeta.
  assert (R : forall x : Z, post (mret x) c (fun _ c' ev => step_ok c c' ev))
    by (intros; by apply step_refl).
  pose proof (close_efd_step c O F) as CL.
  destruct (_ || _); [apply R|]. destruct res as [| | |[|b v]]; try done.
  - by destruct (_ && _).
  - destruct (_ =? _); [apply R|]. apply post_step_bind; [|intros _; apply step_ret].
    unfold put_fatal. apply post_get. destruct (q_put _ _ _); [|done].
    by apply set_extended_step.
Qed.

(** Bytes leave a buffer that counts against the window. *)
Lemma consumed_step c c' n : chan_ok c -> flow_ok c -> 0 <= n ->
  same_core c c' -> held c' = held c - n -> local_consumed c' = local_consumed c + n ->
  remote_window c' = remote_window c -> local_window c' = local_window c ->
  local_window_max c' = local_window_max c -> remote_maxpacket c' = remote_maxpacket c ->
  datagram c' = datagram c -> c_type c' = c_type c -> step_ok c c' [].
Proof.
  intros O F Hn S Hh Hc Hr Hl Hm Hp Hd Ht. apply quiet_update; auto.
  constructor; cbn; try lia; [|done]. destruct F. constructor; try congruence; try lia.
Qed.

Lemma held_bound c : flow_ok c -> 0 <= zlen (output c) /\ 0 <= held c /\
  zlen (output c) <= held c /\ 0 <= local_consumed c /\ local_consumed c + held c < 2 ^ 32.
Proof.
  intros []. unfold held in *. pose proof (zlen_nonneg (output c)).
  pose proof (zlen_nonneg (extended c)). destruct (_ =? _); lia.
Qed.

Lemma rd_ok n (c v rest : bytes) : 0 <= n -> rd n c = Ok (v, rest) ->
  n <= zlen c /\ zlen rest = zlen c - n /\ c = v ++ rest /\ zlen v = n.
Proof.
  unfold rd. intros Hn. destruct (Z.ltb_spec (zlen c) n); [done|]. intros [= <- <-].
  split_and!; [lia| | |].
  - unfold zlen in *. rewrite length_drop. lia.
  - by rewrite take_drop.
  - unfold zlen in *. rewrite length_take. lia.
Qed.

Lemma efd_write_step isset res c : extended_usage c = CHAN_EXTENDED_WRITE ->
  chan_ok c -> flow_ok c ->
  post (channel_handle_efd_write isset res) c (fun _ c' ev => step_ok c c' ev).
Proof.
  intros U O F. unfold channel_handle_efd_write. apply post_get.
  assert (R : forall x : Z, post (mret x) c (fun _ c' ev => step_ok c c' ev))
    by (intros; by apply step_refl).
  pose proof (close_efd_step c O F) as CL.
  destruct (_ || _); [apply R|]. destruct res as [| | |n]; try done.
  destruct (Z.leb_spec n 0); [done|]. unfold consume_fatal. exec.
  destruct (rd n (extended c)) as [[v rest]|] eqn:E; [|done].
  apply rd_ok in E as (Hn & Hl & _); [|lia]. exec. cbn [app].
  pose proof (held_bound c F) as HB. unfold held in HB. rewrite U in HB. cbn in HB.
  eapply (consumed_step c _ n); try done; try lia; cbn.
  - unfold held. cbn. rewrite U. cbn. lia.
  - rewrite u32_small; lia.
Qed.

Lemma handle_efd_step a b c d : step_handler (channel_handle_efd a b c d).
Proof.
  apply step_get. intros ch O F. destruct (_ =? -1); [by apply step_refl|].
  destruct (Z.eqb_spec (extended_usage ch) CHAN_EXTENDED_WRITE) as [E|E].
  - by apply efd_write_step.
  - destruct (_ || _); [by apply efd_read_step|by apply step_refl].
Qed.

Lemma account_step c olen n c1 : chan_ok c -> flow_ok c -> olen = zlen (output c) ->
  0 <= n <= olen -> zlen (output c1) = olen - n ->
  c1 = set_output (output c1) c ->
  post (account_consumed olen) c1 (fun _ c' ev => step_ok c c' ev).
Proof.
  intros O F -> Hn Hl E. unfold account_consumed. exec. rewrite Hl.
  pose proof (held_bound c F) as HB.
  replace (zlen (output c) - (zlen (output c) - n)) with n by lia.
  rewrite u64_small, (u32_small n) by lia. rewrite E. cbn.
  apply (consumed_step c _ n); try done; try lia; cbn.
  - unfold held. cbn. lia.
  - apply u32_small. lia.
Qed.

Lemma handle_wfd_step isset noecho res :
  step_handler (channel_handle_wfd compat no_out isset noecho res).
Proof.
  apply step_get. intros c O F. cbv zeta.
  destruct (_ || _ || _); [by apply step_refl|].
  unfold out_data, no_out. apply post_bind, post_get. rewrite (fl_stream _ F).
  apply post_ret. cbn [app].
  assert (R : forall x : Z, post (mret x) c (fun _ c' ev => step_ok c c' ev))
    by (intros; by apply step_refl).
  pose proof (io_failed_step _ write_failed_step c O F) as IO.
  destruct res as [| | |n]; try done. destruct (Z.leb_spec n 0); [done|].
  unfold echo_ignore, consume_fatal. apply post_bind, post_bind, post_get.
  eapply (post_mono _ _ (fun _ c' ev => c' = c /\ sends ev = [])).
  { destruct (_ && _); cbn [whenb]; by split. }
  intros a c1 e1 [-> He]. apply post_get. destruct (rd n (output c)) as [[v rest]|] eqn:E; [|done].
  apply rd_ok in E as (Hn & Hl & _); [|lia]. apply post_modify.
  eapply post_mono; [eapply (account_step c _ n); auto; cbn; lia|].
  intros b c2 e2 S. rewrite app_nil_r.
  destruct S as [M Fl]. split.
  - destruct M. constructor; auto. by rewrite sends_app, He.
  - by rewrite sends_app, He.
Qed.

Lemma check_window_step : step_handler channel_check_window.
Proof.
  apply step_get. intros c O F. destruct (_ && _ && _ && _) eqn:E; cbn [whenb].
  2:{ apply post_ret_bind. by apply step_refl. }
  rewrite !andb_true_iff, negb_true_iff, has_flag_lor, orb_false_iff in E.
  destruct E as [[[_ [Ec _]] _] _]. unfold send. exec. cbn [app].
  pose proof (held_bound c F) as HB. pose proof F as [_ _ _ _ L1 L2 L3 L4].
  split.
  - apply core_step; [done|done| |].
    + unfold phase_of. rewrite Ec. by destruct (has_flag c CHAN_EOF_SENT).
    + cbn. intros m Hm%list_elem_of_singleton. eauto.
  - constructor; cbn; rewrite ?u32_small by lia; try lia.
    + destruct F. constructor; auto; cbn; rewrite ?u32_small by lia; try lia.
      unfold held in *. cbn. lia.
    + repeat constructor. cbn. lia.
Qed.

Lemma post_open_step a : step_handler (channel_post_open compat no_in no_out a).
Proof.
  apply step_bind; [apply handle_rfd_step|intros _].
  apply step_bind; [apply handle_wfd_step|intros _].
  apply step_bind; [apply handle_efd_step|intros _].
  apply step_bind; [apply check_window_step|intros _]. apply step_ret.
Qed.

Lemma pre_open_step : step_handler channel_pre_open.
Proof.
  apply step_get. intros c O F. cbv zeta. apply post_step_bind.
  - destruct (_ && _ && _ && _); [|by apply step_refl].
    by apply good_step_handler; [apply chan_obuf_empty_good|..].
  - intros _. apply step_get. intros c1 O1 F1.
    repeat match goal with |- post (if ?b then _ else _) _ _ => destruct b end;
      by apply step_refl.
Qed.

Lemma is_dead_step b : step_handler (chan_is_dead compat b).
Proof. apply good_step_handler, chan_is_dead_good. Qed.

(** Events that are no packets. *)
Lemma emit_step e : sends [e] = [] -> step_handler (emit e).
Proof.
  intros E c O F. apply post_emit. split; [by apply moves_core|].
  rewrite E. by apply flows_refl.
Qed.

Lemma whenb_step b m : step_handler m -> step_handler (whenb b m).
Proof. intros H. destruct b; [done|apply step_ret]. Qed.

Lemma cancel_cleanup_step : step_handler cancel_cleanup.
Proof.
  intros c O F. apply post_modify. apply quiet_update; auto; [done|].
  constructor; cbn; auto; try lia. destruct F. by constructor.
Qed.

Lemma garbage_collect_step : step_handler (channel_garbage_collect compat cancel_cleanup).
Proof.
  assert (C : step_handler (dead ← chan_is_dead compat true; whenb dead (emit EvFree))).
  { apply step_bind; [apply is_dead_step|]. intros d. by apply whenb_step, emit_step. }
  apply step_get. intros c O F. destruct (detach_user c); [|by apply C].
  apply post_step_bind; [by apply is_dead_step|]. intros d.
  destruct (negb d); [apply step_ret|].
  apply step_bind; [by apply emit_step|intros _].
  apply step_bind; [apply cancel_cleanup_step|intros _].
  apply step_get. intros c1 O1 F1. destruct (detach_user c1); [by apply step_refl|].
  by apply C.
Qed.

(** ** Sending *)

Lemma can_send c : chan_ok c -> has_flag c (Z.lor CHAN_CLOSE_SENT CHAN_CLOSE_RCVD) = false ->
  istate c = CHAN_INPUT_OPEN \/ istate c = CHAN_INPUT_WAIT_DRAIN \/
    has_flag c CHAN_EOF_SENT = false ->
  phase_of c = PData.
Proof.
  intros O E Hi. rewrite has_flag_lor, orb_false_iff in E. unfold phase_of.
  rewrite (proj1 E). destruct (has_flag c CHAN_EOF_SENT) eqn:Ee; [|done].
  pose proof (ok_eof _ O Ee). destruct Hi as [?|[?|?]]; [chan_lia|chan_lia|done].
Qed.

(** Data moves from a buffer that does not count against the window to the wire. *)
Lemma sent_step c c' ev n : chan_ok c -> flow_ok c -> phase_of c = PData ->
  0 <= n <= remote_window c -> same_core c c' ->
  c' = set_remote_window (u32 (remote_window c - n)) c' ->
  held c' = held c -> local_consumed c' = local_consumed c ->
  local_window c' = local_window c -> local_window_max c' = local_window_max c ->
  remote_maxpacket c' = remote_maxpacket c -> datagram c' = datagram c ->
  c_type c' = c_type c ->
  (exists v, zlen v = n /\ (sends ev = [MSG_CHANNEL_DATA v] \/
     exists t, sends ev = [MSG_CHANNEL_EXTENDED_DATA t v])) -> step_ok c c' ev.
Proof.
  intros O F P Hn S Hr Hh Hc Hl Hm Hp Hd Ht (v & Hv & Hs).
  assert (Er : remote_window c' = remote_window c - n).
  { rewrite Hr. cbn. apply u32_small. destruct F. lia. }
  split.
  - apply core_step; [done|done|congruence|]. intros m. rewrite P.
    destruct Hs as [->|[t ->]]; intros ->%list_elem_of_singleton; right; split; eauto.
  - destruct F. constructor; cbn.
    + constructor; try congruence; lia.
    + destruct Hs as [->|[t ->]]; cbn; lia.
    + destruct Hs as [->|[t ->]]; cbn; lia.
    + done.
    + destruct Hs as [->|[t ->]]; repeat constructor; done.
Qed.

Lemma zlen_take_le (n : Z) (v : bytes) : 0 <= n <= zlen v -> zlen (take (Z.to_nat n) v) = n.
Proof. unfold zlen. rewrite length_take. lia. Qed.

Lemma poll_input_step c : chan_ok c -> flow_ok c -> phase_of c = PData ->
  post channel_output_poll_input_open c (fun _ c' ev => step_ok c c' ev).
Proof.
  intros O F P. unfold channel_output_poll_input_open. apply post_get. cbv zeta.
  destruct (Z.eqb_spec (zlen (input c)) 0).
  { apply whenb_step; auto. apply good_step_handler, chan_ibuf_empty_good. }
  destruct (negb _); [done|]. rewrite (fl_stream _ F).
  set (len := Z.min (Z.min (zlen (input c)) (remote_window c)) (remote_maxpacket c)).
  pose proof (zlen_nonneg (input c)). pose proof (fl_rw _ F). pose proof (fl_rmax _ F).
  destruct (Z.eqb_spec len 0); [by apply step_refl|].
  unfold send, consume_fatal. exec.
  destruct (rd len (input c)) as [[v rest]|] eqn:E; [|done]. exec. cbn [app].
  apply rd_ok in E as (Hn & Hl & Hv & Hz); [|lia].
  eapply (sent_step c _ _ len); try done; [lia|].
  eexists. split; [|by left]. apply zlen_take_le. lia.
Qed.

Lemma poll_extended_step c : chan_ok c -> flow_ok c -> phase_of c = PData ->
  extended_usage c = CHAN_EXTENDED_READ ->
  post channel_output_poll_extended_read c (fun _ c' ev => step_ok c c' ev).
Proof.
  intros O F P U. unfold channel_output_poll_extended_read. apply post_get. cbv zeta.
  set (len := Z.min (Z.min (zlen (extended c)) (remote_window c)) (remote_maxpacket c)).
  pose proof (zlen_nonneg (extended c)). pose proof (fl_rw _ F). pose proof (fl_rmax _ F).
  destruct (Z.eqb_spec len 0); [by apply step_refl|].
  unfold send, consume_fatal. exec.
  destruct (rd len (extended c)) as [[v rest]|] eqn:E; [|done]. exec. cbn [app].
  eapply (sent_step c _ _ len); try done; [lia| |]; cbn.
  - unfold held. cbn. by rewrite U.
  - eexists. split; [|right; by eexists]. apply zlen_take_le. lia.
Qed.

(** Polling the input does not close a channel, so the extended data may follow. *)
Lemma poll_flags c : post channel_output_poll_input_open c (fun _ c' _ =>
  has_flag c' CHAN_CLOSE_SENT = has_flag c CHAN_CLOSE_SENT /\
  has_flag c' CHAN_CLOSE_RCVD = has_flag c CHAN_CLOSE_RCVD /\
  extended_usage c' = extended_usage c).
Proof.
  assert (H : forall b, has_flag (set_flags (Z.lor (flags c) CHAN_EOF_SENT) c) b =
    has_flag c b || negb (Z.land CHAN_EOF_SENT b =? 0)) by (intros; apply has_flag_add).
  unfold channel_output_poll_input_open, chan_ibuf_empty, chan_send_eof2, send, add_flag,
    chan_set_istate, consume_fatal.
  exec; try done.
  - split_and!; cbn; [..|done]; change (has_flag (set_istate ?n ?d) ?f) with (has_flag d f);
      rewrite H; cbn; by rewrite orb_false_r.
  - destruct (rd_string _) as [[pkt rest]|]; [|done]. exec; by split_and!.
  - destruct (rd _ _) as [[v rest]|]; [|done]. exec. by split_and!.
Qed.

Lemma output_poll_step : step_handler channel_output_poll.
Proof.
  apply step_get. intros c O F. destruct (negb _); [by apply step_refl|].
  destruct (has_flag c (Z.lor CHAN_CLOSE_SENT CHAN_CLOSE_RCVD)) eqn:Ef; [by apply step_refl|].
  assert (G : post (whenb ((istate c =? CHAN_INPUT_OPEN) || (istate c =? CHAN_INPUT_WAIT_DRAIN))
      channel_output_poll_input_open) c
    (fun _ c' ev => step_ok c c' ev /\ has_flag c' CHAN_CLOSE_SENT = false /\
       has_flag c' CHAN_CLOSE_RCVD = false)).
  { assert (Ef' := Ef). rewrite has_flag_lor, orb_false_iff in Ef'.
    destruct (_ || _) eqn:Ei; cbn [whenb]; [|by split; [apply step_refl|]].
    rewrite orb_true_iff, !Z.eqb_eq in Ei.
    pose proof (poll_flags c) as P1.
    pose proof (poll_input_step c O F (can_send c O Ef ltac:(tauto))) as P2.
    unfold post in *. destruct (channel_output_poll_input_open c) as [[[a c1] e1]|]; [|done].
    destruct P1 as (-> & -> & _). by split. }
  apply post_bind. eapply post_mono; [exact G|]. intros a c1 e1 (S1 & F1 & F2).
  apply post_get. destruct S1 as [M1 W1]. pose proof (mv_ok _ _ _ M1). pose proof (fw_ok _ _ _ W1).
  destruct (_ && _) eqn:Eg; cbn [whenb].
  - rewrite andb_true_iff, negb_true_iff, Z.eqb_eq in Eg. destruct Eg as [Eg1 Eg2].
    eapply post_mono; [apply poll_extended_step; auto|].
    + apply can_send; auto. by rewrite has_flag_lor, F1, F2.
    + intros b c2 e2 S2. exact (step_trans _ _ _ _ _ (conj M1 W1) S2).
  - apply post_ret. exact (step_trans _ _ _ _ _ (conj M1 W1) (step_refl _ ltac:(done) ltac:(done))).
Qed.

(** ** Receiving *)

(** What the handler of a packet does when the peer respected the window. *)
Record receives (m : msg) (c c' : Channel) (ev : list event) : Prop := {
  rv_moves : moves c c' ev;
  rv_ok : flow_ok c';
  rv_rw : remote_window c' + total msg_data (sends ev) = remote_window c + msg_adjust m;
  rv_lw : local_window c - msg_data m + total msg_adjust (sends ev) <= local_window c';
  rv_max : local_window_max c' = local_window_max c;
  rv_pos : Forall (fun m => 0 <= msg_adjust m) (sends ev)
}.

(** The peer may send [m] now: its data fits the window, an adjustment does not
    overflow. *)
Definition admissible (m : msg) (c : Channel) : Prop :=
  msg_data m <= local_window c /\ 0 <= msg_adjust m /\
  remote_window c + msg_adjust m < 2 ^ 32.

Lemma receives_step m c c' ev : msg_data m = 0 -> msg_adjust m = 0 -> step_ok c c' ev ->
  receives m c c' ev.
Proof. intros Hd Ha [M []]. constructor; auto; lia. Qed.

Lemma open_public c : flow_ok c -> channel_lookup c = true.
Proof. intros F. unfold channel_lookup. by rewrite (fl_open _ F). Qed.

Lemma open_type c : flow_ok c -> (c_type c =? SSH_CHANNEL_OPEN) = true.
Proof. intros F. by rewrite (fl_open _ F). Qed.

Lemma proxy_none m c : flow_ok c -> channel_proxy_upstream m c = Some (false, c, []).
Proof.
  intros F. unfold channel_proxy_upstream, mbind, CM_bind, getc. by rewrite (fl_open _ F).
Qed.

Lemma proxy_open m c f Q : flow_ok c -> post (f false) c Q ->
  post (channel_proxy_upstream m ≫= f) c (Q : unit -> Channel -> list event -> Prop).
Proof.
  intros F H. apply post_bind. unfold post at 1. rewrite (proxy_none m c F).
  eapply post_mono; [exact H|]. auto.
Qed.

(** A change of data and windows without packets. *)
Lemma receives_update m c c' : chan_ok c -> same_core c c' -> flow_ok c' ->
  remote_window c' = remote_window c + msg_adjust m ->
  local_window c - msg_data m <= local_window c' ->
  local_window_max c' = local_window_max c -> receives m c c' [].
Proof.
  intros O S F Hr Hl Hm. constructor; cbn; auto; try lia. by apply moves_core.
Qed.

Lemma input_data_receives v c : chan_ok c -> flow_ok c -> zlen v <= local_window c ->
  post (channel_input_data v) c (fun _ c' ev => receives (MSG_CHANNEL_DATA v) c c' ev).
Proof.
  intros O F Hv. unfold channel_input_data. apply post_get. rewrite (open_public _ F).
  cbn [negb]. apply proxy_open; [done|]. cbv zeta. rewrite (fl_stream _ F), (open_type _ F).
  cbn [negb andb].
  assert (R : forall x : unit, post (mret x) c
    (fun _ c' ev => receives (MSG_CHANNEL_DATA v) c c' ev)).
  { intros. apply post_ret. pose proof (zlen_nonneg v).
    by apply receives_update; cbn; auto; try lia. }
  pose proof (zlen_nonneg v). pose proof (held_bound c F) as HB.
  destruct F as [F1 F2 F3 F4 F5 F6 F7 F8].
  destruct (negb _).
  { exec. apply receives_update; cbn; auto; try lia; try done; [|rewrite u32_small; lia].
    constructor; cbn; rewrite ?u32_small by lia; auto; try lia. unfold held in *. cbn. lia. }
  destruct (_ >? _); [apply R|]. destruct (_ >? _); [apply R|].
  unfold put_fatal. exec. unfold q_put. destruct (_ >? _); [done|]. exec.
  apply receives_update; cbn; auto; try lia; try done; [|rewrite u32_small; lia].
  constructor; cbn; rewrite ?u32_small by lia; auto; try lia.
  unfold held in *. cbn. rewrite zlen_app. destruct (_ =? _); lia.
Qed.

Lemma input_extended_receives t v c : chan_ok c -> flow_ok c -> zlen v <= local_window c ->
  post (channel_input_extended_data compat t v) c
    (fun _ c' ev => receives (MSG_CHANNEL_EXTENDED_DATA t v) c c' ev).
Proof.
  intros O F Hv. unfold channel_input_extended_data. apply post_get. rewrite (open_public _ F).
  cbn [negb]. apply proxy_open; [done|]. rewrite (open_type _ F). cbn [negb].
  pose proof (zlen_nonneg v).
  assert (R : forall x : unit, post (mret x) c
    (fun _ c' ev => receives (MSG_CHANNEL_EXTENDED_DATA t v) c c' ev)).
  { intros. apply post_ret. by apply receives_update; cbn; auto; try lia. }
  pose proof (held_bound c F) as HB. destruct F as [F1 F2 F3 F4 F5 F6 F7 F8].
  destruct (_ && _); [done|]. destruct (_ || _ || _) eqn:Eb; [apply R|].
  rewrite !orb_false_iff, !negb_false_iff, !Z.eqb_eq in Eb. destruct Eb as [[_ U] _].
  destruct (_ >? _); [apply R|].
  unfold q_put. destruct (_ >? _); exec.
  - constructor; cbn; try lia; auto; [by apply moves_core| |rewrite u32_small; lia].
    constructor; cbn; rewrite ?u32_small by lia; auto; try lia. unfold held in *. cbn. lia.
  - apply receives_update; cbn; auto; try lia; try done; [|rewrite u32_small; lia].
    constructor; cbn; rewrite ?u32_small by lia; auto; try lia.
    unfold held in *. cbn. rewrite U in *. cbn in *. rewrite zlen_app. lia.
Qed.

Lemma input_adjust_receives n c : chan_ok c -> flow_ok c -> 0 <= n ->
  remote_window c + n < 2 ^ 32 ->
  exists c', channel_input_window_adjust n c = Some (tt, c', []) /\
    receives (MSG_CHANNEL_WINDOW_ADJUST n) c c' [].
Proof.
  intros O F Hn Hr. exists (set_remote_window (remote_window c + n) c).
  unfold channel_input_window_adjust, mbind, CM_bind, getc, modify.
  rewrite (open_public _ F). cbn [negb]. rewrite (proxy_none _ _ F).
  pose proof (fl_rw _ F). rewrite u32_small by lia.
  destruct (Z.ltb_spec (remote_window c + n) (remote_window c)); [lia|]. split; [done|].
  apply receives_update; cbn; auto; try lia; [done|].
  destruct F. constructor; cbn; auto; lia.
Qed.

Lemma input_ieof_step : step_handler channel_input_ieof.
Proof.
  apply step_get. intros c O F. rewrite (open_public _ F). cbn [negb].
  apply proxy_open; [done|]. apply post_step_bind.
  { by apply good_step_handler; [apply chan_rcvd_ieof_good|..]. }
  intros _. apply step_get. clear c O F. intros c O F.
  destruct (_ && _) eqn:E; cbn [whenb]; [|by apply step_refl].
  rewrite andb_true_iff, Z.eqb_eq in E. destruct E as [_ E].
  apply post_step_bind.
  - apply post_modify. apply good_step; [done|].
    apply good_set_istate; auto using quiet_refl. chan_lia.
  - intros _. apply step_get. intros c1 O1 F1.
    apply whenb_step; auto. apply good_step_handler, chan_ibuf_empty_good.
Qed.

Lemma input_oclose_step : step_handler channel_input_oclose.
Proof.
  apply step_get. intros c O F. rewrite (open_public _ F). cbn [negb].
  apply proxy_open; [done|]. by apply good_step_handler; [apply chan_rcvd_oclose_good|..].
Qed.

Lemma input_eow_step : step_handler (dispatch compat MSG_CHANNEL_EOW).
Proof.
  apply step_get. intros c O F. rewrite (open_public _ F). cbn [negb].
  by apply good_step_handler; [apply chan_rcvd_eow_good|..].
Qed.

Lemma dispatch_receives m c : chan_ok c -> flow_ok c -> admissible m c ->
  post (dispatch compat m) c (fun _ c' ev => receives m c c' ev).
Proof.
  intros O F (Hd & Ha & Hw).
  assert (S : forall h : CM unit, step_handler h -> msg_data m = 0 -> msg_adjust m = 0 ->
    post h c (fun _ c' ev => receives m c c' ev)).
  { intros h H Z1 Z2. eapply post_mono; [by apply H|]. intros. by apply receives_step. }
  destruct m; cbn [dispatch].
  - by apply input_data_receives.
  - by apply input_extended_receives.
  - destruct (input_adjust_receives n c O F Ha Hw) as (c' & E & R). unfold post. by rewrite E.
  - by apply S; [apply input_ieof_step|..].
  - by apply S; [apply input_oclose_step|..].
  - by apply S; [apply input_eow_step|..].
Qed.
End data.
