(* ===== verification/ChanSys.v ===== *)
(** Two ends of a channel and the packets between them. *)

From Stdlib Require Import Strings.String.
From S2P Require Import Prelude SshErr Wire SshQueue Channel ChanInv ChanFlow.

(** ** Steps *)

(** What an end does on its own: before and after poll(2), sending what is buffered,
    collecting itself. *)
Inductive action := A_pre | A_post (a : io) | A_poll | A_gc.

Definition run_action (compat : Z) (x : action) : CM unit :=
  match x with
  | A_pre => _ ← channel_pre_open; mret tt
  | A_post a => channel_post_open compat no_in no_out a
  | A_poll => channel_output_poll
  | A_gc => channel_garbage_collect compat cancel_cleanup
  end.

(** One step of an end: its channel, its incoming packets, what it sends. *)
Inductive end_step (compat : Z) :
    Channel -> list msg -> Channel -> list msg -> list msg -> Prop :=
| es_action x c q c' ev : run_action compat x c = Some (tt, c', ev) ->
    end_step compat c q c' q (sends ev)
| es_packet m c q c' ev : dispatch compat m c = Some (tt, c', ev) ->
    end_step compat c (m :: q) c' q (sends ev).

(** The two ends, the packets on their way, and all that was sent so far. *)
Record sys := mk_sys {
  chA : Channel; chB : Channel;
  toA : list msg; toB : list msg;
  sentA : list msg; sentB : list msg
}.

Inductive sys_step (cA cB : Z) : sys -> sys -> Prop :=
| step_A s c' q' out : end_step cA (chA s) (toA s) c' q' out ->
    sys_step cA cB s
      (mk_sys c' (chB s) q' (toB s ++ out) (sentA s ++ out) (sentB s))
| step_B s c' q' out : end_step cB (chB s) (toB s) c' q' out ->
    sys_step cA cB s
      (mk_sys (chA s) c' (toA s ++ out) q' (sentA s) (sentB s ++ out)).

Inductive reachable (cA cB : Z) (s0 : sys) : sys -> Prop :=
| reach_start : reachable cA cB s0 s0
| reach_step s s' : reachable cA cB s0 s -> sys_step cA cB s s' -> reachable cA cB s0 s'.

(** ** The invariant *)

(** From the sender to the receiver: the sender's window, the data in flight and the
    announcements in flight never exceed the receiver's window. *)
Definition credit (snd rcv : Channel) (to_rcv to_snd : list msg) : Prop :=
  remote_window snd + total msg_data to_rcv + total msg_adjust to_snd <= local_window rcv.

Definition positive (q : list msg) : Prop := Forall (fun m => 0 <= msg_adjust m) q.

(** A freshly opened channel. *)
Record opened (s : sys) : Prop := {
  op_okA : chan_ok (chA s); op_okB : chan_ok (chB s);
  op_flowA : flow_ok (chA s); op_flowB : flow_ok (chB s);
  op_newA : phase_of (chA s) = PData; op_newB : phase_of (chB s) = PData;
  op_AB : remote_window (chA s) <= local_window (chB s);
  op_BA : remote_window (chB s) <= local_window (chA s);
  op_empty : toA s = [] /\ toB s = [] /\ sentA s = [] /\ sentB s = []
}.

Record sys_ok (s : sys) : Prop := {
  so_okA : chan_ok (chA s); so_okB : chan_ok (chB s);
  so_flowA : flow_ok (chA s); so_flowB : flow_ok (chB s);
  so_AB : credit (chA s) (chB s) (toB s) (toA s);
  so_BA : credit (chB s) (chA s) (toA s) (toB s);
  so_posA : positive (toA s); so_posB : positive (toB s);
  so_sentA : proto_run PData (sentA s) = Some (phase_of (chA s));
  so_sentB : proto_run PData (sentB s) = Some (phase_of (chB s))
}.

Lemma total_data_nonneg q : 0 <= total msg_data q.
Proof.
  induction q as [|m q IH]; cbn; [lia|].
  destruct m; cbn; try lia; pose proof (zlen_nonneg v); lia.
Qed.

Lemma total_adjust_nonneg q : positive q -> 0 <= total msg_adjust q.
Proof. induction 1; cbn; lia. Qed.

Lemma run_action_step compat x : step_handler (run_action compat x).
Proof.
  destruct x; cbn [run_action].
  - apply step_bind; [apply pre_open_step|intros _; apply step_ret].
  - apply post_open_step.
  - apply output_poll_step.
  - apply garbage_collect_step.
Qed.

(** What one step of the end [c] does, [o] being the other end. *)
Record end_ok (c o : Channel) (q qo : list msg) (c' : Channel) (q' out : list msg)
    : Prop := {
  eo_ok : chan_ok c'; eo_flow : flow_ok c';
  eo_out : credit c' o (qo ++ out) q';
  eo_in : credit o c' q' (qo ++ out);
  eo_pos : positive q' /\ positive (qo ++ out);
  eo_proto : proto_run (phase_of c) out = Some (phase_of c')
}.

Lemma end_step_ok compat c o q qo c' q' out :
  chan_ok c -> flow_ok c -> flow_ok o -> credit c o qo q -> credit o c q qo ->
  positive q -> positive qo -> end_step compat c q c' q' out ->
  end_ok c o q qo c' q' out.
Proof.
  intros O F Fo Cr Cr' Pq Pqo St. destruct St as [x c q c' ev E|m c q c' ev E].
  - pose proof (run_action_step compat x c O F) as S. unfold post in S. rewrite E in S.
    destruct S as [M [W1 W2 W3 W4 W5]]. unfold credit in *.
    pose proof (mv_ok _ _ _ M). pose proof (mv_proto _ _ _ M).
    constructor; unfold credit; rewrite ?total_app; auto; try lia.
    split; [done|]. by apply Forall_app.
  - inversion Pq as [|? ? Pm Pq']; subst.
    assert (A : admissible m c).
    { unfold admissible, credit in *. cbn in Cr, Cr'.
      pose proof (total_data_nonneg q). pose proof (total_data_nonneg qo).
      pose proof (total_adjust_nonneg q Pq'). pose proof (total_adjust_nonneg qo Pqo).
      destruct Fo, F. pose proof (held_bound o ltac:(by constructor)). split_and!; lia. }
    pose proof (dispatch_receives compat m c O F A) as R. unfold post in R. rewrite E in R.
    destruct R as [M W1 W2 W3 W4 W5]. unfold credit in *. cbn in Cr, Cr'.
    pose proof (mv_ok _ _ _ M). pose proof (mv_proto _ _ _ M).
    constructor; unfold credit; rewrite ?total_app; auto; try lia.
    split; [done|]. by apply Forall_app.
Qed.

Lemma sys_step_ok cA cB s s' : sys_ok s -> sys_step cA cB s s' -> sys_ok s'.
Proof.
  intros [A1 A2 A3 A4 A5 A6 A7 A8 A9 A10] St. destruct St as [s c' q' out E|s c' q' out E].
  - destruct (end_step_ok cA _ (chB s) _ (toB s) _ _ _ A1 A3 A4 A5 A6 A7 A8 E)
      as [H1 H2 H3 H4 [H5 H6] H7].
    constructor; cbn; auto. by rewrite proto_run_app, A9.
  - destruct (end_step_ok cB _ (chA s) _ (toA s) _ _ _ A2 A4 A3 A6 A5 A8 A7 E)
      as [H1 H2 H3 H4 [H5 H6] H7].
    constructor; cbn; auto. by rewrite proto_run_app, A10.
Qed.

Lemma reachable_ok cA cB s0 s : opened s0 -> reachable cA cB s0 s -> sys_ok s.
Proof.
  intros Op. induction 1 as [|s s' _ IH St]; [|by eapply sys_step_ok].
  destruct Op as [B1 B2 B3 B4 B5 B6 B7 B8 (E1 & E2 & E3 & E4)].
  constructor; unfold credit; rewrite ?E1, ?E2, ?E3, ?E4, ?B5, ?B6; cbn; auto; try lia;
    constructor.
Qed.

(** What the protocol forbids. *)
Lemma proto_after_close p ms1 ms2 : proto_run p (ms1 ++ MSG_CHANNEL_CLOSE :: ms2) <> None ->
  ms2 = [].
Proof.
  rewrite proto_run_app. destruct (proto_run p ms1) as [p1|]; [|done]. cbn.
  destruct p1; cbn; [| |done]; by destruct ms2.
Qed.

Lemma proto_peof ms : proto_run PEof ms <> None ->
  Forall (fun m => msg_data m = 0 /\ m <> MSG_CHANNEL_EOF) ms.
Proof.
  induction ms as [|m ms IH]; [constructor|]. cbn. destruct m; try done; intros H.
  - constructor; auto.
  - constructor; [done|]. by destruct ms.
  - constructor; auto.
Qed.

Lemma proto_after_eof p ms1 ms2 : proto_run p (ms1 ++ MSG_CHANNEL_EOF :: ms2) <> None ->
  Forall (fun m => msg_data m = 0 /\ m <> MSG_CHANNEL_EOF) ms2.
Proof.
  rewrite proto_run_app. destruct (proto_run p ms1) as [p1|]; [|done]. cbn.
  destruct p1; cbn; try done. apply proto_peof.
Qed.

(** ** A concrete channel *)

(** A channel of the given kind, opened and confirmed. *)
Definition open_channel (r w e usage window maxpack : Z) : Channel :=
  match channel_new (fun _ => false) "session" SSH_CHANNEL_OPENING r w e window maxpack usage 1
          channel_zero with
  | Some (_, c, _) =>
    match channel_input_open_confirmation None 0 window maxpack c with
    | Some (_, c, _) => c
    | None => channel_zero
    end
  | None => channel_zero
  end.

(** A server session (stdin, stdout, stderr of the command) and its client. *)
Definition session : sys :=
  mk_sys (open_channel 5 6 7 CHAN_EXTENDED_READ 2097152 32768)
         (open_channel 0 1 2 CHAN_EXTENDED_WRITE 2097152 32768) [] [] [] [].

Lemma session_opened : opened session.
Proof.
  constructor; try (vm_compute; done); constructor; vm_compute; auto; try done.
Qed.

(** The command writes "hello" and ends; the client delivers it. *)
Definition session_run : sys :=
  let rd v := mk_io true (R_DATA v) false W_ERR false false R_ERR false W_ERR in
  let step1 c x := match run_action SSH_NEW_OPENSSH x c with
                   | Some (_, c', ev) => (c', sends ev) | None => (c, []) end in
  let (c1, o1) := step1 (chA session) (A_post (rd (lit "hello"))) in
  let (c2, o2) := step1 c1 A_poll in
  mk_sys c2 (chB session) [] ([] ++ o1 ++ o2) ([] ++ o1 ++ o2) [].

Lemma session_run_reachable : reachable SSH_NEW_OPENSSH 0 session session_run.
Proof.
  unfold session_run.
  destruct (run_action SSH_NEW_OPENSSH _ (chA session)) as [[[[] c1] e1]|] eqn:E1;
    [|vm_compute in E1; discriminate E1].
  destruct (run_action SSH_NEW_OPENSSH A_poll c1) as [[[[] c2] e2]|] eqn:E2.
  2:{ vm_compute in E1. injection E1 as <- <-. vm_compute in E2. discriminate E2. }
  rewrite (app_assoc [] (sends e1) (sends e2)).
  apply (reach_step _ _ _ (mk_sys c1 (chB session) [] ([] ++ sends e1) ([] ++ sends e1) [])).
  - eapply reach_step; [apply reach_start|].
    apply (step_A _ _ session c1 [] (sends e1)). eapply es_action, E1.
  - apply (step_A _ _ (mk_sys c1 (chB session) [] ([] ++ sends e1) ([] ++ sends e1) [])
      c2 [] (sends e2)). eapply es_action, E2.
Qed.

(** ** Theorems *)



(** Claim C12.  Each end sends at most one EOF and no data after it, at most one CLOSE and
    nothing at all after it, and a CLOSE is sent only when both halves of the channel
    are closed. *)
Theorem close_handshake cA cB s0 s (Hopen : opened s0) (Hs : reachable cA cB s0 s) :
  (forall ms1 ms2, sentA s = ms1 ++ MSG_CHANNEL_CLOSE :: ms2 -> ms2 = []) /\
  (forall ms1 ms2, sentA s = ms1 ++ MSG_CHANNEL_EOF :: ms2 ->
     Forall (fun m => msg_data m = 0 /\ m <> MSG_CHANNEL_EOF) ms2) /\
  (MSG_CHANNEL_CLOSE ∈ sentA s ->
     istate (chA s) = CHAN_INPUT_CLOSED /\ ostate (chA s) = CHAN_OUTPUT_CLOSED) /\
  istate (chA s) <> CHAN_INPUT_WAIT_OCLOSE /\ ostate (chA s) <> CHAN_OUTPUT_WAIT_IEOF.
Proof.
  destruct (reachable_ok cA cB s0 s Hopen Hs) as [A1 _ _ _ _ _ _ _ A9 _].
  split_and!.
  - intros ms1 ms2 E. apply (proto_after_close PData ms1). by rewrite <- E, A9.
  - intros ms1 ms2 E. apply (proto_after_eof PData ms1). by rewrite <- E, A9.
  - intros (ms1 & ms2 & E)%list_elem_of_split. assert (ms2 = []) as ->.
    { apply (proto_after_close PData ms1). by rewrite <- E, A9. }
    rewrite E, proto_run_app in A9. destruct (proto_run PData ms1) as [p|]; [|done].
    cbn in A9. assert (phase_of (chA s) = PClosed) as P by (destruct p; cbn in A9; congruence).
    apply (ok_close _ A1). unfold phase_of in P.
    destruct (has_flag (chA s) CHAN_CLOSE_SENT); [done|].
    by destruct (has_flag (chA s) CHAN_EOF_SENT).
  - destruct A1 as [[H|[H|H]] _ _ _]; by rewrite H.
  - destruct A1 as [_ [H|[H|H]] _ _]; by rewrite H.
Qed.

Lemma close_handshake_witness :
  sentA session_run = [MSG_CHANNEL_DATA (lit "hello")] /\
  istate (chA session_run) <> CHAN_INPUT_WAIT_OCLOSE.
Proof.
  split; [vm_compute; reflexivity|].
  apply (close_handshake SSH_NEW_OPENSSH 0 session session_run session_opened
    session_run_reachable).
Defined.

(** [channel_output_poll_input_open] on an open stream channel sends exactly
    the longest prefix of the buffered input that fits the remote window and packet
    size, in one packet, and keeps the rest: no byte is lost, repeated or reordered. *)
Lemma poll_sends_prefix c (Hid : have_remote_id c = true) (Hs : datagram c = false)
    (Hi : input c <> []) (Hw : 0 < remote_window c < 2 ^ 32) (Hm : 0 < remote_maxpacket c) :
  exists v c', channel_output_poll_input_open c =
      Some (tt, c', [EvSend (remote_id c) (MSG_CHANNEL_DATA v)]) /\
    input c = v ++ input c' /\
    zlen v = Z.min (zlen (input c)) (Z.min (remote_window c) (remote_maxpacket c)) /\
    remote_window c' = remote_window c - zlen v.
Proof.
  unfold channel_output_poll_input_open, send, consume_fatal, mbind, CM_bind, getc, modify,
    emit. rewrite Hid, Hs. cbn [negb].
  pose proof (zlen_nonneg (input c)) as Hn.
  destruct (Z.eqb_spec (zlen (input c)) 0) as [E|N]; [by apply zlen_0_nil in E|].
  set (len := Z.min (Z.min (zlen (input c)) (remote_window c)) (remote_maxpacket c)).
  destruct (Z.eqb_spec len 0); [lia|].
  assert (E : (zlen (input c) <? len) = false) by (apply Z.ltb_ge; lia).
  rewrite Hid. unfold rd. cbn [negb]. rewrite E.
  eexists (take (Z.to_nat len) (input c)), _. split; [reflexivity|]. cbn.
  rewrite zlen_take_le by lia. split_and!; [by rewrite take_drop|lia|].
  rewrite u32_small; lia.
Qed.


(** ** Datagram channels *)

(** One datagram through a channel whose windows are [window]: the receiver writes it,
    announces the window and the sender takes the announcement. *)
Definition datagram_exchange (window : Z) (payload : bytes) (res : write_res)
    : option (Channel * Channel) :=
  let tun c := mk_Channel (c_type c) (remote_id c) (have_remote_id c) (istate c) (ostate c)
    (flags c) (rfd c) (wfd c) (efd c) (sock c) (isatty c) (force_drain c) (restore_block c)
    (input c) (output c) (extended c) (remote_window c) (remote_maxpacket c)
    (local_window c) (local_window_max c) (local_consumed c) (local_maxpacket c)
    (extended_usage c) "tun" (detach_user c) (detach_close c) true (mux_ctx c) in
  let a := tun (open_channel 5 5 (-1) CHAN_EXTENDED_IGNORE window 1000) in
  let b := tun (open_channel 6 6 (-1) CHAN_EXTENDED_IGNORE window 1000) in
  let ior := mk_io true (R_DATA payload) false W_ERR false false R_ERR false W_ERR in
  let iow := mk_io false R_ERR true res false false R_ERR false W_ERR in
  match channel_post_open 0 None None ior a with
  | None => None
  | Some (_, a, _) =>
    match channel_output_poll a with
    | Some (_, a, [EvSend _ (MSG_CHANNEL_DATA v)]) =>
      match channel_input_data v b with
      | None => None
      | Some (_, b, _) =>
        match channel_post_open 0 None None iow b with
        | Some (_, b, [EvSend _ (MSG_CHANNEL_WINDOW_ADJUST n)]) =>
          match channel_input_window_adjust n a with
          | Some (_, a, _) => Some (a, b)
          | None => None
          end
        | Some (_, b, _) => Some (a, b)
        | None => None
        end
      end
    | _ => None
    end
  end.

(** On datagram channels the two ends count differently: the sender takes the
    length of the datagram from its window, the receiver that length plus four, and
    announces the larger figure.  After one exchange on a window of 100 the sender
    believes it may send 104 bytes while the receiver still accepts 100; and when the
    write of the datagram would block, the receiver drops it without ever giving its
    window back. *)
Lemma datagram_windows_diverge :
  option_map (fun '(a, b) => (remote_window a, local_window b))
    (datagram_exchange 100 (zeros 60) (W_OK 60)) = Some (104, 100) /\
  option_map (fun '(a, b) => (local_window b, local_consumed b, output b))
    (datagram_exchange 100 (zeros 60) W_EAGAIN) = Some (36, 0, []).
Proof. by vm_compute. Qed.
