(* ===== verification/Compat.v ===== *)
(** The string functions of openbsd-compat, and the C library functions they and their
    callers use.

    A C string is a list of bytes without NUL.  [strlcpy] and [strlcat] are also modelled
    on memory: the source is the memory from the pointer on, the destination a buffer;
    [None] is an access outside of either. *)

From S2P Require Import Prelude.

(** ** The C library *)

Definition NUL : byte := x00.

Definition c_string (v : bytes) : Prop := NUL ∉ v.

Definition byte_eqb (a b : byte) : bool := bool_decide (a = b).

Lemma byte_eqb_spec a b : reflect (a = b) (byte_eqb a b).
Proof. unfold byte_eqb. apply bool_decide_reflect. Qed.

Definition chr (n : Z) : byte := byte_of_Z n.

(** [strlen] of memory: [None] when no NUL is found. *)
Fixpoint strlen (m : bytes) : option Z :=
  match m with
  | [] => None
  | c :: m => if byte_eqb c NUL then Some 0 else option_map (Z.add 1) (strlen m)
  end.

(** [strchr]: what precedes the first [c] and what follows it. *)
Fixpoint strchr (c : byte) (s : bytes) : option (bytes * bytes) :=
  match s with
  | [] => None
  | x :: s => if byte_eqb x c then Some ([], s)
              else option_map (fun '(a, b) => (x :: a, b)) (strchr c s)
  end.

Definition isspace (c : byte) : bool :=
  let v := byte_val c in (v =? 32) || ((9 <=? v) && (v <=? 13)).
Definition isdigit (c : byte) : bool :=
  let v := byte_val c in (48 <=? v) && (v <=? 57).
Definition isupper (c : byte) : bool :=
  let v := byte_val c in (65 <=? v) && (v <=? 90).
Definition tolower (c : byte) : byte :=
  if isupper c then byte_of_Z (byte_val c + 32) else c.
Definition toupper (c : byte) : byte :=
  let v := byte_val c in if (97 <=? v) && (v <=? 122) then byte_of_Z (v - 32) else c.

(** [strspn]. *)
Fixpoint strspn (s : bytes) (accept : bytes) : Z :=
  match s with
  | [] => 0
  | c :: s' => if bool_decide (c ∈ accept) then 1 + strspn s' accept else 0
  end.

Fixpoint skip_space (s : bytes) : bytes :=
  match s with
  | c :: s' => if isspace c then skip_space s' else s
  | [] => []
  end.

(** The decimal digits at the start of a string: their value, how many, the rest. *)
Fixpoint digits (acc : Z) (s : bytes) : Z * Z * bytes :=
  match s with
  | c :: s' => if isdigit c then
                 let '(v, n, r) := digits (acc * 10 + (byte_val c - 48)) s' in (v, n + 1, r)
               else (acc, 0, s)
  | [] => (acc, 0, [])
  end.

(** Sign and digits: is it negative, value, was there a digit, the rest. *)
Definition parse_int (s : bytes) : bool * Z * bool * bytes :=
  let s1 := skip_space s in
  let '(neg, s2) := match s1 with
                    | c :: r => if byte_eqb c (chr 45) then (true, r)
                                else if byte_eqb c (chr 43) then (false, r) else (false, s1)
                    | [] => (false, s1)
                    end in
  let '(v, n, rest) := digits 0 s2 in
  (neg, v, 0 <? n, if 0 <? n then rest else s).

Definition ULONG_MAX : Z := 2 ^ 64 - 1.
Definition LLONG_MIN : Z := - 2 ^ 63.
Definition LLONG_MAX : Z := 2 ^ 63 - 1.

(** [strtoul(s, &end, 10)] on 64 bits: the value and the string at [end]. *)
Definition strtoul (s : bytes) : Z * bytes :=
  let '(neg, v, found, rest) := parse_int s in
  if negb found then (0, s)
  else if v >? ULONG_MAX then (ULONG_MAX, rest)
  else (if neg then u64 (- v) else v, rest).

(** [strtoll(s, &end, 10)]: the value, out of range or not, whether a number was found,
    the string at [end]. *)
Definition strtoll (s : bytes) : Z * bool * bool * bytes :=
  let '(neg, v, found, rest) := parse_int s in
  let v := if neg then - v else v in
  if negb found then (0, false, false, s)
  else if v <? LLONG_MIN then (LLONG_MIN, true, true, rest)
  else if v >? LLONG_MAX then (LLONG_MAX, true, true, rest)
  else (v, false, true, rest).

(** ** strlcpy.c and strlcat.c, on memory *)

(** The copying loop: at most [n] bytes, up to and with a NUL.  What was written, whether
    the NUL was reached, the source that is left. *)
Fixpoint strlcpy_loop (n : nat) (s : bytes) : option (bytes * bool * bytes) :=
  match n with
  | O => Some ([], false, s)
  | S n =>
    match s with
    | [] => None
    | c :: s =>
      if byte_eqb c NUL then Some ([c], true, s)
      else '(w, f, r) ← strlcpy_loop n s; Some (c :: w, f, r)
    end
  end.

(** Write [w] at [o]; [None] outside the buffer. *)
Definition write_at (o : Z) (w : bytes) (dst : bytes) : option bytes :=
  if (0 <=? o) && (o + zlen w <=? zlen dst) then Some (blit o w dst) else None.

Definition strlcpy (dst src : bytes) (siz : Z) : option (bytes * Z) :=
  '(w, found, rest) ← (if siz =? 0 then Some ([], false, src)
                       else strlcpy_loop (Z.to_nat (siz - 1)) src);
  if (found : bool) then
    dst' ← write_at 0 w dst; Some (dst', zlen w - 1)
  else
    dst' ← write_at 0 (if siz =? 0 then [] else w ++ [NUL]) dst;
    n ← strlen rest;
    Some (dst', zlen w + n).

(** The loop that finds the end of [dst]: how far, at most [n]. *)
Fixpoint strlcat_end (n : nat) (d : bytes) : option Z :=
  match n with
  | O => Some 0
  | S n =>
    match d with
    | [] => None
    | c :: d => if byte_eqb c NUL then Some 0 else option_map (Z.add 1) (strlcat_end n d)
    end
  end.

(** The appending loop, [n] bytes being left in [dst] ([n > 0]): what is written and the
    length of [src]. *)
Fixpoint strlcat_loop (n : Z) (s : bytes) : option (bytes * Z) :=
  match s with
  | [] => None
  | c :: s =>
    if byte_eqb c NUL then Some ([NUL], 0)
    else
      '(w, k) ← strlcat_loop (if n =? 1 then n else n - 1) s;
      Some (if n =? 1 then w else c :: w, k + 1)
  end.

Definition strlcat (dst src : bytes) (siz : Z) : option (bytes * Z) :=
  dlen ← strlcat_end (Z.to_nat siz) dst;
  if siz - dlen =? 0 then n ← strlen src; Some (dst, dlen + n)
  else
    '(w, k) ← strlcat_loop (siz - dlen) src;
    dst' ← write_at dlen w dst; Some (dst', dlen + k).

(** ** The same on strings *)

(** The string [strlcpy] leaves in a buffer of [siz > 0] bytes, and its result. *)
Definition strlcpy_str (src : bytes) (siz : Z) : bytes * Z :=
  (take (Z.to_nat (siz - 1)) src, zlen src).

Definition strlcat_str (dst src : bytes) (siz : Z) : bytes * Z :=
  (dst ++ take (Z.to_nat (siz - 1 - zlen dst)) src, zlen dst + zlen src).

(** ** strsep.c *)

Fixpoint strsep_scan (delim s : bytes) : bytes * option bytes :=
  match s with
  | [] => ([], None)
  | c :: s =>
    if bool_decide (c ∈ delim) then ([], Some s)
    else let '(tok, rest) := strsep_scan delim s in (c :: tok, rest)
  end.

(** The token, and what [*stringp] becomes. *)
Definition strsep (stringp : option bytes) (delim : bytes)
    : option (bytes * option bytes) :=
  s ← stringp; Some (strsep_scan delim s).

(** All the tokens of [strsep] in a loop. *)
Fixpoint split_aux (fuel : nat) (stringp : option bytes) (delim : bytes) : list bytes :=
  match fuel with
  | O => []
  | S fuel =>
    match strsep stringp delim with
    | None => []
    | Some (tok, rest) => tok :: split_aux fuel rest delim
    end
  end.

Definition split (s delim : bytes) : list bytes :=
  split_aux (S (S (length s))) (Some s) delim.

(** ** strtonum.c *)

Inductive num_error := INVALID | TOOSMALL | TOOLARGE.

Definition strtonum (numstr : bytes) (minval maxval : Z) : Z + num_error :=
  if minval >? maxval then inr INVALID
  else
  let '(ll, erange, found, ep) := strtoll numstr in
  if negb found || negb (bool_decide (ep = [])) then inr INVALID
  else if ((ll =? LLONG_MIN) && erange) || (ll <? minval) then inr TOOSMALL
  else if ((ll =? LLONG_MAX) && erange) || (ll >? maxval) then inr TOOLARGE
  else inl ll.

(** ** timingsafe_bcmp.c *)

Fixpoint bcmp_loop (ret : Z) (b1 b2 : bytes) (n : nat) {struct n} : option Z :=
  match n with
  | O => Some ret
  | S n =>
    match b1, b2 with
    | c1 :: b1, c2 :: b2 =>
      bcmp_loop (Z.lor ret (Z.lxor (byte_val c1) (byte_val c2))) b1 b2 n
    | _, _ => None
    end
  end.

Definition timingsafe_bcmp (b1 b2 : bytes) (n : Z) : option Z :=
  ret ← bcmp_loop 0 b1 b2 (Z.to_nat n); Some (if ret =? 0 then 0 else 1).
