(* ===== verification/CompatThms.v ===== *)
(** Correctness of the openbsd-compat string functions. *)

From S2P Require Import Prelude Compat.

(** ** strlcpy and strlcat *)

Lemma c_string_cons c v : c_string (c :: v) <-> c <> NUL /\ c_string v.
Proof. unfold c_string. rewrite not_elem_of_cons. split; intros []; split; congruence. Qed.

Lemma byte_eqb_neq a b : a <> b -> byte_eqb a b = false.
Proof. intros. by destruct (byte_eqb_spec a b). Qed.

Lemma byte_eqb_refl a : byte_eqb a a = true.
Proof. by destruct (byte_eqb_spec a a). Qed.

Lemma strlen_string v junk : c_string v -> strlen (v ++ NUL :: junk) = Some (zlen v).
Proof.
  induction v as [|c v IH]; [done|]. intros [Hc Hv]%c_string_cons. cbn.
  rewrite byte_eqb_neq, IH by done. cbn. f_equal. rewrite zlen_cons. lia.
Qed.

Lemma strlcpy_loop_short n v junk : c_string v -> (length v < n)%nat ->
  strlcpy_loop n (v ++ NUL :: junk) = Some (v ++ [NUL], true, junk).
Proof.
  revert v. induction n as [|n IH]; intros v Hv Hn; [lia|].
  destruct v as [|c v]; [done|]. apply c_string_cons in Hv as [Hc Hv]. cbn in *.
  rewrite byte_eqb_neq, IH by (done || lia). done.
Qed.

Lemma strlcpy_loop_long n v junk : c_string v -> (n <= length v)%nat ->
  strlcpy_loop n (v ++ NUL :: junk) = Some (take n v, false, drop n v ++ NUL :: junk).
Proof.
  revert v. induction n as [|n IH]; intros v Hv Hn; [done|].
  destruct v as [|c v]; cbn in *; [lia|]. apply c_string_cons in Hv as [Hc Hv].
  rewrite byte_eqb_neq, IH by (done || lia). done.
Qed.

Lemma write_at_fits o w dst : 0 <= o -> o + zlen w <= zlen dst ->
  write_at o w dst = Some (blit o w dst).
Proof.
  intros. unfold write_at. destruct (Z.leb_spec 0 o); [|lia].
  by destruct (Z.leb_spec (o + zlen w) (zlen dst)); [|lia].
Qed.

Lemma c_string_drop n v : c_string v -> c_string (drop n v).
Proof.
  unfold c_string. intros H Hd. apply H. rewrite <- (take_drop n v), elem_of_app. auto.
Qed.

(** [strlcpy] of a NUL-terminated string into a buffer of [siz > 0] bytes never
    reads or writes outside them: it writes the longest prefix of at most [siz - 1]
    bytes and a NUL, leaves the rest of the buffer alone and returns the length of the
    source. *)
Theorem strlcpy_correct dst v junk siz (Hv : c_string v) (Hs : 0 < siz <= zlen dst) :
  strlcpy dst (v ++ NUL :: junk) siz =
    Some (blit 0 (fst (strlcpy_str v siz) ++ [NUL]) dst, snd (strlcpy_str v siz)).
Proof.
  unfold strlcpy, strlcpy_str. cbn [fst snd].
  destruct (Z.eqb_spec siz 0); [lia|].
  destruct (Z.lt_ge_cases (zlen v) (siz - 1)) as [H|H].
  - rewrite strlcpy_loop_short by (done || unfold zlen in H; lia). cbn.
    rewrite write_at_fits; [|lia|rewrite zlen_app; cbn; unfold zlen in *; cbn; lia]. cbn.
    rewrite take_ge by (unfold zlen in H; lia). repeat f_equal.
    rewrite zlen_app. change (zlen [NUL]) with 1. lia.
  - rewrite strlcpy_loop_long by (done || unfold zlen in H; lia). cbn.
    assert (E : zlen (take (Z.to_nat (siz - 1)) v) = siz - 1)
      by (unfold zlen in *; rewrite length_take; lia).
    rewrite write_at_fits; [|lia|rewrite zlen_app, E; change (zlen [NUL]) with 1; lia]. cbn.
    rewrite strlen_string by (by apply c_string_drop). cbn. repeat f_equal.
    rewrite <- (take_drop (Z.to_nat (siz - 1)) v) at 3. rewrite zlen_app. lia.
Qed.

Lemma strlcpy_correct_witness :
  c_string (lit "openssh") /\
  strlcpy (zeros 5) (lit "openssh" ++ NUL :: lit "junk") 5 =
    Some (lit "open" ++ [NUL], 7).
Proof.
  assert (H : c_string (lit "openssh")) by (apply (bool_decide_unpack _); vm_compute; exact I).
  split; [exact H|].
  rewrite (strlcpy_correct (zeros 5) (lit "openssh") (lit "junk") 5 H).
  - vm_compute. reflexivity.
  - vm_compute. split; [reflexivity|discriminate].
Defined.

Lemma strlcat_end_string n v junk : c_string v ->
  strlcat_end n (v ++ NUL :: junk) = Some (Z.min (Z.of_nat n) (zlen v)).
Proof.
  revert v. induction n as [|n IH]; intros v Hv; cbn [strlcat_end].
  - pose proof (zlen_nonneg v). f_equal. lia.
  - destruct v as [|c v]; [done|]. apply c_string_cons in Hv as [Hc Hv]. cbn [app].
    rewrite byte_eqb_neq, IH by done. cbn. f_equal. rewrite zlen_cons. lia.
Qed.

Lemma strlcat_loop_string n v junk : c_string v -> 0 < n ->
  strlcat_loop n (v ++ NUL :: junk) = Some (take (Z.to_nat (n - 1)) v ++ [NUL], zlen v).
Proof.
  revert n. induction v as [|c v IH]; intros n Hv Hn.
  - cbn. by rewrite take_nil.
  - apply c_string_cons in Hv as [Hc Hv]. cbn [app strlcat_loop].
    rewrite byte_eqb_neq by done. destruct (Z.eqb_spec n 1) as [->|N].
    + rewrite IH by (done || lia). cbn. by rewrite zlen_cons, Z.add_comm.
    + rewrite IH by (done || lia). cbn.
      replace (Z.to_nat (n - 1)) with (S (Z.to_nat (n - 1 - 1))) by lia. cbn.
      by rewrite zlen_cons, Z.add_comm.
Qed.

(** [strlcat] appends as much of the source as fits in [siz] bytes with the
    terminating NUL, touches nothing past that, and returns the length it tried to create;
    when the destination already fills [siz] bytes it changes nothing. *)
Theorem strlcat_correct v w junk junk' siz (Hv : c_string v) (Hw : c_string w)
    (Hs : 0 <= siz <= zlen (v ++ NUL :: junk)) :
  strlcat (v ++ NUL :: junk) (w ++ NUL :: junk') siz =
    if siz <=? zlen v then Some (v ++ NUL :: junk, siz + zlen w)
    else Some (blit (zlen v) (take (Z.to_nat (siz - zlen v - 1)) w ++ [NUL])
                 (v ++ NUL :: junk), zlen v + zlen w).
Proof.
  pose proof (zlen_nonneg v) as Nv. unfold strlcat. rewrite strlcat_end_string by done.
  rewrite Z2Nat.id by lia. cbn -[blit].
  destruct (Z.leb_spec siz (zlen v)) as [H|H].
  - rewrite Z.min_l, Z.sub_diag by lia. cbn. rewrite strlen_string by done. done.
  - rewrite Z.min_r by lia. destruct (Z.eqb_spec (siz - zlen v) 0); [lia|].
    rewrite strlcat_loop_string by (done || lia). cbn -[blit].
    rewrite write_at_fits; [done|lia|].
    rewrite zlen_app. change (zlen [NUL]) with 1. unfold zlen in *. rewrite length_take. lia.
Qed.

Lemma strlcat_correct_witness :
  strlcat (lit "ab" ++ NUL :: zeros 3) (lit "cdefg" ++ [NUL]) 6 =
    Some (lit "abcde" ++ [NUL], 7).
Proof.
  rewrite (strlcat_correct (lit "ab") (lit "cdefg") (zeros 3) [] 6);
    [vm_compute; reflexivity|apply (bool_decide_unpack _); vm_compute; exact I..
    |vm_compute; split; discriminate].
Defined.

(** ** strtonum *)

(** The value of a decimal numeral. *)
Definition numeral (s : bytes) : Z :=
  foldl (fun acc c => acc * 10 + (byte_val c - 48)) 0 s.

Lemma digits_all s : forall acc, Forall (fun c => isdigit c = true) s ->
  digits acc s = (foldl (fun acc c => acc * 10 + (byte_val c - 48)) acc s, zlen s, []).
Proof.
  induction s as [|c s IH]; intros acc H; [done|]. inversion H; subst. cbn [digits foldl].
  rewrite H2, IH by done. rewrite zlen_cons. f_equal. f_equal. lia.
Qed.

Lemma digit_not_special c : isdigit c = true ->
  isspace c = false /\ byte_eqb c (chr 45) = false /\ byte_eqb c (chr 43) = false.
Proof.
  intros H. enough (E : (negb (isdigit c) || (negb (isspace c) &&
    negb (byte_eqb c (chr 45)) && negb (byte_eqb c (chr 43)))) = true).
  { rewrite H in E. cbn in E. rewrite !andb_true_iff, !negb_true_iff in E. tauto. }
  apply (byte_forall (fun c => negb (isdigit c) || (negb (isspace c) &&
    negb (byte_eqb c (chr 45)) && negb (byte_eqb c (chr 43))))). by vm_compute.
Qed.

Lemma parse_int_digits s : s <> [] -> Forall (fun c => isdigit c = true) s ->
  parse_int s = (false, numeral s, true, []).
Proof.
  intros Hne H. unfold parse_int. destruct s as [|c s]; [done|].
  assert (Hc : isdigit c = true) by (by inversion H).
  destruct (digit_not_special c Hc) as (H1 & H2 & H3). cbn [skip_space].
  rewrite H1, H2, H3, digits_all by done.
  pose proof (zlen_nonneg s). rewrite zlen_cons. by destruct (Z.ltb_spec 0 (1 + zlen s)); [|lia].
Qed.

(** Claim C36.  [strtonum] accepts a decimal numeral exactly when its value lies between
    the bounds (whatever its length), returns that value, and otherwise says on which
    side it falls; and a value it returns is always within the bounds. *)
Theorem strtonum_correct s minval maxval (Hs : s <> [])
    (Hd : Forall (fun c => isdigit c = true) s)
    (Hb : LLONG_MIN <= minval <= maxval /\ maxval <= LLONG_MAX) :
  strtonum s minval maxval =
    if numeral s <? minval then inr TOOSMALL
    else if numeral s >? maxval then inr TOOLARGE else inl (numeral s).
Proof.
  unfold strtonum, strtoll. rewrite parse_int_digits by done. cbn [negb].
  unfold LLONG_MIN, LLONG_MAX in *. rewrite !Z.gtb_ltb.
  destruct (Z.ltb_spec maxval minval); [lia|].
  destruct (Z.ltb_spec (numeral s) (- 2 ^ 63)).
  { cbn. destruct (Z.ltb_spec (numeral s) minval); [done|lia]. }
  destruct (Z.ltb_spec (2 ^ 63 - 1) (numeral s)).
  { cbn. destruct (Z.ltb_spec (numeral s) minval); [lia|].
    destruct (Z.ltb_spec (2 ^ 63 - 1) minval); [lia|].
    by destruct (Z.ltb_spec maxval (numeral s)); [|lia]. }
  rewrite !andb_false_r. cbn. rewrite !Z.gtb_ltb. done.
Qed.

Lemma strtonum_correct_witness :
  strtonum (lit "99999999999999999999") 0 65535 = inr TOOLARGE /\
  strtonum (lit "0022") 1 65535 = inl 22.
Proof.
  assert (B : LLONG_MIN <= 1 <= 65535 /\ 65535 <= LLONG_MAX) by (vm_compute; intuition discriminate).
  assert (B0 : LLONG_MIN <= 0 <= 65535 /\ 65535 <= LLONG_MAX) by (vm_compute; intuition discriminate).
  split.
  - rewrite (strtonum_correct (lit "99999999999999999999") 0 65535);
      [vm_compute; reflexivity|discriminate|repeat constructor|exact B0].
  - rewrite (strtonum_correct (lit "0022") 1 65535);
      [vm_compute; reflexivity|discriminate|repeat constructor|exact B].
Defined.

(** ** timingsafe_bcmp *)

Lemma lxor_zero a b : Z.lxor a b = 0 <-> a = b.
Proof. split; [apply Z.lxor_eq|intros ->; apply Z.lxor_nilpotent]. Qed.

Lemma bcmp_loop_spec n : forall ret b1 b2, (n <= length b1)%nat -> (n <= length b2)%nat ->
  exists r, bcmp_loop ret b1 b2 n = Some r /\
    (r = 0 <-> ret = 0 /\ take n b1 = take n b2).
Proof.
  induction n as [|n IH]; intros ret b1 b2 H1 H2; cbn.
  { exists ret. split; [done|]. tauto. }
  destruct b1 as [|c1 b1]; cbn in H1; [lia|]. destruct b2 as [|c2 b2]; cbn in H2; [lia|].
  destruct (IH (Z.lor ret (Z.lxor (byte_val c1) (byte_val c2))) b1 b2) as (r & E & Hr);
    [lia..|]. exists r. split; [done|]. rewrite Hr, Z.lor_eq_0_iff, lxor_zero.
  split.
  - intros [[Hret Ec%byte_val_inj] Et]. split; [done|]. cbn. congruence.
  - intros [Hret [= -> Et]]. done.
Qed.

Lemma timingsafe_bcmp_spec b1 b2 n (H1 : 0 <= n <= zlen b1) (H2 : n <= zlen b2) :
  timingsafe_bcmp b1 b2 n =
    Some (if bool_decide (take (Z.to_nat n) b1 = take (Z.to_nat n) b2) then 0 else 1).
Proof.
  unfold timingsafe_bcmp, zlen in *.
  destruct (bcmp_loop_spec (Z.to_nat n) 0 b1 b2) as (r & -> & Hr); [lia..|]. cbn. f_equal.
  destruct (Z.eqb_spec r 0) as [E|N].
  - by rewrite bool_decide_true by (by apply Hr).
  - rewrite bool_decide_false; [done|]. intros E. by apply N, Hr.
Qed.

(** [timingsafe_bcmp] looks at all [n] bytes of both areas and returns 0 exactly
    when they are equal, 1 otherwise. *)
Theorem timingsafe_bcmp_correct b1 b2 n (H1 : 0 <= n <= zlen b1) (H2 : n <= zlen b2) :
  timingsafe_bcmp b1 b2 n =
    Some (if bool_decide (take (Z.to_nat n) b1 = take (Z.to_nat n) b2) then 0 else 1).
Proof. exact (timingsafe_bcmp_spec b1 b2 n H1 H2). Qed.

Lemma timingsafe_bcmp_correct_witness :
  timingsafe_bcmp (lit "secret") (lit "secreT") 6 = Some 1.
Proof.
  rewrite (timingsafe_bcmp_correct (lit "secret") (lit "secreT") 6);
    [vm_compute; reflexivity|vm_compute; split; discriminate|vm_compute; discriminate].
Defined.

(** ** strsep *)

Fixpoint join (sep : bytes) (toks : list bytes) : bytes :=
  match toks with
  | [] => []
  | [t] => t
  | t :: toks => t ++ sep ++ join sep toks
  end.

Lemma scan_spec c s tok rest : strsep_scan [c] s = (tok, rest) ->
  c ∉ tok /\ s = tok ++ (match rest with Some r => c :: r | None => [] end).
Proof.
  revert tok rest. induction s as [|x s IH]; intros tok rest; cbn.
  - intros [= <- <-]. split; [apply not_elem_of_nil|done].
  - case_bool_decide as Hx.
    + intros [= <- <-]. apply list_elem_of_singleton in Hx as ->. split; [apply not_elem_of_nil|done].
    + destruct (strsep_scan [c] s) as [t r] eqn:E. intros [= <- <-].
      destruct (IH t r eq_refl) as [H1 ->]. split; [|done].
      rewrite not_elem_of_cons. split; [|done]. intros ->. apply Hx. apply list_elem_of_singleton. done.
Qed.

Lemma split_aux_join c fuel : forall s, (length s < fuel)%nat ->
  join [c] (split_aux fuel (Some s) [c]) = s /\
  Forall (fun t => c ∉ t) (split_aux fuel (Some s) [c]) /\
  split_aux fuel (Some s) [c] <> [].
Proof.
  induction fuel as [|fuel IH]; intros s Hs; [lia|]. cbn [split_aux strsep].
  cbn. destruct (strsep_scan [c] s) as [tok rest] eqn:E.
  destruct (scan_spec c s tok rest E) as [Ht ->]. destruct rest as [r|].
  - destruct (IH r) as (J & F & N); [rewrite length_app in Hs; cbn in Hs; lia|].
    split_and!; [|by constructor|done].
    destruct (split_aux fuel (Some r) [c]) as [|t ts] eqn:Es; [done|].
    change (tok ++ [c] ++ join [c] (t :: ts) = tok ++ c :: r). by rewrite J.
  - destruct fuel; cbn; split_and!; try done; rewrite ?app_nil_r; try done;
      repeat constructor; done.
Qed.

(** Splitting a string at a separator with [strsep] loses nothing: the tokens
    contain no separator and joined again they give the string back. *)
Theorem strsep_split_join c s :
  join [c] (split s [c]) = s /\ Forall (fun t => c ∉ t) (split s [c]).
Proof. destruct (split_aux_join c (S (S (length s))) s) as (J & F & _); [lia|]. done. Qed.
