(* ===== verification/Match.v ===== *)
(** Pattern and list matching: match.c without the parts that look at addresses. *)

From S2P Require Import Prelude Compat CompatThms.

Definition STAR : byte := chr 42.
Definition QUESTION : byte := chr 63.
Definition COMMA : byte := chr 44.
Definition BANG : byte := chr 33.

Definition is_nil {A} (l : list A) : bool := match l with [] => true | _ => false end.

(** ** match_pattern *)

(** [while ( *pattern == '*') pattern++]. *)
Fixpoint skip_stars (p : bytes) : bytes :=
  match p with
  | c :: p' => if byte_eqb c STAR then skip_stars p' else p
  | [] => []
  end.

(** [for (; *s; s++) if (f(s)) return 1; return 0]. *)
Fixpoint try_each (f : bytes -> bool) (s : bytes) : bool :=
  match s with
  | [] => false
  | _ :: s' => f s || try_each f s'
  end.

(** [fuel] bounds the length of the pattern. *)
Fixpoint match_pattern_n (fuel : nat) (s pattern : bytes) : bool :=
  match fuel with
  | O => false
  | S fuel =>
    match pattern with
    | [] => is_nil s
    | c :: pattern1 =>
      if byte_eqb c STAR then
        match skip_stars pattern with
        | [] => true
        | (c :: pattern1) as pattern =>
          if negb (byte_eqb c QUESTION) && negb (byte_eqb c STAR) then
            try_each (fun s => match s with
                               | x :: s1 => byte_eqb x c && match_pattern_n fuel s1 pattern1
                               | [] => false
                               end) s
          else try_each (fun s => match_pattern_n fuel s pattern) s
        end
      else
        match s with
        | [] => false
        | x :: s1 =>
          if negb (byte_eqb c QUESTION) && negb (byte_eqb c x) then false
          else match_pattern_n fuel s1 pattern1
        end
    end
  end.

Definition match_pattern (s pattern : bytes) : bool :=
  match_pattern_n (S (length pattern)) s pattern.

(** ** match_pattern_list *)

(** The subpattern buffer: [sizeof(sub)]. *)
Definition SUB_SIZE : Z := 1024.

Definition lower_if (dolower : bool) (c : byte) : byte :=
  if dolower && isupper c then tolower c else c.

(** Copy up to a comma, at most [room] bytes: the copy, the rest of the pattern. *)
Fixpoint take_sub (dolower : bool) (room : nat) (p : bytes) : bytes * bytes :=
  match room, p with
  | S room, c :: p' =>
    if byte_eqb c COMMA then ([], p)
    else let '(sub, rest) := take_sub dolower room p' in (lower_if dolower c :: sub, rest)
  | _, _ => ([], p)
  end.

(** The loop, from the rest of the pattern. *)
Fixpoint list_loop (fuel : nat) (string rest : bytes) (dolower got_positive : bool) : Z :=
  match fuel with
  | O => 0
  | S fuel =>
    match rest with
    | [] => if got_positive then 1 else 0
    | c :: rest1 =>
      let negated := byte_eqb c BANG in
      let rest := if negated then rest1 else rest in
      let '(sub, rest) := take_sub dolower (Z.to_nat (SUB_SIZE - 1)) rest in
      if zlen sub >=? SUB_SIZE - 1 then 0
      else
      let rest := match rest with
                  | c :: rest1 => if byte_eqb c COMMA then rest1 else rest
                  | [] => []
                  end in
      if match_pattern string sub then
        if negated then -1 else list_loop fuel string rest dolower true
      else list_loop fuel string rest dolower got_positive
    end
  end.

Definition match_pattern_list (string pattern : bytes) (dolower : bool) : Z :=
  list_loop (S (length pattern)) string pattern dolower false.

Definition match_usergroup_pattern_list (string pattern : bytes) : Z :=
  match_pattern_list string pattern false.

(** misc.c, [lowercase]. *)
Definition lowercase (s : bytes) : bytes := map tolower s.

Definition match_hostname (host pattern : bytes) : Z :=
  match_pattern_list (lowercase host) pattern true.

(** ** match_list *)

Definition MAX_PROP : nat := 40.
Definition SEP : bytes := [COMMA].

(** The proposals of the server: up to the first empty one, at most [MAX_PROP]. *)
Fixpoint proposals (fuel : nat) (sp : option bytes) (room : nat) : list bytes :=
  match fuel with
  | O => []
  | S fuel =>
    match strsep sp SEP with
    | Some (p, sp) =>
      if is_nil p then []
      else match room with
           | O => []
           | S room => p :: proposals fuel sp room
           end
    | None => []
    end
  end.

(** The client's items in order; [len] is [strlen(c)]. *)
Fixpoint client_loop (fuel : nat) (len : Z) (cp : option bytes) (sproposals : list bytes)
    : option bytes * Z :=
  match fuel with
  | O => (None, len)
  | S fuel =>
    match strsep cp SEP with
    | Some (p, cp) =>
      if is_nil p then (None, len)
      else if existsb (fun q => bool_decide (p = q)) sproposals then
        (Some p, match cp with None => len | Some rest => len - zlen rest end)
      else client_loop fuel len cp sproposals
    | None => (None, len)
    end
  end.

(** The item found and the value of [*next]. *)
Definition match_list (client server : bytes) : option bytes * Z :=
  let sproposals := proposals (S (S (length server))) (Some server) MAX_PROP in
  client_loop (S (S (length client))) (zlen client) (Some client) sproposals.

(** ** filter_list *)

Fixpoint filter_loop (fuel : nat) (tmp : option bytes) (filter : bytes) (denylist : bool)
    (len : Z) (fix_prop : bytes) : bytes :=
  match fuel with
  | O => fix_prop
  | S fuel =>
    match strsep tmp SEP with
    | None => fix_prop
    | Some (cp, tmp) =>
      let r := match_pattern_list cp filter false in
      let fix_prop :=
        if (denylist && negb (r =? 1)) || (negb denylist && (r =? 1)) then
          let fix_prop := if negb (is_nil fix_prop)
                          then fst (strlcat_str fix_prop SEP len) else fix_prop in
          fst (strlcat_str fix_prop cp len)
        else fix_prop in
      filter_loop fuel tmp filter denylist len fix_prop
    end
  end.

(** [None]: one of the two allocations failed. *)
Definition filter_list (malloc_ok : bool) (proposal filter : bytes) (denylist : bool)
    : option bytes :=
  let len := zlen proposal + 1 in
  if negb malloc_ok then None
  else Some (filter_loop (S (S (length proposal))) (Some proposal) filter denylist len []).

Definition match_filter_denylist malloc_ok proposal filter : option bytes :=
  filter_list malloc_ok proposal filter true.

Definition match_filter_allowlist malloc_ok proposal filter : option bytes :=
  filter_list malloc_ok proposal filter false.

(** ** match_pattern is glob matching *)

(** [*] stands for any bytes, [?] for one byte, any other byte for itself. *)
Inductive matches : bytes -> bytes -> Prop :=
| matches_nil : matches [] []
| matches_star s1 s2 p : matches s2 p -> matches (s1 ++ s2) (STAR :: p)
| matches_any x s p : matches s p -> matches (x :: s) (QUESTION :: p)
| matches_byte c s p : c <> STAR -> c <> QUESTION -> matches s p ->
    matches (c :: s) (c :: p).

Lemma try_each_spec f s : try_each f s = true <->
  exists s1 s2, s = s1 ++ s2 /\ s2 <> [] /\ f s2 = true.
Proof.
  induction s as [|c s IH]; cbn.
  - split; [done|]. intros (s1 & s2 & E & N & _). symmetry in E.
    by apply app_nil in E as [_ ->].
  - rewrite orb_true_iff, IH. split.
    + intros [H|(s1 & s2 & -> & N & H)].
      * by exists [], (c :: s).
      * by exists (c :: s1), s2.
    + intros ([|x s1] & s2 & E & N & H); cbn in E.
      * left. by subst.
      * injection E as <- ->. right. by exists s1, s2.
Qed.

Lemma skip_stars_spec p : exists k, p = repeat STAR k ++ skip_stars p /\
  match skip_stars p with c :: _ => c <> STAR | [] => True end.
Proof.
  induction p as [|c p (k & E & H)]; [by exists 0%nat|]. cbn.
  destruct (byte_eqb_spec c STAR) as [->|N].
  - exists (S k). split; [|done]. cbn. by rewrite <- E.
  - by exists 0%nat.
Qed.

Lemma matches_stars k s p : (0 < k)%nat ->
  matches s (repeat STAR k ++ p) <-> exists s1 s2, s = s1 ++ s2 /\ matches s2 p.
Proof.
  revert s. induction k as [|k IH]; intros s Hk; [lia|]. cbn. destruct k as [|k].
  - split.
    + cbn. intros H. inversion H; subst; [by eexists _, _|done].
    + intros (s1 & s2 & -> & H). by constructor.
  - split.
    + intros H. inversion H; subst; [|done]. apply IH in H2 as (s3 & s4 & -> & H4); [|lia].
      exists (s1 ++ s3), s4. by rewrite app_assoc.
    + intros (s1 & s2 & -> & H). apply (matches_star s1). apply IH; [lia|].
      by exists [], s2.
Qed.

(** A pattern that starts with neither star nor end needs a byte. *)
Lemma matches_nonempty c p : c <> STAR -> ~ matches [] (c :: p).
Proof. intros N H. inversion H; subst; done. Qed.

Lemma matches_cons c p x s : c <> STAR ->
  matches (x :: s) (c :: p) <-> (c = QUESTION \/ c = x) /\ matches s p.
Proof.
  intros N. split.
  - intros H. inversion H; subst; auto; done.
  - intros [[->| ->] H]; [by constructor|].
    destruct (decide (x = QUESTION)) as [->|]; by constructor.
Qed.

Lemma match_pattern_n_spec fuel : forall s p, (length p < fuel)%nat ->
  match_pattern_n fuel s p = true <-> matches s p.
Proof.
  induction fuel as [|fuel IH]; intros s p Hp; [lia|]. cbn [match_pattern_n].
  destruct p as [|c p].
  { destruct s; cbn; split; intros H; try done; [constructor|inversion H]. }
  cbn [length] in Hp. destruct (byte_eqb_spec c STAR) as [->|N].
  - destruct (skip_stars_spec (STAR :: p)) as (k & E & H).
    assert (Hk : (0 < k)%nat).
    { destruct k; [|lia]. cbn [repeat app] in E. rewrite <- E in H. done. }
    assert (Hlen : (length (skip_stars (STAR :: p)) < S (length p))%nat).
    { apply (f_equal length) in E. rewrite length_app, repeat_length in E. cbn [length] in E. lia. }
    rewrite E at 2. destruct (skip_stars (STAR :: p)) as [|c q].
    + rewrite matches_stars by done. split; [|done]. intros _. exists s, [].
      rewrite app_nil_r. split; [done|constructor].
    + cbn [length] in Hlen. rewrite (matches_stars k s) by done.
      rewrite (byte_eqb_neq c STAR) by done. rewrite andb_true_r.
      assert (Hne : forall s1 s2, s = s1 ++ s2 -> matches s2 (c :: q) -> s2 <> []).
      { intros s1 s2 _ M ->. exact (matches_nonempty c q H M). }
      destruct (byte_eqb_spec c QUESTION) as [->|Nq]; cbn [negb]; rewrite try_each_spec.
      * split; intros (s1 & s2 & E2 & M).
        -- exists s1, s2. split; [done|]. destruct M as [_ M]. apply IH in M; [done|cbn; lia].
        -- exists s1, s2. split_and!; [done|by eapply Hne|]. apply IH; [cbn; lia|done].
      * split.
        -- intros (s1 & [|x s2] & E2 & N2 & M); [done|]. exists s1, (x :: s2). split; [done|].
           rewrite andb_true_iff in M. destruct (byte_eqb_spec x c) as [->|]; [|by destruct M].
           apply matches_cons; [done|]. split; [by right|]. apply IH; [lia|by destruct M].
        -- intros (s1 & s2 & E2 & M). pose proof (Hne _ _ E2 M) as N2.
           destruct s2 as [|x s2]; [done|]. exists s1, (x :: s2). split_and!; [done|done|].
           apply matches_cons in M as [[?|<-] M]; [done| |done]. rewrite byte_eqb_refl. cbn.
           apply IH; [lia|done].
  - destruct s as [|x s]; [split; [done|intros M; by destruct (matches_nonempty _ _ N M)]|].
    rewrite matches_cons by done.
    destruct (byte_eqb_spec c QUESTION), (byte_eqb_spec c x); cbn [negb andb];
      rewrite ?IH by lia; split; try tauto; try done; intros [[?|?] ?]; congruence.
Qed.
