(* ===== verification/MatchThms.v ===== *)
(** Correctness of the matching functions. *)

From S2P Require Import Prelude Compat CompatThms Match.

Lemma match_pattern_iff s pattern : match_pattern s pattern = true <-> matches s pattern.
Proof. apply match_pattern_n_spec. lia. Qed.

(** Claim C37.  [match_pattern] is glob matching: [*] matches any bytes, [?] exactly one, any
    other byte itself; in particular the search for the next literal byte after a star
    misses no match. *)
Theorem match_pattern_correct s pattern :
  match_pattern s pattern = true <-> matches s pattern.
Proof. apply match_pattern_iff. Qed.

(** ** Pattern lists *)

(** The subpatterns of a list: the tokens between commas, no empty one at the end. *)
Fixpoint entries_aux (fuel : nat) (s : bytes) : list bytes :=
  match fuel, s with
  | S fuel, _ :: _ =>
    let '(tok, rest) := strsep_scan SEP s in
    tok :: match rest with Some r => entries_aux fuel r | None => [] end
  | _, _ => []
  end.
Definition entries (s : bytes) : list bytes := entries_aux (S (length s)) s.

Definition negated (tok : bytes) : bool :=
  match tok with c :: _ => byte_eqb c BANG | [] => false end.
Definition body (tok : bytes) : bytes := if negated tok then tl tok else tok.

(** Does an entry apply to the string? *)
Definition applies (string : bytes) (dolower : bool) (tok : bytes) : Prop :=
  matches string (map (lower_if dolower) (body tok)).

Definition applies_b (string : bytes) (dolower : bool) (tok : bytes) : bool :=
  match_pattern string (map (lower_if dolower) (body tok)).

Lemma take_sub_spec dolower room tok tail : COMMA ∉ tok -> (length tok < room)%nat ->
  match tail with c :: _ => c = COMMA | [] => True end ->
  take_sub dolower room (tok ++ tail) = (map (lower_if dolower) tok, tail).
Proof.
  revert tok. induction room as [|room IH]; intros tok Hc Hl Ht; [lia|].
  destruct tok as [|c tok]; cbn in *.
  - destruct tail as [|c tail]; [done|]. subst. by rewrite byte_eqb_refl.
  - rewrite not_elem_of_cons in Hc. rewrite byte_eqb_neq by (destruct Hc; congruence).
    rewrite IH; [done|tauto|lia|done].
Qed.

Lemma body_tok tok tail : COMMA ∉ tok ->
  match tail with c :: _ => c = COMMA | [] => True end ->
  match tok ++ tail with
  | c :: rest1 => if byte_eqb c BANG then rest1 else tok ++ tail
  | [] => []
  end = body tok ++ tail /\
  match tok ++ tail with c :: _ => byte_eqb c BANG | [] => false end = negated tok.
Proof.
  intros Hc Ht. unfold body, negated. destruct tok as [|c tok]; cbn.
  - destruct tail as [|c tail]; [done|]. by subst.
  - by destruct (byte_eqb c BANG).
Qed.

Definition list_result (got : bool) (string : bytes) (dolower : bool) (es : list bytes) : Z :=
  if existsb (fun t => negated t && applies_b string dolower t) es then -1
  else if got || existsb (fun t => negb (negated t) && applies_b string dolower t) es
  then 1 else 0.

Lemma body_sub tok : (length (body tok) <= length tok)%nat /\ (COMMA ∉ tok -> COMMA ∉ body tok).
Proof.
  unfold body, negated. destruct tok as [|c tok]; cbn; [done|].
  destruct (byte_eqb c BANG); cbn; [|done]. split; [lia|]. rewrite not_elem_of_cons. tauto.
Qed.

Lemma list_loop_spec fuel : forall string s dolower got, (length s < fuel)%nat ->
  Forall (fun t => zlen (body t) < SUB_SIZE - 1) (entries_aux fuel s) ->
  list_loop fuel string s dolower got = list_result got string dolower (entries_aux fuel s).
Proof.
  induction fuel as [|fuel IH]; intros string s dolower got Hl HF; [lia|].
  destruct s as [|c0 s0]; [by destruct got|].
  cbn [entries_aux] in *. destruct (strsep_scan SEP (c0 :: s0)) as [tok rest] eqn:E.
  destruct (scan_spec COMMA _ _ _ E) as [Hc Es].
  set (tail := match rest with Some r => COMMA :: r | None => [] end) in *.
  assert (Ht : match tail with c :: _ => c = COMMA | [] => True end) by (by destruct rest).
  inversion HF as [|? ? Hshort HF']; subst.
  destruct (body_tok tok tail Hc Ht) as [Hb Hn]. rewrite <- Es in Hb, Hn.
  cbn [list_loop]. cbv zeta. rewrite Hb, Hn.
  assert (Hsz : (length (body tok) < Z.to_nat (SUB_SIZE - 1))%nat)
    by (unfold zlen, SUB_SIZE in *; lia).
  rewrite take_sub_spec by (done || by apply body_sub).
  rewrite Z.geb_leb, zlen_map. destruct (Z.leb_spec (SUB_SIZE - 1) (zlen (body tok))); [lia|].
  assert (match tail with c :: rest1 => if byte_eqb c COMMA then rest1 else tail | [] => [] end =
    match rest with Some r => r | None => [] end) as ->
    by (destruct rest; cbn; by rewrite ?byte_eqb_refl).
  assert (Hrec : forall got', list_loop fuel string match rest with Some r => r | None => [] end
      dolower got' = list_result got' string dolower
        match rest with Some r => entries_aux fuel r | None => [] end).
  { intros got'. destruct rest as [r|].
    - apply IH; [|done]. apply (f_equal length) in Es. rewrite length_app in Es.
      unfold tail in Es. cbn in Es, Hl. lia.
    - destruct fuel; [cbn in Hl; lia|]. by destruct got'. }
  unfold list_result at 1. cbn [existsb]. unfold applies_b at 1 3. fold (applies_b).
  destruct (match_pattern string _) eqn:M; [destruct (negated tok) eqn:N|];
    cbn [andb orb negb]; rewrite ?andb_false_r, ?Hrec; unfold list_result; cbn [orb]; try done.
  by rewrite ?orb_true_r.
Qed.

Lemma existsb_exists_elem {A} (f : A -> bool) l : existsb f l = true <->
  exists x, x ∈ l /\ f x = true.
Proof.
  rewrite existsb_exists. split; intros (x & H & E); exists x; by rewrite list_elem_of_In in *.
Qed.

Lemma existsb_ext {A} (f g : A -> bool) l : (forall x, f x = g x) ->
  existsb f l = existsb g l.
Proof. intros H. induction l as [|x l IH]; [done|]. cbn. by rewrite H, IH. Qed.

(** [match_pattern_list] with entries that fit its buffer: -1 exactly when a
    negated entry matches, otherwise 1 exactly when some entry matches, otherwise 0;
    the order of the entries does not matter. *)
Theorem match_pattern_list_correct string pattern dolower
    (Hfit : Forall (fun t => zlen (body t) < SUB_SIZE - 1) (entries pattern)) :
  let r := match_pattern_list string pattern dolower in
  (r = -1 <-> exists t, t ∈ entries pattern /\ negated t = true /\ applies string dolower t) /\
  (r = 1 <-> (exists t, t ∈ entries pattern /\ negated t = false /\ applies string dolower t) /\
     ~ exists t, t ∈ entries pattern /\ negated t = true /\ applies string dolower t) /\
  (r = -1 \/ r = 0 \/ r = 1).
Proof.
  cbv zeta. unfold match_pattern_list. rewrite list_loop_spec by (lia || done).
  unfold list_result. cbn [orb]. fold (entries pattern).
  assert (P : forall b, existsb (fun t => Bool.eqb (negated t) b && applies_b string dolower t)
      (entries pattern) = true <->
    exists t, t ∈ entries pattern /\ negated t = b /\ applies string dolower t).
  { intros b. rewrite existsb_exists_elem. split; intros (t & H & E); exists t; (split; [done|]).
    - rewrite andb_true_iff, eqb_true_iff in E. destruct E as [? E]. split; [done|].
      by apply match_pattern_iff.
    - destruct E as [-> E]. rewrite eqb_reflx. by apply match_pattern_iff. }
  assert (E1 := existsb_ext (fun t => negated t && applies_b string dolower t)
    (fun t => Bool.eqb (negated t) true && applies_b string dolower t) (entries pattern)
    ltac:(intros t; cbn; destruct (negated t); reflexivity)).
  assert (E2 := existsb_ext (fun t => negb (negated t) && applies_b string dolower t)
    (fun t => Bool.eqb (negated t) false && applies_b string dolower t) (entries pattern)
    ltac:(intros t; cbn; destruct (negated t); reflexivity)).
  rewrite E1, E2, <- (P true), <- (P false).
  clear. destruct (existsb _ _); destruct (existsb _ _); intuition congruence.
Qed.

Lemma match_pattern_list_correct_witness :
  match_pattern_list (lit "gw.example.org") (lit "*.example.org,!gw.*") false = -1 /\
  exists t, t ∈ entries (lit "*.example.org,!gw.*") /\ negated t = true /\
    applies (lit "gw.example.org") false t.
Proof.
  assert (F : Forall (fun t => zlen (body t) < SUB_SIZE - 1)
    (entries (lit "*.example.org,!gw.*"))) by (repeat constructor).
  destruct (match_pattern_list_correct (lit "gw.example.org") (lit "*.example.org,!gw.*")
    false F) as [H _].
  assert (E : match_pattern_list (lit "gw.example.org") (lit "*.example.org,!gw.*") false = -1)
    by (vm_compute; reflexivity).
  split; [exact E|]. apply H, E.
Defined.

(** ** match_list *)

(** The items of a proposal: the tokens up to the first empty one. *)
Fixpoint until_empty (toks : list bytes) : list bytes :=
  match toks with
  | [] => []
  | t :: toks => if is_nil t then [] else t :: until_empty toks
  end.
Definition items (s : bytes) : list bytes := until_empty (split s SEP).

Lemma split_aux_none fuel : split_aux fuel None SEP = [].
Proof. by destruct fuel. Qed.

Lemma proposals_items fuel : forall sp room,
  proposals fuel sp room = take room (until_empty (split_aux fuel sp SEP)).
Proof.
  induction fuel as [|fuel IH]; intros sp room; [by destruct room|]. cbn.
  destruct (strsep sp SEP) as [[p sp']|]; [|by destruct room]. cbn.
  destruct (is_nil p); [by destruct room|]. destruct room as [|room]; [done|]. cbn. by rewrite IH.
Qed.

Lemma client_loop_find fuel : forall len cp sl,
  fst (client_loop fuel len cp sl) =
  find (fun p => existsb (fun q => bool_decide (p = q)) sl) (until_empty (split_aux fuel cp SEP)).
Proof.
  induction fuel as [|fuel IH]; intros len cp sl; [done|]. cbn.
  destruct (strsep cp SEP) as [[p cp']|]; [|done]. cbn. destruct (is_nil p); [done|]. cbn.
  destruct (existsb _ sl); [done|apply IH].
Qed.

Lemma find_spec {A} (f : A -> bool) l :
  match find f l with
  | Some x => exists l1 l2, l = l1 ++ x :: l2 /\ f x = true /\ Forall (fun y => f y = false) l1
  | None => Forall (fun y => f y = false) l
  end.
Proof.
  induction l as [|x l IH]; cbn; [constructor|]. destruct (f x) eqn:E.
  - exists [], l. by split_and!.
  - destruct (find f l) as [y|].
    + destruct IH as (l1 & l2 & -> & Hy & Hl). exists (x :: l1), l2. split_and!; auto.
    + by constructor.
Qed.

Lemma existsb_elem (p : bytes) l : existsb (fun q => bool_decide (p = q)) l = bool_decide (p ∈ l).
Proof.
  induction l as [|q l IH]; [done|]. cbn. rewrite IH.
  rewrite <- bool_decide_or. apply bool_decide_ext. by rewrite elem_of_cons.
Qed.

(** [match_list] with a server list of at most forty items: it returns the
    first item of the client that the server has too, every earlier item of the client
    being unknown to the server; [NULL] means that the lists have no item in common. *)
Theorem match_list_first client server (Hmax : (length (items server) <= MAX_PROP)%nat) :
  match fst (match_list client server) with
  | Some x => exists l1 l2, items client = l1 ++ x :: l2 /\ x ∈ items server /\
      Forall (fun y => y ∉ items server) l1
  | None => Forall (fun y => y ∉ items server) (items client)
  end.
Proof.
  unfold match_list. rewrite client_loop_find, proposals_items. fold (split server SEP).
  fold (split client SEP). fold (items server) (items client). rewrite take_ge by done.
  pose proof (find_spec (fun p => existsb (fun q => bool_decide (p = q)) (items server))
    (items client)) as F.
  assert (N : forall l, Forall (fun y => existsb (fun q => bool_decide (y = q)) (items server) = false) l ->
    Forall (fun y => y ∉ items server) l).
  { intros l H. eapply Forall_impl; [exact H|]. intros y. cbv beta.
    by rewrite existsb_elem, bool_decide_eq_false. }
  destruct (find _ _) as [x|]; [|by apply N].
  destruct F as (l1 & l2 & E & Hx & Hl). exists l1, l2.
  rewrite existsb_elem, bool_decide_eq_true in Hx. split_and!; auto.
Qed.

Lemma match_list_first_witness :
  (length (items (lit "aes256-ctr,aes128-ctr")) <= MAX_PROP)%nat /\
  match fst (match_list (lit "3des-cbc,aes128-ctr") (lit "aes256-ctr,aes128-ctr")) with
  | Some x => x = lit "aes128-ctr"
  | None => False
  end.
Proof.
  assert (H : (length (items (lit "aes256-ctr,aes128-ctr")) <= MAX_PROP)%nat)
    by (apply Nat.leb_le; vm_compute; reflexivity).
  split; [exact H|].
  pose proof (match_list_first (lit "3des-cbc,aes128-ctr") (lit "aes256-ctr,aes128-ctr") H) as M.
  destruct (fst (match_list (lit "3des-cbc,aes128-ctr") (lit "aes256-ctr,aes128-ctr"))) eqn:E;
    vm_compute in E; [injection E as <-; reflexivity|discriminate E].
Defined.

(** ** filter_list *)

Definition kept (filter : bytes) (denylist : bool) (cp : bytes) : bool :=
  let r := match_pattern_list cp filter false in
  (denylist && negb (r =? 1)) || (negb denylist && (r =? 1)).

Lemma join_snoc toks t : toks <> [] -> join SEP (toks ++ [t]) = join SEP toks ++ SEP ++ t.
Proof.
  induction toks as [|u toks IH]; [done|]. intros _. destruct toks as [|v toks]; [done|].
  change (u ++ SEP ++ join SEP ((v :: toks) ++ [t]) = (u ++ SEP ++ join SEP (v :: toks)) ++ SEP ++ t).
  by rewrite IH, <- !app_assoc.
Qed.

Lemma join_nil toks : Forall (fun t => t <> []) toks -> join SEP toks = [] -> toks = [].
Proof.
  destruct toks as [|t toks]; [done|]. intros H E. inversion H; subst.
  destruct toks; cbn in E; [done|]. by destruct t.
Qed.

Lemma strlcat_str_fits dst src len : zlen dst + zlen src < len ->
  fst (strlcat_str dst src len) = dst ++ src.
Proof.
  intros H. unfold strlcat_str. cbn. by rewrite take_ge by (unfold zlen in *; lia).
Qed.

(** One item joins the result. *)
Lemma add_item toks cp len : Forall (fun t => t <> []) toks ->
  zlen (join SEP toks) + (if is_nil toks then 0 else 1) + zlen cp < len ->
  fst (strlcat_str (if negb (is_nil (join SEP toks))
    then fst (strlcat_str (join SEP toks) SEP len) else join SEP toks) cp len) =
  join SEP (toks ++ [cp]).
Proof.
  intros N L. pose proof (zlen_nonneg cp). destruct toks as [|t toks].
  - cbn [join is_nil negb app]. cbn [is_nil join] in L. by rewrite strlcat_str_fits.
  - assert (is_nil (join SEP (t :: toks)) = false) as ->.
    { destruct (join SEP (t :: toks)) eqn:E; [by apply join_nil in E|done]. }
    cbn [is_nil negb] in *. rewrite (strlcat_str_fits (join SEP (t :: toks)) SEP).
    + rewrite strlcat_str_fits; [|rewrite zlen_app; change (zlen SEP) with 1; lia].
      by rewrite join_snoc, <- app_assoc.
    + change (zlen SEP) with 1. lia.
Qed.

Lemma filter_loop_spec fuel : forall s filter deny len toks, (length s < fuel)%nat ->
  Forall (fun t => t <> []) toks -> Forall (fun t => t <> []) (split_aux fuel (Some s) SEP) ->
  zlen (join SEP toks) + (if is_nil toks then 0 else 1) + zlen s < len ->
  filter_loop fuel (Some s) filter deny len (join SEP toks) =
  join SEP (toks ++ List.filter (kept filter deny) (split_aux fuel (Some s) SEP)).
Proof.
  induction fuel as [|fuel IH]; intros s filter deny len toks Hf Ht Hs Hl; [lia|].
  cbn [filter_loop split_aux] in *. unfold strsep in *. cbn [mbind option_bind] in *.
  destruct (strsep_scan SEP s) as [cp rest] eqn:E.
  destruct (scan_spec COMMA _ _ _ E) as [_ ->]. inversion Hs as [|? ? Hcp Hrest]; subst.
  cbv zeta. fold (kept filter deny cp). cbn [List.filter].
  set (tail := match rest with Some r => COMMA :: r | None => [] end) in *.
  rewrite zlen_app in Hl. pose proof (zlen_nonneg tail). pose proof (zlen_nonneg (join SEP toks)).
  assert (Hrec : forall toks', Forall (fun t => t <> []) toks' ->
    zlen (join SEP toks') + (if is_nil toks' then 0 else 1) + zlen tail < len + 1 ->
    filter_loop fuel rest filter deny len (join SEP toks') =
    join SEP (toks' ++ List.filter (kept filter deny) (split_aux fuel rest SEP))).
  { intros toks' Ht' Hl'. destruct rest as [r|].
    - apply IH; auto.
      + rewrite length_app in Hf. cbn in Hf. lia.
      + unfold tail in Hl'. rewrite zlen_cons in Hl'. lia.
    - rewrite split_aux_none. cbn. rewrite app_nil_r. by destruct fuel. }
  pose proof (zlen_nonneg cp).
  destruct (kept filter deny cp).
  - rewrite add_item by (done || lia). rewrite Hrec, <- app_assoc; [done| |].
    + apply Forall_app. by repeat constructor.
    + destruct toks as [|t toks]; cbn [is_nil] in *.
      * cbn [app join is_nil] in *. change (zlen []) with 0 in *. lia.
      * rewrite join_snoc, !zlen_app by done. change (zlen SEP) with 1.
        cbn [app is_nil]. lia.
  - apply Hrec; [done|]. lia.
Qed.

(** [filter_list] on a proposal without empty items never truncates: its result
    is the comma-separated list of the items that the filter excludes (deny list) or
    selects (allow list), in their order. *)
Theorem filter_list_correct proposal filter denylist
    (Hne : Forall (fun t => t <> []) (split proposal SEP)) :
  filter_list true proposal filter denylist =
    Some (join SEP (List.filter (kept filter denylist) (split proposal SEP))).
Proof.
  unfold filter_list. cbn [negb]. f_equal.
  apply (filter_loop_spec _ proposal filter denylist _ []); auto.
  cbn. change (zlen []) with 0. lia.
Qed.

Lemma filter_list_correct_witness :
  filter_list true (lit "ssh-rsa,ssh-dss,ssh-ed25519") (lit "*rsa,*dss") true =
    Some (lit "ssh-ed25519").
Proof.
  rewrite (filter_list_correct (lit "ssh-rsa,ssh-dss,ssh-ed25519") (lit "*rsa,*dss") true);
    [vm_compute; reflexivity|].
  repeat (apply Forall_cons; split; [discriminate|]). apply Forall_nil. exact I.
Defined.
