(* ===== verification/Addr.v ===== *)
(** Network addresses and matching against them: addr.c, addrmatch.c and the functions of
    match.c that use them.

    The 16 bytes of an address are in network order, so the [htonl] of the source is the
    big-endian store [POKE_U32]; an IPv4 address is the first four bytes.  [getaddrinfo]
    (with [AI_NUMERICHOST]) and [getnameinfo] are parameters. *)

From S2P Require Import Prelude Wire Compat CompatThms Match MatchThms.

(** ** Data *)

Definition AF_INET : Z := 2.
Definition AF_INET6 : Z := 10.

Record xaddr := mk_xaddr { af : Z; addr8 : bytes; scope_id : Z }.

(** [memset(n, '\0', sizeof(xaddr))]. *)
Definition xaddr_zero : xaddr := mk_xaddr 0 (zeros 16) 0.

(** [struct sockaddr_in] and [struct sockaddr_in6]: family, port in network order, address
    (four or sixteen bytes), scope. *)
Record sockaddr := mk_sockaddr {
  sa_family : Z; sa_port : bytes; sa_addr : bytes; sa_scope : Z
}.
Definition SIZEOF_IN4 : Z := 16.
Definition SIZEOF_IN6 : Z := 28.

(** The union: write [v] over the first bytes. *)
Definition set_addr (v : bytes) (x : xaddr) : xaddr :=
  mk_xaddr (af x) (blit 0 v (addr8 x)) (scope_id x).

(** ** addr.c *)

Definition addr_unicast_masklen (af_ : Z) : Z :=
  if af_ =? AF_INET then 32 else if af_ =? AF_INET6 then 128 else -1.

Definition masklen_valid (af_ masklen : Z) : Z :=
  if af_ =? AF_INET then (if masklen <=? 32 then 0 else -1)
  else if af_ =? AF_INET6 then (if masklen <=? 128 then 0 else -1)
  else -1.

(** The socket address and its length; [None]: failure. *)
Definition addr_xaddr_to_sa (xa : xaddr) (len port : Z) : option (sockaddr * Z) :=
  if af xa =? AF_INET then
    if len <? SIZEOF_IN4 then None
    else Some (mk_sockaddr AF_INET (POKE_U16 port) (slice 0 4 (addr8 xa)) 0, SIZEOF_IN4)
  else if af xa =? AF_INET6 then
    if len <? SIZEOF_IN6 then None
    else Some (mk_sockaddr AF_INET6 (POKE_U16 port) (addr8 xa) (scope_id xa), SIZEOF_IN6)
  else None.

Definition addr_sa_to_xaddr (sa : sockaddr) (slen : Z) : option xaddr :=
  if sa_family sa =? AF_INET then
    if slen <? SIZEOF_IN4 then None
    else Some (set_addr (slice 0 4 (sa_addr sa)) (mk_xaddr AF_INET (zeros 16) 0))
  else if sa_family sa =? AF_INET6 then
    if slen <? SIZEOF_IN6 then None
    else Some (set_addr (slice 0 16 (sa_addr sa)) (mk_xaddr AF_INET6 (zeros 16) (sa_scope sa)))
  else None.

Definition map2 (f : Z -> Z -> Z) : bytes -> bytes -> bytes :=
  fix go a b := match a, b with
                | x :: a, y :: b => byte_of_Z (f (byte_val x) (byte_val y)) :: go a b
                | _, _ => []
                end.

Definition not_bytes (v : bytes) : bytes := map (fun c => byte_of_Z (255 - byte_val c)) v.

Definition addr_invert (n : xaddr) : option xaddr :=
  if af n =? AF_INET then Some (set_addr (not_bytes (slice 0 4 (addr8 n))) n)
  else if af n =? AF_INET6 then Some (set_addr (not_bytes (slice 0 16 (addr8 n))) n)
  else None.

(** [htonl((0xffffffff << (32 - l)) & 0xffffffff)]. *)
Definition mask_word (l : Z) : bytes :=
  POKE_U32 (Z.land (u32 (Z.shiftl 0xffffffff (32 - l))) 0xffffffff).

(** The loop over the four words of an IPv6 mask. *)
Fixpoint mask_words (i : nat) (l : Z) : bytes :=
  match i with
  | O => []
  | S i =>
    if 32 <=? l then [xff; xff; xff; xff] ++ mask_words i (l - 32)
    else if l =? 0 then [] else mask_word l
  end.

Definition addr_netmask (af_ l : Z) : option xaddr :=
  if negb (masklen_valid af_ l =? 0) then None
  else if af_ =? AF_INET then
    Some (if l =? 0 then mk_xaddr AF_INET (zeros 16) 0
          else set_addr (mask_word l) (mk_xaddr AF_INET (zeros 16) 0))
  else if af_ =? AF_INET6 then
    Some (set_addr (mask_words 4 l) (mk_xaddr AF_INET6 (zeros 16) 0))
  else None.

Definition addr_hostmask (af_ l : Z) : option xaddr :=
  n ← addr_netmask af_ l; addr_invert n.

Definition addr_and (a b : xaddr) : option xaddr :=
  if negb (af a =? af b) then None
  else if af a =? AF_INET then
    Some (set_addr (map2 Z.land (slice 0 4 (addr8 a)) (slice 0 4 (addr8 b))) a)
  else if af a =? AF_INET6 then
    Some (set_addr (map2 Z.land (slice 0 16 (addr8 a)) (slice 0 16 (addr8 b))) a)
  else None.

Fixpoint bytes_cmp (a b : bytes) : Z :=
  match a, b with
  | x :: a, y :: b =>
    let d := byte_val x - byte_val y in if negb (d =? 0) then d else bytes_cmp a b
  | _, _ => 0
  end.

Definition addr_cmp (a b : xaddr) : Z :=
  if negb (af a =? af b) then (if af a =? AF_INET6 then 1 else -1)
  else if af a =? AF_INET then
    let va := PEEK_U32 (slice 0 4 (addr8 a)) in
    let vb := PEEK_U32 (slice 0 4 (addr8 b)) in
    if va =? vb then 0 else if va >? vb then 1 else -1
  else if af a =? AF_INET6 then
    let d := bytes_cmp (slice 0 16 (addr8 a)) (slice 0 16 (addr8 b)) in
    if negb (d =? 0) then d
    else if scope_id a =? scope_id b then 0
    else if scope_id a >? scope_id b then 1 else -1
  else -1.

Definition all_zero (v : bytes) : bool := forallb (fun c => byte_val c =? 0) v.

Definition addr_is_all0s (a : xaddr) : Z :=
  if af a =? AF_INET then (if all_zero (slice 0 4 (addr8 a)) then 0 else -1)
  else if af a =? AF_INET6 then (if all_zero (slice 0 16 (addr8 a)) then 0 else -1)
  else -1.

Definition addr_host_is_all0s (a : xaddr) (masklen : Z) : Z :=
  match addr_hostmask (af a) masklen with
  | None => -1
  | Some tmp_mask =>
    match addr_and a tmp_mask with
    | None => -1
    | Some tmp_result => addr_is_all0s tmp_result
    end
  end.

Definition addr_netmatch (host net : xaddr) (masklen : Z) : Z :=
  if negb (af host =? af net) then -1
  else
  match addr_netmask (af host) masklen with
  | None => -1
  | Some tmp_mask =>
    match addr_and host tmp_mask with
    | None => -1
    | Some tmp_result => addr_cmp tmp_result net
    end
  end.

(** ** Text *)

Section text.
(** [getaddrinfo(host, NULL, AI_NUMERICHOST)]: [None] on error, otherwise the first
    address, if there is one, with its length. *)
Context (getaddrinfo : bytes -> option (option (sockaddr * Z))).
(** [getnameinfo(sa, salen, host, hostlen, NI_NUMERICHOST)]: the text. *)
Context (getnameinfo : sockaddr -> Z -> Z -> option bytes).

Definition addr_pton (p : option bytes) : option xaddr :=
  p ← p;
  ai ← getaddrinfo p;
  '(sa, len) ← ai;
  addr_sa_to_xaddr sa len.

(** [len]: the size of the buffer ([None] is the null pointer). *)
Definition addr_ntop (n : xaddr) (len : option Z) : option bytes :=
  '(ss, slen) ← addr_xaddr_to_sa n 128 0;
  len ← len;
  if len =? 0 then None else getnameinfo ss slen len.

(** Errors of [addr_pton_cidr]: parse error (-1), inconsistency (-2). *)
Inductive cidr_error := CIDR_PARSE | CIDR_INCONSISTENT.

(** A network and its mask length, or the error. *)
Definition addr_pton_cidr (p : option bytes) : (xaddr * Z) + cidr_error :=
  match p with
  | None => inr CIDR_PARSE
  | Some p =>
    let '(addrbuf, n) := strlcpy_str p 64 in
    if n >=? 64 then inr CIDR_PARSE
    else
    let parsed :=
      match strchr (chr 47) addrbuf with
      | None => inl (addrbuf, None)
      | Some (addr, mp) =>
        let '(masklen, cp) := strtoul mp in
        if is_nil mp || negb (is_nil cp) || (masklen >? 128) then inr CIDR_PARSE
        else inl (addr, Some masklen)
      end in
    match parsed with
    | inr e => inr e
    | inl (addr, mp) =>
      match addr_pton (Some addr) with
      | None => inr CIDR_PARSE
      | Some tmp =>
        let masklen := match mp with Some l => l | None => u64 (addr_unicast_masklen (af tmp)) end in
        if masklen_valid (af tmp) (u32 masklen) =? -1 then inr CIDR_INCONSISTENT
        else if negb (addr_host_is_all0s tmp (u32 masklen) =? 0) then inr CIDR_INCONSISTENT
        else inl (tmp, u32 masklen)
      end
    end
  end.

(** ** addrmatch.c *)

(** The loop of [addr_match_list]; [try]: the address and its parsed form. *)
Fixpoint addr_match_loop (fuel : nat) (addr : option (bytes * xaddr)) (list_ : option bytes)
    (ret : Z) : Z :=
  match fuel with
  | O => ret
  | S fuel =>
    match strsep list_ SEP with
    | None => ret
    | Some (cp, list_) =>
      let neg := match cp with c :: _ => byte_eqb c BANG | [] => false end in
      let cp := if neg then tl cp else cp in
      if is_nil cp then -2
      else
      let found :=
        match addr_pton_cidr (Some cp) with
        | inr CIDR_INCONSISTENT => None
        | inl (match_addr, masklen) =>
          Some match addr with
               | Some (_, try_addr) => addr_netmatch try_addr match_addr masklen =? 0
               | None => false
               end
        | inr CIDR_PARSE =>
          Some match addr with Some (a, _) => match_pattern a cp | None => false end
        end in
      match found with
      | None => -2
      | Some true => if neg then -1 else addr_match_loop fuel addr list_ 1
      | Some false => addr_match_loop fuel addr list_ ret
      end
    end
  end.

(** The address to look for, parsed; [None]: it does not parse. *)
Definition parse_addr (addr : option bytes) : option (option (bytes * xaddr)) :=
  match addr with
  | None => Some None
  | Some a => option_map (fun x => Some (a, x)) (addr_pton (Some a))
  end.

(** [strdup_ok]: the copy of the list was allocated. *)
Definition addr_match_list (strdup_ok : bool) (addr : option bytes) (list_ : bytes) : Z :=
  match parse_addr addr with
  | None => 0
  | Some try_ =>
    if negb strdup_ok then -1
    else addr_match_loop (S (S (length list_))) try_ (Some list_) 0
  end.

Definition INET6_ADDRSTRLEN : Z := 46.
Definition VALID_CIDR_CHARS : bytes := lit "0123456789abcdefABCDEF.:/".

Fixpoint cidr_list_loop (fuel : nat) (addr : option (bytes * xaddr)) (list_ : option bytes)
    (ret : Z) : Z :=
  match fuel with
  | O => ret
  | S fuel =>
    match strsep list_ SEP with
    | None => ret
    | Some (cp, list_) =>
      if is_nil cp then -1
      else if zlen cp >? INET6_ADDRSTRLEN + 3 then -1
      else
      let ret := if negb (strspn cp VALID_CIDR_CHARS =? zlen cp) then -1 else ret in
      match addr_pton_cidr (Some cp) with
      | inr _ => -1
      | inl (match_addr, masklen) =>
        let ret := match addr with
                   | Some (_, try_addr) =>
                     if addr_netmatch try_addr match_addr masklen =? 0 then 1 else ret
                   | None => ret
                   end in
        cidr_list_loop fuel addr list_ ret
      end
    end
  end.

Definition addr_match_cidr_list (strdup_ok : bool) (addr : option bytes) (list_ : bytes) : Z :=
  match parse_addr addr with
  | None => 0
  | Some try_ =>
    if negb strdup_ok then -1
    else cidr_list_loop (S (S (length list_))) try_ (Some list_) 0
  end.

(** ** match.c *)

Definition match_host_and_ip (strdup_ok : bool) (host ipaddr : option bytes)
    (patterns : bytes) : Z :=
  let mip := addr_match_list strdup_ok ipaddr patterns in
  if mip =? -2 then -1
  else
  match host, ipaddr with
  | Some host, Some _ =>
    if mip =? -1 then 0
    else
    let mhost := match_hostname host patterns in
    if mhost =? -1 then 0
    else if (mhost =? 0) && (mip =? 0) then 0 else 1
  | _, _ => 0
  end.

Definition AT : byte := chr 64.

(** [None] for [user]: only the pattern is checked when [host] and [ipaddr] are null
    too; otherwise a null [user] would be dereferenced. *)
Definition match_user (strdup_ok : bool) (user host ipaddr : option bytes) (pattern : bytes)
    : option Z :=
  match user, host, ipaddr with
  | None, None, None =>
    Some match strchr AT pattern with
         | Some (_, p) => if match_host_and_ip strdup_ok None None p <? 0 then -1 else 0
         | None => 0
         end
  | None, _, _ => None
  | Some user, _, _ =>
    Some match strchr AT pattern with
         | None => if match_pattern user pattern then 1 else 0
         | Some (pat, p) =>
           if match_pattern user pat then match_host_and_ip strdup_ok host ipaddr p else 0
         end
  end.
End text.
