(* ===== verification/AddrThms.v ===== *)
(** Matching a network is agreement on the first bits. *)

From S2P Require Import Prelude Wire Compat CompatThms Match MatchThms Addr.

(** ** Bits of byte strings *)

(** Bit [i] of a byte string, the most significant bit of the first byte being bit 0. *)
Definition bit (v : bytes) (i : nat) : bool :=
  Z.testbit (byte_val (nth (i / 8) v x00)) (7 - Z.of_nat (i mod 8)).

Lemma byte_high b k : 8 <= k -> Z.testbit (byte_val b) k = false.
Proof.
  intros H. pose proof (byte_val_range b).
  rewrite <- (Z.mod_small (byte_val b) (2 ^ 8)) by lia. apply Z.mod_pow2_bits_high. lia.
Qed.

Lemma byte_bits x y : (forall k, 0 <= k < 8 -> Z.testbit (byte_val x) k = Z.testbit (byte_val y) k) ->
  x = y.
Proof.
  intros H. apply byte_val_inj, Z.bits_inj'. intros k Hk.
  destruct (Z.lt_ge_cases k 8); [by apply H|]. by rewrite !byte_high.
Qed.

Lemma bit_cons c v i : bit (c :: v) (8 + i) = bit v i.
Proof.
  unfold bit. replace ((8 + i) / 8)%nat with (S (i / 8))%nat.
  - by replace ((8 + i) mod 8)%nat with (i mod 8)%nat
      by (rewrite (Nat.Div0.add_mod 8 i), Nat.Div0.mod_same, Nat.add_0_l, Nat.Div0.mod_mod; done).
  - rewrite (Nat.add_comm 8 i). replace (i + 8)%nat with (i + 1 * 8)%nat by lia.
    rewrite Nat.div_add by lia. lia.
Qed.

Lemma bit_head c v i : (i < 8)%nat -> bit (c :: v) i = Z.testbit (byte_val c) (7 - Z.of_nat i).
Proof. intros. unfold bit. rewrite Nat.div_small, Nat.mod_small by lia. done. Qed.

Lemma bits_ext a : forall b, length a = length b ->
  (forall i, (i < 8 * length a)%nat -> bit a i = bit b i) -> a = b.
Proof.
  induction a as [|x a IH]; intros [|y b] Hl H; cbn in Hl; try done. f_equal.
  - apply byte_bits. intros k Hk. pose proof (H (Z.to_nat (7 - k))) as E.
    rewrite !bit_head in E by lia. rewrite Z2Nat.id in E by lia.
    replace (7 - (7 - k)) with k in E by lia. apply E. cbn. lia.
  - apply IH; [lia|]. intros i Hi. specialize (H (8 + i)%nat). rewrite !bit_cons in H.
    apply H. cbn. lia.
Qed.

Lemma map2_length f a : forall b, length a = length b -> length (map2 f a b) = length a.
Proof. induction a as [|x a IH]; intros [|y b] H; cbn in *; try done. rewrite IH; lia. Qed.

Lemma bit_and a : forall b i, length a = length b -> (i < 8 * length a)%nat ->
  bit (map2 Z.land a b) i = bit a i && bit b i.
Proof.
  induction a as [|x a IH]; intros [|y b] i Hl Hi; cbn in Hl, Hi; try lia. cbn [map2].
  destruct (Nat.lt_ge_cases i 8) as [H8|H8].
  - rewrite !bit_head by done. rewrite byte_val_of_Z. change 256 with (2 ^ 8).
    rewrite Z.mod_pow2_bits_low by lia. apply Z.land_spec.
  - replace i with (8 + (i - 8))%nat by lia. rewrite !bit_cons. apply IH; lia.
Qed.

Lemma bit_slice n v i : (i < 8 * n)%nat -> bit (slice 0 (Z.of_nat n) v) i = bit v i.
Proof.
  intros H. unfold bit, slice. rewrite Nat2Z.id, drop_0.
  f_equal. f_equal. rewrite !nth_lookup, lookup_take_lt; [done|].
  apply Nat.Div0.div_lt_upper_bound. lia.
Qed.

(** ** Masks *)

Definition width (af_ : Z) : Z := if af_ =? AF_INET then 32 else 128.

(** An address has sixteen bytes and a known family. *)
Definition addr_ok (a : xaddr) : Prop :=
  length (addr8 a) = 16%nat /\ (af a = AF_INET \/ af a = AF_INET6).

Lemma masklen_valid_spec f l : f = AF_INET \/ f = AF_INET6 ->
  masklen_valid f l = if l <=? width f then 0 else -1.
Proof. by intros [-> | ->]. Qed.

(** The bytes of the mask of length [l], and all their bits. *)
Definition mask_check (f : Z) : bool :=
  forallb (fun l =>
    match addr_netmask f (Z.of_nat l) with
    | Some n => (length (addr8 n) =? 16)%nat && (af n =? f) &&
        forallb (fun i => Bool.eqb (bit (addr8 n) i) (i <? l)%nat)
          (seq 0 (Z.to_nat (width f)))
    | None => false
    end) (seq 0 (S (Z.to_nat (width f)))).

Lemma mask_check_ok : mask_check AF_INET && mask_check AF_INET6 = true.
Proof. by vm_compute. Qed.

Lemma netmask_spec f l : f = AF_INET \/ f = AF_INET6 -> 0 <= l <= width f ->
  exists n, addr_netmask f l = Some n /\ af n = f /\ length (addr8 n) = 16%nat /\
    forall i, Z.of_nat i < width f -> bit (addr8 n) i = (Z.of_nat i <? l).
Proof.
  intros Hf Hl. pose proof mask_check_ok as C. rewrite andb_true_iff in C.
  assert (Cf : mask_check f = true) by (by destruct Hf as [-> | ->]).
  unfold mask_check in Cf. rewrite forallb_forall in Cf.
  specialize (Cf (Z.to_nat l)). rewrite Z2Nat.id in Cf by lia.
  assert (Hin : In (Z.to_nat l) (seq 0 (S (Z.to_nat (width f))))) by (apply in_seq; lia).
  specialize (Cf Hin). destruct (addr_netmask f l) as [n|]; [|done].
  rewrite !andb_true_iff, Nat.eqb_eq, Z.eqb_eq, forallb_forall in Cf.
  destruct Cf as [[H1 H2] H3]. exists n. split_and!; try done. intros i Hi.
  specialize (H3 i). rewrite eqb_true_iff in H3. rewrite H3 by (apply in_seq; lia).
  destruct (Nat.ltb_spec i (Z.to_nat l)), (Z.ltb_spec (Z.of_nat i) l); lia || done.
Qed.

Lemma netmask_invalid f l : f = AF_INET \/ f = AF_INET6 -> width f < l ->
  addr_netmask f l = None.
Proof.
  intros Hf Hl. unfold addr_netmask. rewrite masklen_valid_spec by done.
  by destruct (Z.leb_spec l (width f)); [lia|].
Qed.

(** ** Comparison *)

Lemma bytes_cmp_eq a : forall b, length a = length b -> bytes_cmp a b = 0 <-> a = b.
Proof.
  induction a as [|x a IH]; intros [|y b] H; cbn in *; try done.
  destruct (Z.eqb_spec (byte_val x - byte_val y) 0) as [E|N]; cbn [negb].
  - rewrite IH by lia. assert (x = y) as -> by (apply byte_val_inj; lia).
    split; [by intros ->|by intros [=]].
  - split; [done|]. intros [= -> ->]. lia.
Qed.

Lemma PEEK_U32_inj a b : length a = 4%nat -> length b = 4%nat ->
  PEEK_U32 a = PEEK_U32 b -> a = b.
Proof.
  intros Ha Hb E. destruct a as [|a0 [|a1 [|a2 [|a3 [|]]]]]; try done.
  destruct b as [|b0 [|b1 [|b2 [|b3 [|]]]]]; try done.
  by rewrite <- (POKE_PEEK_U32 a0 a1 a2 a3), E, POKE_PEEK_U32.
Qed.

(** The bytes that carry the address of a family. *)
Definition addr_bytes (a : xaddr) : bytes := slice 0 (width (af a) / 8) (addr8 a).

Lemma addr_bytes_length a : addr_ok a -> length (addr_bytes a) = Z.to_nat (width (af a) / 8).
Proof.
  intros [Hl Hf]. unfold addr_bytes, slice. rewrite drop_0, length_take, Hl.
  by destruct Hf as [-> | ->].
Qed.

Lemma addr_cmp_eq a b : addr_ok a -> addr_ok b -> addr_cmp a b = 0 <->
  af a = af b /\ addr_bytes a = addr_bytes b /\ (af a = AF_INET6 -> scope_id a = scope_id b).
Proof.
  intros Oa Ob. pose proof (addr_bytes_length a Oa) as La. pose proof (addr_bytes_length b Ob) as Lb.
  unfold addr_cmp. destruct (Z.eqb_spec (af a) (af b)) as [Ef|Nf]; cbn [negb].
  2:{ split; [by destruct (_ =? _)|tauto]. }
  rewrite <- Ef in Lb. unfold addr_bytes in *. rewrite <- Ef in *. destruct Oa as [_ [Fa|Fa]]; rewrite Fa in *.
  - change (width AF_INET / 8) with 4 in *. cbn [Z.eqb AF_INET Pos.eqb].
    destruct (Z.eqb_spec (PEEK_U32 (slice 0 4 (addr8 a))) (PEEK_U32 (slice 0 4 (addr8 b)))) as [E|N].
    + split; [|done]. intros _. split_and!; [done| |done]. by apply PEEK_U32_inj.
    + split; [by destruct (_ >? _)|]. intros (_ & E & _). by rewrite E in N.
  - change (width AF_INET6 / 8) with 16 in *. cbn [Z.eqb AF_INET AF_INET6 Pos.eqb].
    pose proof (bytes_cmp_eq (slice 0 16 (addr8 a)) (slice 0 16 (addr8 b))) as C.
    rewrite La, Lb in C. specialize (C eq_refl).
    destruct (Z.eqb_spec (bytes_cmp (slice 0 16 (addr8 a)) (slice 0 16 (addr8 b))) 0) as [E|N]; cbn [negb].
    + destruct (Z.eqb_spec (scope_id a) (scope_id b)).
      * split; [|done]. intros _. split_and!; try done. by apply C.
      * split; [by destruct (_ >? _)|]. intros (_ & _ & H). by specialize (H eq_refl).
    + split; [done|]. intros (_ & H & _). by apply C in H.
Qed.

Lemma set_addr_bytes a v : addr_ok a -> length v = Z.to_nat (width (af a) / 8) ->
  addr_ok (set_addr v a) /\ addr_bytes (set_addr v a) = v.
Proof.
  intros [Hl Hf] Hv.
  assert (length v <= 16)%nat by (rewrite Hv; destruct Hf as [-> | ->]; vm_compute; lia).
  unfold addr_ok, addr_bytes, set_addr. cbn [addr8 af].
  unfold blit, slice, zlen. change (Z.to_nat 0) with 0%nat. rewrite drop_0. cbn [take app Nat.add].
  rewrite take_0. cbn [app]. split.
  - split; [|done]. rewrite length_app, length_drop, Hl. lia.
  - rewrite take_app_le by lia. by rewrite take_ge by lia.
Qed.

Lemma addr_and_spec a m : addr_ok a -> length (addr8 m) = 16%nat -> af m = af a ->
  exists r, addr_and a m = Some r /\ addr_ok r /\ af r = af a /\ scope_id r = scope_id a /\
    addr_bytes r = map2 Z.land (addr_bytes a) (addr_bytes m).
Proof.
  intros O Lm Fm. pose proof O as [La Fa]. unfold addr_and. rewrite Fm, Z.eqb_refl. cbn [negb].
  assert (L : length (map2 Z.land (addr_bytes a) (addr_bytes m)) = Z.to_nat (width (af a) / 8)).
  { assert (Om : addr_ok m) by (split; [done|by rewrite Fm]).
    rewrite map2_length; rewrite !addr_bytes_length by done; [done|by rewrite Fm]. }
  destruct (set_addr_bytes a _ O L) as [O' E'].
  exists (set_addr (map2 Z.land (addr_bytes a) (addr_bytes m)) a).
  split_and!; try done. unfold addr_bytes. rewrite Fm. by destruct Fa as [-> | ->].
Qed.

(** ** Theorems *)

Lemma bit_addr_bytes a i : addr_ok a -> Z.of_nat i < width (af a) ->
  bit (addr_bytes a) i = bit (addr8 a) i.
Proof.
  intros [_ Hf] Hi. unfold addr_bytes.
  rewrite <- (Z2Nat.id (width (af a) / 8)) by (destruct Hf as [-> | ->]; vm_compute; discriminate).
  apply bit_slice. destruct Hf as [E|E]; rewrite E in *.
  - change (width AF_INET) with 32 in *. change (Z.to_nat (32 / 8)) with 4%nat. lia.
  - change (width AF_INET6) with 128 in *. change (Z.to_nat (128 / 8)) with 16%nat. lia.
Qed.

Lemma width_bytes a : addr_ok a -> (8 * length (addr_bytes a))%nat = Z.to_nat (width (af a)).
Proof. intros O. rewrite addr_bytes_length by done. by destruct O as [_ [-> | ->]]. Qed.

(** Equality of addresses, bit by bit. *)
Lemma addr_bytes_ext a b : addr_ok a -> addr_ok b -> af a = af b ->
  addr_bytes a = addr_bytes b <->
  forall i, Z.of_nat i < width (af a) -> bit (addr8 a) i = bit (addr8 b) i.
Proof.
  intros Oa Ob E. split.
  - intros H i Hi. assert (Hb : Z.of_nat i < width (af b)) by (by rewrite <- E).
    by rewrite <- (bit_addr_bytes a), <- (bit_addr_bytes b), H.
  - intros H. apply bits_ext; [by rewrite !addr_bytes_length, E|].
    intros i. rewrite width_bytes by done. intros Hi.
    assert (Ha : Z.of_nat i < width (af a)) by lia.
    assert (Hb : Z.of_nat i < width (af b)) by (by rewrite <- E).
    rewrite (bit_addr_bytes a), (bit_addr_bytes b) by done. by apply H.
Qed.

Lemma netmatch_spec host net masklen (Hh : addr_ok host) (Hn : addr_ok net)
    (Hl : 0 <= masklen) :
  addr_netmatch host net masklen = 0 <->
  af host = af net /\ masklen <= width (af host) /\
  (af host = AF_INET6 -> scope_id host = scope_id net) /\
  (forall i, Z.of_nat i < width (af host) ->
     bit (addr8 net) i = (Z.of_nat i <? masklen) && bit (addr8 host) i).
Proof.
  unfold addr_netmatch. destruct (Z.eqb_spec (af host) (af net)) as [Ef|Nf]; cbn [negb].
  2:{ split; [done|tauto]. }
  pose proof Hh as [_ Fh]. destruct (Z.le_gt_cases masklen (width (af host))) as [Hw|Hw].
  2:{ rewrite netmask_invalid by done. split; [done|lia]. }
  destruct (netmask_spec (af host) masklen Fh ltac:(lia)) as (m & -> & Fm & Lm & Bm).
  assert (Om : addr_ok m) by (split; [done|by rewrite Fm]).
  destruct (addr_and_spec host m Hh Lm Fm) as (r & -> & Or & Fr & Sr & Br).
  rewrite (addr_cmp_eq r net Or Hn), Fr, Sr.
  assert (Bits : forall i, Z.of_nat i < width (af host) ->
    bit (addr8 r) i = bit (addr8 host) i && (Z.of_nat i <? masklen)).
  { intros i Hi. rewrite <- (bit_addr_bytes r), Br by (done || by rewrite Fr).
    assert (Hlen : length (addr_bytes host) = length (addr_bytes m))
      by (rewrite !addr_bytes_length, Fm by done; done).
    pose proof (width_bytes host Hh). rewrite bit_and by (done || lia).
    rewrite !bit_addr_bytes, Bm by (done || by rewrite ?Fm). done. }
  assert (Ern : af r = af net) by congruence.
  rewrite (addr_bytes_ext r net Or Hn Ern), Fr. split.
  - intros (_ & H & S). split_and!; try done. intros i Hi. rewrite <- H, Bits by done.
    apply andb_comm.
  - intros (_ & _ & S & H). split_and!; try done. intros i Hi. rewrite Bits, H by done.
    apply andb_comm.
Qed.

(** Claim C38.  [addr_netmatch] finds a host in a network exactly when both have the same
    family (and, for IPv6, the same scope), the mask length is one of that family, and
    the network is the host's address with every bit from the mask length on cleared. *)
Theorem addr_netmatch_correct host net masklen (Hh : addr_ok host) (Hn : addr_ok net)
    (Hl : 0 <= masklen) :
  addr_netmatch host net masklen = 0 <->
  af host = af net /\ masklen <= width (af host) /\
  (af host = AF_INET6 -> scope_id host = scope_id net) /\
  (forall i, Z.of_nat i < width (af host) ->
     bit (addr8 net) i = (Z.of_nat i <? masklen) && bit (addr8 host) i).
Proof. exact (netmatch_spec host net masklen Hh Hn Hl). Qed.

(** 192.0.2.77 in 192.0.2.64/26. *)
Definition ip4 (a b c d : Z) : xaddr :=
  mk_xaddr AF_INET (map byte_of_Z [a; b; c; d] ++ zeros 12) 0.

Lemma ip4_ok a b c d : addr_ok (ip4 a b c d).
Proof. split; [done|by left]. Qed.

Lemma addr_netmatch_correct_witness :
  bit (addr8 (ip4 192 0 2 64)) 25 = (25 <? 26) && bit (addr8 (ip4 192 0 2 77)) 25.
Proof.
  apply (addr_netmatch_correct (ip4 192 0 2 77) (ip4 192 0 2 64) 26
    (ip4_ok _ _ _ _) (ip4_ok _ _ _ _)); [discriminate|vm_compute; reflexivity|reflexivity].
Defined.

Lemma invert_bit v i : (i < 8 * length v)%nat -> bit (not_bytes v) i = negb (bit v i).
Proof.
  revert i. induction v as [|c v IH]; intros i Hi; cbn in Hi; [lia|]. cbn [not_bytes map].
  destruct (Nat.lt_ge_cases i 8) as [H8|H8].
  - rewrite !bit_head by done. set (k := 7 - Z.of_nat i).
    assert (Hk : k ∈ [0; 1; 2; 3; 4; 5; 6; 7]).
    { apply list_elem_of_In. destruct i as [|[|[|[|[|[|[|[|]]]]]]]]; try lia; cbn; tauto. }
    apply eqb_prop.
    apply (byte_forall (fun c => Bool.eqb (Z.testbit (byte_val (byte_of_Z (255 - byte_val c))) k)
      (negb (Z.testbit (byte_val c) k)))).
    repeat (apply elem_of_cons in Hk as [->|Hk]; [by vm_compute|]). by apply elem_of_nil in Hk.
  - replace i with (8 + (i - 8))%nat by lia. rewrite !bit_cons. apply IH. lia.
Qed.

Lemma all_zero_bits v : all_zero v = true <-> forall i, (i < 8 * length v)%nat -> bit v i = false.
Proof.
  split.
  - intros H i Hi. unfold bit. rewrite nth_lookup. destruct (v !! (i / 8)%nat) as [c|] eqn:E.
    + unfold all_zero in H. rewrite forallb_forall in H.
      specialize (H c). rewrite Z.eqb_eq in H. cbn. rewrite H, Z.bits_0; [done|].
      apply list_elem_of_In. by eapply list_elem_of_lookup_2.
    + cbn. apply Z.bits_0.
  - intros H. assert (v = zeros (zlen v)) as ->.
    + apply bits_ext; [unfold zeros, zlen; rewrite length_replicate; lia|].
      intros i Hi. rewrite H by done. unfold bit, zeros. rewrite nth_lookup.
      destruct (replicate (Z.to_nat (zlen v)) x00 !! (i / 8)%nat) as [c|] eqn:E; cbn.
      * apply lookup_replicate in E as [-> _]. symmetry. apply Z.bits_0.
      * symmetry. apply Z.bits_0.
    + unfold zeros. induction (Z.to_nat (zlen v)); done.
Qed.

Lemma is_all0s_bits a : addr_ok a -> addr_is_all0s a = 0 <-> all_zero (addr_bytes a) = true.
Proof.
  intros [_ Hf]. unfold addr_is_all0s, addr_bytes. destruct Hf as [E|E]; rewrite E.
  - change (width AF_INET / 8) with 4. cbn [Z.eqb AF_INET Pos.eqb]. by destruct (all_zero _).
  - change (width AF_INET6 / 8) with 16. cbn [Z.eqb AF_INET AF_INET6 Pos.eqb].
    by destruct (all_zero _).
Qed.

Lemma addr_invert_spec m : addr_ok m -> exists n, addr_invert m = Some n /\ addr_ok n /\
  af n = af m /\ addr_bytes n = not_bytes (addr_bytes m).
Proof.
  intros O. assert (L : length (not_bytes (addr_bytes m)) = Z.to_nat (width (af m) / 8))
    by (unfold not_bytes; rewrite length_map; by apply addr_bytes_length).
  destruct (set_addr_bytes m _ O L) as [O' E'].
  exists (set_addr (not_bytes (addr_bytes m)) m). split_and!; try done.
  unfold addr_invert, addr_bytes. by destruct O as [_ [-> | ->]].
Qed.

(** The host part is zero: every bit from the mask length on is. *)
Lemma host_is_all0s_spec a l : addr_ok a -> 0 <= l <= width (af a) ->
  addr_host_is_all0s a l = 0 <->
  forall i, l <= Z.of_nat i < width (af a) -> bit (addr8 a) i = false.
Proof.
  intros O Hl. pose proof O as [_ Fa]. unfold addr_host_is_all0s, addr_hostmask.
  destruct (netmask_spec (af a) l Fa Hl) as (m & -> & Fm & Lm & Bm).
  assert (Om : addr_ok m) by (split; [done|by rewrite Fm]).
  cbn [mbind option_bind].
  destruct (addr_invert_spec m Om) as (n & -> & On & Fn & Bn).
  rewrite Fm in Fn. destruct On as [Ln Fn'].
  destruct (addr_and_spec a n O Ln Fn) as (r & -> & Or & Fr & _ & Br).
  rewrite is_all0s_bits, all_zero_bits by done. rewrite width_bytes, Fr by done.
  assert (Bits : forall i, Z.of_nat i < width (af a) ->
    bit (addr_bytes r) i = bit (addr8 a) i && negb (Z.of_nat i <? l)).
  { intros i Hi. pose proof (width_bytes a O). pose proof (width_bytes m Om).
    assert (Hlen : length (addr_bytes a) = length (addr_bytes m))
      by (rewrite !addr_bytes_length, Fm by done; done).
    rewrite Br, Bn, bit_and, invert_bit; [|rewrite <- Hlen; lia| |lia].
    - rewrite !bit_addr_bytes, Bm by (done || by rewrite ?Fm). done.
    - unfold not_bytes. by rewrite length_map. }
  split.
  - intros H i Hi. specialize (H i). rewrite Bits in H by lia.
    destruct (Z.ltb_spec (Z.of_nat i) l); [lia|]. rewrite andb_true_r in H. apply H. lia.
  - intros H i Hi. rewrite Bits by lia. destruct (Z.ltb_spec (Z.of_nat i) l); cbn;
      [apply andb_false_r|]. rewrite H by lia. done.
Qed.

Lemma sa_to_xaddr_ok sa len x : 16 <= zlen (sa_addr sa) \/
    (sa_family sa = AF_INET /\ 4 <= zlen (sa_addr sa)) ->
  addr_sa_to_xaddr sa len = Some x -> addr_ok x.
Proof.
  intros Hs. unfold addr_sa_to_xaddr.
  assert (Z16 : forall f s, f = AF_INET \/ f = AF_INET6 -> addr_ok (mk_xaddr f (zeros 16) s))
    by (intros; by split).
  destruct (Z.eqb_spec (sa_family sa) AF_INET) as [E|N].
  - destruct (_ <? _); [done|]. intros [= <-]. apply set_addr_bytes; [by apply Z16; left|].
    transitivity 4%nat; [|reflexivity].
    unfold slice. rewrite drop_0, length_take. unfold zlen in Hs. lia.
  - destruct (Z.eqb_spec (sa_family sa) AF_INET6) as [E|N']; [|done].
    destruct (_ <? _); [done|]. intros [= <-]. apply set_addr_bytes; [by apply Z16; right|].
    transitivity 16%nat; [|reflexivity].
    unfold slice. rewrite drop_0, length_take. unfold zlen in Hs.
    destruct Hs as [Hs|[Hs _]]; [lia|done].
Qed.

(** What [getaddrinfo] is relied on for: the address it returns has the bytes its family
    calls for. *)
Definition gai_ok (getaddrinfo : bytes -> option (option (sockaddr * Z))) : Prop :=
  forall s sa len, getaddrinfo s = Some (Some (sa, len)) ->
    16 <= zlen (sa_addr sa) \/ (sa_family sa = AF_INET /\ 4 <= zlen (sa_addr sa)).

Lemma addr_pton_ok gai p x : gai_ok gai -> addr_pton gai p = Some x -> addr_ok x.
Proof.
  intros G. unfold addr_pton. destruct p as [p|]; [|done]. cbn.
  destruct (gai p) as [[[sa len]|]|] eqn:E; try done. cbn. intros H.
  eapply sa_to_xaddr_ok; [by eapply G|exact H].
Qed.

(** A network that [addr_pton_cidr] accepts has a mask length of its family and
    no bit set after it, so that [addr_netmatch] then means what CIDR notation says: same
    family, same scope, and agreement on the first bits. *)
Lemma addr_pton_cidr_network gai p n l (G : gai_ok gai)
    (H : addr_pton_cidr gai (Some p) = inl (n, l)) :
  addr_ok n /\ 0 <= l <= width (af n) /\
  forall host, addr_ok host ->
    (addr_netmatch host n l = 0 <->
     af host = af n /\ (af host = AF_INET6 -> scope_id host = scope_id n) /\
     forall i, Z.of_nat i < l -> bit (addr8 host) i = bit (addr8 n) i).
Proof.
  unfold addr_pton_cidr in H. destruct (strlcpy_str p 64) as [buf k].
  destruct (k >=? 64); [done|]. cbv zeta in H.
  match type of H with match ?X with inl _ => _ | inr _ => _ end = _ => destruct X as [[a mp]|]; [|done] end.
  destruct (addr_pton gai (Some a)) as [x|] eqn:E; [|done].
  pose proof (addr_pton_ok gai (Some a) x G E) as O. pose proof O as [_ Fx].
  set (m := u32 match mp with Some l => l | None => u64 (addr_unicast_masklen (af x)) end) in H.
  rewrite masklen_valid_spec in H by done.
  destruct (Z.leb_spec m (width (af x))) as [Hm|Hm]; cbn [Z.eqb] in H; [|done].
  pose proof (u32_range match mp with Some l => l | None => u64 (addr_unicast_masklen (af x)) end) as Hr.
  fold m in Hr. destruct (Z.eqb_spec (addr_host_is_all0s x m) 0) as [Z0|]; [|done].
  injection H as <- <-. rewrite (host_is_all0s_spec x m O ltac:(lia)) in Z0.
  split; [done|]. split; [lia|]. intros host Oh.
  rewrite (netmatch_spec host x m Oh O ltac:(lia)). split.
  - intros (Ef & _ & Es & B). split_and!; try done. intros i Hi.
    rewrite B by (rewrite Ef; lia). by destruct (Z.ltb_spec (Z.of_nat i) m); [|lia].
  - intros (Ef & Es & B). rewrite Ef in *. split_and!; try done. intros i Hi.
    destruct (Z.ltb_spec (Z.of_nat i) m); cbn; [by rewrite B|]. apply Z0. lia.
Qed.

(** A resolver that knows two numeric addresses. *)
Definition gai_example (s : bytes) : option (option (sockaddr * Z)) :=
  if bool_decide (s = lit "192.0.2.64") then
    Some (Some (mk_sockaddr AF_INET [] (map byte_of_Z [192; 0; 2; 64]) 0, 16))
  else if bool_decide (s = lit "fe80::1%eth0") then
    Some (Some (mk_sockaddr AF_INET6 [] (map byte_of_Z ([254; 128] ++ replicate 13 0 ++ [1])) 2, 28))
  else None.

Lemma gai_example_ok : gai_ok gai_example.
Proof.
  intros s sa len. unfold gai_example. case_bool_decide; [intros [= <- <-]; by right|].
  case_bool_decide; [intros [= <- <-]; by left|done].
Qed.


