(* ===== verification/Stego.v ===== *)
(** The steganography program of laboratory 4 (bitmap_corr.C) and the file writer of
    laboratory 6 (soft_Q2.c).

    A row of pixels is a heap block of [nb_byte_line] bytes; [None] is an access outside
    of a block, which is undefined in C.  [junk n] is what a block of [n] bytes fresh
    from [new] or an uninitialised structure contains. *)

From S2P Require Import Prelude Compat.

(** ** Pixels and rows *)

Definition WHITE : Z := 0xFF.
Definition BLACK : Z := 0x0.
Definition DELTA : Z := 100.

Record RGB := mk_rgb { Blue : Z; Green : Z; Red : Z }.

(** [p[j]] of a row. *)
Definition get_pixel (row : bytes) (j : Z) : option RGB :=
  match slice (3 * j) 3 row with
  | [b; g; r] => Some (mk_rgb (byte_val b) (byte_val g) (byte_val r))
  | _ => None
  end.

Definition set_pixel (row : bytes) (j : Z) (p : RGB) : option bytes :=
  write_at (3 * j) [byte_of_Z (Blue p); byte_of_Z (Green p); byte_of_Z (Red p)] row.

(** One byte of a pixel: only it is read. *)
Definition get_byte (row : bytes) (i : Z) : option Z :=
  match slice i 1 row with [b] => Some (byte_val b) | _ => None end.

Definition change_channel (v : Z) : Z := if v >=? DELTA then u8 (v - DELTA) else u8 (v + DELTA).

Definition modifyPixel (p : RGB) : RGB :=
  mk_rgb (change_channel (Blue p)) (change_channel (Green p)) (change_channel (Red p)).

(** ** Files *)

(** [fread(buf, zlen buf, 1, f)]: what is left of the file when it is short stays in the
    buffer. *)
Definition fread (buf file : bytes) : bytes * bytes :=
  (blit 0 (take (length buf) file) buf, drop (length buf) file).

Definition SIZEOF_HEADER1 : Z := 14.
Definition SIZEOF_HEADER2 : Z := 40.

Definition le16 (v : bytes) (i : Z) : Z :=
  match slice i 2 v with [a; b] => byte_val a + 256 * byte_val b | _ => 0 end.

(** Fields of [BITMAP_HEADER2]. *)
Definition ImageWidth (h2 : bytes) : Z := le16 h2 4.
Definition ImageHeight (h2 : bytes) : Z := le16 h2 8.

Definition nb_byte_line (w : Z) : Z := w * 3 + w mod 4.

Section program.
Context (junk : Z -> bytes).

(** [n] rows of [len] bytes, each zeroed before it is read. *)
Fixpoint read_rows (n : nat) (len : Z) (file : bytes) : list bytes * bytes :=
  match n with
  | O => ([], file)
  | S n =>
    let '(row, file) := fread (zeros len) file in
    let '(rows, file) := read_rows n len file in (row :: rows, file)
  end.

(** Is pixel [j] of the hidden text other than white?  The colours are looked at from
    left to right, until one differs. *)
Definition not_white (row : bytes) (j : Z) : option bool :=
  b ← get_byte row (3 * j);
  if negb (b =? WHITE) then Some true
  else
  g ← get_byte row (3 * j + 1);
  if negb (g =? WHITE) then Some true
  else
  r ← get_byte row (3 * j + 2);
  Some (negb (r =? WHITE)).

(** One line.  [k] counts the pixels the hidden pointer has moved by; the column of the
    image is the [unsigned short] [j], which wraps around.  The fuel is at least the
    number of pixels of the hidden line plus one, so that the loop has left its line
    before the fuel is spent. *)
Fixpoint hide_line (n : nat) (k widthLoop : Z) (hidden row : bytes) : option bytes :=
  match n with
  | O => None
  | S n =>
    let j := u16 k in
    if negb (j <=? widthLoop) then Some row
    else
    nw ← not_white hidden k;
    row ← (if (nw : bool) then p ← get_pixel row j; set_pixel row j (modifyPixel p)
           else Some row);
    hide_line n (k + 1) widthLoop hidden row
  end.

(** The lines of the hidden text, read into the same buffer. *)
Fixpoint hide_lines (n : nat) (widthLoop : Z) (buf file : bytes) (rows : list bytes)
    : option (list bytes) :=
  match n, rows with
  | S n, row :: rows =>
    let '(buf, file) := fread buf file in
    row ← hide_line (S (length buf)) 0 widthLoop buf row;
    rows ← hide_lines n widthLoop buf file rows;
    Some (row :: rows)
  | _, rows => Some rows
  end.

(** The destination file. *)
Definition steganographyEncrypt (src hiddenSource : bytes) : option bytes :=
  let '(h1, src) := fread (junk SIZEOF_HEADER1) src in
  let '(h2, src) := fread (junk SIZEOF_HEADER2) src in
  let '(rows, _) := read_rows (Z.to_nat (ImageHeight h2)) (nb_byte_line (ImageWidth h2)) src in
  let '(_, hid) := fread (junk SIZEOF_HEADER1) hiddenSource in
  let '(hh2, hid) := fread (junk SIZEOF_HEADER2) hid in
  let buf := junk (nb_byte_line (ImageWidth hh2)) in
  let heightLoop := Z.min (ImageHeight hh2) (ImageHeight h2) in
  let widthLoop := Z.min (ImageWidth hh2) (ImageWidth h2) in
  rows ← hide_lines (Z.to_nat heightLoop) widthLoop buf hid rows;
  Some (h1 ++ h2 ++ concat rows).

(** One line of the comparison: [n] pixels from [j] on. *)
Fixpoint find_line (n : nat) (j : Z) (ori modified found : bytes) : option bytes :=
  match n with
  | O => Some found
  | S n =>
    a ← get_byte ori (3 * j + 2);
    b ← get_byte modified (3 * j + 2);
    found ← (if negb (a =? b) then set_pixel found j (mk_rgb BLACK BLACK BLACK)
             else Some found);
    find_line n (j + 1) ori modified found
  end.

Definition white_line (n : Z) : bytes := replicate (Z.to_nat n) (byte_of_Z WHITE).

Fixpoint find_lines (n : nat) (w len : Z) (bo bm fo fm : bytes) : option bytes :=
  match n with
  | O => Some []
  | S n =>
    let '(bo, fo) := fread bo fo in
    let '(bm, fm) := fread bm fm in
    found ← find_line (Z.to_nat w) 0 bo bm (white_line len);
    out ← find_lines n w len bo bm fo fm;
    Some (found ++ out)
  end.

Definition steganographyDecrypt (ori modified : bytes) : option bytes :=
  let '(h1, ori) := fread (junk SIZEOF_HEADER1) ori in
  let '(h2, ori) := fread (junk SIZEOF_HEADER2) ori in
  let '(_, modified) := fread (junk SIZEOF_HEADER1) modified in
  let '(m2, modified) := fread (junk SIZEOF_HEADER2) modified in
  let len := nb_byte_line (ImageWidth h2) in
  out ← find_lines (Z.to_nat (ImageHeight h2)) (ImageWidth h2) len (junk len)
          (junk (nb_byte_line (ImageWidth m2))) ori modified;
  Some (h1 ++ h2 ++ out).
End program.

(** ** soft_Q2.c *)

Definition NB_SMALL_FILE : nat := 1000.
Definition SIZE_SMALL : Z := 1024.
Definition SIZE_BIG : Z := 1048576.

(** The characters [fprintf(fp, tab)] prints: up to the first NUL of the memory from
    [tab] on.  [None]: no NUL is found, or a conversion ([%]) is found before it. *)
Fixpoint until_nul (m : bytes) : option bytes :=
  match m with
  | [] => None
  | c :: m => if byte_eqb c NUL then Some []
              else if byte_eqb c (chr 37) then None
              else option_map (cons c) (until_nul m)
  end.

(** [after]: the memory that follows the array on the stack. *)
Definition fill_and_print (size : Z) (after : bytes) : option bytes :=
  until_nul (replicate (Z.to_nat size) (byte_of_Z 97) ++ after).

(** [sprintf("%03d")] for up to three digits. *)
Definition three_digits (i : nat) : bytes :=
  map (fun d => byte_of_Z (48 + Z.of_nat d)) [(i / 100) mod 10; (i / 10) mod 10; i mod 10]%nat.

Definition small_name (i : nat) : bytes := lit "smallfile_" ++ three_digits i ++ lit ".ses".

(** The files written, and the return value; [fopen_ok name]: the file can be opened. *)
Fixpoint small_files (n i : nat) (fopen_ok : bytes -> bool) (after : bytes)
    (fs : gmap bytes bytes) : option (gmap bytes bytes * Z) :=
  match n with
  | O => Some (fs, 0)
  | S n =>
    if negb (fopen_ok (small_name i)) then Some (fs, -1)
    else
    text ← fill_and_print SIZE_SMALL after;
    small_files n (S i) fopen_ok after (<[small_name i := text]> fs)
  end.

Definition writeSmallFiles (fopen_ok : bytes -> bool) (after : bytes) (fs : gmap bytes bytes)
    : option (gmap bytes bytes * Z) :=
  small_files NB_SMALL_FILE 0 fopen_ok after fs.

Definition writeBigFile (fopen_ok : bytes -> bool) (after : bytes) (fs : gmap bytes bytes)
    : option (gmap bytes bytes * Z) :=
  if negb (fopen_ok (lit "bigfile.ses")) then Some (fs, -1)
  else
  text ← fill_and_print SIZE_BIG after;
  Some (<[lit "bigfile.ses" := text]> fs, 0).

(** ** Proofs: hiding and finding *)

#[local] Arguments fread : simpl never.

Lemma change_channel_neq v : 0 <= v < 256 -> 0 <= change_channel v < 256 /\ change_channel v <> v.
Proof.
  intros H. unfold change_channel, DELTA, u8, wrap. rewrite Z.geb_leb.
  destruct (Z.leb_spec 100 v); rewrite Z.mod_small by lia; lia.
Qed.

(** Changing twice gives the channel back only between 56 and 199; in any case the change
    is by exactly [DELTA]. *)
Lemma change_channel_delta v : 0 <= v < 256 -> Z.abs (change_channel v - v) = DELTA.
Proof.
  intros H. unfold change_channel, DELTA, u8, wrap. rewrite Z.geb_leb.
  destruct (Z.leb_spec 100 v); rewrite Z.mod_small by lia; lia.
Qed.

Lemma slice_3 (row : bytes) o : 0 <= o -> o + 3 <= zlen row ->
  exists a b c, slice o 3 row = [a; b; c].
Proof.
  intros H1 H2. pose proof (zlen_slice o 3 row H1 ltac:(lia) H2) as L.
  destruct (slice o 3 row) as [|a [|b [|c [|d l]]]]; unfold zlen in L; cbn in L; try lia.
  by exists a, b, c.
Qed.

Lemma zlen_slice_le {A} o n (l : list A) : 0 <= n -> zlen (slice o n l) <= n.
Proof. intros. unfold slice, zlen. rewrite length_take. lia. Qed.

Lemma get_byte_out row i : zlen row <= i -> get_byte row i = None.
Proof.
  intros H. unfold get_byte, slice. by rewrite drop_ge by (unfold zlen in H; lia).
Qed.

(** A pixel inside a row, and its bytes. *)
Lemma get_pixel_ok row j : 0 <= j -> 3 * j + 3 <= zlen row ->
  exists p, get_pixel row j = Some p.
Proof.
  intros H1 H2. destruct (slice_3 row (3 * j)) as (a & b & c & E); [lia..|].
  unfold get_pixel. rewrite E. eauto.
Qed.

Lemma get_pixel_bytes row j p : 0 <= j -> get_pixel row j = Some p ->
  get_byte row (3 * j) = Some (Blue p) /\ get_byte row (3 * j + 1) = Some (Green p) /\
  get_byte row (3 * j + 2) = Some (Red p) /\
  0 <= Blue p < 256 /\ 0 <= Green p < 256 /\ 0 <= Red p < 256.
Proof.
  intros Hj. unfold get_pixel, get_byte.
  destruct (slice (3 * j) 3 row) as [|a [|b [|c [|d l]]]] eqn:E; [done..| |done].
  intros [= <-]. cbn.
  rewrite <- (Z.add_0_r (3 * j)) at 1.
  rewrite <- !(slice_slice (3 * j) 3 _ 1 row) by lia. rewrite E.
  byte_ranges. repeat split; lia.
Qed.

Lemma get_set_pixel row j p row' : 0 <= j ->
  0 <= Blue p < 256 -> 0 <= Green p < 256 -> 0 <= Red p < 256 ->
  set_pixel row j p = Some row' ->
  zlen row' = zlen row /\
  forall i, 0 <= i -> 3 * i + 3 <= zlen row ->
    get_pixel row' i = if i =? j then Some p else get_pixel row i.
Proof.
  intros Hj Hb Hg Hr. unfold set_pixel, write_at.
  set (v := [byte_of_Z (Blue p); byte_of_Z (Green p); byte_of_Z (Red p)]).
  assert (Hv : zlen v = 3) by done. rewrite Hv.
  destruct ((0 <=? 3 * j) && (3 * j + 3 <=? zlen row)) eqn:E; [|done].
  intros [= <-]. apply andb_true_iff in E as [_ E]. apply Z.leb_le in E.
  split; [zlen|]. intros i Hi Hl. unfold get_pixel.
  destruct (Z.eqb_spec i j) as [->|].
  - rewrite <- Hv. rewrite slice_blit_same by lia. unfold v. cbn.
    rewrite !byte_val_of_Z_small by done. by destruct p.
  - destruct (Z.lt_ge_cases i j).
    + by rewrite slice_blit_before by lia.
    + by rewrite slice_blit_after by lia.
Qed.

Lemma set_pixel_ok row j p : 0 <= j -> 3 * j + 3 <= zlen row ->
  exists row', set_pixel row j p = Some row'.
Proof.
  intros H1 H2. unfold set_pixel, write_at.
  rewrite (proj2 (Z.leb_le _ _)), (proj2 (Z.leb_le _ _)); [eauto|..]; unfold zlen in *; cbn; lia.
Qed.

Lemma modifyPixel_range p : 0 <= Blue p < 256 -> 0 <= Green p < 256 -> 0 <= Red p < 256 ->
  0 <= Blue (modifyPixel p) < 256 /\ 0 <= Green (modifyPixel p) < 256 /\
  0 <= Red (modifyPixel p) < 256 /\ Red (modifyPixel p) <> Red p.
Proof. intros H1 H2 H3. repeat apply conj; apply change_channel_neq; done. Qed.

(** *** One line *)

Definition marked (hidden : bytes) (j : Z) : bool := bool_decide (not_white hidden j = Some true).

Lemma u16_max n k hidden row : hide_line n k 65535 hidden row = None.
Proof.
  revert k row. induction n as [|n IH]; intros k row; [done|]. cbn -[u16 not_white].
  pose proof (wrap_range 16 k ltac:(lia)) as R. change (wrap 16 k) with (u16 k) in R.
  rewrite (proj2 (Z.leb_le _ _)) by lia. cbn -[u16 not_white].
  destruct (not_white hidden k) as [nw|]; cbn -[u16]; [|done].
  destruct (if nw then _ else _); cbn -[u16]; [apply IH|done].
Qed.

Lemma hide_line_from n k W hidden row row' : 0 <= k <= W + 1 -> W < 65535 ->
  hide_line n k W hidden row = Some row' ->
  zlen row' = zlen row /\
  forall j, 0 <= j -> 3 * j + 3 <= zlen row ->
    get_pixel row' j =
    (if (k <=? j) && (j <=? W) && marked hidden j
     then option_map modifyPixel (get_pixel row j) else get_pixel row j).
Proof.
  revert k row. induction n as [|n IH]; intros k row Hk HW; [done|]. cbn -[u16 not_white].
  assert (u16 k = k) as -> by (apply wrap_small; change (2 ^ 16) with 65536; lia).
  destruct (Z.leb_spec k W) as [Hle|Hgt]; cbn -[u16 not_white].
  2: { intros [= <-]. split; [done|]. intros j Hj _.
       destruct (Z.leb_spec k j), (Z.leb_spec j W); [lia|done..]. }
  destruct (not_white hidden k) as [nw|] eqn:Enw; cbn -[u16]; [|done].
  assert (Hm : marked hidden k = nw) by (unfold marked; rewrite Enw; by destruct nw).
  destruct nw.
  - destruct (get_pixel row k) as [p|] eqn:Ep; cbn -[u16]; [|done].
    destruct (set_pixel row k (modifyPixel p)) as [row1|] eqn:Es; cbn -[u16]; [|done].
    destruct (get_pixel_bytes row k p) as (_ & _ & _ & R1 & R2 & R3); [lia|done|].
    destruct (modifyPixel_range p) as (S1 & S2 & S3 & _); [done..|].
    destruct (get_set_pixel row k (modifyPixel p) row1) as [L G]; [lia|done..|].
    intros H. apply IH in H as [L' G']; [|lia..]. split; [lia|]. intros j Hj Hjl.
    rewrite G', G by lia. destruct (Z.eqb_spec j k) as [->|].
    + rewrite Hm, Ep, Z.leb_refl, (proj2 (Z.leb_le k W)) by lia.
      by rewrite (proj2 (Z.leb_gt (k + 1) k)) by lia.
    + by replace (k + 1 <=? j) with (k <=? j) by (apply eq_true_iff_eq; rewrite !Z.leb_le; lia).
  - cbn -[u16]. intros H. apply IH in H as [L' G']; [|lia..]. split; [done|].
    intros j Hj Hjl. rewrite G' by lia. destruct (Z.eqb_spec j k) as [->|].
    + by rewrite Hm, !andb_false_r.
    + by replace (k + 1 <=? j) with (k <=? j) by (apply eq_true_iff_eq; rewrite !Z.leb_le; lia).
Qed.

Lemma hide_line_spec n W hidden row row' : 0 <= W <= 65535 ->
  hide_line n 0 W hidden row = Some row' ->
  zlen row' = zlen row /\
  forall j, 0 <= j -> 3 * j + 3 <= zlen row ->
    get_pixel row' j =
    (if (j <=? W) && marked hidden j
     then option_map modifyPixel (get_pixel row j) else get_pixel row j).
Proof.
  intros HW H. destruct (Z.eq_dec W 65535) as [->|]; [by rewrite u16_max in H|].
  apply hide_line_from in H as [L G]; [|lia..]. split; [done|]. intros j Hj Hl.
  rewrite G by done. by rewrite (proj2 (Z.leb_le 0 j)) by lia.
Qed.

Definition red_differs (a b : bytes) (j : Z) : bool :=
  negb (bool_decide (get_byte a (3 * j + 2) = get_byte b (3 * j + 2))).

Definition black : RGB := mk_rgb BLACK BLACK BLACK.
Definition white : RGB := mk_rgb WHITE WHITE WHITE.

Lemma find_line_from n k a b f : 0 <= k -> 3 * (k + Z.of_nat n) <= zlen a ->
  zlen b = zlen a -> zlen f = zlen a ->
  exists f', find_line n k a b f = Some f' /\ zlen f' = zlen f /\
  forall j, 0 <= j -> 3 * j + 3 <= zlen f ->
    get_pixel f' j =
    (if (k <=? j) && (j <? k + Z.of_nat n) && red_differs a b j then Some black
     else get_pixel f j).
Proof.
  revert k f. induction n as [|n IH]; intros k f Hk Hn Hb Hf.
  { exists f. split_and!; [done..|]. intros j Hj _.
    destruct (Z.leb_spec k j), (Z.ltb_spec j (k + Z.of_nat 0)); [lia|done..]. }
  destruct (get_pixel_ok a k) as [p Ea]; [lia..|].
  destruct (get_pixel_ok b k) as [q Eb]; [lia..|].
  apply get_pixel_bytes in Ea as (_ & _ & Ea & _); [|lia].
  apply get_pixel_bytes in Eb as (_ & _ & Eb & _); [|lia].
  cbn -[Z.add Z.mul]. rewrite Ea, Eb. cbn -[Z.add Z.mul].
  assert (Hd : red_differs a b k = negb (Red p =? Red q)).
  { unfold red_differs. rewrite Ea, Eb. f_equal. destruct (Z.eqb_spec (Red p) (Red q));
      case_bool_decide; congruence. }
  assert (Hstep : exists f1,
    (if negb (Red p =? Red q) then set_pixel f k black else Some f) = Some f1 /\
    zlen f1 = zlen f /\ forall j, 0 <= j -> 3 * j + 3 <= zlen f ->
      get_pixel f1 j = if (j =? k) && red_differs a b j then Some black else get_pixel f j).
  { rewrite <- Hd. destruct (red_differs a b k) eqn:E.
    - destruct (set_pixel_ok f k black) as [f1 E1]; [lia..|]. exists f1.
      destruct (get_set_pixel f k black f1) as [L G]; [done..|].
      split_and!; [done..|]. intros j Hj Hl. rewrite G by done.
      destruct (Z.eqb_spec j k) as [->|]; [by rewrite E|done].
    - exists f. split_and!; [done..|]. intros j Hj Hl.
      destruct (Z.eqb_spec j k) as [->|]; [by rewrite E|done]. }
  destruct Hstep as (f1 & Es & L1 & G1).
  change (mk_rgb BLACK BLACK BLACK) with black. rewrite Es. cbn -[Z.add Z.mul].
  destruct (IH (k + 1) f1) as (f' & E' & L' & G'); [lia..|].
  exists f'. split_and!; [done|lia|]. intros j Hj Hl. rewrite G', G1 by lia.
  destruct (red_differs a b j); rewrite ?andb_false_r, ?andb_true_r; [|done].
  destruct (Z.eqb_spec j k), (Z.leb_spec k j), (Z.leb_spec (k + 1) j),
    (Z.ltb_spec j (k + Z.of_nat (S n))), (Z.ltb_spec j (k + 1 + Z.of_nat n)); done || lia.
Qed.

Lemma get_pixel_white n j : 0 <= j -> 3 * j + 3 <= n -> get_pixel (white_line n) j = Some white.
Proof.
  intros H1 H2. unfold get_pixel, slice, white_line.
  rewrite drop_replicate, take_replicate, Nat.min_l by lia. by vm_compute.
Qed.

Lemma zlen_white_line n : 0 <= n -> zlen (white_line n) = n.
Proof. intros. unfold zlen, white_line. rewrite length_replicate. lia. Qed.

(** *** Lines of a file *)

Definition line_of (o len i : Z) (file : bytes) : bytes := slice (o + i * len) len file.

Lemma fread_full buf file : zlen buf <= zlen file ->
  fread buf file = (slice 0 (zlen buf) file, drop (Z.to_nat (zlen buf)) file).
Proof.
  intros H. unfold fread, slice, blit. unfold zlen in *. cbn. rewrite !Nat2Z.id.
  rewrite drop_ge, app_nil_r by (rewrite length_take; lia). done.
Qed.

(** Reading a whole buffer, then line [i] of the rest. *)
Lemma slice_drop_file {A} k o n (l : list A) : 0 <= k -> 0 <= o ->
  slice o n (drop (Z.to_nat k) l) = slice (k + o) n l.
Proof. intros. unfold slice. rewrite drop_drop, <- Z2Nat.inj_add by lia. done. Qed.

Lemma line_of_succ o len i file : 0 <= o -> 0 <= len -> 0 <= i ->
  line_of o len i (drop (Z.to_nat len) file) = line_of o len (i + 1) file.
Proof. intros. unfold line_of. rewrite slice_drop_file by nia. f_equal. lia. Qed.

Lemma read_rows_spec n len file : 0 <= len -> Z.of_nat n * len <= zlen file ->
  exists rows rest, read_rows n len file = (rows, rest) /\ length rows = n /\
  forall i row, rows !! i = Some row -> row = line_of 0 len (Z.of_nat i) file.
Proof.
  revert file. induction n as [|n IH]; intros file Hl Hn.
  { by exists [], file. }
  assert (Hz : zlen (zeros len) = len) by (apply zlen_zeros; lia).
  cbn. rewrite fread_full by nia. rewrite Hz.
  destruct (IH (drop (Z.to_nat len) file)) as (rows & rest & E & L & G); [lia|zlen; nia|].
  rewrite E. exists (slice 0 len file :: rows), rest. split_and!; [done|by cbn; rewrite L|].
  intros [|i] row; cbn.
  - by intros [= <-].
  - intros H. apply G in H as ->. rewrite line_of_succ by lia. f_equal. lia.
Qed.

Lemma hide_lines_spec n W buf file rows rows' :
  Z.of_nat n * zlen buf <= zlen file ->
  hide_lines n W buf file rows = Some rows' ->
  length rows' = length rows /\
  forall i row, rows !! i = Some row -> exists row', rows' !! i = Some row' /\
    if (i <? n)%nat
    then hide_line (S (length buf)) 0 W (line_of 0 (zlen buf) (Z.of_nat i) file) row = Some row'
    else row' = row.
Proof.
  revert buf file rows rows'. induction n as [|n IH]; intros buf file rows rows' Hn H.
  { cbn in H. destruct rows; injection H as <-; (split; [done|]); [done|].
    intros i r Hr. exists r. done. }
  destruct rows as [|row rows]; [cbn in H; injection H as <-; done|].
  assert (Hfull : zlen buf <= zlen file) by (pose proof (zlen_nonneg buf); nia).
  cbn -[hide_line] in H. rewrite fread_full in H by done.
  pose proof (zlen_slice 0 (zlen buf) file ltac:(lia) (zlen_nonneg _) ltac:(lia)) as Lb.
  assert (Lb' : length (slice 0 (zlen buf) file) = length buf) by (apply Nat2Z.inj, Lb).
  rewrite Lb' in H.
  destruct (hide_line _ 0 W (slice 0 (zlen buf) file) row) as [row1|] eqn:E1;
    cbn -[hide_line] in H; [|done].
  destruct (hide_lines n W _ _ rows) as [rows1|] eqn:E2; cbn in H; [|done].
  injection H as <-. apply IH in E2 as [L G]; [|rewrite Lb; pose proof (zlen_nonneg buf); zlen; nia].
  split; [by cbn; rewrite L|]. intros [|i] r; cbn -[hide_line Nat.ltb].
  - intros [= <-]. exists row1. split; [done|exact E1].
  - intros Hr. destruct (G i r Hr) as (r' & Hr' & Hc). exists r'. split; [done|].
    change (S i <? S n)%nat with (i <? n)%nat. revert Hc.
    destruct (i <? n)%nat; [intros Hc|done].
    rewrite Lb' in Hc. rewrite Lb in Hc. pose proof (zlen_nonneg buf).
    rewrite line_of_succ in Hc by lia. rewrite <- Hc. do 2 f_equal. lia.
Qed.

Lemma concat_lines len (rows : list bytes) : 0 <= len ->
  (forall i row, rows !! i = Some row -> zlen row = len) ->
  zlen (concat rows) = Z.of_nat (length rows) * len /\
  forall i row, rows !! i = Some row -> line_of 0 len (Z.of_nat i) (concat rows) = row.
Proof.
  intros Hl. induction rows as [|row rows IH]; intros H; [done|].
  destruct IH as [L G]; [intros i r Hr; apply (H (S i) r Hr)|].
  pose proof (H 0%nat row eq_refl) as H0. split.
  - cbn [concat length]. rewrite zlen_app. lia.
  - intros [|i] r; cbn [lookup list_lookup concat].
    + intros [= <-]. unfold line_of. cbn. apply slice_app_l. done.
    + intros Hr. unfold line_of. rewrite slice_suffix by (rewrite H0; nia).
      rewrite <- (G i r Hr). unfold line_of. f_equal. lia.
Qed.

Lemma find_lines_spec n w len bo bm fo fm : 0 <= w -> 3 * w <= len ->
  zlen bo = len -> zlen bm = len ->
  Z.of_nat n * len <= zlen fo -> Z.of_nat n * len <= zlen fm ->
  exists out, find_lines n w len bo bm fo fm = Some out /\ zlen out = Z.of_nat n * len /\
  forall i, 0 <= i < Z.of_nat n ->
    find_line (Z.to_nat w) 0 (line_of 0 len i fo) (line_of 0 len i fm) (white_line len)
    = Some (line_of 0 len i out).
Proof.
  intros Hw Hlen. revert bo bm fo fm. induction n as [|n IH]; intros bo bm fo fm Lo Lm Ho Hm.
  { exists []. split_and!; [done..|lia]. }
  cbn -[find_line]. rewrite (fread_full bo), (fread_full bm) by nia. rewrite Lo, Lm.
  destruct (find_line_from (Z.to_nat w) 0 (slice 0 len fo) (slice 0 len fm) (white_line len))
    as (f & Ef & Lf & _);
    [lia|rewrite zlen_slice; nia|rewrite !zlen_slice; nia|
     rewrite zlen_slice, zlen_white_line; nia|].
  rewrite zlen_white_line in Lf by lia. rewrite Ef. cbn -[find_line].
  destruct (IH (slice 0 len fo) (slice 0 len fm) (drop (Z.to_nat len) fo)
              (drop (Z.to_nat len) fm)) as (out & E & L & G);
    [rewrite zlen_slice; nia|rewrite zlen_slice; nia|zlen; nia|zlen; nia|].
  rewrite E. exists (f ++ out). split_and!; [done|zlen; nia|]. intros i Hi.
  destruct (Z.eq_dec i 0) as [->|].
  - unfold line_of. rewrite slice_app_l by done. exact Ef.
  - specialize (G (i - 1) ltac:(lia)). rewrite !line_of_succ in G by lia.
    replace (i - 1 + 1) with i in G by lia. rewrite G. f_equal. unfold line_of.
    rewrite slice_suffix by nia. f_equal. lia.
Qed.

(** *** Whole images *)

Definition header2 (file : bytes) : bytes := slice 14 40 file.
Definition width (file : bytes) : Z := ImageWidth (header2 file).
Definition height (file : bytes) : Z := ImageHeight (header2 file).
Definition line_len (file : bytes) : Z := nb_byte_line (width file).

(** The file holds its headers and all the lines they announce. *)
Definition complete (file : bytes) : Prop := 54 + height file * line_len file <= zlen file.

(** Line [i] of the image. *)
Definition image_line (file : bytes) (i : Z) : bytes := line_of 54 (line_len file) i file.

Lemma le16_range v i : 0 <= le16 v i < 65536.
Proof.
  unfold le16. destruct (slice i 2 v) as [|a [|b [|c l]]]; try lia. byte_ranges. lia.
Qed.

Lemma width_range f : 0 <= width f < 65536.
Proof. apply le16_range. Qed.

Lemma height_range f : 0 <= height f < 65536.
Proof. apply le16_range. Qed.

Lemma line_len_bounds f : 3 * width f <= line_len f /\ 0 <= line_len f.
Proof.
  unfold line_len, nb_byte_line. pose proof (width_range f).
  pose proof (Z.mod_pos_bound (width f) 4 ltac:(lia)). lia.
Qed.

Lemma complete_headers f : complete f -> 54 <= zlen f.
Proof.
  unfold complete. pose proof (height_range f). pose proof (line_len_bounds f). nia.
Qed.

Lemma zlen_image_line f i : complete f -> 0 <= i < height f -> zlen (image_line f i) = line_len f.
Proof.
  intros C Hi. unfold complete in C. pose proof (line_len_bounds f) as [_ Hl].
  assert ((i + 1) * line_len f <= height f * line_len f) by (apply Z.mul_le_mono_nonneg_r; lia).
  apply zlen_slice; nia.
Qed.

Section whole.
Context (junk : Z -> bytes) (Hjunk : forall n, 0 <= n -> zlen (junk n) = n).

(** Reading the two headers. *)
Lemma read_headers f : 54 <= zlen f ->
  fread (junk SIZEOF_HEADER1) f = (slice 0 14 f, drop 14 f) /\
  fread (junk SIZEOF_HEADER2) (drop 14 f) = (header2 f, drop 54 f).
Proof.
  intros H. change 14%nat with (Z.to_nat 14).
  rewrite !fread_full; rewrite ?(Hjunk SIZEOF_HEADER1), ?(Hjunk SIZEOF_HEADER2) by done;
    [|unfold SIZEOF_HEADER1, SIZEOF_HEADER2; zlen..].
  split; [done|]. f_equal. by rewrite drop_drop.
Qed.

Lemma image_line_body f i : 0 <= i ->
  line_of 0 (line_len f) i (drop 54 f) = image_line f i.
Proof.
  intros Hi. unfold image_line, line_of. change 54%nat with (Z.to_nat 54).
  pose proof (line_len_bounds f). rewrite slice_drop_file by nia. f_equal.
Qed.

Lemma encrypt_lines src hid img : complete src -> complete hid ->
  steganographyEncrypt junk src hid = Some img ->
  width img = width src /\ height img = height src /\ complete img /\
  slice 0 54 img = slice 0 54 src /\ zlen img = 54 + height src * line_len src /\
  forall i, 0 <= i < height src ->
    if i <? height hid
    then hide_line (S (Z.to_nat (line_len hid))) 0 (Z.min (width hid) (width src))
           (image_line hid i) (image_line src i) = Some (image_line img i)
    else image_line img i = image_line src i.
Proof.
  intros Cs Ch. unfold steganographyEncrypt.
  destruct (read_headers src (complete_headers _ Cs)) as [-> ->].
  destruct (read_headers hid (complete_headers _ Ch)) as [-> ->].
  change (ImageHeight (header2 src)) with (height src).
  change (ImageHeight (header2 hid)) with (height hid).
  change (nb_byte_line (ImageWidth (header2 src))) with (line_len src).
  change (nb_byte_line (ImageWidth (header2 hid))) with (line_len hid).
  change (ImageWidth (header2 src)) with (width src).
  change (ImageWidth (header2 hid)) with (width hid).
  pose proof (height_range src). pose proof (height_range hid).
  pose proof (line_len_bounds src). pose proof (line_len_bounds hid).
  pose proof (complete_headers _ Cs) as Hs. pose proof (complete_headers _ Ch) as Hh.
  unfold complete in Cs, Ch.
  assert (Ls : zlen (drop 54 src) = zlen src - 54) by (unfold zlen in *; rewrite length_drop; lia).
  assert (Lh : zlen (drop 54 hid) = zlen hid - 54) by (unfold zlen in *; rewrite length_drop; lia).
  destruct (read_rows_spec (Z.to_nat (height src)) (line_len src) (drop 54 src))
    as (rows & rest & -> & Hlen & Hrows); [lia|rewrite Ls; nia|].
  assert (Lj : zlen (junk (line_len hid)) = line_len hid) by (apply Hjunk; lia).
  destruct (hide_lines _ _ (junk (line_len hid)) (drop 54 hid) rows) as [rows'|] eqn:E;
    cbn -[hide_line]; [|done].
  apply hide_lines_spec in E as [L G]; [|rewrite Lj, Lh, Z2Nat.id by lia; nia].
  assert (Hrow : forall i row, rows !! i = Some row -> zlen row = line_len src).
  { intros i row Hi. pose proof (lookup_lt_Some _ _ _ Hi). apply Hrows in Hi as ->.
    unfold line_of. apply zlen_slice; [lia|lia|rewrite Ls; nia]. }
  assert (Hrow' : forall i row, rows' !! i = Some row -> zlen row = line_len src).
  { intros i row' Hi. pose proof (lookup_lt_Some _ _ _ Hi) as Hlt.
    destruct (lookup_lt_is_Some_2 rows i) as [row Hr]; [lia|].
    destruct (G i row Hr) as (r' & Hr' & Hc). rewrite Hi in Hr'. injection Hr' as <-.
    rewrite <- (Hrow i row Hr). destruct (i <? _)%nat; [|by rewrite Hc].
    apply hide_line_spec in Hc as [-> _]; [done|].
    pose proof (width_range src). pose proof (width_range hid). lia. }
  destruct (concat_lines (line_len src) rows') as [LC GC]; [lia|exact Hrow'|].
  intros [= <-].
  assert (L1 : zlen (slice 0 14 src) = 14) by (apply zlen_slice; lia).
  assert (L2 : zlen (header2 src) = 40) by (apply zlen_slice; lia).
  set (img := slice 0 14 src ++ header2 src ++ concat rows').
  assert (Hhd : header2 img = header2 src).
  { unfold header2 at 1, img. rewrite slice_suffix, L1 by lia. apply slice_app_l. lia. }
  assert (Hw : width img = width src) by (unfold width; by rewrite Hhd).
  assert (Hht : height img = height src) by (unfold height; by rewrite Hhd).
  assert (Hll : line_len img = line_len src) by (unfold line_len; by rewrite Hw).
  assert (Li : zlen img = 54 + height src * line_len src).
  { unfold img. rewrite !zlen_app, L1, L2, LC. nia. }
  split_and!; [done|done|unfold complete; rewrite Hht, Hll; lia| |done|].
  { unfold img. rewrite app_assoc, slice_app_l by zlen.
    change 54 with (14 + 40). by rewrite slice_app_split by lia. }
  intros i Hi.
  destruct (lookup_lt_is_Some_2 rows (Z.to_nat i)) as [row Hr]; [lia|].
  destruct (G _ _ Hr) as (row' & Hr' & Hc).
  assert (Himg : image_line img i = row').
  { rewrite <- (GC _ _ Hr'), Z2Nat.id by lia. unfold image_line. rewrite Hll. unfold line_of, img.
    rewrite app_assoc, slice_suffix by (rewrite zlen_app; nia). f_equal. rewrite zlen_app. lia. }
  rewrite Himg. apply Hrows in Hr. rewrite Z2Nat.id, image_line_body in Hr by lia. subst row.
  rewrite Z2Nat.id, Lj, image_line_body in Hc by lia.
  replace (length (junk (line_len hid))) with (Z.to_nat (line_len hid)) in Hc
    by (apply Nat2Z.inj; rewrite Z2Nat.id by lia; symmetry; exact Lj).
  replace (Z.to_nat i <? Z.to_nat (Z.min (height hid) (height src)))%nat with (i <? height hid) in Hc;
    [done|].
  apply eq_true_iff_eq. rewrite Z.ltb_lt, Nat.ltb_lt. lia.
Qed.
End whole.

(** Pixel [j] of line [i] carries the hidden text: the hidden image has the line, the
    column is at most the smaller width, and what the hidden line holds there is not
    white.  The column equal to the smaller width is looked at too. *)
Definition text_at (src hid : bytes) (i j : Z) : bool :=
  (i <? height hid) && ((j <=? Z.min (width hid) (width src)) && marked (image_line hid i) j).

(** Changing one channel of a pixel is seen in the red byte. *)
Lemma red_differs_lines src hid img (Hjunk : exists junk,
    (forall n, 0 <= n -> zlen (junk n) = n) /\ steganographyEncrypt junk src hid = Some img) i j :
  complete src -> complete hid -> 0 <= i < height src -> 0 <= j < width src ->
  red_differs (image_line src i) (image_line img i) j = text_at src hid i j.
Proof.
  intros Cs Ch Hi Hj. destruct Hjunk as (junk & Hjunk & E).
  destruct (encrypt_lines junk Hjunk src hid img Cs Ch E) as (Hw & _ & _ & _ & _ & G).
  specialize (G i Hi). unfold text_at. pose proof (line_len_bounds src).
  pose proof (zlen_image_line src i Cs Hi) as Ls.
  destruct (i <? height hid); cbn [andb].
  2: { unfold red_differs. by rewrite G, bool_decide_eq_true_2. }
  apply hide_line_spec in G as [_ G];
    [|pose proof (width_range src); pose proof (width_range hid); lia].
  specialize (G j ltac:(lia) ltac:(rewrite Ls; lia)).
  destruct (get_pixel_ok (image_line src i) j) as [p Ep]; [lia|rewrite Ls; lia|].
  rewrite Ep in G. cbn [option_map] in G.
  destruct (get_pixel_bytes (image_line src i) j p ltac:(lia) Ep) as (_ & _ & E2 & R).
  unfold red_differs. rewrite E2. destruct (_ && _).
  - apply get_pixel_bytes in G as (_ & _ & -> & _); [|lia].
    destruct (modifyPixel_range p) as (_ & _ & _ & Hne); [apply R..|].
    rewrite bool_decide_eq_false_2; [done|congruence].
  - apply get_pixel_bytes in G as (_ & _ & -> & _); [|lia]. by rewrite bool_decide_eq_true_2.
Qed.


(** A 3 by 1 source and a 3 by 1 text with a black pixel in the middle. *)
Definition tiny_header : bytes :=
  zeros 14 ++ zeros 4 ++ [x03; x00] ++ zeros 2 ++ [x01; x00] ++ zeros 30.
Definition tiny_source : bytes := tiny_header ++ lit "abcdefghi" ++ zeros 3.
Definition tiny_text : bytes :=
  tiny_header ++ white_line 3 ++ zeros 3 ++ white_line 3 ++ white_line 3.


Lemma not_white_out row j : zlen row <= 3 * j -> not_white row j = None.
Proof.
  intros H. unfold not_white.
  rewrite (get_byte_out row (3 * j)) by lia.
  reflexivity.
Qed.

Lemma hide_line_short n k W hidden row : 0 <= k <= W -> W < 65535 -> zlen hidden <= 3 * W ->
  hide_line n k W hidden row = None.
Proof.
  revert k row. induction n as [|n IH]; intros k row Hk HW Hl; [done|]. cbn -[u16 not_white].
  assert (u16 k = k) as -> by (apply wrap_small; change (2 ^ 16) with 65536; lia).
  rewrite (proj2 (Z.leb_le _ _)) by lia. cbn -[u16 not_white].
  destruct (not_white hidden k) as [nw|] eqn:E; cbn -[u16]; [|done].
  assert (k <> W) by (intros ->; by rewrite not_white_out in E by lia).
  destruct (if nw then _ else _); cbn -[u16]; [apply IH; lia|done].
Qed.

(** Claim C40: the loop bound [j<=widthLoop] reads one pixel too many: when the hidden
    image is not wider than the source and its lines have no padding (a width that is a
    multiple of four), [steganographyEncrypt] always reads past the end of the buffer of
    the hidden line. *)
Lemma encrypt_reads_past_hidden_line (junk : Z -> bytes) (src hid : bytes)
    (Hjunk : forall n, 0 <= n -> zlen (junk n) = n)
    (Cs : complete src) (Ch : complete hid) (Hs : 0 < height src) (Hh : 0 < height hid)
    (Hw : width hid <= width src) (H4 : width hid mod 4 = 0) :
  steganographyEncrypt junk src hid = None.
Proof.
  destruct (steganographyEncrypt junk src hid) as [img|] eqn:E; [|done]. exfalso.
  destruct (encrypt_lines junk Hjunk src hid img Cs Ch E) as (_ & _ & _ & _ & _ & G).
  specialize (G 0 ltac:(lia)). rewrite (proj2 (Z.ltb_lt _ _)) in G by done.
  pose proof (width_range hid). rewrite Z.min_l in G by done.
  assert (width hid <> 65535) by (intros W; by rewrite W in H4).
  rewrite hide_line_short in G; [done|lia|lia|].
  rewrite zlen_image_line by (done || lia). unfold line_len, nb_byte_line. lia.
Qed.

Definition quad_header : bytes :=
  zeros 14 ++ zeros 4 ++ [x04; x00] ++ zeros 2 ++ [x01; x00] ++ zeros 30.


(** ** Proofs: the files of soft_Q2.c *)

Definition tab_a (size : Z) : bytes := replicate (Z.to_nat size) (byte_of_Z 97).

Lemma fill_and_print_eq size after :
  fill_and_print size after = option_map (app (tab_a size)) (until_nul after).
Proof.
  unfold fill_and_print, tab_a. induction (Z.to_nat size) as [|n IH]; cbn [replicate app].
  { by destruct (until_nul after). }
  cbn [until_nul]. rewrite IH. by destruct (until_nul after).
Qed.

(** The number in the name of a small file. *)
Definition name_number (name : bytes) : nat :=
  fold_left (fun n c => (10 * n + Z.to_nat (byte_val c - 48))%nat) (slice 10 3 name) 0%nat.

Lemma small_names_NoDup : NoDup (small_name <$> seq 0 NB_SMALL_FILE).
Proof.
  apply (NoDup_fmap_1 name_number). rewrite <- list_fmap_compose.
  assert (E : name_number ∘ small_name <$> seq 0 NB_SMALL_FILE = seq 0 NB_SMALL_FILE)
    by (vm_compute; reflexivity).
  rewrite E. apply NoDup_seq.
Qed.

Lemma small_files_spec n i fopen_ok after fs extra : until_nul after = Some extra ->
  exists m fs', (m <= n)%nat /\
    small_files n i fopen_ok after fs = Some (fs', if (m =? n)%nat then 0 else -1) /\
    (forall k, (k < m)%nat -> fopen_ok (small_name (i + k)) = true) /\
    ((m < n)%nat -> fopen_ok (small_name (i + m)) = false) /\
    forall name, fs' !! name = if bool_decide (name ∈ small_name <$> seq i m)
                               then Some (tab_a SIZE_SMALL ++ extra) else fs !! name.
Proof.
  intros Hx. revert i fs. induction n as [|n IH]; intros i fs.
  { exists 0%nat, fs. split_and!; [done..|lia|lia|done]. }
  cbn [small_files]. destruct (fopen_ok (small_name i)) eqn:Eo; cbn [negb].
  2: { exists 0%nat, fs. split_and!; [lia|done|lia|by rewrite Nat.add_0_r|done]. }
  rewrite fill_and_print_eq, Hx. cbn [option_map].
  destruct (IH (S i) (<[small_name i := tab_a SIZE_SMALL ++ extra]> fs))
    as (m & fs' & Hm & E & Hok & Hno & G).
  exists (S m), fs'. split_and!; [lia|exact E| | |].
  - intros [|k] Hk; [by rewrite Nat.add_0_r|].
    rewrite <- Nat.add_succ_comm. apply Hok. lia.
  - intros Hlt. rewrite <- Nat.add_succ_comm. apply Hno. lia.
  - intros name. rewrite G. cbn [seq fmap list_fmap].
    destruct (decide (name = small_name i)) as [->|Hne].
    + rewrite lookup_insert_eq, (bool_decide_eq_true_2 (_ ∈ _ :: _)) by apply list_elem_of_here.
      by destruct (bool_decide _).
    + rewrite lookup_insert_ne by done.
      destruct (decide (name ∈ small_name <$> seq (S i) m)).
      * rewrite !bool_decide_eq_true_2; [done|by apply list_elem_of_further|done].
      * rewrite !bool_decide_eq_false_2; [done|by rewrite not_elem_of_cons|done].
Qed.

Lemma small_files_undefined n i fopen_ok after fs :
  until_nul after = None -> fopen_ok (small_name i) = true ->
  small_files (S n) i fopen_ok after fs = None.
Proof. intros E Ho. cbn [small_files]. rewrite Ho, fill_and_print_eq, E. reflexivity. Qed.

(** The array printed by [writeSmallFiles] has no terminator.  If the memory
    that follows it holds a NUL before any ['%'], the files [smallfile_000.ses] up to the
    first one that cannot be opened hold the 1024 letters and then the bytes before that
    NUL, nothing else changes, and the result is 0 if all thousand are opened and -1
    otherwise; if it does not, the behaviour is undefined.  So a file has the intended
    size only if the array happens to be followed by a NUL. *)
Theorem small_files_unterminated (fopen_ok : bytes -> bool) (after : bytes) (fs : gmap bytes bytes) :
  NoDup (small_name <$> seq 0 NB_SMALL_FILE) /\
  match until_nul after with
  | Some extra =>
    exists m fs', (m <= NB_SMALL_FILE)%nat /\
      writeSmallFiles fopen_ok after fs = Some (fs', if (m =? NB_SMALL_FILE)%nat then 0 else -1) /\
      (forall k, (k < m)%nat -> fopen_ok (small_name k) = true) /\
      ((m < NB_SMALL_FILE)%nat -> fopen_ok (small_name m) = false) /\
      (forall name, fs' !! name = if bool_decide (name ∈ small_name <$> seq 0 m)
                                  then Some (tab_a SIZE_SMALL ++ extra) else fs !! name) /\
      (zlen (tab_a SIZE_SMALL ++ extra) = SIZE_SMALL <-> exists rest, after = NUL :: rest)
  | None => fopen_ok (small_name 0) = true -> writeSmallFiles fopen_ok after fs = None
  end.
Proof.
  split; [apply small_names_NoDup|]. destruct (until_nul after) as [extra|] eqn:E.
  - destruct (small_files_spec NB_SMALL_FILE 0 fopen_ok after fs extra E)
      as (m & fs' & H1 & H2 & H3 & H4 & H5).
    exists m, fs'. split_and!; [done..|].
    assert (Hz : zlen (tab_a SIZE_SMALL ++ extra) = SIZE_SMALL + zlen extra) by (rewrite zlen_app; done).
    rewrite Hz. destruct after as [|c after]; [done|]. cbn in E.
    destruct (byte_eqb_spec c NUL) as [->|Hc].
    + injection E as <-. split; [eauto|done].
    + destruct (byte_eqb c (chr 37)); [done|].
      destruct (until_nul after) as [e|]; [|done]. injection E as <-.
      rewrite zlen_cons. pose proof (zlen_nonneg e). split; [lia|]. intros [rest [= -> ->]]. done.
  - intros Ho. exact (small_files_undefined 999 0 fopen_ok after fs E Ho).
Qed.
