(* ===== verification/Poly1305.v ===== *)
(** poly1305.c: the one-time authenticator, with its five limbs of 26 bits in 32-bit
    words, against its definition as a polynomial modulo 2^130 - 5. *)

From S2P Require Import Prelude.

(** ** The code *)

Definition POLY1305_KEYLEN : Z := 32.
Definition POLY1305_TAGLEN : Z := 16.

(** [p[i]]; every use below is inside the area. *)
Definition byte_at (p : bytes) (i : Z) : Z := byte_val (nth (Z.to_nat i) p x00).

Definition U8TO32_LE (p : bytes) (o : Z) : Z :=
  Z.lor (Z.lor (Z.lor (byte_at p o) (Z.shiftl (byte_at p (o + 1)) 8))
    (Z.shiftl (byte_at p (o + 2)) 16)) (Z.shiftl (byte_at p (o + 3)) 24).

Definition U32TO8_LE (v : Z) : bytes :=
  [byte_of_Z v; byte_of_Z (Z.shiftr v 8); byte_of_Z (Z.shiftr v 16); byte_of_Z (Z.shiftr v 24)].

Definition mul32x32_64 (a b : Z) : Z := u64 (a * b).

Record limbs := mk_limbs { l0 : Z; l1 : Z; l2 : Z; l3 : Z; l4 : Z }.

(** The multipliers [r0 .. r4]. *)
Definition clamp (key : bytes) : limbs :=
  let t0 := U8TO32_LE key 0 in let t1 := U8TO32_LE key 4 in
  let t2 := U8TO32_LE key 8 in let t3 := U8TO32_LE key 12 in
  let r0 := Z.land t0 0x3ffffff in
  let t0 := Z.lor (Z.shiftr t0 26) (u32 (Z.shiftl t1 6)) in
  let r1 := Z.land t0 0x3ffff03 in
  let t1 := Z.lor (Z.shiftr t1 20) (u32 (Z.shiftl t2 12)) in
  let r2 := Z.land t1 0x3ffc0ff in
  let t2 := Z.lor (Z.shiftr t2 14) (u32 (Z.shiftl t3 18)) in
  let r3 := Z.land t2 0x3f03fff in
  let t3 := Z.shiftr t3 8 in
  mk_limbs r0 r1 r2 r3 (Z.land t3 0x00fffff).

(** [h += block]; [hibit] is [1 << 24] for a full block. *)
Definition add_block (h : limbs) (m : bytes) (hibit : Z) : limbs :=
  let t0 := U8TO32_LE m 0 in let t1 := U8TO32_LE m 4 in
  let t2 := U8TO32_LE m 8 in let t3 := U8TO32_LE m 12 in
  mk_limbs
    (u32 (l0 h + Z.land t0 0x3ffffff))
    (u32 (l1 h + Z.land (Z.shiftr (Z.lor (u64 (Z.shiftl t1 32)) t0) 26) 0x3ffffff))
    (u32 (l2 h + Z.land (Z.shiftr (Z.lor (u64 (Z.shiftl t2 32)) t1) 20) 0x3ffffff))
    (u32 (l3 h + Z.land (Z.shiftr (Z.lor (u64 (Z.shiftl t3 32)) t2) 14) 0x3ffffff))
    (u32 (l4 h + Z.lor (Z.shiftr t3 8) hibit)).

(** The carries at the end of [poly1305_donna_mul]. *)
Definition mul_carry (t0 t1 t2 t3 t4 : Z) : limbs :=
  let h0 := Z.land (u32 t0) 0x3ffffff in let c := Z.shiftr t0 26 in
  let t1 := u64 (t1 + c) in
  let h1 := Z.land (u32 t1) 0x3ffffff in let b := u32 (Z.shiftr t1 26) in
  let t2 := u64 (t2 + b) in
  let h2 := Z.land (u32 t2) 0x3ffffff in let b := u32 (Z.shiftr t2 26) in
  let t3 := u64 (t3 + b) in
  let h3 := Z.land (u32 t3) 0x3ffffff in let b := u32 (Z.shiftr t3 26) in
  let t4 := u64 (t4 + b) in
  let h4 := Z.land (u32 t4) 0x3ffffff in let b := u32 (Z.shiftr t4 26) in
  let h0 := u32 (h0 + u32 (b * 5)) in
  mk_limbs h0 h1 h2 h3 h4.

(** [poly1305_donna_mul]. *)
Definition mul (r h : limbs) : limbs :=
  let '(mk_limbs r0 r1 r2 r3 r4) := r in
  let '(mk_limbs h0 h1 h2 h3 h4) := h in
  let s1 := u32 (r1 * 5) in let s2 := u32 (r2 * 5) in
  let s3 := u32 (r3 * 5) in let s4 := u32 (r4 * 5) in
  let t0 := u64 (mul32x32_64 h0 r0 + mul32x32_64 h1 s4 + mul32x32_64 h2 s3 + mul32x32_64 h3 s2 + mul32x32_64 h4 s1) in
  let t1 := u64 (mul32x32_64 h0 r1 + mul32x32_64 h1 r0 + mul32x32_64 h2 s4 + mul32x32_64 h3 s3 + mul32x32_64 h4 s2) in
  let t2 := u64 (mul32x32_64 h0 r2 + mul32x32_64 h1 r1 + mul32x32_64 h2 r0 + mul32x32_64 h3 s4 + mul32x32_64 h4 s3) in
  let t3 := u64 (mul32x32_64 h0 r3 + mul32x32_64 h1 r2 + mul32x32_64 h2 r1 + mul32x32_64 h3 r0 + mul32x32_64 h4 s4) in
  let t4 := u64 (mul32x32_64 h0 r4 + mul32x32_64 h1 r3 + mul32x32_64 h2 r2 + mul32x32_64 h3 r1 + mul32x32_64 h4 r0) in
  mul_carry t0 t1 t2 t3 t4.

(** The loop over the full blocks: the limbs and the bytes that remain. *)
Fixpoint full_blocks (fuel : nat) (r h : limbs) (m : bytes) : limbs * bytes :=
  match fuel with
  | O => (h, m)
  | S fuel =>
    if zlen m <? 16 then (h, m)
    else full_blocks fuel r (mul r (add_block h m (Z.shiftl 1 24))) (drop 16 m)
  end.

(** The last bytes, followed by a one and zeros. *)
Definition mp (m : bytes) : bytes := m ++ [x01] ++ zeros (16 - zlen m - 1).

Definition last_block (r h : limbs) (m : bytes) : limbs :=
  if zlen m =? 0 then h else mul r (add_block h (mp m) 0).

(** [poly1305_donna_finish], up to the choice between [h] and [h - p]. *)
Definition carry_all (h : limbs) : limbs :=
  let '(mk_limbs h0 h1 h2 h3 h4) := h in
  let b := Z.shiftr h0 26 in let h0 := Z.land h0 0x3ffffff in
  let h1 := u32 (h1 + b) in let b := Z.shiftr h1 26 in let h1 := Z.land h1 0x3ffffff in
  let h2 := u32 (h2 + b) in let b := Z.shiftr h2 26 in let h2 := Z.land h2 0x3ffffff in
  let h3 := u32 (h3 + b) in let b := Z.shiftr h3 26 in let h3 := Z.land h3 0x3ffffff in
  let h4 := u32 (h4 + b) in let b := Z.shiftr h4 26 in let h4 := Z.land h4 0x3ffffff in
  let h0 := u32 (h0 + u32 (b * 5)) in let b := Z.shiftr h0 26 in let h0 := Z.land h0 0x3ffffff in
  let h1 := u32 (h1 + b) in
  mk_limbs h0 h1 h2 h3 h4.

Definition not32 (x : Z) : Z := u32 (- x - 1).

Definition select (nb b h g : Z) : Z := Z.lor (Z.land h nb) (Z.land g b).

Definition reduce (h : limbs) : limbs :=
  let '(mk_limbs h0 h1 h2 h3 h4) := h in
  let g0 := u32 (h0 + 5) in let b := Z.shiftr g0 26 in let g0 := Z.land g0 0x3ffffff in
  let g1 := u32 (h1 + b) in let b := Z.shiftr g1 26 in let g1 := Z.land g1 0x3ffffff in
  let g2 := u32 (h2 + b) in let b := Z.shiftr g2 26 in let g2 := Z.land g2 0x3ffffff in
  let g3 := u32 (h3 + b) in let b := Z.shiftr g3 26 in let g3 := Z.land g3 0x3ffffff in
  let g4 := u32 (h4 + b - Z.shiftl 1 26) in
  let b := u32 (Z.shiftr g4 31 - 1) in
  let nb := not32 b in
  mk_limbs (select nb b h0 g0) (select nb b h1 g1) (select nb b h2 g2)
    (select nb b h3 g3) (select nb b h4 g4).

Definition tag (h : limbs) (key : bytes) : bytes :=
  let '(mk_limbs h0 h1 h2 h3 h4) := h in
  let f0 := u64 (Z.lor h0 (u32 (Z.shiftl h1 26)) + U8TO32_LE key 16) in
  let f1 := u64 (Z.lor (Z.shiftr h1 6) (u32 (Z.shiftl h2 20)) + U8TO32_LE key 20) in
  let f2 := u64 (Z.lor (Z.shiftr h2 12) (u32 (Z.shiftl h3 14)) + U8TO32_LE key 24) in
  let f3 := u64 (Z.lor (Z.shiftr h3 18) (u32 (Z.shiftl h4 8)) + U8TO32_LE key 28) in
  let f1 := u64 (f1 + Z.shiftr f0 32) in
  let f2 := u64 (f2 + Z.shiftr f1 32) in
  let f3 := u64 (f3 + Z.shiftr f2 32) in
  U32TO8_LE f0 ++ U32TO8_LE f1 ++ U32TO8_LE f2 ++ U32TO8_LE f3.

(** [poly1305_auth] of the [zlen m] bytes at [m]. *)
Definition poly1305_auth (m key : bytes) : bytes :=
  let r := clamp key in
  let '(h, rest) := full_blocks (S (length m)) r (mk_limbs 0 0 0 0 0) m in
  tag (reduce (carry_all (last_block r h rest))) key.

(** ** The definition *)

(** The little-endian value of an area. *)
Fixpoint le_val (p : bytes) : Z :=
  match p with [] => 0 | c :: p => byte_val c + 256 * le_val p end.

Definition P1305 : Z := 2 ^ 130 - 5.

Fixpoint poly_acc (fuel : nat) (r acc : Z) (m : bytes) : Z :=
  match fuel, m with
  | S fuel, _ :: _ =>
    poly_acc fuel r ((acc + le_val (take 16 m ++ [x01])) * r mod P1305) (drop 16 m)
  | _, _ => acc
  end.

Definition le_bytes (n : nat) (z : Z) : bytes :=
  map (fun i => byte_of_Z (Z.shiftr z (8 * Z.of_nat i))) (seq 0 n).

(** RFC 8439, section 2.5. *)
Definition poly1305_spec (m key : bytes) : bytes :=
  let r := Z.land (le_val (take 16 key)) 0x0ffffffc0ffffffc0ffffffc0fffffff in
  let s := le_val (slice 16 16 key) in
  le_bytes 16 ((poly_acc (S (length m)) r 0 m + s) mod 2 ^ 128).

(** The test vector of the RFC. *)
Definition rfc_key : bytes := map byte_of_Z
  [0x85;0xd6;0xbe;0x78;0x57;0x55;0x6d;0x33;0x7f;0x44;0x52;0xfe;0x42;0xd5;0x06;0xa8;
   0x01;0x03;0x80;0x8a;0xfb;0x0d;0xb2;0xfd;0x4a;0xbf;0xf6;0xaf;0x41;0x49;0xf5;0x1b].
Definition rfc_tag : bytes := map byte_of_Z
  [0xa8;0x06;0x1d;0xc1;0x30;0x51;0x36;0xc6;0xc2;0x2b;0x8b;0xaf;0x0c;0x01;0x27;0xa9].

Example rfc_vector :
  poly1305_auth (lit "Cryptographic Forum Research Group") rfc_key = rfc_tag /\
  poly1305_spec (lit "Cryptographic Forum Research Group") rfc_key = rfc_tag.
Proof. split; vm_compute; reflexivity. Qed.

(** ** Little-endian values *)

Lemma le_val_app p q : le_val (p ++ q) = le_val p + 256 ^ zlen p * le_val q.
Proof.
  induction p as [|c p IH]; cbn [app le_val]; [change (256 ^ zlen (@nil byte)) with 1; lia|].
  rewrite IH, zlen_cons, Z.pow_add_r by (pose proof (zlen_nonneg p); lia). lia.
Qed.

Lemma le_val_range p : 0 <= le_val p < 256 ^ zlen p.
Proof.
  induction p as [|c p IH]; cbn [le_val]; [change (256 ^ zlen (@nil byte)) with 1; lia|].
  rewrite zlen_cons, Z.pow_add_r by (pose proof (zlen_nonneg p); lia).
  pose proof (byte_val_range c). change (256 ^ 1) with 256. lia.
Qed.

Lemma le_val_zeros n : 0 <= n -> le_val (zeros n) = 0.
Proof.
  intros Hn. unfold zeros. induction (Z.to_nat n) as [|k IH]; [done|]. cbn. by rewrite IH.
Qed.

(** A disjunction of a low part and a shifted high part. *)
Lemma lor_low_shiftl a b k : 0 <= k -> 0 <= a < 2 ^ k -> Z.lor a (Z.shiftl b k) = a + b * 2 ^ k.
Proof. intros. rewrite Z.lor_comm, lor_shiftl_add by lia. lia. Qed.

Lemma U8TO32_LE_val p o : U8TO32_LE p o =
  byte_at p o + 256 * byte_at p (o + 1) + 65536 * byte_at p (o + 2) + 16777216 * byte_at p (o + 3).
Proof.
  unfold U8TO32_LE, byte_at. byte_ranges.
  rewrite (lor_low_shiftl _ _ 8), (lor_low_shiftl _ _ 16), (lor_low_shiftl _ _ 24) by lia. lia.
Qed.

Lemma U8TO32_LE_range p o : 0 <= U8TO32_LE p o < 4294967296.
Proof. rewrite U8TO32_LE_val. unfold byte_at. byte_ranges. lia. Qed.

(** The four words of sixteen bytes. *)
Lemma four_words p : zlen p = 16 ->
  le_val p = U8TO32_LE p 0 + 2 ^ 32 * U8TO32_LE p 4 + 2 ^ 64 * U8TO32_LE p 8 + 2 ^ 96 * U8TO32_LE p 12.
Proof.
  intros H. rewrite !U8TO32_LE_val. apply (f_equal Z.to_nat) in H.
  unfold zlen in H. rewrite Nat2Z.id in H. change (Z.to_nat 16) with 16%nat in H.
  do 16 (destruct p as [|? p]; [discriminate H|]). destruct p; [|discriminate H].
  unfold byte_at.
  repeat match goal with
  | |- context [Z.to_nat ?e] => let n := eval vm_compute in (Z.to_nat e) in change (Z.to_nat e) with n
  end.
  cbn [nth le_val]. lia.
Qed.

Lemma U8TO32_LE_app p q o : 0 <= o -> o + 4 <= zlen p -> U8TO32_LE (p ++ q) o = U8TO32_LE p o.
Proof.
  intros H1 H2. unfold U8TO32_LE, byte_at, zlen in *. by rewrite !app_nth1 by lia.
Qed.

Lemma le_bytes_words z : 0 <= z ->
  le_bytes 16 z = U32TO8_LE z ++ U32TO8_LE (Z.shiftr z 32) ++
    U32TO8_LE (Z.shiftr z 64) ++ U32TO8_LE (Z.shiftr z 96).
Proof.
  intros Hz. unfold le_bytes, U32TO8_LE. cbn [seq map app Z.of_nat].
  rewrite !Z.shiftr_shiftr by lia. by rewrite Z.shiftr_0_r.
Qed.

Lemma U32TO8_LE_mod v w : v mod 2 ^ 32 = w mod 2 ^ 32 -> U32TO8_LE v = U32TO8_LE w.
Proof.
  intros H. unfold U32TO8_LE.
  assert (B : forall k, 0 <= k <= 24 -> byte_of_Z (Z.shiftr v k) = byte_of_Z (Z.shiftr w k)).
  { intros k Hk. apply byte_val_inj. rewrite !byte_val_of_Z. apply Z.bits_inj'. intros n Hn.
    change 256 with (2 ^ 8). destruct (Z.lt_ge_cases n 8).
    2: { by rewrite !Z.mod_pow2_bits_high by lia. }
    rewrite !Z.mod_pow2_bits_low, !Z.shiftr_spec by lia.
    rewrite <- (Z.mod_pow2_bits_low v 32), <- (Z.mod_pow2_bits_low w 32) by lia. by rewrite H. }
  rewrite <- (Z.shiftr_0_r v), <- (Z.shiftr_0_r w) at 1.
  by rewrite (B 0), (B 8), (B 16), (B 24) by lia.
Qed.

(** ** Limbs *)

Definition val (h : limbs) : Z :=
  l0 h + 2 ^ 26 * l1 h + 2 ^ 52 * l2 h + 2 ^ 78 * l3 h + 2 ^ 104 * l4 h.

(** What [mul] returns: the first limb may have kept five times the last carry. *)
Definition loose (h : limbs) : Prop :=
  0 <= l0 h < 2810000000 /\ 0 <= l1 h < 67108864 /\ 0 <= l2 h < 67108864 /\
  0 <= l3 h < 67108864 /\ 0 <= l4 h < 67108864.

(** The same after a block has been added. *)
Definition looser (h : limbs) : Prop :=
  0 <= l0 h < 2877108864 /\ 0 <= l1 h < 134217728 /\ 0 <= l2 h < 134217728 /\
  0 <= l3 h < 134217728 /\ 0 <= l4 h < 100663296.

(** A clamped multiplier. *)
Definition key_limbs (r : limbs) : Prop :=
  0 <= l0 r < 67108864 /\ 0 <= l1 r < 67108864 /\ 0 <= l2 r < 67108864 /\
  0 <= l3 r < 67108864 /\ 0 <= l4 r < 1048576.

Lemma land_26 x : Z.land x 0x3ffffff = x mod 67108864.
Proof. change 0x3ffffff with (Z.ones 26). by rewrite Z.land_ones by lia. Qed.

Lemma shiftr_26 x : Z.shiftr x 26 = x / 67108864.
Proof. by rewrite Z.shiftr_div_pow2 by lia. Qed.

(** Bits 26 to 51 of the 64 bits of two words, and so on. *)
Lemma word_limb t1 t0 k : 0 <= t0 < 4294967296 -> 0 <= t1 < 4294967296 -> 0 <= k ->
  Z.land (Z.shiftr (Z.lor (u64 (Z.shiftl t1 32)) t0) k) 0x3ffffff =
  ((t0 + 4294967296 * t1) / 2 ^ k) mod 67108864.
Proof.
  intros H0 H1 Hk. rewrite land_26, Z.shiftr_div_pow2 by lia. do 2 f_equal.
  rewrite u64_small by (rewrite Z.shiftl_mul_pow2; lia). rewrite lor_shiftl_add; lia.
Qed.

Lemma limb_of_words a b m d e : 0 < m -> 0 < d -> 0 < e -> 0 <= a < m * d ->
  ((a + (m * d) * b) / d) mod (m * e) = a / d + m * (b mod e).
Proof.
  intros Hm Hd He Ha. replace (a + m * d * b) with (a + (m * b) * d) by lia.
  rewrite Z.div_add by lia. symmetry.
  assert (0 <= a / d < m) by (split; [apply Z.div_pos|apply Z.div_lt_upper_bound]; lia).
  pose proof (Z.mod_pos_bound b e He). apply Z.mod_unique_pos with (b / e); [nia|].
  pose proof (Z.div_mod b e ltac:(lia)). nia.
Qed.

(** Splitting the 128 bits of a block (and the bit above) into limbs. *)
Lemma split_block t0 t1 t2 t3 : 0 <= t0 < 4294967296 -> 0 <= t1 < 4294967296 ->
  0 <= t2 < 4294967296 -> 0 <= t3 < 4294967296 ->
  t0 mod 67108864 + 2 ^ 26 * (((t0 + 4294967296 * t1) / 2 ^ 26) mod 67108864) +
  2 ^ 52 * (((t1 + 4294967296 * t2) / 2 ^ 20) mod 67108864) +
  2 ^ 78 * (((t2 + 4294967296 * t3) / 2 ^ 14) mod 67108864) + 2 ^ 104 * (t3 / 256) =
  t0 + 2 ^ 32 * t1 + 2 ^ 64 * t2 + 2 ^ 96 * t3.
Proof.
  intros H0 H1 H2 H3.
  assert (E0 : t0 = 67108864 * (t0 / 67108864) + t0 mod 67108864) by (apply Z.div_mod; lia).
  assert (E1 : t1 = 1048576 * (t1 / 1048576) + t1 mod 1048576) by (apply Z.div_mod; lia).
  assert (E2 : t2 = 16384 * (t2 / 16384) + t2 mod 16384) by (apply Z.div_mod; lia).
  assert (E3 : t3 = 256 * (t3 / 256) + t3 mod 256) by (apply Z.div_mod; lia).
  pose proof (limb_of_words t0 t1 64 67108864 1048576 ltac:(lia) ltac:(lia) ltac:(lia) ltac:(lia)) as A1.
  pose proof (limb_of_words t1 t2 4096 1048576 16384 ltac:(lia) ltac:(lia) ltac:(lia) ltac:(lia)) as A2.
  pose proof (limb_of_words t2 t3 262144 16384 256 ltac:(lia) ltac:(lia) ltac:(lia) ltac:(lia)) as A3.
  change (64 * 67108864) with 4294967296 in A1. change (64 * 1048576) with 67108864 in A1.
  change (4096 * 1048576) with 4294967296 in A2. change (4096 * 16384) with 67108864 in A2.
  change (262144 * 16384) with 4294967296 in A3. change (262144 * 256) with 67108864 in A3.
  change (2 ^ 26) with 67108864. change (2 ^ 20) with 1048576.
  change (2 ^ 14) with 16384.
  rewrite A1, A2, A3. lia.
Qed.

Lemma add_block_spec h m hibit : loose h -> zlen m = 16 -> hibit = 0 \/ hibit = 2 ^ 24 ->
  looser (add_block h m hibit) /\ val (add_block h m hibit) = val h + le_val m + 2 ^ 104 * hibit.
Proof.
  intros (B0 & B1 & B2 & B3 & B4) Hm Hb. rewrite (four_words m Hm).
  pose proof (U8TO32_LE_range m 0) as R0. pose proof (U8TO32_LE_range m 4) as R1.
  pose proof (U8TO32_LE_range m 8) as R2. pose proof (U8TO32_LE_range m 12) as R3.
  unfold add_block. revert R0 R1 R2 R3.
  generalize (U8TO32_LE m 0), (U8TO32_LE m 4), (U8TO32_LE m 8), (U8TO32_LE m 12).
  intros t0 t1 t2 t3 R0 R1 R2 R3. cbv zeta. rewrite !word_limb, land_26 by lia.
  assert (E4 : Z.lor (Z.shiftr t3 8) hibit = t3 / 256 + hibit).
  { rewrite Z.shiftr_div_pow2 by lia. change (2 ^ 8) with 256.
    destruct Hb as [->| ->]; [by rewrite Z.lor_0_r, Z.add_0_r|].
    change (2 ^ 24) with (Z.shiftl 1 24) at 1. rewrite lor_low_shiftl; [lia|lia|].
    split; [apply Z.div_pos|apply Z.div_lt_upper_bound]; lia. }
  rewrite E4. pose proof (split_block t0 t1 t2 t3 R0 R1 R2 R3) as S.
  assert (M0 := Z.mod_pos_bound t0 67108864 ltac:(lia)).
  assert (M1 := Z.mod_pos_bound ((t0 + 4294967296 * t1) / 2 ^ 26) 67108864 ltac:(lia)).
  assert (M2 := Z.mod_pos_bound ((t1 + 4294967296 * t2) / 2 ^ 20) 67108864 ltac:(lia)).
  assert (M3 := Z.mod_pos_bound ((t2 + 4294967296 * t3) / 2 ^ 14) 67108864 ltac:(lia)).
  assert (M4 : 0 <= t3 / 256 + hibit < 33554432).
  { assert (0 <= t3 / 256 < 16777216) by (split; [apply Z.div_pos|apply Z.div_lt_upper_bound]; lia).
    destruct Hb; subst; lia. }
  revert S M0 M1 M2 M3 M4.
  generalize (t0 mod 67108864), (((t0 + 4294967296 * t1) / 2 ^ 26) mod 67108864),
    (((t1 + 4294967296 * t2) / 2 ^ 20) mod 67108864),
    (((t2 + 4294967296 * t3) / 2 ^ 14) mod 67108864), (t3 / 256).
  intros. rewrite !u32_small by lia. unfold looser, val. cbn [l0 l1 l2 l3 l4]. lia.
Qed.

(** One carry: a limb keeps its low 26 bits. *)
Lemma limb_carry t : Z.land (u32 t) 0x3ffffff = t mod 67108864.
Proof.
  rewrite land_26. unfold u32, wrap. change (2 ^ 32) with (67108864 * 64).
  apply Z.mod_mod_divide. exists 64. lia.
Qed.

Lemma div_mod_26 t : 0 <= t -> t = 67108864 * (t / 67108864) + t mod 67108864 /\
  0 <= t mod 67108864 < 67108864 /\ 0 <= t / 67108864.
Proof.
  intros H. split; [apply Z.div_mod; lia|]. split; [apply Z.mod_pos_bound; lia|].
  apply Z.div_pos; lia.
Qed.

(** The carries neither overflow nor change the value modulo 2^130 - 5, and the top carry
    is small enough for the next round. *)
Lemma mul_carry_spec t0 t1 t2 t3 t4 :
  0 <= t0 < 576460752303423488 ->
  0 <= t1 < 281603700000000000 -> 0 <= t2 < 281603700000000000 ->
  0 <= t3 < 281603700000000000 -> 0 <= t4 < 36795000000000000 ->
  loose (mul_carry t0 t1 t2 t3 t4) /\
  exists b, val (mul_carry t0 t1 t2 t3 t4) =
    t0 + 2 ^ 26 * t1 + 2 ^ 52 * t2 + 2 ^ 78 * t3 + 2 ^ 104 * t4 - b * (2 ^ 130 - 5).
Proof.
  intros H0 H1 H2 H3 H4. unfold mul_carry. cbv zeta. rewrite !limb_carry, !shiftr_26.
  destruct (div_mod_26 t0) as (E0 & B0 & P0); [lia|]. revert E0 B0 P0.
  generalize (t0 mod 67108864) (t0 / 67108864). intros m0 q0 E0 B0 P0.
  rewrite (u64_small (t1 + q0)) by lia.
  destruct (div_mod_26 (t1 + q0)) as (E1 & B1 & P1); [lia|]. revert E1 B1 P1.
  generalize ((t1 + q0) mod 67108864) ((t1 + q0) / 67108864). intros m1 q1 E1 B1 P1.
  rewrite (u32_small q1), (u64_small (t2 + q1)) by lia.
  destruct (div_mod_26 (t2 + q1)) as (E2 & B2 & P2); [lia|]. revert E2 B2 P2.
  generalize ((t2 + q1) mod 67108864) ((t2 + q1) / 67108864). intros m2 q2 E2 B2 P2.
  rewrite (u32_small q2), (u64_small (t3 + q2)) by lia.
  destruct (div_mod_26 (t3 + q2)) as (E3 & B3 & P3); [lia|]. revert E3 B3 P3.
  generalize ((t3 + q2) mod 67108864) ((t3 + q2) / 67108864). intros m3 q3 E3 B3 P3.
  rewrite (u32_small q3), (u64_small (t4 + q3)) by lia.
  destruct (div_mod_26 (t4 + q3)) as (E4 & B4 & P4); [lia|]. revert E4 B4 P4.
  generalize ((t4 + q3) mod 67108864) ((t4 + q3) / 67108864). intros m4 q4 E4 B4 P4.
  rewrite (u32_small q4), (u32_small (q4 * 5)), (u32_small (m0 + q4 * 5)) by lia.
  split; [unfold loose; cbn [l0 l1 l2 l3 l4]; lia|].
  exists q4. unfold val. cbn [l0 l1 l2 l3 l4]. lia.
Qed.

Lemma mul32_small a b A B : 0 <= a < A -> 0 <= b < B -> A * B <= 18446744073709551616 ->
  mul32x32_64 a b = a * b /\ 0 <= a * b <= (A - 1) * (B - 1).
Proof.
  intros Ha Hb H. assert (0 <= a * b <= (A - 1) * (B - 1)) by nia.
  split; [|done]. apply u64_small. nia.
Qed.

Definition below (a A : Z) : Prop := 0 <= a < A.

(** A column of the product: five products that together fit 64 bits. *)
Lemma column a1 b1 a2 b2 a3 b3 a4 b4 a5 b5 A1 B1 A2 B2 A3 B3 A4 B4 A5 B5 :
  below a1 A1 -> below b1 B1 -> below a2 A2 -> below b2 B2 -> below a3 A3 -> below b3 B3 ->
  below a4 A4 -> below b4 B4 -> below a5 A5 -> below b5 B5 ->
  A1 * B1 + A2 * B2 + A3 * B3 + A4 * B4 + A5 * B5 <= 18446744073709551616 ->
  let t := a1 * b1 + a2 * b2 + a3 * b3 + a4 * b4 + a5 * b5 in
  u64 (mul32x32_64 a1 b1 + mul32x32_64 a2 b2 + mul32x32_64 a3 b3 + mul32x32_64 a4 b4 +
       mul32x32_64 a5 b5) = t /\
  below t (A1 * B1 + A2 * B2 + A3 * B3 + A4 * B4 + A5 * B5).
Proof.
  unfold below. intros K1 L1 K2 L2 K3 L3 K4 L4 K5 L5 H.
  assert (P : forall a b A B, 0 <= a < A -> 0 <= b < B -> 0 <= a * b < A * B) by (clear; intros; split; [nia|apply Z.mul_lt_mono_nonneg; lia]).
  pose proof (P _ _ _ _ K1 L1) as P1. pose proof (P _ _ _ _ K2 L2) as P2.
  pose proof (P _ _ _ _ K3 L3) as P3. pose proof (P _ _ _ _ K4 L4) as P4.
  pose proof (P _ _ _ _ K5 L5) as P5. clear - H P1 P2 P3 P4 P5. unfold mul32x32_64.
  revert H P1 P2 P3 P4 P5.
  generalize (a1 * b1) (a2 * b2) (a3 * b3) (a4 * b4) (a5 * b5)
    (A1 * B1) (A2 * B2) (A3 * B3) (A4 * B4) (A5 * B5).
  intros p1 p2 p3 p4 p5 q1 q2 q3 q4 q5 H P1 P2 P3 P4 P5. cbv zeta.
  rewrite (u64_small p1), (u64_small p2), (u64_small p3), (u64_small p4), (u64_small p5) by lia.
  rewrite u64_small by lia. lia.
Qed.

Lemma mul_spec r h : key_limbs r -> looser h ->
  loose (mul r h) /\ exists k, val (mul r h) = val h * val r - k * P1305.
Proof.
  destruct r as [r0 r1 r2 r3 r4], h as [h0 h1 h2 h3 h4].
  intros (R0 & R1 & R2 & R3 & R4) (H0 & H1 & H2 & H3 & H4). cbn [l0 l1 l2 l3 l4] in *.
  unfold mul. rewrite !(u32_small (_ * 5)) by lia.
  assert (S1 : below (r1 * 5) 335544320) by (unfold below; lia).
  assert (S2 : below (r2 * 5) 335544320) by (unfold below; lia).
  assert (S3 : below (r3 * 5) 335544320) by (unfold below; lia).
  assert (S4 : below (r4 * 5) 5242880) by (unfold below; lia). cbv zeta.
  destruct (column _ _ _ _ _ _ _ _ _ _ _ _ _ _ _ _ _ _ _ _
    H0 R0 H1 S4 H2 S3 H3 S2 H4 S1 ltac:(discriminate)) as [-> B0].
  destruct (column _ _ _ _ _ _ _ _ _ _ _ _ _ _ _ _ _ _ _ _
    H0 R1 H1 R0 H2 S4 H3 S3 H4 S2 ltac:(discriminate)) as [-> B1].
  destruct (column _ _ _ _ _ _ _ _ _ _ _ _ _ _ _ _ _ _ _ _
    H0 R2 H1 R1 H2 R0 H3 S4 H4 S3 ltac:(discriminate)) as [-> B2].
  destruct (column _ _ _ _ _ _ _ _ _ _ _ _ _ _ _ _ _ _ _ _
    H0 R3 H1 R2 H2 R1 H3 R0 H4 S4 ltac:(discriminate)) as [-> B3].
  destruct (column _ _ _ _ _ _ _ _ _ _ _ _ _ _ _ _ _ _ _ _
    H0 R4 H1 R3 H2 R2 H3 R1 H4 R0 ltac:(discriminate)) as [-> B4].
  clear - B0 B1 B2 B3 B4. unfold below in *.
  match goal with |- loose (mul_carry ?a ?b ?c ?d ?e) /\ _ =>
    destruct (mul_carry_spec a b c d e) as (Hl & q & Hv);
      [clear - B0|clear - B1|clear - B2|clear - B3|clear - B4|] end.
  1-5: match goal with H : 0 <= ?t < _ |- _ => revert H; generalize t; intros; lia end.
  split; [exact Hl|].
  exists (q + (h1 * r4 + h2 * r3 + h3 * r2 + h4 * r1 +
    2 ^ 26 * (h2 * r4 + h3 * r3 + h4 * r2) + 2 ^ 52 * (h3 * r4 + h4 * r3) + 2 ^ 78 * (h4 * r4))).
  rewrite Hv. unfold val, P1305. cbn [l0 l1 l2 l3 l4]. ring.
Qed.

(** ** The multipliers *)

Lemma land_join a b c d k : 0 <= k -> 0 <= a < 2 ^ k -> 0 <= c < 2 ^ k ->
  Z.land (a + 2 ^ k * b) (c + 2 ^ k * d) = Z.land a c + 2 ^ k * Z.land b d.
Proof.
  intros Hk Ha Hc.
  assert (Hac : 0 <= Z.land a c < 2 ^ k).
  { split; [apply Z.land_nonneg; lia|]. destruct (Z.eq_dec (Z.land a c) 0) as [->|N]; [lia|].
    apply Z.log2_lt_cancel. rewrite Z.log2_pow2 by lia.
    pose proof (Z.log2_land a c ltac:(lia) ltac:(lia)).
    assert (0 < a) by (destruct (Z.eq_dec a 0) as [->|]; [by rewrite Z.land_0_l in N|lia]).
    assert (Z.log2 a < k) by (apply Z.log2_lt_pow2; lia). lia. }
  rewrite !(Z.mul_comm (2 ^ k)), <- !lor_low_shiftl by done.
  rewrite Z.land_lor_distr_l, !Z.land_lor_distr_r, <- Z.shiftl_land.
  assert (D : forall x y, 0 <= x < 2 ^ k -> Z.land x (Z.shiftl y k) = 0).
  { intros x y Hx. apply Z.bits_inj'. intros n Hn. rewrite Z.land_spec, Z.bits_0.
    destruct (Z.lt_ge_cases n k); [rewrite Z.shiftl_spec_low by done; apply andb_false_r|].
    by rewrite (proj1 (Z.bounded_iff_bits_nonneg k x Hk (proj1 Hx)) (proj2 Hx) n) by lia. }
  rewrite (Z.land_comm (Z.shiftl b k) c), (D a d), (D c b) by done.
  by rewrite ?Z.lor_0_r, ?Z.lor_0_l.
Qed.

Lemma mask_mod x c : 0 <= x -> 0 <= c < 67108864 -> Z.land x c = Z.land (x mod 67108864) c.
Proof.
  intros Hx Hc. pose proof (Z.mod_pos_bound x 67108864 ltac:(lia)) as Hm.
  pose proof (land_join (x mod 67108864) (x / 67108864) c 0 26 ltac:(lia) Hm Hc) as E.
  change (2 ^ 26) with 67108864 in E. rewrite Z.land_0_r in E.
  replace (x mod 67108864 + 67108864 * (x / 67108864)) with x in E
    by (pose proof (Z.div_mod x 67108864 ltac:(lia)); lia).
  replace (c + 67108864 * 0) with c in E by lia. lia.
Qed.

(** A shifted word joined with the next one, cut to 26 bits. *)
Lemma clamp_word a b s k m e : 0 <= a < 4294967296 -> 0 <= b < 4294967296 -> 0 <= s -> 0 <= k ->
  m = 2 ^ k -> 2 ^ s * m = 4294967296 -> 0 < e -> m * e = 67108864 ->
  Z.lor (Z.shiftr a s) (u32 (Z.shiftl b k)) mod 67108864 = a / 2 ^ s + m * (b mod e) /\
  0 <= Z.lor (Z.shiftr a s) (u32 (Z.shiftl b k)).
Proof.
  intros Ha Hb Hs Hk Hm Hsm He Hme.
  assert (Pm : 0 < m) by (subst; lia). assert (Ps : 0 < 2 ^ s) by lia.
  assert (Hd : 0 <= a / 2 ^ s < m) by (split; [apply Z.div_pos|apply Z.div_lt_upper_bound]; lia).
  assert (E : u32 (Z.shiftl b k) = Z.shiftl (b mod 2 ^ s) k).
  { rewrite !Z.shiftl_mul_pow2 by lia. unfold u32, wrap. change (2 ^ 32) with 4294967296.
    rewrite <- Hsm, Hm, Z.mul_mod_distr_r by lia. done. }
  rewrite E, Z.shiftr_div_pow2, lor_low_shiftl by lia.
  pose proof (Z.mod_pos_bound b (2 ^ s) Ps). rewrite <- Hm. split; [|nia].
  symmetry. pose proof (Z.mod_pos_bound b e He).
  assert (Hse : 2 ^ s = 64 * e) by nia.
  apply Z.mod_unique_pos with (b mod 2 ^ s / e); [nia|].
  assert (Em : (b mod 2 ^ s) mod e = b mod e)
    by (apply Z.mod_mod_divide; exists 64; lia).
  pose proof (Z.div_mod (b mod 2 ^ s) e ltac:(lia)) as D. rewrite Em in D.
  rewrite <- Hme. rewrite D at 1. ring.
Qed.

Definition CLAMP : Z := 0x0ffffffc0ffffffc0ffffffc0fffffff.

Lemma land_below x c : 0 <= c -> 0 <= Z.land x c <= c.
Proof.
  intros Hc. split; [apply Z.land_nonneg; lia|].
  assert (E : c = Z.land x c + Z.ldiff c x).
  { rewrite Z.add_nocarry_lxor.
    - apply Z.bits_inj'. intros n Hn. rewrite Z.lxor_spec, Z.land_spec, Z.ldiff_spec.
      by destruct (Z.testbit c n), (Z.testbit x n).
    - apply Z.bits_inj'. intros n Hn. rewrite !Z.land_spec, Z.ldiff_spec, Z.bits_0.
      by destruct (Z.testbit c n), (Z.testbit x n). }
  assert (0 <= Z.ldiff c x) by (apply Z.ldiff_nonneg; lia). lia.
Qed.

Lemma land_limbs a b c d e : 0 <= a < 67108864 -> 0 <= b < 67108864 -> 0 <= c < 67108864 ->
  0 <= d < 67108864 ->
  Z.land (a + 2 ^ 26 * (b + 2 ^ 26 * (c + 2 ^ 26 * (d + 2 ^ 26 * e)))) CLAMP =
  Z.land a 0x3ffffff + 2 ^ 26 * (Z.land b 0x3ffff03 + 2 ^ 26 * (Z.land c 0x3ffc0ff +
    2 ^ 26 * (Z.land d 0x3f03fff + 2 ^ 26 * Z.land e 0x00fffff))).
Proof.
  intros. change CLAMP with (0x3ffffff + 2 ^ 26 * (0x3ffff03 + 2 ^ 26 * (0x3ffc0ff +
    2 ^ 26 * (0x3f03fff + 2 ^ 26 * 0x00fffff)))).
  by rewrite !land_join by lia.
Qed.

Lemma clamp_spec key : 16 <= zlen key ->
  key_limbs (clamp key) /\ val (clamp key) = Z.land (le_val (take 16 key)) CLAMP.
Proof.
  intros Hk. rewrite (four_words (take 16 key)) by (unfold zlen in *; rewrite length_take; lia).
  assert (W : forall o, 0 <= o <= 12 -> U8TO32_LE (take 16 key) o = U8TO32_LE key o).
  { intros o Ho. rewrite <- (take_drop 16 key) at 2. rewrite U8TO32_LE_app; [done|lia|].
    unfold zlen in *. rewrite length_take. lia. }
  rewrite !W by lia. unfold clamp.
  pose proof (U8TO32_LE_range key 0) as R0. pose proof (U8TO32_LE_range key 4) as R1.
  pose proof (U8TO32_LE_range key 8) as R2. pose proof (U8TO32_LE_range key 12) as R3.
  revert R0 R1 R2 R3. clear.
  generalize (U8TO32_LE key 0) (U8TO32_LE key 4) (U8TO32_LE key 8) (U8TO32_LE key 12).
  intros t0 t1 t2 t3 R0 R1 R2 R3. cbv zeta.
  destruct (clamp_word t0 t1 26 6 64 1048576) as [E1 N1]; [lia..|].
  destruct (clamp_word t1 t2 20 12 4096 16384) as [E2 N2]; [lia..|].
  destruct (clamp_word t2 t3 14 18 262144 256) as [E3 N3]; [lia..|].
  rewrite (mask_mod _ 0x3ffff03), E1 by lia. rewrite (mask_mod _ 0x3ffc0ff), E2 by lia.
  rewrite (mask_mod _ 0x3f03fff), E3 by lia. rewrite (mask_mod t0) by lia.
  rewrite (Z.shiftr_div_pow2 t3) by lia. change (2 ^ 8) with 256.
  split.
  { unfold key_limbs. cbn [l0 l1 l2 l3 l4].
    split_and!; match goal with |- context [Z.land ?x ?c] => pose proof (land_below x c ltac:(lia)) end; lia. }
  rewrite <- (split_block t0 t1 t2 t3) by done.
  pose proof (limb_of_words t0 t1 64 67108864 1048576 ltac:(lia) ltac:(lia) ltac:(lia) ltac:(lia)) as A1.
  pose proof (limb_of_words t1 t2 4096 1048576 16384 ltac:(lia) ltac:(lia) ltac:(lia) ltac:(lia)) as A2.
  pose proof (limb_of_words t2 t3 262144 16384 256 ltac:(lia) ltac:(lia) ltac:(lia) ltac:(lia)) as A3.
  change (64 * 67108864) with 4294967296 in A1. change (64 * 1048576) with 67108864 in A1.
  change (4096 * 1048576) with 4294967296 in A2. change (4096 * 16384) with 67108864 in A2.
  change (262144 * 16384) with 4294967296 in A3. change (262144 * 256) with 67108864 in A3.
  change (2 ^ 26) with 67108864 in *. change (2 ^ 20) with 1048576 in *. change (2 ^ 14) with 16384 in *.
  rewrite <- A1, <- A2, <- A3.
  assert (M : forall x, 0 <= x mod 67108864 < 67108864) by (intros; apply Z.mod_pos_bound; lia).
  pose proof (land_limbs _ _ _ _ (t3 / 256) (M t0) (M ((t0 + 4294967296 * t1) / 67108864))
    (M ((t1 + 4294967296 * t2) / 1048576)) (M ((t2 + 4294967296 * t3) / 16384))) as L.
  change (2 ^ 26) with 67108864 in L. unfold val. cbn [l0 l1 l2 l3 l4].
  change (2 ^ 26) with 67108864. change (2 ^ 52) with (67108864 * 67108864).
  change (2 ^ 78) with (67108864 * (67108864 * 67108864)).
  change (2 ^ 104) with (67108864 * (67108864 * (67108864 * 67108864))).
  match goal with |- _ = Z.land ?x _ => match type of L with Z.land ?y _ = _ =>
    replace x with y by ring end end.
  rewrite L. ring.
Qed.

(** ** The loop *)

Lemma add_block_take h m c : 16 <= zlen m -> add_block h m c = add_block h (take 16 m) c.
Proof.
  intros Hm. assert (L : zlen (take 16 m) = 16) by (unfold zlen in *; rewrite length_take; lia).
  unfold add_block. rewrite <- (take_drop 16 m) at 1 2 3 4 5 6 7 8.
  by rewrite !U8TO32_LE_app by lia.
Qed.

Definition congr (a b : Z) : Prop := a mod P1305 = b mod P1305.

Lemma congr_mul a b r k : congr a b -> congr (a * r - k * P1305) (b * r mod P1305).
Proof.
  unfold congr. intros H. rewrite Zmod_mod, Zminus_mod, Z_mod_mult, Z.sub_0_r, Zmod_mod.
  by rewrite Zmult_mod, H, <- Zmult_mod.
Qed.

Lemma congr_add a b c : congr a b -> congr (a + c) (b + c).
Proof. unfold congr. intros H. by rewrite Zplus_mod, H, <- Zplus_mod. Qed.

(** One block of the loop, full or last. *)
Lemma block_step r h m c acc chunk : key_limbs r -> loose h -> zlen m = 16 ->
  c = 0 \/ c = 2 ^ 24 -> le_val m + 2 ^ 104 * c = le_val chunk -> congr (val h) acc ->
  loose (mul r (add_block h m c)) /\
  congr (val (mul r (add_block h m c))) ((acc + le_val chunk) * val r mod P1305).
Proof.
  intros Hr Hh Hm Hc Hv Hcong.
  destruct (add_block_spec h m c Hh Hm Hc) as [Hl E].
  destruct (mul_spec r (add_block h m c) Hr Hl) as (Hl' & k & E').
  split; [exact Hl'|]. rewrite E', E, <- Z.add_assoc, Hv. apply congr_mul, congr_add, Hcong.
Qed.

Lemma mp_spec m : zlen m < 16 -> zlen (mp m) = 16 /\ le_val (mp m) = le_val (m ++ [x01]).
Proof.
  intros H. unfold mp. pose proof (zlen_nonneg m). split.
  - rewrite !zlen_app, zlen_zeros by lia. change (zlen [x01]) with 1. lia.
  - rewrite app_assoc, le_val_app, le_val_zeros by lia. lia.
Qed.

Lemma blocks_spec r fuel h m acc : key_limbs r -> loose h -> congr (val h) acc ->
  (length m < fuel)%nat ->
  let '(h', rest) := full_blocks fuel r h m in
  loose (last_block r h' rest) /\ congr (val (last_block r h' rest)) (poly_acc fuel (val r) acc m).
Proof.
  intros Hr. revert h m acc. induction fuel as [|fuel IH]; intros h m acc Hh Hc Hf; [lia|].
  cbn [full_blocks]. destruct (Z.ltb_spec (zlen m) 16) as [Hs|Hs].
  - unfold last_block. destruct (Z.eqb_spec (zlen m) 0) as [E|E].
    + apply zlen_0_nil in E as ->. by cbn [poly_acc].
    + destruct (mp_spec m Hs) as [Lm Vm].
      destruct m as [|x m]; [done|]. cbn [poly_acc].
      rewrite (take_ge (x :: m)), (drop_ge (x :: m)) by (unfold zlen in Hs; lia).
      assert (E' : forall a, poly_acc fuel (val r) a [] = a) by (intros a; by destruct fuel).
      rewrite E'. apply block_step; try done; [by left|]. rewrite Vm. lia.
  - assert (L : zlen (take 16 m) = 16) by (unfold zlen in *; rewrite length_take; lia).
    destruct m as [|x m]; [done|]. cbn [poly_acc]. rewrite add_block_take by done.
    destruct (block_step r h (take 16 (x :: m)) (Z.shiftl 1 24) acc (take 16 (x :: m) ++ [x01]))
      as [Hl Hc']; try done; [by right| |].
    + rewrite le_val_app, L. cbn [le_val]. change (byte_val x01) with 1.
      change (Z.shiftl 1 24) with (2 ^ 24). lia.
    + apply IH; [exact Hl|exact Hc'|]. rewrite length_drop. cbn [length] in *. lia.
Qed.

Lemma poly_acc_range fuel r acc m : 0 <= acc < P1305 -> 0 <= poly_acc fuel r acc m < P1305.
Proof.
  revert acc m. induction fuel as [|fuel IH]; intros acc m H; [done|]. cbn [poly_acc].
  destruct m as [|x m]; [done|]. apply IH, Z.mod_pos_bound. unfold P1305. lia.
Qed.

(** ** The end *)

(** All limbs below 2^26. *)
Definition tight (h : limbs) : Prop :=
  below (l0 h) 67108864 /\ below (l1 h) 67108864 /\ below (l2 h) 67108864 /\
  below (l3 h) 67108864 /\ below (l4 h) 67108864.

(** The second limb is not cut again after the last carry; it does not need to be: when
    the top limb overflowed, the second one had just wrapped around. *)
Lemma carry_all_spec h : loose h -> tight (carry_all h) /\ congr (val (carry_all h)) (val h).
Proof.
  destruct h as [h0 h1 h2 h3 h4]. intros (H0 & H1 & H2 & H3 & H4). cbn [l0 l1 l2 l3 l4] in *.
  unfold carry_all. cbv zeta. rewrite !land_26, !shiftr_26.
  destruct (div_mod_26 h0) as (E0 & B0 & P0); [lia|]. revert E0 B0 P0.
  generalize (h0 mod 67108864) (h0 / 67108864). intros m0 q0 E0 B0 P0.
  rewrite (u32_small (h1 + q0)) by lia.
  destruct (div_mod_26 (h1 + q0)) as (E1 & B1 & P1); [lia|]. revert E1 B1 P1.
  generalize ((h1 + q0) mod 67108864) ((h1 + q0) / 67108864). intros m1 q1 E1 B1 P1.
  rewrite (u32_small (h2 + q1)) by lia.
  destruct (div_mod_26 (h2 + q1)) as (E2 & B2 & P2); [lia|]. revert E2 B2 P2.
  generalize ((h2 + q1) mod 67108864) ((h2 + q1) / 67108864). intros m2 q2 E2 B2 P2.
  rewrite (u32_small (h3 + q2)) by lia.
  destruct (div_mod_26 (h3 + q2)) as (E3 & B3 & P3); [lia|]. revert E3 B3 P3.
  generalize ((h3 + q2) mod 67108864) ((h3 + q2) / 67108864). intros m3 q3 E3 B3 P3.
  rewrite (u32_small (h4 + q3)) by lia.
  destruct (div_mod_26 (h4 + q3)) as (E4 & B4 & P4); [lia|]. revert E4 B4 P4.
  generalize ((h4 + q3) mod 67108864) ((h4 + q3) / 67108864). intros m4 q4 E4 B4 P4.
  rewrite (u32_small (q4 * 5)), (u32_small (m0 + q4 * 5)) by lia.
  destruct (div_mod_26 (m0 + q4 * 5)) as (E5 & B5 & P5); [lia|]. revert E5 B5 P5.
  generalize ((m0 + q4 * 5) mod 67108864) ((m0 + q4 * 5) / 67108864). intros m5 q5 E5 B5 P5.
  rewrite (u32_small (m1 + q5)) by lia.
  split; [unfold tight, below; cbn [l0 l1 l2 l3 l4]; lia|].
  unfold congr, val. cbn [l0 l1 l2 l3 l4].
  replace (m5 + 2 ^ 26 * (m1 + q5) + 2 ^ 52 * m2 + 2 ^ 78 * m3 + 2 ^ 104 * m4)
    with (h0 + 2 ^ 26 * h1 + 2 ^ 52 * h2 + 2 ^ 78 * h3 + 2 ^ 104 * h4 + (- q4) * P1305)
    by (unfold P1305; lia).
  apply Z_mod_plus_full.
Qed.

Lemma select_g h g : 0 <= g < 4294967296 -> select (not32 (u32 (0 - 1))) (u32 (0 - 1)) h g = g.
Proof.
  intros Hg. change (u32 (0 - 1)) with (Z.ones 32). change (not32 (Z.ones 32)) with 0.
  unfold select. rewrite Z.land_0_r, Z.lor_0_l, Z.land_ones by lia. by apply Z.mod_small.
Qed.

Lemma select_h h g : 0 <= h < 4294967296 -> select (not32 (u32 (1 - 1))) (u32 (1 - 1)) h g = h.
Proof.
  intros Hh. change (u32 (1 - 1)) with 0. change (not32 0) with (Z.ones 32).
  unfold select. rewrite Z.land_0_r, Z.lor_0_r, Z.land_ones by lia. by apply Z.mod_small.
Qed.

(** The constant-time selection computes the remainder. *)
Lemma reduce_spec h : tight h -> tight (reduce h) /\ val (reduce h) = val h mod P1305.
Proof.
  destruct h as [h0 h1 h2 h3 h4]. unfold tight, below. cbn [l0 l1 l2 l3 l4].
  intros (H0 & H1 & H2 & H3 & H4).
  unfold reduce. cbv zeta. rewrite !land_26, !shiftr_26. change (Z.shiftl 1 26) with 67108864.
  rewrite (u32_small (h0 + 5)) by lia.
  destruct (div_mod_26 (h0 + 5)) as (E0 & B0 & P0); [lia|]. revert E0 B0 P0.
  generalize ((h0 + 5) mod 67108864) ((h0 + 5) / 67108864). intros m0 q0 E0 B0 P0.
  rewrite (u32_small (h1 + q0)) by lia.
  destruct (div_mod_26 (h1 + q0)) as (E1 & B1 & P1); [lia|]. revert E1 B1 P1.
  generalize ((h1 + q0) mod 67108864) ((h1 + q0) / 67108864). intros m1 q1 E1 B1 P1.
  rewrite (u32_small (h2 + q1)) by lia.
  destruct (div_mod_26 (h2 + q1)) as (E2 & B2 & P2); [lia|]. revert E2 B2 P2.
  generalize ((h2 + q1) mod 67108864) ((h2 + q1) / 67108864). intros m2 q2 E2 B2 P2.
  rewrite (u32_small (h3 + q2)) by lia.
  destruct (div_mod_26 (h3 + q2)) as (E3 & B3 & P3); [lia|]. revert E3 B3 P3.
  generalize ((h3 + q2) mod 67108864) ((h3 + q2) / 67108864). intros m3 q3 E3 B3 P3.
  rewrite Z.shiftr_div_pow2 by lia. change (2 ^ 31) with 2147483648.
  unfold val, P1305. destruct (Z.lt_ge_cases (h4 + q3) 67108864) as [Hlt|Hge].
  - assert (U : u32 (h4 + q3 - 67108864) = h4 + q3 - 67108864 + 4294967296).
    { unfold u32, wrap. symmetry. apply Z.mod_unique_pos with (-1); lia. }
    assert (D : u32 (h4 + q3 - 67108864) / 2147483648 = 1).
    { rewrite U. symmetry. apply Z.div_unique_pos with (h4 + q3 - 67108864 + 2147483648); lia. }
    rewrite D, !select_h by lia. cbn [l0 l1 l2 l3 l4]. split; [lia|].
    symmetry. apply Z.mod_small. lia.
  - assert (U : u32 (h4 + q3 - 67108864) = h4 + q3 - 67108864) by (apply u32_small; lia).
    assert (D : u32 (h4 + q3 - 67108864) / 2147483648 = 0) by (rewrite U; apply Z.div_small; lia).
    rewrite D, !select_g by (rewrite ?U; lia). rewrite U. cbn [l0 l1 l2 l3 l4]. split; [lia|].
    apply Z.mod_unique_pos with 1; lia.
Qed.

(** A word of the result, from two limbs. *)
Lemma tag_word a b s k m : 0 <= a < m -> 0 <= b -> 0 <= k -> m = 2 ^ k -> 0 <= s ->
  2 ^ s * m = 4294967296 ->
  Z.lor a (u32 (Z.shiftl b k)) = a + m * (b mod 2 ^ s) /\
  0 <= a + m * (b mod 2 ^ s) < 4294967296.
Proof.
  intros Ha Hb Hk Hm Hs Hsm.
  assert (Pm : 0 < m) by lia. assert (Ps : 0 < 2 ^ s) by lia.
  assert (E : u32 (Z.shiftl b k) = Z.shiftl (b mod 2 ^ s) k).
  { rewrite !Z.shiftl_mul_pow2 by lia. unfold u32, wrap. change (2 ^ 32) with 4294967296.
    rewrite <- Hsm, Hm, Z.mul_mod_distr_r by lia. done. }
  rewrite E, lor_low_shiftl by lia. pose proof (Z.mod_pos_bound b (2 ^ s) Ps). nia.
Qed.

(** Four 32-bit words with carries are the sum modulo 2^128. *)
Lemma words_of_sum f0 f1 f2 f3 :
  let F1 := f1 + Z.shiftr f0 32 in let F2 := f2 + Z.shiftr F1 32 in
  let F3 := f3 + Z.shiftr F2 32 in
  le_bytes 16 ((f0 + 2 ^ 32 * f1 + 2 ^ 64 * f2 + 2 ^ 96 * f3) mod 2 ^ 128) =
  U32TO8_LE f0 ++ U32TO8_LE F1 ++ U32TO8_LE F2 ++ U32TO8_LE F3.
Proof.
  cbv zeta. rewrite !Z.shiftr_div_pow2 by lia.
  assert (DM : forall z, z = 2 ^ 32 * (z / 2 ^ 32) + z mod 2 ^ 32 /\ 0 <= z mod 2 ^ 32 < 2 ^ 32)
    by (intros; split; [apply Z.div_mod|apply Z.mod_pos_bound]; lia).
  destruct (DM f0) as [D0 B0]. set (q0 := f0 / 2 ^ 32) in *.
  destruct (DM (f1 + q0)) as [D1 B1]. set (q1 := (f1 + q0) / 2 ^ 32) in *.
  destruct (DM (f2 + q1)) as [D2 B2]. set (q2 := (f2 + q1) / 2 ^ 32) in *.
  destruct (DM (f3 + q2)) as [D3 B3]. set (q3 := (f3 + q2) / 2 ^ 32) in *.
  set (e0 := f0 mod 2 ^ 32) in *. set (e1 := (f1 + q0) mod 2 ^ 32) in *.
  set (e2 := (f2 + q1) mod 2 ^ 32) in *. set (e3 := (f3 + q2) mod 2 ^ 32) in *.
  assert (T : (f0 + 2 ^ 32 * f1 + 2 ^ 64 * f2 + 2 ^ 96 * f3) mod 2 ^ 128 =
    e0 + 2 ^ 32 * e1 + 2 ^ 64 * e2 + 2 ^ 96 * e3)
    by (symmetry; apply Z.mod_unique_pos with q3; lia).
  rewrite T, le_bytes_words by lia. rewrite !Z.shiftr_div_pow2 by lia.
  assert (S1 : (e0 + 2 ^ 32 * e1 + 2 ^ 64 * e2 + 2 ^ 96 * e3) / 2 ^ 32 =
    e1 + 2 ^ 32 * e2 + 2 ^ 64 * e3) by (symmetry; apply Z.div_unique_pos with e0; lia).
  assert (S2 : (e0 + 2 ^ 32 * e1 + 2 ^ 64 * e2 + 2 ^ 96 * e3) / 2 ^ 64 =
    e2 + 2 ^ 32 * e3) by (symmetry; apply Z.div_unique_pos with (e0 + 2 ^ 32 * e1); lia).
  assert (S3 : (e0 + 2 ^ 32 * e1 + 2 ^ 64 * e2 + 2 ^ 96 * e3) / 2 ^ 96 = e3)
    by (symmetry; apply Z.div_unique_pos with (e0 + 2 ^ 32 * e1 + 2 ^ 64 * e2); lia).
  rewrite S1, S2, S3.
  rewrite (U32TO8_LE_mod (e0 + _ + _ + _) f0), (U32TO8_LE_mod (e1 + _ + _) (f1 + q0)),
    (U32TO8_LE_mod (e2 + _) (f2 + q1)), (U32TO8_LE_mod e3 (f3 + q2)); [done|..].
  - subst e3. by rewrite Zmod_mod.
  - fold e2. symmetry. apply Z.mod_unique_pos with e3; lia.
  - fold e1. symmetry. apply Z.mod_unique_pos with (e2 + 2 ^ 32 * e3); lia.
  - fold e0. symmetry. apply Z.mod_unique_pos with (e1 + 2 ^ 32 * e2 + 2 ^ 64 * e3); lia.
Qed.

Lemma byte_at_drop p n i : 0 <= i -> byte_at (drop n p) i = byte_at p (Z.of_nat n + i).
Proof. intros Hi. unfold byte_at. rewrite nth_skipn. do 2 f_equal. lia. Qed.

Lemma key_words key o : 0 <= o -> U8TO32_LE (drop 16 key) o = U8TO32_LE key (16 + o).
Proof.
  intros Ho. unfold U8TO32_LE. rewrite !byte_at_drop by lia. by rewrite <- !Z.add_assoc.
Qed.

Lemma tag_spec h key : tight h -> zlen key = 32 ->
  tag h key = le_bytes 16 ((val h + le_val (slice 16 16 key)) mod 2 ^ 128).
Proof.
  destruct h as [h0 h1 h2 h3 h4]. unfold tight, below. cbn [l0 l1 l2 l3 l4].
  intros (H0 & H1 & H2 & H3 & H4) Hk.
  replace (slice 16 16 key) with (drop 16 key)
    by (unfold slice; cbn; rewrite take_ge; [done|unfold zlen in Hk; rewrite length_drop; lia]).
  rewrite (four_words (drop 16 key)) by (unfold zlen in *; rewrite length_drop; lia).
  rewrite !key_words by lia. change (16 + 0) with 16.
  change (16 + 4) with 20. change (16 + 8) with 24. change (16 + 12) with 28. unfold tag.
  pose proof (U8TO32_LE_range key 16) as R0. pose proof (U8TO32_LE_range key 20) as R1.
  pose proof (U8TO32_LE_range key 24) as R2. pose proof (U8TO32_LE_range key 28) as R3.
  revert R0 R1 R2 R3. clear Hk.
  generalize (U8TO32_LE key 16) (U8TO32_LE key 20) (U8TO32_LE key 24) (U8TO32_LE key 28).
  intros k0 k1 k2 k3 R0 R1 R2 R3. cbv zeta.
  rewrite (Z.shiftr_div_pow2 h1), (Z.shiftr_div_pow2 h2), (Z.shiftr_div_pow2 h3) by lia.
  assert (DM : forall z d, 0 <= z -> 0 < d -> z = d * (z / d) + z mod d /\ 0 <= z mod d < d /\ 0 <= z / d)
    by (intros z d ??; split_and!; [apply Z.div_mod|apply Z.mod_pos_bound|apply Z.mod_pos_bound|apply Z.div_pos]; lia).
  destruct (DM h1 64) as (D1 & B1 & P1); [lia..|]. destruct (DM h2 4096) as (D2 & B2 & P2); [lia..|].
  destruct (DM h3 262144) as (D3 & B3 & P3); [lia..|]. destruct (DM h4 16777216) as (D4 & B4 & P4); [lia..|].
  clear DM. change (2 ^ 6) with 64. change (2 ^ 12) with 4096. change (2 ^ 18) with 262144.
  destruct (tag_word h0 h1 6 26 67108864) as [-> W0]; [lia..|].
  destruct (tag_word (h1 / 64) h2 12 20 1048576) as [-> W1]; [lia..|].
  destruct (tag_word (h2 / 4096) h3 18 14 16384) as [-> W2]; [lia..|].
  destruct (tag_word (h3 / 262144) h4 24 8 256) as [-> W3]; [lia..|].
  change (2 ^ 6) with 64 in *. change (2 ^ 12) with 4096 in *. change (2 ^ 18) with 262144 in *.
  change (2 ^ 24) with 16777216 in *.
  set (w0 := h0 + _) in *. set (w1 := h1 / 64 + _) in *. set (w2 := h2 / 4096 + _) in *.
  set (w3 := h3 / 262144 + _) in *.
  assert (S : val (mk_limbs h0 h1 h2 h3 h4) =
    w0 + 2 ^ 32 * w1 + 2 ^ 64 * w2 + 2 ^ 96 * w3 + 2 ^ 128 * (h4 / 16777216)).
  { unfold val. cbn [l0 l1 l2 l3 l4]. subst w0 w1 w2 w3. lia. }
  rewrite S. clearbody w0 w1 w2 w3. clear - W0 W1 W2 W3 R0 R1 R2 R3.
  assert (SH : forall z, 0 <= z < 18446744073709551616 -> 0 <= Z.shiftr z 32 < 4294967296).
  { intros z Hz. rewrite Z.shiftr_div_pow2 by lia.
    split; [apply Z.div_pos|apply Z.div_lt_upper_bound]; lia. }
  rewrite (u64_small (w0 + k0)), (u64_small (w1 + k1)), (u64_small (w2 + k2)),
    (u64_small (w3 + k3)) by lia.
  pose proof (SH (w0 + k0) ltac:(lia)). rewrite (u64_small (w1 + k1 + _)) by lia.
  pose proof (SH (w1 + k1 + Z.shiftr (w0 + k0) 32) ltac:(lia)). rewrite (u64_small (w2 + k2 + _)) by lia.
  pose proof (SH (w2 + k2 + Z.shiftr (w1 + k1 + Z.shiftr (w0 + k0) 32) 32) ltac:(lia)).
  rewrite (u64_small (w3 + k3 + _)) by lia.
  rewrite <- words_of_sum. f_equal.
  match goal with |- ?a mod _ = ?b mod _ => replace b with (a + h4 / 16777216 * 2 ^ 128) by lia end.
  by rewrite Z_mod_plus_full.
Qed.

(** Claim C27.  [poly1305_auth], with limbs of 26 bits in words of 32 and 64 bits, a top
    carry folded in late and a branch-free final reduction, computes the Poly1305 tag of
    its message: the polynomial with the blocks as coefficients evaluated at the clamped
    key modulo 2^130 - 5, plus the second half of the key, modulo 2^128.  No sum or
    product overflows its machine word on the way. *)
Theorem poly1305_auth_correct (m key : bytes) (Hk : zlen key = POLY1305_KEYLEN) :
  poly1305_auth m key = poly1305_spec m key.
Proof.
  unfold POLY1305_KEYLEN in Hk. unfold poly1305_auth, poly1305_spec. fold CLAMP.
  destruct (clamp_spec key) as [Hr Vr]; [lia|]. rewrite <- Vr.
  assert (Hz : loose (mk_limbs 0 0 0 0 0)) by (unfold loose; cbn; lia).
  pose proof (blocks_spec (clamp key) (S (length m)) _ m 0 Hr Hz eq_refl ltac:(lia)) as B.
  destruct (full_blocks _ _ _ m) as [h rest]. destruct B as [Hl Hc].
  destruct (carry_all_spec _ Hl) as [Ht Hc']. destruct (reduce_spec _ Ht) as [Ht' Hv].
  rewrite tag_spec by done. do 3 f_equal. rewrite Hv, Hc', Hc.
  apply Z.mod_small, poly_acc_range. unfold P1305. lia.
Qed.

Lemma poly1305_auth_correct_witness :
  poly1305_auth (lit "Cryptographic Forum Research Group") rfc_key =
  poly1305_spec (lit "Cryptographic Forum Research Group") rfc_key.
Proof. apply poly1305_auth_correct. reflexivity. Defined.
