(* ===== verification/Curve25519.v ===== *)
(** smult_curve25519_ref.c: multiplication on Curve25519 in 32 limbs of eight
    bits.  What the multiplication computes is shown in
    Curve25519Thms. *)

From S2P Require Import Prelude.

(** An array of [unsigned int] is the list of its elements; every index below is inside it. *)

Definition at_limb (a : list Z) (j : nat) : Z := nth j a 0.

(** The values that [for (j = from; c; ++j)] takes, in at most [fuel] rounds. *)
Fixpoint for_while (fuel j : nat) (c : nat -> bool) : list nat :=
  match fuel with
  | O => []
  | S fuel => if c j then j :: for_while fuel (S j) c else []
  end.

(** [u += t; out[j] = u & 255; u >>= 8] for the terms in turn. *)
Fixpoint carry (u : Z) (ts : list Z) : list Z * Z :=
  match ts with
  | [] => ([], u)
  | t :: ts =>
    let u := u32 (u + t) in
    let '(out, u') := carry (Z.shiftr u 8) ts in
    (Z.land u 255 :: out, u')
  end.

Definition add (a b : list Z) : list Z :=
  let '(out, u) := carry 0 (map (fun j => u32 (at_limb a j + at_limb b j)) (seq 0 31)) in
  out ++ [u32 (u + u32 (at_limb a 31 + at_limb b 31))].

Definition sub (a b : list Z) : list Z :=
  let '(out, u) := carry 218 (map (fun j => u32 (u32 (at_limb a j + 65280) - at_limb b j)) (seq 0 31)) in
  out ++ [u32 (u + u32 (at_limb a 31 - at_limb b 31))].

(** The second half of [squeeze] and of [mult121665]: what is above 255 bits comes back 19 times. *)
Definition fold_top (out : list Z) (u : Z) : list Z :=
  let out := out ++ [Z.land u 127] in
  let u := u32 (19 * Z.shiftr u 7) in
  let '(out', u) := carry u (map (at_limb out) (seq 0 31)) in
  out' ++ [u32 (u + at_limb out 31)].

Definition squeeze (a : list Z) : list Z :=
  let '(out, u) := carry 0 (map (at_limb a) (seq 0 31)) in
  fold_top out (u32 (u + at_limb a 31)).

Definition minusp : list Z := [19] ++ repeat 0 30 ++ [128].

Definition freeze (a : list Z) : list Z :=
  let aorig := a in
  let a := add a minusp in
  let negative := u32 (- Z.land (Z.shiftr (at_limb a 31) 7) 1) in
  map (fun j => Z.lxor (at_limb a j) (Z.land negative (Z.lxor (at_limb aorig j) (at_limb a j)))) (seq 0 32).

(** [u += f(j)] over a loop. *)
Definition accumulate (u : Z) (f : nat -> Z) (js : list nat) : Z :=
  fold_left (fun u j => u32 (u + f j)) js u.

Definition mult (a b : list Z) : list Z :=
  squeeze (map (fun i =>
    let u := accumulate 0 (fun j => u32 (at_limb a j * at_limb b (i - j)))
               (for_while 32 0 (fun j => j <=? i)%nat) in
    accumulate u (fun j => u32 (u32 (38 * at_limb a j) * at_limb b (i + 32 - j)))
      (for_while 32 (i + 1) (fun j => j <? 32)%nat)) (seq 0 32)).

Definition mult121665 (a : list Z) : list Z :=
  let '(out, u) := carry 0 (map (fun j => u32 (121665 * at_limb a j)) (seq 0 31)) in
  fold_top out (u32 (u + u32 (121665 * at_limb a 31))).

Definition square (a : list Z) : list Z :=
  squeeze (map (fun i =>
    let u := accumulate 0 (fun j => u32 (at_limb a j * at_limb a (i - j)))
               (for_while 32 0 (fun j => j <? i - j)%nat) in
    let u := accumulate u (fun j => u32 (u32 (38 * at_limb a j) * at_limb a (i + 32 - j)))
               (for_while 32 (i + 1) (fun j => j <? i + 32 - j)%nat) in
    let u := u32 (u * 2) in
    if Nat.even i then
      let u := u32 (u + u32 (at_limb a (i / 2) * at_limb a (i / 2))) in
      u32 (u + u32 (u32 (38 * at_limb a (i / 2 + 16)) * at_limb a (i / 2 + 16)))
    else u) (seq 0 32)).

(** [p] and [q]. *)
Definition select (r s : list Z) (b : Z) : list Z * list Z :=
  let bminus1 := u32 (b - 1) in
  let t j := Z.land bminus1 (Z.lxor (at_limb r j) (at_limb s j)) in
  (map (fun j => Z.lxor (at_limb s j) (t j)) (seq 0 64), map (fun j => Z.lxor (at_limb r j) (t j)) (seq 0 64)).

(** The halves of an array of 64: [v] and [v + 32]. *)
Definition lo (v : list Z) : list Z := take 32 v.
Definition hi (v : list Z) : list Z := drop 32 v.

(** One round, for the bit [b]; [work] is the point. *)
Definition mainloop_round (work : list Z) (b : Z) (st : list Z * list Z) : list Z * list Z :=
  let '(xzm, xzm1) := st in
  let '(xzmb, xzm1b) := select xzm xzm1 b in
  let a0 := add (lo xzmb) (hi xzmb) ++ sub (lo xzmb) (hi xzmb) in
  let a1 := add (lo xzm1b) (hi xzm1b) ++ sub (lo xzm1b) (hi xzm1b) in
  let b0 := square (lo a0) ++ square (hi a0) in
  let b1 := mult (lo a1) (hi a0) ++ mult (hi a1) (lo a0) in
  let c1 := add (lo b1) (hi b1) ++ sub (lo b1) (hi b1) in
  let r := square (hi c1) in
  let s := sub (lo b0) (hi b0) in
  let t := mult121665 s in
  let u := add t (lo b0) in
  let xznb := mult (lo b0) (hi b0) ++ mult s u in
  let xzn1b := square (lo c1) ++ mult r work in
  select xznb xzn1b b.

Definition bit_of (e : bytes) (pos : nat) : Z :=
  Z.land (Z.shiftr (byte_val (nth (pos / 8) e x00)) (Z.land (Z.of_nat pos) 7)) 1.

(** [work] after the loop: [pos] from 254 down to 0. *)
Definition mainloop (work : list Z) (e : bytes) : list Z :=
  let xzm1 := map (at_limb work) (seq 0 32) ++ [1] ++ repeat 0 31 in
  let xzm := [1] ++ repeat 0 63 in
  fst (fold_left (fun st pos => mainloop_round work (bit_of e pos) st) (rev (seq 0 255)) (xzm, xzm1)).

(** [for (i = 2;i < n;i += 2) { square(t0,t1); square(t1,t0); }], of [t1]. *)
Definition square_pairs (n : nat) (t1 : list Z) : list Z :=
  fold_left (fun t1 _ => square (square t1)) (for_while n 1 (fun h => 2 * h <? n)%nat) t1.

Definition recip (z : list Z) : list Z :=
  let z2 := square z in
  let t1 := square z2 in
  let t0 := square t1 in
  let z9 := mult t0 z in
  let z11 := mult z9 z2 in
  let t0 := square z11 in
  let z2_5_0 := mult t0 z9 in
  let t0 := square z2_5_0 in
  let t1 := square t0 in
  let t0 := square t1 in
  let t1 := square t0 in
  let t0 := square t1 in
  let z2_10_0 := mult t0 z2_5_0 in
  let t0 := square z2_10_0 in
  let t1 := square t0 in
  let t1 := square_pairs 10 t1 in
  let z2_20_0 := mult t1 z2_10_0 in
  let t0 := square z2_20_0 in
  let t1 := square t0 in
  let t1 := square_pairs 20 t1 in
  let t0 := mult t1 z2_20_0 in
  let t1 := square t0 in
  let t0 := square t1 in
  let t0 := square_pairs 10 t0 in
  let z2_50_0 := mult t0 z2_10_0 in
  let t0 := square z2_50_0 in
  let t1 := square t0 in
  let t1 := square_pairs 50 t1 in
  let z2_100_0 := mult t1 z2_50_0 in
  let t1 := square z2_100_0 in
  let t0 := square t1 in
  let t0 := square_pairs 100 t0 in
  let t1 := mult t0 z2_100_0 in
  let t0 := square t1 in
  let t1 := square t0 in
  let t1 := square_pairs 50 t1 in
  let t0 := mult t1 z2_50_0 in
  let t1 := square t0 in
  let t0 := square t1 in
  let t1 := square t0 in
  let t0 := square t1 in
  let t1 := square t0 in
  mult t1 z11.

(** The scalar as it is used. *)
Definition clamp_scalar (n : bytes) : bytes :=
  let byte j := byte_val (nth j n x00) in
  [byte_of_Z (Z.land (byte 0%nat) 248)] ++ map (fun j => nth j n x00) (seq 1 30) ++
  [byte_of_Z (Z.lor (Z.land (byte 31%nat) 127) 64)].

Definition crypto_scalarmult_curve25519 (n p : bytes) : bytes :=
  let e := clamp_scalar n in
  let work := map (fun i => byte_val (nth i p x00)) (seq 0 32) in
  let work := mainloop work e in
  let zinv := recip (hi work) in
  map byte_of_Z (freeze (mult (lo work) zinv)).
