(* ===== verification/Curve25519Limbs.v ===== *)
(** The arithmetic of Curve25519 limb by limb: each function computes modulo 2^255 - 19 what
    its name says, and none of its 32-bit words wraps, as long as the top limb of what it is
    given stays below the bound stated. *)

From Stdlib Require Import Zdiv.
From S2P Require Import Prelude Curve25519.

Definition P25519 : Z := 2 ^ 255 - 19.

(** ** Values of limbs *)

Fixpoint val (l : list Z) : Z :=
  match l with [] => 0 | x :: l => x + 256 * val l end.

Lemma val_app l1 l2 : val (l1 ++ l2) = val l1 + 256 ^ zlen l1 * val l2.
Proof.
  induction l1 as [|x l1 IH]; cbn [app val]; [change (256 ^ zlen (@nil Z)) with 1; lia|].
  rewrite IH, zlen_cons. pose proof (zlen_nonneg l1). rewrite Z.pow_add_r by lia. lia.
Qed.

Definition digits (l : list Z) : Prop := Forall (fun x => 0 <= x < 256) l.

Lemma val_digits l : digits l -> 0 <= val l < 256 ^ zlen l.
Proof.
  induction 1 as [|x l Hx Hl IH]; cbn [val]; [change (256 ^ zlen (@nil Z)) with 1; lia|].
  rewrite zlen_cons. pose proof (zlen_nonneg l). rewrite Z.add_comm, Z.pow_add_r by lia. lia.
Qed.

(** An element as the functions pass it: 31 bytes and a top limb of at most [B]. *)
Record element (B : Z) (l : list Z) : Prop := {
  el_length : length l = 32%nat;
  el_digits : digits (take 31 l);
  el_top : 0 <= at_limb l 31 <= B
}.

Lemma list_31 l : length l = 32%nat -> l = map (at_limb l) (seq 0 31) ++ [at_limb l 31].
Proof. intros H. do 33 (destruct l as [|? l]; try done). Qed.

Lemma take_31 l : length l = 32%nat -> take 31 l = map (at_limb l) (seq 0 31).
Proof. intros H. do 33 (destruct l as [|? l]; try done). Qed.

Lemma element_app B out top : length out = 31%nat -> digits out -> 0 <= top <= B -> element B (out ++ [top]).
Proof.
  intros Hl Hd Ht. assert (at_limb (out ++ [top]) 31 = top) as E.
  { unfold at_limb. rewrite app_nth2 by lia. by rewrite Hl. }
  split; [by rewrite length_app, Hl|by rewrite take_app_le, take_ge by lia|by rewrite E].
Qed.

Lemma element_val B l : element B l ->
  exists low, low = val (map (at_limb l) (seq 0 31)) /\ 0 <= low < 256 ^ 31 /\ val l = low + 256 ^ 31 * at_limb l 31.
Proof.
  intros [Hl Hd Ht]. eexists. split; [reflexivity|]. rewrite take_31 in Hd by done.
  pose proof (val_digits _ Hd) as Hv. split; [exact Hv|].
  rewrite (list_31 l Hl) at 1. rewrite val_app. cbn [val]. change (zlen (map (at_limb l) (seq 0 31))) with 31. lia.
Qed.

Lemma element_weaken B B' l : B <= B' -> element B l -> element B' l.
Proof. intros HB [H1 H2 H3]. split; [done|done|lia]. Qed.

Lemma element_limb B l j : element B l -> 255 <= B -> (j < 32)%nat -> 0 <= at_limb l j <= B.
Proof.
  intros [Hl Hd Ht] HB Hj. destruct (decide (j = 31%nat)) as [->|]; [done|].
  rewrite take_31 in Hd by done. assert (0 <= at_limb l j < 256); [|lia].
  eapply Forall_forall in Hd; [exact Hd|]. apply list_elem_of_In, in_map, in_seq. lia.
Qed.

(** ** Carries *)

(** No sum wraps when the terms are below [3 * 2^30]. *)
Definition terms_ok (ts : list Z) : Prop := Forall (fun t => 0 <= t < 3 * 2 ^ 30) ts.

Lemma carry_val ts : forall u, 0 <= u <= 2 ^ 30 -> terms_ok ts ->
  exists out u', carry u ts = (out, u') /\ length out = length ts /\ digits out /\ 0 <= u' <= 2 ^ 30 /\
    val out + 256 ^ zlen ts * u' = u + val ts.
Proof.
  induction ts as [|t ts IH]; intros u Hu Hts; cbn [carry].
  - exists [], u. change (256 ^ zlen (@nil Z)) with 1. cbn. split_and!; try done; try lia. constructor.
  - apply Forall_cons in Hts as [Ht Hts]. rewrite u32_small by lia.
    destruct (IH (Z.shiftr (u + t) 8)) as (out & u' & -> & Hl & Hd & Hu' & Hv); [rewrite Z.shiftr_div_pow2 by lia|done|].
    { split; [apply Z.div_pos; lia|]. apply Z.div_le_upper_bound; lia. }
    eexists _, _. split; [reflexivity|]. split_and!; cbn [length val].
    + by rewrite Hl.
    + constructor; [|done]. change 255 with (Z.ones 8). rewrite Z.land_ones by lia. apply Z.mod_pos_bound. lia.
    + lia.
    + lia.
    + rewrite zlen_cons. pose proof (zlen_nonneg ts). rewrite Z.pow_add_r by lia.
      change 255 with (Z.ones 8). rewrite Z.land_ones by lia. rewrite Z.shiftr_div_pow2 in Hv by lia.
      pose proof (Z.div_mod (u + t) (2 ^ 8)). lia.
Qed.

Lemma zlen_terms (f : nat -> Z) : zlen (map f (seq 0 31)) = 31.
Proof. done. Qed.

(** A carry over 31 terms, then the top limb. *)
Lemma carry_top u ts : 0 <= u <= 2 ^ 30 -> terms_ok ts -> zlen ts = 31 ->
  exists out u', carry u ts = (out, u') /\ length out = 31%nat /\ digits out /\ 0 <= u' <= 2 ^ 30 /\
    (forall top, val (out ++ [top]) = u + val ts + 256 ^ 31 * (top - u')) /\ 0 <= val out < 256 ^ 31.
Proof.
  intros Hu Hts Hz. destruct (carry_val ts u Hu Hts) as (out & u' & E & Hl & Hd & Hu' & Hv).
  assert (Hzo : zlen out = 31) by (unfold zlen in *; lia).
  pose proof (val_digits _ Hd) as Hr. rewrite Hzo in Hr. exists out, u'. split_and!; try done; try lia.
  - unfold zlen in Hz. lia.
  - intros top. rewrite val_app, Hzo. cbn [val]. rewrite Hz in Hv. lia.
Qed.

(** The top limb of a number of which the rest is known. *)
Lemma top_bound low top v B : 0 <= low < 256 ^ 31 -> v = low + 256 ^ 31 * top -> 0 <= v < 256 ^ 31 * (B + 1) -> 0 <= top <= B.
Proof. intros. lia. Qed.

Lemma map_val2 (f g : nat -> Z) js : val (map (fun j => f j + g j) js) = val (map f js) + val (map g js).
Proof. induction js as [|j js IH]; cbn [map val]; lia. Qed.
Lemma map_val_scale c (f : nat -> Z) js : val (map (fun j => c * f j) js) = c * val (map f js).
Proof. induction js as [|j js IH]; cbn [map val]; lia. Qed.

Lemma terms_map (f : nat -> Z) n : (forall j, (j < n)%nat -> 0 <= f j < 3 * 2 ^ 30) -> terms_ok (map f (seq 0 n)).
Proof.
  intros H. apply Forall_forall. intros x Hx. apply list_elem_of_In, in_map_iff in Hx as (j & <- & Hj).
  apply in_seq in Hj. apply H. lia.
Qed.

(** The bound on what [mult], [square] and [mult121665] are given. *)
Definition BOUND : Z := 511.

Lemma add_val Ba Bb a b : element Ba a -> element Bb b -> 255 <= Ba <= 1024 -> 255 <= Bb <= 1024 ->
  element (Ba + Bb + 1) (add a b) /\ val (add a b) = val a + val b.
Proof.
  intros Ha Hb HBa HBb. unfold add.
  rewrite (map_ext_in _ (fun j => at_limb a j + at_limb b j)).
  2: { intros j Hj. apply in_seq in Hj. apply u32_small. pose proof (element_limb _ _ j Ha). pose proof (element_limb _ _ j Hb). lia. }
  destruct (carry_top 0 (map (fun j => at_limb a j + at_limb b j) (seq 0 31))) as (out & u & -> & Hl & Hd & Hu & Hv & Ho);
    [lia| |done|].
  { apply terms_map. intros j Hj. pose proof (element_limb _ _ j Ha). pose proof (element_limb _ _ j Hb). lia. }
  pose proof (element_limb _ _ 31 Ha) as Ta. pose proof (element_limb _ _ 31 Hb) as Tb.
  rewrite !u32_small by (rewrite ?u32_small by lia; lia).
  destruct (element_val _ _ Ha) as (la & -> & Hla & Va), (element_val _ _ Hb) as (lb & -> & Hlb & Vb).
  set (top := u + _). assert (V : val (out ++ [top]) = val a + val b).
  { rewrite Hv, map_val2. unfold top. lia. }
  split; [|exact V]. apply element_app; [done|done|].
  apply (top_bound (val out) _ (val a + val b)); [done| |lia].
  rewrite <- V, val_app. unfold zlen. rewrite Hl. cbn [val]. change (Z.of_nat 31) with 31. lia.
Qed.

(** Twice the modulus is added. *)
Lemma sub_val Ba a b : element Ba a -> element 128 b -> 255 <= Ba <= 382 ->
  element (Ba + 256) (sub a b) /\ val (sub a b) = val a - val b + 2 * P25519.
Proof.
  intros Ha Hb HBa. apply (element_weaken 128 255) in Hb as Hb'; [|lia]. unfold sub.
  rewrite (map_ext_in _ (fun j => at_limb a j + (65280 + (-1) * at_limb b j))).
  2: { intros j Hj. apply in_seq in Hj. pose proof (element_limb _ _ j Ha). pose proof (element_limb _ _ j Hb').
       rewrite (u32_small (_ + 65280)) by lia. rewrite u32_small by lia. lia. }
  destruct (carry_top 218 (map (fun j => at_limb a j + (65280 + (-1) * at_limb b j)) (seq 0 31)))
    as (out & u & -> & Hl & Hd & Hu & Hv & Ho); [lia| |done|].
  { apply terms_map. intros j Hj. pose proof (element_limb _ _ j Ha). pose proof (element_limb _ _ j Hb'). lia. }
  destruct (element_val _ _ Ha) as (la & -> & Hla & Va), (element_val _ _ Hb) as (lb & -> & Hlb & Vb).
  pose proof (el_top _ _ Ha) as Ta. pose proof (el_top _ _ Hb) as Tb.
  assert (V : val (out ++ [u + (at_limb a 31 - at_limb b 31)]) = val a - val b + 2 * P25519).
  { rewrite Hv, !map_val2, map_val_scale.
    change (val (map (fun _ => 65280) (seq 0 31))) with (256 ^ 32 - 256). unfold P25519. lia. }
  assert (T : 0 <= u + (at_limb a 31 - at_limb b 31) <= Ba + 256).
  { apply (top_bound (val out) _ (val a - val b + 2 * P25519)); [done| |unfold P25519; lia].
    rewrite <- V, val_app. unfold zlen. rewrite Hl. cbn [val]. change (Z.of_nat 31) with 31. lia. }
  replace (u32 (u + u32 (at_limb a 31 - at_limb b 31))) with (u + (at_limb a 31 - at_limb b 31)).
  - split; [by apply element_app|exact V].
  - unfold u32, wrap. rewrite Zplus_mod_idemp_r, Z.mod_small; lia.
Qed.

(** ** Reduction *)

(** Equality modulo [P25519]. *)
Record eqp (a b : Z) : Prop := { eqp_eq : a mod P25519 = b mod P25519 }.
Declare Scope field_scope.
Infix "==" := eqp (at level 70) : field_scope.
#[local] Open Scope field_scope.

#[export] Instance eqp_equivalence : Equivalence eqp.
Proof. split; [done|by intros x y [H]|by intros x y z [H1] [H2]; split; rewrite H1]. Qed.
#[export] Instance eqp_add : Proper (eqp ==> eqp ==> eqp) Z.add.
Proof. intros a b [H] c d [H']. split. by rewrite Zplus_mod, H, H', <- Zplus_mod. Qed.
#[export] Instance eqp_mul : Proper (eqp ==> eqp ==> eqp) Z.mul.
Proof. intros a b [H] c d [H']. split. by rewrite Zmult_mod, H, H', <- Zmult_mod. Qed.
#[export] Instance eqp_sub : Proper (eqp ==> eqp ==> eqp) Z.sub.
Proof. intros a b [H] c d [H']. split. by rewrite Zminus_mod, H, H', <- Zminus_mod. Qed.

Lemma eqp_mod a : a mod P25519 == a.
Proof. split. by apply Z.mod_mod. Qed.

(** What differs by a multiple of the modulus. *)
Lemma eqp_multiple k a b : a = b + k * P25519 -> a == b.
Proof. intros ->. split. apply Z_mod_plus_full. Qed.

Lemma fold_top_val out u : length out = 31%nat -> digits out -> 0 <= u < 2 ^ 32 ->
  element 128 (fold_top out u) /\ val (fold_top out u) == val out + 256 ^ 31 * u.
Proof.
  intros Hl Hd Hu. unfold fold_top. cbv zeta. change 127 with (Z.ones 7). rewrite Z.land_ones by lia.
  rewrite Z.shiftr_div_pow2 by lia.
  assert (Hq : 0 <= u / 2 ^ 7 < 2 ^ 25) by (split; [apply Z.div_pos; lia|apply Z.div_lt_upper_bound; lia]).
  rewrite (u32_small (19 * _)) by lia. pose proof (Z.mod_pos_bound u (2 ^ 7) eq_refl) as Hm.
  assert (Ho : element 127 (out ++ [u mod 2 ^ 7])) by (apply element_app; [done|done|lia]).
  assert (Et : at_limb (out ++ [u mod 2 ^ 7]) 31 = u mod 2 ^ 7).
  { unfold at_limb. rewrite app_nth2 by lia. by rewrite Hl. }
  apply (element_weaken 127 255) in Ho as Ho'; [|lia].
  destruct (carry_top (19 * (u / 2 ^ 7)) (map (at_limb (out ++ [u mod 2 ^ 7])) (seq 0 31)))
    as (out' & u' & -> & Hl' & Hd' & Hu' & Hv & Hr); [lia| |done|].
  { apply terms_map. intros j Hj. pose proof (element_limb _ _ j Ho'). lia. }
  rewrite Et, u32_small by lia.
  destruct (element_val _ _ Ho) as (low & -> & Hlow & Vo). rewrite Et in Vo.
  rewrite val_app in Vo. unfold zlen in Vo. rewrite Hl in Vo. cbn [val] in Vo. change (Z.of_nat 31) with 31 in Vo.
  assert (V : val (out' ++ [u' + u mod 2 ^ 7]) = val out + 256 ^ 31 * u - u / 2 ^ 7 * P25519).
  { rewrite Hv. unfold P25519. pose proof (Z.div_mod u (2 ^ 7)). lia. }
  split; [|apply (eqp_multiple (- (u / 2 ^ 7))); lia].
  apply element_app; [done|done|]. apply (top_bound (val out') _ (val (out' ++ [u' + u mod 2 ^ 7]))); [done| |].
  - rewrite val_app. unfold zlen. rewrite Hl'. cbn [val]. change (Z.of_nat 31) with 31. lia.
  - rewrite Hv. lia.
Qed.

Lemma squeeze_val a : length a = 32%nat -> (forall j, (j < 32)%nat -> 0 <= at_limb a j < 2 ^ 30) ->
  element 128 (squeeze a) /\ val (squeeze a) == val a.
Proof.
  intros Hl Ha. unfold squeeze.
  destruct (carry_top 0 (map (at_limb a) (seq 0 31))) as (out & u & -> & Hlo & Hd & Hu & Hv & Hr); [lia| |done|].
  { apply terms_map. intros j Hj. pose proof (Ha j). lia. }
  pose proof (Ha 31%nat). rewrite u32_small by lia.
  destruct (fold_top_val out (u + at_limb a 31)) as [He Hm]; [done|done|lia|]. split; [done|]. rewrite Hm.
  rewrite (list_31 a Hl) at 2. rewrite val_app, zlen_terms. cbn [val].
  specialize (Hv u). rewrite val_app in Hv. unfold zlen in Hv. rewrite Hlo in Hv. cbn [val] in Hv.
  change (Z.of_nat 31) with 31 in Hv. apply (eqp_multiple 0). lia.
Qed.

Lemma mult121665_val B a : element B a -> 255 <= B <= BOUND ->
  element 128 (mult121665 a) /\ val (mult121665 a) == 121665 * val a.
Proof.
  unfold BOUND. intros Ha HB. unfold mult121665.
  rewrite (map_ext_in _ (fun j => 121665 * at_limb a j)).
  2: { intros j Hj. apply in_seq in Hj. apply u32_small. pose proof (element_limb _ _ j Ha). lia. }
  destruct (carry_top 0 (map (fun j => 121665 * at_limb a j) (seq 0 31))) as (out & u & -> & Hlo & Hd & Hu & Hv & Hr);
    [lia| |done|].
  { apply terms_map. intros j Hj. pose proof (element_limb _ _ j Ha). lia. }
  pose proof (el_top _ _ Ha). rewrite !u32_small by (rewrite ?u32_small by lia; lia).
  destruct (fold_top_val out (u + 121665 * at_limb a 31)) as [He Hm]; [done|done|lia|]. split; [done|]. rewrite Hm.
  destruct (element_val _ _ Ha) as (la & -> & Hla & ->). rewrite map_val_scale in Hv.
  specialize (Hv u). rewrite val_app in Hv. unfold zlen in Hv. rewrite Hlo in Hv. cbn [val] in Hv.
  change (Z.of_nat 31) with 31 in Hv. apply (eqp_multiple 0). lia.
Qed.

(** ** Products *)

Fixpoint sumz (f : nat -> Z) (js : list nat) : Z :=
  match js with [] => 0 | j :: js => f j + sumz f js end.

Lemma sumz_ext f g js : (forall j, In j js -> f j = g j) -> sumz f js = sumz g js.
Proof.
  induction js as [|j js IH]; intros H; cbn [sumz]; [done|]. rewrite (H j), IH; [done| |by left].
  intros k Hk. apply H. by right.
Qed.
Lemma sumz_eqp f g js : (forall j, In j js -> f j == g j) -> sumz f js == sumz g js.
Proof.
  induction js as [|j js IH]; intros H; cbn [sumz]; [done|]. rewrite (H j), IH; [done| |by left].
  intros k Hk. apply H. by right.
Qed.
Lemma sumz_add f g js : sumz (fun j => f j + g j) js = sumz f js + sumz g js.
Proof. induction js as [|j js IH]; cbn [sumz]; lia. Qed.
Lemma sumz_scale c f js : sumz (fun j => c * f j) js = c * sumz f js.
Proof. induction js as [|j js IH]; cbn [sumz]; lia. Qed.
Lemma sumz_app f js ks : sumz f (js ++ ks) = sumz f js + sumz f ks.
Proof. induction js as [|j js IH]; cbn [sumz app]; lia. Qed.
Lemma sumz_swap (f : nat -> nat -> Z) ks js :
  sumz (fun i => sumz (f i) js) ks = sumz (fun j => sumz (fun i => f i j) ks) js.
Proof.
  induction ks as [|i ks IH]; cbn [sumz].
  - induction js as [|j js IH]; cbn [sumz]; lia.
  - by rewrite IH, <- sumz_add.
Qed.

Lemma sumz_range f js M : (forall j, In j js -> 0 <= f j <= M) -> 0 <= sumz f js <= M * zlen js.
Proof.
  induction js as [|j js IH]; intros H; cbn [sumz]; [change (zlen (@nil nat)) with 0; lia|]. rewrite zlen_cons.
  pose proof (H j (or_introl eq_refl)). pose proof (IH (fun k Hk => H k (or_intror Hk))). lia.
Qed.

Lemma val_sum (f : nat -> Z) n : forall o, val (map f (seq o n)) = sumz (fun i => f i * 256 ^ (Z.of_nat i - Z.of_nat o)) (seq o n).
Proof.
  induction n as [|n IH]; intros o; cbn [seq map val sumz]; [done|]. rewrite Z.sub_diag, IH, <- sumz_scale.
  change (256 ^ 0) with 1. f_equal; [lia|]. apply sumz_ext. intros j Hj. apply in_seq in Hj.
  replace (Z.of_nat j - Z.of_nat o) with (1 + (Z.of_nat j - Z.of_nat (S o))) by lia.
  rewrite Z.pow_add_r by lia. lia.
Qed.

(** An accumulation that does not wrap. *)
Lemma accumulate_sum js f M : forall u, (forall j, In j js -> 0 <= f j <= M) -> 0 <= u -> u + M * zlen js < 2 ^ 32 ->
  accumulate u f js = u + sumz f js.
Proof.
  unfold accumulate. induction js as [|j js IH]; intros u Hf Hu Hb; cbn [fold_left sumz]; [lia|].
  rewrite zlen_cons in Hb. pose proof (zlen_nonneg js). pose proof (Hf j (or_introl eq_refl)).
  rewrite u32_small by nia. rewrite IH; [lia| | |]; [|lia|nia]. intros k Hk. apply Hf. by right.
Qed.

(** The columns of a product, [c] for what stands above 2^256. *)
Definition weight (c : Z) (b : nat -> Z) (i j : nat) : Z :=
  if (j <=? i)%nat then b (i - j)%nat else c * b (i + 32 - j)%nat.
Definition column (c : Z) (a b : nat -> Z) (i : nat) : Z := sumz (fun j => a j * weight c b i j) (seq 0 32).

(** One row: a shift by [j] limbs. *)
Lemma weight_row b j : (j < 32)%nat ->
  sumz (fun i => weight (256 ^ 32) b i j * 256 ^ Z.of_nat i) (seq 0 32) = 256 ^ Z.of_nat j * val (map b (seq 0 32)).
Proof.
  intros Hj. do 32 (destruct j as [|j]; [cbn -[Z.pow Z.mul Z.add Z.of_nat]; cbn [Z.of_nat Pos.of_succ_nat Pos.succ]; lia|]). lia.
Qed.

Lemma columns_product a b :
  sumz (fun i => column (256 ^ 32) a b i * 256 ^ Z.of_nat i) (seq 0 32) = val (map a (seq 0 32)) * val (map b (seq 0 32)).
Proof.
  unfold column. rewrite (sumz_ext _ (fun i => sumz (fun j => a j * (weight (256 ^ 32) b i j * 256 ^ Z.of_nat i)) (seq 0 32))).
  2: { intros i _. rewrite Z.mul_comm, <- sumz_scale. apply sumz_ext. intros j _. lia. }
  rewrite sumz_swap. rewrite (sumz_ext _ (fun j => val (map b (seq 0 32)) * (a j * 256 ^ (Z.of_nat j - Z.of_nat 0)))).
  2: { intros j Hj. apply in_seq in Hj. rewrite sumz_scale, weight_row by lia. rewrite Z.sub_0_r. lia. }
  rewrite sumz_scale, <- val_sum. lia.
Qed.

Lemma val_limbs l : length l = 32%nat -> val (map (at_limb l) (seq 0 32)) = val l.
Proof. intros H. do 33 (destruct l as [|? l]; try done). Qed.

(** Modulo the prime, 2^256 is 38. *)
Lemma columns_eqp a b : val (map (column 38 a b) (seq 0 32)) == val (map a (seq 0 32)) * val (map b (seq 0 32)).
Proof.
  rewrite <- columns_product, val_sum. apply sumz_eqp. intros i Hi. rewrite Z.sub_0_r.
  assert (column 38 a b i == column (256 ^ 32) a b i) as ->; [|done].
  apply sumz_eqp. intros j Hj. unfold weight. destruct (j <=? i)%nat; [done|].
  apply (eqp_multiple (- 2 * a j * b (i + 32 - j)%nat)). unfold P25519. lia.
Qed.

Lemma loop_low i : (i < 32)%nat -> for_while 32 0 (fun j => (j <=? i)%nat) = seq 0 (i + 1).
Proof. intros Hi. do 32 (destruct i as [|i]; [reflexivity|]). lia. Qed.
Lemma loop_high i : (i < 32)%nat -> for_while 32 (i + 1) (fun j => (j <? 32)%nat) = seq (i + 1) (31 - i).
Proof. intros Hi. do 32 (destruct i as [|i]; [reflexivity|]). lia. Qed.

Lemma zlen_seq o n : zlen (seq o n) = Z.of_nat n.
Proof. unfold zlen. by rewrite length_seq. Qed.

(** A limb of a product fits a word with room to spare. *)
Lemma column_range B a b i : 0 <= B <= BOUND -> (forall j, (j < 32)%nat -> 0 <= a j <= B) ->
  (forall j, (j < 32)%nat -> 0 <= b j <= B) -> (i < 32)%nat -> 0 <= column 38 a b i < 2 ^ 30.
Proof.
  unfold BOUND. intros HB Ha Hb Hi. unfold column.
  destruct (sumz_range (fun j => a j * weight 38 b i j) (seq 0 32) (38 * 511 * 511)) as [H1 H2].
  - intros j Hj. apply in_seq in Hj. unfold weight. destruct (Nat.leb_spec j i).
    + pose proof (Ha j). pose proof (Hb (i - j)%nat). nia.
    + pose proof (Ha j). pose proof (Hb (i + 32 - j)%nat). nia.
  - rewrite zlen_seq in H2. lia.
Qed.

Section products.
Context (a b : list Z) (B : Z) (HB : 255 <= B <= BOUND) (Ha : element B a) (Hb : element B b).

Lemma product_term j k : (j < 32)%nat -> (k < 32)%nat ->
  u32 (at_limb a j * at_limb b k) = at_limb a j * at_limb b k /\ 0 <= at_limb a j * at_limb b k <= 38 * 511 * 511.
Proof using All.
  unfold BOUND in HB. intros Hj Hk. pose proof (element_limb _ _ j Ha). pose proof (element_limb _ _ k Hb).
  rewrite u32_small; nia.
Qed.
Lemma product_term_38 j k : (j < 32)%nat -> (k < 32)%nat ->
  u32 (u32 (38 * at_limb a j) * at_limb b k) = 38 * at_limb a j * at_limb b k /\
  0 <= 38 * at_limb a j * at_limb b k <= 38 * 511 * 511.
Proof using All.
  unfold BOUND in HB. intros Hj Hk. pose proof (element_limb _ _ j Ha). pose proof (element_limb _ _ k Hb).
  rewrite (u32_small (38 * _)) by lia. rewrite u32_small; nia.
Qed.

(** A column as the loops accumulate it: indices within the arrays. *)
Lemma accumulate_low u i js : (forall j, In j js -> (j <= i)%nat) -> (i < 32)%nat -> zlen js <= 32 -> 0 <= u <= 2 ^ 30 ->
  accumulate u (fun j => u32 (at_limb a j * at_limb b (i - j))) js = u + sumz (fun j => at_limb a j * at_limb b (i - j)) js.
Proof using All.
  intros Hjs Hi Hl Hu. rewrite (accumulate_sum _ _ (38 * 511 * 511)); [| |lia|lia].
  - f_equal. apply sumz_ext. intros j Hj. apply Hjs in Hj. apply product_term; lia.
  - intros j Hj. apply Hjs in Hj. destruct (product_term j (i - j)) as [-> ?]; lia.
Qed.
Lemma accumulate_high u i js : (forall j, In j js -> (i < j < 32)%nat) -> (i < 32)%nat -> zlen js <= 32 -> 0 <= u <= 2 ^ 30 ->
  accumulate u (fun j => u32 (u32 (38 * at_limb a j) * at_limb b (i + 32 - j))) js =
  u + sumz (fun j => 38 * at_limb a j * at_limb b (i + 32 - j)) js.
Proof using All.
  intros Hjs Hi Hl Hu. rewrite (accumulate_sum _ _ (38 * 511 * 511)); [| |lia|lia].
  - f_equal. apply sumz_ext. intros j Hj. apply Hjs in Hj. apply product_term_38; lia.
  - intros j Hj. apply Hjs in Hj. destruct (product_term_38 j (i + 32 - j)) as [-> ?]; lia.
Qed.
End products.

Lemma at_limb_map f n j : (j < n)%nat -> at_limb (map f (seq 0 n)) j = f j.
Proof.
  intros Hj. unfold at_limb. rewrite (nth_indep _ 0 (f 0%nat)) by (by rewrite length_map, length_seq).
  by rewrite map_nth, seq_nth.
Qed.

(** The columns of [mult] before they are squeezed. *)
Lemma squeezed_columns f B a b : 255 <= B <= BOUND -> element B a -> element B b ->
  (forall i, (i < 32)%nat -> f i = column 38 (at_limb a) (at_limb b) i) ->
  element 128 (squeeze (map f (seq 0 32))) /\ val (squeeze (map f (seq 0 32))) == val a * val b.
Proof.
  intros HB Ha Hb Hf. rewrite (map_ext_in f (column 38 (at_limb a) (at_limb b))).
  2: { intros i Hi. apply in_seq in Hi. apply Hf. lia. }
  destruct (squeeze_val (map (column 38 (at_limb a) (at_limb b)) (seq 0 32))) as [He Hv]; [done| |].
  - intros j Hj. rewrite at_limb_map by done. apply (column_range B); [unfold BOUND in *; lia| | |done]; intros k Hk; eapply element_limb; eauto; lia.
  - split; [done|]. rewrite Hv, columns_eqp. by rewrite !val_limbs by (by eapply el_length).
Qed.

Lemma mult_val B a b : 255 <= B <= BOUND -> element B a -> element B b ->
  element 128 (mult a b) /\ val (mult a b) == val a * val b.
Proof.
  intros HB Ha Hb. apply (squeezed_columns _ B); try done. intros i Hi. cbv zeta.
  rewrite loop_low, loop_high by done. pose proof (zlen_seq 0 (i + 1)) as L1. pose proof (zlen_seq (i + 1) (31 - i)) as L2.
  assert (R : 0 <= sumz (fun j => at_limb a j * at_limb b (i - j)) (seq 0 (i + 1)) <= 38 * 511 * 511 * 32).
  { destruct (sumz_range (fun j => at_limb a j * at_limb b (i - j)) (seq 0 (i + 1)) (38 * 511 * 511)); [|lia].
    intros j Hj. apply in_seq in Hj. apply (product_term a b B HB Ha Hb); lia. }
  rewrite (accumulate_low a b B HB Ha Hb); [|intros j Hj; apply in_seq in Hj; lia|done|lia|lia].
  rewrite (accumulate_high a b B HB Ha Hb); [|intros j Hj; apply in_seq in Hj; lia|done|lia|lia].
  unfold column. replace (seq 0 32) with (seq 0 (i + 1) ++ seq (0 + (i + 1)) (31 - i)) by (rewrite <- seq_app; f_equal; lia).
  change (0 + (i + 1))%nat with (i + 1)%nat.
  rewrite sumz_app, Z.add_0_l. f_equal; apply sumz_ext; intros j Hj; apply in_seq in Hj; unfold weight.
  - by rewrite (proj2 (Nat.leb_le j i)) by lia.
  - rewrite (proj2 (Nat.leb_gt j i)) by lia. lia.
Qed.

(** The columns of a square: each product of two different limbs once, then doubled. *)
Lemma square_column a i : (i < 32)%nat ->
  2 * (sumz (fun j => a j * a (i - j)%nat) (for_while 32 0 (fun j => (j <? i - j)%nat)) +
       sumz (fun j => 38 * a j * a (i + 32 - j)%nat) (for_while 32 (i + 1) (fun j => (j <? i + 32 - j)%nat))) +
  (if Nat.even i then a (i / 2)%nat * a (i / 2)%nat + 38 * a (i / 2 + 16)%nat * a (i / 2 + 16)%nat else 0) =
  column 38 a a i.
Proof.
  intros Hi. do 32 (destruct i as [|i]; [cbn -[Z.mul Z.add]; ring|]). lia.
Qed.

(** Where the loops of [square] go. *)
Lemma for_while_in c fuel : forall o j, In j (for_while fuel o c) -> (o <= j < o + fuel)%nat /\ c j = true.
Proof.
  induction fuel as [|fuel IH]; intros o j; cbn [for_while]; [done|].
  destruct (c o) eqn:Ec; [|done]. intros [->|Hj]; [split; [lia|done]|]. apply IH in Hj as [? ?]. split; [lia|done].
Qed.
Lemma for_while_length c fuel o : zlen (for_while fuel o c) <= Z.of_nat fuel.
Proof.
  revert o. induction fuel as [|fuel IH]; intros o; cbn [for_while]; [done|].
  destruct (c o); [rewrite zlen_cons; specialize (IH (S o)); lia|change (zlen (@nil nat)) with 0; lia].
Qed.

Lemma square_val B a : 255 <= B <= BOUND -> element B a ->
  element 128 (square a) /\ val (square a) == val a * val a.
Proof.
  intros HB Ha. apply (squeezed_columns _ B); try done. intros i Hi. cbv zeta.
  set (js := for_while 32 0 (fun j => (j <? i - j)%nat)). set (ks := for_while 32 (i + 1) (fun j => (j <? i + 32 - j)%nat)).
  assert (Hjs : forall j, In j js -> (j <= i)%nat).
  { intros j Hj. apply for_while_in in Hj as [? ?%Nat.ltb_lt]. lia. }
  assert (Hks : forall j, In j ks -> (i < j < 32)%nat).
  { intros j Hj. apply for_while_in in Hj as [? ?%Nat.ltb_lt]. lia. }
  assert (Ljs : zlen js <= 32) by apply (for_while_length _ 32). assert (Lks : zlen ks <= 32) by apply (for_while_length _ 32).
  pose proof (square_column (at_limb a) i Hi) as HS. fold js ks in HS.
  destruct (sumz_range (fun j => at_limb a j * at_limb a (i - j)) js (38 * 511 * 511)) as [R1 R2].
  { intros j Hj. apply Hjs in Hj. apply (product_term a a B HB Ha Ha); lia. }
  destruct (sumz_range (fun j => 38 * at_limb a j * at_limb a (i + 32 - j)) ks (38 * 511 * 511)) as [R3 R4].
  { intros j Hj. apply Hks in Hj. apply (product_term_38 a a B HB Ha Ha); lia. }
  destruct (column_range B (at_limb a) (at_limb a) i) as [_ R5]; [unfold BOUND in *; lia| | |done|].
  1, 2: intros k Hk; eapply element_limb; eauto; lia.
  rewrite (accumulate_low a a B HB Ha Ha _ i js), (accumulate_high a a B HB Ha Ha _ i ks) by (done || lia).
  assert (Hh : (i / 2 < 16)%nat) by (apply Nat.Div0.div_lt_upper_bound; lia).
  destruct (product_term a a B HB Ha Ha (i / 2) (i / 2)) as [E1 ?]; [lia..|].
  destruct (product_term_38 a a B HB Ha Ha (i / 2 + 16) (i / 2 + 16)) as [E2 ?]; [lia..|].
  rewrite E1, E2. set (S1 := sumz _ js) in *. set (S2 := sumz _ ks) in *.
  rewrite (u32_small ((0 + S1 + S2) * 2)) by lia. revert HS. destruct (Nat.even i); intros HS; [|lia].
  rewrite (u32_small ((0 + S1 + S2) * 2 + _)) by lia. rewrite u32_small by lia. lia.
Qed.
