(* ===== verification/Curve25519Thms.v ===== *)
(** What Curve25519 computes: the function X25519 of RFC 7748, in the integers modulo
    2^255 - 19. *)

From Stdlib Require Import Zdiv Zpow_facts.
From S2P Require Import Prelude Poly1305 Curve25519 Curve25519Limbs.
#[local] Open Scope field_scope.

(** ** X25519 *)

Definition fadd (a b : Z) : Z := (a + b) mod P25519.
Definition fsub (a b : Z) : Z := (a - b) mod P25519.
Definition fmul (a b : Z) : Z := (a * b) mod P25519.
Definition fsqr (a : Z) : Z := fmul a a.

(** A point of the line, [X / Z]. *)
Definition point : Type := Z * Z.

Definition double (m : point) : point :=
  let '(x, z) := m in
  let aa := fsqr (fadd x z) in
  let bb := fsqr (fsub x z) in
  let e := fsub aa bb in
  (fmul aa bb, fmul e (fadd (fmul 121665 e) aa)).

(** The sum of two points whose difference is [x1]. *)
Definition diff_add (x1 : Z) (m n : point) : point :=
  let '(x2, z2) := m in
  let '(x3, z3) := n in
  let da := fmul (fsub x3 z3) (fadd x2 z2) in
  let cb := fmul (fadd x3 z3) (fsub x2 z2) in
  (fsqr (fadd da cb), fmul x1 (fsqr (fsub da cb))).

(** [m] times a point and [m + 1] times it, given the next bit of the scalar. *)
Definition ladder_step (x1 : Z) (bit : bool) (st : point * point) : point * point :=
  let '(m, m1) := st in
  if bit then (diff_add x1 m m1, double m1) else (double m, diff_add x1 m1 m).

Definition ladder (k x1 : Z) : point * point :=
  fold_left (fun st pos => ladder_step x1 (Z.testbit k (Z.of_nat pos)) st) (rev (seq 0 255)) ((1, 0), (x1, 1)).

(** [z] to the power of [P25519 - 2]: its inverse, by Fermat. *)
Definition finv (z : Z) : Z := z ^ (P25519 - 2) mod P25519.

Definition x25519 (k u : Z) : Z :=
  let '(x, z) := fst (ladder k u) in fmul x (finv z).

(** The scalar of 32 bytes: a multiple of eight between 2^254 and 2^255. *)
Definition scalar_of (n : bytes) : Z := 2 ^ 254 + 8 * (le_val n / 8 mod 2 ^ 251).

(** ** The ladder *)

Lemma lo_app x y : length x = 32%nat -> lo (x ++ y) = x.
Proof. intros H. unfold lo. by rewrite take_app_le, take_ge by lia. Qed.
Lemma hi_app x y : length x = 32%nat -> hi (x ++ y) = y.
Proof. intros H. unfold hi. by rewrite drop_app_ge, H by lia. Qed.

Definition word_list (l : list Z) : Prop := length l = 64%nat /\ forall j, (j < 64)%nat -> 0 <= at_limb l j < 2 ^ 32.

Lemma limbs_64 l : length l = 64%nat -> map (at_limb l) (seq 0 64) = l.
Proof. intros H. do 65 (destruct l as [|? l]; try done). Qed.

Lemma lxor_lxor r s : Z.lxor s (Z.lxor r s) = r.
Proof. by rewrite (Z.lxor_comm r), <- Z.lxor_assoc, Z.lxor_nilpotent, Z.lxor_0_l. Qed.

Lemma lxor_bound n r s : 0 <= n -> 0 <= r < 2 ^ n -> 0 <= s < 2 ^ n -> 0 <= Z.lxor r s < 2 ^ n.
Proof.
  intros Hn Hr Hs. assert (E : Z.lxor r s = Z.land (Z.lxor r s) (Z.ones n)).
  { apply Z.bits_inj'. intros m Hm. rewrite Z.land_spec, Z.lxor_spec. assert (T : forall x, 0 <= x < 2 ^ n -> Z.testbit x m = Z.testbit x m && Z.testbit (Z.ones n) m).
    { intros x Hx. rewrite <- Z.land_spec, Z.land_ones, Z.mod_small by lia. done. }
    rewrite (T r), (T s) by done. by destruct (Z.testbit r m), (Z.testbit s m), (Z.testbit (Z.ones n) m). }
  rewrite E, Z.land_ones by lia. apply Z.mod_pos_bound. lia.
Qed.

Lemma lxor_range r s : 0 <= r < 2 ^ 32 -> 0 <= s < 2 ^ 32 -> 0 <= Z.lxor r s < 2 ^ 32.
Proof. by apply (lxor_bound 32). Qed.

(** A mask of all ones chooses the one, of none the other. *)
Lemma select_val r s (bit : bool) : word_list r -> word_list s ->
  select r s (Z.b2z bit) = if bit then (s, r) else (r, s).
Proof.
  intros [Lr Hr] [Ls Hs]. unfold select. cbv zeta.
  transitivity (if bit then (map (at_limb s) (seq 0 64), map (at_limb r) (seq 0 64))
    else (map (at_limb r) (seq 0 64), map (at_limb s) (seq 0 64))); [|by rewrite !limbs_64].
  destruct bit; cbn [Z.b2z]; f_equal; apply map_ext_in; intros j Hj; apply in_seq in Hj.
  - by rewrite Z.land_0_l, Z.lxor_0_r.
  - by rewrite Z.land_0_l, Z.lxor_0_r.
  - change (u32 (0 - 1)) with (Z.ones 32). rewrite Z.land_comm, Z.land_ones, Z.mod_small by (lia || (apply lxor_range; auto with lia)).
    apply lxor_lxor.
  - change (u32 (0 - 1)) with (Z.ones 32). rewrite Z.land_comm, Z.land_ones, Z.mod_small by (lia || (apply lxor_range; auto with lia)).
    rewrite (Z.lxor_comm (at_limb r j) (at_limb s j)). apply lxor_lxor.
Qed.

(** An array of 64 that holds a point. *)
Record holds (l : list Z) (m : point) : Prop := {
  ho_length : length l = 64%nat;
  ho_x : element 255 (lo l);
  ho_z : element 128 (hi l);
  ho_x_val : val (lo l) == fst m;
  ho_z_val : val (hi l) == snd m
}.

Lemma holds_app x z m : element 255 x -> element 128 z -> val x == fst m -> val z == snd m -> holds (x ++ z) m.
Proof.
  intros Hx Hz Vx Vz. pose proof (el_length _ _ Hx). pose proof (el_length _ _ Hz).
  split; rewrite ?lo_app, ?hi_app by done; try done. rewrite length_app. lia.
Qed.

Lemma holds_words l m : holds l m -> word_list l.
Proof.
  intros [Hl Hx Hz _ _]. split; [done|]. intros j Hj. rewrite <- (take_drop 32 l). unfold at_limb.
  destruct (decide (j < 32)%nat).
  - rewrite app_nth1 by (rewrite length_take; lia). pose proof (element_limb _ _ j Hx). unfold at_limb, lo in *. lia.
  - rewrite app_nth2 by (rewrite length_take; lia). rewrite length_take. replace (32 `min` length l)%nat with 32%nat by lia.
    apply (element_weaken _ 255) in Hz; [|lia]. pose proof (element_limb _ _ (j - 32) Hz). unfold at_limb, hi in *. lia.
Qed.

Lemma fadd_eqp a b : fadd a b == a + b.
Proof. apply eqp_mod. Qed.
Lemma fsub_eqp a b : fsub a b == a - b.
Proof. apply eqp_mod. Qed.
Lemma fmul_eqp a b : fmul a b == a * b.
Proof. apply eqp_mod. Qed.

#[export] Instance fadd_proper : Proper (eqp ==> eqp ==> eqp) fadd.
Proof. intros a b H c d H'. by rewrite !fadd_eqp, H, H'. Qed.
#[export] Instance fsub_proper : Proper (eqp ==> eqp ==> eqp) fsub.
Proof. intros a b H c d H'. by rewrite !fsub_eqp, H, H'. Qed.
#[export] Instance fmul_proper : Proper (eqp ==> eqp ==> eqp) fmul.
Proof. intros a b H c d H'. by rewrite !fmul_eqp, H, H'. Qed.

Lemma add_eqp a b : element 255 a -> element 128 b ->
  element BOUND (add a b) /\ val (add a b) == val a + val b.
Proof.
  intros Ha Hb. apply (element_weaken _ 255) in Hb; [|lia]. destruct (add_val _ _ _ _ Ha Hb) as [He ->]; [lia..|]. done.
Qed.
Lemma sub_eqp a b : element 255 a -> element 128 b ->
  element BOUND (sub a b) /\ val (sub a b) == val a - val b.
Proof.
  intros Ha Hb. destruct (sub_val _ _ _ Ha Hb) as [He Hv]; [lia|]. split; [done|].
  apply (eqp_multiple 2). lia.
Qed.

Create HintDb field.
Create Rewrite HintDb field_ops.
#[local] Hint Rewrite fadd_eqp fsub_eqp fmul_eqp : field_ops.

Lemma bound_255 l : element 128 l -> element 255 l.
Proof. apply element_weaken. lia. Qed.
Lemma bound_128 l : element 128 l -> element BOUND l.
Proof. apply element_weaken. unfold BOUND. lia. Qed.
Lemma bound_work l : element 255 l -> element BOUND l.
Proof. apply element_weaken. unfold BOUND. lia. Qed.
#[local] Hint Resolve bound_255 bound_128 bound_work : field.

Lemma mult_eqp a b : element BOUND a -> element BOUND b -> element 128 (mult a b) /\ val (mult a b) == val a * val b.
Proof. intros. apply (mult_val BOUND); [unfold BOUND; lia|done..]. Qed.
Lemma square_eqp a : element BOUND a -> element 128 (square a) /\ val (square a) == val a * val a.
Proof. intros. apply (square_val BOUND); [unfold BOUND; lia|done]. Qed.
Lemma mult121665_eqp a : element BOUND a -> element 128 (mult121665 a) /\ val (mult121665 a) == 121665 * val a.
Proof. intros. apply (mult121665_val BOUND); [done|unfold BOUND; lia]. Qed.

Lemma round_double m n : forall xm : list Z, holds xm m -> n = double m ->
  let a0 := add (lo xm) (hi xm) ++ sub (lo xm) (hi xm) in
  let b0 := square (lo a0) ++ square (hi a0) in
  let s := sub (lo b0) (hi b0) in
  let u := add (mult121665 s) (lo b0) in
  holds (mult (lo b0) (hi b0) ++ mult s u) n.
Proof.
  intros xm [Hl Hx Hz Vx Vz] -> a0 b0 s u. destruct m as [x z]. cbn [fst snd] in *.
  destruct (add_eqp _ _ Hx Hz) as [E1 V1], (sub_eqp _ _ Hx Hz) as [E2 V2].
  assert (La : lo a0 = add (lo xm) (hi xm)) by (apply lo_app, (el_length _ _ E1)).
  assert (Ha : hi a0 = sub (lo xm) (hi xm)) by (apply hi_app, (el_length _ _ E1)).
  destruct (square_eqp _ E1) as [E3 V3], (square_eqp _ E2) as [E4 V4]. rewrite <- La in *. rewrite <- Ha in *.
  assert (Lb : lo b0 = square (lo a0)) by (apply lo_app, (el_length _ _ E3)).
  assert (Hb : hi b0 = square (hi a0)) by (apply hi_app, (el_length _ _ E3)).
  rewrite <- Lb in *. rewrite <- Hb in *.
  destruct (sub_eqp (lo b0) (hi b0)) as [E5 V5]; [auto with field..|]. fold s in E5, V5.
  destruct (mult121665_eqp s E5) as [E6 V6]. destruct (add_eqp (mult121665 s) (lo b0)) as [E7 V7]; [auto with field..|].
  fold u in E7, V7. destruct (mult_eqp (lo b0) (hi b0)) as [E8 V8]; [auto with field..|].
  destruct (mult_eqp s u E5 E7) as [E9 V9].
  apply holds_app; [auto with field..| |]; cbn [double fst snd]; unfold fsqr; autorewrite with field_ops.
  - rewrite V8, V3, V4, V1, V2, Vx, Vz. reflexivity.
  - rewrite V9, V7, V6, V5, V3, V4, V1, V2, Vx, Vz. reflexivity.
Qed.

(** The sums and differences of both points. *)
Lemma halves_eqp xm m : holds xm m ->
  element BOUND (add (lo xm) (hi xm)) /\ val (add (lo xm) (hi xm)) == fst m + snd m /\
  element BOUND (sub (lo xm) (hi xm)) /\ val (sub (lo xm) (hi xm)) == fst m - snd m.
Proof.
  intros [Hl Hx Hz Vx Vz]. destruct (add_eqp _ _ Hx Hz) as [E1 V1], (sub_eqp _ _ Hx Hz) as [E2 V2].
  rewrite <- Vx, <- Vz. done.
Qed.

Lemma round_add x1 work xm xn m n : element 255 work -> val work == x1 -> holds xm m -> holds xn n ->
  let a0 := add (lo xm) (hi xm) ++ sub (lo xm) (hi xm) in
  let a1 := add (lo xn) (hi xn) ++ sub (lo xn) (hi xn) in
  let b1 := mult (lo a1) (hi a0) ++ mult (hi a1) (lo a0) in
  let c1 := add (lo b1) (hi b1) ++ sub (lo b1) (hi b1) in
  holds (square (lo c1) ++ mult (square (hi c1)) work) (diff_add x1 n m).
Proof.
  intros Hw Vw Hm Hn a0 a1 b1 c1.
  destruct (halves_eqp _ _ Hm) as (E1 & V1 & E2 & V2), (halves_eqp _ _ Hn) as (E3 & V3 & E4 & V4).
  assert (L0 : lo a0 = add (lo xm) (hi xm)) by (apply lo_app, (el_length _ _ E1)).
  assert (H0 : hi a0 = sub (lo xm) (hi xm)) by (apply hi_app, (el_length _ _ E1)).
  assert (L1 : lo a1 = add (lo xn) (hi xn)) by (apply lo_app, (el_length _ _ E3)).
  assert (H1 : hi a1 = sub (lo xn) (hi xn)) by (apply hi_app, (el_length _ _ E3)).
  rewrite <- L0, <- H0, <- L1, <- H1 in *.
  destruct (mult_eqp _ _ E3 E2) as [E5 V5], (mult_eqp _ _ E4 E1) as [E6 V6].
  assert (Lb : lo b1 = mult (lo a1) (hi a0)) by (apply lo_app, (el_length _ _ E5)).
  assert (Hb : hi b1 = mult (hi a1) (lo a0)) by (apply hi_app, (el_length _ _ E5)).
  rewrite <- Lb, <- Hb in *.
  destruct (add_eqp (lo b1) (hi b1)) as [E7 V7]; [auto with field..|].
  destruct (sub_eqp (lo b1) (hi b1)) as [E8 V8]; [auto with field..|].
  assert (Lc : lo c1 = add (lo b1) (hi b1)) by (apply lo_app, (el_length _ _ E7)).
  assert (Hc : hi c1 = sub (lo b1) (hi b1)) by (apply hi_app, (el_length _ _ E7)).
  rewrite <- Lc, <- Hc in *.
  destruct (square_eqp _ E7) as [E9 V9], (square_eqp _ E8) as [E10 V10].
  destruct (mult_eqp (square (hi c1)) work) as [E11 V11]; [auto with field..|].
  destruct m as [x z], n as [x' z']. cbn [fst snd] in *.
  apply holds_app; [auto with field|done| |]; cbn [diff_add fst snd]; unfold fsqr; autorewrite with field_ops.
  - rewrite V9, V7, V5, V6, V1, V2, V3, V4. apply (eqp_multiple 0). ring.
  - rewrite V11, V10, V8, V5, V6, V1, V2, V3, V4, Vw. apply (eqp_multiple 0). ring.
Qed.

Definition holds_pair (st : list Z * list Z) (ms : point * point) : Prop :=
  holds (fst st) (fst ms) /\ holds (snd st) (snd ms).

Lemma round_step x1 work bit st ms : element 255 work -> val work == x1 -> holds_pair st ms ->
  holds_pair (mainloop_round work (Z.b2z bit) st) (ladder_step x1 bit ms).
Proof.
  intros Hw Vw [Hm Hm1]. destruct st as [xm xm1], ms as [m m1]. cbn [fst snd] in *. unfold mainloop_round.
  rewrite select_val by (eapply holds_words; eassumption). destruct bit; cbv beta iota zeta.
  - pose proof (round_double _ _ _ Hm1 eq_refl) as HD. pose proof (round_add x1 work _ _ _ _ Hw Vw Hm1 Hm) as HA.
    cbv zeta in HD, HA. rewrite (select_val _ _ true) by (eapply holds_words; eassumption). by split.
  - pose proof (round_double _ _ _ Hm eq_refl) as HD. pose proof (round_add x1 work _ _ _ _ Hw Vw Hm Hm1) as HA.
    cbv zeta in HD, HA. rewrite (select_val _ _ false) by (eapply holds_words; eassumption). by split.
Qed.

(** ** The scalar *)

Lemma le_val_bit p pos : Z.testbit (le_val p) (Z.of_nat pos) = Z.testbit (byte_val (nth (pos / 8) p x00)) (Z.of_nat (pos mod 8)).
Proof.
  revert pos. induction p as [|c p IH]; intros pos; cbn [le_val].
  - rewrite Z.testbit_0_l. by destruct (pos / 8)%nat; rewrite Z.testbit_0_l.
  - change 256 with (2 ^ 8). rewrite Z.mul_comm. destruct (decide (pos < 8)%nat) as [Hp|Hp].
    + rewrite Nat.div_small, Nat.mod_small by done. cbn [nth]. rewrite <- (Z.mod_pow2_bits_low _ 8) by lia.
      rewrite Z_mod_plus_full, Z.mod_pow2_bits_low by lia. done.
    + replace pos with (pos - 8 + 1 * 8)%nat by lia. rewrite Nat.div_add, Nat.Div0.mod_add by done.
      rewrite Nat.add_comm at 1. cbn [Nat.mul Nat.add]. rewrite (Nat.add_comm (_ / 8)). cbn [Nat.add nth]. rewrite <- IH.
      replace (Z.of_nat (S _)) with (Z.of_nat (pos - 8) + 8) by lia. rewrite <- Z.div_pow2_bits by lia.
      rewrite Z.div_add by lia. rewrite Z.div_small by apply byte_val_range. done.
Qed.

Lemma bit_of_val e pos : bit_of e pos = Z.b2z (Z.testbit (le_val e) (Z.of_nat pos)).
Proof.
  unfold bit_of. rewrite le_val_bit. change 7 with (Z.ones 3). rewrite Z.land_ones by lia. change 1 with (Z.ones 1).
  rewrite Z.land_ones by lia. change (2 ^ 1) with 2. rewrite <- Z.bit0_mod, Z.shiftr_spec by lia.
  do 2 f_equal. rewrite Z.add_0_l. change (2 ^ 3) with (Z.of_nat 8). by rewrite Nat2Z.inj_mod.
Qed.

(** The last byte and the first, as they are clamped. *)
Lemma clamp_bytes b : Z.land (byte_val b) 248 = 8 * (byte_val b / 8) /\ Z.lor (Z.land (byte_val b) 127) 64 = 64 + byte_val b mod 64.
Proof. destruct b; by vm_compute. Qed.

Lemma clamp_scalar_val n : length n = 32%nat -> le_val (clamp_scalar n) = scalar_of n.
Proof.
  intros Hl. assert (E : n = [nth 0 n x00] ++ map (fun j => nth j n x00) (seq 1 30) ++ [nth 31 n x00]).
  { do 33 (destruct n as [|? n]; try done). }
  unfold clamp_scalar, scalar_of. cbv zeta. set (b0 := nth 0 n x00) in *. set (b31 := nth 31 n x00) in *.
  set (mid := map (fun j => nth j n x00) (seq 1 30)) in *. rewrite E. rewrite !le_val_app.
  destruct (clamp_bytes b0) as [-> _], (clamp_bytes b31) as [_ ->].
  pose proof (byte_val_range b0). pose proof (byte_val_range b31). pose proof (le_val_range mid) as Hm.
  change (zlen mid) with 30 in *. cbn [le_val]. change (zlen [_]) with 1 in *.
  rewrite !byte_val_of_Z_small by (Z.to_euclidean_division_equations; lia). Z.to_euclidean_division_equations. lia.
Qed.

Lemma clamp_length n : length (clamp_scalar n) = 32%nat.
Proof. done. Qed.

(** ** The loop *)

Ltac small_digits := unfold digits; cbn; repeat (apply Forall_cons_2; [lia|]); apply Forall_nil_2.

Lemma mainloop_holds work e x1 : element 255 work -> val work == x1 ->
  holds (mainloop work e) (fst (ladder (le_val e) x1)).
Proof.
  intros Hw Vw. unfold mainloop, ladder. cbv zeta.
  assert (S0 : holds_pair ([1] ++ repeat 0 63, map (at_limb work) (seq 0 32) ++ [1] ++ repeat 0 31) (1, 0, (x1, 1))).
  { assert (E1 : element 128 ([1] ++ repeat 0 31)) by (split; [done|small_digits|done]).
    assert (E0 : element 128 (repeat 0 32)) by (split; [done|small_digits|done]).
    assert (Ew : map (at_limb work) (seq 0 32) = work).
    { pose proof (el_length _ _ Hw) as Hl. clear -Hl. do 33 (destruct work as [|? work]; try done). }
    split; cbn [fst snd].
    - apply (holds_app ([1] ++ repeat 0 31) (repeat 0 32)); [auto with field|done|reflexivity|reflexivity].
    - rewrite Ew. by apply holds_app. }
  revert S0. generalize ([1] ++ repeat 0 63, map (at_limb work) (seq 0 32) ++ [1] ++ repeat 0 31) as st.
  generalize (1, 0, (x1, 1)) as ms. induction (rev (seq 0 255)) as [|pos js IH]; intros ms st Hst; cbn [fold_left].
  - apply Hst.
  - apply IH. rewrite bit_of_val. by apply round_step.
Qed.

(** ** The inverse *)

(** [x] is a power of [z]. *)
Record power (B : Z) (z : list Z) (n : Z) (x : list Z) : Prop := {
  pw_pos : 0 <= n;
  pw_element : element B x;
  pw_val : val x == val z ^ n
}.

Lemma power_square z n x : power BOUND z n x -> power BOUND z (2 * n) (square x).
Proof.
  intros [Hn Hx Vx]. destruct (square_eqp _ Hx) as [He Hv]. split; [lia|auto with field|].
  rewrite Hv, Vx. rewrite <- Z.pow_add_r by done. by replace (n + n) with (2 * n) by lia.
Qed.

Lemma power_mult z n m x y : power BOUND z n x -> power BOUND z m y -> power BOUND z (n + m) (mult x y).
Proof.
  intros [Hn Hx Vx] [Hm Hy Vy]. destruct (mult_eqp _ _ Hx Hy) as [He Hv]. split; [lia|auto with field|].
  by rewrite Hv, Vx, Vy, Z.pow_add_r.
Qed.

Lemma power_pairs z n x k : power BOUND z n x -> power BOUND z (n * 4 ^ zlen (for_while k 1 (fun h => (2 * h <? k)%nat))) (square_pairs k x).
Proof.
  unfold square_pairs. generalize (for_while k 1 (fun h => (2 * h <? k)%nat)) as js. intros js. revert n x.
  induction js as [|j js IH]; intros n x Hx; cbn [fold_left].
  - change (4 ^ zlen (@nil nat)) with 1. by rewrite Z.mul_1_r.
  - rewrite zlen_cons. pose proof (zlen_nonneg js). rewrite Z.pow_add_r, Z.mul_assoc by lia.
    apply IH. replace (n * 4 ^ 1) with (2 * (2 * n)) by lia. by do 2 apply power_square.
Qed.

(** One line of the chain: the exponent is computed as it goes. *)
Lemma power_let B z n m v (Q : list Z -> Prop) (f : list Z -> list Z) :
  power B z n v -> Z.eqb n m = true -> (forall t, power B z m t -> Q (f t)) -> Q (let t := v in f t).
Proof. intros Hv Hm%Z.eqb_eq Hf. subst. exact (Hf v Hv). Qed.

Ltac power_of v :=
  lazymatch v with
  | square _ => eapply power_square; eassumption
  | square_pairs _ _ => eapply power_pairs; eassumption
  | mult _ _ => eapply power_mult; eassumption
  end.
Ltac chain_step power_of :=
  lazymatch goal with |- ?Q (let t := ?v in @?f t) =>
    let H := fresh "Hp" in
    eassert (H : power _ _ _ v) by power_of v;
    lazymatch type of H with power ?B ?z ?n _ => let m := eval vm_compute in n in
      refine (power_let B z n m v Q f H _ _); [vm_compute; reflexivity|clear H; cbv beta; intros ? ?] end
  end.

(** The chain of squares and products ends at [p - 2]. *)
Lemma recip_val z : element BOUND z -> element 128 (recip z) /\ val (recip z) == finv (val z).
Proof.
  intros Hz. assert (P1 : power BOUND z 1 z) by (split; [lia|done|by rewrite Z.pow_1_r]).
  set (Q := fun x => element 128 x /\ val x == finv (val z)). change (Q (recip z)). cbv delta [recip]. cbv beta. do 42 (chain_step power_of).
  match goal with Ha : power _ z _ ?x, Hb : power _ z _ ?y |- Q (mult ?x ?y) =>
    split; [apply (mult_eqp _ _ (pw_element _ _ _ _ Ha) (pw_element _ _ _ _ Hb))|];
    rewrite (pw_val _ _ _ _ (power_mult _ _ _ _ _ Ha Hb)) end.
  symmetry. apply eqp_mod.
Qed.

(** ** The result *)

(** Bytes of a number, the lowest first. *)
Fixpoint bytes_le (n : nat) (z : Z) : bytes :=
  match n with O => [] | S n => byte_of_Z z :: bytes_le n (z / 256) end.

Lemma bytes_le_val p : bytes_le (length p) (le_val p) = p.
Proof.
  induction p as [|c p IH]; cbn [length bytes_le le_val]; [done|]. pose proof (byte_val_range c). f_equal.
  - apply byte_val_inj. rewrite byte_val_of_Z, Z.mul_comm, Z_mod_plus_full. by apply Z.mod_small.
  - rewrite Z.mul_comm, Z.div_add, Z.div_small by lia. exact IH.
Qed.

Lemma bytes_le_zero n : bytes_le n 0 = repeat x00 n.
Proof. induction n as [|n IH]; cbn [bytes_le repeat]; [done|]. change (0 / 256) with 0. by rewrite IH. Qed.

Lemma length_bytes_le n z : length (bytes_le n z) = n.
Proof. revert z. induction n as [|n IH]; intros z; cbn; [done|]. by rewrite IH. Qed.

Lemma le_val_bytes_le n z : le_val (bytes_le n z) = z mod 256 ^ Z.of_nat n.
Proof.
  revert z. induction n as [|n IH]; intros z; cbn [bytes_le le_val]; [by rewrite Z.mod_1_r|].
  rewrite byte_val_of_Z, IH, Nat2Z.inj_succ, Z.pow_succ_r, Z.rem_mul_r by lia. done.
Qed.

Lemma le_val_unique p n z : length p = n -> le_val p = z -> p = bytes_le n z.
Proof. intros <- <-. symmetry. apply bytes_le_val. Qed.

Lemma le_val_limbs l : le_val (map byte_of_Z l) = val (map (fun x => x mod 256) l).
Proof. induction l as [|x l IH]; cbn [map le_val val]; [done|]. by rewrite IH, byte_val_of_Z. Qed.

Lemma digits_mod l : digits l -> map (fun x => x mod 256) l = l.
Proof.
  intros H. rewrite <- (map_id l) at 2. apply map_ext_in. intros x Hx. apply Z.mod_small.
  by eapply Forall_forall in H; [|apply list_elem_of_In].
Qed.

(** The bytes of an element: only the top limb can exceed one. *)
Lemma element_bytes B l : element B l -> exists low, 0 <= low < 256 ^ 31 /\ val l = low + 256 ^ 31 * at_limb l 31 /\
  le_val (map byte_of_Z l) = low + 256 ^ 31 * (at_limb l 31 mod 256).
Proof.
  intros He. destruct (element_val _ _ He) as (low & E & Hl & Hv). exists low. split_and!; [lia|lia|done|].
  destruct He as [Hlen Hd _]. rewrite le_val_limbs. rewrite (list_31 l Hlen) at 1. rewrite take_31 in Hd by done.
  rewrite map_app, digits_mod, val_app by done. cbn [map val]. rewrite zlen_terms. lia.
Qed.

Lemma element_words B l : element B l -> 255 <= B <= BOUND -> map (at_limb l) (seq 0 32) = l /\
  forall j, (j < 32)%nat -> 0 <= at_limb l j < 2 ^ 32.
Proof.
  intros He HB. split.
  - pose proof (el_length _ _ He) as Hl. clear -Hl. do 33 (destruct l as [|? l]; try done).
  - intros j Hj. pose proof (element_limb _ _ j He). unfold BOUND in HB. lia.
Qed.

Lemma bit_7 t : 128 <= t < 384 -> Z.land (Z.shiftr t 7) 1 = if t <? 256 then 1 else 0.
Proof.
  intros Ht. change 1 with (Z.ones 1) at 1. rewrite Z.land_ones, Z.shiftr_div_pow2 by lia.
  destruct (Z.ltb_spec t 256); Z.to_euclidean_division_equations; lia.
Qed.

(** [freeze] subtracts the modulus once, and undoes it if that went below zero. *)
Lemma freeze_val a : element 128 a -> le_val (map byte_of_Z (freeze a)) = val a mod P25519.
Proof.
  intros Ha. assert (Hm : element 255 minusp) by (split; [done|small_digits|done]).
  destruct (add_val 255 255 a minusp) as [He Hv]; [auto with field|done|lia|lia|].
  change (val minusp) with (2 ^ 255 + 19) in Hv. unfold freeze. cbv zeta. set (a' := add a minusp) in *.
  destruct (element_words _ _ He) as [W' R']; [unfold BOUND; lia|].
  destruct (element_words 255 a) as [W R]; [auto with field|unfold BOUND; lia|].
  destruct (element_bytes _ _ He) as (low' & Hl' & Hv' & Hb'), (element_bytes _ _ Ha) as (low & Hl & Hva & Hb).
  pose proof (el_top _ _ Ha) as Ht. set (t := at_limb a' 31) in *.
  assert (T : 128 <= t < 384) by lia. rewrite bit_7 by done. destruct (Z.ltb_spec t 256) as [Hlt|Hge].
  - change (u32 (Z.opp 1)) with (Z.ones 32). rewrite (map_ext_in _ (at_limb a)).
    + rewrite W, Hb, Z.mod_small by lia. rewrite <- Hva. symmetry. apply Z.mod_small. unfold P25519. lia.
    + intros j Hj. apply in_seq in Hj. rewrite Z.land_comm, Z.land_ones, Z.mod_small by (lia || (apply lxor_range; auto with lia)).
      apply lxor_lxor.
  - change (u32 (Z.opp 0)) with 0. rewrite (map_ext_in _ (at_limb a')).
    + rewrite W', Hb'. apply (Z.mod_unique _ _ 1); unfold P25519; Z.to_euclidean_division_equations; lia.
    + intros j Hj. by rewrite Z.land_0_l, Z.lxor_0_r.
Qed.

Lemma finv_eqp a b : a == b -> finv a = finv b.
Proof. intros [H]. unfold finv. rewrite (Zpower_mod a), (Zpower_mod b) by done. by rewrite H. Qed.

Lemma quotient_val r m : holds r m ->
  le_val (map byte_of_Z (freeze (mult (lo r) (recip (hi r))))) = fmul (fst m) (finv (snd m)).
Proof.
  intros [_ Hx Hz Vx Vz]. destruct (recip_val (hi r)) as [Hi Vi]; [auto with field|].
  destruct (mult_eqp (lo r) (recip (hi r))) as [Hm Vm]; [auto with field..|].
  rewrite freeze_val by done. apply eqp_eq. by rewrite Vm, Vx, Vi, (finv_eqp _ _ Vz).
Qed.

(** The point as it is read. *)
Lemma point_val p : length p = 32%nat ->
  element 255 (map (fun i => byte_val (nth i p x00)) (seq 0 32)) /\ val (map (fun i => byte_val (nth i p x00)) (seq 0 32)) = le_val p.
Proof.
  intros Hp. do 33 (destruct p as [|? p]; try done). split; [|done].
  split; [done| |cbn; match goal with |- 0 <= byte_val ?b <= _ => pose proof (byte_val_range b) end; lia].
  unfold digits. cbn. repeat (apply Forall_cons_2; [apply byte_val_range|]). apply Forall_nil_2.
Qed.

Lemma scalarmult_value n p (Hn : length n = 32%nat) (Hp : length p = 32%nat) :
  length (crypto_scalarmult_curve25519 n p) = 32%nat /\
  le_val (crypto_scalarmult_curve25519 n p) = x25519 (scalar_of n) (le_val p) /\
  0 <= x25519 (scalar_of n) (le_val p) < P25519.
Proof.
  destruct (point_val p Hp) as [Hw Vw].
  pose proof (quotient_val _ _ (mainloop_holds _ (clamp_scalar n) (le_val p) Hw ltac:(by rewrite Vw))) as Hq.
  rewrite (clamp_scalar_val n Hn) in Hq.
  assert (Hx : x25519 (scalar_of n) (le_val p) =
    fmul (fst (fst (ladder (scalar_of n) (le_val p)))) (finv (snd (fst (ladder (scalar_of n) (le_val p)))))).
  { unfold x25519. generalize (fst (ladder (scalar_of n) (le_val p))). by intros [x z]. }
  rewrite Hx. split_and!; [unfold crypto_scalarmult_curve25519, freeze; cbv zeta; by rewrite !length_map, length_seq|exact Hq|by apply Z.mod_pos_bound..].
Qed.


