(* ===== verification/Products.v ===== *)
(** The loops over products that fe25519.c and sc25519.c share: schoolbook multiplication of
    numbers in limbs of eight bits, without carries. *)

From S2P Require Import Prelude Curve25519 Curve25519Limbs.

(** ** Loops over products *)

(** [t[k] += a]; every index below is inside the array. *)
Definition add_at (t : list Z) (k : nat) (a : Z) : list Z := <[k := u32 (at_limb t k + a)]> t.

(** [for(i=0;i<n;i++) for(j=0;j<m;j++)] *)
Definition loop2 (n m : nat) : list (nat * nat) :=
  flat_map (fun i => map (fun j => (i, j)) (seq 0 m)) (seq 0 n).

(** [if(keep(i+j)) t[i+j] += x[i] * y[j]] in such a loop. *)
Definition add_product (x y : list Z) (keep : nat -> bool) (t : list Z) (ij : nat * nat) : list Z :=
  let '(i, j) := ij in
  if keep (i + j)%nat then add_at t (i + j) (u32 (at_limb x i * at_limb y j)) else t.
Definition add_products (n m : nat) (x y : list Z) (keep : nat -> bool) (t : list Z) : list Z :=
  fold_left (add_product x y keep) (loop2 n m) t.

(** ** What the loops compute *)

Section products.
Context (x y : list Z) (M : Z) (HM : 0 <= M).

Lemma at_limb_insert t k a l : (k < length t)%nat -> at_limb (<[k := a]> t) l = if decide (k = l) then a else at_limb t l.
Proof.
  intros Hk. unfold at_limb. rewrite !nth_lookup. destruct (decide (k = l)) as [->|Hn].
  - by rewrite list_lookup_insert_eq.
  - by rewrite list_lookup_insert_ne.
Qed.

(** What a loop adds to one limb. *)
Fixpoint amounts (f : nat -> nat -> Z) (k : nat) (ps : list (nat * nat)) : Z :=
  match ps with
  | [] => 0
  | (i, j) :: ps => (if (i + j =? k)%nat then f i j else 0) + amounts f k ps
  end.

Lemma amounts_app f k ps qs : amounts f k (ps ++ qs) = amounts f k ps + amounts f k qs.
Proof. induction ps as [|[i j] ps IH]; cbn; [done|]. rewrite IH. lia. Qed.

Lemma amounts_nonneg f k ps : Forall (fun '(i, j) => 0 <= f i j) ps -> 0 <= amounts f k ps.
Proof. induction 1 as [|[i j] ps Hp _ IH]; cbn; [done|]. destruct (_ =? _)%nat; lia. Qed.

(** A row of the loop touches each limb once. *)
Lemma amounts_row f k i m : forall o, amounts f k (map (fun j => (i, j)) (seq o m)) =
  if (i + o <=? k)%nat && (k <? i + o + m)%nat then f i (k - i)%nat else 0.
Proof.
  induction m as [|m IH]; intros o; cbn [seq map amounts].
  - rewrite Nat.add_0_r. destruct (Nat.leb_spec (i + o) k), (Nat.ltb_spec k (i + o)); cbn; try done; lia.
  - rewrite IH.
    destruct (Nat.eqb_spec (i + o) k) as [<-|Hn].
    + replace (i + S o <=? i + o)%nat with false by (symmetry; apply Nat.leb_gt; lia).
      replace (i + o <=? i + o)%nat with true by (symmetry; apply Nat.leb_le; lia).
      replace (i + o <? i + o + S m)%nat with true by (symmetry; apply Nat.ltb_lt; lia).
      cbn. replace (i + o - i)%nat with o by lia. lia.
    + destruct (Nat.leb_spec (i + S o) k), (Nat.leb_spec (i + o) k), (Nat.ltb_spec k (i + S o + m)), (Nat.ltb_spec k (i + o + S m));
        cbn; try done; lia.
Qed.

(** The whole loop: a column. *)
Definition conv (n m : nat) (k : nat) : Z :=
  sumz (fun i => if (i <=? k)%nat && (k <? i + m)%nat then at_limb x i * at_limb y (k - i) else 0) (seq 0 n).

Lemma amounts_loop2 n m k : amounts (fun i j => at_limb x i * at_limb y j) k (loop2 n m) = conv n m k.
Proof.
  unfold loop2, conv. induction (seq 0 n) as [|i l IH]; cbn [flat_map sumz]; [done|].
  rewrite amounts_app, IH, amounts_row. by rewrite Nat.add_0_r.
Qed.

Lemma conv_range n m k : (forall i j, (i < n)%nat -> (j < m)%nat -> 0 <= at_limb x i * at_limb y j <= M) ->
  0 <= conv n m k <= M * Z.of_nat n.
Proof.
  intros H. rewrite <- (zlen_seq 0 n). apply sumz_range. intros i Hi. apply in_seq in Hi.
  destruct (Nat.leb_spec i k), (Nat.ltb_spec k (i + m)); cbn; try lia. apply H; lia.
Qed.

(** The array after the loop, if no sum wraps. *)
Lemma add_products_limb keep ps : forall t k,
  Forall (fun '(i, j) => (keep (i + j)%nat = true -> (i + j < length t)%nat) /\ 0 <= at_limb x i * at_limb y j < 2 ^ 32) ps -> (k < length t)%nat ->
  0 <= at_limb t k -> at_limb t k + amounts (fun i j => at_limb x i * at_limb y j) k ps < 2 ^ 32 ->
  at_limb (fold_left (add_product x y keep) ps t) k =
    at_limb t k + if keep k then amounts (fun i j => at_limb x i * at_limb y j) k ps else 0.
Proof.
  induction ps as [|[i j] ps IH]; intros t k Hps Hk Ht Hb; cbn [fold_left amounts add_product] in *; [destruct (keep k); lia|].
  apply Forall_cons in Hps as [[Hij Hp] Hps].
  assert (Hn : 0 <= amounts (fun i j => at_limb x i * at_limb y j) k ps).
  { apply amounts_nonneg. eapply Forall_impl; [exact Hps|]. intros [i' j'] [_ ?]. lia. }
  destruct (Nat.eqb_spec (i + j) k) as [<-|Hne].
  - destruct (keep (i + j)%nat) eqn:Ek.
    + specialize (Hij eq_refl). unfold add_at. rewrite (u32_small (at_limb x i * _)) by lia. rewrite u32_small by lia.
      rewrite IH; rewrite ?length_insert, ?at_limb_insert, ?decide_True by done; try done; try lia. rewrite Ek. lia.
    + rewrite IH; try done; [|lia]. rewrite Ek. lia.
  - rewrite Z.add_0_l in Hb |- *. destruct (keep (i + j)%nat); [|by apply IH]. specialize (Hij eq_refl).
    unfold add_at. rewrite IH; rewrite ?length_insert, ?at_limb_insert, ?decide_False by done; done.
Qed.

Lemma add_products_length keep ps : forall t,
  length (fold_left (add_product x y keep) ps t) =
  length t.
Proof.
  induction ps as [|[i j] ps IH]; intros t; cbn [fold_left add_product]; [done|]. rewrite IH.
  destruct (keep (i + j)%nat); [|done]. apply length_insert.
Qed.
End products.

Lemma at_limb_repeat n k : at_limb (repeat 0 n) k = 0.
Proof. unfold at_limb. destruct (decide (k < n)%nat). - by rewrite nth_repeat. - by rewrite nth_overflow by (rewrite repeat_length; lia). Qed.


Lemma in_loop2 n m i j : In (i, j) (loop2 n m) -> (i < n)%nat /\ (j < m)%nat.
Proof.
  intros Hij. apply in_flat_map in Hij as (i' & Hi & Hj). apply in_map_iff in Hj as (j' & [= -> ->] & Hj).
  apply in_seq in Hi, Hj. lia.
Qed.

(** From an array of zeros: the columns that are kept. *)
Lemma products_zero n m x y keep size k :
  (forall i j, (i < n)%nat -> (j < m)%nat -> 0 <= at_limb x i * at_limb y j < 2 ^ 32) ->
  (forall l, keep l = true -> (l + 1 < n + m)%nat -> (l < size)%nat) -> (k < size)%nat -> conv x y n m k < 2 ^ 32 ->
  at_limb (add_products n m x y keep (repeat 0 size)) k = if keep k then conv x y n m k else 0.
Proof.
  intros Hp Hs Hk Hc. unfold add_products.
  rewrite add_products_limb; rewrite ?repeat_length, ?at_limb_repeat, ?amounts_loop2; try done; try lia.
  apply Forall_forall. intros [i j] Hij%list_elem_of_In%in_loop2. split; [|apply Hp; lia]. intros Hl. apply Hs; [exact Hl|lia].
Qed.

Lemma val_point (p n : nat) : forall o a, (o <= p < o + n)%nat ->
  val (map (fun k => if (p =? k)%nat then a else 0) (seq o n)) = a * 256 ^ Z.of_nat (p - o).
Proof.
  induction n as [|n IH]; intros o a Hp; [lia|]. cbn [seq map val]. destruct (Nat.eqb_spec p o) as [->|Hn].
  - rewrite Nat.sub_diag, (map_ext_in _ (fun _ => 0)).
    + rewrite (map_val_scale 0 (fun _ => 1)). lia.
    + intros k Hk%in_seq. rewrite (proj2 (Nat.eqb_neq _ _)) by lia. done.
  - rewrite IH by lia. replace (Z.of_nat (p - o)) with (1 + Z.of_nat (p - S o)) by lia. rewrite Z.pow_add_r by lia. lia.
Qed.

Lemma amounts_value f N ps : Forall (fun '(i, j) => (i + j < N)%nat) ps ->
  val (map (fun k => amounts f k ps) (seq 0 N)) = fold_right (fun '(i, j) s => f i j * 256 ^ Z.of_nat (i + j) + s) 0 ps.
Proof.
  induction 1 as [|[i j] ps Hp _ IH]; cbn [amounts fold_right].
  - rewrite (map_val_scale 0 (fun _ => 1)). lia.
  - rewrite map_val2, IH, val_point by lia. by rewrite Nat.sub_0_r.
Qed.

(** The columns make the product. *)
Lemma conv_product n m x y : val (map (conv x y n m) (seq 0 (n + m))) = val (map (at_limb x) (seq 0 n)) * val (map (at_limb y) (seq 0 m)).
Proof.
  rewrite (map_ext _ (fun k => amounts (fun i j => at_limb x i * at_limb y j) k (loop2 n m))) by (intros k; by rewrite amounts_loop2).
  rewrite amounts_value. 2: { apply Forall_forall. intros [i j] Hij%list_elem_of_In%in_loop2. lia. }
  rewrite !val_sum. unfold loop2. rewrite Z.mul_comm, <- sumz_scale. induction (seq 0 n) as [|i l IH]; cbn [flat_map sumz]; [done|].
  rewrite foldr_app, IH. clear IH. generalize (sumz (fun i => sumz (fun j => at_limb y j * 256 ^ (Z.of_nat j - Z.of_nat 0)) (seq 0 m) * (at_limb x i * 256 ^ (Z.of_nat i - Z.of_nat 0))) l) as rest.
  intros rest. induction (seq 0 m) as [|j js IH]; cbn [map fold_right sumz]; [lia|].
  rewrite IH, Nat2Z.inj_add, Z.pow_add_r by lia. rewrite !Z.sub_0_r. lia.
Qed.

Lemma val_bound M l : Forall (fun x => 0 <= x <= M) l -> 0 <= val l /\ 255 * val l <= M * (256 ^ zlen l - 1).
Proof.
  induction 1 as [|x l Hx _ [IH1 IH2]]; cbn [val].
  - change (256 ^ zlen (@nil Z)) with 1. lia.
  - rewrite zlen_cons. pose proof (zlen_nonneg l). rewrite Z.pow_add_r by lia. lia.
Qed.

Lemma limbs_forall (f : nat -> Z) M n : (forall j, (j < n)%nat -> 0 <= f j <= M) -> Forall (fun x => 0 <= x <= M) (map f (seq 0 n)).
Proof.
  intros H. apply Forall_forall. intros x Hx. apply list_elem_of_In, in_map_iff in Hx as (j & <- & Hj).
  apply in_seq in Hj. apply H. lia.
Qed.
