(* ===== verification/Fe25519.v ===== *)
(** fe25519.c: the field of 2^255 - 19 elements as the signatures use it, in 32 limbs of eight
    bits. *)

From S2P Require Import Prelude Curve25519 Products.

(** ** The field *)

Definition fe_equal (a b : Z) : Z := Z.shiftr (u32 (Z.lxor a b - 1)) 31.
Definition fe_ge (a b : Z) : Z := Z.lxor (Z.shiftr (u32 (a - b)) 31) 1.
Definition times19 (a : Z) : Z := u32 (u32 (u32 (Z.shiftl a 4) + u32 (Z.shiftl a 1)) + a).
Definition times38 (a : Z) : Z := u32 (u32 (u32 (Z.shiftl a 5) + u32 (Z.shiftl a 2)) + u32 (Z.shiftl a 1)).

(** One round of the reductions. *)
Definition reduce_round (v : list Z) : list Z :=
  let t := times19 (Z.shiftr (at_limb v 31) 7) in
  let '(out, t) := carry t (map (at_limb v) (seq 0 31)) in
  out ++ [u32 (t + Z.land (at_limb v 31) 127)].

Definition reduce_add_sub (v : list Z) : list Z := Nat.iter 4 reduce_round v.
Definition reduce_mul (v : list Z) : list Z := Nat.iter 2 reduce_round v.

Definition fe25519_freeze (v : list Z) : list Z :=
  let m := fe_equal (at_limb v 31) 127 in
  let m := fold_left (fun m i => Z.land m (fe_equal (at_limb v i) 255)) (rev (seq 1 30)) m in
  let m := Z.land m (fe_ge (at_limb v 0) 237) in
  let m := u32 (- m) in
  [u32 (at_limb v 0 - Z.land m 237)] ++ map (fun i => u32 (at_limb v i - Z.land m 255)) (seq 1 30) ++
  [u32 (at_limb v 31 - Z.land m 127)].

Definition fe25519_unpack (x : bytes) : list Z :=
  map (fun i => byte_val (nth i x x00)) (seq 0 31) ++ [Z.land (byte_val (nth 31 x x00)) 127].
Definition fe25519_pack (x : list Z) : bytes := map byte_of_Z (fe25519_freeze x).

Definition fe25519_iszero (x : list Z) : Z :=
  let t := fe25519_freeze x in
  fold_left (fun r i => Z.land r (fe_equal (at_limb t i) 0)) (seq 1 31) (fe_equal (at_limb t 0) 0).

Definition fe25519_iseq_vartime (x y : list Z) : bool :=
  let t1 := fe25519_freeze x in
  let t2 := fe25519_freeze y in
  forallb (fun i => at_limb t1 i =? at_limb t2 i) (seq 0 32).

(** [b] is an [unsigned char]. *)
Definition fe25519_cmov (r x : list Z) (b : Z) : list Z :=
  let mask := u32 (- b) in
  map (fun i => Z.lxor (at_limb r i) (Z.land mask (Z.lxor (at_limb x i) (at_limb r i)))) (seq 0 32).

Definition fe25519_getparity (x : list Z) : Z := Z.land (at_limb (fe25519_freeze x) 0) 1.

Definition fe25519_setone : list Z := 1 :: repeat 0 31.
Definition fe25519_setzero : list Z := repeat 0 32.

Definition fe25519_add (x y : list Z) : list Z :=
  reduce_add_sub (map (fun i => u32 (at_limb x i + at_limb y i)) (seq 0 32)).

Definition fe25519_sub (x y : list Z) : list Z :=
  let t i := if (i =? 0)%nat then u32 (at_limb x i + 0x1da)
             else if (i =? 31)%nat then u32 (at_limb x i + 0xfe)
             else u32 (at_limb x i + 0x1fe) in
  reduce_add_sub (map (fun i => u32 (t i - at_limb y i)) (seq 0 32)).

Definition fe25519_neg (x : list Z) : list Z := fe25519_sub fe25519_setzero x.

Definition fe25519_mul (x y : list Z) : list Z :=
  let t := add_products 32 32 x y (fun _ => true) (repeat 0 63) in
  reduce_mul (map (fun i => if (i =? 31)%nat then at_limb t 31
    else u32 (at_limb t i + times38 (at_limb t (i + 32)))) (seq 0 32)).

Definition fe25519_square (x : list Z) : list Z := fe25519_mul x x.

(** [for (i = 2;i < n;i += 2) { fe25519_square(&t0,&t1); fe25519_square(&t1,&t0); }], of [t1]. *)
Definition fe_square_pairs (n : nat) (t1 : list Z) : list Z :=
  fold_left (fun t1 _ => fe25519_square (fe25519_square t1)) (for_while n 1 (fun h => 2 * h <? n)%nat) t1.

Definition fe25519_invert (x : list Z) : list Z :=
  let z2 := fe25519_square x in
  let t1 := fe25519_square z2 in
  let t0 := fe25519_square t1 in
  let z9 := fe25519_mul t0 x in
  let z11 := fe25519_mul z9 z2 in
  let t0 := fe25519_square z11 in
  let z2_5_0 := fe25519_mul t0 z9 in
  let t0 := fe25519_square z2_5_0 in
  let t1 := fe25519_square t0 in
  let t0 := fe25519_square t1 in
  let t1 := fe25519_square t0 in
  let t0 := fe25519_square t1 in
  let z2_10_0 := fe25519_mul t0 z2_5_0 in
  let t0 := fe25519_square z2_10_0 in
  let t1 := fe25519_square t0 in
  let t1 := fe_square_pairs 10 t1 in
  let z2_20_0 := fe25519_mul t1 z2_10_0 in
  let t0 := fe25519_square z2_20_0 in
  let t1 := fe25519_square t0 in
  let t1 := fe_square_pairs 20 t1 in
  let t0 := fe25519_mul t1 z2_20_0 in
  let t1 := fe25519_square t0 in
  let t0 := fe25519_square t1 in
  let t0 := fe_square_pairs 10 t0 in
  let z2_50_0 := fe25519_mul t0 z2_10_0 in
  let t0 := fe25519_square z2_50_0 in
  let t1 := fe25519_square t0 in
  let t1 := fe_square_pairs 50 t1 in
  let z2_100_0 := fe25519_mul t1 z2_50_0 in
  let t1 := fe25519_square z2_100_0 in
  let t0 := fe25519_square t1 in
  let t0 := fe_square_pairs 100 t0 in
  let t1 := fe25519_mul t0 z2_100_0 in
  let t0 := fe25519_square t1 in
  let t1 := fe25519_square t0 in
  let t1 := fe_square_pairs 50 t1 in
  let t0 := fe25519_mul t1 z2_50_0 in
  let t1 := fe25519_square t0 in
  let t0 := fe25519_square t1 in
  let t1 := fe25519_square t0 in
  let t0 := fe25519_square t1 in
  let t1 := fe25519_square t0 in
  fe25519_mul t1 z11.

(** [for (i = 1;i < n;i++) { fe25519_square(&t,&t); }] *)
Definition fe_squares (n : nat) (t : list Z) : list Z :=
  fold_left (fun t _ => fe25519_square t) (for_while n 1 (fun i => i <? n)%nat) t.

Definition fe25519_pow2523 (x : list Z) : list Z :=
  let z2 := fe25519_square x in
  let t := fe25519_square z2 in
  let t := fe25519_square t in
  let z9 := fe25519_mul t x in
  let z11 := fe25519_mul z9 z2 in
  let t := fe25519_square z11 in
  let z2_5_0 := fe25519_mul t z9 in
  let t := fe25519_square z2_5_0 in
  let t := fe_squares 5 t in
  let z2_10_0 := fe25519_mul t z2_5_0 in
  let t := fe25519_square z2_10_0 in
  let t := fe_squares 10 t in
  let z2_20_0 := fe25519_mul t z2_10_0 in
  let t := fe25519_square z2_20_0 in
  let t := fe_squares 20 t in
  let t := fe25519_mul t z2_20_0 in
  let t := fe25519_square t in
  let t := fe_squares 10 t in
  let z2_50_0 := fe25519_mul t z2_10_0 in
  let t := fe25519_square z2_50_0 in
  let t := fe_squares 50 t in
  let z2_100_0 := fe25519_mul t z2_50_0 in
  let t := fe25519_square z2_100_0 in
  let t := fe_squares 100 t in
  let t := fe25519_mul t z2_100_0 in
  let t := fe25519_square t in
  let t := fe_squares 50 t in
  let t := fe25519_mul t z2_50_0 in
  let t := fe25519_square t in
  let t := fe25519_square t in
  fe25519_mul t x.
