(* ===== verification/Fe25519Thms.v ===== *)
(** What fe25519.c computes: the operations of the integers modulo 2^255 - 19.  Sums and
    differences come out below 2^255, products only nearly so. *)

From Stdlib Require Import Zpow_facts.
From S2P Require Import Prelude Poly1305 Curve25519 Curve25519Limbs Curve25519Thms Products Fe25519.
#[local] Open Scope field_scope.

(** ** The reductions *)

(** Limbs of at most [M], not yet carried. *)
Definition loose (M : Z) (v : list Z) : Prop := length v = 32%nat /\ forall j, (j < 32)%nat -> 0 <= at_limb v j <= M.

Lemma loose_val M v : loose M v -> exists low, 0 <= low /\ 255 * low <= M * (256 ^ 31 - 1) /\
  low = val (map (at_limb v) (seq 0 31)) /\ val v = low + 256 ^ 31 * at_limb v 31.
Proof.
  intros [Hl Hv]. destruct (val_bound M (map (at_limb v) (seq 0 31))) as [H1 H2].
  { apply limbs_forall. intros j Hj. apply Hv. lia. }
  rewrite zlen_terms in H2. eexists. split_and!; [exact H1|exact H2|done|].
  rewrite (list_31 v Hl) at 1. rewrite val_app, zlen_terms. cbn [val]. lia.
Qed.

Lemma element_loose B v : element B v -> 255 <= B -> loose B v.
Proof. intros He HB. split; [apply He|]. intros j Hj. by apply (element_limb B). Qed.

Lemma times19_val a : 0 <= a < 2 ^ 27 -> times19 a = 19 * a.
Proof.
  intros H. unfold times19. rewrite !Z.shiftl_mul_pow2 by lia. rewrite (u32_small (a * 2 ^ 4)), (u32_small (a * 2 ^ 1)) by lia.
  rewrite (u32_small (a * 2 ^ 4 + _)) by lia. rewrite u32_small by lia. lia.
Qed.
Lemma times38_val a : 0 <= a < 2 ^ 26 -> times38 a = 38 * a.
Proof.
  intros H. unfold times38. rewrite !Z.shiftl_mul_pow2 by lia.
  rewrite (u32_small (a * 2 ^ 5)), (u32_small (a * 2 ^ 2)), (u32_small (a * 2 ^ 1)) by lia.
  rewrite (u32_small (a * 2 ^ 5 + _)) by lia. rewrite u32_small by lia. lia.
Qed.

(** A round takes the modulus off as often as the top limb says, and carries. *)
Lemma reduce_round_val M B v : loose M v -> 0 <= M < 2 ^ 28 -> M + 127 * 255 + 255 <= 255 * B ->
  element B (reduce_round v) /\ val (reduce_round v) = val v - at_limb v 31 / 2 ^ 7 * P25519.
Proof.
  intros Hv HM HB. unfold reduce_round. cbv zeta. destruct (loose_val _ _ Hv) as (low & Hlow & Hlow' & El & Ev).
  destruct Hv as [Hl Hv]. pose proof (Hv 31%nat ltac:(lia)) as Ht.
  rewrite Z.shiftr_div_pow2 by lia. change 127 with (Z.ones 7). rewrite Z.land_ones by lia.
  assert (Hq : 0 <= at_limb v 31 / 2 ^ 7 < 2 ^ 21) by (split; [apply Z.div_pos; lia|apply Z.div_lt_upper_bound; lia]).
  pose proof (Z.mod_pos_bound (at_limb v 31) (2 ^ 7) eq_refl) as Hm.
  rewrite times19_val by lia.
  destruct (carry_top (19 * (at_limb v 31 / 2 ^ 7)) (map (at_limb v) (seq 0 31))) as (out & u & -> & Hlo & Hd & Hu & Hc & Hr);
    [lia| |done|].
  { apply terms_map. intros j Hj. pose proof (Hv j). lia. }
  rewrite u32_small by lia.
  assert (V : val (out ++ [u + at_limb v 31 mod 2 ^ 7]) = val v - at_limb v 31 / 2 ^ 7 * P25519).
  { rewrite Hc, <- El, Ev. unfold P25519. pose proof (Z.div_mod (at_limb v 31) (2 ^ 7)). lia. }
  split; [|exact V]. apply element_app; [done|done|].
  apply (top_bound (val out) _ (val (out ++ [u + at_limb v 31 mod 2 ^ 7]))); [done| |].
  - rewrite val_app. unfold zlen. rewrite Hlo. cbn [val]. change (Z.of_nat 31) with 31. lia.
  - rewrite Hc, <- El. lia.
Qed.

Lemma div_128 t : 0 <= t < 256 -> t / 2 ^ 7 = if t <? 128 then 0 else 1.
Proof. intros H. destruct (Z.ltb_spec t 128); Z.to_euclidean_division_equations; lia. Qed.

(** A round of what is almost reduced. *)
Lemma round_again B v : element B v -> 127 <= B <= 200 ->
  element 127 (reduce_round v) /\ exists k, 0 <= k /\ val (reduce_round v) = val v - k * P25519.
Proof.
  intros Hv HB. pose proof (el_top _ _ Hv) as Ht.
  destruct (reduce_round_val 255 129 v) as [He Ev]; [apply element_loose; [by eapply element_weaken; [|exact Hv]; lia|lia]|lia|lia|].
  split; [|eexists; split; [|exact Ev]; apply Z.div_pos; lia].
  destruct (element_val _ _ Hv) as (low & _ & Hlow & Vv), (element_val _ _ He) as (low' & _ & Hlow' & Vr).
  split; [apply He|apply He|]. rewrite Vr in Ev. rewrite div_128 in Ev by lia. unfold P25519 in Ev.
  destruct (Z.ltb_spec (at_limb v 31) 128); lia.
Qed.

Lemma reduce_add_sub_val v : loose 1000 v ->
  element 127 (reduce_add_sub v) /\ val (reduce_add_sub v) == val v.
Proof.
  intros Hv. change (reduce_add_sub v) with (reduce_round (reduce_round (reduce_round (reduce_round v)))).
  destruct (reduce_round_val 1000 135 v Hv) as [E1 V1]; [lia|lia|].
  destruct (round_again _ _ E1) as (E2 & k2 & _ & V2); [lia|].
  destruct (round_again _ _ E2) as (E3 & k3 & _ & V3); [lia|].
  destruct (round_again _ _ E3) as (E4 & k4 & _ & V4); [lia|].
  split; [done|]. rewrite V4, V3, V2, V1. apply (eqp_multiple (- (at_limb v 31 / 2 ^ 7 + k2 + k3 + k4))). lia.
Qed.

(** After a product the second round can end just above 2^255. *)
Lemma reduce_mul_val v : loose (2 ^ 27) v ->
  element 128 (reduce_mul v) /\ val (reduce_mul v) == val v /\ val (reduce_mul v) < 2 ^ 255 + 19 * 2 ^ 13.
Proof.
  intros Hv. change (reduce_mul v) with (reduce_round (reduce_round v)).
  destruct (reduce_round_val (2 ^ 27) (2 ^ 20) v Hv) as [E1 V1]; [lia|lia|].
  destruct (reduce_round_val (2 ^ 20) (2 ^ 20) (reduce_round v)) as [E2 V2]; [by apply element_loose|lia|lia|].
  enough (element 128 (reduce_round (reduce_round v)) /\ val (reduce_round (reduce_round v)) < 2 ^ 255 + 19 * 2 ^ 13) as [H1 H2].
  { split; [exact H1|split; [|exact H2]]. rewrite V2, V1. apply (eqp_multiple (- (at_limb v 31 / 2 ^ 7 + at_limb (reduce_round v) 31 / 2 ^ 7))). lia. }
  destruct (element_val _ _ E1) as (low & _ & Hlow & Vv), (element_val _ _ E2) as (low' & _ & Hlow' & Vr).
  pose proof (el_top _ _ E1). rewrite Vr in V2 |- *. unfold P25519 in V2.
  pose proof (el_top _ _ E2). pose proof (Z.div_mod (at_limb (reduce_round v) 31) (2 ^ 7)).
  pose proof (Z.mod_pos_bound (at_limb (reduce_round v) 31) (2 ^ 7) eq_refl).
  assert (at_limb (reduce_round v) 31 / 2 ^ 7 <= 2 ^ 13) by (apply Z.div_le_upper_bound; lia). split; [|lia]. split; [apply E2|apply E2|lia].
Qed.

(** ** The operations *)

Lemma val_map32 f : val (map f (seq 0 32)) = val (map f (seq 0 31)) + 256 ^ 31 * f 31%nat.
Proof. change (seq 0 32) with (seq 0 31 ++ [31%nat]). rewrite map_app, val_app, zlen_terms. cbn [map val]. lia. Qed.

Lemma loose_map f M : (forall j, (j < 32)%nat -> 0 <= f j <= M) -> loose M (map f (seq 0 32)).
Proof. intros H. split; [done|]. intros j Hj. by rewrite at_limb_map by done; apply H. Qed.

Lemma fe_limb v j : element 128 v -> (j < 32)%nat -> 0 <= at_limb v j <= 255.
Proof. intros He Hj. apply (element_limb 255); [eapply element_weaken; [|exact He]; lia|lia|done]. Qed.

Lemma val_limbs_of B v : element B v -> val (map (at_limb v) (seq 0 32)) = val v.
Proof. intros He. apply val_limbs, He. Qed.

Lemma fe_add_val x y : element 128 x -> element 128 y ->
  element 127 (fe25519_add x y) /\ val (fe25519_add x y) == val x + val y.
Proof.
  intros Hx Hy. unfold fe25519_add. rewrite (map_ext_in _ (fun i => at_limb x i + at_limb y i)).
  2: { intros i Hi. apply in_seq in Hi. pose proof (fe_limb x i Hx). pose proof (fe_limb y i Hy). apply u32_small. lia. }
  destruct (reduce_add_sub_val (map (fun i => at_limb x i + at_limb y i) (seq 0 32))) as [He Hv].
  { apply loose_map. intros j Hj. pose proof (fe_limb x j Hx Hj). pose proof (fe_limb y j Hy Hj). lia. }
  split; [done|]. rewrite Hv, map_val2. by rewrite (val_limbs_of _ _ Hx), (val_limbs_of _ _ Hy).
Qed.

(** What is added before a difference: twice the modulus. *)
Definition sub_term (i : nat) : Z := if (i =? 0)%nat then 0x1da else if (i =? 31)%nat then 0xfe else 0x1fe.

Lemma fe_sub_val x y : element 128 x -> element 128 y ->
  element 127 (fe25519_sub x y) /\ val (fe25519_sub x y) == val x - val y.
Proof.
  intros Hx Hy. unfold fe25519_sub. cbv zeta. rewrite (map_ext_in _ (fun i => at_limb x i + (sub_term i + (-1) * at_limb y i))).
  2: { intros i Hi. apply in_seq in Hi. pose proof (fe_limb x i Hx). pose proof (fe_limb y i Hy). unfold sub_term.
       pose proof (el_top _ _ Hy) as Ty.
       destruct (Nat.eqb_spec i 0), (Nat.eqb_spec i 31); subst; rewrite (u32_small (_ + _)) by lia; rewrite u32_small; lia. }
  assert (Hs : forall j, (j < 32)%nat -> 0 <= at_limb x j + (sub_term j + (-1) * at_limb y j) <= 1000).
  { intros j Hj. pose proof (fe_limb x j Hx Hj). pose proof (fe_limb y j Hy Hj). pose proof (el_top _ _ Hy) as Ty.
    unfold sub_term. destruct (Nat.eqb_spec j 0), (Nat.eqb_spec j 31); subst; lia. }
  destruct (reduce_add_sub_val _ (loose_map _ _ Hs)) as [He Hv].
  split; [done|]. rewrite Hv, !map_val2, map_val_scale, (val_limbs_of _ _ Hx), (val_limbs_of _ _ Hy).
  change (val (map sub_term (seq 0 32))) with (2 * P25519). apply (eqp_multiple 2). lia.
Qed.

Lemma element_zero : element 127 fe25519_setzero.
Proof. split; [done|small_digits|done]. Qed.

Lemma fe_neg_val x : element 128 x -> element 127 (fe25519_neg x) /\ val (fe25519_neg x) == - val x.
Proof.
  intros Hx. destruct (fe_sub_val fe25519_setzero x) as [He Hv]; [by eapply element_weaken; [|exact element_zero]|done|].
  split; [done|]. unfold fe25519_neg. rewrite Hv. change (val fe25519_setzero) with 0. by rewrite Z.sub_0_l.
Qed.

(** A column of [fe25519_mul] is one of [mult]. *)
Lemma conv_column x y i : (i < 32)%nat ->
  conv x y 32 32 i + 38 * conv x y 32 32 (i + 32) = column 38 (at_limb x) (at_limb y) i.
Proof.
  intros Hi. unfold conv, column. rewrite <- sumz_scale, <- sumz_add. apply sumz_ext. intros j Hj. apply in_seq in Hj.
  unfold weight. replace (j <=? i + 32)%nat with true by (symmetry; apply Nat.leb_le; lia).
  destruct (Nat.leb_spec j i).
  - replace (i <? j + 32)%nat with true by (symmetry; apply Nat.ltb_lt; lia).
    replace (i + 32 <? j + 32)%nat with false by (symmetry; apply Nat.ltb_ge; lia). cbn. lia.
  - replace (i + 32 <? j + 32)%nat with true by (symmetry; apply Nat.ltb_lt; lia). cbn [andb]. lia.
Qed.

Lemma conv_31 x y : conv x y 32 32 (31 + 32) = 0.
Proof.
  unfold conv. rewrite (sumz_ext _ (fun _ => 0)); [done|]. intros j Hj. apply in_seq in Hj.
  replace (31 + 32 <? j + 32)%nat with false by (symmetry; apply Nat.ltb_ge; lia). by rewrite andb_false_r.
Qed.

Lemma fe_mul_full x y : element 128 x -> element 128 y ->
  element 128 (fe25519_mul x y) /\ val (fe25519_mul x y) == val x * val y /\ val (fe25519_mul x y) < 2 ^ 255 + 19 * 2 ^ 13.
Proof.
  intros Hx Hy.
  assert (Hp : forall i j, (i < 32)%nat -> (j < 32)%nat -> 0 <= at_limb x i * at_limb y j <= 65025).
  { intros i j Hi Hj. pose proof (fe_limb x i Hx Hi). pose proof (fe_limb y j Hy Hj). nia. }
  assert (Hc : forall k, 0 <= conv x y 32 32 k <= 65025 * 32) by (intros k; by apply (conv_range x y 65025)).
  assert (Hk : forall k, (k < 63)%nat -> at_limb (add_products 32 32 x y (fun _ => true) (repeat 0 63)) k = conv x y 32 32 k).
  { intros k Hk. pose proof (Hc k). apply (products_zero 32 32 x y (fun _ => true) 63 k); [|lia|exact Hk|lia].
    intros i j Hi Hj. pose proof (Hp i j Hi Hj). lia. }
  unfold fe25519_mul. cbv zeta. generalize dependent (add_products 32 32 x y (fun _ => true) (repeat 0 63)). intros t Hk.
  rewrite (map_ext_in _ (column 38 (at_limb x) (at_limb y))).
  2: { intros i Hi. apply in_seq in Hi. rewrite <- conv_column by lia. pose proof (Hc i). pose proof (Hc (i + 32)%nat).
       destruct (Nat.eqb_spec i 31) as [->|]; [rewrite conv_31, Hk by lia; lia|].
       rewrite (Hk i), (Hk (i + 32)%nat) by lia. rewrite times38_val by lia. apply u32_small. lia. }
  destruct (reduce_mul_val (map (column 38 (at_limb x) (at_limb y)) (seq 0 32))) as (He & Hv & Hlt).
  { apply loose_map. intros j Hj. rewrite <- conv_column by exact Hj. pose proof (Hc j). pose proof (Hc (j + 32)%nat). lia. }
  split; [exact He|split; [|exact Hlt]]. rewrite Hv, columns_eqp, (val_limbs_of _ _ Hx), (val_limbs_of _ _ Hy). reflexivity.
Qed.

Lemma fe_mul_val x y : element 128 x -> element 128 y ->
  element 128 (fe25519_mul x y) /\ val (fe25519_mul x y) == val x * val y.
Proof. intros Hx Hy. destruct (fe_mul_full x y Hx Hy) as (H1 & H2 & _). by split. Qed.

(** A product is above 2^255 only if it stands for a tiny number. *)
Definition TINY : Z := 2 ^ 18.
Lemma product_below x y : element 128 x -> element 128 y -> TINY <= val (fe25519_mul x y) mod P25519 -> val (fe25519_mul x y) < 2 ^ 255.
Proof.
  intros Hx Hy Ht. destruct (fe_mul_full x y Hx Hy) as (_ & _ & Hlt). destruct (Z.lt_ge_cases (val (fe25519_mul x y)) (2 ^ 255)) as [H|H]; [exact H|].
  rewrite <- (Z.mod_unique (val (fe25519_mul x y)) P25519 1 (val (fe25519_mul x y) - P25519)) in Ht by (unfold P25519; lia). unfold TINY, P25519 in *. lia.
Qed.

Lemma fe_square_val x : element 128 x -> element 128 (fe25519_square x) /\ val (fe25519_square x) == val x * val x.
Proof. intros Hx. exact (fe_mul_val x x Hx Hx). Qed.

(** ** The inverse *)

Lemma fe_power_square z n x : power 128 z n x -> power 128 z (2 * n) (fe25519_square x).
Proof.
  intros [Hn Hx Vx]. destruct (fe_square_val _ Hx) as [He Hv]. split; [lia|exact He|].
  rewrite Hv, Vx. rewrite <- Z.pow_add_r by exact Hn. by replace (n + n) with (2 * n) by lia.
Qed.

Lemma fe_power_mul z n m x y : power 128 z n x -> power 128 z m y -> power 128 z (n + m) (fe25519_mul x y).
Proof.
  intros [Hn Hx Vx] [Hm Hy Vy]. destruct (fe_mul_val _ _ Hx Hy) as [He Hv]. split; [lia|exact He|].
  by rewrite Hv, Vx, Vy, Z.pow_add_r.
Qed.

Lemma fe_power_squares z n x k : power 128 z n x -> power 128 z (n * 2 ^ zlen (for_while k 1 (fun i => i <? k)%nat)) (fe_squares k x).
Proof.
  unfold fe_squares. generalize (for_while k 1 (fun i => i <? k)%nat) as js. intros js. revert n x.
  induction js as [|j js IH]; intros n x Hx; cbn [fold_left].
  - change (2 ^ zlen (@nil nat)) with 1. by rewrite Z.mul_1_r.
  - rewrite zlen_cons. pose proof (zlen_nonneg js). rewrite Z.pow_add_r, Z.mul_assoc by lia.
    apply IH. replace (n * 2 ^ 1) with (2 * n) by lia. by apply fe_power_square.
Qed.

Lemma fe_power_pairs z n x k : power 128 z n x ->
  power 128 z (n * 4 ^ zlen (for_while k 1 (fun h => 2 * h <? k)%nat)) (fe_square_pairs k x).
Proof.
  unfold fe_square_pairs. generalize (for_while k 1 (fun h => 2 * h <? k)%nat) as js. intros js. revert n x.
  induction js as [|j js IH]; intros n x Hx; cbn [fold_left].
  - change (4 ^ zlen (@nil nat)) with 1. by rewrite Z.mul_1_r.
  - rewrite zlen_cons. pose proof (zlen_nonneg js). rewrite Z.pow_add_r, Z.mul_assoc by lia.
    apply IH. replace (n * 4 ^ 1) with (2 * (2 * n)) by lia. by do 2 apply fe_power_square.
Qed.

Ltac fe_power_of v :=
  lazymatch v with
  | fe25519_square _ => eapply fe_power_square; eassumption
  | fe_square_pairs _ _ => eapply fe_power_pairs; eassumption
  | fe_squares _ _ => eapply fe_power_squares; eassumption
  | fe25519_mul _ _ => eapply fe_power_mul; eassumption
  end.

Lemma power_one B z : element B z -> power B z 1 z.
Proof. intros Hz. split; [lia|exact Hz|by rewrite Z.pow_1_r]. Qed.

(** The chain ends at [p - 2]. *)
Lemma fe_invert_power z : element 128 z -> power 128 z (P25519 - 2) (fe25519_invert z).
Proof.
  intros Hz. pose proof (power_one _ _ Hz) as P1. set (Q := power 128 z (P25519 - 2)). change (Q (fe25519_invert z)).
  cbv delta [fe25519_invert]. cbv beta. repeat (chain_step fe_power_of).
  match goal with Ha : power _ z ?n ?x, Hb : power _ z ?m ?y |- Q (fe25519_mul ?x ?y) =>
    exact (fe_power_mul z n m x y Ha Hb) end.
Qed.

(** The chain ends at [(p - 5) / 8]. *)
Lemma fe_pow2523_power z : element 128 z -> power 128 z (2 ^ 252 - 3) (fe25519_pow2523 z).
Proof.
  intros Hz. pose proof (power_one _ _ Hz) as P1. set (Q := power 128 z (2 ^ 252 - 3)). change (Q (fe25519_pow2523 z)).
  cbv delta [fe25519_pow2523]. cbv beta. repeat (chain_step fe_power_of).
  match goal with Ha : power _ z ?n ?x, Hb : power _ z ?m ?y |- Q (fe25519_mul ?x ?y) =>
    exact (fe_power_mul z n m x y Ha Hb) end.
Qed.

(** ** The unique representative *)

Lemma fe_equal_val a b : 0 <= a < 2 ^ 16 -> 0 <= b < 2 ^ 16 -> fe_equal a b = Z.b2z (a =? b).
Proof.
  intros Ha Hb. unfold fe_equal. pose proof (lxor_bound 16 a b ltac:(lia) Ha Hb) as Hx. destruct (Z.eqb_spec a b) as [<-|Hn].
  - by rewrite Z.lxor_nilpotent.
  - assert (Z.lxor a b <> 0) by (intros E; by apply Z.lxor_eq in E).
    rewrite u32_small, Z.shiftr_div_pow2 by lia. apply Z.div_small. lia.
Qed.

Lemma fe_ge_val a b : 0 <= a < 2 ^ 16 -> 0 <= b < 2 ^ 16 -> fe_ge a b = Z.b2z (b <=? a).
Proof.
  intros Ha Hb. unfold fe_ge, u32, wrap. rewrite Z.shiftr_div_pow2 by lia. destruct (Z.leb_spec b a).
  - rewrite Z.mod_small by lia. by rewrite Z.div_small by lia.
  - replace ((a - b) mod 2 ^ 32) with (a - b + 2 ^ 32) by (apply (Z.mod_unique _ _ (-1)); lia).
    replace ((a - b + 2 ^ 32) / 2 ^ 31) with 1 by (apply (Z.div_unique _ _ _ (a - b + 2 ^ 31)); lia). done.
Qed.

Lemma land_b2z a b : Z.land (Z.b2z a) (Z.b2z b) = Z.b2z (a && b).
Proof. by destruct a, b. Qed.

Lemma land_fold (f : nat -> Z) (p : nat -> bool) l a : (forall i, In i l -> f i = Z.b2z (p i)) ->
  fold_left (fun m i => Z.land m (f i)) l (Z.b2z a) = Z.b2z (a && forallb p l).
Proof.
  revert a. induction l as [|i l IH]; intros a H; cbn [fold_left forallb]; [by rewrite andb_true_r|].
  rewrite H, land_b2z by now left. rewrite IH by (intros j Hj; apply H; now right). by rewrite andb_assoc.
Qed.

(** Only limbs of 255 make the largest value. *)
Lemma val_largest l : digits l -> 256 ^ zlen l - 1 <= val l -> l = repeat 255 (length l).
Proof.
  induction 1 as [|d l Hd Hl IH]; cbn [val repeat length]; [done|]. intros H. rewrite zlen_cons in H.
  pose proof (zlen_nonneg l). rewrite Z.pow_add_r in H by lia.
  assert (val l <= 256 ^ zlen l - 1) by (pose proof (val_digits l Hl); lia).
  rewrite <- IH by lia. f_equal. lia.
Qed.

(** The digits of an element that is at least the modulus, but below 2^255. *)
Lemma freeze_test x : element 127 x ->
  forallb (fun i => at_limb x i =? 255) (rev (seq 1 30)) && (at_limb x 31 =? 127) && (237 <=? at_limb x 0) = (P25519 <=? val x).
Proof.
  intros Hx. destruct (element_val _ _ Hx) as (low & El & Hl & Vx). destruct Hx as [Hlen Hd Ht].
  rewrite take_31 in Hd by exact Hlen. change (seq 0 31) with (0%nat :: seq 1 30) in El, Hd. cbn [map val] in El, Hd.
  apply Forall_cons in Hd as [H0 Hd]. pose proof (val_digits _ Hd) as Hv. set (tl := map (at_limb x) (seq 1 30)) in *.
  assert (Hz : zlen tl = 30) by (unfold zlen, tl; by rewrite length_map, length_seq). rewrite Hz in Hv.
  destruct (Z.leb_spec P25519 (val x)) as [Hge|Hlt].
  - unfold P25519 in Hge. assert (at_limb x 31 = 127) by lia. assert (Hm : 256 ^ zlen tl - 1 <= val tl) by (rewrite Hz; lia).
    apply val_largest in Hm; [|exact Hd]. assert (E : val tl = 256 ^ 30 - 1) by (rewrite Hm; reflexivity).
    replace (237 <=? at_limb x 0) with true by (symmetry; apply Z.leb_le; lia). rewrite (proj2 (Z.eqb_eq _ _)), !andb_true_r by lia.
    apply forallb_forall. intros i Hi%in_rev. apply Z.eqb_eq. apply (in_map (at_limb x)) in Hi. fold tl in Hi. rewrite Hm in Hi.
    by apply repeat_spec in Hi.
  - apply not_true_is_false. intros [[Hf Ht' ]%andb_prop H0']%andb_prop. apply Z.eqb_eq in Ht'. apply Z.leb_le in H0'.
    assert (E : tl = map (fun _ => 255) (seq 1 30)).
    { apply map_ext_in. intros i Hi. apply Z.eqb_eq. apply (proj1 (forallb_forall _ _) Hf). by apply -> in_rev. }
    rewrite E in El. change (val (map (fun _ => 255) (seq 1 30))) with (256 ^ 30 - 1) in El. unfold P25519 in Hlt. lia.
Qed.

Lemma list_32 l : length l = 32%nat -> l = at_limb l 0 :: map (at_limb l) (seq 1 30) ++ [at_limb l 31].
Proof. intros H. rewrite (list_31 l H) at 1. reflexivity. Qed.

(** [freeze] takes the modulus off once, of what is below 2^255 and not of what is above. *)
Lemma fe_freeze_eq x : element 128 x -> fe25519_freeze x =
  if (P25519 <=? val x) && (val x <? 2 ^ 255) then [at_limb x 0 - 237] ++ repeat 0 31 else x.
Proof.
  intros Hx. unfold fe25519_freeze. cbv zeta. pose proof (fe_limb x) as Hb.
  rewrite (fe_equal_val (at_limb x 31) 127) by (try pose proof (Hb 31%nat Hx ltac:(lia)); lia).
  rewrite (land_fold _ (fun i => at_limb x i =? 255)), fe_ge_val, land_b2z by
    (try (intros i Hi%in_rev%in_seq; apply fe_equal_val); try (match goal with i : nat |- _ => pose proof (Hb i Hx ltac:(lia)) end);
     try pose proof (Hb 0%nat Hx ltac:(lia)); lia).
  replace ((at_limb x 31 =? 127) && forallb (fun i => at_limb x i =? 255) (rev (seq 1 30)) && (237 <=? at_limb x 0))
    with ((P25519 <=? val x) && (val x <? 2 ^ 255)).
  2: { destruct (element_val _ _ Hx) as (low & _ & Hl & Vx). pose proof (el_top _ _ Hx) as Ht.
       destruct (Z.ltb_spec (val x) (2 ^ 255)).
       - rewrite andb_true_r, <- freeze_test by (split; [apply Hx|apply Hx|lia]). by rewrite (andb_comm (at_limb x 31 =? 127)).
       - rewrite andb_false_r. rewrite (proj2 (Z.eqb_neq (at_limb x 31) 127)) by lia. done. }
  pose proof (list_32 x (el_length _ _ Hx)) as El.
  destruct ((P25519 <=? val x) && (val x <? 2 ^ 255)) eqn:E.
  - apply andb_prop in E as [E E2%Z.ltb_lt]. assert (Hx' : element 127 x).
    { destruct (element_val _ _ Hx) as (low & _ & Hl & Vx). pose proof (el_top _ _ Hx). split; [apply Hx|apply Hx|lia]. }
    rewrite <- (freeze_test x Hx') in E. apply andb_prop in E as [[Hf Ht%Z.eqb_eq]%andb_prop H0%Z.leb_le].
    change (u32 (- Z.b2z true)) with (2 ^ 32 - 1). rewrite Ht. pose proof (Hb 0%nat Hx ltac:(lia)).
    change (Z.land (2 ^ 32 - 1) 237) with 237. change (Z.land (2 ^ 32 - 1) 255) with 255. change (Z.land (2 ^ 32 - 1) 127) with 127.
    rewrite (u32_small (at_limb x 0 - 237)) by lia. f_equal. change (repeat 0 31) with (map (fun _ => 0) (seq 1 30) ++ [0]). f_equal.
    apply map_ext_in. intros i Hi. apply in_rev in Hi. rewrite (proj1 (Z.eqb_eq _ _) (proj1 (forallb_forall _ _) Hf i Hi)). done.
  - change (u32 (- Z.b2z false)) with 0. rewrite !Z.land_0_l, !Z.sub_0_r.
    etransitivity; [|exact (eq_sym El)].
    pose proof (Hb 0%nat Hx ltac:(lia)). pose proof (Hb 31%nat Hx ltac:(lia)). rewrite !u32_small by lia. cbn [app]. f_equal. f_equal.
    apply map_ext_in. intros i Hi. apply in_seq in Hi. pose proof (Hb i Hx ltac:(lia)). rewrite Z.sub_0_r. apply u32_small. lia.
Qed.

Lemma fe_val_range B x : element B x -> 0 <= val x < 256 ^ 31 * (B + 1).
Proof. intros Hx. destruct (element_val _ _ Hx) as (low & _ & Hl & Vx). pose proof (el_top _ _ Hx). nia. Qed.

Lemma fe_freeze_val x : element 128 x ->
  element 128 (fe25519_freeze x) /\ val (fe25519_freeze x) = if val x <? 2 ^ 255 then val x mod P25519 else val x.
Proof.
  intros Hx. rewrite (fe_freeze_eq x Hx). pose proof (fe_val_range _ _ Hx) as Hr.
  destruct (Z.ltb_spec (val x) (2 ^ 255)) as [Hlt|Hge]; [|by rewrite andb_false_r]. rewrite andb_true_r.
  destruct (Z.leb_spec P25519 (val x)) as [Hp|Hp]; [|split; [exact Hx|symmetry; apply Z.mod_small; lia]].
  assert (Hx' : element 127 x).
  { destruct (element_val _ _ Hx) as (low & _ & Hl & Vx). pose proof (el_top _ _ Hx). split; [apply Hx|apply Hx|lia]. }
  pose proof (freeze_test x Hx') as E. rewrite (proj2 (Z.leb_le _ _) Hp) in E. apply andb_prop in E as [[Hf Ht%Z.eqb_eq]%andb_prop H0%Z.leb_le].
  pose proof (fe_limb x 0 Hx ltac:(lia)) as L0. pose proof (list_32 x (el_length _ _ Hx)) as El.
  rewrite (map_ext_in (at_limb x) (fun _ => 255)) in El.
  2: { intros i Hi. apply in_rev in Hi. exact (proj1 (Z.eqb_eq _ _) (proj1 (forallb_forall _ _) Hf i Hi)). }
  assert (Ev : val x = at_limb x 0 + 256 * (256 ^ 30 - 1) + 256 ^ 31 * 127).
  { rewrite El at 1. cbn [val]. rewrite val_app. change (val (map (fun _ => 255) (seq 1 30))) with (256 ^ 30 - 1).
    change (zlen (map (fun _ => 255) (seq 1 30))) with 30. cbn [val]. rewrite Ht. lia. }
  split.
  - split; [done| |done]. cbn [app take repeat]. apply Forall_cons. split; [lia|]. small_digits.
  - cbn [app val]. change (val (repeat 0 31)) with 0. rewrite Ev. apply (Z.mod_unique _ _ 1); unfold P25519; lia.
Qed.

(** ** Reading, writing and comparing *)

Lemma frozen_digits x : element 128 x -> digits (fe25519_freeze x).
Proof.
  intros Hx. destruct (fe_freeze_val x Hx) as [He _]. rewrite (list_31 _ (el_length _ _ He)).
  pose proof (el_digits _ _ He) as Hd. rewrite take_31 in Hd by apply He.
  apply Forall_app. split; [exact Hd|]. apply Forall_singleton. pose proof (fe_limb _ 31%nat He ltac:(lia)). lia.
Qed.

Lemma fe_pack_val x : element 128 x ->
  length (fe25519_pack x) = 32%nat /\ le_val (fe25519_pack x) = val (fe25519_freeze x).
Proof.
  intros Hx. unfold fe25519_pack. rewrite length_map, le_val_limbs, digits_mod by by apply frozen_digits.
  split; [|done]. exact (el_length _ _ (proj1 (fe_freeze_val x Hx))).
Qed.

Lemma val_inj l : forall l', digits l -> digits l' -> length l = length l' -> val l = val l' -> l = l'.
Proof.
  induction l as [|d l IH]; intros [|d' l'] Hl Hl' Hn Hv; [done..|]. apply Forall_cons in Hl as [Hd Hl], Hl' as [Hd' Hl'].
  cbn [val] in Hv. injection Hn as Hn. assert (val l = val l') by lia. f_equal; [lia|]. by apply IH.
Qed.

Lemma fe_unpack_val p : length p = 32%nat -> element 127 (fe25519_unpack p) /\ val (fe25519_unpack p) = le_val p mod 2 ^ 255.
Proof.
  intros Hp. destruct (point_val p Hp) as [He Ev]. destruct (element_val _ _ He) as (low & El & Hl & Vx).
  rewrite at_limb_map in Vx by lia. set (b := byte_val (nth 31 p x00)) in *.
  assert (Hb : 0 <= b < 256) by apply byte_val_range.
  unfold fe25519_unpack. fold b. change 127 with (Z.ones 7) at 2 3. rewrite Z.land_ones by lia.
  rewrite (map_ext_in (at_limb _) (fun i => byte_val (nth i p x00))) in El by (intros i Hi%in_seq; apply at_limb_map; lia).
  pose proof (Z.mod_pos_bound b (2 ^ 7) eq_refl). pose proof (Z.div_mod b (2 ^ 7) ltac:(lia)). split.
  - apply element_app; [reflexivity| |lia].
    pose proof (el_digits _ _ He) as Hd. rewrite take_31 in Hd by apply He.
    rewrite (map_ext_in (at_limb _) (fun i => byte_val (nth i p x00))) in Hd by (intros i Hi%in_seq; apply at_limb_map; lia). exact Hd.
  - rewrite val_app, zlen_terms, <- El, <- Ev, Vx. cbn [val]. apply (Z.mod_unique _ _ (b / 2 ^ 7)); lia.
Qed.

Lemma fe_cmov_val r x (b : bool) : element 128 r -> element 128 x -> fe25519_cmov r x (Z.b2z b) = if b then x else r.
Proof.
  intros Hr Hx. unfold fe25519_cmov. cbv zeta.
  destruct (element_words _ _ (element_weaken 128 255 _ ltac:(lia) Hr)) as [Wr Rr]; [unfold BOUND; lia|].
  destruct (element_words _ _ (element_weaken 128 255 _ ltac:(lia) Hx)) as [Wx Rx]; [unfold BOUND; lia|].
  destruct b.
  - change (u32 (- Z.b2z true)) with (Z.ones 32). etransitivity; [|exact Wx]. apply map_ext_in. intros i Hi%in_seq.
    rewrite Z.land_comm, Z.land_ones, Z.mod_small by (lia || (apply lxor_range; auto with lia)). apply lxor_lxor.
  - change (u32 (- Z.b2z false)) with 0. etransitivity; [|exact Wr]. apply map_ext. intros i. by rewrite Z.land_0_l, Z.lxor_0_r.
Qed.

Lemma limbs_eqb a b : digits a -> digits b -> length a = 32%nat -> length b = 32%nat ->
  forallb (fun i => at_limb a i =? at_limb b i) (seq 0 32) = (val a =? val b).
Proof.
  intros Ha Hb La Lb. apply eq_true_iff_eq. rewrite forallb_forall, Z.eqb_eq. split.
  - intros H. rewrite <- (val_limbs a La), <- (val_limbs b Lb). f_equal. apply map_ext_in. intros i Hi. by apply Z.eqb_eq, H.
  - intros H i _. apply Z.eqb_eq. f_equal. by apply val_inj; rewrite ?La.
Qed.

Lemma fe_iszero_val x : element 128 x -> fe25519_iszero x = Z.b2z (val (fe25519_freeze x) =? 0).
Proof.
  intros Hx. unfold fe25519_iszero. cbv zeta. destruct (fe_freeze_val x Hx) as [He _]. pose proof (frozen_digits x Hx) as Hd.
  set (t := fe25519_freeze x) in *. pose proof (fun i => fe_limb t i He) as Hb.
  rewrite (fe_equal_val (at_limb t 0)) by (try pose proof (Hb 0%nat ltac:(lia)); lia).
  rewrite (land_fold _ (fun i => at_limb t i =? 0)) by (intros i Hi%in_seq; apply fe_equal_val; try pose proof (Hb i ltac:(lia)); lia).
  f_equal. change 0 with (val fe25519_setzero) at 3.
  rewrite <- (limbs_eqb t fe25519_setzero); [|exact Hd|small_digits|apply He|reflexivity].
  change (seq 0 32) with (0%nat :: seq 1 31). cbn [forallb]. f_equal.
Qed.

Lemma fe_iseq_val x y : element 128 x -> element 128 y ->
  fe25519_iseq_vartime x y = (val (fe25519_freeze x) =? val (fe25519_freeze y)).
Proof.
  intros Hx Hy. unfold fe25519_iseq_vartime. cbv zeta.
  apply limbs_eqb; [by apply frozen_digits..| |]; eapply el_length, fe_freeze_val; eassumption.
Qed.

Lemma fe_getparity_val x : element 128 x -> fe25519_getparity x = val (fe25519_freeze x) mod 2.
Proof.
  intros Hx. unfold fe25519_getparity. change 1 with (Z.ones 1). rewrite Z.land_ones by lia.
  destruct (fe_freeze_val x Hx) as [He _]. set (t := fe25519_freeze x) in *. rewrite (list_32 t (el_length _ _ He)) at 2. cbn [val].
  rewrite Z.add_mod by lia. replace (256 * _) with (128 * val (map (at_limb t) (seq 1 30) ++ [at_limb t 31]) * 2) by lia.
  rewrite Z.mod_mul, Z.add_0_r by lia. by rewrite Z.mod_mod.
Qed.

(** ** Theorems *)

(** Limbs that stand for a number modulo 2^255 - 19. *)
Definition stands_for (x : list Z) (a : Z) : Prop := element 128 x /\ val x == a.

Lemma stands_mul x y a b : stands_for x a -> stands_for y b -> stands_for (fe25519_mul x y) (a * b).
Proof. intros [Hx Vx] [Hy Vy]. destruct (fe_mul_val x y Hx Hy) as [H V]. split; [exact H|]. by rewrite V, Vx, Vy. Qed.
Lemma stands_square x a : stands_for x a -> stands_for (fe25519_square x) (a * a).
Proof. intros H. exact (stands_mul x x a a H H). Qed.
Lemma stands_add x y a b : stands_for x a -> stands_for y b -> stands_for (fe25519_add x y) (a + b).
Proof.
  intros [Hx Vx] [Hy Vy]. destruct (fe_add_val x y Hx Hy) as [H V].
  split; [exact (element_weaken 127 128 _ ltac:(lia) H)|]. by rewrite V, Vx, Vy.
Qed.
Lemma stands_sub x y a b : stands_for x a -> stands_for y b -> stands_for (fe25519_sub x y) (a - b).
Proof.
  intros [Hx Vx] [Hy Vy]. destruct (fe_sub_val x y Hx Hy) as [H V].
  split; [exact (element_weaken 127 128 _ ltac:(lia) H)|]. by rewrite V, Vx, Vy.
Qed.
Lemma stands_neg x a : stands_for x a -> stands_for (fe25519_neg x) (- a).
Proof.
  intros [Hx Vx]. destruct (fe_neg_val x Hx) as [H V].
  split; [exact (element_weaken 127 128 _ ltac:(lia) H)|]. rewrite V, <- (Z.sub_0_l (val x)), <- (Z.sub_0_l a). by rewrite Vx.
Qed.
Lemma stands_power x a n y : stands_for x a -> power 128 x n y -> stands_for y (a ^ n).
Proof. intros [Hx [Vx]] [_ Hy Vy]. split; [exact Hy|]. rewrite Vy. split. by rewrite (Zpower_mod (val x)), (Zpower_mod a), Vx. Qed.
Lemma stands_cmov x y a b (c : bool) : stands_for x a -> stands_for y b -> stands_for (fe25519_cmov x y (Z.b2z c)) (if c then b else a).
Proof. intros [Hx Vx] [Hy Vy]. rewrite fe_cmov_val by done. by destruct c. Qed.
Lemma stands_one : stands_for fe25519_setone 1.
Proof. split; [split; [done|small_digits|done]|reflexivity]. Qed.
Lemma stands_zero : stands_for fe25519_setzero 0.
Proof. split; [exact (element_weaken 127 128 _ ltac:(lia) element_zero)|reflexivity]. Qed.

(** Claim C23.  Whatever two elements stand for, the operations of fe25519.c stand for the results
    of the integers modulo 2^255 - 19: no sum of products wraps at 32 bits and no reduction loses
    anything, [fe25519_invert] is the power [p - 2] and [fe25519_pow2523] the power [(p - 5) / 8]. *)
Theorem fe25519_field x y a b (Hx : stands_for x a) (Hy : stands_for y b) :
  stands_for (fe25519_add x y) (a + b) /\ stands_for (fe25519_sub x y) (a - b) /\ stands_for (fe25519_neg x) (- a) /\
  stands_for (fe25519_mul x y) (a * b) /\ stands_for (fe25519_square x) (a * a) /\
  stands_for (fe25519_invert x) (a ^ (2 ^ 255 - 21)) /\ stands_for (fe25519_pow2523 x) (a ^ (2 ^ 252 - 3)) /\
  (forall c : bool, stands_for (fe25519_cmov x y (Z.b2z c)) (if c then b else a)).
Proof.
  split_and!; [by apply stands_add|by apply stands_sub|by apply stands_neg|by apply stands_mul|by apply stands_square| | |].
  - exact (stands_power x a _ _ Hx (fe_invert_power x (proj1 Hx))).
  - exact (stands_power x a _ _ Hx (fe_pow2523_power x (proj1 Hx))).
  - intros c. by apply stands_cmov.
Qed.

Lemma fe25519_field_witness : stands_for fe25519_setone 1 /\ stands_for (fe25519_sub fe25519_setzero fe25519_setone) (0 - 1).
Proof. split; [exact stands_one|exact (proj1 (proj2 (fe25519_field _ _ 0 1 stands_zero stands_one)))]. Defined.

(** Sums and differences are below 2^255, and what is below 2^255 is read and compared as the
    number it stands for; [fe25519_unpack] drops the top bit. *)
Lemma fe25519_canonical x y : element 128 x -> element 128 y -> val x < 2 ^ 255 -> val y < 2 ^ 255 ->
  (length (fe25519_pack x) = 32%nat /\ le_val (fe25519_pack x) = val x mod P25519) /\
  fe25519_iszero x = Z.b2z (val x mod P25519 =? 0) /\
  fe25519_iseq_vartime x y = (val x mod P25519 =? val y mod P25519) /\
  fe25519_getparity x = val x mod P25519 mod 2.
Proof.
  intros Hx Hy Bx By. destruct (fe_pack_val x Hx) as [Lp Vp]. destruct (fe_freeze_val x Hx) as [_ Ex], (fe_freeze_val y Hy) as [_ Ey].
  rewrite (proj2 (Z.ltb_lt _ _) Bx) in Ex. rewrite (proj2 (Z.ltb_lt _ _) By) in Ey.
  by rewrite fe_iszero_val, fe_iseq_val, fe_getparity_val, Vp, Ex, Ey.
Qed.

(** What a product above 2^255 does: -1 times -19 is written as 2^255, which is neither frozen nor
    found equal to 19. *)
Lemma product_not_canonical :
  let r := fe25519_mul (fe25519_neg fe25519_setone) (fe25519_neg (19 :: repeat 0 31)) in
  stands_for r 19 /\ val r = 2 ^ 255 /\ le_val (fe25519_pack r) = 2 ^ 255 /\ fe25519_iseq_vartime r (19 :: repeat 0 31) = false.
Proof.
  cbv zeta. assert (H19 : stands_for (19 :: repeat 0 31) 19) by (split; [split; [done|small_digits|done]|reflexivity]).
  split; [exact (stands_mul _ _ (-1) (-19) (stands_neg _ _ stands_one) (stands_neg _ _ H19))|].
  split_and!; vm_compute; reflexivity.
Qed.
