(* ===== verification/Sc25519.v ===== *)
(** sc25519.c: arithmetic modulo the order of the group of the signatures, in 32 limbs of eight
    bits, and the digits in which the scalar multiplications read a scalar. *)

From S2P Require Import Prelude Curve25519 Products.

(** ** Reduction *)

(** [m] and [mu] *)
Definition sc_m : list Z :=
  [0xED; 0xD3; 0xF5; 0x5C; 0x1A; 0x63; 0x12; 0x58; 0xD6; 0x9C; 0xF7; 0xA2; 0xDE; 0xF9; 0xDE; 0x14;
   0; 0; 0; 0; 0; 0; 0; 0; 0; 0; 0; 0; 0; 0; 0; 0x10].
Definition sc_mu : list Z :=
  [0x1B; 0x13; 0x2C; 0x0A; 0xA3; 0xE5; 0x9C; 0xED; 0xA7; 0x29; 0x63; 0x08; 0x5D; 0x21; 0x06; 0x21;
   0xEB; 0xFF; 0xFF; 0xFF; 0xFF; 0xFF; 0xFF; 0xFF; 0xFF; 0xFF; 0xFF; 0xFF; 0xFF; 0xFF; 0xFF; 0xFF; 0x0F].

Definition sc_lt (a b : Z) : Z := Z.shiftr (u32 (a - b)) 31.

(** The loops that subtract [ys] from [xs], and the last borrow. *)
Fixpoint borrow (pb : Z) (xs ys : list Z) : list Z * Z :=
  match xs, ys with
  | x :: xs, y :: ys =>
    let pb := u32 (pb + y) in
    let b := sc_lt x pb in
    let d := u32 (u32 (x - pb) + u32 (Z.shiftl b 8)) in
    let '(out, b') := borrow b xs ys in
    (d :: out, b')
  | _, _ => ([], pb)
  end.

(** [t] holds [unsigned char]s. *)
Definition sc_reduce_add_sub (r : list Z) : list Z :=
  let '(t, b) := borrow 0 (map (at_limb r) (seq 0 32)) sc_m in
  let t := map (fun d => d mod 256) t in
  let mask := u32 (b - 1) in
  map (fun i => Z.lxor (at_limb r i) (Z.land mask (Z.lxor (at_limb r i) (at_limb t i)))) (seq 0 32).

(** [q3] of [barrett_reduce], from [y = x + 31]. *)
Definition barrett_q3 (y : list Z) : list Z :=
  let q2 := add_products 33 33 sc_mu y (fun k => 31 <=? k)%nat (repeat 0 66) in
  let q2 := add_at q2 32 (Z.shiftr (at_limb q2 31) 8) in
  let q2 := add_at q2 33 (Z.shiftr (at_limb q2 32) 8) in
  drop 33 q2.

(** The carry out of the limbs that are used is added to [r2[32]], which is not read again. *)
Definition barrett_reduce (x : list Z) : list Z :=
  let q3 := barrett_q3 (drop 31 x) in
  let r1 := map (at_limb x) (seq 0 33) in
  let r2 := add_products 32 33 sc_m q3 (fun k => k <? 33)%nat (repeat 0 33) in
  let '(r2, _) := carry 0 (map (at_limb r2) (seq 0 32)) in
  let '(r, _) := borrow 0 (map (at_limb r1) (seq 0 32)) r2 in
  sc_reduce_add_sub (sc_reduce_add_sub r).

(** ** Operations *)

Definition sc25519_from32bytes (x : bytes) : list Z :=
  barrett_reduce (map (fun i => byte_val (nth i x x00)) (seq 0 32) ++ repeat 0 32).
Definition sc25519_from64bytes (x : bytes) : list Z :=
  barrett_reduce (map (fun i => byte_val (nth i x x00)) (seq 0 64)).
Definition shortsc25519_from16bytes (x : bytes) : list Z := map (fun i => byte_val (nth i x x00)) (seq 0 16).
Definition sc25519_from_shortsc (x : list Z) : list Z := map (at_limb x) (seq 0 16) ++ repeat 0 16.
Definition sc25519_to32bytes (x : list Z) : bytes := map (fun i => byte_of_Z (at_limb x i)) (seq 0 32).

Definition sc25519_iszero_vartime (x : list Z) : bool := forallb (fun i => at_limb x i =? 0) (seq 0 32).
Definition sc25519_isshort_vartime (x : list Z) : bool := forallb (fun i => at_limb x i =? 0) (rev (seq 16 16)).

Fixpoint lt_from (x y : list Z) (js : list nat) : bool :=
  match js with
  | [] => false
  | i :: js =>
    if at_limb x i <? at_limb y i then true
    else if at_limb y i <? at_limb x i then false
    else lt_from x y js
  end.
Definition sc25519_lt_vartime (x y : list Z) : bool := lt_from x y (rev (seq 0 32)).

Definition sc25519_add (x y : list Z) : list Z :=
  let r := map (fun i => u32 (at_limb x i + at_limb y i)) (seq 0 32) in
  let '(out, c) := carry 0 (map (at_limb r) (seq 0 31)) in
  sc_reduce_add_sub (out ++ [u32 (at_limb r 31 + c)]).

Fixpoint sub_bytes (b : Z) (xs ys : list Z) : list Z :=
  match xs, ys with
  | x :: xs, y :: ys =>
    let t := u32 (u32 (x - y) - b) in
    Z.land t 255 :: sub_bytes (Z.land (Z.shiftr t 8) 1) xs ys
  | _, _ => []
  end.
Definition sc25519_sub_nored (x y : list Z) : list Z :=
  sub_bytes 0 (map (at_limb x) (seq 0 32)) (map (at_limb y) (seq 0 32)).

Definition sc25519_mul (x y : list Z) : list Z :=
  let t := add_products 32 32 x y (fun _ => true) (repeat 0 64) in
  let '(out, c) := carry 0 (map (at_limb t) (seq 0 63)) in
  barrett_reduce (out ++ [u32 (at_limb t 63 + c)]).
Definition sc25519_mul_shortsc (x y : list Z) : list Z := sc25519_mul x (sc25519_from_shortsc y).

(** ** Digits *)

(** The part of [s] that eight digits of three bits come from starts at [o]; the last has five. *)
Definition window3_part (s : list Z) (o : nat) : list Z :=
  let v k := at_limb s (o + k) in
  [Z.land (v 0%nat) 7; Z.land (Z.shiftr (v 0%nat) 3) 7;
   Z.lxor (Z.land (Z.shiftr (v 0%nat) 6) 7) (Z.land (Z.shiftl (v 1%nat) 2) 7);
   Z.land (Z.shiftr (v 1%nat) 1) 7; Z.land (Z.shiftr (v 1%nat) 4) 7;
   Z.lxor (Z.land (Z.shiftr (v 1%nat) 7) 7) (Z.land (Z.shiftl (v 2%nat) 1) 7);
   Z.land (Z.shiftr (v 2%nat) 2) 7; Z.land (Z.shiftr (v 2%nat) 5) 7].

(** Eight digits of five bits, from five limbs; the last part has three digits. *)
Definition window5_part (s : list Z) (o : nat) : list Z :=
  let v k := at_limb s (o + k) in
  [Z.land (v 0%nat) 31;
   Z.lxor (Z.land (Z.shiftr (v 0%nat) 5) 31) (Z.land (Z.shiftl (v 1%nat) 3) 31);
   Z.land (Z.shiftr (v 1%nat) 2) 31;
   Z.lxor (Z.land (Z.shiftr (v 1%nat) 7) 31) (Z.land (Z.shiftl (v 2%nat) 1) 31);
   Z.lxor (Z.land (Z.shiftr (v 2%nat) 4) 31) (Z.land (Z.shiftl (v 3%nat) 4) 31);
   Z.land (Z.shiftr (v 3%nat) 1) 31;
   Z.lxor (Z.land (Z.shiftr (v 3%nat) 6) 31) (Z.land (Z.shiftl (v 4%nat) 2) 31);
   Z.land (Z.shiftr (v 4%nat) 3) 31].

(** Conversion to [signed char]. *)
Definition s8 (z : Z) : Z := (z + 128) mod 256 - 128.

(** "Making it signed": digit [d] and those after it, of [w] bits each. *)
Fixpoint make_signed (w carry d : Z) (rest : list Z) : list Z :=
  match rest with
  | [] => [s8 (d + carry)]
  | d' :: rest =>
    let d := s8 (d + carry) in
    let d' := s8 (d' + Z.shiftr d w) in
    let d := Z.land d (Z.shiftl 1 w - 1) in
    let carry := Z.shiftr d (w - 1) in
    s8 (d - Z.shiftl carry w) :: make_signed w carry d' rest
  end.
Definition signed_digits (w : Z) (ds : list Z) : list Z := make_signed w 0 (hd 0 ds) (tl ds).

Definition sc25519_window3 (s : list Z) : list Z :=
  signed_digits 3 (flat_map (fun i => window3_part s (3 * i)) (seq 0 10) ++ take 5 (window3_part s 30)).
Definition sc25519_window5 (s : list Z) : list Z :=
  signed_digits 5 (flat_map (fun i => window5_part s (5 * i)) (seq 0 6) ++ take 3 (window5_part s 30)).

(** Two bits of each scalar. *)
Definition interleave_part (s1 s2 : list Z) (i : nat) : list Z :=
  map (fun o => Z.lxor (Z.land (Z.shiftr (at_limb s1 i) o) 3) (Z.shiftl (Z.land (Z.shiftr (at_limb s2 i) o) 3) 2)) [0; 2; 4; 6].
Definition sc25519_2interleave2 (s1 s2 : list Z) : list Z :=
  flat_map (interleave_part s1 s2) (seq 0 31) ++ take 3 (interleave_part s1 s2 31).
