(* ===== verification/Sc25519Thms.v ===== *)
(** What sc25519.c computes: the integers modulo the order of the group.  The quotient of
    [barrett_reduce] is at most two too small and never too large, so that two subtractions
    are enough and what they start from is not negative. *)

From S2P Require Import Prelude Poly1305 Curve25519 Curve25519Limbs Curve25519Thms Products Sc25519.

(** The order of the group, 2^252 + 27742317777372353535851937790883648493. *)
Definition ORDER : Z := 2 ^ 252 + 27742317777372353535851937790883648493.

Lemma val_sc_m : val sc_m = ORDER.
Proof. reflexivity. Qed.
Lemma val_sc_mu : val sc_mu = 2 ^ 512 / ORDER.
Proof. reflexivity. Qed.

(** Limbs that are bytes. *)
Record limbs (n : nat) (l : list Z) : Prop := { lb_length : length l = n; lb_digits : digits l }.

Lemma limbs_zlen n l : limbs n l -> zlen l = Z.of_nat n.
Proof. intros [H _]. unfold zlen. by rewrite H. Qed.
Lemma limbs_val n l : limbs n l -> 0 <= val l < 256 ^ Z.of_nat n.
Proof. intros H. rewrite <- (limbs_zlen n l H). apply val_digits, H. Qed.
Lemma limbs_at n l j : limbs n l -> 0 <= at_limb l j < 256.
Proof.
  intros [_ H]. unfold at_limb. destruct (nth_in_or_default j l 0) as [Hi| ->]; [|lia].
  eapply Forall_forall in H; [exact H|]. by apply list_elem_of_In.
Qed.
Lemma map_at_limb n l : length l = n -> map (at_limb l) (seq 0 n) = l.
Proof.
  intros <-. apply nth_ext with 0 0; [by rewrite length_map, length_seq|]. intros k. rewrite length_map, length_seq. intros Hk.
  exact (at_limb_map (at_limb l) _ _ Hk).
Qed.
Lemma limbs_map n (f : nat -> Z) : (forall j, (j < n)%nat -> 0 <= f j < 256) -> limbs n (map f (seq 0 n)).
Proof.
  intros H. split; [by rewrite length_map, length_seq|]. apply Forall_forall. intros x Hx.
  apply list_elem_of_In, in_map_iff in Hx as (j & <- & Hj%in_seq). apply H. lia.
Qed.

(** ** Subtraction with a borrow *)

Lemma sc_lt_val a b : 0 <= a < 2 ^ 16 -> 0 <= b < 2 ^ 16 -> sc_lt a b = Z.b2z (a <? b).
Proof.
  intros Ha Hb. unfold sc_lt, u32, wrap. rewrite Z.shiftr_div_pow2 by lia. destruct (Z.ltb_spec a b).
  - replace ((a - b) mod 2 ^ 32) with (a - b + 2 ^ 32) by (apply (Z.mod_unique _ _ (-1)); lia).
    cbn. Z.to_euclidean_division_equations; lia.
  - rewrite Z.mod_small by lia. cbn. Z.to_euclidean_division_equations; lia.
Qed.

Lemma borrow_val xs : forall ys pb, digits xs -> digits ys -> length xs = length ys -> 0 <= pb <= 1 ->
  exists out b, borrow pb xs ys = (out, Z.b2z b) /\ limbs (length xs) out /\
    val out = val xs - val ys - pb + 256 ^ zlen xs * Z.b2z b.
Proof.
  induction xs as [|x xs IH]; intros [|y ys] pb Hx Hy Hl Hp; try done; cbn [borrow].
  - exists [], (pb =? 1). split_and!; [f_equal; destruct (Z.eqb_spec pb 1); cbn; lia|by split|].
    change (256 ^ zlen (@nil Z)) with 1. destruct (Z.eqb_spec pb 1); cbn; lia.
  - apply Forall_cons in Hx as [Hx Hxs], Hy as [Hy Hys]. injection Hl as Hl.
    rewrite u32_small, sc_lt_val by lia.
    destruct (IH ys (Z.b2z (x <? pb + y)) Hxs Hys Hl) as (out & b & -> & [Lo Do] & Hv); [by destruct (x <? _)|].
    eexists _, b. split; [reflexivity|].
    assert (Hd : u32 (u32 (x - (pb + y)) + u32 (Z.shiftl (Z.b2z (x <? pb + y)) 8)) = x - (pb + y) + 256 * Z.b2z (x <? pb + y)).
    { rewrite Z.shiftl_mul_pow2 by lia. unfold u32, wrap. rewrite <- Zplus_mod. rewrite Z.mod_small; destruct (Z.ltb_spec x (pb + y)); cbn; lia. }
    rewrite Hd. split.
    + split; cbn [length]; [by rewrite Lo|]. constructor; [|exact Do]. destruct (Z.ltb_spec x (pb + y)); cbn; lia.
    + cbn [val]. rewrite Hv, zlen_cons. pose proof (zlen_nonneg xs). rewrite Z.pow_add_r by lia. rewrite (Z.add_comm pb y). lia.
Qed.

(** One conditional subtraction of the order. *)
Lemma reduce_once r : limbs 32 r -> limbs 32 (sc_reduce_add_sub r) /\
  val (sc_reduce_add_sub r) = if val r <? ORDER then val r else val r - ORDER.
Proof.
  intros Hr. unfold sc_reduce_add_sub. rewrite (map_at_limb 32 r) by apply Hr.
  destruct (borrow_val r sc_m 0) as (t & b & -> & [Lt Dt] & Ev); [apply Hr|small_digits|by rewrite (lb_length _ _ Hr)|lia|].
  rewrite (lb_length _ _ Hr) in Lt. rewrite (limbs_zlen _ _ Hr), val_sc_m in Ev. rewrite digits_mod by exact Dt.
  pose proof (limbs_val _ _ Hr) as Vr. pose proof (limbs_val 32 t (Build_limbs _ _ Lt Dt)) as Vt.
  destruct b.
  - change (u32 (Z.b2z true - 1)) with 0. rewrite (map_ext _ (at_limb r)) by (intros i; by rewrite Z.land_0_l, Z.lxor_0_r).
    rewrite (map_at_limb 32 r) by apply Hr. split; [exact Hr|]. cbn in Ev. destruct (Z.ltb_spec (val r) ORDER); lia.
  - change (u32 (Z.b2z false - 1)) with (Z.ones 32). rewrite (map_ext _ (at_limb t)).
    + rewrite (map_at_limb 32 t) by exact Lt. split; [by split|]. cbn in Ev. destruct (Z.ltb_spec (val r) ORDER); lia.
    + intros i. pose proof (limbs_at _ _ i Hr). pose proof (limbs_at 32 t i (Build_limbs _ _ Lt Dt)).
      rewrite Z.land_comm, Z.land_ones, Z.mod_small by (lia || (apply lxor_range; lia)).
      rewrite (Z.lxor_comm (at_limb r i) (at_limb t i)). apply lxor_lxor.
Qed.

(** ** Barrett reduction *)

Lemma sumz_mono f g js : (forall j, In j js -> f j <= g j) -> sumz f js <= sumz g js.
Proof.
  induction js as [|j js IH]; intros H; cbn [sumz]; [lia|].
  pose proof (H j (or_introl eq_refl)). pose proof (IH (fun k Hk => H k (or_intror Hk))). lia.
Qed.

Lemma sumz_nonneg f js : (forall j, In j js -> 0 <= f j) -> 0 <= sumz f js.
Proof.
  induction js as [|j js IH]; intros H; cbn [sumz]; [lia|].
  pose proof (H j (or_introl eq_refl)). pose proof (IH (fun k Hk => H k (or_intror Hk))). lia.
Qed.

Lemma conv_mono x y y' n m k : (forall i, 0 <= at_limb x i) -> (forall j, (j < m)%nat -> at_limb y j <= at_limb y' j) ->
  conv x y n m k <= conv x y' n m k.
Proof.
  intros Hx Hy. apply sumz_mono. intros i Hi. destruct (Nat.leb_spec i k), (Nat.ltb_spec k (i + m)); cbn; try lia.
  apply Z.mul_le_mono_nonneg_l; [apply Hx|apply Hy; lia].
Qed.

Lemma val_split_map (f : nat -> Z) n m : forall o, val (map f (seq o (n + m))) = val (map f (seq o n)) + 256 ^ Z.of_nat n * val (map f (seq (o + n) m)).
Proof. intros o. rewrite seq_app, map_app, val_app. unfold zlen. by rewrite length_map, length_seq. Qed.

(** How far the quotient is off: by less than three. *)
Lemma quotient_close X q1 D S : 0 <= X < 256 ^ 64 -> q1 = X / 256 ^ 31 -> 0 <= D -> D <= 33 * 255 * 256 ^ 31 ->
  D + 256 ^ 31 * S = val sc_mu * q1 -> 0 <= X - S / 256 ^ 2 * ORDER < 3 * ORDER.
Proof.
  intros HX -> HD HD' E. change (val sc_mu) with (2 ^ 512 / ORDER) in E.
  let mu := eval vm_compute in (2 ^ 512 / ORDER) in change (2 ^ 512 / ORDER) with mu in E.
  let l := eval vm_compute in ORDER in change ORDER with l.
  pose proof (Z.div_mod X (256 ^ 31) ltac:(lia)). pose proof (Z.mod_pos_bound X (256 ^ 31) eq_refl).
  pose proof (Z.div_mod S (256 ^ 2) ltac:(lia)). pose proof (Z.mod_pos_bound S (256 ^ 2) eq_refl). lia.
Qed.

(** The two carries into the columns of the quotient. *)
Lemma quotient_carries c q2 : length q2 = 66%nat -> (forall k, 0 <= c k <= 65025 * 33) ->
  (forall k, (k < 66)%nat -> at_limb q2 k = if (31 <=? k)%nat then c k else 0) ->
  let q2 := add_at q2 32 (Z.shiftr (at_limb q2 31) 8) in
  let q2 := add_at q2 33 (Z.shiftr (at_limb q2 32) 8) in
  length (drop 33 q2) = 33%nat /\
  forall j, (j < 33)%nat -> at_limb (drop 33 q2) j = if (j =? 0)%nat then c 33%nat + (c 32%nat + c 31%nat / 256) / 256 else c (33 + j)%nat.
Proof.
  intros Hl Hc Hq. cbv zeta. pose proof (Hc 31%nat). pose proof (Hc 32%nat). pose proof (Hc 33%nat).
  assert (E32 : u32 (at_limb q2 32 + Z.shiftr (at_limb q2 31) 8) = c 32%nat + c 31%nat / 256).
  { rewrite (Hq 32%nat), (Hq 31%nat), Z.shiftr_div_pow2 by lia. change (31 <=? 32)%nat with true. change (31 <=? 31)%nat with true. cbv iota.
    change (2 ^ 8) with 256. apply u32_small. Z.to_euclidean_division_equations; lia. }
  split; [rewrite length_drop; unfold add_at; rewrite !length_insert; lia|]. intros j Hj.
  assert (Ej : forall l, at_limb (drop 33 l) j = at_limb l (33 + j)) by (intros l; unfold at_limb; by rewrite nth_skipn).
  rewrite Ej. unfold add_at. rewrite E32. set (q := <[32%nat := _]> q2).
  assert (Q : forall l, at_limb q l = if decide (32%nat = l) then c 32%nat + c 31%nat / 256 else at_limb q2 l) by (intros l; apply at_limb_insert; lia).
  rewrite at_limb_insert by (unfold q; rewrite length_insert; lia). rewrite !Q. destruct (Nat.eqb_spec j 0) as [->|Hn].
  - rewrite decide_True, decide_False, decide_True by lia. rewrite (Hq 33%nat), Z.shiftr_div_pow2 by lia.
    change (31 <=? 33)%nat with true. cbv iota. change (2 ^ 8) with 256. apply u32_small. Z.to_euclidean_division_equations; lia.
  - rewrite decide_False, decide_False by lia. rewrite Hq by lia. by replace (31 <=? 33 + j)%nat with true by (symmetry; apply Nat.leb_le; lia).
Qed.

Lemma limbs_drop n m l : limbs (n + m) l -> limbs m (drop n l).
Proof. intros [L D]. split; [rewrite length_drop; lia|by apply Forall_drop]. Qed.

Lemma limbs_mu : limbs 33 sc_mu.
Proof. split; [done|small_digits]. Qed.

Lemma mu_products y i j : limbs 33 y -> 0 <= at_limb sc_mu i * at_limb y j <= 65025.
Proof. intros Hy. pose proof (limbs_at _ _ i limbs_mu). pose proof (limbs_at _ _ j Hy). nia. Qed.

Lemma mu_column y k : limbs 33 y -> 0 <= conv sc_mu y 33 33 k <= 65025 * 33.
Proof. intros Hy. apply (conv_range sc_mu y 65025); [lia|]. intros i j _ _. by apply mu_products. Qed.

Lemma barrett_q3_limb y : limbs 33 y -> let c := conv sc_mu y 33 33 in
  length (barrett_q3 y) = 33%nat /\
  forall j, (j < 33)%nat -> at_limb (barrett_q3 y) j = if (j =? 0)%nat then c 33%nat + (c 32%nat + c 31%nat / 256) / 256 else c (33 + j)%nat.
Proof.
  intros Hy c. apply quotient_carries.
  - unfold add_products. rewrite add_products_length. apply repeat_length.
  - intros k. by apply mu_column.
  - intros k Hk. apply (products_zero 33 33 sc_mu y (fun k => 31 <=? k)%nat 66 k); [|lia|exact Hk|].
    + intros i j _ _. pose proof (mu_products y i j Hy). lia.
    + pose proof (mu_column y k Hy). lia.
Qed.

Lemma shifted_columns c q : length q = 33%nat -> (forall k, 0 <= c k <= 65025 * 33) ->
  (forall j, (j < 33)%nat -> at_limb q j = if (j =? 0)%nat then c 33%nat + (c 32%nat + c 31%nat / 256) / 256 else c (33 + j)%nat) ->
  val q = val (map c (seq 31 35)) / 256 ^ 2.
Proof.
  intros Hl Hc Hq. rewrite <- (map_at_limb 33 q Hl). change (seq 0 33) with (0%nat :: seq 1 32).
  change (seq 31 35) with (31%nat :: 32%nat :: 33%nat :: seq 34 32).
  cbn [map val]. rewrite (Hq 0%nat) by lia. cbn [Nat.eqb].
  rewrite (map_ext_in (at_limb q) (fun j => c (33 + j)%nat)).
  2: { intros j Hj%in_seq. rewrite Hq by lia. by destruct j; [lia|]. }
  rewrite <- (map_map (fun j => (33 + j)%nat) c). change (map (fun j => (33 + j)%nat) (seq 1 32)) with (seq 34 32).
  generalize (val (map c (seq 34 32))) as w. intros w. pose proof (Hc 31%nat). pose proof (Hc 32%nat).
  Z.to_euclidean_division_equations. lia.
Qed.

Lemma barrett_q3_val y : limbs 33 y -> val (barrett_q3 y) = val (map (conv sc_mu y 33 33) (seq 31 35)) / 256 ^ 2.
Proof.
  intros Hy. destruct (barrett_q3_limb y Hy) as [Hl Hq].
  exact (shifted_columns (conv sc_mu y 33 33) (barrett_q3 y) Hl (fun k => mu_column y k Hy) Hq).
Qed.

(** The largest limbs the quotient can have, and the columns of its product with the order. *)
Definition largest_q3 : list Z :=
  map (fun j => conv sc_mu (repeat 255 33) 33 33 (33 + j) + if (j =? 0)%nat then 10000 else 0) (seq 0 33).

Lemma forall_below (f : nat -> Z) n B : forallb (fun k => f k <? B) (seq 0 n) = true -> forall k, (k < n)%nat -> f k < B.
Proof. intros H k Hk. rewrite forallb_forall in H. apply Z.ltb_lt, H, in_seq. lia. Qed.

Lemma largest_columns : forall k, (k < 33)%nat -> conv sc_m largest_q3 32 33 k < 3 * 2 ^ 30.
Proof. apply forall_below. vm_compute. reflexivity. Qed.
Lemma largest_q3_small : forall j, (j < 33)%nat -> at_limb largest_q3 j < 2 ^ 22.
Proof. apply forall_below. vm_compute. reflexivity. Qed.

Lemma at_limb_255 n j : (j < n)%nat -> at_limb (repeat 255 n) j = 255.
Proof. intros Hj. unfold at_limb. by rewrite (nth_indep _ 0 255), nth_repeat by by rewrite repeat_length. Qed.

Lemma barrett_q3_bound y j : limbs 33 y -> (j < 33)%nat -> 0 <= at_limb (barrett_q3 y) j <= at_limb largest_q3 j.
Proof.
  intros Hy Hj. destruct (barrett_q3_limb y Hy) as [Hl Hq]. pose proof (fun k => mu_column y k Hy) as Hc.
  assert (Hm : forall k, conv sc_mu y 33 33 k <= conv sc_mu (repeat 255 33) 33 33 k).
  { intros k. apply conv_mono; [intros i; apply (limbs_at 33 sc_mu i limbs_mu)|]. intros i Hi. rewrite at_limb_255 by exact Hi.
    pose proof (limbs_at 33 y i Hy). lia. }
  rewrite Hq by exact Hj. unfold largest_q3. rewrite (at_limb_map (fun j => _)) by exact Hj.
  pose proof (Hm (33 + j)%nat). pose proof (Hc (33 + j)%nat). pose proof (Hc 31%nat). pose proof (Hc 32%nat).
  destruct (Nat.eqb_spec j 0) as [->|Hn]; [|lia]. rewrite Nat.add_0_r in *. Z.to_euclidean_division_equations. lia.
Qed.

Lemma order_limbs : limbs 32 sc_m.
Proof. split; [done|small_digits]. Qed.

Lemma order_column y k : limbs 33 y -> (k < 33)%nat -> 0 <= conv sc_m (barrett_q3 y) 32 33 k < 3 * 2 ^ 30.
Proof.
  intros Hy Hk. split.
  - apply sumz_nonneg. intros i Hi%in_seq. destruct (Nat.leb_spec i k), (Nat.ltb_spec k (i + 33)); cbn [andb]; try exact (Z.le_refl 0).
    pose proof (limbs_at _ _ i order_limbs). pose proof (barrett_q3_bound y (k - i) Hy ltac:(lia)). nia.
  - eapply Z.le_lt_trans; [apply (conv_mono _ _ largest_q3)|].
    + intros i. apply (limbs_at _ _ i order_limbs).
    + intros j Hj. by apply barrett_q3_bound.
    + exact (largest_columns k Hk).
Qed.

(** The product of the quotient and the order, modulo 2^256. *)
Lemma order_product y : limbs 33 y ->
  let r2 := add_products 32 33 sc_m (barrett_q3 y) (fun k => k <? 33)%nat (repeat 0 33) in
  exists out u k, carry 0 (map (at_limb r2) (seq 0 32)) = (out, u) /\ limbs 32 out /\
    val out = val (barrett_q3 y) * ORDER + 256 ^ 32 * k.
Proof.
  intros Hy. cbv zeta. destruct (barrett_q3_limb y Hy) as [Hl _]. pose proof (order_column y) as Hc.
  assert (Hr : forall k, (k < 33)%nat ->
    at_limb (add_products 32 33 sc_m (barrett_q3 y) (fun k => k <? 33)%nat (repeat 0 33)) k = conv sc_m (barrett_q3 y) 32 33 k).
  { intros k Hk. rewrite (products_zero 32 33 sc_m (barrett_q3 y) (fun k => k <? 33)%nat 33 k).
    - by rewrite (proj2 (Nat.ltb_lt _ _) Hk).
    - intros i j Hi Hj. pose proof (limbs_at _ _ i order_limbs). pose proof (barrett_q3_bound y j Hy Hj).
      pose proof (largest_q3_small j Hj). nia.
    - intros l Hl' _. by apply Nat.ltb_lt.
    - exact Hk.
    - pose proof (Hc k Hy Hk). lia. }
  pose proof (conv_product 32 33 sc_m (barrett_q3 y)) as V. rewrite (map_at_limb 32 sc_m eq_refl), (map_at_limb 33 _ Hl), val_sc_m in V.
  change (32 + 33)%nat with (32 + 33)%nat in V. rewrite val_split_map in V.
  rewrite (map_ext_in _ (conv sc_m (barrett_q3 y) 32 33)) by (intros i Hi%in_seq; apply Hr; lia).
  revert V. generalize (val (map (conv sc_m (barrett_q3 y) 32 33) (seq (0 + 32) 33))) as rest. intros rest V.
  destruct (carry_val (map (conv sc_m (barrett_q3 y) 32 33) (seq 0 32)) 0) as (out & u & E & Lo & Do & _ & Ho); [lia| |].
  { apply terms_map. intros k Hk. apply Hc; [exact Hy|lia]. }
  exists out, u, (- rest - u). split_and!; [exact E|split; [|exact Do]|].
  - by rewrite Lo, length_map, length_seq.
  - unfold zlen in Ho. rewrite length_map, length_seq in Ho. change (Z.of_nat 32) with 32 in *. lia.
Qed.

Lemma limbs_split n m l : limbs (n + m) l -> limbs n (take n l) /\ val l = val (take n l) + 256 ^ Z.of_nat n * val (drop n l).
Proof.
  intros [L D]. assert (Lt : length (take n l) = n) by (rewrite length_take; lia).
  split; [split; [exact Lt|by apply Forall_take]|]. rewrite <- (take_drop n l) at 1. rewrite val_app. unfold zlen. by rewrite Lt.
Qed.

Lemma at_limb_take n l : limbs n (take n l) -> map (at_limb (map (at_limb l) (seq 0 (S n)))) (seq 0 n) = take n l.
Proof.
  intros [L _]. rewrite <- (map_at_limb n (take n l) L). apply map_ext_in. intros i Hi%in_seq. rewrite at_limb_map by lia.
  unfold at_limb. by rewrite nth_firstn, (proj2 (Nat.ltb_lt _ _)) by lia.
Qed.

(** The quotient is close, so two subtractions are enough. *)
Lemma barrett_val x : limbs 64 x -> limbs 32 (barrett_reduce x) /\ val (barrett_reduce x) = val x mod ORDER.
Proof.
  intros Hx. pose proof (limbs_drop 31 33 x Hx) as Hy. destruct (limbs_split 31 33 x Hx) as [Hlo Ex], (limbs_split 32 32 x Hx) as [Hr1 Ex'].
  pose proof (limbs_val _ _ Hx) as Vx. pose proof (limbs_val _ _ Hlo) as Vlo. pose proof (limbs_val _ _ Hr1) as Vr1.
  assert (Hq : 0 <= val x - val (barrett_q3 (drop 31 x)) * ORDER < 3 * ORDER).
  { rewrite (barrett_q3_val _ Hy). set (c := conv sc_mu (drop 31 x) 33 33).
    apply (quotient_close (val x) (val (drop 31 x)) (val (map c (seq 0 31)))).
    - exact Vx.
    - rewrite Ex. change (Z.of_nat 31) with 31 in *. symmetry. rewrite Z.add_comm, Z.mul_comm, Z.div_add_l by lia. rewrite Z.div_small by lia. lia.
    - destruct (val_bound (65025 * 33) (map c (seq 0 31))) as [H _]; [|exact H]. apply limbs_forall. intros j _. apply (mu_column _ j Hy).
    - destruct (val_bound (65025 * 33) (map c (seq 0 31))) as [_ H]; [apply limbs_forall; intros j _; apply (mu_column _ j Hy)|].
      unfold zlen in H. rewrite length_map, length_seq in H. change (Z.of_nat 31) with 31 in H. lia.
    - pose proof (conv_product 33 33 sc_mu (drop 31 x)) as V. rewrite (map_at_limb 33 sc_mu eq_refl), (map_at_limb 33 (drop 31 x) (lb_length _ _ Hy)) in V.
      rewrite <- V. change (33 + 33)%nat with (31 + 35)%nat. rewrite val_split_map. reflexivity. }
  destruct (order_product (drop 31 x) Hy) as (r2 & u & k & E & Hr2 & Vr2).
  unfold barrett_reduce. cbv zeta. rewrite E. rewrite (at_limb_take 32 x Hr1).
  destruct (borrow_val (take 32 x) r2 0) as (r & b & -> & Hr & Vr); [apply Hr1|apply Hr2|by rewrite (lb_length _ _ Hr1), (lb_length _ _ Hr2)|lia|].
  rewrite (lb_length _ _ Hr1) in Hr. rewrite (limbs_zlen _ _ Hr1) in Vr.
  change (Z.of_nat 32) with 32 in *. pose proof (limbs_val _ _ Hr) as Br. change (Z.of_nat 32) with 32 in Br.
  assert (V : val r = val x - val (barrett_q3 (drop 31 x)) * ORDER).
  { rewrite Vr2 in Vr. revert Vr Ex' Hq Br. generalize (val (barrett_q3 (drop 31 x)) * ORDER) (val (drop 32 x)). intros q h Vr Ex' Hq Br.
    assert (exists n, val r = val x - q + 256 ^ 32 * n) as [n En] by (exists (- h - k + Z.b2z b); lia).
    assert (n = 0) by (unfold ORDER in Hq; lia). subst n. lia. }
  destruct (reduce_once r Hr) as [Ha Va]. destruct (reduce_once _ Ha) as [Hb Vb]. split; [exact Hb|].
  rewrite Va in Vb. rewrite Vb. revert Hq V. clear. generalize (val (barrett_q3 (drop 31 x))) (val r) (val x). intros q v X Hq V.
  apply (Z.mod_unique_pos _ _ (q + v / ORDER)); unfold ORDER in *;
    repeat match goal with |- context [if ?a <? ?b then _ else _] => destruct (Z.ltb_spec a b) end; Z.to_euclidean_division_equations; lia.
Qed.

(** ** Operations *)

Lemma bytes_limbs n x : length x = n -> limbs n (map (fun i => byte_val (nth i x x00)) (seq 0 n)) /\
  val (map (fun i => byte_val (nth i x x00)) (seq 0 n)) = le_val x.
Proof.
  intros Hx. split; [apply limbs_map; intros j _; apply byte_val_range|]. subst n.
  induction x as [|c x IH]; [done|]. cbn [length seq map nth val le_val]. by rewrite <- seq_shift, map_map, IH.
Qed.

Lemma from32bytes_val x : length x = 32%nat ->
  limbs 32 (sc25519_from32bytes x) /\ val (sc25519_from32bytes x) = le_val x mod ORDER.
Proof.
  intros Hx. destruct (bytes_limbs 32 x Hx) as [Hl Hv]. unfold sc25519_from32bytes.
  set (l := map _ (seq 0 32)) in *. destruct (barrett_val (l ++ repeat 0 32)) as [Hb Vb].
  { split; [by rewrite length_app, (lb_length _ _ Hl)|]. apply Forall_app. split; [apply Hl|small_digits]. }
  split; [exact Hb|]. rewrite Vb, val_app. change (val (repeat 0 32)) with 0. by rewrite Z.mul_0_r, Z.add_0_r, Hv.
Qed.

Lemma from64bytes_val x : length x = 64%nat ->
  limbs 32 (sc25519_from64bytes x) /\ val (sc25519_from64bytes x) = le_val x mod ORDER.
Proof. intros Hx. destruct (bytes_limbs 64 x Hx) as [Hl Hv]. rewrite <- Hv. exact (barrett_val _ Hl). Qed.

Lemma to32bytes_val x : limbs 32 x -> length (sc25519_to32bytes x) = 32%nat /\ le_val (sc25519_to32bytes x) = val x.
Proof.
  intros Hx. unfold sc25519_to32bytes. split; [by rewrite length_map, length_seq|].
  rewrite <- (map_map (at_limb x) byte_of_Z), (map_at_limb 32 x) by apply Hx. by rewrite le_val_limbs, digits_mod by apply Hx.
Qed.

Lemma shortsc_val x : limbs 16 x -> limbs 32 (sc25519_from_shortsc x) /\ val (sc25519_from_shortsc x) = val x.
Proof.
  intros Hx. unfold sc25519_from_shortsc. rewrite (map_at_limb 16 x) by apply Hx. split.
  - split; [by rewrite length_app, (lb_length _ _ Hx)|]. apply Forall_app. split; [apply Hx|small_digits].
  - rewrite val_app. change (val (repeat 0 16)) with 0. lia.
Qed.

(** A carried number whose top limb is not masked: it needs no more than its bytes. *)
Lemma carried_limbs n (f : nat -> Z) : (forall j, (j < S n)%nat -> 0 <= f j < 3 * 2 ^ 30) -> val (map f (seq 0 (S n))) < 256 ^ Z.of_nat (S n) ->
  exists out c, carry 0 (map f (seq 0 n)) = (out, c) /\ limbs (S n) (out ++ [u32 (f n + c)]) /\
    val (out ++ [u32 (f n + c)]) = val (map f (seq 0 (S n))).
Proof.
  intros Hf Hv. destruct (carry_val (map f (seq 0 n)) 0) as (out & c & E & Lo & Do & Hc & Ho); [lia| |].
  { apply terms_map. intros j Hj. apply Hf. lia. }
  exists out, c. rewrite length_map, length_seq in Lo. unfold zlen in Ho. rewrite length_map, length_seq in Ho.
  pose proof (Hf n ltac:(lia)) as Hn. rewrite u32_small by lia.
  assert (V : val (out ++ [f n + c]) = val (map f (seq 0 (S n)))).
  { rewrite seq_S, map_app, !val_app. unfold zlen. rewrite length_map, length_seq, Lo. cbn [Nat.add map val]. lia. }
  split_and!; [exact E| |exact V]. split; [rewrite length_app, Lo; cbn; lia|].
  apply Forall_app. split; [exact Do|]. apply Forall_singleton. split; [lia|].
  rewrite <- V, val_app in Hv. unfold zlen in Hv. rewrite Lo in Hv. cbn [val] in Hv. pose proof (val_digits _ Do) as Hd.
  rewrite Nat2Z.inj_succ, Z.pow_succ_r in Hv by lia. nia.
Qed.

Lemma add_sc_val x y : limbs 32 x -> limbs 32 y -> val x < ORDER -> val y < ORDER ->
  limbs 32 (sc25519_add x y) /\ val (sc25519_add x y) = (val x + val y) mod ORDER.
Proof.
  intros Hx Hy Bx By. unfold sc25519_add. cbv zeta. pose proof (limbs_val _ _ Hx). pose proof (limbs_val _ _ Hy).
  rewrite (map_ext_in (fun i => u32 (at_limb x i + at_limb y i)) (fun i => at_limb x i + at_limb y i)).
  2: { intros i _. pose proof (limbs_at _ _ i Hx). pose proof (limbs_at _ _ i Hy). apply u32_small. lia. }
  rewrite (map_ext_in (at_limb _) (fun i => at_limb x i + at_limb y i) (seq 0 31)) by (intros i Hi%in_seq; rewrite at_limb_map by lia; done).
  rewrite (at_limb_map (fun i => at_limb x i + at_limb y i)) by lia.
  assert (V : val (map (fun i => at_limb x i + at_limb y i) (seq 0 32)) = val x + val y).
  { rewrite map_val2. by rewrite !(map_at_limb 32) by (apply Hx || apply Hy). }
  destruct (carried_limbs 31 (fun i => at_limb x i + at_limb y i)) as (out & c & -> & Hl & Hv).
  - intros j _. pose proof (limbs_at _ _ j Hx). pose proof (limbs_at _ _ j Hy). lia.
  - rewrite V. unfold ORDER in *. lia.
  - destruct (reduce_once _ Hl) as [Hr Vr]. split; [exact Hr|]. rewrite Vr, Hv, V.
    destruct (Z.ltb_spec (val x + val y) ORDER); [by rewrite Z.mod_small by lia|]. apply (Z.mod_unique _ _ 1); lia.
Qed.

Lemma mul_sc_val x y : limbs 32 x -> limbs 32 y ->
  limbs 32 (sc25519_mul x y) /\ val (sc25519_mul x y) = (val x * val y) mod ORDER.
Proof.
  intros Hx Hy. unfold sc25519_mul. cbv zeta. pose proof (limbs_val _ _ Hx). pose proof (limbs_val _ _ Hy).
  assert (Hp : forall i j, 0 <= at_limb x i * at_limb y j <= 65025).
  { intros i j. pose proof (limbs_at _ _ i Hx). pose proof (limbs_at _ _ j Hy). nia. }
  assert (Hc : forall k, 0 <= conv x y 32 32 k <= 65025 * 32) by (intros k; apply (conv_range x y 65025); [lia|auto]).
  assert (Hk : forall k, (k < 64)%nat -> at_limb (add_products 32 32 x y (fun _ => true) (repeat 0 64)) k = conv x y 32 32 k).
  { intros k Hk. pose proof (Hc k). apply (products_zero 32 32 x y (fun _ => true) 64 k); [|lia|exact Hk|lia].
    intros i j _ _. pose proof (Hp i j). lia. }
  revert Hk. generalize (add_products 32 32 x y (fun _ => true) (repeat 0 64)). intros t Hk.
  rewrite (map_ext_in (at_limb t) (conv x y 32 32)) by (intros i Hi%in_seq; apply Hk; lia). rewrite Hk by lia.
  pose proof (conv_product 32 32 x y) as V. rewrite !(map_at_limb 32) in V by (apply Hx || apply Hy).
  destruct (carried_limbs 63 (conv x y 32 32)) as (out & c & -> & Hl & Hv).
  - intros k _. pose proof (Hc k). lia.
  - change (S 63) with (32 + 32)%nat. rewrite V. change (Z.of_nat (32 + 32)) with 64. change (Z.of_nat 32) with 32 in *. nia.
  - destruct (barrett_val _ Hl) as [Hb Vb]. split; [exact Hb|]. rewrite Vb, Hv. change (S 63) with (32 + 32)%nat. by rewrite V.
Qed.

Lemma sub_bytes_val xs : forall ys b, digits xs -> digits ys -> length xs = length ys -> 0 <= b <= 1 ->
  limbs (length xs) (sub_bytes b xs ys) /\ val (sub_bytes b xs ys) = (val xs - val ys - b) mod 256 ^ zlen xs.
Proof.
  induction xs as [|x xs IH]; intros [|y ys] b Hx Hy Hl Hb; try done; cbn [sub_bytes].
  - split; [by split|]. change (256 ^ zlen (@nil Z)) with 1. by rewrite Z.mod_1_r.
  - apply Forall_cons in Hx as [Hx Hxs], Hy as [Hy Hys]. injection Hl as Hl. cbv zeta.
    assert (Et : exists c, 0 <= c <= 1 /\ Z.land (u32 (u32 (x - y) - b)) 255 = x - y - b + 256 * c /\
      Z.land (Z.shiftr (u32 (u32 (x - y) - b)) 8) 1 = c /\ 0 <= x - y - b + 256 * c < 256).
    { change 255 with (Z.ones 8). change 1 with (Z.ones 1) at 2. rewrite !Z.land_ones, Z.shiftr_div_pow2 by lia.
      unfold u32, wrap. rewrite Zminus_mod_idemp_l. exists (if x - y - b <? 0 then 1 else 0).
      destruct (Z.ltb_spec (x - y - b) 0).
      - replace ((x - y - b) mod 2 ^ 32) with (x - y - b + 2 ^ 32) by (apply (Z.mod_unique _ _ (-1)); lia).
        split_and!; Z.to_euclidean_division_equations; lia.
      - rewrite (Z.mod_small _ (2 ^ 32)) by lia. split_and!; Z.to_euclidean_division_equations; lia. }
    destruct Et as (c & Hc & -> & -> & Hd). destruct (IH ys c Hxs Hys Hl Hc) as [[Lo Do] Hv]. split.
    + split; cbn [length]; [by rewrite Lo|]. by constructor.
    + cbn [val]. rewrite Hv, zlen_cons. pose proof (zlen_nonneg xs). rewrite Z.pow_add_r by lia. change (256 ^ 1) with 256.
      assert (Hp : 0 < 256 ^ zlen xs) by (apply Z.pow_pos_nonneg; lia).
      apply (Z.mod_unique_pos _ _ ((val xs - val ys - c) / 256 ^ zlen xs)).
      * pose proof (Z.mod_pos_bound (val xs - val ys - c) (256 ^ zlen xs) ltac:(lia)). nia.
      * pose proof (Z.div_mod (val xs - val ys - c) (256 ^ zlen xs) ltac:(lia)). lia.
Qed.

Lemma sub_nored_val x y : limbs 32 x -> limbs 32 y ->
  limbs 32 (sc25519_sub_nored x y) /\ val (sc25519_sub_nored x y) = (val x - val y) mod 2 ^ 256.
Proof.
  intros Hx Hy. unfold sc25519_sub_nored. rewrite !(map_at_limb 32) by (apply Hx || apply Hy).
  destruct (sub_bytes_val x y 0) as [Hl Hv]; [apply Hx|apply Hy|by rewrite (lb_length _ _ Hx), (lb_length _ _ Hy)|lia|].
  rewrite (lb_length _ _ Hx) in Hl. split; [exact Hl|]. rewrite Hv, (limbs_zlen _ _ Hx), Z.sub_0_r. reflexivity.
Qed.

(** The comparison from the top limb down. *)
Lemma lt_from_val x y n : (forall i, 0 <= at_limb x i < 256) -> (forall i, 0 <= at_limb y i < 256) ->
  lt_from x y (rev (seq 0 n)) = (val (map (at_limb x) (seq 0 n)) <? val (map (at_limb y) (seq 0 n))).
Proof.
  intros Hx Hy. induction n as [|n IH]; [done|]. rewrite seq_S, rev_app_distr. cbn [rev app Nat.add lt_from]. rewrite IH, !map_app, !val_app.
  cbn [map val]. pose proof (limbs_val n (map (at_limb x) (seq 0 n)) (limbs_map n _ (fun j _ => Hx j))) as Bx.
  pose proof (limbs_val n (map (at_limb y) (seq 0 n)) (limbs_map n _ (fun j _ => Hy j))) as By.
  unfold zlen. rewrite !length_map, !length_seq. revert Bx By. generalize (val (map (at_limb x) (seq 0 n))) (val (map (at_limb y) (seq 0 n))).
  generalize (256 ^ Z.of_nat n). intros P a b Bx By.
  destruct (Z.ltb_spec (at_limb x n) (at_limb y n)); [symmetry; apply Z.ltb_lt; nia|].
  destruct (Z.ltb_spec (at_limb y n) (at_limb x n)); [symmetry; apply Z.ltb_ge; nia|].
  replace (at_limb x n) with (at_limb y n) by lia. destruct (Z.ltb_spec a b); symmetry; [apply Z.ltb_lt|apply Z.ltb_ge]; lia.
Qed.

Lemma lt_vartime_val x y : limbs 32 x -> limbs 32 y -> sc25519_lt_vartime x y = (val x <? val y).
Proof.
  intros Hx Hy. unfold sc25519_lt_vartime. rewrite lt_from_val by (intros i; by apply (limbs_at 32)).
  by rewrite !(map_at_limb 32) by (apply Hx || apply Hy).
Qed.

Lemma digits_zero l : digits l -> forallb (fun d => d =? 0) l = (val l =? 0).
Proof.
  induction 1 as [|d l Hd Hl IH]; cbn [forallb val]; [done|]. rewrite IH. pose proof (val_digits _ Hl).
  destruct (Z.eqb_spec d 0), (Z.eqb_spec (val l) 0), (Z.eqb_spec (d + 256 * val l) 0); cbn; lia || done.
Qed.

Lemma forallb_rev {A} (f : A -> bool) l : forallb f (rev l) = forallb f l.
Proof. induction l as [|a l IH]; [done|]. cbn [rev forallb]. rewrite forallb_app, IH. cbn [forallb]. by rewrite andb_true_r, andb_comm. Qed.

Lemma forallb_at_limb l js : forallb (fun i => at_limb l i =? 0) js = forallb (fun d => d =? 0) (map (at_limb l) js).
Proof. induction js as [|j js IH]; cbn [map forallb]; [done|]. by rewrite IH. Qed.

Lemma iszero_vartime_val x : limbs 32 x -> sc25519_iszero_vartime x = (val x =? 0).
Proof.
  intros Hx. unfold sc25519_iszero_vartime. rewrite forallb_at_limb, (map_at_limb 32 x) by apply Hx. by apply digits_zero, Hx.
Qed.

Lemma isshort_vartime_val x : limbs 32 x -> sc25519_isshort_vartime x = (val x <? 256 ^ 16).
Proof.
  intros Hx. unfold sc25519_isshort_vartime. rewrite forallb_rev, forallb_at_limb.
  assert (E : val x = val (map (at_limb x) (seq 0 16)) + 256 ^ 16 * val (map (at_limb x) (seq 16 16))).
  { rewrite <- (map_at_limb 32 x) at 1 by apply Hx. exact (val_split_map (at_limb x) 16 16 0). }
  pose proof (limbs_val 16 _ (limbs_map 16 (at_limb x) (fun j _ => limbs_at 32 x j Hx))) as B.
  change (Z.of_nat 16) with 16 in B.
  assert (D : digits (map (at_limb x) (seq 16 16))).
  { apply Forall_forall. intros d Hd%list_elem_of_In. apply in_map_iff in Hd as (j & <- & _). by apply (limbs_at 32). }
  rewrite digits_zero by exact D. pose proof (val_digits _ D). rewrite E.
  destruct (Z.eqb_spec (val (map (at_limb x) (seq 16 16))) 0) as [->|]; symmetry; [apply Z.ltb_lt|apply Z.ltb_ge]; lia.
Qed.

(** ** Digits *)

(** A number in the base [B]. *)
Fixpoint val_base (B : Z) (l : list Z) : Z :=
  match l with [] => 0 | d :: l => d + B * val_base B l end.

Lemma val_base_app B l1 l2 : 0 <= B -> val_base B (l1 ++ l2) = val_base B l1 + B ^ zlen l1 * val_base B l2.
Proof.
  intros HB. induction l1 as [|x l1 IH]; cbn [app val_base]; [change (zlen (@nil Z)) with 0; rewrite Z.pow_0_r; lia|].
  rewrite IH, zlen_cons. pose proof (zlen_nonneg l1). rewrite Z.pow_add_r, Z.pow_1_r by lia. lia.
Qed.

(** A digit that takes its low bits from one limb and the others from the next. *)
Lemma lxor_digit w k v u : 0 <= v < 256 -> 0 <= k <= w -> k <= 8 ->
  Z.lxor (Z.land (Z.shiftr v (8 - k)) (Z.ones w)) (Z.land (Z.shiftl u k) (Z.ones w)) = v / 2 ^ (8 - k) + 2 ^ k * (u mod 2 ^ (w - k)).
Proof.
  intros Hv Hk Hk8. rewrite !Z.land_ones, Z.shiftr_div_pow2, Z.shiftl_mul_pow2 by lia.
  assert (Hd : 0 <= v / 2 ^ (8 - k) < 2 ^ k).
  { split; [apply Z.div_pos; lia|]. apply Z.div_lt_upper_bound; [lia|]. rewrite <- Z.pow_add_r by lia. replace (8 - k + k) with 8 by lia. lia. }
  assert (2 ^ k <= 2 ^ w) by (apply Z.pow_le_mono_r; lia). rewrite (Z.mod_small (v / _)) by lia.
  replace (2 ^ w) with (2 ^ k * 2 ^ (w - k)) by (rewrite <- Z.pow_add_r by lia; f_equal; lia).
  rewrite (Z.mul_comm u), Z.mul_mod_distr_l by lia. rewrite <- Z.add_nocarry_lxor; [done|].
  apply Z.bits_inj'. intros n Hn. rewrite Z.land_spec, Z.bits_0. destruct (Z.ltb_spec n k).
  - rewrite (Z.mul_comm (2 ^ k)), Z.mul_pow2_bits_low by lia. apply andb_false_r.
  - assert (2 ^ k <= 2 ^ n) by (apply Z.pow_le_mono_r; lia). rewrite (Z.testbit_eqb (v / _)) by exact Hn. rewrite (Z.div_small (v / _) (2 ^ n)) by lia. done.
Qed.

Lemma window3_value s o : limbs 32 s ->
  val_base 8 (window3_part s o) = at_limb s (o + 0) + 256 * (at_limb s (o + 1) + 256 * at_limb s (o + 2)) /\
  val_base 8 (take 5 (window3_part s o)) = at_limb s (o + 0) + 256 * (at_limb s (o + 1) mod 128) /\
  Forall (fun d => 0 <= d < 8) (window3_part s o).
Proof.
  intros Hs. unfold window3_part. cbv zeta. pose proof (limbs_at _ _ (o + 0) Hs) as Ha. pose proof (limbs_at _ _ (o + 1) Hs) as Hb.
  pose proof (limbs_at _ _ (o + 2) Hs) as Hc. revert Ha Hb Hc.
  generalize (at_limb s (o + 0)) (at_limb s (o + 1)) (at_limb s (o + 2)). intros a b c Ha Hb Hc. change 7 with (Z.ones 3).
  rewrite (lxor_digit 3 2), (lxor_digit 3 1) by lia.
  rewrite !Z.land_ones, !Z.shiftr_div_pow2 by lia. cbn [take val_base].
  split_and!; [| |repeat apply Forall_cons_2; try apply Forall_nil_2]; Z.to_euclidean_division_equations; lia.
Qed.

Lemma window5_value s o : limbs 32 s ->
  val_base 32 (window5_part s o) = at_limb s (o + 0) + 256 * (at_limb s (o + 1) + 256 * (at_limb s (o + 2) +
    256 * (at_limb s (o + 3) + 256 * at_limb s (o + 4)))) /\
  val_base 32 (take 3 (window5_part s o)) = at_limb s (o + 0) + 256 * (at_limb s (o + 1) mod 128) /\
  Forall (fun d => 0 <= d < 32) (window5_part s o).
Proof.
  intros Hs. unfold window5_part. cbv zeta. pose proof (fun k => limbs_at _ _ (o + k) Hs) as H.
  pose proof (H 0%nat) as H0. pose proof (H 1%nat) as H1. pose proof (H 2%nat) as H2. pose proof (H 3%nat) as H3. pose proof (H 4%nat) as H4.
  clear H. revert H0 H1 H2 H3 H4.
  generalize (at_limb s (o + 0)) (at_limb s (o + 1)) (at_limb s (o + 2)) (at_limb s (o + 3)) (at_limb s (o + 4)).
  intros a b c d e Ha Hb Hc Hd He. change 31 with (Z.ones 5).
  rewrite (lxor_digit 5 3), (lxor_digit 5 1), (lxor_digit 5 4), (lxor_digit 5 2) by lia.
  rewrite !Z.land_ones, !Z.shiftr_div_pow2 by lia. cbn [take val_base].
  split_and!; [| |repeat apply Forall_cons_2; try apply Forall_nil_2]; Z.to_euclidean_division_equations; lia.
Qed.

Lemma s8_small z : -128 <= z < 128 -> s8 z = z.
Proof. intros H. unfold s8. rewrite Z.mod_small; lia. Qed.

(** Digits from [0] to [2^w - 1] become digits from [-2^(w-1)] to [2^(w-1) - 1], but for the last. *)
Lemma make_signed_val w rest : forall carry d, 2 <= w <= 6 -> 0 <= carry <= 1 -> 0 <= d -> d + carry <= 2 ^ w ->
  Forall (fun d => 0 <= d < 2 ^ w) rest ->
  exists out t, make_signed w carry d rest = out ++ [t] /\ length out = length rest /\
    Forall (fun d => - 2 ^ (w - 1) <= d < 2 ^ (w - 1)) out /\
    val_base (2 ^ w) (out ++ [t]) = d + carry + 2 ^ w * val_base (2 ^ w) rest.
Proof.
  induction rest as [|d' rest IH]; intros carry d Hw Hc Hd Hs Hr; cbn [make_signed]; cbv zeta;
    assert (H6 : 2 ^ w <= 2 ^ 6) by (apply Z.pow_le_mono_r; lia); assert (E2 : 2 ^ w = 2 * 2 ^ (w - 1)) by
      (rewrite <- (Z.pow_1_r 2) at 2; rewrite <- Z.pow_add_r by lia; f_equal; lia);
    assert (HP : 0 < 2 ^ (w - 1)) by (apply Z.pow_pos_nonneg; lia); rewrite (s8_small (d + carry)) by lia.
  - exists [], (d + carry). cbn. split_and!; [done..|lia].
  - apply Forall_cons in Hr as [Hd' Hr].
    assert (E1 : Z.shiftl 1 w - 1 = Z.ones w) by (rewrite Z.shiftl_mul_pow2, Z.ones_equiv by lia; lia).
    rewrite E1, Z.land_ones, !Z.shiftr_div_pow2, Z.shiftl_mul_pow2 by lia. set (e := d + carry) in *.
    assert (Hq : exists q c, e / 2 ^ w = q /\ e mod 2 ^ w / 2 ^ (w - 1) = c /\ 0 <= q /\ 0 <= c /\ q + c <= 1 /\
      - 2 ^ (w - 1) <= e mod 2 ^ w - c * 2 ^ w < 2 ^ (w - 1) /\ e = e mod 2 ^ w + 2 ^ w * q).
    { assert (He0 : 0 <= e) by lia. revert He0 HP Hs. rewrite E2. generalize (2 ^ (w - 1)). clear. intros P He HP Hs.
      exists (e / (2 * P)), (e mod (2 * P) / P). pose proof (Z.div_mod e (2 * P) ltac:(lia)) as E. pose proof (Z.mod_pos_bound e (2 * P) ltac:(lia)) as Hm.
      revert E Hm. generalize (e / (2 * P)) (e mod (2 * P)). intros q m E Hm.
      pose proof (Z.div_mod m P ltac:(lia)) as E'. pose proof (Z.mod_pos_bound m P HP) as Hm'. revert E' Hm'. generalize (m / P) (m mod P).
      intros c r E' Hr. assert (Hc : c = 0 \/ c = 1) by nia. assert (Hq : q = 0 \/ q = 1 /\ m = 0) by nia.
      split_and!; [done|done|destruct Hc as [-> | ->], Hq as [-> |[-> ->]]; lia..]. }
    destruct Hq as (q & c & -> & -> & Hq & Hc' & Hqc & Hd1 & He).
    rewrite (s8_small (d' + q)), (s8_small (_ - _)) by lia.
    destruct (IH c (d' + q)) as (out & t & -> & Hl & Ho & Hv); [lia|lia|lia|lia|exact Hr|].
    exists (e mod 2 ^ w - c * 2 ^ w :: out), t. split_and!.
    + reflexivity.
    + cbn [length]. by rewrite Hl.
    + by constructor.
    + cbn [app val_base]. rewrite Hv. nia.
Qed.

Lemma signed_digits_val w ds : 2 <= w <= 6 -> ds <> [] -> Forall (fun d => 0 <= d < 2 ^ w) ds ->
  exists out t, signed_digits w ds = out ++ [t] /\ S (length out) = length ds /\
    Forall (fun d => - 2 ^ (w - 1) <= d < 2 ^ (w - 1)) out /\ val_base (2 ^ w) (out ++ [t]) = val_base (2 ^ w) ds.
Proof.
  intros Hw Hn Hds. destruct ds as [|d ds]; [done|]. apply Forall_cons in Hds as [Hd Hds]. unfold signed_digits. cbn [hd tl].
  destruct (make_signed_val w ds 0 d Hw ltac:(lia) ltac:(lia) ltac:(lia) Hds) as (out & t & E & Hl & Ho & Hv).
  exists out, t. split_and!; [exact E|cbn [length]; by rewrite Hl|exact Ho|]. rewrite Hv. cbn [val_base]. lia.
Qed.

(** The last digit follows from the value. *)
Lemma signed_range B l : 2 <= B -> Forall (fun d => - B <= 2 * d < B) l -> - B ^ zlen l < val_base B l < B ^ zlen l.
Proof.
  intros HB. induction 1 as [|d l Hd _ IH]; cbn [val_base]; [change (zlen (@nil Z)) with 0; rewrite Z.pow_0_r; lia|].
  rewrite zlen_cons. pose proof (zlen_nonneg l). rewrite Z.pow_add_r, Z.pow_1_r by lia.
  assert (0 < B ^ zlen l) by (apply Z.pow_pos_nonneg; lia). nia.
Qed.

(** Parts of the digits, each for [p] limbs. *)
Lemma parts_value B p k s part n : 0 < B -> B ^ Z.of_nat k = 256 ^ Z.of_nat p -> (forall o, length (part o) = k) ->
  (forall o, val_base B (part o) = val (map (at_limb s) (seq o p))) ->
  val_base B (flat_map (fun i => part (p * i)%nat) (seq 0 n)) = val (map (at_limb s) (seq 0 (p * n))) /\
  length (flat_map (fun i => part (p * i)%nat) (seq 0 n)) = (k * n)%nat.
Proof.
  intros HB HE Hl Hp. induction n as [|n [IH1 IH2]]; [by rewrite !Nat.mul_0_r|].
  rewrite seq_S, flat_map_app. cbn [Nat.add flat_map]. rewrite app_nil_r, length_app, Hl, IH2. split; [|lia].
  rewrite val_base_app, IH1, Hp by lia. unfold zlen. rewrite IH2, Nat2Z.inj_mul, Z.pow_mul_r, HE, <- Z.pow_mul_r, <- Nat2Z.inj_mul by lia.
  replace (p * S n)%nat with (p * n + p)%nat by lia. by rewrite val_split_map.
Qed.

Lemma low_255 s : limbs 32 s -> val (map (at_limb s) (seq 0 30)) + 256 ^ 30 * (at_limb s 30 + 256 * (at_limb s 31 mod 128)) = val s mod 2 ^ 255.
Proof.
  intros Hs. pose proof (val_split_map (at_limb s) 30 2 0) as E. change (30 + 2)%nat with 32%nat in E.
  rewrite (map_at_limb 32 s) in E by apply Hs. rewrite E. change (seq (0 + 30) 2) with [30%nat; 31%nat].
  change (Z.of_nat 30) with 30. cbn [map val]. pose proof (limbs_val 30 _ (limbs_map 30 (at_limb s) (fun j _ => limbs_at 32 s j Hs))) as B.
  change (Z.of_nat 30) with 30 in B. pose proof (limbs_at 32 s 30 Hs). pose proof (limbs_at 32 s 31 Hs).
  apply (Z.mod_unique _ _ (at_limb s 31 / 128)); Z.to_euclidean_division_equations; lia.
Qed.

(** What the two windows are made of, before it is signed. *)
Lemma window_value B p k j part s : limbs 32 s -> 0 < B -> B ^ Z.of_nat k = 256 ^ Z.of_nat p -> (forall o, length (part o) = k) -> (j <= k)%nat ->
  (forall o, val_base B (part o) = val (map (at_limb s) (seq o p)) /\
    val_base B (take j (part o)) = at_limb s (o + 0) + 256 * (at_limb s (o + 1) mod 128) /\ Forall (fun d => 0 <= d < B) (part o)) ->
  forall n, (p * n = 30)%nat -> let ds := flat_map (fun i => part (p * i)%nat) (seq 0 n) ++ take j (part 30%nat) in
  val_base B ds = val s mod 2 ^ 255 /\ length ds = (k * n + j)%nat /\ Forall (fun d => 0 <= d < B) ds.
Proof.
  intros Hs HB HE Hl Hj Hp n Hn ds. destruct (parts_value B p k s part n HB HE Hl (fun o => proj1 (Hp o))) as [V L].
  split_and!; unfold ds.
  - rewrite val_base_app, V, Hn, (proj1 (proj2 (Hp 30%nat))), <- low_255 by (lia || exact Hs). unfold zlen. rewrite L.
    rewrite Nat2Z.inj_mul, Z.pow_mul_r, HE, <- Z.pow_mul_r, <- Nat2Z.inj_mul, Hn by lia. reflexivity.
  - rewrite length_app, L, length_take, Hl. lia.
  - apply Forall_app. split; [|by apply Forall_take, Hp]. apply Forall_forall. intros d Hd%list_elem_of_In.
    apply in_flat_map in Hd as (i & _ & Hd). destruct (Hp (p * i)%nat) as (_ & _ & Hf). rewrite Forall_forall in Hf. by apply Hf, list_elem_of_In.
Qed.

(** The windows write a scalar in signed digits. *)
Lemma window_signed w n ds v : 2 <= w <= 6 -> length ds = S n -> 0 <= v < 2 ^ 253 -> 2 ^ 253 <= (2 ^ (w - 1) - 1) * (2 ^ w) ^ Z.of_nat n ->
  Forall (fun d => 0 <= d < 2 ^ w) ds -> val_base (2 ^ w) ds = v ->
  length (signed_digits w ds) = S n /\ val_base (2 ^ w) (signed_digits w ds) = v /\
  Forall (fun d => - 2 ^ (w - 1) <= d < 2 ^ (w - 1)) (signed_digits w ds).
Proof.
  intros Hw Hl Hv Hn Hds Ev. destruct (signed_digits_val w ds Hw) as (out & t & E & Lo & Ho & V); [by destruct ds|exact Hds|].
  rewrite E. rewrite Ev in V. split_and!; [rewrite length_app; cbn; lia|exact V|].
  assert (E2 : 2 ^ w = 2 * 2 ^ (w - 1)) by (rewrite <- (Z.pow_1_r 2) at 2; rewrite <- Z.pow_add_r by lia; f_equal; lia).
  assert (HP : 0 < 2 ^ (w - 1)) by (apply Z.pow_pos_nonneg; lia).
  apply Forall_app. split; [exact Ho|]. apply Forall_singleton.
  assert (Hr := signed_range (2 ^ w) out ltac:(lia)). assert (Hf : Forall (fun d => - 2 ^ w <= 2 * d < 2 ^ w) out).
  { eapply Forall_impl; [exact Ho|]. cbn. lia. }
  specialize (Hr Hf). rewrite val_base_app in V by lia. cbn [val_base] in V. unfold zlen in *. replace (length out) with n in * by lia.
  revert V Hr Hn. generalize (val_base (2 ^ w) out). assert (0 < (2 ^ w) ^ Z.of_nat n) by (apply Z.pow_pos_nonneg; lia).
  generalize dependent ((2 ^ w) ^ Z.of_nat n). generalize dependent (2 ^ (w - 1)). intros. nia.
Qed.

Lemma window3_signed s : limbs 32 s -> val s < ORDER ->
  length (sc25519_window3 s) = 85%nat /\ val_base 8 (sc25519_window3 s) = val s /\ Forall (fun d => -4 <= d < 4) (sc25519_window3 s).
Proof.
  intros Hs Hlt. pose proof (limbs_val _ _ Hs) as Hv.
  destruct (window_value 8 3 8 5 (window3_part s) s Hs ltac:(lia) eq_refl (fun _ => eq_refl) ltac:(lia)) with (n := 10%nat) as (V & L & F); [|done|].
  - intros o. destruct (window3_value s o Hs) as (H1 & H2 & H3). split_and!; [|exact H2|exact H3].
    rewrite H1. cbn [seq map val]. rewrite !Nat.add_succ_r, Nat.add_0_r. lia.
  - rewrite Z.mod_small in V by (unfold ORDER in Hlt; lia).
    apply (window_signed 3 84); [lia|exact L|unfold ORDER in Hlt; lia|vm_compute; discriminate|exact F|exact V].
Qed.

Lemma window5_signed s : limbs 32 s -> val s < ORDER ->
  length (sc25519_window5 s) = 51%nat /\ val_base 32 (sc25519_window5 s) = val s /\ Forall (fun d => -16 <= d < 16) (sc25519_window5 s).
Proof.
  intros Hs Hlt. pose proof (limbs_val _ _ Hs) as Hv.
  destruct (window_value 32 5 8 3 (window5_part s) s Hs ltac:(lia) eq_refl (fun _ => eq_refl) ltac:(lia)) with (n := 6%nat) as (V & L & F); [|done|].
  - intros o. destruct (window5_value s o Hs) as (H1 & H2 & H3). split_and!; [|exact H2|exact H3].
    rewrite H1. cbn [seq map val]. rewrite !Nat.add_succ_r, Nat.add_0_r. lia.
  - rewrite Z.mod_small in V by (unfold ORDER in Hlt; lia).
    apply (window_signed 5 50); [lia|exact L|unfold ORDER in Hlt; lia|vm_compute; discriminate|exact F|exact V].
Qed.

(** ** Two scalars at once *)

Lemma two_digits a b : 0 <= a < 4 -> 0 <= b < 4 -> Z.lxor a (Z.shiftl b 2) = a + 4 * b.
Proof.
  intros Ha Hb. assert (Ea : a = 0 \/ a = 1 \/ a = 2 \/ a = 3) by lia. assert (Eb : b = 0 \/ b = 1 \/ b = 2 \/ b = 3) by lia.
  by destruct Ea as [->|[->|[->| ->]]], Eb as [->|[->|[->| ->]]].
Qed.

Lemma interleave_value s1 s2 i : limbs 32 s1 -> limbs 32 s2 -> let p := interleave_part s1 s2 i in
  Forall (fun d => 0 <= d < 16) p /\
  val_base 4 (map (fun d => d mod 4) p) = at_limb s1 i /\ val_base 4 (map (fun d => d / 4) p) = at_limb s2 i /\
  val_base 4 (map (fun d => d mod 4) (take 3 p)) = at_limb s1 i mod 64 /\ val_base 4 (map (fun d => d / 4) (take 3 p)) = at_limb s2 i mod 64.
Proof.
  intros H1 H2. unfold interleave_part. cbv zeta. pose proof (limbs_at _ _ i H1) as Ha. pose proof (limbs_at _ _ i H2) as Hb.
  revert Ha Hb. generalize (at_limb s1 i) (at_limb s2 i). intros a b Ha Hb. cbn [map take val_base]. change 3 with (Z.ones 2).
  rewrite !Z.land_ones, !Z.shiftr_div_pow2 by lia. rewrite !two_digits by (apply Z.mod_pos_bound; lia).
  split_and!; [repeat apply Forall_cons_2; try apply Forall_nil_2|..]; Z.to_euclidean_division_equations; lia.
Qed.

Lemma interleave_parts s1 s2 (g : Z -> Z) s n : (forall i, val_base 4 (map g (interleave_part s1 s2 i)) = at_limb s i) ->
  val_base 4 (map g (flat_map (interleave_part s1 s2) (seq 0 n))) = val (map (at_limb s) (seq 0 n)) /\
  length (flat_map (interleave_part s1 s2) (seq 0 n)) = (4 * n)%nat.
Proof.
  intros Hg. induction n as [|n [IH1 IH2]]; [done|]. rewrite seq_S, flat_map_app. cbn [Nat.add flat_map].
  rewrite app_nil_r, length_app, IH2. split; [|cbn; lia].
  rewrite !map_app, val_base_app, val_app, IH1, Hg by lia. unfold zlen. rewrite !length_map, IH2, length_seq. cbn [map val].
  rewrite Nat2Z.inj_mul, Z.pow_mul_r by lia. change (4 ^ Z.of_nat 4) with 256. lia.
Qed.

Lemma low_254 s : limbs 32 s -> val (map (at_limb s) (seq 0 31)) + 256 ^ 31 * (at_limb s 31 mod 64) = val s mod 2 ^ 254.
Proof.
  intros Hs. pose proof (val_split_map (at_limb s) 31 1 0) as E. change (31 + 1)%nat with 32%nat in E.
  rewrite (map_at_limb 32 s) in E by apply Hs. rewrite E. change (seq (0 + 31) 1) with [31%nat].
  change (Z.of_nat 31) with 31. cbn [map val]. pose proof (limbs_val 31 _ (limbs_map 31 (at_limb s) (fun j _ => limbs_at 32 s j Hs))) as B.
  change (Z.of_nat 31) with 31 in B. pose proof (limbs_at 32 s 31 Hs).
  apply (Z.mod_unique _ _ (at_limb s 31 / 64)); Z.to_euclidean_division_equations; lia.
Qed.

Lemma interleave2_val s1 s2 : limbs 32 s1 -> limbs 32 s2 -> let r := sc25519_2interleave2 s1 s2 in
  length r = 127%nat /\ Forall (fun d => 0 <= d < 16) r /\
  val_base 4 (map (fun d => d mod 4) r) = val s1 mod 2 ^ 254 /\ val_base 4 (map (fun d => d / 4) r) = val s2 mod 2 ^ 254.
Proof.
  intros H1 H2. unfold sc25519_2interleave2. cbv zeta. pose proof (fun i => interleave_value s1 s2 i H1 H2) as H. cbv zeta in H.
  destruct (interleave_parts s1 s2 (fun d => d mod 4) s1 31) as [V1 L]; [intros i; apply H|].
  destruct (interleave_parts s1 s2 (fun d => d / 4) s2 31) as [V2 _]; [intros i; apply H|].
  destruct (H 31%nat) as (F & _ & _ & T1 & T2). split_and!.
  - rewrite length_app, L. reflexivity.
  - apply Forall_app. split; [|by apply Forall_take]. apply Forall_forall. intros d Hd%list_elem_of_In.
    apply in_flat_map in Hd as (i & _ & Hd). destruct (H i) as [Hf _]. rewrite Forall_forall in Hf. by apply Hf, list_elem_of_In.
  - rewrite map_app, val_base_app, V1, T1, <- low_254 by (lia || exact H1). unfold zlen. rewrite length_map, L. reflexivity.
  - rewrite map_app, val_base_app, V2, T2, <- low_254 by (lia || exact H2). unfold zlen. rewrite length_map, L. reflexivity.
Qed.

(** ** Theorems *)

(** Limbs of the number [v], which is reduced. *)
Definition reduced (l : list Z) (v : Z) : Prop := limbs 32 l /\ val l = v mod ORDER.

Lemma limbs_zero : limbs 32 (repeat 0 32).
Proof. split; [reflexivity|small_digits]. Qed.

Lemma reduced_lt l v : reduced l v -> 0 <= val l < ORDER.
Proof. intros [_ ->]. apply Z.mod_pos_bound. reflexivity. Qed.

(** Claim C24.  sc25519.c computes modulo the order of the group: what the two readers, the product
    and the sum return is the reduced result, for every input.  The remainder that
    [barrett_reduce] asks about ("Can it really happen that r<0?") is never negative and below
    three times the order, and no sum of products wraps at 32 bits. *)
Theorem sc25519_modulo_order x y a b (Hx : length x = 64%nat) (Hy : length y = 32%nat) (Ha : limbs 32 a) (Hb : limbs 32 b) :
  reduced (sc25519_from64bytes x) (le_val x) /\ reduced (sc25519_from32bytes y) (le_val y) /\
  reduced (sc25519_mul a b) (val a * val b) /\
  (val a < ORDER -> val b < ORDER -> reduced (sc25519_add a b) (val a + val b)).
Proof.
  split_and!; [by apply from64bytes_val|by apply from32bytes_val|by apply mul_sc_val|]. intros. by apply add_sc_val.
Qed.

Lemma sc25519_modulo_order_witness : le_val (repeat xff 64) = 2 ^ 512 - 1 /\ reduced (sc25519_from64bytes (repeat xff 64)) (2 ^ 512 - 1).
Proof.
  split; [reflexivity|].
  exact (proj1 (sc25519_modulo_order (repeat xff 64) (repeat x00 32) (repeat 0 32) (repeat 0 32) eq_refl eq_refl limbs_zero limbs_zero)).
Defined.

(** The digits that the scalar multiplications read determine the scalar: for one that
    is reduced, the 85 signed digits of [sc25519_window3] and the 51 of [sc25519_window5] add up to
    it and none exceeds the multiples a table holds, and [sc25519_2interleave2] has two bits of
    each of two scalars in every digit. *)
Lemma sc25519_digits s t (Hs : limbs 32 s) (Ht : limbs 32 t) (Bs : val s < ORDER) (Bt : val t < ORDER) :
  (length (sc25519_window3 s) = 85%nat /\ val_base 8 (sc25519_window3 s) = val s /\ Forall (fun d => -4 <= d < 4) (sc25519_window3 s)) /\
  (length (sc25519_window5 s) = 51%nat /\ val_base 32 (sc25519_window5 s) = val s /\ Forall (fun d => -16 <= d < 16) (sc25519_window5 s)) /\
  let r := sc25519_2interleave2 s t in
  length r = 127%nat /\ Forall (fun d => 0 <= d < 16) r /\
  val_base 4 (map (fun d => d mod 4) r) = val s /\ val_base 4 (map (fun d => d / 4) r) = val t.
Proof.
  split; [by apply window3_signed|split; [by apply window5_signed|]]. cbv zeta.
  destruct (interleave2_val s t Hs Ht) as (L & F & V1 & V2). pose proof (limbs_val _ _ Hs). pose proof (limbs_val _ _ Ht).
  unfold ORDER in *. rewrite Z.mod_small in V1, V2 by lia. by split_and!.
Qed.


(** Comparison, the difference without a reduction, and the bytes of a scalar. *)
Lemma sc25519_plain x y : limbs 32 x -> limbs 32 y ->
  sc25519_lt_vartime x y = (val x <? val y) /\ sc25519_iszero_vartime x = (val x =? 0) /\
  sc25519_isshort_vartime x = (val x <? 256 ^ 16) /\
  (limbs 32 (sc25519_sub_nored x y) /\ val (sc25519_sub_nored x y) = (val x - val y) mod 2 ^ 256) /\
  (length (sc25519_to32bytes x) = 32%nat /\ le_val (sc25519_to32bytes x) = val x).
Proof.
  intros Hx Hy. split_and!; [by apply lt_vartime_val|by apply iszero_vartime_val|by apply isshort_vartime_val|apply sub_nored_val..|apply to32bytes_val|apply to32bytes_val]; done.
Qed.

(** A short scalar is multiplied as the number it is. *)
Lemma sc25519_mul_short x k : limbs 32 x -> length k = 16%nat ->
  reduced (sc25519_mul_shortsc x (shortsc25519_from16bytes k)) (val x * le_val k).
Proof.
  intros Hx Hk. destruct (bytes_limbs 16 k Hk) as [Hl Hv]. destruct (shortsc_val _ Hl) as [Hs Vs]. unfold sc25519_mul_shortsc.
  destruct (mul_sc_val x (sc25519_from_shortsc (shortsc25519_from16bytes k)) Hx Hs) as [H V]. split; [exact H|].
  unfold shortsc25519_from16bytes in *. by rewrite V, Vs, Hv.
Qed.
