(* ===== verification/Primes.v ===== *)
(** Primality by certificates: the criterion of Pocklington, and that 2^255 - 19 is prime. *)

From Stdlib Require Import Znumtheory Zdivisibility ZmodInv Zpow_facts.
From S2P Require Import Prelude.

(** ** Powers modulo a number *)

Fixpoint powmod (n a : Z) (e : positive) : Z :=
  match e with
  | xH => a mod n
  | xO e => let b := powmod n a e in b * b mod n
  | xI e => let b := powmod n a e in a * (b * b mod n) mod n
  end.

Lemma powmod_val n a e : powmod n a e = a ^ Z.pos e mod n.
Proof.
  induction e as [e IH|e IH|]; cbn [powmod]; cbv zeta; [| |by rewrite Z.pow_1_r].
  - rewrite IH, <- Zmult_mod, Zmult_mod_idemp_r, Pos2Z.inj_xI. f_equal.
    rewrite Z.pow_add_r, Z.pow_twice_r, Z.pow_1_r by lia. lia.
  - rewrite IH, <- Zmult_mod, Pos2Z.inj_xO. by rewrite Z.pow_twice_r.
Qed.

(** ** The criterion *)

Definition product (fs : list Z) : Z := fold_right Z.mul 1 fs.

Fixpoint coprimes (fs : list Z) : bool :=
  match fs with [] => true | f :: fs => (Z.gcd f (product fs) =? 1) && coprimes fs end.

(** [a] shows that [n] is prime, by prime factors [fs] of [n - 1] that exceed the root of [n]. *)
Definition pocklington (n a : Z) (fs : list Z) : bool :=
  (1 <? n) && (0 <? product fs) && (n <? product fs * product fs) && ((n - 1) mod product fs =? 0) && coprimes fs &&
  (powmod n a (Z.to_pos (n - 1)) =? 1) &&
  forallb (fun f => (1 <? f) && (Z.gcd (powmod n a (Z.to_pos ((n - 1) / f)) - 1) n =? 1)) fs.

Lemma product_divides m fs : coprimes fs = true -> Forall (fun f => (f | m)) fs -> (product fs | m).
Proof.
  induction fs as [|f fs IH]; intros Hc Hd; cbn [product fold_right] in *; [apply Z.divide_1_l|].
  apply andb_prop in Hc as [Hg%Z.eqb_eq Hc]. apply Forall_cons in Hd as [Hf Hd]. destruct (IH Hc Hd) as [k ->].
  apply (Z.gauss f (product fs) k) in Hg; [|by rewrite Z.mul_comm]. destruct Hg as [j ->]. exists j. fold (product fs). lia.
Qed.

Lemma prime_divisor n : 1 < n -> exists q, Z.prime q /\ (q | n).
Proof.
  intros Hn. assert (H : 0 <= n) by lia. revert Hn. pattern n. apply Z_lt_induction; [|exact H]. clear n H. intros n IH Hn.
  destruct (prime_dec n) as [Hp|Hp]; [exists n; split; [by apply Znumtheory.prime_alt|apply Z.divide_refl]|].
  destruct (not_prime_divide n Hn Hp) as (d & Hd & Hdn). destruct (IH d ltac:(lia) ltac:(lia)) as (q & Hq & Hqd).
  exists q. split; [exact Hq|]. by apply Z.divide_trans with d.
Qed.

Lemma small_divisor n : 1 < n -> ~ Z.prime n -> exists q, Z.prime q /\ (q | n) /\ q * q <= n.
Proof.
  intros Hn Hp. destruct (not_prime_divide n Hn) as (d & Hd & [e He]); [by rewrite <- Znumtheory.prime_alt|].
  assert (He' : 1 < e) by nia.
  destruct (Z.le_ge_cases d e).
  - destruct (prime_divisor d) as (q & Hq & Hqd); [lia|]. exists q. split_and!; [exact Hq|by apply Z.divide_trans with d; [|exists e]|].
    apply Z.divide_pos_le in Hqd; [|lia]. pose proof (Z.prime_ge_2 q Hq). nia.
  - destruct (prime_divisor e) as (q & Hq & Hqd); [lia|]. exists q. split_and!; [exact Hq|apply Z.divide_trans with e; [done|exists d; lia]|].
    apply Z.divide_pos_le in Hqd; [|lia]. pose proof (Z.prime_ge_2 q Hq). nia.
Qed.

(** A power that is 1 for two coprime exponents is 1 for one. *)
Lemma power_gcd q b u v : 1 < q -> 0 < u -> 0 < v -> Z.gcd u v = 1 -> b ^ u mod q = 1 -> b ^ v mod q = 1 -> b mod q = 1.
Proof.
  intros Hq Hu Hv Hg Eu Ev. destruct (Z.gcd_bezout u v 1 Hg) as (s & t & E).
  assert (H : forall k, 0 <= k -> b ^ (k * u) mod q = 1 /\ b ^ (k * v) mod q = 1).
  { intros k Hk. rewrite !(Z.mul_comm k), !Z.pow_mul_r by lia. rewrite (Zpower_mod (b ^ u)), (Zpower_mod (b ^ v)), Eu, Ev, Z.pow_1_l, Z.mod_1_l by lia. done. }
  destruct (Z.lt_ge_cases 0 s) as [Hs|Hs].
  - assert (Ht : 0 <= - t) by nia. destruct (H s ltac:(lia)) as [H1 _], (H (- t) Ht) as [_ H2].
    replace (s * u) with (- t * v + 1) in H1 by lia. rewrite Z.pow_add_r, Z.pow_1_r, Zmult_mod, H2, Z.mul_1_l, Z.mod_mod in H1 by nia. exact H1.
  - assert (Ht : 0 <= t) by nia. destruct (H (- s) ltac:(lia)) as [H1 _], (H t Ht) as [_ H2].
    replace (t * v) with (- s * u + 1) in H2 by lia. rewrite Z.pow_add_r, Z.pow_1_r, Zmult_mod, H1, Z.mul_1_l, Z.mod_mod in H2 by nia. exact H2.
Qed.

Theorem pocklington_prime n a fs : pocklington n a fs = true -> Forall Z.prime fs -> Z.prime n.
Proof.
  unfold pocklington. rewrite !andb_true_iff, !Z.ltb_lt, !Z.eqb_eq. intros ((((((Hn & Hpos) & Hs) & Hd) & Hc) & Ha) & Hg) Hfs.
  rewrite powmod_val, Z2Pos.id in Ha by lia.
  destruct (prime_dec n) as [Hp|Hp]; [by apply Znumtheory.prime_alt|]. exfalso. rewrite <- Znumtheory.prime_alt in Hp. destruct (small_divisor n Hn Hp) as (q & Hq & Hqn & Hqq).
  pose proof (Z.prime_ge_2 q Hq) as Hq2.
  assert (F : (product fs | q - 1)).
  { apply product_divides; [exact Hc|]. rewrite Forall_forall in Hfs |- *. rewrite forallb_forall in Hg. intros f Hf. 
    specialize (Hfs f Hf). apply list_elem_of_In in Hf as Hf'. specialize (Hg f Hf').
    apply andb_prop in Hg as [Hf1%Z.ltb_lt Hgf%Z.eqb_eq]. 
    destruct (Z.eq_dec ((q - 1) mod f) 0) as [Hd'|Hd']; [apply Z.mod_divide in Hd'; [exact Hd'|lia]|]. exfalso. rewrite Z.mod_divide in Hd' by lia.
    pose proof (Z.coprime_prime_l f (q - 1) Hfs Hd') as Hcop.
    assert (Hfn : (f | n - 1)).
    { apply Z.divide_trans with (product fs); [|apply Z.mod_divide; [|exact Hd]].
      - clear -Hf. induction Hf as [|? ? ? _ [k IH]]; cbn [product fold_right]; [apply Z.divide_factor_l|]. exists (k * y). unfold product in IH. lia.
      - intros E. rewrite E in Hs. lia. }
    destruct Hfn as [m Em]. assert (Hm : 0 < m) by nia.
    rewrite Em, Z.div_mul, powmod_val, Z2Pos.id in Hgf by lia.
    assert (Hnq : forall x, x mod n = 1 -> x mod q = 1).
    { intros x Hx. destruct Hqn as [e ->]. rewrite (Z.div_mod x (e * q)), Hx by lia.
      replace (e * q * (x / (e * q)) + 1) with (1 + e * (x / (e * q)) * q) by lia. rewrite Z.mod_add by lia. apply Z.mod_1_l. lia. }
    assert (Ef : (a ^ m) ^ f mod q = 1) by (rewrite <- Z.pow_mul_r by lia; apply Hnq; by rewrite <- Em).
    assert (E1 : a ^ m mod q = 1).
    { apply (power_gcd q _ f (q - 1)); [lia..|exact Hcop|exact Ef|]. apply Z.fermat_nz; [exact Hq|]. intros E.
      rewrite Zpower_mod, E, Z.pow_0_l, Z.mod_0_l in Ef by lia. lia. }
    assert (Hq1 : (q | a ^ m mod n - 1)).
    { pose proof (Z.div_mod (a ^ m) n ltac:(lia)) as D1. pose proof (Z.div_mod (a ^ m) q ltac:(lia)) as D2. destruct Hqn as [e He].
      exists (a ^ m / q - e * (a ^ m / n)). rewrite E1 in D2. revert D1 D2.
      generalize (a ^ m / n) as Q1. generalize (a ^ m / q) as Q2. generalize (a ^ m mod n) as R. generalize (a ^ m) as A.
      rewrite He. clear. intros A R Q2 Q1 -> D2. replace R with (q * Q2 + 1 - e * q * Q1) by lia. ring. }
    assert (H1 : (q | 1)) by (rewrite <- Hgf; by apply Z.gcd_greatest). apply Z.divide_pos_le in H1; lia. }
  apply Z.divide_pos_le in F; [|lia]. nia.
Qed.

(** ** The prime *)

(** Trial division. *)
Definition no_divisor (n k : Z) : bool :=
  (1 <? n) && (n <? k * k) && forallb (fun d => negb (n mod Z.of_nat d =? 0)) (seq 2 (Z.to_nat k)).

Lemma trial_prime n k : no_divisor n k = true -> 0 <= k -> Z.prime n.
Proof.
  unfold no_divisor. rewrite !andb_true_iff, !Z.ltb_lt, forallb_forall. intros ((Hn & Hk) & Hf) Hk0.
  destruct (prime_dec n) as [Hp|Hp]; [by apply Znumtheory.prime_alt|]. exfalso. rewrite <- Znumtheory.prime_alt in Hp.
  destruct (small_divisor n Hn Hp) as (q & Hq & Hqn & Hqq). pose proof (Z.prime_ge_2 q Hq).
  specialize (Hf (Z.to_nat q)). rewrite Z2Nat.id in Hf by lia.
  assert (Hi : In (Z.to_nat q) (seq 2 (Z.to_nat k))) by (apply in_seq; nia). specialize (Hf Hi).
  apply Z.mod_divide in Hqn; [|lia]. by rewrite Hqn in Hf.
Qed.

Ltac trial k := apply (trial_prime _ k); [vm_compute; reflexivity|lia].
Ltac pock a fs := apply (pocklington_prime _ a fs); [vm_compute; reflexivity|repeat (apply Forall_cons_2; [assumption|]); apply Forall_nil_2].

Lemma prime_25519 : Z.prime (2 ^ 255 - 19).
Proof.
  assert (Z.prime 127) by trial 100. assert (Z.prime 103) by trial 100. assert (Z.prime 991) by trial 100.
  assert (Z.prime 4153) by trial 100. assert (Z.prime 430751) by trial 1000. assert (Z.prime 569003) by trial 1000.
  assert (Z.prime 8574133) by pock 2 [991; 103].
  assert (Z.prime 2773320623) by pock 2 [569003].
  assert (Z.prime 72106336199) by pock 2 [2773320623].
  assert (Z.prime 1919519569386763) by pock 2 [8574133; 127].
  assert (Z.prime 31757755568855353) by pock 2 [430751; 4153].
  assert (Z.prime 75445702479781427272750846543864801) by pock 2 [1919519569386763; 72106336199].
  assert (Z.prime 74058212732561358302231226437062788676166966415465897661863160754340907)
    by pock 2 [75445702479781427272750846543864801; 31757755568855353].
  pock 2 [74058212732561358302231226437062788676166966415465897661863160754340907].
Qed.
