(* ===== verification/Abelian.v ===== *)
(** Multiples of an element of a commutative group. *)

From S2P Require Import Prelude.

(** ** Commutative groups *)

Class AbelianGroup (G : Type) := {
  gzero : G;
  gadd : G -> G -> G;
  gopp : G -> G;
  gadd_comm a b : gadd a b = gadd b a;
  gadd_assoc a b c : gadd a (gadd b c) = gadd (gadd a b) c;
  gadd_zero a : gadd a gzero = a;
  gadd_opp a : gadd a (gopp a) = gzero
}.

Declare Scope group_scope.
Delimit Scope group_scope with G.
Infix "+" := gadd : group_scope.
Notation "- a" := (gopp a) : group_scope.

Section multiples.
Context {G : Type} {A : AbelianGroup G}.
Implicit Types a b c : G.
#[local] Open Scope group_scope.

Lemma gzero_add a : gzero + a = a.
Proof. rewrite gadd_comm. apply gadd_zero. Qed.
Lemma gadd_cancel a b c : a + c = b + c -> a = b.
Proof. intros H. rewrite <- (gadd_zero a), <- (gadd_zero b), <- (gadd_opp c), !gadd_assoc. by rewrite H. Qed.
Lemma gopp_unique a b : a + b = gzero -> b = - a.
Proof. intros H. apply (gadd_cancel _ _ a). by rewrite (gadd_comm _ a), H, (gadd_comm _ a), gadd_opp. Qed.
Lemma gopp_zero : - gzero = (gzero : G).
Proof. symmetry. apply gopp_unique, gadd_zero. Qed.
Lemma gadd_swap a b c d : (a + b) + (c + d) = (a + c) + (b + d).
Proof. rewrite !gadd_assoc, <- !(gadd_assoc a). by rewrite (gadd_comm b c). Qed.
Lemma gopp_add a b : - (a + b) = - a + - b.
Proof. symmetry. apply gopp_unique. by rewrite gadd_swap, !gadd_opp, gadd_zero. Qed.
Lemma gopp_opp a : - - a = a.
Proof. symmetry. apply gopp_unique. by rewrite gadd_comm, gadd_opp. Qed.

(** [n] times [a]. *)
Definition smul (n : Z) (a : G) : G :=
  match n with
  | Z0 => gzero
  | Z.pos p => Pos.iter_op gadd p a
  | Z.neg p => - Pos.iter_op gadd p a
  end.

Lemma smul_0 a : smul 0 a = gzero.
Proof. done. Qed.
Lemma smul_1 a : smul 1 a = a.
Proof. done. Qed.
Lemma iter_op_succ p a : Pos.iter_op gadd (Pos.succ p) a = Pos.iter_op gadd p a + a.
Proof. rewrite Pos.iter_op_succ by exact gadd_assoc. apply gadd_comm. Qed.

Lemma smul_succ n a : smul (Z.succ n) a = smul n a + a.
Proof.
  destruct n as [|p|p]; cbn [smul].
  - by rewrite gzero_add.
  - rewrite <- Pos2Z.inj_succ. apply iter_op_succ.
  - destruct (Pos.succ_pred_or p) as [-> |<-].
    + cbn. by rewrite gadd_comm, gadd_opp.
    + replace (Z.succ (Z.neg (Pos.succ (Pos.pred p)))) with (Z.neg (Pos.pred p)) by lia. cbn [smul].
      rewrite iter_op_succ, gopp_add, <- gadd_assoc, (gadd_comm (- a) a), (gadd_opp a). symmetry. apply gadd_zero.
Qed.

Lemma smul_add n m a : smul (n + m) a = smul n a + smul m a.
Proof.
  revert m. apply Z.bi_induction; [by intros x y ->| |].
  - by rewrite Z.add_0_r, smul_0, gadd_zero.
  - intros m. rewrite Z.add_succ_r, !smul_succ, gadd_assoc. split; [by intros ->|apply gadd_cancel].
Qed.
Lemma smul_opp n a : smul (- n) a = - smul n a.
Proof. apply gopp_unique. by rewrite <- smul_add, Z.add_opp_diag_r. Qed.
Lemma smul_mul n m a : smul (n * m) a = smul n (smul m a).
Proof.
  revert n. apply Z.bi_induction; [by intros x y ->|done|].
  intros n. rewrite Z.mul_succ_l, smul_add, smul_succ. split; [by intros ->|apply gadd_cancel].
Qed.
Lemma smul_gadd n a b : smul n (a + b) = smul n a + smul n b.
Proof.
  revert n. apply Z.bi_induction; [by intros x y ->|by rewrite !smul_0, gadd_zero|].
  intros n. rewrite !smul_succ, gadd_swap. split; [by intros ->|apply gadd_cancel].
Qed.
Lemma smul_gzero n : smul n gzero = (gzero : G).
Proof. transitivity (smul (n * 0) (gzero : G)); [by rewrite smul_mul|by rewrite Z.mul_0_r]. Qed.
Lemma smul_2 a : smul 2 a = a + a.
Proof. done. Qed.
Lemma smul_3 a : smul 3 a = a + (a + a).
Proof. done. Qed.
Lemma smul_4 a : smul 4 a = (a + a) + (a + a).
Proof. done. Qed.
End multiples.
