(* ===== verification/Edwards.v ===== *)
(** The group of a complete twisted Edwards curve [-x^2 + y^2 = 1 + d x^2 y^2] over the integers
    modulo a prime. *)

From Stdlib Require Import Zmod Zdivisibility ZmodInv ZmodNsatz Field.
From S2P Require Import Prelude.

#[local] Open Scope Zmod_scope.

Section curve.
Context (p : Z) (Hp : Z.prime p) (d i : Zmod p) (two : Zmod.of_Z p 2 <> Zmod.zero).
Context (Hi : i * i = - Zmod.one) (Hd : forall s, s * s <> d).
Add Field Fp : (Zmod.field_theory p Hp).
Abbreviation F := (Zmod p).
Notation "a / b" := (Zmod.mdiv a b) : Zmod_scope.

Definition on_curve (P : F * F) : Prop := snd P * snd P - fst P * fst P = 1 + d * fst P * fst P * snd P * snd P.

Definition minus (P : F * F) : F * F := (- fst P, snd P).
Lemma minus_on_curve P : on_curve P -> on_curve (minus P).
Proof. unfold on_curve, minus. cbn [fst snd]. intros H. transitivity (snd P * snd P - fst P * fst P); [ring|]. rewrite H. ring. Qed.

Definition cross (P Q : F * F) : F := d * fst P * fst Q * snd P * snd Q.
Definition plus (P Q : F * F) : F * F :=
  ((fst P * snd Q + fst Q * snd P) / (1 + cross P Q), (snd P * snd Q + fst P * fst Q) / (1 - cross P Q)).

Lemma mul_nonzero (a b : F) : a * b <> 0 -> a <> 0 /\ b <> 0.
Proof. intros H. split; intros ->; apply H; ring. Qed.
Lemma mul_zero (a b : F) : a * b = 0 -> a = 0 \/ b = 0.
Proof. apply Zmod.mul_0_iff_prime. exact Hp. Qed.

Lemma one_nonzero : (1 : F) <> 0.
Proof. apply Zmod.one_neq_zero. pose proof (Z.prime_ge_2 p Hp). lia. Qed.

(** An equation that is a combination of others. *)
Lemma combination (a b q l r : F) : l = r -> a - b = q * (l - r) -> a = b.
Proof. intros -> H. transitivity (a - b + b); [ring|]. rewrite H. ring. Qed.
Lemma combination3 (a b q1 l1 r1 q2 l2 r2 q3 l3 r3 : F) : l1 = r1 -> l2 = r2 -> l3 = r3 ->
  a - b = q1 * (l1 - r1) + q2 * (l2 - r2) + q3 * (l3 - r3) -> a = b.
Proof. intros -> -> -> H. transitivity (a - b + b); [ring|]. rewrite H. ring. Qed.

(** [cross] is never 1 or -1: otherwise [d] would be a square. *)
Lemma cross_square P Q e : on_curve P -> on_curve Q -> e * e = 1 -> cross P Q = e ->
  let u := i * fst P + e * snd P in let v := i * fst Q + snd Q in u * u = d * ((fst P * snd P) * (fst P * snd P)) * (v * v).
Proof.
  destruct P as [x1 y1], Q as [x2 y2]. unfold on_curve, cross. cbn [fst snd]. intros H1 H2 He H.
  transitivity (i * i * (x1 * x1) + e * e * (y1 * y1) + e * ((1 + 1) * i * x1 * y1)); [ring|].
  transitivity (d * (x1 * y1) * (x1 * y1) * (i * i * (x2 * x2) + y2 * y2) + (d * x1 * x2 * y1 * y2) * ((1 + 1) * i * x1 * y1)); [|ring].
  rewrite H, Hi, He. f_equal. transitivity (y1 * y1 - x1 * x1); [ring|].
  transitivity (d * (x1 * y1) * (x1 * y1) * (y2 * y2 - x2 * x2)); [|ring]. rewrite H1, H2.
  transitivity (d * (x1 * y1) * (x1 * y1) + (d * x1 * x2 * y1 * y2) * (d * x1 * x2 * y1 * y2)); [|ring]. rewrite H, He. ring.
Qed.

Lemma square_over a b : b <> 0 -> forall s, s * s = d * (b * b) * (a * a) -> a = 0.
Proof.
  intros Hb s H. destruct (Zmod.eqb_spec a 0) as [E|Ha]; [exact E|]. exfalso. apply (Hd (s / (a * b))).
  apply (f_equal (fun z => z / (a * b * (a * b)))) in H. transitivity (s * s / (a * b * (a * b))); [field; split; assumption|].
  rewrite H. field. split; assumption.
Qed.

Lemma complete P Q e : on_curve P -> on_curve Q -> e * e = 1 -> cross P Q <> e.
Proof.
  intros HP HQ He H. assert (Hc : fst P * snd P <> 0 /\ snd Q <> 0).
  { assert (e <> 0) by (intros E; rewrite E in He; apply one_nonzero; rewrite <- He; ring).
    unfold cross in H. destruct P as [x1 y1], Q as [x2 y2]; cbn [fst snd] in *.
    split; intros E; apply H0; rewrite <- H; [replace (d * x1 * x2 * y1 * y2) with (d * (x1 * y1) * x2 * y2) by ring|]; rewrite E; ring. }
  destruct Hc as [Hc Hy].
  pose proof (square_over _ _ Hc _ (cross_square P Q e HP HQ He H)) as H1.
  assert (HQ' : on_curve (- fst Q, snd Q)) by (by apply minus_on_curve).
  assert (H' : cross P (- fst Q, snd Q) = - e) by (rewrite <- H; unfold cross; cbn [fst snd]; ring).
  pose proof (square_over _ _ Hc _ (cross_square P _ (- e) HP HQ' ltac:(rewrite <- He; ring) H')) as H2. cbn [fst snd] in H2.
  apply Hy. destruct (mul_zero (Zmod.of_Z p 2) (snd Q)) as [E|E]; [|contradiction|exact E].
  replace (Zmod.of_Z p 2) with (1 + 1 : F) by (rewrite <- Zmod.of_Z_1, <- Zmod.of_Z_add; reflexivity).
  transitivity ((i * fst Q + snd Q) + (i * - fst Q + snd Q)); [ring|]. rewrite H1, H2. ring.
Qed.

Lemma plus_defined P Q : on_curve P -> on_curve Q -> 1 + cross P Q <> 0 /\ 1 - cross P Q <> 0.
Proof.
  intros HP HQ. split; intros E.
  - apply (complete P Q (- (1)) HP HQ); [ring|]. transitivity (1 + cross P Q - 1); [ring|]. rewrite E. ring.
  - apply (complete P Q 1 HP HQ); [ring|]. transitivity (1 - (1 - cross P Q)); [ring|]. rewrite E. ring.
Qed.

(** ** The group *)

Definition zero_point : F * F := (0, 1).

Lemma zero_on_curve : on_curve zero_point.
Proof. unfold on_curve. cbn. ring. Qed.
Lemma plus_comm P Q : plus P Q = plus Q P.
Proof.
  unfold plus. assert (E : cross P Q = cross Q P) by (unfold cross; ring). rewrite E. f_equal; f_equal; ring.
Qed.

Lemma div_1 (a : F) : a / 1 = a.
Proof. field. exact one_nonzero. Qed.

Lemma plus_zero P : plus P zero_point = P.
Proof.
  destruct P as [x y]. unfold plus, cross, zero_point. cbn [fst snd]. f_equal.
  - replace (1 + d * x * 0 * y * 1) with (1 : F) by ring. rewrite div_1. ring.
  - replace (1 - d * x * 0 * y * 1) with (1 : F) by ring. rewrite div_1. ring.
Qed.

Lemma plus_minus P : on_curve P -> plus P (minus P) = zero_point.
Proof.
  intros HP. destruct (plus_defined P (minus P) HP (minus_on_curve P HP)) as [H1 H2]. revert H1 H2.
  destruct P as [x y]. unfold plus, cross, zero_point, minus, on_curve in *. cbn [fst snd] in *. intros H1 H2. f_equal.
  - replace (x * y + - x * y) with (0 : F) by ring. field. exact H1.
  - replace (y * y + x * - x) with (1 - d * x * - x * y * y) by (apply (combination _ _ (- (1)) _ _ HP); ring). field. exact H2.
Qed.

(** The equation of a sum is a combination of those of its terms. *)
Definition cofactor_1 (x1 y1 x2 y2 : F) : F :=
    x2 * (x2 * (y2 * (y2 * (d * (x2 * (x2 * (y2 * (y2 * (d * (x1 * (x1 * (y1 * y1 * d - (1))) + y1 * y1 -
    (1)) - ((1 + 1) * 1))) + y1 * y1 - (x1 * x1))) + y2 * (y2 * (x1 * x1 - (y1 * y1))) - ((1 + 1) * 1)) + (1
    + 1) * y2 * y2 - ((1 + 1 + 1 + 1) * 1) - ((1 + 1) * x2 * x2))) + x2 * x2)) + y2 * y2 * y2 * y2.
Definition cofactor_2 (x1 y1 x2 y2 : F) : F :=
    x2 * (x2 * (y2 * (y2 * (d * (x1 * (x1 * ((1 + 1) * 1 + x1 * x1)) + y1 * (y1 * (y1 * y1 - ((1 + 1) * 1)))
    + 1) + (1 + 1) * 1 + (1 + 1) * x1 * x1 - ((1 + 1) * y1 * y1))) + y1 * y1 - (1) - (x1 * x1))) + y2 * (y2
    * (1 + x1 * x1 - (y1 * y1))) + 1.

Lemma plus_on_curve P Q : on_curve P -> on_curve Q -> on_curve (plus P Q).
Proof.
  intros HP HQ. destruct (plus_defined P Q HP HQ) as [H1 H2]. revert HP HQ H1 H2.
  destruct P as [x1 y1], Q as [x2 y2]. unfold plus, cross, on_curve. cbn [fst snd]. intros HP HQ H1 H2.
  set (a := x1 * y2 + x2 * y1). set (c := y1 * y2 + x1 * x2). set (D := d * x1 * x2 * y1 * y2) in *.
  assert (E : (c * c) * ((1 + D) * (1 + D)) - (a * a) * ((1 - D) * (1 - D)) = ((1 + D) * (1 + D)) * ((1 - D) * (1 - D)) + d * (a * a) * (c * c)).
  { apply (combination3 _ _ (cofactor_1 x1 y1 x2 y2) _ _ (cofactor_2 x1 y1 x2 y2) _ _ 0 _ _ HP HQ (eq_refl 0)).
    unfold cofactor_1, cofactor_2, a, c, D. ring. }
  clearbody a c D. clear HP HQ.
  transitivity (((c * c) * ((1 + D) * (1 + D)) - (a * a) * ((1 - D) * (1 - D))) / (((1 + D) * (1 + D)) * ((1 - D) * (1 - D)))); [field; by split|].
  rewrite E. field. by split.
Qed.

(** ** Associativity *)

(** The cofactors by which the two ways to add differ. *)
Section cofactors.
Context (x1 y1 x2 y2 x3 y3 : F).
Definition cofactor_x1 : F :=
    x2 * (y2 * (d * (x2 * (y2 * (x2 * (x3 * (x1 * (y2 * (y3 * (d * (- (y2 * y3) - (x2 * x3)))) + (- (1) -
    (x3 * x3))) + y1 * (y2 * (y3 * (d * (y2 * x3 + x2 * y3))))) + y1 * (y3 * (y3 * y3 - (1)))) + y2 * (x1 *
    (y3 * (y3 * y3 - (1))) + y1 * (x3 * (- (1) - (x3 * x3))))) + x2 * (x2 * (x3 * (y3 * (y1 * y3 - (x1 *
    x3)))))) + y2 * (y2 * (y2 * (x3 * (y3 * (x1 * y3 - (y1 * x3))))))))).
Definition cofactor_x2 : F :=
    x3 * (y3 * (x1 * (x2 * (d * (y2 * (y1 * (x3 * (y3 * (d * (x1 * (x2 * x3 - (y2 * y3)) + y1 * (y2 * x3 -
    (x2 * y3)))) + (- (y1 * x2) - (x1 * y2))) + y3 * (- (y1 * y2) - (x1 * x2))) + x1 * (x1 * (y2 * y3 + x2 *
    x3)) + y2 * y3 + x2 * x3) + x3 * (y3 * (x3 * (1 + x1 * x1 - (y1 * y1)) + x1 * y1 * y3))) + y3 * (y1 * y1
    - (1) - (x1 * x1)) + x1 * y1 * x3) + y2 * (x3 * (y3 * (d * (y3 * (1 + x1 * x1 - (y1 * y1)) + x1 * y1 *
    x3)) + 1 + x1 * x1 - (y1 * y1)) - (x1 * y1 * y3))) + y1 * (x2 * (x3 * (d * (y1 * (y1 * (y2 * y2 - (y3 *
    y3))) + y3 * y3 - (y2 * y2)) + 1 - (y1 * y1)) + x2 * (y2 * (y3 * (d * (y1 * y1 - (1)))))) + y2 * (y3 *
    (y1 * (y1 * (1 - (x3 * x3 * d))) + x3 * x3 * d - (1))))) + x1 * (x2 * (x3 * (x3 * (1 + x1 * x1 - (y1 *
    y1))) + 1 + x1 * x1 - (y1 * y1)) + x1 * (y1 * (y2 * (1 + x3 * x3)))) + y1 * (y2 * (y1 * (y1 * (- (1) -
    (x3 * x3))) + 1 + x3 * x3))) + y3 * (x1 * (y2 * (y3 * (y3 * (y1 * y1 - (1) - (x1 * x1))) + 1 + x1 * x1 -
    (y1 * y1)) + x1 * (y1 * (x2 * (1 - (y3 * y3))))) + y1 * (x2 * (y1 * (y1 * (y3 * y3 - (1))) + 1 - (y3 *
    y3)))).
Definition cofactor_x3 : F :=
    x1 * (x2 * (y1 * (y2 * (x1 * (x2 * (x3 * (- (1) - (d))) + y2 * (y3 * (1 + d))) + y1 * (x2 * (y3 * (1 +
    d)) + y2 * (x3 * (- (1) - (d))))) + x1 * (y3 * (- (1) - (x2 * x2))) + y1 * (x3 * (1 + x2 * x2))) + x3 *
    (x1 * (x1 * (y2 * y2 - (1) - (x2 * x2))) + y2 * y2 - (1) - (x2 * x2)) + x2 * (y2 * (y3 * (- (1) - (x1 *
    x1))))) + y2 * (y3 * (y2 * (y2 * (1 + x1 * x1 - (y1 * y1))) + y1 * y1 - (1) - (x1 * x1)) + x1 * (y1 *
    (x3 * (y2 * y2 - (1)))))) + y1 * (x2 * (y3 * (y1 * (y1 * (1 + x2 * x2 - (y2 * y2))) + y2 * y2 - (1) -
    (x2 * x2)) + x2 * (y2 * (x3 * (y1 * y1 - (1))))) + y2 * (x3 * (y1 * (y1 * (1 - (y2 * y2))) + y2 * y2 -
    (1)))).
Definition cofactor_y1 : F :=
    x2 * (y2 * (d * (x2 * (y2 * (x2 * (x3 * (y1 * (y2 * (y3 * (d * (- (y2 * y3) - (x2 * x3)))) + (- (1) -
    (x3 * x3))) + x1 * (y2 * (y3 * (d * (y2 * x3 + x2 * y3))))) + x1 * (y3 * (y3 * y3 - (1)))) + y2 * (x1 *
    (x3 * (- (1) - (x3 * x3))) + y1 * (y3 * (y3 * y3 - (1))))) + x2 * (x2 * (x3 * (y3 * (x1 * y3 - (y1 *
    x3)))))) + y2 * (y2 * (y2 * (x3 * (y3 * (y1 * y3 - (x1 * x3))))))))).
Definition cofactor_y2 : F :=
    x3 * (y3 * (x1 * (x2 * (d * (y2 * (y1 * (x3 * (y3 * (d * (x1 * (x2 * y3 - (y2 * x3)) + y1 * (y2 * y3 -
    (x2 * x3)))) + y1 * y2 + x1 * x2) + y3 * (y1 * x2 + x1 * y2)) + x1 * (x1 * (- (y2 * x3) - (x2 * y3))) +
    (- (y2 * x3) - (x2 * y3))) + x3 * (y3 * (y3 * (1 + x1 * x1 - (y1 * y1)) + x1 * y1 * x3))) + x3 * (1 + x1
    * x1 - (y1 * y1)) - (x1 * y1 * y3)) + y2 * (y3 * (x3 * (d * (x3 * (1 + x1 * x1 - (y1 * y1)) + x1 * y1 *
    y3)) + y1 * y1 - (1) - (x1 * x1)) + x1 * y1 * x3)) + y1 * (x2 * (y3 * (d * (y1 * (y1 * (- (x3 * x3) -
    (y2 * y2))) + x3 * x3 + y2 * y2) + y1 * y1 - (1)) + x2 * (y2 * (x3 * (d * (1 - (y1 * y1)))))) + y2 * (x3
    * (y1 * (y1 * (- (1) - (y3 * y3 * d))) + 1 + y3 * y3 * d)))) + x1 * (y2 * (x3 * (x3 * (1 + x1 * x1 - (y1
    * y1))) + 1 + x1 * x1 - (y1 * y1)) + x1 * (y1 * (x2 * (1 + x3 * x3)))) + y1 * (x2 * (y1 * (y1 * (- (1) -
    (x3 * x3))) + 1 + x3 * x3))) + y3 * (x1 * (x2 * (y3 * (y3 * (y1 * y1 - (1) - (x1 * x1))) + 1 + x1 * x1 -
    (y1 * y1)) + x1 * (y1 * (y2 * (1 - (y3 * y3))))) + y1 * (y2 * (y1 * (y1 * (y3 * y3 - (1))) + 1 - (y3 *
    y3)))).
Definition cofactor_y3 : F :=
    x1 * (x2 * (y1 * (y2 * (x1 * (x2 * (y3 * (- (1) - (d))) + y2 * (x3 * (1 + d))) + y1 * (x2 * (x3 * (1 +
    d)) + y2 * (y3 * (- (1) - (d))))) + x1 * (x3 * (- (1) - (x2 * x2))) + y1 * (y3 * (1 + x2 * x2))) + y3 *
    (x1 * (x1 * (y2 * y2 - (1) - (x2 * x2))) + y2 * y2 - (1) - (x2 * x2)) + x2 * (y2 * (x3 * (- (1) - (x1 *
    x1))))) + y2 * (x3 * (y2 * (y2 * (1 + x1 * x1 - (y1 * y1))) + y1 * y1 - (1) - (x1 * x1)) + x1 * (y1 *
    (y3 * (y2 * y2 - (1)))))) + y1 * (x2 * (x3 * (y1 * (y1 * (1 + x2 * x2 - (y2 * y2))) + y2 * y2 - (1) -
    (x2 * x2)) + x2 * (y2 * (y3 * (y1 * y1 - (1))))) + y2 * (y3 * (y1 * (y1 * (1 - (y2 * y2))) + y2 * y2 -
    (1)))).
End cofactors.

Lemma fraction_equal (a b a' b' : F) : b <> 0 -> b' <> 0 -> a * b' = a' * b -> a / b = a' / b'.
Proof.
  intros Hb Hb' H. transitivity ((a * b') / (b * b')); [field; by split|]. rewrite H. field. by split.
Qed.

(** A sum of three points as fractions. *)
Definition num_x P Q : F := fst P * snd Q + fst Q * snd P.
Definition num_y P Q : F := snd P * snd Q + fst P * fst Q.
Definition denom3 P Q R : F := d * num_x P Q * num_y P Q * fst R * snd R.
Definition square3 P Q : F := (1 + cross P Q) * (1 - cross P Q).

Lemma fraction_nonzero (a b : F) : b <> 0 -> a / b <> 0 -> a <> 0.
Proof. intros Hb H E. apply H. rewrite E. field. exact Hb. Qed.

Lemma plus_plus P Q R : on_curve P -> on_curve Q -> on_curve R ->
  square3 P Q + denom3 P Q R <> 0 /\ square3 P Q - denom3 P Q R <> 0 /\
  plus (plus P Q) R =
    ((num_x P Q * (1 - cross P Q) * snd R + fst R * (num_y P Q * (1 + cross P Q))) / (square3 P Q + denom3 P Q R),
     (num_y P Q * (1 + cross P Q) * snd R + num_x P Q * (1 - cross P Q) * fst R) / (square3 P Q - denom3 P Q R)).
Proof.
  intros HP HQ HR. destruct (plus_defined P Q HP HQ) as [B E].
  destruct (plus_defined (plus P Q) R (plus_on_curve P Q HP HQ) HR) as [B3 E3].
  assert (X : cross (plus P Q) R = denom3 P Q R / square3 P Q).
  { unfold cross at 1, plus. cbn [fst snd]. unfold denom3, square3, num_x, num_y. field. by split. }
  assert (S : square3 P Q <> 0) by (unfold square3; intros Z; apply mul_zero in Z as [Z|Z]; contradiction).
  rewrite X in B3, E3. assert (B4 : square3 P Q + denom3 P Q R <> 0).
  { apply (fraction_nonzero _ _ S). intros Z. apply B3. rewrite <- Z. field. exact S. }
  assert (E4 : square3 P Q - denom3 P Q R <> 0).
  { apply (fraction_nonzero _ _ S). intros Z. apply E3. rewrite <- Z. field. exact S. }
  split; [exact B4|split; [exact E4|]]. unfold plus at 1. rewrite X. unfold plus. cbn [fst snd].
  fold (num_x P Q) (num_y P Q). unfold square3 in *. f_equal.
  - field. split_and!; try assumption.
  - field. split_and!; try assumption.
Qed.

Lemma plus_assoc P Q R : on_curve P -> on_curve Q -> on_curve R -> plus (plus P Q) R = plus P (plus Q R).
Proof.
  intros HP HQ HR. rewrite (plus_comm P (plus Q R)).
  destruct (plus_plus P Q R HP HQ HR) as (B1 & E1 & ->), (plus_plus Q R P HQ HR HP) as (B2 & E2 & ->).
  f_equal; (apply fraction_equal; [assumption|assumption|]); clear B1 E1 B2 E2;
    destruct P as [x1 y1], Q as [x2 y2], R as [x3 y3]; unfold on_curve, square3, denom3, num_x, num_y, cross in *; cbn [fst snd] in *.
  - apply (combination3 _ _ (cofactor_x1 x1 y1 x2 y2 x3 y3) _ _ (cofactor_x2 x1 y1 x2 y2 x3 y3) _ _ (cofactor_x3 x1 y1 x2 y2 x3 y3) _ _ HP HQ HR).
    unfold cofactor_x1, cofactor_x2, cofactor_x3. ring.
  - apply (combination3 _ _ (cofactor_y1 x1 y1 x2 y2 x3 y3) _ _ (cofactor_y2 x1 y1 x2 y2 x3 y3) _ _ (cofactor_y3 x1 y1 x2 y2 x3 y3) _ _ HP HQ HR).
    unfold cofactor_y1, cofactor_y2, cofactor_y3. ring.
Qed.

(** ** Projective coordinates *)

Lemma two_nz : 1 + 1 <> (0 : F).
Proof.
  replace (1 + 1 : F) with (Zmod.of_Z p 2); [exact two|]. rewrite <- Zmod.of_Z_1, <- Zmod.of_Z_add. reflexivity.
Qed.
Lemma product_nonzero (a b : F) : a <> 0 -> b <> 0 -> a * b <> 0.
Proof. intros Ha Hb H. apply mul_zero in H as [H|H]; contradiction. Qed.

Lemma sum_x P Q : on_curve P -> on_curve Q -> fst P * snd Q + fst Q * snd P = fst (plus P Q) * (1 + cross P Q).
Proof. intros HP HQ. destruct (plus_defined P Q HP HQ) as [H _]. unfold plus. cbn [fst]. field. exact H. Qed.
Lemma sum_y P Q : on_curve P -> on_curve Q -> snd P * snd Q + fst P * fst Q = snd (plus P Q) * (1 - cross P Q).
Proof. intros HP HQ. destruct (plus_defined P Q HP HQ) as [_ H]. unfold plus. cbn [snd]. field. exact H. Qed.

(** The addition of points [(x z, y z, z, x y z)] without a division. *)
Lemma extended_add P Q z1 z2 : on_curve P -> on_curve Q -> z1 <> 0 -> z2 <> 0 ->
  let A := (snd P * z1 - fst P * z1) * (snd Q * z2 - fst Q * z2) in
  let B := (snd P * z1 + fst P * z1) * (snd Q * z2 + fst Q * z2) in
  let C := (fst P * snd P * z1) * (fst Q * snd Q * z2) * ((1 + 1) * d) in
  let D := z1 * z2 + z1 * z2 in
  D + C <> 0 /\ D - C <> 0 /\ B - A = fst (plus P Q) * (D + C) /\ B + A = snd (plus P Q) * (D - C).
Proof.
  intros HP HQ H1 H2. cbv zeta. destruct (plus_defined P Q HP HQ) as [Hplus Hminus]. set (k := (1 + 1) * (z1 * z2)).
  assert (Hk : k <> 0) by (apply product_nonzero; [exact two_nz|by apply product_nonzero]).
  replace (z1 * z2 + z1 * z2 + _) with (k * (1 + cross P Q)) by (unfold k, cross; ring).
  replace (z1 * z2 + z1 * z2 - _) with (k * (1 - cross P Q)) by (unfold k, cross; ring).
  split_and!; [by apply product_nonzero..| |].
  - transitivity (k * (fst P * snd Q + fst Q * snd P)); [unfold k; ring|]. rewrite (sum_x P Q HP HQ). ring.
  - transitivity (k * (snd P * snd Q + fst P * fst Q)); [unfold k; ring|]. rewrite (sum_y P Q HP HQ). ring.
Qed.

(** The doubling of a point [(x z, y z, z)]. *)
Lemma extended_double P z : on_curve P -> z <> 0 ->
  let X := fst P * z in let Y := snd P * z in
  let E := (X + Y) * (X + Y) - X * X - Y * Y in
  let G := - (X * X) + Y * Y in
  let H := - (X * X) - Y * Y in
  let F' := G - (z * z + z * z) in
  G <> 0 /\ F' <> 0 /\ E = fst (plus P P) * G /\ H = snd (plus P P) * F'.
Proof.
  intros HP Hz. cbv zeta. destruct (plus_defined P P HP HP) as [Hplus Hminus].
  assert (Hzz : z * z <> 0) by (by apply product_nonzero).
  assert (EG : - (fst P * z * (fst P * z)) + snd P * z * (snd P * z) = z * z * (1 + cross P P)).
  { transitivity (z * z * (snd P * snd P - fst P * fst P)); [ring|]. rewrite HP. unfold cross. ring. }
  rewrite EG. replace (z * z * (1 + cross P P) - (z * z + z * z)) with (- (z * z) * (1 - cross P P)) by ring.
  assert (Hn : - (z * z) <> 0) by (intros E; apply Hzz; transitivity (- - (z * z)); [ring|]; rewrite E; ring).
  split_and!; [by apply product_nonzero..| |].
  - transitivity (z * z * (fst P * snd P + fst P * snd P)); [ring|]. rewrite (sum_x P P HP HP). ring.
  - transitivity (- (z * z) * (snd P * snd P + fst P * fst P)); [ring|]. rewrite (sum_y P P HP HP). ring.
Qed.
End curve.
