(* ===== verification/EdGroup.v ===== *)
(** The curve of Ed25519: the complete twisted Edwards curve over the integers modulo
    2^255 - 19, its points as a commutative group. *)

From Stdlib Require Import Zmod Zdivisibility ZmodInv Zpow_facts.
From S2P Require Import Prelude Curve25519Limbs Primes Abelian Edwards.

(** ** The field *)

(** The prime, sealed: the field is never computed with. *)
Definition Pfield_sealed : seal P25519.
Proof. by eexists. Qed.
Definition Pfield : Z := unseal Pfield_sealed.
Lemma Pfield_eq : Pfield = P25519.
Proof. apply seal_eq. Qed.

Abbreviation Fp := (Zmod Pfield).
Definition Fz (a : Z) : Fp := Zmod.of_Z Pfield a.
Arguments Fz : simpl never.

Lemma prime_P : Z.prime Pfield.
Proof. rewrite Pfield_eq. exact prime_25519. Qed.

Lemma Fz_eq a b : Fz a = Fz b <-> eqp a b.
Proof. unfold Fz. rewrite Zmod.of_Z_inj, Pfield_eq. split; [intros H; split; exact H|intros [H]; exact H]. Qed.
Lemma Fz_add a b : Fz (a + b) = Zmod.add (Fz a) (Fz b).
Proof. apply Zmod.of_Z_add. Qed.
Lemma Fz_sub a b : Fz (a - b) = Zmod.sub (Fz a) (Fz b).
Proof. apply Zmod.of_Z_sub. Qed.
Lemma Fz_opp a : Fz (- a) = Zmod.opp (Fz a).
Proof. apply Zmod.of_Z_opp. Qed.
Lemma Fz_mul a b : Fz (a * b) = Zmod.mul (Fz a) (Fz b).
Proof. apply Zmod.of_Z_mul. Qed.
Lemma Fz_0 : Fz 0 = Zmod.zero.
Proof. apply Zmod.of_Z_0. Qed.
Lemma Fz_1 : Fz 1 = Zmod.one.
Proof. apply Zmod.of_Z_1. Qed.
Lemma Fz_surjective (x : Fp) : x = Fz (Zmod.to_Z x).
Proof. symmetry. apply Zmod.of_Z_to_Z. Qed.
Lemma to_Z_Fz a : Zmod.to_Z (Fz a) = a mod P25519.
Proof. rewrite <- Pfield_eq. apply Zmod.to_Z_of_Z. Qed.

(** ** Computing modulo the prime *)

(** A quick way to a smaller number of the same class. *)
Definition fold_bits (z : Z) : Z := (Z.land z (Z.ones 255) + 19 * Z.shiftr z 255)%Z.
Lemma Fz_fold_bits z : Fz (fold_bits z) = Fz z.
Proof.
  apply Fz_eq. unfold fold_bits. rewrite Z.land_ones, Z.shiftr_div_pow2 by lia. apply (eqp_multiple (- (z / 2 ^ 255))).
  pose proof (Z.div_mod z (2 ^ 255) ltac:(lia)). unfold P25519. lia.
Qed.
Definition times_num (a b : Z) : Z := fold_bits (fold_bits (a * b)).
Lemma Fz_times_num a b : Fz (times_num a b) = Zmod.mul (Fz a) (Fz b).
Proof. unfold times_num. by rewrite !Fz_fold_bits, Fz_mul. Qed.

Fixpoint pow_num (a : Z) (e : positive) : Z :=
  match e with
  | xH => a
  | xO e => let b := pow_num a e in times_num b b
  | xI e => let b := pow_num a e in times_num a (times_num b b)
  end.
Lemma Fz_pow_num a e : Fz (pow_num a e) = Fz (a ^ Z.pos e).
Proof.
  induction e as [e IH|e IH|]; cbn [pow_num]; cbv zeta; [| |by rewrite Z.pow_1_r].
  - rewrite !Fz_times_num, IH, <- !Fz_mul, Pos2Z.inj_xI, Z.pow_add_r, Z.pow_twice_r, Z.pow_1_r by lia. f_equal. lia.
  - by rewrite Fz_times_num, IH, <- Fz_mul, Pos2Z.inj_xO, Z.pow_twice_r.
Qed.

(** ** The parameters *)

(** [d] and the square root of -1 of ge25519.c, as numbers. *)
Definition D25519 : Z := 37095705934669439343138083508754565189542113879843219016388785533085940283555.
Definition I25519 : Z := 19681161376707505956807079304988542015446066515923890162744021073123829784752.

Lemma D25519_ratio : (121666 * D25519) mod P25519 = (- 121665) mod P25519.
Proof. reflexivity. Qed.

Lemma two_nonzero : Fz 2 <> Zmod.zero.
Proof. rewrite <- Fz_0, Fz_eq. intros [H]. vm_compute in H. discriminate H. Qed.

Lemma root_of_minus_1 : Zmod.mul (Fz I25519) (Fz I25519) = Zmod.opp Zmod.one.
Proof. rewrite <- Fz_1, <- Fz_mul, <- Fz_opp. apply Fz_eq. split. vm_compute. reflexivity. Qed.

(** [d] is not a square: its power [(p - 1) / 2] is -1. *)
Definition half : positive := Z.to_pos ((P25519 - 1) / 2).
Lemma half_twice : 2 * Z.pos half = P25519 - 1.
Proof. reflexivity. Qed.
Lemma d_power : D25519 ^ Z.pos half mod P25519 = P25519 - 1.
Proof.
  assert (H : pow_num D25519 half mod P25519 = P25519 - 1) by (vm_compute; reflexivity).
  rewrite <- H. by apply Fz_eq; rewrite Fz_pow_num.
Qed.
Lemma P_range : 2 < P25519.
Proof. reflexivity. Qed.

Lemma d_not_square (s : Fp) : Zmod.mul s s <> Fz D25519.
Proof.
  rewrite (Fz_surjective s), <- Fz_mul. intros [H]%Fz_eq. set (z := Zmod.to_Z s) in *. pose proof P_range as HP.
  assert (E : (z ^ 2) ^ Z.pos half mod P25519 = P25519 - 1).
  { rewrite <- d_power, (Zpower_mod (z ^ 2)), (Zpower_mod D25519), <- H by lia. by rewrite Z.pow_2_r. }
  rewrite <- Z.pow_mul_r, half_twice in E by lia.
  destruct (Z.eq_dec (z mod P25519) 0) as [H0|H0].
  - rewrite Zpower_mod, H0, Z.pow_0_l, Z.mod_0_l in E by lia. lia.
  - rewrite (Z.fermat_nz P25519 z prime_25519 H0) in E. lia.
Qed.

(** ** Points *)

Definition on_ed (P : Fp * Fp) : Prop := on_curve Pfield (Fz D25519) P.
Definition ed_check (P : Fp * Fp) : bool :=
  Zmod.eqb (Zmod.sub (Zmod.mul (snd P) (snd P)) (Zmod.mul (fst P) (fst P)))
    (Zmod.add Zmod.one (Zmod.mul (Zmod.mul (Zmod.mul (Zmod.mul (Fz D25519) (fst P)) (fst P)) (snd P)) (snd P))).

Lemma ed_check_spec P : ed_check P = true <-> on_ed P.
Proof. unfold ed_check. rewrite Zmod.eqb_eq. reflexivity. Qed.

Record ed := Ed { xy : Fp * Fp; xy_check : ed_check xy = true }.

Lemma xy_on P : on_ed (xy P).
Proof. apply ed_check_spec, xy_check. Qed.
Definition ed_point (P : Fp * Fp) (H : on_ed P) : ed := Ed P (proj2 (ed_check_spec P) H).

Lemma ed_eq P Q : xy P = xy Q -> P = Q.
Proof. destruct P as [P HP], Q as [Q HQ]. cbn. intros ->. f_equal. apply Eqdep_dec.UIP_dec, bool_dec. Qed.

(** The sum is never undefined, since [d] is not a square and -1 is. *)
Definition ed_plus : Fp * Fp -> Fp * Fp -> Fp * Fp := plus Pfield (Fz D25519).
Lemma ed_plus_on P Q : on_ed P -> on_ed Q -> on_ed (ed_plus P Q).
Proof. exact (plus_on_curve Pfield prime_P (Fz D25519) (Fz I25519) two_nonzero root_of_minus_1 d_not_square P Q). Qed.

#[export] Instance ed_group : AbelianGroup ed.
Proof.
  refine {| gzero := ed_point (zero_point Pfield) (zero_on_curve Pfield prime_P (Fz D25519));
    gadd P Q := ed_point (ed_plus (xy P) (xy Q)) (ed_plus_on _ _ (xy_on P) (xy_on Q));
    gopp P := ed_point (minus Pfield (xy P)) (minus_on_curve Pfield prime_P (Fz D25519) (xy P) (xy_on P)) |}.
  - intros P Q. apply ed_eq. apply (plus_comm Pfield prime_P).
  - intros P Q R. apply ed_eq. symmetry.
    exact (plus_assoc Pfield prime_P (Fz D25519) (Fz I25519) two_nonzero root_of_minus_1 d_not_square _ _ _ (xy_on P) (xy_on Q) (xy_on R)).
  - intros P. apply ed_eq. apply (plus_zero Pfield prime_P).
  - intros P. apply ed_eq.
    exact (plus_minus Pfield prime_P (Fz D25519) (Fz I25519) two_nonzero root_of_minus_1 d_not_square _ (xy_on P)).
Defined.

Lemma xy_add P Q : xy (P + Q)%G = ed_plus (xy P) (xy Q).
Proof. reflexivity. Qed.
Lemma xy_opp P : xy (- P)%G = (Zmod.opp (fst (xy P)), snd (xy P)).
Proof. reflexivity. Qed.
Lemma xy_zero : xy gzero = (Zmod.zero, Zmod.one).
Proof. reflexivity. Qed.

(** ** Sums without divisions *)

Section projective.
#[local] Open Scope Zmod_scope.
Implicit Types (P Q : ed) (z : Fp).

Lemma ed_extended_add P Q z1 z2 : z1 <> Zmod.zero -> z2 <> Zmod.zero ->
  let A := (snd (xy P) * z1 - fst (xy P) * z1) * (snd (xy Q) * z2 - fst (xy Q) * z2) in
  let B := (snd (xy P) * z1 + fst (xy P) * z1) * (snd (xy Q) * z2 + fst (xy Q) * z2) in
  let C := (fst (xy P) * snd (xy P) * z1) * (fst (xy Q) * snd (xy Q) * z2) * ((Zmod.one + Zmod.one) * Fz D25519) in
  let D := z1 * z2 + z1 * z2 in
  D + C <> Zmod.zero /\ D - C <> Zmod.zero /\ B - A = fst (xy (P + Q)%G) * (D + C) /\ B + A = snd (xy (P + Q)%G) * (D - C).
Proof.
  exact (extended_add Pfield prime_P (Fz D25519) (Fz I25519) two_nonzero root_of_minus_1 d_not_square (xy P) (xy Q) z1 z2 (xy_on P) (xy_on Q)).
Qed.

Lemma ed_extended_double P z : z <> Zmod.zero ->
  let X := fst (xy P) * z in let Y := snd (xy P) * z in
  let E := (X + Y) * (X + Y) - X * X - Y * Y in
  let G := - (X * X) + Y * Y in
  let H := - (X * X) - Y * Y in
  let F := G - (z * z + z * z) in
  G <> Zmod.zero /\ F <> Zmod.zero /\ E = fst (xy (P + P)%G) * G /\ H = snd (xy (P + P)%G) * F.
Proof.
  exact (extended_double Pfield prime_P (Fz D25519) (Fz I25519) two_nonzero root_of_minus_1 d_not_square (xy P) z (xy_on P)).
Qed.

Lemma nonzero_product (a b : Fp) : a <> Zmod.zero -> b <> Zmod.zero -> a * b <> Zmod.zero.
Proof. exact (product_nonzero Pfield prime_P a b). Qed.
End projective.

(** A sum is determined by its equations. *)
Lemma ed_sum_unique (P Q : ed) (x y : Fp) :
  let c := cross Pfield (Fz D25519) (xy P) (xy Q) in
  Zmod.mul x (Zmod.add Zmod.one c) = Zmod.add (Zmod.mul (fst (xy P)) (snd (xy Q))) (Zmod.mul (fst (xy Q)) (snd (xy P))) ->
  Zmod.mul y (Zmod.sub Zmod.one c) = Zmod.add (Zmod.mul (snd (xy P)) (snd (xy Q))) (Zmod.mul (fst (xy P)) (fst (xy Q))) ->
  xy (P + Q)%G = (x, y).
Proof.
  intros c Hx Hy.
  destruct (plus_defined Pfield prime_P (Fz D25519) (Fz I25519) two_nonzero root_of_minus_1 d_not_square (xy P) (xy Q) (xy_on P) (xy_on Q)) as [H1 H2].
  fold c in H1, H2.
  rewrite (sum_x Pfield prime_P (Fz D25519) (Fz I25519) two_nonzero root_of_minus_1 d_not_square _ _ (xy_on P) (xy_on Q)) in Hx.
  rewrite (sum_y Pfield prime_P (Fz D25519) (Fz I25519) two_nonzero root_of_minus_1 d_not_square _ _ (xy_on P) (xy_on Q)) in Hy.
  apply Zmod.mul_cancel_r_prime in Hx; [|exact prime_P|exact H1]. apply Zmod.mul_cancel_r_prime in Hy; [|exact prime_P|exact H2].
  rewrite xy_add. unfold ed_plus. destruct (plus _ _ _ _). cbn [fst snd] in *. by rewrite Hx, Hy.
Qed.

Add Field field_P : (Zmod.field_theory Pfield prime_P).

(** ** Points given by numbers *)

Definition on_ed_num (x y : Z) : bool :=
  ((y * y - x * x) mod P25519 =? (1 + D25519 * x * x * y * y) mod P25519)%Z.
Lemma on_ed_num_spec x y : on_ed_num x y = true -> on_ed (Fz x, Fz y).
Proof.
  unfold on_ed_num, on_ed, on_curve. rewrite Z.eqb_eq. intros H. cbn [fst snd].
  rewrite <- Fz_1, <- !Fz_mul, <- Fz_sub, <- Fz_add. apply Fz_eq. by split.
Qed.

Definition same_class (a b : Z) : bool := (fold_bits (fold_bits a - fold_bits b) mod P25519 =? 0)%Z.
Lemma same_class_spec a b : same_class a b = true -> Fz a = Fz b.
Proof.
  unfold same_class. rewrite Z.eqb_eq. intros H. assert (E : Zmod.sub (Fz a) (Fz b) = Zmod.zero).
  { rewrite <- (Fz_fold_bits a), <- (Fz_fold_bits b), <- Fz_sub, <- Fz_fold_bits, <- Fz_0. apply Fz_eq. by split. }
  by apply Zmod.sub_eq_0.
Qed.

(** The equations of a sum, modulo the prime. *)
Definition sum_num (P Q R : Z * Z) : bool :=
  (let '(x1, y1) := P in let '(x2, y2) := Q in let '(x3, y3) := R in
  let xx := times_num x1 x2 in let yy := times_num y1 y2 in
  let c := times_num D25519 (times_num xx yy) in
  same_class (times_num x3 (1 + c)) (times_num (x1 + y1) (x2 + y2) - (xx + yy)) && same_class (times_num y3 (1 - c)) (yy + xx))%Z.

Definition num_point (P : ed) (n : Z * Z) : Prop := xy P = (Fz (fst n), Fz (snd n)).

Lemma sum_num_spec P Q a b c : num_point P a -> num_point Q b -> sum_num a b c = true -> num_point (P + Q)%G c.
Proof.
  destruct a as [x1 y1], b as [x2 y2], c as [x3 y3]. unfold num_point, sum_num. cbn [fst snd]. intros HP HQ H.
  apply andb_true_iff in H as [Hx%same_class_spec Hy%same_class_spec].
  rewrite ?Fz_sub, ?Fz_times_num, ?Fz_add, ?Fz_sub, ?Fz_times_num, ?Fz_1 in Hx. rewrite ?Fz_times_num, ?Fz_sub, ?Fz_add, ?Fz_times_num, ?Fz_1 in Hy.
  assert (E : cross Pfield (Fz D25519) (xy P) (xy Q) = Zmod.mul (Fz D25519) (Zmod.mul (Zmod.mul (Fz x1) (Fz x2)) (Zmod.mul (Fz y1) (Fz y2)))).
  { rewrite HP, HQ. unfold cross. cbn [fst snd]. by rewrite !Zmod.mul_assoc. }
  apply ed_sum_unique; rewrite E, HP, HQ; cbn [fst snd]; [|exact Hy]. rewrite Hx. ring.
Qed.
