(* ===== verification/Ge25519Base.v ===== *)
(** ge25519_base.data: the multiples 0 to 4 of 8^i times the base point, for i from 0 to 84, in
    affine coordinates; 0 and 1 are written in decimal. *)

From S2P Require Import Prelude.

Definition ge25519_base_multiples_affine : list (list Z * list Z) := [
 ([0; 0; 0; 0; 0; 0; 0; 0; 0; 0; 0; 0; 0; 0; 0; 0;
   0; 0; 0; 0; 0; 0; 0; 0; 0; 0; 0; 0; 0; 0; 0; 0],
  [1; 0; 0; 0; 0; 0; 0; 0; 0; 0; 0; 0; 0; 0; 0; 0;
   0; 0; 0; 0; 0; 0; 0; 0; 0; 0; 0; 0; 0; 0; 0; 0]);
 ([0x1a; 0xd5; 0x25; 0x8f; 0x60; 0x2d; 0x56; 0xc9; 0xb2; 0xa7; 0x25; 0x95; 0x60; 0xc7; 0x2c; 0x69;
   0x5c; 0xdc; 0xd6; 0xfd; 0x31; 0xe2; 0xa4; 0xc0; 0xfe; 0x53; 0x6e; 0xcd; 0xd3; 0x36; 0x69; 0x21],
  [0x58; 0x66; 0x66; 0x66; 0x66; 0x66; 0x66; 0x66; 0x66; 0x66; 0x66; 0x66; 0x66; 0x66; 0x66; 0x66;
   0x66; 0x66; 0x66; 0x66; 0x66; 0x66; 0x66; 0x66; 0x66; 0x66; 0x66; 0x66; 0x66; 0x66; 0x66; 0x66]);
 ([0x0e; 0xce; 0x43; 0x28; 0x4e; 0xa1; 0xc5; 0x83; 0x5f; 0xa4; 0xd7; 0x15; 0x45; 0x8e; 0x0d; 0x08;
   0xac; 0xe7; 0x33; 0x18; 0x7d; 0x3b; 0x04; 0x3d; 0x6c; 0x04; 0x5a; 0x9f; 0x4c; 0x38; 0xab; 0x36],
  [0xc9; 0xa3; 0xf8; 0x6a; 0xae; 0x46; 0x5f; 0x0e; 0x56; 0x51; 0x38; 0x64; 0x51; 0x0f; 0x39; 0x97;
   0x56; 0x1f; 0xa2; 0xc9; 0xe8; 0x5e; 0xa2; 0x1d; 0xc2; 0x29; 0x23; 0x09; 0xf3; 0xcd; 0x60; 0x22]);
 ([0x5c; 0xe2; 0xf8; 0xd3; 0x5f; 0x48; 0x62; 0xac; 0x86; 0x48; 0x62; 0x81; 0x19; 0x98; 0x43; 0x63;
   0x3a; 0xc8; 0xda; 0x3e; 0x74; 0xae; 0xf4; 0x1f; 0x49; 0x8f; 0x92; 0x22; 0x4a; 0x9c; 0xae; 0x67],
  [0xd4; 0xb4; 0xf5; 0x78; 0x48; 0x68; 0xc3; 0x02; 0x04; 0x03; 0x24; 0x67; 0x17; 0xec; 0x16; 0x9f;
   0xf7; 0x9e; 0x26; 0x60; 0x8e; 0xa1; 0x26; 0xa1; 0xab; 0x69; 0xee; 0x77; 0xd1; 0xb1; 0x67; 0x12]);
 ([0x70; 0xf8; 0xc9; 0xc4; 0x57; 0xa6; 0x3a; 0x49; 0x47; 0x15; 0xce; 0x93; 0xc1; 0x9e; 0x73; 0x1a;
   0xf9; 0x20; 0x35; 0x7a; 0xb8; 0xd4; 0x25; 0x83; 0x46; 0xf1; 0xcf; 0x56; 0xdb; 0xa8; 0x3d; 0x20],
  [0x2f; 0x11; 0x32; 0xca; 0x61; 0xab; 0x38; 0xdf; 0xf0; 0x0f; 0x2f; 0xea; 0x32; 0x28; 0xf2; 0x4c;
   0x6c; 0x71; 0xd5; 0x80; 0x85; 0xb8; 0x0e; 0x47; 0xe1; 0x95; 0x15; 0xcb; 0x27; 0xe8; 0xd0; 0x47]);
 ([0; 0; 0; 0; 0; 0; 0; 0; 0; 0; 0; 0; 0; 0; 0; 0;
   0; 0; 0; 0; 0; 0; 0; 0; 0; 0; 0; 0; 0; 0; 0; 0],
  [1; 0; 0; 0; 0; 0; 0; 0; 0; 0; 0; 0; 0; 0; 0; 0;
   0; 0; 0; 0; 0; 0; 0; 0; 0; 0; 0; 0; 0; 0; 0; 0]);
 ([0xc8; 0x84; 0xa5; 0x08; 0xbc; 0xfd; 0x87; 0x3b; 0x99; 0x8b; 0x69; 0x80; 0x7b; 0xc6; 0x3a; 0xeb;
   0x93; 0xcf; 0x4e; 0xf8; 0x5c; 0x2d; 0x86; 0x42; 0xb6; 0x71; 0xd7; 0x97; 0x5f; 0xe1; 0x42; 0x67],
  [0xb4; 0xb9; 0x37; 0xfc; 0xa9; 0x5b; 0x2f; 0x1e; 0x93; 0xe4; 0x1e; 0x62; 0xfc; 0x3c; 0x78; 0x81;
   0x8f; 0xf3; 0x8a; 0x66; 0x09; 0x6f; 0xad; 0x6e; 0x79; 0x73; 0xe5; 0xc9; 0x00; 0x06; 0xd3; 0x21]);
 ([0xf8; 0xf9; 0x28; 0x6c; 0x6d; 0x59; 0xb2; 0x59; 0x74; 0x23; 0xbf; 0xe7; 0x33; 0x8d; 0x57; 0x09;
   0x91; 0x9c; 0x24; 0x08; 0x15; 0x2b; 0xe2; 0xb8; 0xee; 0x3a; 0xe5; 0x27; 0x06; 0x86; 0xa4; 0x23],
  [0xeb; 0x27; 0x67; 0xc1; 0x37; 0xab; 0x7a; 0xd8; 0x27; 0x9c; 0x07; 0x8e; 0xff; 0x11; 0x6a; 0xb0;
   0x78; 0x6e; 0xad; 0x3a; 0x2e; 0x0f; 0x98; 0x9f; 0x72; 0xc3; 0x7f; 0x82; 0xf2; 0x96; 0x96; 0x70]);
 ([0x81; 0x6b; 0x88; 0xe8; 0x1e; 0xc7; 0x77; 0x96; 0x0e; 0xa1; 0xa9; 0x52; 0xe0; 0xd8; 0x0e; 0x61;
   0x9e; 0x79; 0x2d; 0x95; 0x9c; 0x8d; 0x96; 0xe0; 0x06; 0x40; 0x5d; 0x87; 0x28; 0x5f; 0x98; 0x70],
  [0xf1; 0x79; 0x7b; 0xed; 0x4f; 0x44; 0xb2; 0xe7; 0x08; 0x0d; 0xc2; 0x08; 0x12; 0xd2; 0x9f; 0xdf;
   0xcd; 0x93; 0x20; 0x8a; 0xcf; 0x33; 0xca; 0x6d; 0x89; 0xb9; 0x77; 0xc8; 0x93; 0x1b; 0x4e; 0x60]);
 ([0x26; 0x4f; 0x7e; 0x97; 0xf6; 0x40; 0xdd; 0x4f; 0xfc; 0x52; 0x78; 0xf9; 0x90; 0x31; 0x03; 0xe6;
   0x7d; 0x56; 0x39; 0x0b; 0x1d; 0x56; 0x82; 0x85; 0xf9; 0x1a; 0x42; 0x17; 0x69; 0x6c; 0xcf; 0x39],
  [0x69; 0xd2; 0x06; 0x3a; 0x4f; 0x39; 0x2d; 0xf9; 0x38; 0x40; 0x8c; 0x4c; 0xe7; 0x05; 0x12; 0xb4;
   0x78; 0x8b; 0xf8; 0xc0; 0xec; 0x93; 0xde; 0x7a; 0x6b; 0xce; 0x2c; 0xe1; 0x0e; 0xa9; 0x34; 0x44]);
 ([0; 0; 0; 0; 0; 0; 0; 0; 0; 0; 0; 0; 0; 0; 0; 0;
   0; 0; 0; 0; 0; 0; 0; 0; 0; 0; 0; 0; 0; 0; 0; 0],
  [1; 0; 0; 0; 0; 0; 0; 0; 0; 0; 0; 0; 0; 0; 0; 0;
   0; 0; 0; 0; 0; 0; 0; 0; 0; 0; 0; 0; 0; 0; 0; 0]);
 ([0x0b; 0xa4; 0x3c; 0xb0; 0x0f; 0x7a; 0x51; 0xf1; 0x78; 0xd6; 0xd9; 0x6a; 0xfd; 0x46; 0xe8; 0xb8;
   0xa8; 0x79; 0x1d; 0x87; 0xf9; 0x90; 0xf2; 0x9c; 0x13; 0x29; 0xf8; 0x0b; 0x20; 0x64; 0xfa; 0x05],
  [0x26; 0x09; 0xda; 0x17; 0xaf; 0x95; 0xd6; 0xfb; 0x6a; 0x19; 0x0d; 0x6e; 0x5e; 0x12; 0xf1; 0x99;
   0x4c; 0xaa; 0xa8; 0x6f; 0x79; 0x86; 0xf4; 0x72; 0x28; 0x00; 0x26; 0xf9; 0xea; 0x9e; 0x19; 0x3d]);
 ([0x87; 0xdd; 0xcf; 0xf0; 0x5b; 0x49; 0xa2; 0x5d; 0x40; 0x7a; 0x23; 0x26; 0xa4; 0x7a; 0x83; 0x8a;
   0xb7; 0x8b; 0xd2; 0x1a; 0xbf; 0xea; 0x02; 0x24; 0x08; 0x5f; 0x7b; 0xa9; 0xb1; 0xbe; 0x9d; 0x37],
  [0xfc; 0x86; 0x4b; 0x08; 0xee; 0xe7; 0xa0; 0xfd; 0x21; 0x45; 0x09; 0x34; 0xc1; 0x61; 0x32; 0x23;
   0xfc; 0x9b; 0x55; 0x48; 0x53; 0x99; 0xf7; 0x63; 0xd0; 0x99; 0xce; 0x01; 0xe0; 0x9f; 0xeb; 0x28]);
 ([0x47; 0xfc; 0xab; 0x5a; 0x17; 0xf0; 0x85; 0x56; 0x3a; 0x30; 0x86; 0x20; 0x28; 0x4b; 0x8e; 0x44;
   0x74; 0x3a; 0x6e; 0x02; 0xf1; 0x32; 0x8f; 0x9f; 0x3f; 0x08; 0x35; 0xe9; 0xca; 0x16; 0x5f; 0x6e],
  [0x1c; 0x59; 0x1c; 0x65; 0x5d; 0x34; 0xa4; 0x09; 0xcd; 0x13; 0x9c; 0x70; 0x7d; 0xb1; 0x2a; 0xc5;
   0x88; 0xaf; 0x0b; 0x60; 0xc7; 0x9f; 0x34; 0x8d; 0xd6; 0xb7; 0x7f; 0xea; 0x78; 0x65; 0x8d; 0x77]);
 ([0x56; 0xa5; 0xc2; 0x0c; 0xdd; 0xbc; 0xb8; 0x20; 0x6d; 0x57; 0x61; 0xb5; 0xfb; 0x78; 0xb5; 0xd4;
   0x49; 0x54; 0x90; 0x26; 0xc1; 0xcb; 0xe9; 0xe6; 0xbf; 0xec; 0x1d; 0x4e; 0xed; 0x07; 0x7e; 0x5e],
  [0xc7; 0xf6; 0x6c; 0x56; 0x31; 0x20; 0x14; 0x0e; 0xa8; 0xd9; 0x27; 0xc1; 0x9a; 0x3d; 0x1b; 0x7d;
   0x0e; 0x26; 0xd3; 0x81; 0xaa; 0xeb; 0xf5; 0x6b; 0x79; 0x02; 0xf1; 0x51; 0x5c; 0x75; 0x55; 0x0f]);
 ([0; 0; 0; 0; 0; 0; 0; 0; 0; 0; 0; 0; 0; 0; 0; 0;
   0; 0; 0; 0; 0; 0; 0; 0; 0; 0; 0; 0; 0; 0; 0; 0],
  [1; 0; 0; 0; 0; 0; 0; 0; 0; 0; 0; 0; 0; 0; 0; 0;
   0; 0; 0; 0; 0; 0; 0; 0; 0; 0; 0; 0; 0; 0; 0; 0]);
 ([0x0a; 0x34; 0xcd; 0x82; 0x3c; 0x33; 0x09; 0x54; 0xd2; 0x61; 0x39; 0x30; 0x9b; 0xfd; 0xef; 0x21;
   0x26; 0xd4; 0x70; 0xfa; 0xee; 0xf9; 0x31; 0x33; 0x73; 0x84; 0xd0; 0xb3; 0x81; 0xbf; 0xec; 0x2e],
  [0xe8; 0x93; 0x8b; 0x00; 0x64; 0xf7; 0x9c; 0xb8; 0x74; 0xe0; 0xe6; 0x49; 0x48; 0x4d; 0x4d; 0x48;
   0xb6; 0x19; 0xa1; 0x40; 0xb7; 0xd9; 0x32; 0x41; 0x7c; 0x82; 0x37; 0xa1; 0x2d; 0xdc; 0xd2; 0x54]);
 ([0x68; 0x2b; 0x4a; 0x5b; 0xd5; 0xc7; 0x51; 0x91; 0x1d; 0xe1; 0x2a; 0x4b; 0xc4; 0x47; 0xf1; 0xbc;
   0x7a; 0xb3; 0xcb; 0xc8; 0xb6; 0x7c; 0xac; 0x90; 0x05; 0xfd; 0xf3; 0xf9; 0x52; 0x3a; 0x11; 0x6b],
  [0x3d; 0xc1; 0x27; 0xf3; 0x59; 0x43; 0x95; 0x90; 0xc5; 0x96; 0x79; 0xf5; 0xf4; 0x95; 0x65; 0x29;
   0x06; 0x9c; 0x51; 0x05; 0x18; 0xda; 0xb8; 0x2e; 0x79; 0x7e; 0x69; 0x59; 0x71; 0x01; 0xeb; 0x1a]);
 ([0x15; 0x06; 0x49; 0xb6; 0x8a; 0x3c; 0xea; 0x2f; 0x34; 0x20; 0x14; 0xc3; 0xaa; 0xd6; 0xaf; 0x2c;
   0x3e; 0xbd; 0x65; 0x20; 0xe2; 0x4d; 0x4b; 0x3b; 0xeb; 0x9f; 0x4a; 0xc3; 0xad; 0xa4; 0x3b; 0x60],
  [0xbc; 0x58; 0xe6; 0xc0; 0x95; 0x2a; 0x2a; 0x81; 0x9a; 0x7a; 0xf3; 0xd2; 0x06; 0xbe; 0x48; 0xbc;
   0x0c; 0xc5; 0x46; 0xe0; 0x6a; 0xd4; 0xac; 0x0f; 0xd9; 0xcc; 0x82; 0x34; 0x2c; 0xaf; 0xdb; 0x1f]);
 ([0xf7; 0x17; 0x13; 0xbd; 0xfb; 0xbc; 0xd2; 0xec; 0x45; 0xb3; 0x15; 0x31; 0xe9; 0xaf; 0x82; 0x84;
   0x3d; 0x28; 0xc6; 0xfc; 0x11; 0xf5; 0x41; 0xb5; 0x8b; 0xd3; 0x12; 0x76; 0x52; 0xe7; 0x1a; 0x3c],
  [0x4e; 0x36; 0x11; 0x07; 0xa2; 0x15; 0x20; 0x51; 0xc4; 0x2a; 0xc3; 0x62; 0x8b; 0x5e; 0x7f; 0xa6;
   0x0f; 0xf9; 0x45; 0x85; 0x6c; 0x11; 0x86; 0xb7; 0x7e; 0xe5; 0xd7; 0xf9; 0xc3; 0x91; 0x1c; 0x05]);
 ([0; 0; 0; 0; 0; 0; 0; 0; 0; 0; 0; 0; 0; 0; 0; 0;
   0; 0; 0; 0; 0; 0; 0; 0; 0; 0; 0; 0; 0; 0; 0; 0],
  [1; 0; 0; 0; 0; 0; 0; 0; 0; 0; 0; 0; 0; 0; 0; 0;
   0; 0; 0; 0; 0; 0; 0; 0; 0; 0; 0; 0; 0; 0; 0; 0]);
 ([0xea; 0xd6; 0xde; 0x29; 0x3a; 0x00; 0xb9; 0x02; 0x59; 0xcb; 0x26; 0xc4; 0xba; 0x99; 0xb1; 0x97;
   0x2f; 0x8e; 0x00; 0x92; 0x26; 0x4f; 0x52; 0xeb; 0x47; 0x1b; 0x89; 0x8b; 0x24; 0xc0; 0x13; 0x7d],
  [0xd5; 0x20; 0x5b; 0x80; 0xa6; 0x80; 0x20; 0x95; 0xc3; 0xe9; 0x9f; 0x8e; 0x87; 0x9e; 0x1e; 0x9e;
   0x7a; 0xc7; 0xcc; 0x75; 0x6c; 0xa5; 0xf1; 0x91; 0x1a; 0xa8; 0x01; 0x2c; 0xab; 0x76; 0xa9; 0x59]);
 ([0xde; 0xc9; 0xb1; 0x31; 0x10; 0x16; 0xaa; 0x35; 0x14; 0x6a; 0xd4; 0xb5; 0x34; 0x82; 0x71; 0xd2;
   0x4a; 0x5d; 0x9a; 0x1f; 0x53; 0x26; 0x3c; 0xe5; 0x8e; 0x8d; 0x33; 0x7f; 0xff; 0xa9; 0xd5; 0x17],
  [0x89; 0xaf; 0xf6; 0xa4; 0x64; 0xd5; 0x10; 0xe0; 0x1d; 0xad; 0xef; 0x44; 0xbd; 0xda; 0x83; 0xac;
   0x7a; 0xa8; 0xf0; 0x1c; 0x07; 0xf9; 0xc3; 0x43; 0x6c; 0x3f; 0xb7; 0xd3; 0x87; 0x22; 0x02; 0x73]);
 ([0x64; 0x1d; 0x49; 0x13; 0x2f; 0x71; 0xec; 0x69; 0x87; 0xd0; 0x42; 0xee; 0x13; 0xec; 0xe3; 0xed;
   0x56; 0x7b; 0xbf; 0xbd; 0x8c; 0x2f; 0x7d; 0x7b; 0x9d; 0x28; 0xec; 0x8e; 0x76; 0x2f; 0x6f; 0x08],
  [0x22; 0xf5; 0x5f; 0x4d; 0x15; 0xef; 0xfc; 0x4e; 0x57; 0x03; 0x36; 0x89; 0xf0; 0xeb; 0x5b; 0x91;
   0xd6; 0xe2; 0xca; 0x01; 0xa5; 0xee; 0x52; 0xec; 0xa0; 0x3c; 0x8f; 0x33; 0x90; 0x5a; 0x94; 0x72]);
 ([0x8a; 0x4b; 0xe7; 0x38; 0xbc; 0xda; 0xc2; 0xb0; 0x85; 0xe1; 0x4a; 0xfe; 0x2d; 0x44; 0x84; 0xcb;
   0x20; 0x6b; 0x2d; 0xbf; 0x11; 0x9c; 0xd7; 0xbe; 0xd3; 0x3e; 0x5f; 0xbf; 0x68; 0xbc; 0xa8; 0x07],
  [0x01; 0x89; 0x28; 0x22; 0x6a; 0x78; 0xaa; 0x29; 0x03; 0xc8; 0x74; 0x95; 0x03; 0x3e; 0xdc; 0xbd;
   0x07; 0x13; 0xa8; 0xa2; 0x20; 0x2d; 0xb3; 0x18; 0x70; 0x42; 0xfd; 0x7a; 0xc4; 0xd7; 0x49; 0x72]);
 ([0; 0; 0; 0; 0; 0; 0; 0; 0; 0; 0; 0; 0; 0; 0; 0;
   0; 0; 0; 0; 0; 0; 0; 0; 0; 0; 0; 0; 0; 0; 0; 0],
  [1; 0; 0; 0; 0; 0; 0; 0; 0; 0; 0; 0; 0; 0; 0; 0;
   0; 0; 0; 0; 0; 0; 0; 0; 0; 0; 0; 0; 0; 0; 0; 0]);
 ([0x02; 0xff; 0x32; 0x2b; 0x5c; 0x93; 0x54; 0x32; 0xe8; 0x57; 0x54; 0x1a; 0x8b; 0x33; 0x60; 0x65;
   0xd3; 0x67; 0xa4; 0xc1; 0x26; 0xc4; 0xa4; 0x34; 0x1f; 0x9b; 0xa7; 0xa9; 0xf4; 0xd9; 0x4f; 0x5b],
  [0x46; 0x8d; 0xb0; 0x33; 0x54; 0x26; 0x5b; 0x68; 0xdf; 0xbb; 0xc5; 0xec; 0xc2; 0xf9; 0x3c; 0x5a;
   0x37; 0xc1; 0x8e; 0x27; 0x47; 0xaa; 0x49; 0x5a; 0xf8; 0xfb; 0x68; 0x04; 0x23; 0xd1; 0xeb; 0x40]);
 ([0x65; 0xa5; 0x11; 0x84; 0x8a; 0x67; 0x9d; 0x9e; 0xd1; 0x44; 0x68; 0x7a; 0x34; 0xe1; 0x9f; 0xa3;
   0x54; 0xcd; 0x07; 0xca; 0x79; 0x1f; 0x54; 0x2f; 0x13; 0x70; 0x4e; 0xee; 0xa2; 0xfa; 0xe7; 0x5d],
  [0x36; 0xec; 0x54; 0xf8; 0xce; 0xe4; 0x85; 0xdf; 0xf6; 0x6f; 0x1d; 0x90; 0x08; 0xbc; 0xe8; 0xc0;
   0x92; 0x2d; 0x43; 0x6b; 0x92; 0xa9; 0x8e; 0xab; 0x0a; 0x2e; 0x1c; 0x1e; 0x64; 0x23; 0x9f; 0x2c]);
 ([0xa7; 0xd6; 0x2e; 0xd5; 0xcc; 0xd4; 0xcb; 0x5a; 0x3b; 0xa7; 0xf9; 0x46; 0x03; 0x1d; 0xad; 0x2b;
   0x34; 0x31; 0x90; 0x00; 0x46; 0x08; 0x82; 0x14; 0xc4; 0xe0; 0x9c; 0xf0; 0xe3; 0x55; 0x43; 0x31],
  [0x60; 0xd6; 0xdd; 0x78; 0xe6; 0xd4; 0x22; 0x42; 0x1f; 0x00; 0xf9; 0xb1; 0x6a; 0x63; 0xe2; 0x92;
   0x59; 0xd1; 0x1a; 0xb7; 0x00; 0x54; 0x29; 0xc9; 0xc1; 0xf6; 0x6f; 0x7a; 0xc5; 0x3c; 0x5f; 0x65]);
 ([0x27; 0x4f; 0xd0; 0x72; 0xb1; 0x11; 0x14; 0x27; 0x15; 0x94; 0x48; 0x81; 0x7e; 0x74; 0xd8; 0x32;
   0xd5; 0xd1; 0x11; 0x28; 0x60; 0x63; 0x36; 0x32; 0x37; 0xb5; 0x13; 0x1c; 0xa0; 0x37; 0xe3; 0x74],
  [0xf1; 0x25; 0x4e; 0x11; 0x96; 0x67; 0xe6; 0x1c; 0xc2; 0xb2; 0x53; 0xe2; 0xda; 0x85; 0xee; 0xb2;
   0x9f; 0x59; 0xf3; 0xba; 0xbd; 0xfa; 0xcf; 0x6e; 0xf9; 0xda; 0xa4; 0xb3; 0x02; 0x8f; 0x64; 0x08]);
 ([0; 0; 0; 0; 0; 0; 0; 0; 0; 0; 0; 0; 0; 0; 0; 0;
   0; 0; 0; 0; 0; 0; 0; 0; 0; 0; 0; 0; 0; 0; 0; 0],
  [1; 0; 0; 0; 0; 0; 0; 0; 0; 0; 0; 0; 0; 0; 0; 0;
   0; 0; 0; 0; 0; 0; 0; 0; 0; 0; 0; 0; 0; 0; 0; 0]);
 ([0x34; 0x94; 0xf2; 0x64; 0x54; 0x47; 0x37; 0x07; 0x40; 0x8a; 0x20; 0xba; 0x4a; 0x55; 0xd7; 0x3f;
   0x47; 0xba; 0x25; 0x23; 0x14; 0xb0; 0x2c; 0xe8; 0x55; 0xa8; 0xa6; 0xef; 0x51; 0xbd; 0x6f; 0x6a],
  [0x71; 0xd6; 0x16; 0x76; 0xb2; 0x06; 0xea; 0x79; 0xf5; 0xc4; 0xc3; 0x52; 0x7e; 0x61; 0xd1; 0xe1;
   0xad; 0x70; 0x78; 0x1d; 0x16; 0x11; 0xf8; 0x7c; 0x2b; 0xfc; 0x55; 0x9f; 0x52; 0xf8; 0xf5; 0x16]);
 ([0x34; 0x96; 0x9a; 0xf6; 0xc5; 0xe0; 0x14; 0x03; 0x24; 0x0e; 0x4c; 0xad; 0x9e; 0x9a; 0x70; 0x23;
   0x96; 0xb2; 0xf1; 0x2e; 0x9d; 0xc3; 0x32; 0x9b; 0x54; 0xa5; 0x73; 0xde; 0x88; 0xb1; 0x3e; 0x24],
  [0xf6; 0xe2; 0x4c; 0x1f; 0x5b; 0xb2; 0xaf; 0x82; 0xa5; 0xcf; 0x81; 0x10; 0x04; 0xef; 0xdb; 0xa2;
   0xcc; 0x24; 0xb2; 0x7e; 0x0b; 0x7a; 0xeb; 0x01; 0xd8; 0x52; 0xf4; 0x51; 0x89; 0x29; 0x79; 0x37]);
 ([0x74; 0xde; 0x12; 0xf3; 0x68; 0xb7; 0x66; 0xc3; 0xee; 0x68; 0xdc; 0x81; 0xb5; 0x55; 0x99; 0xab;
   0xd9; 0x28; 0x63; 0x6d; 0x8b; 0x40; 0x69; 0x75; 0x6c; 0xcd; 0x5c; 0x2a; 0x7e; 0x32; 0x7b; 0x29],
  [0x02; 0xcc; 0x22; 0x74; 0x4d; 0x19; 0x07; 0xc0; 0xda; 0xb5; 0x76; 0x51; 0x2a; 0xaa; 0xa6; 0x0a;
   0x5f; 0x26; 0xd4; 0xbc; 0xaf; 0x48; 0x88; 0x7f; 0x02; 0xbc; 0xf2; 0xe1; 0xcf; 0xe9; 0xdd; 0x15]);
 ([0xed; 0xb5; 0x9a; 0x8c; 0x9a; 0xdd; 0x27; 0xf4; 0x7f; 0x47; 0xd9; 0x52; 0xa7; 0xcd; 0x65; 0xa5;
   0x31; 0x22; 0xed; 0xa6; 0x63; 0x5b; 0x80; 0x4a; 0xad; 0x4d; 0xed; 0xbf; 0xee; 0x49; 0xb3; 0x06],
  [0xf8; 0x64; 0x8b; 0x60; 0x90; 0xe9; 0xde; 0x44; 0x77; 0xb9; 0x07; 0x36; 0x32; 0xc2; 0x50; 0xf5;
   0x65; 0xdf; 0x48; 0x4c; 0x37; 0xaa; 0x68; 0xab; 0x9a; 0x1f; 0x3e; 0xff; 0x89; 0x92; 0xa0; 0x07]);
 ([0; 0; 0; 0; 0; 0; 0; 0; 0; 0; 0; 0; 0; 0; 0; 0;
   0; 0; 0; 0; 0; 0; 0; 0; 0; 0; 0; 0; 0; 0; 0; 0],
  [1; 0; 0; 0; 0; 0; 0; 0; 0; 0; 0; 0; 0; 0; 0; 0;
   0; 0; 0; 0; 0; 0; 0; 0; 0; 0; 0; 0; 0; 0; 0; 0]);
 ([0x7d; 0x4f; 0x9c; 0x19; 0xc0; 0x4a; 0x31; 0xec; 0xf9; 0xaa; 0xeb; 0xb2; 0x16; 0x9c; 0xa3; 0x66;
   0x5f; 0xd1; 0xd4; 0xed; 0xb8; 0x92; 0x1c; 0xab; 0xda; 0xea; 0xd9; 0x57; 0xdf; 0x4c; 0x2a; 0x48],
  [0x4b; 0xb0; 0x4e; 0x6e; 0x11; 0x3b; 0x51; 0xbd; 0x6a; 0xfd; 0xe4; 0x25; 0xa5; 0x5f; 0x11; 0x3f;
   0x98; 0x92; 0x51; 0x14; 0xc6; 0x5f; 0x3c; 0x0b; 0xa8; 0xf7; 0xc2; 0x81; 0x43; 0xde; 0x91; 0x73]);
 ([0x3c; 0x8f; 0x9f; 0x33; 0x2a; 0x1f; 0x43; 0x33; 0x8f; 0x68; 0xff; 0x1f; 0x3d; 0x73; 0x6b; 0xbf;
   0x68; 0xcc; 0x7d; 0x13; 0x6c; 0x24; 0x4b; 0xcc; 0x4d; 0x24; 0x0d; 0xfe; 0xde; 0x86; 0xad; 0x3b],
  [0x79; 0x51; 0x81; 0x01; 0xdc; 0x73; 0x53; 0xe0; 0x6e; 0x9b; 0xea; 0x68; 0x3f; 0x5c; 0x14; 0x84;
   0x53; 0x8d; 0x4b; 0xc0; 0x9f; 0x9f; 0x89; 0x2b; 0x8c; 0xba; 0x86; 0xfa; 0xf2; 0xcd; 0xe3; 0x2d]);
 ([0x06; 0xf9; 0x29; 0x5a; 0xdb; 0x3d; 0x84; 0x52; 0xab; 0xcc; 0x6b; 0x60; 0x9d; 0xb7; 0x4a; 0x0e;
   0x36; 0x63; 0x91; 0xad; 0xa0; 0x95; 0xb0; 0x97; 0x89; 0x4e; 0xcf; 0x7d; 0x3c; 0xe5; 0x7c; 0x28],
  [0x2e; 0x69; 0x98; 0xfd; 0xc6; 0xbd; 0xcc; 0xca; 0xdf; 0x9a; 0x44; 0x7e; 0x9d; 0xca; 0x89; 0x6d;
   0xbf; 0x27; 0xc2; 0xf8; 0xcd; 0x46; 0x00; 0x2b; 0xb5; 0x58; 0x4e; 0xb7; 0x89; 0x09; 0xe9; 0x2d]);
 ([0x54; 0xbe; 0x75; 0xcb; 0x05; 0xb0; 0x54; 0xb7; 0xe7; 0x26; 0x86; 0x4a; 0xfc; 0x19; 0xcf; 0x27;
   0x46; 0xd4; 0x22; 0x96; 0x5a; 0x11; 0xe8; 0xd5; 0x1b; 0xed; 0x71; 0xc5; 0x5d; 0xc8; 0xaf; 0x45],
  [0x40; 0x7b; 0x77; 0x57; 0x49; 0x9e; 0x80; 0x39; 0x23; 0xee; 0x81; 0x0b; 0x22; 0xcf; 0xdb; 0x7a;
   0x2f; 0x14; 0xb8; 0x57; 0x8f; 0xa1; 0x39; 0x1e; 0x77; 0xfc; 0x0b; 0xa6; 0xbf; 0x8a; 0x0c; 0x6c]);
 ([0; 0; 0; 0; 0; 0; 0; 0; 0; 0; 0; 0; 0; 0; 0; 0;
   0; 0; 0; 0; 0; 0; 0; 0; 0; 0; 0; 0; 0; 0; 0; 0],
  [1; 0; 0; 0; 0; 0; 0; 0; 0; 0; 0; 0; 0; 0; 0; 0;
   0; 0; 0; 0; 0; 0; 0; 0; 0; 0; 0; 0; 0; 0; 0; 0]);
 ([0x77; 0x3a; 0xd4; 0xd8; 0x27; 0xcf; 0xe8; 0xa1; 0x72; 0x9d; 0xca; 0xdd; 0x0d; 0x96; 0xda; 0x79;
   0xed; 0x56; 0x42; 0x15; 0x60; 0xc7; 0x1c; 0x6b; 0x26; 0x30; 0xf6; 0x6a; 0x95; 0x67; 0xf3; 0x0a],
  [0xc5; 0x08; 0xa4; 0x2b; 0x2f; 0xbd; 0x31; 0x81; 0x2a; 0xa6; 0xb6; 0xe4; 0x00; 0x91; 0xda; 0x3d;
   0xb2; 0xb0; 0x96; 0xce; 0x8a; 0xd2; 0x8d; 0x70; 0xb3; 0xd3; 0x34; 0x01; 0x90; 0x8d; 0x10; 0x21]);
 ([0x33; 0x0d; 0xe7; 0xba; 0x4f; 0x07; 0xdf; 0x8d; 0xea; 0x7d; 0xa0; 0xc5; 0xd6; 0xb1; 0xb0; 0xe5;
   0x57; 0x1b; 0x5b; 0xf5; 0x45; 0x13; 0x14; 0x64; 0x5a; 0xeb; 0x5c; 0xfc; 0x54; 0x01; 0x76; 0x2b],
  [0x02; 0x0c; 0xc2; 0xaf; 0x96; 0x36; 0xfe; 0x4a; 0xe2; 0x54; 0x20; 0x6a; 0xeb; 0xb2; 0x9f; 0x62;
   0xd7; 0xce; 0xa2; 0x3f; 0x20; 0x11; 0x34; 0x37; 0xe0; 0x42; 0xed; 0x6f; 0xf9; 0x1a; 0xc8; 0x7d]);
 ([0xd8; 0xb9; 0x11; 0xe8; 0x36; 0x3f; 0x42; 0xc1; 0xca; 0xdc; 0xd3; 0xf1; 0xc8; 0x23; 0x3d; 0x4f;
   0x51; 0x7b; 0x9d; 0x8d; 0xd8; 0xe4; 0xa0; 0xaa; 0xf3; 0x04; 0xd6; 0x11; 0x93; 0xc8; 0x35; 0x45],
  [0x61; 0x36; 0xd6; 0x08; 0x90; 0xbf; 0xa7; 0x7a; 0x97; 0x6c; 0x0f; 0x84; 0xd5; 0x33; 0x2d; 0x37;
   0xc9; 0x6a; 0x80; 0x90; 0x3d; 0x0a; 0xa2; 0xaa; 0xe1; 0xb8; 0x84; 0xba; 0x61; 0x36; 0xdd; 0x69]);
 ([0x6b; 0xdb; 0x5b; 0x9c; 0xc6; 0x92; 0xbc; 0x23; 0xaf; 0xc5; 0xb8; 0x75; 0xf8; 0x42; 0xfa; 0xd6;
   0xb6; 0x84; 0x94; 0x63; 0x98; 0x93; 0x48; 0x78; 0x38; 0xcd; 0xbb; 0x18; 0x34; 0xc3; 0xdb; 0x67],
  [0x96; 0xf3; 0x3a; 0x09; 0x56; 0xb0; 0x6f; 0x7c; 0x51; 0x1e; 0x1b; 0x39; 0x48; 0xea; 0xc9; 0x0c;
   0x25; 0xa2; 0x7a; 0xca; 0xe7; 0x92; 0xfc; 0x59; 0x30; 0xa3; 0x89; 0x85; 0xdf; 0x6f; 0x43; 0x38]);
 ([0; 0; 0; 0; 0; 0; 0; 0; 0; 0; 0; 0; 0; 0; 0; 0;
   0; 0; 0; 0; 0; 0; 0; 0; 0; 0; 0; 0; 0; 0; 0; 0],
  [1; 0; 0; 0; 0; 0; 0; 0; 0; 0; 0; 0; 0; 0; 0; 0;
   0; 0; 0; 0; 0; 0; 0; 0; 0; 0; 0; 0; 0; 0; 0; 0]);
 ([0x79; 0x84; 0x44; 0x19; 0xbd; 0xe9; 0x54; 0xc4; 0xc0; 0x6e; 0x2a; 0xa8; 0xa8; 0x9b; 0x43; 0xd5;
   0x71; 0x22; 0x5f; 0xdc; 0x01; 0xfa; 0xdf; 0xb3; 0xb8; 0x47; 0x4b; 0x0a; 0xa5; 0x44; 0xea; 0x29],
  [0x05; 0x90; 0x50; 0xaf; 0x63; 0x5f; 0x9d; 0x9e; 0xe1; 0x9d; 0x38; 0x97; 0x1f; 0x6c; 0xac; 0x30;
   0x46; 0xb2; 0x6a; 0x19; 0xd1; 0x4b; 0xdb; 0xbb; 0x8c; 0xda; 0x2e; 0xab; 0xc8; 0x5a; 0x77; 0x6c]);
 ([0x2b; 0xbe; 0xaf; 0xa1; 0x6d; 0x2f; 0x0b; 0xb1; 0x8f; 0xe3; 0xe0; 0x38; 0xcd; 0x0b; 0x41; 0x1b;
   0x4a; 0x15; 0x07; 0xf3; 0x6f; 0xdc; 0xb8; 0xe9; 0xde; 0xb2; 0xa3; 0x40; 0x01; 0xa6; 0x45; 0x1e],
  [0x76; 0x0a; 0xda; 0x8d; 0x2c; 0x07; 0x3f; 0x89; 0x7d; 0x04; 0xad; 0x43; 0x50; 0x6e; 0xd2; 0x47;
   0xcb; 0x8a; 0xe6; 0x85; 0x1a; 0x24; 0xf3; 0xd2; 0x60; 0xfd; 0xdf; 0x73; 0xa4; 0x0d; 0x73; 0x0e]);
 ([0xfd; 0x67; 0x6b; 0x71; 0x9b; 0x81; 0x53; 0x39; 0x39; 0xf4; 0xb8; 0xd5; 0xc3; 0x30; 0x9b; 0x3b;
   0x7c; 0xa3; 0xf0; 0xd0; 0x84; 0x21; 0xd6; 0xbf; 0xb7; 0x4c; 0x87; 0x13; 0x45; 0x2d; 0xa7; 0x55],
  [0x5d; 0x04; 0xb3; 0x40; 0x28; 0x95; 0x2d; 0x30; 0x83; 0xec; 0x5e; 0xe4; 0xff; 0x75; 0xfe; 0x79;
   0x26; 0x9d; 0x1d; 0x36; 0xcd; 0x0a; 0x15; 0xd2; 0x24; 0x14; 0x77; 0x71; 0xd7; 0x8a; 0x1b; 0x04]);
 ([0x5d; 0x93; 0xc9; 0xbe; 0xaa; 0x90; 0xcd; 0x9b; 0xfb; 0x73; 0x7e; 0xb0; 0x64; 0x98; 0x57; 0x44;
   0x42; 0x41; 0xb1; 0xaf; 0xea; 0xc1; 0xc3; 0x22; 0xff; 0x60; 0x46; 0xcb; 0x61; 0x81; 0x70; 0x61],
  [0x0d; 0x82; 0xb9; 0xfe; 0x21; 0xcd; 0xc4; 0xf5; 0x98; 0x0c; 0x4e; 0x72; 0xee; 0x87; 0x49; 0xf8;
   0xa1; 0x95; 0xdf; 0x8f; 0x2d; 0xbd; 0x21; 0x06; 0x7c; 0x15; 0xe8; 0x12; 0x6d; 0x93; 0xd6; 0x38]);
 ([0; 0; 0; 0; 0; 0; 0; 0; 0; 0; 0; 0; 0; 0; 0; 0;
   0; 0; 0; 0; 0; 0; 0; 0; 0; 0; 0; 0; 0; 0; 0; 0],
  [1; 0; 0; 0; 0; 0; 0; 0; 0; 0; 0; 0; 0; 0; 0; 0;
   0; 0; 0; 0; 0; 0; 0; 0; 0; 0; 0; 0; 0; 0; 0; 0]);
 ([0x91; 0xf7; 0x51; 0xd9; 0xef; 0x7d; 0x42; 0x01; 0x13; 0xe9; 0xb8; 0x7f; 0xa6; 0x49; 0x17; 0x64;
   0x21; 0x80; 0x83; 0x2c; 0x63; 0x4c; 0x60; 0x09; 0x59; 0x91; 0x92; 0x77; 0x39; 0x51; 0xf4; 0x48],
  [0x60; 0xd5; 0x22; 0x83; 0x08; 0x2f; 0xff; 0x99; 0x3e; 0x69; 0x6d; 0x88; 0xda; 0xe7; 0x5b; 0x52;
   0x26; 0x31; 0x2a; 0xe5; 0x89; 0xde; 0x68; 0x90; 0xb6; 0x22; 0x5a; 0xbd; 0xd3; 0x85; 0x53; 0x31]);
 ([0xd8; 0xce; 0xdc; 0xf9; 0x3c; 0x4b; 0xa2; 0x1d; 0x2c; 0x2f; 0x36; 0xbe; 0x7a; 0xfc; 0xcd; 0xbc;
   0xdc; 0xf9; 0x30; 0xbd; 0xff; 0x05; 0xc7; 0xe4; 0x8e; 0x17; 0x62; 0xf8; 0x4d; 0xa0; 0x56; 0x79],
  [0x82; 0xe7; 0xf6; 0xba; 0x53; 0x84; 0x0a; 0xa3; 0x34; 0xff; 0x3c; 0xa3; 0x6a; 0xa1; 0x37; 0xea;
   0xdd; 0xb6; 0x95; 0xb3; 0x78; 0x19; 0x76; 0x1e; 0x55; 0x2f; 0x77; 0x2e; 0x7f; 0xc1; 0xea; 0x5e]);
 ([0x83; 0xe1; 0x6e; 0xa9; 0x07; 0x33; 0x3e; 0x83; 0xff; 0xcb; 0x1c; 0x9f; 0xb1; 0xa3; 0xb4; 0xc9;
   0xe1; 0x07; 0x97; 0xff; 0xf8; 0x23; 0x8f; 0xce; 0x40; 0xfd; 0x2e; 0x5e; 0xdb; 0x16; 0x43; 0x2d],
  [0xba; 0x38; 0x02; 0xf7; 0x81; 0x43; 0x83; 0xa3; 0x20; 0x4f; 0x01; 0x3b; 0x8a; 0x04; 0x38; 0x31;
   0xc6; 0x0f; 0xc8; 0xdf; 0xd7; 0xfa; 0x2f; 0x88; 0x3f; 0xfc; 0x0c; 0x76; 0xc4; 0xa6; 0x45; 0x72]);
 ([0xbb; 0x0c; 0xbc; 0x6a; 0xa4; 0x97; 0x17; 0x93; 0x2d; 0x6f; 0xde; 0x72; 0x10; 0x1c; 0x08; 0x2c;
   0x0f; 0x80; 0x32; 0x68; 0x27; 0xd4; 0xab; 0xdd; 0xc5; 0x58; 0x61; 0x13; 0x6d; 0x11; 0x1e; 0x4d],
  [0x1a; 0xb9; 0xc9; 0x10; 0xfb; 0x1e; 0x4e; 0xf4; 0x84; 0x4b; 0x8a; 0x5e; 0x7b; 0x4b; 0xe8; 0x43;
   0x8c; 0x8f; 0x00; 0xb5; 0x54; 0x13; 0xc5; 0x5c; 0xb6; 0x35; 0x4e; 0x9d; 0xe4; 0x5b; 0x41; 0x6d]);
 ([0; 0; 0; 0; 0; 0; 0; 0; 0; 0; 0; 0; 0; 0; 0; 0;
   0; 0; 0; 0; 0; 0; 0; 0; 0; 0; 0; 0; 0; 0; 0; 0],
  [1; 0; 0; 0; 0; 0; 0; 0; 0; 0; 0; 0; 0; 0; 0; 0;
   0; 0; 0; 0; 0; 0; 0; 0; 0; 0; 0; 0; 0; 0; 0; 0]);
 ([0x15; 0x7d; 0x12; 0x48; 0x82; 0x14; 0x42; 0xcd; 0x32; 0xd4; 0x4b; 0xc1; 0x72; 0x61; 0x2a; 0x8c;
   0xec; 0xe2; 0xf8; 0x24; 0x45; 0x94; 0xe3; 0xbe; 0xdd; 0x67; 0xa8; 0x77; 0x5a; 0xae; 0x5b; 0x4b],
  [0xcb; 0x77; 0x9a; 0x20; 0xde; 0xb8; 0x23; 0xd9; 0xa0; 0x0f; 0x8c; 0x7b; 0xa5; 0xcb; 0xae; 0xb6;
   0xec; 0x42; 0x67; 0x0e; 0x58; 0xa4; 0x75; 0x98; 0x21; 0x71; 0x84; 0xb3; 0xe0; 0x76; 0x94; 0x73]);
 ([0xdf; 0xfc; 0x69; 0x28; 0x23; 0x3f; 0x5b; 0xf8; 0x3b; 0x24; 0x37; 0xf3; 0x1d; 0xd5; 0x22; 0x6b;
   0xd0; 0x98; 0xa8; 0x6c; 0xcf; 0xff; 0x06; 0xe1; 0x13; 0xdf; 0xb9; 0xc1; 0x0c; 0xa9; 0xbf; 0x33],
  [0xd9; 0x81; 0xda; 0xb2; 0x4f; 0x82; 0x9d; 0x43; 0x81; 0x09; 0xf1; 0xd2; 0x01; 0xef; 0xac; 0xf4;
   0x2d; 0x7d; 0x01; 0x09; 0xf1; 0xff; 0xa5; 0x9f; 0xe5; 0xca; 0x27; 0x63; 0xdb; 0x20; 0xb1; 0x53]);
 ([0x67; 0x02; 0xe8; 0xad; 0xa9; 0x34; 0xd4; 0xf0; 0x15; 0x81; 0xaa; 0xc7; 0x4d; 0x87; 0x94; 0xea;
   0x75; 0xe7; 0x4c; 0x94; 0x04; 0x0e; 0x69; 0x87; 0xe7; 0x51; 0x91; 0x10; 0x03; 0xc7; 0xbe; 0x56],
  [0x32; 0xfb; 0x86; 0xec; 0x33; 0x6b; 0x2e; 0x51; 0x2b; 0xc8; 0xfa; 0x6c; 0x70; 0x47; 0x7e; 0xce;
   0x05; 0x0c; 0x71; 0xf3; 0xb4; 0x56; 0xa6; 0xdc; 0xcc; 0x78; 0x07; 0x75; 0xd0; 0xdd; 0xb2; 0x6a]);
 ([0xc6; 0xef; 0xb9; 0xc0; 0x2b; 0x22; 0x08; 0x1e; 0x71; 0x70; 0xb3; 0x35; 0x9c; 0x7a; 0x01; 0x92;
   0x44; 0x9a; 0xf6; 0xb0; 0x58; 0x95; 0xc1; 0x9b; 0x02; 0xed; 0x2d; 0x7c; 0x34; 0x29; 0x49; 0x44],
  [0x45; 0x62; 0x1d; 0x2e; 0xff; 0x2a; 0x1c; 0x21; 0xa4; 0x25; 0x7b; 0x0d; 0x8c; 0x15; 0x39; 0xfc;
   0x8f; 0x7c; 0xa5; 0x7d; 0x1e; 0x25; 0xa3; 0x45; 0xd6; 0xab; 0xbd; 0xcb; 0xc5; 0x5e; 0x78; 0x77]);
 ([0; 0; 0; 0; 0; 0; 0; 0; 0; 0; 0; 0; 0; 0; 0; 0;
   0; 0; 0; 0; 0; 0; 0; 0; 0; 0; 0; 0; 0; 0; 0; 0],
  [1; 0; 0; 0; 0; 0; 0; 0; 0; 0; 0; 0; 0; 0; 0; 0;
   0; 0; 0; 0; 0; 0; 0; 0; 0; 0; 0; 0; 0; 0; 0; 0]);
 ([0xd0; 0xd3; 0x42; 0xed; 0x1d; 0x00; 0x3c; 0x15; 0x2c; 0x9c; 0x77; 0x81; 0xd2; 0x73; 0xd1; 0x06;
   0xd5; 0xc4; 0x7f; 0x94; 0xbb; 0x92; 0x2d; 0x2c; 0x4b; 0x45; 0x4b; 0xe9; 0x2a; 0x89; 0x6b; 0x2b],
  [0xd2; 0x0c; 0x88; 0xc5; 0x48; 0x4d; 0xea; 0x0d; 0x4a; 0xc9; 0x52; 0x6a; 0x61; 0x79; 0xe9; 0x76;
   0xf3; 0x85; 0x52; 0x5c; 0x1b; 0x2c; 0xe1; 0xd6; 0xc4; 0x0f; 0x18; 0x0e; 0x4e; 0xf6; 0x1c; 0x7f]);
 ([0xb4; 0x04; 0x2e; 0x42; 0xcb; 0x1f; 0x2b; 0x11; 0x51; 0x7b; 0x08; 0xac; 0xaa; 0x3e; 0x9e; 0x52;
   0x60; 0xb7; 0xc2; 0x61; 0x57; 0x8c; 0x84; 0xd5; 0x18; 0xa6; 0x19; 0xfc; 0xb7; 0x75; 0x91; 0x1b],
  [0xe8; 0x68; 0xca; 0x44; 0xc8; 0x38; 0x38; 0xcc; 0x53; 0x0a; 0x32; 0x35; 0xcc; 0x52; 0xcb; 0x0e;
   0xf7; 0xc5; 0xe7; 0xec; 0x3d; 0x85; 0xcc; 0x58; 0xe2; 0x17; 0x47; 0xff; 0x9f; 0xa5; 0x30; 0x17]);
 ([0xe3; 0xae; 0xc8; 0xc1; 0x71; 0x75; 0x31; 0x00; 0x37; 0x41; 0x5c; 0x0e; 0x39; 0xda; 0x73; 0xa0;
   0xc7; 0x97; 0x36; 0x6c; 0x5b; 0xf2; 0xee; 0x64; 0x0a; 0x3d; 0x89; 0x1e; 0x1d; 0x49; 0x8c; 0x37],
  [0x4c; 0xe6; 0xb0; 0xc1; 0xa5; 0x2a; 0x82; 0x09; 0x08; 0xad; 0x79; 0x9c; 0x56; 0xf6; 0xf9; 0xc1;
   0xd7; 0x7c; 0x39; 0x7f; 0x93; 0xca; 0x11; 0x55; 0xbf; 0x07; 0x1b; 0x82; 0x29; 0x69; 0x95; 0x5c]);
 ([0x87; 0xee; 0xa6; 0x56; 0x9e; 0xc2; 0x9a; 0x56; 0x24; 0x42; 0x85; 0x4d; 0x98; 0x31; 0x1e; 0x60;
   0x4d; 0x87; 0x85; 0x04; 0xae; 0x46; 0x12; 0xf9; 0x8e; 0x7f; 0xe4; 0x7f; 0xf6; 0x1c; 0x37; 0x01],
  [0x73; 0x4c; 0xb6; 0xc5; 0xc4; 0xe9; 0x6c; 0x85; 0x48; 0x4a; 0x5a; 0xac; 0xd9; 0x1f; 0x43; 0xf8;
   0x62; 0x5b; 0xee; 0x98; 0x2a; 0x33; 0x8e; 0x79; 0xce; 0x61; 0x06; 0x35; 0xd8; 0xd7; 0xca; 0x71]);
 ([0; 0; 0; 0; 0; 0; 0; 0; 0; 0; 0; 0; 0; 0; 0; 0;
   0; 0; 0; 0; 0; 0; 0; 0; 0; 0; 0; 0; 0; 0; 0; 0],
  [1; 0; 0; 0; 0; 0; 0; 0; 0; 0; 0; 0; 0; 0; 0; 0;
   0; 0; 0; 0; 0; 0; 0; 0; 0; 0; 0; 0; 0; 0; 0; 0]);
 ([0x72; 0xd3; 0xae; 0xa6; 0xca; 0x8f; 0xcd; 0xcc; 0x78; 0x8e; 0x19; 0x4d; 0xa7; 0xd2; 0x27; 0xe9;
   0xa4; 0x3c; 0x16; 0x5b; 0x84; 0x80; 0xf9; 0xd0; 0xcc; 0x6a; 0x1e; 0xca; 0x1e; 0x67; 0xbd; 0x63],
  [0x7b; 0x6e; 0x2a; 0xd2; 0x87; 0x48; 0xff; 0xa1; 0xca; 0xe9; 0x15; 0x85; 0xdc; 0xdb; 0x2c; 0x39;
   0x12; 0x91; 0xa9; 0x20; 0xaa; 0x4f; 0x29; 0xf4; 0x15; 0x7a; 0xd2; 0xf5; 0x32; 0xcc; 0x60; 0x04]);
 ([0xe5; 0x10; 0x47; 0x3b; 0xfa; 0x90; 0xfc; 0x30; 0xb5; 0xea; 0x6f; 0x56; 0x8f; 0xfb; 0x0e; 0xa7;
   0x3b; 0xc8; 0xb2; 0xff; 0x02; 0x7a; 0x33; 0x94; 0x93; 0x2a; 0x03; 0xe0; 0x96; 0x3a; 0x6c; 0x0f],
  [0x5a; 0x63; 0x67; 0xe1; 0x9b; 0x47; 0x78; 0x9f; 0x38; 0x79; 0xac; 0x97; 0x66; 0x1d; 0x5e; 0x51;
   0xee; 0x24; 0x42; 0xe8; 0x58; 0x4b; 0x8a; 0x03; 0x75; 0x86; 0x37; 0x86; 0xe2; 0x97; 0x4e; 0x3d]);
 ([0x3f; 0x75; 0x8e; 0xb4; 0xff; 0xd8; 0xdd; 0xd6; 0x37; 0x57; 0x9d; 0x6d; 0x3b; 0xbd; 0xd5; 0x60;
   0x88; 0x65; 0x9a; 0xb9; 0x4a; 0x68; 0x84; 0xa2; 0x67; 0xdd; 0x17; 0x25; 0x97; 0x04; 0x8b; 0x5e],
  [0xbb; 0x40; 0x5e; 0xbc; 0x16; 0x92; 0x05; 0xc4; 0xc0; 0x4e; 0x72; 0x90; 0x0e; 0xab; 0xcf; 0x8a;
   0xed; 0xef; 0xb9; 0x2d; 0x3b; 0xf8; 0x43; 0x5b; 0xba; 0x2d; 0xeb; 0x2f; 0x52; 0xd2; 0xd1; 0x5a]);
 ([0x40; 0xb4; 0xab; 0xe6; 0xad; 0x9f; 0x46; 0x69; 0x4a; 0xb3; 0x8e; 0xaa; 0xea; 0x9c; 0x8a; 0x20;
   0x16; 0x5d; 0x8c; 0x13; 0xbd; 0xf6; 0x1d; 0xc5; 0x24; 0xbd; 0x90; 0x2a; 0x1c; 0xc7; 0x13; 0x3b],
  [0x54; 0xdc; 0x16; 0x0d; 0x18; 0xbe; 0x35; 0x64; 0x61; 0x52; 0x02; 0x80; 0xaf; 0x05; 0xf7; 0xa6;
   0x42; 0xd3; 0x8f; 0x2e; 0x79; 0x26; 0xa8; 0xbb; 0xb2; 0x17; 0x48; 0xb2; 0x7a; 0x0a; 0x89; 0x14]);
 ([0; 0; 0; 0; 0; 0; 0; 0; 0; 0; 0; 0; 0; 0; 0; 0;
   0; 0; 0; 0; 0; 0; 0; 0; 0; 0; 0; 0; 0; 0; 0; 0],
  [1; 0; 0; 0; 0; 0; 0; 0; 0; 0; 0; 0; 0; 0; 0; 0;
   0; 0; 0; 0; 0; 0; 0; 0; 0; 0; 0; 0; 0; 0; 0; 0]);
 ([0x20; 0xa8; 0x88; 0xe3; 0x91; 0xc0; 0x6e; 0xbb; 0x8a; 0x27; 0x82; 0x51; 0x83; 0xb2; 0x28; 0xa9;
   0x83; 0xeb; 0xa6; 0xa9; 0x4d; 0x17; 0x59; 0x22; 0x54; 0x00; 0x50; 0x45; 0xcb; 0x48; 0x4b; 0x18],
  [0x33; 0x7c; 0xe7; 0x26; 0xba; 0x4d; 0x32; 0xfe; 0x53; 0xf4; 0xfa; 0x83; 0xe3; 0xa5; 0x79; 0x66;
   0x73; 0xef; 0x80; 0x23; 0x68; 0xc2; 0x60; 0xdd; 0xa9; 0x33; 0xdc; 0x03; 0x7a; 0xe0; 0xe0; 0x3e]);
 ([0x34; 0x5c; 0x13; 0xfb; 0xc0; 0xe3; 0x78; 0x2b; 0x54; 0x58; 0x22; 0x9b; 0x76; 0x81; 0x7f; 0x93;
   0x9c; 0x25; 0x3c; 0xd2; 0xe9; 0x96; 0x21; 0x26; 0x08; 0xf5; 0xed; 0x95; 0x11; 0xae; 0x04; 0x5a],
  [0xb9; 0xe8; 0xc5; 0x12; 0x97; 0x1f; 0x83; 0xfe; 0x3e; 0x94; 0x99; 0xd4; 0x2d; 0xf9; 0x52; 0x59;
   0x5c; 0x82; 0xa6; 0xf0; 0x75; 0x7e; 0xe8; 0xec; 0xcc; 0xac; 0x18; 0x21; 0x09; 0x67; 0x66; 0x67]);
 ([0xb3; 0x40; 0x29; 0xd1; 0xcb; 0x1b; 0x08; 0x9e; 0x9c; 0xb7; 0x53; 0xb9; 0x3b; 0x71; 0x08; 0x95;
   0x12; 0x1a; 0x58; 0xaf; 0x7e; 0x82; 0x52; 0x43; 0x4f; 0x11; 0x39; 0xf4; 0x93; 0x1a; 0x26; 0x05],
  [0x6e; 0x44; 0xa3; 0xf9; 0x64; 0xaf; 0xe7; 0x6d; 0x7d; 0xdf; 0x1e; 0xac; 0x04; 0xea; 0x3b; 0x5f;
   0x9b; 0xe8; 0x24; 0x9d; 0x0e; 0xe5; 0x2e; 0x3e; 0xdf; 0xa9; 0xf7; 0xd4; 0x50; 0x71; 0xf0; 0x78]);
 ([0x3e; 0xa8; 0x38; 0xc2; 0x57; 0x56; 0x42; 0x9a; 0xb1; 0xe2; 0xf8; 0x45; 0xaa; 0x11; 0x48; 0x5f;
   0x17; 0xc4; 0x54; 0x27; 0xdc; 0x5d; 0xaa; 0xdd; 0x41; 0xbc; 0xdf; 0x81; 0xb9; 0x53; 0xee; 0x52],
  [0xc3; 0xf1; 0xa7; 0x6d; 0xb3; 0x5f; 0x92; 0x6f; 0xcc; 0x91; 0xb8; 0x95; 0x05; 0xdf; 0x3c; 0x64;
   0x57; 0x39; 0x61; 0x51; 0xad; 0x8c; 0x38; 0x7b; 0xc8; 0xde; 0x00; 0x34; 0xbe; 0xa1; 0xb0; 0x7e]);
 ([0; 0; 0; 0; 0; 0; 0; 0; 0; 0; 0; 0; 0; 0; 0; 0;
   0; 0; 0; 0; 0; 0; 0; 0; 0; 0; 0; 0; 0; 0; 0; 0],
  [1; 0; 0; 0; 0; 0; 0; 0; 0; 0; 0; 0; 0; 0; 0; 0;
   0; 0; 0; 0; 0; 0; 0; 0; 0; 0; 0; 0; 0; 0; 0; 0]);
 ([0x25; 0x24; 0x1d; 0x8a; 0x67; 0x20; 0xee; 0x42; 0xeb; 0x38; 0xed; 0x0b; 0x8b; 0xcd; 0x46; 0x9d;
   0x5e; 0x6b; 0x1e; 0x24; 0x9d; 0x12; 0x05; 0x1a; 0xcc; 0x05; 0x4e; 0x92; 0x38; 0xe1; 0x1f; 0x50],
  [0x4e; 0xee; 0x1c; 0x91; 0xe6; 0x11; 0xbd; 0x8e; 0x55; 0x1a; 0x18; 0x75; 0x66; 0xaf; 0x4d; 0x7b;
   0x0f; 0xae; 0x6d; 0x85; 0xca; 0x82; 0x58; 0x21; 0x9c; 0x18; 0xe0; 0xed; 0xec; 0x22; 0x80; 0x2f]);
 ([0x68; 0x3b; 0x0a; 0x39; 0x1d; 0x6a; 0x15; 0x57; 0xfc; 0xf0; 0x63; 0x54; 0xdb; 0x39; 0xdb; 0xe8;
   0x5c; 0x64; 0xff; 0xa0; 0x09; 0x4f; 0x3b; 0xb7; 0x32; 0x60; 0x99; 0x94; 0xfd; 0x94; 0x82; 0x2d],
  [0x24; 0xf6; 0x5a; 0x44; 0xf1; 0x55; 0x2c; 0xdb; 0xea; 0x7c; 0x84; 0x7c; 0x01; 0xac; 0xe3; 0xfd;
   0xc9; 0x27; 0xc1; 0x5a; 0xb9; 0xde; 0x4f; 0x5a; 0x90; 0xdd; 0xc6; 0x67; 0xaa; 0x6f; 0x8a; 0x3a]);
 ([0x78; 0x52; 0x87; 0xc9; 0x97; 0x63; 0xb1; 0xdd; 0x54; 0x5f; 0xc1; 0xf8; 0xf1; 0x06; 0xa6; 0xa8;
   0xa3; 0x88; 0x82; 0xd4; 0xcb; 0xa6; 0x19; 0xdd; 0xd1; 0x11; 0x87; 0x08; 0x17; 0x4c; 0x37; 0x2a],
  [0xa1; 0x0c; 0xf3; 0x08; 0x43; 0xd9; 0x24; 0x1e; 0x83; 0xa7; 0xdf; 0x91; 0xca; 0xbd; 0x69; 0x47;
   0x8d; 0x1b; 0xe2; 0xb9; 0x4e; 0xb5; 0xe1; 0x76; 0xb3; 0x1c; 0x93; 0x03; 0xce; 0x5f; 0xb3; 0x5a]);
 ([0x1d; 0xda; 0xe4; 0x61; 0x03; 0x50; 0xa9; 0x8b; 0x68; 0x18; 0xef; 0xb2; 0x1c; 0x84; 0x3b; 0xa2;
   0x44; 0x95; 0xa3; 0x04; 0x3b; 0xd6; 0x99; 0x00; 0xaf; 0x76; 0x42; 0x67; 0x02; 0x7d; 0x85; 0x56],
  [0xce; 0x72; 0x0e; 0x29; 0x84; 0xb2; 0x7d; 0xd2; 0x45; 0xbe; 0x57; 0x06; 0xed; 0x7f; 0xcf; 0xed;
   0xcd; 0xef; 0x19; 0xd6; 0xbc; 0x15; 0x79; 0x64; 0xd2; 0x18; 0xe3; 0x20; 0x67; 0x3a; 0x54; 0x0b]);
 ([0; 0; 0; 0; 0; 0; 0; 0; 0; 0; 0; 0; 0; 0; 0; 0;
   0; 0; 0; 0; 0; 0; 0; 0; 0; 0; 0; 0; 0; 0; 0; 0],
  [1; 0; 0; 0; 0; 0; 0; 0; 0; 0; 0; 0; 0; 0; 0; 0;
   0; 0; 0; 0; 0; 0; 0; 0; 0; 0; 0; 0; 0; 0; 0; 0]);
 ([0x52; 0xfd; 0x04; 0xc5; 0xfb; 0x99; 0xe7; 0xe8; 0xfb; 0x8c; 0xe1; 0x42; 0x03; 0xef; 0x9d; 0xd9;
   0x9e; 0x4d; 0xf7; 0x80; 0xcf; 0x2e; 0xcc; 0x9b; 0x45; 0xc9; 0x7b; 0x7a; 0xbc; 0x37; 0xa8; 0x52],
  [0x96; 0x11; 0x41; 0x8a; 0x47; 0x91; 0xfe; 0xb6; 0xda; 0x7a; 0x54; 0x63; 0xd1; 0x14; 0x35; 0x05;
   0x86; 0x8c; 0xa9; 0x36; 0x3f; 0xf2; 0x85; 0x54; 0x4e; 0x92; 0xd8; 0x85; 0x01; 0x46; 0xd6; 0x50]);
 ([0x53; 0xcd; 0xf3; 0x86; 0x40; 0xe6; 0x39; 0x42; 0x95; 0xd6; 0xcb; 0x45; 0x1a; 0x20; 0xc8; 0x45;
   0x4b; 0x32; 0x69; 0x04; 0xb1; 0xaf; 0x20; 0x46; 0xc7; 0x6b; 0x23; 0x5b; 0x69; 0xee; 0x30; 0x3f],
  [0x70; 0x83; 0x47; 0xc0; 0xdb; 0x55; 0x08; 0xa8; 0x7b; 0x18; 0x6d; 0xf5; 0x04; 0x5a; 0x20; 0x0c;
   0x4a; 0x8c; 0x60; 0xae; 0xae; 0x0f; 0x64; 0x55; 0x55; 0x2e; 0xd5; 0x1d; 0x53; 0x31; 0x42; 0x41]);
 ([0xca; 0xfc; 0x88; 0x6b; 0x96; 0x78; 0x0a; 0x8b; 0x83; 0xdc; 0xbc; 0xaf; 0x40; 0xb6; 0x8d; 0x7f;
   0xef; 0xb4; 0xd1; 0x3f; 0xcc; 0xa2; 0x74; 0xc9; 0xc2; 0x92; 0x55; 0x00; 0xab; 0xdb; 0xbf; 0x4f],
  [0x93; 0x1c; 0x06; 0x2d; 0x66; 0x65; 0x02; 0xa4; 0x97; 0x18; 0xfd; 0x00; 0xe7; 0xab; 0x03; 0xec;
   0xce; 0xc1; 0xbf; 0x37; 0xf8; 0x13; 0x53; 0xa5; 0xe5; 0x0c; 0x3a; 0xa8; 0x55; 0xb9; 0xff; 0x68]);
 ([0xe4; 0xe6; 0x6d; 0x30; 0x7d; 0x30; 0x35; 0xc2; 0x78; 0x87; 0xf9; 0xfc; 0x6b; 0x5a; 0xc3; 0xb7;
   0x65; 0xd8; 0x2e; 0xc7; 0xa5; 0x0c; 0xc6; 0xdc; 0x12; 0xaa; 0xd6; 0x4f; 0xc5; 0x38; 0xbc; 0x0e],
  [0xe2; 0x3c; 0x76; 0x86; 0x38; 0xf2; 0x7b; 0x2c; 0x16; 0x78; 0x8d; 0xf5; 0xa4; 0x15; 0xda; 0xdb;
   0x26; 0x85; 0xa0; 0x56; 0xdd; 0x1d; 0xe3; 0xb3; 0xfd; 0x40; 0xef; 0xf2; 0xd9; 0xa1; 0xb3; 0x04]);
 ([0; 0; 0; 0; 0; 0; 0; 0; 0; 0; 0; 0; 0; 0; 0; 0;
   0; 0; 0; 0; 0; 0; 0; 0; 0; 0; 0; 0; 0; 0; 0; 0],
  [1; 0; 0; 0; 0; 0; 0; 0; 0; 0; 0; 0; 0; 0; 0; 0;
   0; 0; 0; 0; 0; 0; 0; 0; 0; 0; 0; 0; 0; 0; 0; 0]);
 ([0xdb; 0x49; 0x0e; 0xe6; 0x58; 0x10; 0x7a; 0x52; 0xda; 0xb5; 0x7d; 0x37; 0x6a; 0x3e; 0xa1; 0x78;
   0xce; 0xc7; 0x1c; 0x24; 0x23; 0xdb; 0x7d; 0xfb; 0x8c; 0x8d; 0xdc; 0x30; 0x67; 0x69; 0x75; 0x3b],
  [0xa9; 0xea; 0x6d; 0x16; 0x16; 0x60; 0xf4; 0x60; 0x87; 0x19; 0x44; 0x8c; 0x4a; 0x8b; 0x3e; 0xfb;
   0x16; 0x00; 0x00; 0x54; 0xa6; 0x9e; 0x9f; 0xef; 0xcf; 0xd9; 0xd2; 0x4c; 0x74; 0x31; 0xd0; 0x34]);
 ([0xa4; 0xeb; 0x04; 0xa4; 0x8c; 0x8f; 0x71; 0x27; 0x95; 0x85; 0x5d; 0x55; 0x4b; 0xb1; 0x26; 0x26;
   0xc8; 0xae; 0x6a; 0x7d; 0xa2; 0x21; 0xca; 0xce; 0x38; 0xab; 0x0f; 0xd0; 0xd5; 0x2b; 0x6b; 0x00],
  [0xe5; 0x67; 0x0c; 0xf1; 0x3a; 0x9a; 0xea; 0x09; 0x39; 0xef; 0xd1; 0x30; 0xbc; 0x33; 0xba; 0xb1;
   0x6a; 0xc5; 0x27; 0x08; 0x7f; 0x54; 0x80; 0x3d; 0xab; 0xf6; 0x15; 0x7a; 0xc2; 0x40; 0x73; 0x72]);
 ([0x84; 0x56; 0x82; 0xb6; 0x12; 0x70; 0x7f; 0xf7; 0xf0; 0xbd; 0x5b; 0xa9; 0xd5; 0xc5; 0x5f; 0x59;
   0xbf; 0x7f; 0xb3; 0x55; 0x22; 0x02; 0xc9; 0x44; 0x55; 0x87; 0x8f; 0x96; 0x98; 0x64; 0x6d; 0x15],
  [0xb0; 0x8b; 0xaa; 0x1e; 0xec; 0xc7; 0xa5; 0x8f; 0x1f; 0x92; 0x04; 0xc6; 0x05; 0xf6; 0xdf; 0xa1;
   0xcc; 0x1f; 0x81; 0xf5; 0x0e; 0x9c; 0x57; 0xdc; 0xe3; 0xbb; 0x06; 0x87; 0x1e; 0xfe; 0x23; 0x6c]);
 ([0xd8; 0x2b; 0x5b; 0x16; 0xea; 0x20; 0xf1; 0xd3; 0x68; 0x8f; 0xae; 0x5b; 0xd0; 0xa9; 0x1a; 0x19;
   0xa8; 0x36; 0xfb; 0x2b; 0x57; 0x88; 0x7d; 0x90; 0xd5; 0xa6; 0xf3; 0xdc; 0x38; 0x89; 0x4e; 0x1f],
  [0xcc; 0x19; 0xda; 0x9b; 0x3b; 0x43; 0x48; 0x21; 0x2e; 0x23; 0x4d; 0x3d; 0xae; 0xf8; 0x8c; 0xfc;
   0xdd; 0xa6; 0x74; 0x37; 0x65; 0xca; 0xee; 0x1a; 0x19; 0x8e; 0x9f; 0x64; 0x6f; 0x0c; 0x8b; 0x5a]);
 ([0; 0; 0; 0; 0; 0; 0; 0; 0; 0; 0; 0; 0; 0; 0; 0;
   0; 0; 0; 0; 0; 0; 0; 0; 0; 0; 0; 0; 0; 0; 0; 0],
  [1; 0; 0; 0; 0; 0; 0; 0; 0; 0; 0; 0; 0; 0; 0; 0;
   0; 0; 0; 0; 0; 0; 0; 0; 0; 0; 0; 0; 0; 0; 0; 0]);
 ([0x25; 0xb9; 0xc2; 0xf0; 0x72; 0xb8; 0x15; 0x16; 0xcc; 0x8d; 0x3c; 0x6f; 0x25; 0xed; 0xf4; 0x46;
   0x2e; 0x0c; 0x60; 0x0f; 0xe2; 0x84; 0x34; 0x55; 0x89; 0x59; 0x34; 0x1b; 0xf5; 0x8d; 0xfe; 0x08],
  [0xf8; 0xab; 0x93; 0xbc; 0x44; 0xba; 0x1b; 0x75; 0x4b; 0x49; 0x6f; 0xd0; 0x54; 0x2e; 0x63; 0xba;
   0xb5; 0xea; 0xed; 0x32; 0x14; 0xc9; 0x94; 0xd8; 0xc5; 0xce; 0xf4; 0x10; 0x68; 0xe0; 0x38; 0x27]);
 ([0x74; 0x1c; 0x14; 0x9b; 0xd4; 0x64; 0x61; 0x71; 0x5a; 0xb6; 0x21; 0x33; 0x4f; 0xf7; 0x8e; 0xba;
   0xa5; 0x48; 0x9a; 0xc7; 0xfa; 0x9a; 0xf0; 0xb4; 0x62; 0xad; 0xf2; 0x5e; 0xcc; 0x03; 0x24; 0x1a],
  [0xf5; 0x76; 0xfd; 0xe4; 0xaf; 0xb9; 0x03; 0x59; 0xce; 0x63; 0xd2; 0x3b; 0x1f; 0xcd; 0x21; 0x0c;
   0xad; 0x44; 0xa5; 0x97; 0xac; 0x80; 0x11; 0x02; 0x9b; 0x0c; 0xe5; 0x8b; 0xcd; 0xfb; 0x79; 0x77]);
 ([0x15; 0xbe; 0x9a; 0x0d; 0xba; 0x38; 0x72; 0x20; 0x8a; 0xf5; 0xbe; 0x59; 0x93; 0x79; 0xb7; 0xf6;
   0x6a; 0x0c; 0x38; 0x27; 0x1a; 0x60; 0xf4; 0x86; 0x3b; 0xab; 0x5a; 0x00; 0xa0; 0xce; 0x21; 0x7d],
  [0x6c; 0xba; 0x14; 0xc5; 0xea; 0x12; 0x9e; 0x2e; 0x82; 0x63; 0xce; 0x9b; 0x4a; 0xe7; 0x1d; 0xec;
   0xf1; 0x2e; 0x51; 0x1c; 0xf4; 0xd0; 0x69; 0x15; 0x42; 0x9d; 0xa3; 0x3f; 0x0e; 0xbf; 0xe9; 0x5c]);
 ([0xe4; 0x0d; 0xf4; 0xbd; 0xee; 0x31; 0x10; 0xed; 0xcb; 0x12; 0x86; 0xad; 0xd4; 0x2f; 0x90; 0x37;
   0x32; 0xc3; 0x0b; 0x73; 0xec; 0x97; 0x85; 0xa4; 0x01; 0x1c; 0x76; 0x35; 0xfe; 0x75; 0xdd; 0x71],
  [0x11; 0xa4; 0x88; 0x9f; 0x3e; 0x53; 0x69; 0x3b; 0x1b; 0xe0; 0xf7; 0xba; 0x9b; 0xad; 0x4e; 0x81;
   0x5f; 0xb5; 0x5c; 0xae; 0xbe; 0x67; 0x86; 0x37; 0x34; 0x8e; 0x07; 0x32; 0x45; 0x4a; 0x67; 0x39]);
 ([0; 0; 0; 0; 0; 0; 0; 0; 0; 0; 0; 0; 0; 0; 0; 0;
   0; 0; 0; 0; 0; 0; 0; 0; 0; 0; 0; 0; 0; 0; 0; 0],
  [1; 0; 0; 0; 0; 0; 0; 0; 0; 0; 0; 0; 0; 0; 0; 0;
   0; 0; 0; 0; 0; 0; 0; 0; 0; 0; 0; 0; 0; 0; 0; 0]);
 ([0x90; 0x70; 0x58; 0x20; 0x03; 0x1e; 0x67; 0xb2; 0xc8; 0x9b; 0x58; 0xc5; 0xb1; 0xeb; 0x2d; 0x4a;
   0xde; 0x82; 0x8c; 0xf2; 0xd2; 0x14; 0xb8; 0x70; 0x61; 0x4e; 0x73; 0xd6; 0x0b; 0x6b; 0x0d; 0x30],
  [0x81; 0xfc; 0x55; 0x5c; 0xbf; 0xa7; 0xc4; 0xbd; 0xe2; 0xf0; 0x4b; 0x8f; 0xe9; 0x7d; 0x99; 0xfa;
   0xd3; 0xab; 0xbc; 0xc7; 0x83; 0x2b; 0x04; 0x7f; 0x0c; 0x19; 0x43; 0x03; 0x3d; 0x07; 0xca; 0x40]);
 ([0xf9; 0xc8; 0xbe; 0x8c; 0x16; 0x81; 0x39; 0x96; 0xf6; 0x17; 0x58; 0xc8; 0x30; 0x58; 0xfb; 0xc2;
   0x03; 0x45; 0xd2; 0x52; 0x76; 0xe0; 0x6a; 0x26; 0x28; 0x5c; 0x88; 0x59; 0x6a; 0x5a; 0x54; 0x42],
  [0x07; 0xb5; 0x2e; 0x2c; 0x67; 0x15; 0x9b; 0xfb; 0x83; 0x69; 0x1e; 0x0f; 0xda; 0xd6; 0x29; 0xb1;
   0x60; 0xe0; 0xb2; 0xba; 0x69; 0xa2; 0x9e; 0xbd; 0xbd; 0xe0; 0x1c; 0xbd; 0xcd; 0x06; 0x64; 0x70]);
 ([0x41; 0xfa; 0x8c; 0xe1; 0x89; 0x8f; 0x27; 0xc8; 0x25; 0x8f; 0x6f; 0x5f; 0x55; 0xf8; 0xde; 0x95;
   0x6d; 0x2f; 0x75; 0x16; 0x2b; 0x4e; 0x44; 0xfd; 0x86; 0x6e; 0xe9; 0x70; 0x39; 0x76; 0x97; 0x7e],
  [0x17; 0x62; 0x6b; 0x14; 0xa1; 0x7c; 0xd0; 0x79; 0x6e; 0xd8; 0x8a; 0xa5; 0x6d; 0x8c; 0x93; 0xd2;
   0x3f; 0xec; 0x44; 0x8d; 0x6e; 0x91; 0x01; 0x8c; 0x8f; 0xee; 0x01; 0x8f; 0xc0; 0xb4; 0x85; 0x0e]);
 ([0x02; 0x3a; 0x70; 0x41; 0xe4; 0x11; 0x57; 0x23; 0xac; 0xe6; 0xfc; 0x54; 0x7e; 0xcd; 0xd7; 0x22;
   0xcb; 0x76; 0x9f; 0x20; 0xce; 0xa0; 0x73; 0x76; 0x51; 0x3b; 0xa4; 0xf8; 0xe3; 0x62; 0x12; 0x6c],
  [0x7f; 0x00; 0x9c; 0x26; 0x0d; 0x6f; 0x48; 0x7f; 0x3a; 0x01; 0xed; 0xc5; 0x96; 0xb0; 0x1f; 0x4f;
   0xa8; 0x02; 0x62; 0x27; 0x8a; 0x50; 0x8d; 0x9a; 0x8b; 0x52; 0x0f; 0x1e; 0xcf; 0x41; 0x38; 0x19]);
 ([0; 0; 0; 0; 0; 0; 0; 0; 0; 0; 0; 0; 0; 0; 0; 0;
   0; 0; 0; 0; 0; 0; 0; 0; 0; 0; 0; 0; 0; 0; 0; 0],
  [1; 0; 0; 0; 0; 0; 0; 0; 0; 0; 0; 0; 0; 0; 0; 0;
   0; 0; 0; 0; 0; 0; 0; 0; 0; 0; 0; 0; 0; 0; 0; 0]);
 ([0xf5; 0x6c; 0xd4; 0x2f; 0x0f; 0x69; 0x0f; 0x87; 0x3f; 0x61; 0x65; 0x1e; 0x35; 0x34; 0x85; 0xba;
   0x02; 0x30; 0xac; 0x25; 0x3d; 0xe2; 0x62; 0xf1; 0xcc; 0xe9; 0x1b; 0xc2; 0xef; 0x6a; 0x42; 0x57],
  [0x34; 0x1f; 0x2e; 0xac; 0xd1; 0xc7; 0x04; 0x52; 0x32; 0x66; 0xb2; 0x33; 0x73; 0x21; 0x34; 0x54;
   0xf7; 0x71; 0xed; 0x06; 0xb0; 0xff; 0xa6; 0x59; 0x6f; 0x8a; 0x4e; 0xfb; 0x02; 0xb0; 0x45; 0x6b]);
 ([0xf5; 0x48; 0x0b; 0x03; 0xc5; 0x22; 0x7d; 0x80; 0x08; 0x53; 0xfe; 0x32; 0xb1; 0xa1; 0x8a; 0x74;
   0x6f; 0xbd; 0x3f; 0x85; 0xf4; 0xcf; 0xf5; 0x60; 0xaf; 0x41; 0x7e; 0x3e; 0x46; 0xa3; 0x5a; 0x20],
  [0xaa; 0x35; 0x87; 0x44; 0x63; 0x66; 0x97; 0xf8; 0x6e; 0x55; 0x0c; 0x04; 0x3e; 0x35; 0x50; 0xbf;
   0x93; 0x69; 0xd2; 0x8b; 0x05; 0x55; 0x99; 0xbe; 0xe2; 0x53; 0x61; 0xec; 0xe8; 0x08; 0x0b; 0x32]);
 ([0xb3; 0x10; 0x45; 0x02; 0x69; 0x59; 0x2e; 0x97; 0xd9; 0x64; 0xf8; 0xdb; 0x25; 0x80; 0xdc; 0xc4;
   0xd5; 0x62; 0x3c; 0xed; 0x65; 0x91; 0xad; 0xd1; 0x57; 0x81; 0x94; 0xaa; 0xa1; 0x29; 0xfc; 0x68],
  [0xdd; 0xb5; 0x7d; 0xab; 0x5a; 0x21; 0x41; 0x53; 0xbb; 0x17; 0x79; 0x0d; 0xd1; 0xa8; 0x0c; 0x0c;
   0x20; 0x88; 0x09; 0xe9; 0x84; 0xe8; 0x25; 0x11; 0x67; 0x7a; 0x8b; 0x1a; 0xe4; 0x5d; 0xe1; 0x5d]);
 ([0x37; 0xea; 0xfe; 0x65; 0x3b; 0x25; 0xe8; 0xe1; 0xc2; 0xc5; 0x02; 0xa4; 0xbe; 0x98; 0x0a; 0x2b;
   0x61; 0xc1; 0x9b; 0xe2; 0xd5; 0x92; 0xe6; 0x9e; 0x7d; 0x1f; 0xca; 0x43; 0x88; 0x8b; 0x2c; 0x59],
  [0xe0; 0xb5; 0x00; 0x1d; 0x2a; 0x6f; 0xaf; 0x79; 0x86; 0x2f; 0xa6; 0x5a; 0x93; 0xd1; 0xfe; 0xae;
   0x3a; 0xee; 0xdb; 0x7c; 0x61; 0xbe; 0x7c; 0x01; 0xf9; 0xfe; 0x52; 0xdc; 0xd8; 0x52; 0xa3; 0x42]);
 ([0; 0; 0; 0; 0; 0; 0; 0; 0; 0; 0; 0; 0; 0; 0; 0;
   0; 0; 0; 0; 0; 0; 0; 0; 0; 0; 0; 0; 0; 0; 0; 0],
  [1; 0; 0; 0; 0; 0; 0; 0; 0; 0; 0; 0; 0; 0; 0; 0;
   0; 0; 0; 0; 0; 0; 0; 0; 0; 0; 0; 0; 0; 0; 0; 0]);
 ([0x22; 0xaf; 0x13; 0x37; 0xbd; 0x37; 0x71; 0xac; 0x04; 0x46; 0x63; 0xac; 0xa4; 0x77; 0xed; 0x25;
   0x38; 0xe0; 0x15; 0xa8; 0x64; 0x00; 0x0d; 0xce; 0x51; 0x01; 0xa9; 0xbc; 0x0f; 0x03; 0x1c; 0x04],
  [0x89; 0xf9; 0x80; 0x07; 0xcf; 0x3f; 0xb3; 0xe9; 0xe7; 0x45; 0x44; 0x3d; 0x2a; 0x7c; 0xe9; 0xe4;
   0x16; 0x5c; 0x5e; 0x65; 0x1c; 0xc7; 0x7d; 0xc6; 0x7a; 0xfb; 0x43; 0xee; 0x25; 0x76; 0x46; 0x72]);
 ([0x02; 0xa2; 0xed; 0xf4; 0x8f; 0x6b; 0x0b; 0x3e; 0xeb; 0x35; 0x1a; 0xd5; 0x7e; 0xdb; 0x78; 0x00;
   0x96; 0x8a; 0xa0; 0xb4; 0xcf; 0x60; 0x4b; 0xd4; 0xd5; 0xf9; 0x2d; 0xbf; 0x88; 0xbd; 0x22; 0x62],
  [0x13; 0x53; 0xe4; 0x82; 0x57; 0xfa; 0x1e; 0x8f; 0x06; 0x2b; 0x90; 0xba; 0x08; 0xb6; 0x10; 0x54;
   0x4f; 0x7c; 0x1b; 0x26; 0xed; 0xda; 0x6b; 0xdd; 0x25; 0xd0; 0x4e; 0xea; 0x42; 0xbb; 0x25; 0x03]);
 ([0x51; 0x16; 0x50; 0x7c; 0xd5; 0x5d; 0xf6; 0x99; 0xe8; 0x77; 0x72; 0x4e; 0xfa; 0x62; 0xcb; 0x76;
   0x75; 0x0c; 0xe2; 0x71; 0x98; 0x92; 0xd5; 0xfa; 0x45; 0xdf; 0x5c; 0x6f; 0x1e; 0x9e; 0x28; 0x69],
  [0x0d; 0xac; 0x66; 0x6d; 0xc3; 0x8b; 0xba; 0x16; 0xb5; 0xe2; 0xa0; 0x0d; 0x0c; 0xbd; 0xa4; 0x8e;
   0x18; 0x6c; 0xf2; 0xdc; 0xf9; 0xdc; 0x4a; 0x86; 0x25; 0x95; 0x14; 0xcb; 0xd8; 0x1a; 0x04; 0x0f]);
 ([0x97; 0xa5; 0xdb; 0x8b; 0x2d; 0xaa; 0x42; 0x11; 0x09; 0xf2; 0x93; 0xbb; 0xd9; 0x06; 0x84; 0x4e;
   0x11; 0xa8; 0xa0; 0x25; 0x2b; 0xa6; 0x5f; 0xae; 0xc4; 0xb4; 0x4c; 0xc8; 0xab; 0xc7; 0x3b; 0x02],
  [0xee; 0xc9; 0x29; 0x0f; 0xdf; 0x11; 0x85; 0xed; 0xce; 0x0d; 0x62; 0x2c; 0x8f; 0x4b; 0xf9; 0x04;
   0xe9; 0x06; 0x72; 0x1d; 0x37; 0x20; 0x50; 0xc9; 0x14; 0xeb; 0xec; 0x39; 0xa7; 0x97; 0x2b; 0x4d]);
 ([0; 0; 0; 0; 0; 0; 0; 0; 0; 0; 0; 0; 0; 0; 0; 0;
   0; 0; 0; 0; 0; 0; 0; 0; 0; 0; 0; 0; 0; 0; 0; 0],
  [1; 0; 0; 0; 0; 0; 0; 0; 0; 0; 0; 0; 0; 0; 0; 0;
   0; 0; 0; 0; 0; 0; 0; 0; 0; 0; 0; 0; 0; 0; 0; 0]);
 ([0x69; 0xd1; 0x39; 0xbd; 0xfb; 0x33; 0xbe; 0xc4; 0xf0; 0x5c; 0xef; 0xf0; 0x56; 0x68; 0xfc; 0x97;
   0x47; 0xc8; 0x72; 0xb6; 0x53; 0xa4; 0x0a; 0x98; 0xa5; 0xb4; 0x37; 0x71; 0xcf; 0x66; 0x50; 0x6d],
  [0x17; 0xa4; 0x19; 0x52; 0x11; 0x47; 0xb3; 0x5c; 0x5b; 0xa9; 0x2e; 0x22; 0xb4; 0x00; 0x52; 0xf9;
   0x57; 0x18; 0xb8; 0xbe; 0x5a; 0xe3; 0xab; 0x83; 0xc8; 0x87; 0x0a; 0x2a; 0xd8; 0x8c; 0xbb; 0x54]);
 ([0xa9; 0x62; 0x93; 0x85; 0xbe; 0xe8; 0x73; 0x4a; 0x0e; 0xb0; 0xb5; 0x2d; 0x94; 0x50; 0xaa; 0xd3;
   0xb2; 0xea; 0x9d; 0x62; 0x76; 0x3b; 0x07; 0x34; 0x4e; 0x2d; 0x70; 0xc8; 0x9a; 0x15; 0x66; 0x6b],
  [0xc5; 0x96; 0xca; 0xc8; 0x22; 0x1a; 0xee; 0x5f; 0xe7; 0x31; 0x60; 0x22; 0x83; 0x08; 0x63; 0xce;
   0xb9; 0x32; 0x44; 0x58; 0x5d; 0x3a; 0x9b; 0xe4; 0x04; 0xd5; 0xef; 0x38; 0xef; 0x4b; 0xdd; 0x19]);
 ([0x4d; 0xc2; 0x17; 0x75; 0xa1; 0x68; 0xcd; 0xc3; 0xc6; 0x03; 0x44; 0xe3; 0x78; 0x09; 0x91; 0x47;
   0x3f; 0x0f; 0xe4; 0x92; 0x58; 0xfa; 0x7d; 0x1f; 0x20; 0x94; 0x58; 0x5e; 0xbc; 0x19; 0x02; 0x6f],
  [0x20; 0xd6; 0xd8; 0x91; 0x54; 0xa7; 0xf3; 0x20; 0x4b; 0x34; 0x06; 0xfa; 0x30; 0xc8; 0x6f; 0x14;
   0x10; 0x65; 0x74; 0x13; 0x4e; 0xf0; 0x69; 0x26; 0xce; 0xcf; 0x90; 0xf4; 0xd0; 0xc5; 0xc8; 0x64]);
 ([0x26; 0xa2; 0x50; 0x02; 0x24; 0x72; 0xf1; 0xf0; 0x4e; 0x2d; 0x93; 0xd5; 0x08; 0xe7; 0xae; 0x38;
   0xf7; 0x18; 0xa5; 0x32; 0x34; 0xc2; 0xf0; 0xa6; 0xec; 0xb9; 0x61; 0x7b; 0x64; 0x99; 0xac; 0x71],
  [0x25; 0xcf; 0x74; 0x55; 0x1b; 0xaa; 0xa9; 0x38; 0x41; 0x40; 0xd5; 0x95; 0x95; 0xab; 0x1c; 0x5e;
   0xbc; 0x41; 0x7e; 0x14; 0x30; 0xbe; 0x13; 0x89; 0xf4; 0xe5; 0xeb; 0x28; 0xc0; 0xc2; 0x96; 0x3a]);
 ([0; 0; 0; 0; 0; 0; 0; 0; 0; 0; 0; 0; 0; 0; 0; 0;
   0; 0; 0; 0; 0; 0; 0; 0; 0; 0; 0; 0; 0; 0; 0; 0],
  [1; 0; 0; 0; 0; 0; 0; 0; 0; 0; 0; 0; 0; 0; 0; 0;
   0; 0; 0; 0; 0; 0; 0; 0; 0; 0; 0; 0; 0; 0; 0; 0]);
 ([0x2b; 0x77; 0x45; 0xec; 0x67; 0x76; 0x32; 0x4c; 0xb9; 0xdf; 0x25; 0x32; 0x6b; 0xcb; 0xe7; 0x14;
   0x61; 0x43; 0xee; 0xba; 0x9b; 0x71; 0xef; 0xd2; 0x48; 0x65; 0xbb; 0x1b; 0x8a; 0x13; 0x1b; 0x22],
  [0x84; 0xad; 0x0c; 0x18; 0x38; 0x5a; 0xba; 0xd0; 0x98; 0x59; 0xbf; 0x37; 0xb0; 0x4f; 0x97; 0x60;
   0x20; 0xb3; 0x9b; 0x97; 0xf6; 0x08; 0x6c; 0xa4; 0xff; 0xfb; 0xb7; 0xfa; 0x95; 0xb2; 0x51; 0x79]);
 ([0x28; 0x5c; 0x3f; 0xdb; 0x6b; 0x18; 0x3b; 0x5c; 0xd1; 0x04; 0x28; 0xde; 0x85; 0x52; 0x31; 0xb5;
   0xbb; 0xf6; 0xa9; 0xed; 0xbe; 0x28; 0x4f; 0xb3; 0x7e; 0x05; 0x6a; 0xdb; 0x95; 0x0d; 0x1b; 0x1c],
  [0xd5; 0xc5; 0xc3; 0x9a; 0x0a; 0xd0; 0x31; 0x3e; 0x07; 0x36; 0x8e; 0xc0; 0x8a; 0x62; 0xb1; 0xca;
   0xd6; 0x0e; 0x1e; 0x9d; 0xef; 0xab; 0x98; 0x4d; 0xbb; 0x6c; 0x05; 0xe0; 0xe4; 0x5d; 0xbd; 0x57]);
 ([0xcc; 0x21; 0x27; 0xce; 0xfd; 0xa9; 0x94; 0x8e; 0xe1; 0xab; 0x49; 0xe0; 0x46; 0x26; 0xa1; 0xa8;
   0x8c; 0xa1; 0x99; 0x1d; 0xb4; 0x27; 0x6d; 0x2d; 0xc8; 0x39; 0x30; 0x5e; 0x37; 0x52; 0xc4; 0x6e],
  [0xa9; 0x85; 0xf4; 0xe7; 0xb0; 0x15; 0x33; 0x84; 0x1b; 0x14; 0x1a; 0x02; 0xd9; 0x3b; 0xad; 0x0f;
   0x43; 0x6c; 0xea; 0x3e; 0x0f; 0x7e; 0xda; 0xdd; 0x6b; 0x4c; 0x7f; 0x6e; 0xd4; 0x6b; 0xbf; 0x0f]);
 ([0x47; 0x9f; 0x7c; 0x56; 0x7c; 0x43; 0x91; 0x1c; 0xbb; 0x4e; 0x72; 0x3e; 0x64; 0xab; 0xa0; 0xa0;
   0xdf; 0xb4; 0xd8; 0x87; 0x3a; 0xbd; 0xa8; 0x48; 0xc9; 0xb8; 0xef; 0x2e; 0xad; 0x6f; 0x84; 0x4f],
  [0x2d; 0x2d; 0xf0; 0x1b; 0x7e; 0x2a; 0x6c; 0xf8; 0xa9; 0x6a; 0xe1; 0xf0; 0x99; 0xa1; 0x67; 0x9a;
   0xd4; 0x13; 0xca; 0xca; 0xba; 0x27; 0x92; 0xaa; 0xa1; 0x5d; 0x50; 0xde; 0xcc; 0x40; 0x26; 0x0a]);
 ([0; 0; 0; 0; 0; 0; 0; 0; 0; 0; 0; 0; 0; 0; 0; 0;
   0; 0; 0; 0; 0; 0; 0; 0; 0; 0; 0; 0; 0; 0; 0; 0],
  [1; 0; 0; 0; 0; 0; 0; 0; 0; 0; 0; 0; 0; 0; 0; 0;
   0; 0; 0; 0; 0; 0; 0; 0; 0; 0; 0; 0; 0; 0; 0; 0]);
 ([0x9f; 0x3e; 0xf2; 0xb2; 0x90; 0xce; 0xdb; 0x64; 0x3e; 0x03; 0xdd; 0x37; 0x36; 0x54; 0x70; 0x76;
   0x24; 0xb5; 0x69; 0x03; 0xfc; 0xa0; 0x2b; 0x74; 0xb2; 0x05; 0x0e; 0xcc; 0xd8; 0x1f; 0x6a; 0x1f],
  [0x19; 0x5e; 0x60; 0x69; 0x58; 0x86; 0xa0; 0x31; 0xbd; 0x32; 0xe9; 0x2c; 0x5c; 0xd2; 0x85; 0xba;
   0x40; 0x64; 0xa8; 0x74; 0xf8; 0x0e; 0x1c; 0xb3; 0xa9; 0x69; 0xe8; 0x1e; 0x40; 0x64; 0x99; 0x77]);
 ([0x6c; 0x32; 0x4f; 0xfd; 0xbb; 0x5c; 0xbb; 0x8d; 0x64; 0x66; 0x4a; 0x71; 0x1f; 0x79; 0xa3; 0xad;
   0x8d; 0xf9; 0xd4; 0xec; 0xcf; 0x67; 0x70; 0xfa; 0x05; 0x4a; 0x0f; 0x6e; 0xaf; 0x87; 0x0a; 0x6f],
  [0xc6; 0x36; 0x6e; 0x6c; 0x8c; 0x24; 0x09; 0x60; 0xbe; 0x26; 0xd2; 0x4c; 0x5e; 0x17; 0xca; 0x5f;
   0x1d; 0xcc; 0x87; 0xe8; 0x42; 0x6a; 0xcb; 0xcb; 0x7d; 0x92; 0x05; 0x35; 0x81; 0x13; 0x60; 0x6b]);
 ([0xf4; 0x15; 0xcd; 0x0f; 0x0a; 0xaf; 0x4e; 0x6b; 0x51; 0xfd; 0x14; 0xc4; 0x2e; 0x13; 0x86; 0x74;
   0x44; 0xcb; 0x66; 0x6b; 0xb6; 0x9d; 0x74; 0x56; 0x32; 0xac; 0x8d; 0x8e; 0x8c; 0x8c; 0x8c; 0x39],
  [0xca; 0x59; 0x74; 0x1a; 0x11; 0xef; 0x6d; 0xf7; 0x39; 0x5c; 0x3b; 0x1f; 0xfa; 0xe3; 0x40; 0x41;
   0x23; 0x9e; 0xf6; 0xd1; 0x21; 0xa2; 0xbf; 0xad; 0x65; 0x42; 0x6b; 0x59; 0x8a; 0xe8; 0xc5; 0x7f]);
 ([0x64; 0x05; 0x7a; 0x84; 0x4a; 0x13; 0xc3; 0xf6; 0xb0; 0x6e; 0x9a; 0x6b; 0x53; 0x6b; 0x32; 0xda;
   0xd9; 0x74; 0x75; 0xc4; 0xba; 0x64; 0x3d; 0x3b; 0x08; 0xdd; 0x10; 0x46; 0xef; 0xc7; 0x90; 0x1f],
  [0x7b; 0x2f; 0x3a; 0xce; 0xc8; 0xa1; 0x79; 0x3c; 0x30; 0x12; 0x44; 0x28; 0xf6; 0xbc; 0xff; 0xfd;
   0xf4; 0xc0; 0x97; 0xb0; 0xcc; 0xc3; 0x13; 0x7a; 0xb9; 0x9a; 0x16; 0xe4; 0xcb; 0x4c; 0x34; 0x63]);
 ([0; 0; 0; 0; 0; 0; 0; 0; 0; 0; 0; 0; 0; 0; 0; 0;
   0; 0; 0; 0; 0; 0; 0; 0; 0; 0; 0; 0; 0; 0; 0; 0],
  [1; 0; 0; 0; 0; 0; 0; 0; 0; 0; 0; 0; 0; 0; 0; 0;
   0; 0; 0; 0; 0; 0; 0; 0; 0; 0; 0; 0; 0; 0; 0; 0]);
 ([0x07; 0x4e; 0xd3; 0x2d; 0x09; 0x33; 0x0e; 0xd2; 0x0d; 0xbe; 0x3e; 0xe7; 0xe4; 0xaa; 0xb7; 0x00;
   0x8b; 0xe8; 0xad; 0xaa; 0x7a; 0x8d; 0x34; 0x28; 0xa9; 0x81; 0x94; 0xc5; 0xe7; 0x42; 0xac; 0x47],
  [0x24; 0x89; 0x7a; 0x8f; 0xb5; 0x9b; 0xf0; 0xc2; 0x03; 0x64; 0xd0; 0x1e; 0xf5; 0xa4; 0xb2; 0xf3;
   0x74; 0xe9; 0x1a; 0x16; 0xfd; 0xcb; 0x15; 0xea; 0xeb; 0x10; 0x6c; 0x35; 0xd1; 0xc1; 0xa6; 0x28]);
 ([0xcc; 0xd5; 0x39; 0xfc; 0xa5; 0xa4; 0xad; 0x32; 0x15; 0xce; 0x19; 0xe8; 0x34; 0x2b; 0x1c; 0x60;
   0x91; 0xfc; 0x05; 0xa9; 0xb3; 0xdc; 0x80; 0x29; 0xc4; 0x20; 0x79; 0x06; 0x39; 0xc0; 0xe2; 0x22],
  [0xbb; 0xa8; 0xe1; 0x89; 0x70; 0x57; 0x18; 0x54; 0x3c; 0xf6; 0x0d; 0x82; 0x12; 0x05; 0x87; 0x96;
   0x06; 0x39; 0xe3; 0xf8; 0xb3; 0x95; 0xe5; 0xd7; 0x26; 0xbf; 0x09; 0x5a; 0x94; 0xf9; 0x1c; 0x63]);
 ([0x2b; 0x8c; 0x2d; 0x9a; 0x8b; 0x84; 0xf2; 0x56; 0xfb; 0xad; 0x2e; 0x7f; 0xb7; 0xfc; 0x30; 0xe1;
   0x35; 0x89; 0xba; 0x4d; 0xa8; 0x6d; 0xce; 0x8c; 0x8b; 0x30; 0xe0; 0xda; 0x29; 0x18; 0x11; 0x17],
  [0x19; 0xa6; 0x5a; 0x65; 0x93; 0xc3; 0xb5; 0x31; 0x22; 0x4f; 0xf3; 0xf6; 0x0f; 0xeb; 0x28; 0xc3;
   0x7c; 0xeb; 0xce; 0x86; 0xec; 0x67; 0x76; 0x6e; 0x35; 0x45; 0x7b; 0xd8; 0x6b; 0x92; 0x01; 0x65]);
 ([0x3d; 0xd5; 0x9a; 0x64; 0x73; 0x36; 0xb1; 0xd6; 0x86; 0x98; 0x42; 0x3f; 0x8a; 0xf1; 0xc7; 0xf5;
   0x42; 0xa8; 0x9c; 0x52; 0xa8; 0xdc; 0xf9; 0x24; 0x3f; 0x4a; 0xa1; 0xa4; 0x5b; 0xe8; 0x62; 0x1a],
  [0xc5; 0xbd; 0xc8; 0x14; 0xd5; 0x0d; 0xeb; 0xe1; 0xa5; 0xe6; 0x83; 0x11; 0x09; 0x00; 0x1d; 0x55;
   0x83; 0x51; 0x7e; 0x75; 0x00; 0x81; 0xb9; 0xcb; 0xd8; 0xc5; 0xe5; 0xa1; 0xd9; 0x17; 0x6d; 0x1f]);
 ([0; 0; 0; 0; 0; 0; 0; 0; 0; 0; 0; 0; 0; 0; 0; 0;
   0; 0; 0; 0; 0; 0; 0; 0; 0; 0; 0; 0; 0; 0; 0; 0],
  [1; 0; 0; 0; 0; 0; 0; 0; 0; 0; 0; 0; 0; 0; 0; 0;
   0; 0; 0; 0; 0; 0; 0; 0; 0; 0; 0; 0; 0; 0; 0; 0]);
 ([0xea; 0xf9; 0xe4; 0xe9; 0xe1; 0x52; 0x3f; 0x51; 0x19; 0x0d; 0xdd; 0xd9; 0x9d; 0x93; 0x31; 0x87;
   0x23; 0x09; 0xd5; 0x83; 0xeb; 0x92; 0x09; 0x76; 0x6e; 0xe3; 0xf8; 0xc0; 0xa2; 0x66; 0xb5; 0x36],
  [0x3a; 0xbb; 0x39; 0xed; 0x32; 0x02; 0xe7; 0x43; 0x7a; 0x38; 0x14; 0x84; 0xe3; 0x44; 0xd2; 0x5e;
   0x94; 0xdd; 0x78; 0x89; 0x55; 0x4c; 0x73; 0x9e; 0xe1; 0xe4; 0x3e; 0x43; 0xd0; 0x4a; 0xde; 0x1b]);
 ([0xb2; 0xe7; 0x8f; 0xe3; 0xa3; 0xc5; 0xcb; 0x72; 0xee; 0x79; 0x41; 0xf8; 0xdf; 0xee; 0x65; 0xc5;
   0x45; 0x77; 0x27; 0x3c; 0xbd; 0x58; 0xd3; 0x75; 0xe2; 0x04; 0x4b; 0xbb; 0x65; 0xf3; 0xc8; 0x0f],
  [0x24; 0x7b; 0x93; 0x34; 0xb5; 0xe2; 0x74; 0x48; 0xcd; 0xa0; 0x0b; 0x92; 0x97; 0x66; 0x39; 0xf4;
   0xb0; 0xe2; 0x5d; 0x39; 0x6a; 0x5b; 0x45; 0x17; 0x78; 0x1e; 0xdb; 0x91; 0x81; 0x1c; 0xf9; 0x16]);
 ([0x16; 0xdf; 0xd1; 0x5a; 0xd5; 0xe9; 0x4e; 0x58; 0x95; 0x93; 0x5f; 0x51; 0x09; 0xc3; 0x2a; 0xc9;
   0xd4; 0x55; 0x48; 0x79; 0xa4; 0xa3; 0xb2; 0xc3; 0x62; 0xaa; 0x8c; 0xe8; 0xad; 0x47; 0x39; 0x1b],
  [0x46; 0xda; 0x9e; 0x51; 0x3a; 0xe6; 0xd1; 0xa6; 0xbb; 0x4d; 0x7b; 0x08; 0xbe; 0x8c; 0xd5; 0xf3;
   0x3f; 0xfd; 0xf7; 0x44; 0x80; 0x2d; 0x53; 0x4b; 0xd0; 0x87; 0x68; 0xc1; 0xb5; 0xd8; 0xf7; 0x07]);
 ([0xf4; 0x10; 0x46; 0xbe; 0xb7; 0xd2; 0xd1; 0xce; 0x5e; 0x76; 0xa2; 0xd7; 0x03; 0xdc; 0xe4; 0x81;
   0x5a; 0xf6; 0x3c; 0xde; 0xae; 0x7a; 0x9d; 0x21; 0x34; 0xa5; 0xf6; 0xa9; 0x73; 0xe2; 0x8d; 0x60],
  [0xfa; 0x44; 0x71; 0xf6; 0x41; 0xd8; 0xc6; 0x58; 0x13; 0x37; 0xeb; 0x84; 0x0f; 0x96; 0xc7; 0xdc;
   0xc8; 0xa9; 0x7a; 0x83; 0xb2; 0x2f; 0x31; 0xb1; 0x1a; 0xd8; 0x98; 0x3f; 0x11; 0xd0; 0x31; 0x3b]);
 ([0; 0; 0; 0; 0; 0; 0; 0; 0; 0; 0; 0; 0; 0; 0; 0;
   0; 0; 0; 0; 0; 0; 0; 0; 0; 0; 0; 0; 0; 0; 0; 0],
  [1; 0; 0; 0; 0; 0; 0; 0; 0; 0; 0; 0; 0; 0; 0; 0;
   0; 0; 0; 0; 0; 0; 0; 0; 0; 0; 0; 0; 0; 0; 0; 0]);
 ([0x81; 0xd5; 0x34; 0x16; 0x01; 0xa3; 0x93; 0xea; 0x52; 0x94; 0xec; 0x93; 0xb7; 0x81; 0x11; 0x2d;
   0x58; 0xf9; 0xb5; 0x0a; 0xaa; 0x4f; 0xf6; 0x2e; 0x3f; 0x36; 0xbf; 0x33; 0x5a; 0xe7; 0xd1; 0x08],
  [0x1a; 0xcf; 0x42; 0xae; 0xcc; 0xb5; 0x77; 0x39; 0xc4; 0x5b; 0x5b; 0xd0; 0x26; 0x59; 0x27; 0xd0;
   0x55; 0x71; 0x12; 0x9d; 0x88; 0x3d; 0x9c; 0xea; 0x41; 0x6a; 0xf0; 0x50; 0x93; 0x93; 0xdd; 0x47]);
 ([0x6f; 0xc9; 0x51; 0x6d; 0x1c; 0xaa; 0xf5; 0xa5; 0x90; 0x3f; 0x14; 0xe2; 0x6e; 0x8e; 0x64; 0xfd;
   0xac; 0xe0; 0x4e; 0x22; 0xe5; 0xc1; 0xbc; 0x29; 0x0a; 0x6a; 0x9e; 0xa1; 0x60; 0xcb; 0x2f; 0x0b],
  [0xdc; 0x39; 0x32; 0xf3; 0xa1; 0x44; 0xe9; 0xc5; 0xc3; 0x78; 0xfb; 0x95; 0x47; 0x34; 0x35; 0x34;
   0xe8; 0x25; 0xde; 0x93; 0xc6; 0xb4; 0x76; 0x6d; 0x86; 0x13; 0xc6; 0xe9; 0x68; 0xb5; 0x01; 0x63]);
 ([0x1f; 0x9a; 0x52; 0x64; 0x97; 0xd9; 0x1c; 0x08; 0x51; 0x6f; 0x26; 0x9d; 0xaa; 0x93; 0x33; 0x43;
   0xfa; 0x77; 0xe9; 0x62; 0x9b; 0x5d; 0x18; 0x75; 0xeb; 0x78; 0xf7; 0x87; 0x8f; 0x41; 0xb4; 0x4d],
  [0x13; 0xa8; 0x82; 0x3e; 0xe9; 0x13; 0xad; 0xeb; 0x01; 0xca; 0xcf; 0xda; 0xcd; 0xf7; 0x6c; 0xc7;
   0x7a; 0xdc; 0x1e; 0x6e; 0xc8; 0x4e; 0x55; 0x62; 0x80; 0xea; 0x78; 0x0c; 0x86; 0xb9; 0x40; 0x51]);
 ([0x27; 0xae; 0xd3; 0x0d; 0x4c; 0x8f; 0x34; 0xea; 0x7d; 0x3c; 0xe5; 0x8a; 0xcf; 0x5b; 0x92; 0xd8;
   0x30; 0x16; 0xb4; 0xa3; 0x75; 0xff; 0xeb; 0x27; 0xc8; 0x5c; 0x6c; 0xc2; 0xee; 0x6c; 0x21; 0x0b],
  [0xc3; 0xba; 0x12; 0x53; 0x2a; 0xaa; 0x77; 0xad; 0x19; 0x78; 0x55; 0x8a; 0x2e; 0x60; 0x87; 0xc2;
   0x6e; 0x91; 0x38; 0x91; 0x3f; 0x7a; 0xc5; 0x24; 0x8f; 0x51; 0xc5; 0xde; 0xb0; 0x53; 0x30; 0x56]);
 ([0; 0; 0; 0; 0; 0; 0; 0; 0; 0; 0; 0; 0; 0; 0; 0;
   0; 0; 0; 0; 0; 0; 0; 0; 0; 0; 0; 0; 0; 0; 0; 0],
  [1; 0; 0; 0; 0; 0; 0; 0; 0; 0; 0; 0; 0; 0; 0; 0;
   0; 0; 0; 0; 0; 0; 0; 0; 0; 0; 0; 0; 0; 0; 0; 0]);
 ([0x02; 0xfe; 0x54; 0x12; 0x18; 0xca; 0x7d; 0xa5; 0x68; 0x43; 0xa3; 0x6d; 0x14; 0x2a; 0x6a; 0xa5;
   0x8e; 0x32; 0xe7; 0x63; 0x4f; 0xe3; 0xc6; 0x44; 0x3e; 0xab; 0x63; 0xca; 0x17; 0x86; 0x74; 0x3f],
  [0x1e; 0x64; 0xc1; 0x7d; 0x52; 0xdc; 0x13; 0x5a; 0xa1; 0x9c; 0x4e; 0xee; 0x99; 0x28; 0xbb; 0x4c;
   0xee; 0xac; 0xa9; 0x1b; 0x89; 0xa2; 0x38; 0x39; 0x7b; 0xc4; 0x0f; 0x42; 0xe6; 0x89; 0xed; 0x0f]);
 ([0xf3; 0x3c; 0x8c; 0x80; 0x83; 0x10; 0x8a; 0x37; 0x50; 0x9c; 0xb4; 0xdf; 0x3f; 0x8c; 0xf7; 0x23;
   0x07; 0xd6; 0xff; 0xa0; 0x82; 0x6c; 0x75; 0x3b; 0xe4; 0xb5; 0xbb; 0xe4; 0xe6; 0x50; 0xf0; 0x08],
  [0x62; 0xee; 0x75; 0x48; 0x92; 0x33; 0xf2; 0xf4; 0xad; 0x15; 0x7a; 0xa1; 0x01; 0x46; 0xa9; 0x32;
   0x06; 0x88; 0xb6; 0x36; 0x47; 0x35; 0xb9; 0xb4; 0x42; 0x85; 0x76; 0xf0; 0x48; 0x00; 0x90; 0x38]);
 ([0x51; 0x15; 0x9d; 0xc3; 0x95; 0xd1; 0x39; 0xbb; 0x64; 0x9d; 0x15; 0x81; 0xc1; 0x68; 0xd0; 0xb6;
   0xa4; 0x2c; 0x7d; 0x5e; 0x02; 0x39; 0x00; 0xe0; 0x3b; 0xa4; 0xcc; 0xca; 0x1d; 0x81; 0x24; 0x10],
  [0xe7; 0x29; 0xf9; 0x37; 0xd9; 0x46; 0x5a; 0xcd; 0x70; 0xfe; 0x4d; 0x5b; 0xbf; 0xa5; 0xcf; 0x91;
   0xf4; 0xef; 0xee; 0x8a; 0x29; 0xd0; 0xe7; 0xc4; 0x25; 0x92; 0x8a; 0xff; 0x36; 0xfc; 0xe4; 0x49]);
 ([0xbd; 0x00; 0xb9; 0x04; 0x7d; 0x35; 0xfc; 0xeb; 0xd0; 0x0b; 0x05; 0x32; 0x52; 0x7a; 0x89; 0x24;
   0x75; 0x50; 0xe1; 0x63; 0x02; 0x82; 0x8e; 0xe7; 0x85; 0x0c; 0xf2; 0x56; 0x44; 0x37; 0x83; 0x25],
  [0x8f; 0xa1; 0xce; 0xcb; 0x60; 0xda; 0x12; 0x02; 0x1e; 0x29; 0x39; 0x2a; 0x03; 0xb7; 0xeb; 0x77;
   0x40; 0xea; 0xc9; 0x2b; 0x2c; 0xd5; 0x7d; 0x7e; 0x2c; 0xc7; 0x5a; 0xfd; 0xff; 0xc4; 0xd1; 0x62]);
 ([0; 0; 0; 0; 0; 0; 0; 0; 0; 0; 0; 0; 0; 0; 0; 0;
   0; 0; 0; 0; 0; 0; 0; 0; 0; 0; 0; 0; 0; 0; 0; 0],
  [1; 0; 0; 0; 0; 0; 0; 0; 0; 0; 0; 0; 0; 0; 0; 0;
   0; 0; 0; 0; 0; 0; 0; 0; 0; 0; 0; 0; 0; 0; 0; 0]);
 ([0x1d; 0x88; 0x98; 0x5b; 0x4e; 0xfc; 0x41; 0x24; 0x05; 0xe6; 0x50; 0x2b; 0xae; 0x96; 0x51; 0xd9;
   0x6b; 0x72; 0xb2; 0x33; 0x42; 0x98; 0x68; 0xbb; 0x10; 0x5a; 0x7a; 0x8c; 0x9d; 0x07; 0xb4; 0x05],
  [0x2f; 0x61; 0x9f; 0xd7; 0xa8; 0x3f; 0x83; 0x8c; 0x10; 0x69; 0x90; 0xe6; 0xcf; 0xd2; 0x63; 0xa3;
   0xe4; 0x54; 0x7e; 0xe5; 0x69; 0x13; 0x1c; 0x90; 0x57; 0xaa; 0xe9; 0x53; 0x22; 0x43; 0x29; 0x23]);
 ([0xe5; 0x1c; 0xf8; 0x0a; 0xfd; 0x2d; 0x7e; 0xf5; 0xf5; 0x70; 0x7d; 0x41; 0x6b; 0x11; 0xfe; 0xbe;
   0x99; 0xd1; 0x55; 0x29; 0x31; 0xbf; 0xc0; 0x97; 0x6c; 0xd5; 0x35; 0xcc; 0x5e; 0x8b; 0xd9; 0x69],
  [0x8e; 0x4e; 0x9f; 0x25; 0xf8; 0x81; 0x54; 0x2d; 0x0e; 0xd5; 0x54; 0x81; 0x9b; 0xa6; 0x92; 0xce;
   0x4b; 0xe9; 0x8f; 0x24; 0x3b; 0xca; 0xe0; 0x44; 0xab; 0x36; 0xfe; 0xfb; 0x87; 0xd4; 0x26; 0x3e]);
 ([0x0f; 0x93; 0x9c; 0x11; 0xe7; 0xdb; 0xf1; 0xf0; 0x85; 0x43; 0x28; 0x15; 0x37; 0xdd; 0xde; 0x27;
   0xdf; 0xad; 0x3e; 0x49; 0x4f; 0xe0; 0x5b; 0xf6; 0x80; 0x59; 0x15; 0x3c; 0x85; 0xb7; 0x3e; 0x12],
  [0xf5; 0xff; 0xcc; 0xf0; 0xb4; 0x12; 0x03; 0x5f; 0xc9; 0x84; 0xcb; 0x1d; 0x17; 0xe0; 0xbc; 0xcc;
   0x03; 0x62; 0xa9; 0x8b; 0x94; 0xa6; 0xaa; 0x18; 0xcb; 0x27; 0x8d; 0x49; 0xa6; 0x17; 0x15; 0x07]);
 ([0xd9; 0xb6; 0xd4; 0x9d; 0xd4; 0x6a; 0xaf; 0x70; 0x07; 0x2c; 0x10; 0x9e; 0xbd; 0x11; 0xad; 0xe4;
   0x26; 0x33; 0x70; 0x92; 0x78; 0x1c; 0x74; 0x9f; 0x75; 0x60; 0x56; 0xf4; 0x39; 0xa8; 0xa8; 0x62],
  [0x3b; 0xbf; 0x55; 0x35; 0x61; 0x8b; 0x44; 0x97; 0xe8; 0x3a; 0x55; 0xc1; 0xc8; 0x3b; 0xfd; 0x95;
   0x29; 0x11; 0x60; 0x96; 0x1e; 0xcb; 0x11; 0x9d; 0xc2; 0x03; 0x8a; 0x1b; 0xc6; 0xd6; 0x45; 0x3d]);
 ([0; 0; 0; 0; 0; 0; 0; 0; 0; 0; 0; 0; 0; 0; 0; 0;
   0; 0; 0; 0; 0; 0; 0; 0; 0; 0; 0; 0; 0; 0; 0; 0],
  [1; 0; 0; 0; 0; 0; 0; 0; 0; 0; 0; 0; 0; 0; 0; 0;
   0; 0; 0; 0; 0; 0; 0; 0; 0; 0; 0; 0; 0; 0; 0; 0]);
 ([0x7e; 0x0e; 0x50; 0xb2; 0xcc; 0x0d; 0x6b; 0xa6; 0x71; 0x5b; 0x42; 0xed; 0xbd; 0xaf; 0xac; 0xf0;
   0xfc; 0x12; 0xa2; 0x3f; 0x4e; 0xda; 0xe8; 0x11; 0xf3; 0x23; 0xe1; 0x04; 0x62; 0x03; 0x1c; 0x4e],
  [0xc8; 0xb1; 0x1b; 0x6f; 0x73; 0x61; 0x3d; 0x27; 0x0d; 0x7d; 0x7a; 0x25; 0x5f; 0x73; 0x0e; 0x2f;
   0x93; 0xf6; 0x24; 0xd8; 0x4f; 0x90; 0xac; 0xa2; 0x62; 0x0a; 0xf0; 0x61; 0xd9; 0x08; 0x59; 0x6a]);
 ([0x6f; 0x2d; 0x55; 0xf8; 0x2f; 0x8e; 0xf0; 0x18; 0x3b; 0xea; 0xdd; 0x26; 0x72; 0xd1; 0xf5; 0xfe;
   0xe5; 0xb8; 0xe6; 0xd3; 0x10; 0x48; 0x46; 0x49; 0x3a; 0x9f; 0x5e; 0x45; 0x6b; 0x90; 0xe8; 0x7f],
  [0xd3; 0x76; 0x69; 0x33; 0x7b; 0xb9; 0x40; 0x70; 0xee; 0xa6; 0x29; 0x6b; 0xdd; 0xd0; 0x5d; 0x8d;
   0xc1; 0x3e; 0x4a; 0xea; 0x37; 0xb1; 0x03; 0x02; 0x03; 0x35; 0xf1; 0x28; 0x9d; 0xff; 0x00; 0x13]);
 ([0x7a; 0xdb; 0x12; 0xd2; 0x8a; 0x82; 0x03; 0x1b; 0x1e; 0xaf; 0xf9; 0x4b; 0x9c; 0xbe; 0xae; 0x7c;
   0xe4; 0x94; 0x2a; 0x23; 0xb3; 0x62; 0x86; 0xe7; 0xfd; 0x23; 0xaa; 0x99; 0xbd; 0x2b; 0x11; 0x6c],
  [0x8d; 0xa6; 0xd5; 0xac; 0x9d; 0xcc; 0x68; 0x75; 0x7f; 0xc3; 0x4d; 0x4b; 0xdd; 0x6c; 0xbb; 0x11;
   0x5a; 0x60; 0xe5; 0xbd; 0x7d; 0x27; 0x8b; 0xda; 0xb4; 0x95; 0xf6; 0x03; 0x27; 0xa4; 0x92; 0x3f]);
 ([0x22; 0xd6; 0xb5; 0x17; 0x84; 0xbf; 0x12; 0xcc; 0x23; 0x14; 0x4a; 0xdf; 0x14; 0x31; 0xbc; 0xa1;
   0xac; 0x6e; 0xab; 0xfa; 0x57; 0x11; 0x53; 0xb3; 0x27; 0xe6; 0xf9; 0x47; 0x33; 0x44; 0x34; 0x1e],
  [0x79; 0xfc; 0xa6; 0xb4; 0x0b; 0x35; 0x20; 0xc9; 0x4d; 0x22; 0x84; 0xc4; 0xa9; 0x20; 0xec; 0x89;
   0x94; 0xba; 0x66; 0x56; 0x48; 0xb9; 0x87; 0x7f; 0xca; 0x1e; 0x06; 0xed; 0xa5; 0x55; 0x59; 0x29]);
 ([0; 0; 0; 0; 0; 0; 0; 0; 0; 0; 0; 0; 0; 0; 0; 0;
   0; 0; 0; 0; 0; 0; 0; 0; 0; 0; 0; 0; 0; 0; 0; 0],
  [1; 0; 0; 0; 0; 0; 0; 0; 0; 0; 0; 0; 0; 0; 0; 0;
   0; 0; 0; 0; 0; 0; 0; 0; 0; 0; 0; 0; 0; 0; 0; 0]);
 ([0x56; 0xe1; 0xf5; 0xf1; 0xd5; 0xab; 0xa8; 0x2b; 0xae; 0x89; 0xf3; 0xcf; 0x56; 0x9f; 0xf2; 0x4b;
   0x31; 0xbc; 0x18; 0xa9; 0x06; 0x5b; 0xbe; 0xb4; 0x61; 0xf8; 0xb2; 0x06; 0x9c; 0x81; 0xab; 0x4c],
  [0x1f; 0x68; 0x76; 0x01; 0x16; 0x38; 0x2b; 0x0f; 0x77; 0x97; 0x92; 0x67; 0x4e; 0x86; 0x6a; 0x8b;
   0xe5; 0xe8; 0x0c; 0xf7; 0x36; 0x39; 0xb5; 0x33; 0xe6; 0xcf; 0x5e; 0xbd; 0x18; 0xfb; 0x10; 0x1f]);
 ([0x83; 0xf0; 0x0d; 0x63; 0xef; 0x53; 0x6b; 0xb5; 0x6b; 0xf9; 0x83; 0xcf; 0xde; 0x04; 0x22; 0x9b;
   0x2c; 0x0a; 0xe0; 0xa5; 0xd8; 0xc7; 0x9c; 0xa5; 0xa3; 0xf6; 0x6f; 0xcf; 0x90; 0x6b; 0x68; 0x7c],
  [0x33; 0x15; 0xd7; 0x7f; 0x1a; 0xd5; 0x21; 0x58; 0xc4; 0x18; 0xa5; 0xf0; 0xcc; 0x73; 0xa8; 0xfd;
   0xfa; 0x18; 0xd1; 0x03; 0x91; 0x8d; 0x52; 0xd2; 0xa3; 0xa4; 0xd3; 0xb1; 0xea; 0x1d; 0x0f; 0x00]);
 ([0xcc; 0x48; 0x83; 0x90; 0xe5; 0xfd; 0x3f; 0x84; 0xaa; 0xf9; 0x8b; 0x82; 0x59; 0x24; 0x34; 0x68;
   0x4f; 0x1c; 0x23; 0xd9; 0xcc; 0x71; 0xe1; 0x7f; 0x8c; 0xaf; 0xf1; 0xee; 0x00; 0xb6; 0xa0; 0x77],
  [0xf5; 0x1a; 0x61; 0xf7; 0x37; 0x9d; 0x00; 0xf4; 0xf2; 0x69; 0x6f; 0x4b; 0x01; 0x85; 0x19; 0x45;
   0x4d; 0x7f; 0x02; 0x7c; 0x6a; 0x05; 0x47; 0x6c; 0x1f; 0x81; 0x20; 0xd4; 0xe8; 0x50; 0x27; 0x72]);
 ([0x2c; 0x3a; 0xe5; 0xad; 0xf4; 0xdd; 0x2d; 0xf7; 0x5c; 0x44; 0xb5; 0x5b; 0x21; 0xa3; 0x89; 0x5f;
   0x96; 0x45; 0xca; 0x4d; 0xa4; 0x21; 0x99; 0x70; 0xda; 0xc4; 0xc4; 0xa0; 0xe5; 0xf4; 0xec; 0x0a],
  [0x07; 0x68; 0x21; 0x65; 0xe9; 0x08; 0xa0; 0x0b; 0x6a; 0x4a; 0xba; 0xb5; 0x80; 0xaf; 0xd0; 0x1b;
   0xc5; 0xf5; 0x4b; 0x73; 0x50; 0x60; 0x2d; 0x71; 0x69; 0x61; 0x0e; 0xc0; 0x20; 0x40; 0x30; 0x19]);
 ([0; 0; 0; 0; 0; 0; 0; 0; 0; 0; 0; 0; 0; 0; 0; 0;
   0; 0; 0; 0; 0; 0; 0; 0; 0; 0; 0; 0; 0; 0; 0; 0],
  [1; 0; 0; 0; 0; 0; 0; 0; 0; 0; 0; 0; 0; 0; 0; 0;
   0; 0; 0; 0; 0; 0; 0; 0; 0; 0; 0; 0; 0; 0; 0; 0]);
 ([0xd0; 0x75; 0x57; 0x3b; 0xeb; 0x5c; 0x14; 0x56; 0x50; 0xc9; 0x4f; 0xb8; 0xb8; 0x1e; 0xa3; 0xf4;
   0xab; 0xf5; 0xa9; 0x20; 0x15; 0x94; 0x82; 0xda; 0x96; 0x1c; 0x9b; 0x59; 0x8c; 0xff; 0xf4; 0x51],
  [0xc1; 0x3a; 0x86; 0xd7; 0xb0; 0x06; 0x84; 0x7f; 0x1b; 0xbd; 0xd4; 0x07; 0x78; 0x80; 0x2e; 0xb1;
   0xb4; 0xee; 0x52; 0x38; 0xee; 0x9a; 0xf9; 0xf6; 0xf3; 0x41; 0x6e; 0xd4; 0x88; 0x95; 0xac; 0x35]);
 ([0x41; 0x97; 0xbf; 0x71; 0x6a; 0x9b; 0x72; 0xec; 0xf3; 0xf8; 0x6b; 0xe6; 0x0e; 0x6c; 0x69; 0xa5;
   0x2f; 0x68; 0x52; 0xd8; 0x61; 0x81; 0xc0; 0x63; 0x3f; 0xa6; 0x3c; 0x13; 0x90; 0xe6; 0x8d; 0x56],
  [0xe8; 0x39; 0x30; 0x77; 0x23; 0xb1; 0xfd; 0x1b; 0x3d; 0x3e; 0x74; 0x4d; 0x7f; 0xae; 0x5b; 0x3a;
   0xb4; 0x65; 0x0e; 0x3a; 0x43; 0xdc; 0xdc; 0x41; 0x47; 0xe6; 0xe8; 0x92; 0x09; 0x22; 0x48; 0x4c]);
 ([0x85; 0x57; 0x9f; 0xb5; 0xc8; 0x06; 0xb2; 0x9f; 0x47; 0x3f; 0xf0; 0xfa; 0xe6; 0xa9; 0xb1; 0x9b;
   0x6f; 0x96; 0x7d; 0xf9; 0xa4; 0x65; 0x09; 0x75; 0x32; 0xa6; 0x6c; 0x7f; 0x47; 0x4b; 0x2f; 0x4f],
  [0x34; 0xe9; 0x59; 0x93; 0x9d; 0x26; 0x80; 0x54; 0xf2; 0xcc; 0x3c; 0xc2; 0x25; 0x85; 0xe3; 0x6a;
   0xc1; 0x62; 0x04; 0xa7; 0x08; 0x32; 0x6d; 0xa1; 0x39; 0x84; 0x8a; 0x3b; 0x87; 0x5f; 0x11; 0x13]);
 ([0xda; 0x03; 0x34; 0x66; 0xc4; 0x0c; 0x73; 0x6e; 0xbc; 0x24; 0xb5; 0xf9; 0x70; 0x81; 0x52; 0xe9;
   0xf4; 0x7c; 0x23; 0xdd; 0x9f; 0xb8; 0x46; 0xef; 0x1d; 0x22; 0x55; 0x7d; 0x71; 0xc4; 0x42; 0x33],
  [0xc5; 0x37; 0x69; 0x5b; 0xa8; 0xc6; 0x9d; 0xa4; 0xfc; 0x61; 0x6e; 0x68; 0x46; 0xea; 0xd7; 0x1c;
   0x67; 0xd2; 0x7d; 0xfa; 0xf1; 0xcc; 0x54; 0x8d; 0x36; 0x35; 0xc9; 0x00; 0xdf; 0x6c; 0x67; 0x50]);
 ([0; 0; 0; 0; 0; 0; 0; 0; 0; 0; 0; 0; 0; 0; 0; 0;
   0; 0; 0; 0; 0; 0; 0; 0; 0; 0; 0; 0; 0; 0; 0; 0],
  [1; 0; 0; 0; 0; 0; 0; 0; 0; 0; 0; 0; 0; 0; 0; 0;
   0; 0; 0; 0; 0; 0; 0; 0; 0; 0; 0; 0; 0; 0; 0; 0]);
 ([0x9a; 0x4d; 0x42; 0x29; 0x5d; 0xa4; 0x6b; 0x6f; 0xa8; 0x8a; 0x4d; 0x91; 0x7b; 0xd2; 0xdf; 0x36;
   0xef; 0x01; 0x22; 0xc5; 0xcc; 0x8d; 0xeb; 0x58; 0x3d; 0xb3; 0x50; 0xfc; 0x8b; 0x97; 0x96; 0x33],
  [0x93; 0x33; 0x07; 0xc8; 0x4a; 0xca; 0xd0; 0xb1; 0xab; 0xbd; 0xdd; 0xa7; 0x7c; 0xac; 0x3e; 0x45;
   0xcb; 0xcc; 0x07; 0x91; 0xbf; 0x35; 0x9d; 0xcb; 0x7d; 0x12; 0x3c; 0x11; 0x59; 0x13; 0xcf; 0x5c]);
 ([0x45; 0xb8; 0x41; 0xd7; 0xab; 0x07; 0x15; 0x00; 0x8e; 0xce; 0xdf; 0xb2; 0x43; 0x5c; 0x01; 0xdc;
   0xf4; 0x01; 0x51; 0x95; 0x10; 0x5a; 0xf6; 0x24; 0x24; 0xa0; 0x19; 0x3a; 0x09; 0x2a; 0xaa; 0x3f],
  [0xdc; 0x8e; 0xeb; 0xc6; 0xbf; 0xdd; 0x11; 0x7b; 0xe7; 0x47; 0xe6; 0xce; 0xe7; 0xb6; 0xc5; 0xe8;
   0x8a; 0xdc; 0x4b; 0x57; 0x15; 0x3b; 0x66; 0xca; 0x89; 0xa3; 0xfd; 0xac; 0x0d; 0xe1; 0x1d; 0x7a]);
 ([0x89; 0xef; 0xbf; 0x03; 0x75; 0xd0; 0x29; 0x50; 0xcb; 0x7d; 0xd6; 0xbe; 0xad; 0x5f; 0x7b; 0x00;
   0x32; 0xaa; 0x98; 0xed; 0x3f; 0x8f; 0x92; 0xcb; 0x81; 0x56; 0x01; 0x63; 0x64; 0xa3; 0x38; 0x39],
  [0x8b; 0xa4; 0xd6; 0x50; 0xb4; 0xaa; 0x5d; 0x64; 0x64; 0x76; 0x2e; 0xa1; 0xa6; 0xb3; 0xb8; 0x7c;
   0x7a; 0x56; 0xf5; 0x5c; 0x4e; 0x84; 0x5c; 0xfb; 0xdd; 0xca; 0x48; 0x8b; 0x48; 0xb9; 0xba; 0x34]);
 ([0xc5; 0xe3; 0xe8; 0xae; 0x17; 0x27; 0xe3; 0x64; 0x60; 0x71; 0x47; 0x29; 0x02; 0x0f; 0x92; 0x5d;
   0x10; 0x93; 0xc8; 0x0e; 0xa1; 0xed; 0xba; 0xa9; 0x96; 0x1c; 0xc5; 0x76; 0x30; 0xcd; 0xf9; 0x30],
  [0x95; 0xb0; 0xbd; 0x8c; 0xbc; 0xa7; 0x4f; 0x7e; 0xfd; 0x4e; 0x3a; 0xbf; 0x5f; 0x04; 0x79; 0x80;
   0x2b; 0x5a; 0x9f; 0x4f; 0x68; 0x21; 0x19; 0x71; 0xc6; 0x20; 0x01; 0x42; 0xaa; 0xdf; 0xae; 0x2c]);
 ([0; 0; 0; 0; 0; 0; 0; 0; 0; 0; 0; 0; 0; 0; 0; 0;
   0; 0; 0; 0; 0; 0; 0; 0; 0; 0; 0; 0; 0; 0; 0; 0],
  [1; 0; 0; 0; 0; 0; 0; 0; 0; 0; 0; 0; 0; 0; 0; 0;
   0; 0; 0; 0; 0; 0; 0; 0; 0; 0; 0; 0; 0; 0; 0; 0]);
 ([0x90; 0x6e; 0x7e; 0x4b; 0x71; 0x93; 0xc0; 0x72; 0xed; 0xeb; 0x71; 0x24; 0x97; 0x26; 0x9c; 0xfe;
   0xcb; 0x3e; 0x59; 0x19; 0xa8; 0x0f; 0x75; 0x7d; 0xbe; 0x18; 0xe6; 0x96; 0x1e; 0x95; 0x70; 0x60],
  [0x89; 0x66; 0x3e; 0x1d; 0x4c; 0x5f; 0xfe; 0xc0; 0x04; 0x43; 0xd6; 0x44; 0x19; 0xb5; 0xad; 0xc7;
   0x22; 0xdc; 0x71; 0x28; 0x64; 0xde; 0x41; 0x38; 0x27; 0x8f; 0x2c; 0x6b; 0x08; 0xb8; 0xb8; 0x7b]);
 ([0x3d; 0x70; 0x27; 0x9d; 0xd9; 0xaf; 0xb1; 0x27; 0xaf; 0xe3; 0x5d; 0x1e; 0x3a; 0x30; 0x54; 0x61;
   0x60; 0xe8; 0xc3; 0x26; 0x3a; 0xbc; 0x7e; 0xf5; 0x81; 0xdd; 0x64; 0x01; 0x04; 0xeb; 0xc0; 0x1e],
  [0xda; 0x2c; 0xa4; 0xd1; 0xa1; 0xc3; 0x5c; 0x6e; 0x32; 0x07; 0x1f; 0xb8; 0x0e; 0x19; 0x9e; 0x99;
   0x29; 0x33; 0x9a; 0xae; 0x7a; 0xed; 0x68; 0x42; 0x69; 0x7c; 0x07; 0xb3; 0x38; 0x2c; 0xf6; 0x3d]);
 ([0x64; 0xaa; 0xb5; 0x88; 0x79; 0x65; 0x38; 0x8c; 0x94; 0xd6; 0x62; 0x37; 0x7d; 0x64; 0xcd; 0x3a;
   0xeb; 0xff; 0xe8; 0x81; 0x09; 0xc7; 0x6a; 0x50; 0x09; 0x0d; 0x28; 0x03; 0x0d; 0x9a; 0x93; 0x0a],
  [0x42; 0xa3; 0xf1; 0xc5; 0xb4; 0x0f; 0xd8; 0xc8; 0x8d; 0x15; 0x31; 0xbd; 0xf8; 0x07; 0x8b; 0xcd;
   0x08; 0x8a; 0xfb; 0x18; 0x07; 0xfe; 0x8e; 0x52; 0x86; 0xef; 0xbe; 0xec; 0x49; 0x52; 0x99; 0x08]);
 ([0x0f; 0xa9; 0xd5; 0x01; 0xaa; 0x48; 0x4f; 0x28; 0x66; 0x32; 0x1a; 0xba; 0x7c; 0xea; 0x11; 0x80;
   0x17; 0x18; 0x9b; 0x56; 0x88; 0x25; 0x06; 0x69; 0x12; 0x2c; 0xea; 0x56; 0x69; 0x41; 0x24; 0x19],
  [0xde; 0x21; 0xf0; 0xda; 0x8a; 0xfb; 0xb1; 0xb8; 0xcd; 0xc8; 0x6a; 0x82; 0x19; 0x73; 0xdb; 0xc7;
   0xcf; 0x88; 0xeb; 0x96; 0xee; 0x6f; 0xfb; 0x06; 0xd2; 0xcd; 0x7d; 0x7b; 0x12; 0x28; 0x8e; 0x0c]);
 ([0; 0; 0; 0; 0; 0; 0; 0; 0; 0; 0; 0; 0; 0; 0; 0;
   0; 0; 0; 0; 0; 0; 0; 0; 0; 0; 0; 0; 0; 0; 0; 0],
  [1; 0; 0; 0; 0; 0; 0; 0; 0; 0; 0; 0; 0; 0; 0; 0;
   0; 0; 0; 0; 0; 0; 0; 0; 0; 0; 0; 0; 0; 0; 0; 0]);
 ([0x93; 0x44; 0x97; 0xce; 0x28; 0xff; 0x3a; 0x40; 0xc4; 0xf5; 0xf6; 0x9b; 0xf4; 0x6b; 0x07; 0x84;
   0xfb; 0x98; 0xd8; 0xec; 0x8c; 0x03; 0x57; 0xec; 0x49; 0xed; 0x63; 0xb6; 0xaa; 0xff; 0x98; 0x28],
  [0x3d; 0x16; 0x35; 0xf3; 0x46; 0xbc; 0xb3; 0xf4; 0xc6; 0xb6; 0x4f; 0xfa; 0xf4; 0xa0; 0x13; 0xe6;
   0x57; 0x45; 0x93; 0xb9; 0xbc; 0xd6; 0x59; 0xe7; 0x77; 0x94; 0x6c; 0xab; 0x96; 0x3b; 0x4f; 0x09]);
 ([0x5a; 0xf7; 0x6b; 0x01; 0x12; 0x4f; 0x51; 0xc1; 0x70; 0x84; 0x94; 0x47; 0xb2; 0x01; 0x6c; 0x71;
   0xd7; 0xcc; 0x17; 0x66; 0x0f; 0x59; 0x5d; 0x5d; 0x10; 0x01; 0x57; 0x11; 0xf5; 0xdd; 0xe2; 0x34],
  [0x26; 0xd9; 0x1f; 0x5c; 0x58; 0xac; 0x8b; 0x03; 0xd2; 0xc3; 0x85; 0x0f; 0x3a; 0xc3; 0x7f; 0x6d;
   0x8e; 0x86; 0xcd; 0x52; 0x74; 0x8f; 0x55; 0x77; 0x17; 0xb7; 0x8e; 0xb7; 0x88; 0xea; 0xda; 0x1b]);
 ([0xb6; 0xea; 0x0e; 0x40; 0x93; 0x20; 0x79; 0x35; 0x6a; 0x61; 0x84; 0x5a; 0x07; 0x6d; 0xf9; 0x77;
   0x6f; 0xed; 0x69; 0x1c; 0x0d; 0x25; 0x76; 0xcc; 0xf0; 0xdb; 0xbb; 0xc5; 0xad; 0xe2; 0x26; 0x57],
  [0xcf; 0xe8; 0x0e; 0x6b; 0x96; 0x7d; 0xed; 0x27; 0xd1; 0x3c; 0xa9; 0xd9; 0x50; 0xa9; 0x98; 0x84;
   0x5e; 0x86; 0xef; 0xd6; 0xf0; 0xf8; 0x0e; 0x89; 0x05; 0x2f; 0xd9; 0x5f; 0x15; 0x5f; 0x73; 0x79]);
 ([0xc8; 0x5c; 0x16; 0xfe; 0xed; 0x9f; 0x26; 0x56; 0xf6; 0x4b; 0x9f; 0xa7; 0x0a; 0x85; 0xfe; 0xa5;
   0x8c; 0x87; 0xdd; 0x98; 0xce; 0x4e; 0xc3; 0x58; 0x55; 0xb2; 0x7b; 0x3d; 0xd8; 0x6b; 0xb5; 0x4c],
  [0x65; 0x38; 0xa0; 0x15; 0xfa; 0xa7; 0xb4; 0x8f; 0xeb; 0xc4; 0x86; 0x9b; 0x30; 0xa5; 0x5e; 0x4d;
   0xea; 0x8a; 0x9a; 0x9f; 0x1a; 0xd8; 0x5b; 0x53; 0x14; 0x19; 0x25; 0x63; 0xb4; 0x6f; 0x1f; 0x5d]);
 ([0; 0; 0; 0; 0; 0; 0; 0; 0; 0; 0; 0; 0; 0; 0; 0;
   0; 0; 0; 0; 0; 0; 0; 0; 0; 0; 0; 0; 0; 0; 0; 0],
  [1; 0; 0; 0; 0; 0; 0; 0; 0; 0; 0; 0; 0; 0; 0; 0;
   0; 0; 0; 0; 0; 0; 0; 0; 0; 0; 0; 0; 0; 0; 0; 0]);
 ([0xac; 0x8f; 0xbc; 0x1e; 0x7d; 0x8b; 0x5a; 0x0b; 0x8d; 0xaf; 0x76; 0x2e; 0x71; 0xe3; 0x3b; 0x6f;
   0x53; 0x2f; 0x3e; 0x90; 0x95; 0xd4; 0x35; 0x14; 0x4f; 0x8c; 0x3c; 0xce; 0x57; 0x1c; 0x76; 0x49],
  [0xa8; 0x50; 0xe1; 0x61; 0x6b; 0x57; 0x35; 0xeb; 0x44; 0x0b; 0x0c; 0x6e; 0xf9; 0x25; 0x80; 0x74;
   0xf2; 0x8f; 0x6f; 0x7a; 0x3e; 0x7f; 0x2d; 0xf3; 0x4e; 0x09; 0x65; 0x10; 0x5e; 0x03; 0x25; 0x32]);
 ([0xa9; 0x60; 0xdc; 0x0f; 0x64; 0xe5; 0x1d; 0xe2; 0x8d; 0x4f; 0x79; 0x2f; 0x0e; 0x24; 0x02; 0x00;
   0x05; 0x77; 0x43; 0x25; 0x3d; 0x6a; 0xc7; 0xb7; 0xbf; 0x04; 0x08; 0x65; 0xf4; 0x39; 0x4b; 0x65],
  [0x96; 0x19; 0x12; 0x6b; 0x6a; 0xb7; 0xe3; 0xdc; 0x45; 0x9b; 0xdb; 0xb4; 0xa8; 0xae; 0xdc; 0xa8;
   0x14; 0x44; 0x65; 0x62; 0xce; 0x34; 0x9a; 0x84; 0x18; 0x12; 0x01; 0xf1; 0xe2; 0x7b; 0xce; 0x50]);
 ([0x41; 0x21; 0x30; 0x53; 0x1b; 0x47; 0x01; 0xb7; 0x18; 0xd8; 0x82; 0x57; 0xbd; 0xa3; 0x60; 0xf0;
   0x32; 0xf6; 0x5b; 0xf0; 0x30; 0x88; 0x91; 0x59; 0xfd; 0x90; 0xa2; 0xb9; 0x55; 0x93; 0x21; 0x34],
  [0x97; 0x67; 0x9e; 0xeb; 0x6a; 0xf9; 0x6e; 0xd6; 0x73; 0xe8; 0x6b; 0x29; 0xec; 0x63; 0x82; 0x00;
   0xa8; 0x99; 0x1c; 0x1d; 0x30; 0xc8; 0x90; 0x52; 0x90; 0xb6; 0x6a; 0x80; 0x4e; 0xff; 0x4b; 0x51]);
 ([0x0f; 0x7d; 0x63; 0x8c; 0x6e; 0x5c; 0xde; 0x30; 0xdf; 0x65; 0xfa; 0x2e; 0xb0; 0xa3; 0x25; 0x05;
   0x54; 0xbd; 0x25; 0xba; 0x06; 0xae; 0xdf; 0x8b; 0xd9; 0x1b; 0xea; 0x38; 0xb3; 0x05; 0x16; 0x09],
  [0xc7; 0x8c; 0xbf; 0x64; 0x28; 0xad; 0xf8; 0xa5; 0x5a; 0x6f; 0xc9; 0xba; 0xd5; 0x7f; 0xd5; 0xd6;
   0xbd; 0x66; 0x2f; 0x3d; 0xaa; 0x54; 0xf6; 0xba; 0x32; 0x22; 0x9a; 0x1e; 0x52; 0x05; 0xf4; 0x1d]);
 ([0; 0; 0; 0; 0; 0; 0; 0; 0; 0; 0; 0; 0; 0; 0; 0;
   0; 0; 0; 0; 0; 0; 0; 0; 0; 0; 0; 0; 0; 0; 0; 0],
  [1; 0; 0; 0; 0; 0; 0; 0; 0; 0; 0; 0; 0; 0; 0; 0;
   0; 0; 0; 0; 0; 0; 0; 0; 0; 0; 0; 0; 0; 0; 0; 0]);
 ([0xaa; 0x1f; 0xbb; 0xeb; 0xfe; 0xe4; 0x87; 0xfc; 0xb1; 0x2c; 0xb7; 0x88; 0xf4; 0xc6; 0xb9; 0xf5;
   0x24; 0x46; 0xf2; 0xa5; 0x9f; 0x8f; 0x8a; 0x93; 0x70; 0x69; 0xd4; 0x56; 0xec; 0xfd; 0x06; 0x46],
  [0x4e; 0x66; 0xcf; 0x4e; 0x34; 0xce; 0x0c; 0xd9; 0xa6; 0x50; 0xd6; 0x5e; 0x95; 0xaf; 0xe9; 0x58;
   0xfa; 0xee; 0x9b; 0xb8; 0xa5; 0x0f; 0x35; 0xe0; 0x43; 0x82; 0x6d; 0x65; 0xe6; 0xd9; 0x00; 0x0f]);
 ([0x7b; 0x75; 0x3a; 0xfc; 0x64; 0xd3; 0x29; 0x7e; 0xdd; 0x49; 0x9a; 0x59; 0x53; 0xbf; 0xb4; 0xa7;
   0x52; 0xb3; 0x05; 0xab; 0xc3; 0xaf; 0x16; 0x1a; 0x85; 0x42; 0x32; 0xa2; 0x86; 0xfa; 0x39; 0x43],
  [0x0e; 0x4b; 0xa3; 0x63; 0x8a; 0xfe; 0xa5; 0x58; 0xf1; 0x13; 0xbd; 0x9d; 0xaa; 0x7f; 0x76; 0x40;
   0x70; 0x81; 0x10; 0x75; 0x99; 0xbb; 0xbe; 0x0b; 0x16; 0xe9; 0xba; 0x62; 0x34; 0xcc; 0x07; 0x6d]);
 ([0xc3; 0xf1; 0xc6; 0x93; 0x65; 0xee; 0x0b; 0xbc; 0xea; 0x14; 0xf0; 0xc1; 0xf8; 0x84; 0x89; 0xc2;
   0xc9; 0xd7; 0xea; 0x34; 0xca; 0xa7; 0xc4; 0x99; 0xd5; 0x50; 0x69; 0xcb; 0xd6; 0x21; 0x63; 0x7c],
  [0x99; 0xeb; 0x7c; 0x31; 0x73; 0x64; 0x67; 0x7f; 0x0c; 0x66; 0xaa; 0x8c; 0x69; 0x91; 0xe2; 0x26;
   0xd3; 0x23; 0xe2; 0x76; 0x5d; 0x32; 0x52; 0xdf; 0x5d; 0xc5; 0x8f; 0xb7; 0x7c; 0x84; 0xb3; 0x70]);
 ([0xeb; 0x01; 0xc7; 0x36; 0x97; 0x4e; 0xb6; 0xab; 0x5f; 0x0d; 0x2c; 0xba; 0x67; 0x64; 0x55; 0xde;
   0xbc; 0xff; 0xa6; 0xec; 0x04; 0xd3; 0x8d; 0x39; 0x56; 0x5e; 0xee; 0xf8; 0xe4; 0x2e; 0x33; 0x62],
  [0x65; 0xef; 0xb8; 0x9f; 0xc8; 0x4b; 0xa7; 0xfd; 0x21; 0x49; 0x9b; 0x92; 0x35; 0x82; 0xd6; 0x0a;
   0x9b; 0xf2; 0x79; 0xf1; 0x47; 0x2f; 0x6a; 0x7e; 0x9f; 0xcf; 0x18; 0x02; 0x3c; 0xfb; 0x1b; 0x3e]);
 ([0; 0; 0; 0; 0; 0; 0; 0; 0; 0; 0; 0; 0; 0; 0; 0;
   0; 0; 0; 0; 0; 0; 0; 0; 0; 0; 0; 0; 0; 0; 0; 0],
  [1; 0; 0; 0; 0; 0; 0; 0; 0; 0; 0; 0; 0; 0; 0; 0;
   0; 0; 0; 0; 0; 0; 0; 0; 0; 0; 0; 0; 0; 0; 0; 0]);
 ([0x2f; 0x8b; 0xc8; 0x40; 0x51; 0xd1; 0xac; 0x1a; 0x0b; 0xe4; 0xa9; 0xa2; 0x42; 0x21; 0x19; 0x2f;
   0x7b; 0x97; 0xbf; 0xf7; 0x57; 0x6d; 0x3f; 0x3d; 0x4f; 0x0f; 0xe2; 0xb2; 0x81; 0x00; 0x9e; 0x7b],
  [0x8c; 0x85; 0x2b; 0xc4; 0xfc; 0xf1; 0xab; 0xe8; 0x79; 0x22; 0xc4; 0x84; 0x17; 0x3a; 0xfa; 0x86;
   0xa6; 0x7d; 0xf9; 0xf3; 0x6f; 0x03; 0x57; 0x20; 0x4d; 0x79; 0xf9; 0x6e; 0x71; 0x54; 0x38; 0x09]);
 ([0x40; 0x29; 0x74; 0xa8; 0x2f; 0x5e; 0xf9; 0x79; 0xa4; 0xf3; 0x3e; 0xb9; 0xfd; 0x33; 0x31; 0xac;
   0x9a; 0x69; 0x88; 0x1e; 0x77; 0x21; 0x2d; 0xf3; 0x91; 0x52; 0x26; 0x15; 0xb2; 0xa6; 0xcf; 0x7e],
  [0xc6; 0x20; 0x47; 0x6c; 0xa4; 0x7d; 0xcb; 0x63; 0xea; 0x5b; 0x03; 0xdf; 0x3e; 0x88; 0x81; 0x6d;
   0xce; 0x07; 0x42; 0x18; 0x60; 0x7e; 0x7b; 0x55; 0xfe; 0x6a; 0xf3; 0xda; 0x5c; 0x8b; 0x95; 0x10]);
 ([0x62; 0xe4; 0x0d; 0x03; 0xb4; 0xd7; 0xcd; 0xfa; 0xbd; 0x46; 0xdf; 0x93; 0x71; 0x10; 0x2c; 0xa8;
   0x3b; 0xb6; 0x09; 0x05; 0x70; 0x84; 0x43; 0x29; 0xa8; 0x59; 0xf5; 0x8e; 0x10; 0xe4; 0xd7; 0x20],
  [0x57; 0x82; 0x1c; 0xab; 0xbf; 0x62; 0x70; 0xe8; 0xc4; 0xcf; 0xf0; 0x28; 0x6e; 0x16; 0x3c; 0x08;
   0x78; 0x89; 0x85; 0x46; 0x0f; 0xf6; 0x7f; 0xcf; 0xcb; 0x7e; 0xb8; 0x25; 0xe9; 0x5a; 0xfa; 0x03]);
 ([0xfb; 0x95; 0x92; 0x63; 0x50; 0xfc; 0x62; 0xf0; 0xa4; 0x5e; 0x8c; 0x18; 0xc2; 0x17; 0x24; 0xb7;
   0x78; 0xc2; 0xa9; 0xe7; 0x6a; 0x32; 0xd6; 0x29; 0x85; 0xaf; 0xcb; 0x8d; 0x91; 0x13; 0xda; 0x6b],
  [0x36; 0x0a; 0xc2; 0xb6; 0x4b; 0xa5; 0x5d; 0x07; 0x17; 0x41; 0x31; 0x5f; 0x62; 0x46; 0xf8; 0x92;
   0xf9; 0x66; 0x48; 0x73; 0xa6; 0x97; 0x0d; 0x7d; 0x88; 0xee; 0x62; 0xb1; 0x03; 0xa8; 0x3f; 0x2c]);
 ([0; 0; 0; 0; 0; 0; 0; 0; 0; 0; 0; 0; 0; 0; 0; 0;
   0; 0; 0; 0; 0; 0; 0; 0; 0; 0; 0; 0; 0; 0; 0; 0],
  [1; 0; 0; 0; 0; 0; 0; 0; 0; 0; 0; 0; 0; 0; 0; 0;
   0; 0; 0; 0; 0; 0; 0; 0; 0; 0; 0; 0; 0; 0; 0; 0]);
 ([0x4a; 0xb1; 0x70; 0x8a; 0xa9; 0xe8; 0x63; 0x79; 0x00; 0xe2; 0x25; 0x16; 0xca; 0x4b; 0x0f; 0xa4;
   0x66; 0xad; 0x19; 0x9f; 0x88; 0x67; 0x0c; 0x8b; 0xc2; 0x4a; 0x5b; 0x2b; 0x6d; 0x95; 0xaf; 0x19],
  [0x8b; 0x9d; 0xb6; 0xcc; 0x60; 0xb4; 0x72; 0x4f; 0x17; 0x69; 0x5a; 0x4a; 0x68; 0x34; 0xab; 0xa1;
   0x45; 0x32; 0x3c; 0x83; 0x87; 0x72; 0x30; 0x54; 0x77; 0x68; 0xae; 0xfb; 0xb5; 0x8b; 0x22; 0x5e]);
 ([0xf1; 0xb9; 0x87; 0x35; 0xc5; 0xbb; 0xb9; 0xcf; 0xf5; 0xd6; 0xcd; 0xd5; 0x0c; 0x7c; 0x0e; 0xe6;
   0x90; 0x34; 0xfb; 0x51; 0x42; 0x1e; 0x6d; 0xac; 0x9a; 0x46; 0xc4; 0x97; 0x29; 0x32; 0xbf; 0x45],
  [0x66; 0x9e; 0xc6; 0x24; 0xc0; 0xed; 0xa5; 0x5d; 0x88; 0xd4; 0xf0; 0x73; 0x97; 0x7b; 0xea; 0x7f;
   0x42; 0xff; 0x21; 0xa0; 0x9b; 0x2f; 0x9a; 0xfd; 0x53; 0x57; 0x07; 0x84; 0x48; 0x88; 0x9d; 0x52]);
 ([0xc6; 0x96; 0x48; 0x34; 0x2a; 0x06; 0xaf; 0x94; 0x3d; 0xf4; 0x1a; 0xcf; 0xf2; 0xc0; 0x21; 0xc2;
   0x42; 0x5e; 0xc8; 0x2f; 0x35; 0xa2; 0x3e; 0x29; 0xfa; 0x0c; 0x84; 0xe5; 0x89; 0x72; 0x7c; 0x06],
  [0x32; 0x65; 0x03; 0xe5; 0x89; 0xa6; 0x6e; 0xb3; 0x5b; 0x8e; 0xca; 0xeb; 0xfe; 0x22; 0x56; 0x8b;
   0x5d; 0x14; 0x4b; 0x4d; 0xf9; 0xbe; 0xb5; 0xf5; 0xe6; 0x5c; 0x7b; 0x8b; 0xf4; 0x13; 0x11; 0x34]);
 ([0x07; 0xc6; 0x22; 0x15; 0xe2; 0x9c; 0x60; 0xa2; 0x19; 0xd9; 0x27; 0xae; 0x37; 0x4e; 0xa6; 0xc9;
   0x80; 0xa6; 0x91; 0x8f; 0x12; 0x49; 0xe5; 0x00; 0x18; 0x47; 0xd1; 0xd7; 0x28; 0x22; 0x63; 0x39],
  [0xe8; 0xe2; 0x00; 0x7e; 0xf2; 0x9e; 0x1e; 0x99; 0x39; 0x95; 0x04; 0xbd; 0x1e; 0x67; 0x7b; 0xb2;
   0x26; 0xac; 0xe6; 0xaa; 0xe2; 0x46; 0xd5; 0xe4; 0xe8; 0x86; 0xbd; 0xab; 0x7c; 0x55; 0x59; 0x6f]);
 ([0; 0; 0; 0; 0; 0; 0; 0; 0; 0; 0; 0; 0; 0; 0; 0;
   0; 0; 0; 0; 0; 0; 0; 0; 0; 0; 0; 0; 0; 0; 0; 0],
  [1; 0; 0; 0; 0; 0; 0; 0; 0; 0; 0; 0; 0; 0; 0; 0;
   0; 0; 0; 0; 0; 0; 0; 0; 0; 0; 0; 0; 0; 0; 0; 0]);
 ([0x24; 0x64; 0x6e; 0x9b; 0x35; 0x71; 0x78; 0xce; 0x33; 0x03; 0x21; 0x33; 0x36; 0xf1; 0x73; 0x9b;
   0xb9; 0x15; 0x8b; 0x2c; 0x69; 0xcf; 0x4d; 0xed; 0x4f; 0x4d; 0x57; 0x14; 0x13; 0x82; 0xa4; 0x4d],
  [0x65; 0x6e; 0x0a; 0xa4; 0x59; 0x07; 0x17; 0xf2; 0x6b; 0x4a; 0x1f; 0x6e; 0xf6; 0xb5; 0xbc; 0x62;
   0xe4; 0xb6; 0xda; 0xa2; 0x93; 0xbc; 0x29; 0x05; 0xd2; 0xd2; 0x73; 0x46; 0x03; 0x16; 0x40; 0x31]);
 ([0x4c; 0x73; 0x6d; 0x15; 0xbd; 0xa1; 0x4d; 0x5c; 0x13; 0x0b; 0x24; 0x06; 0x98; 0x78; 0x1c; 0x5b;
   0xeb; 0x1f; 0x18; 0x54; 0x43; 0xd9; 0x55; 0x66; 0xda; 0x29; 0x21; 0xe8; 0xb8; 0x3c; 0x42; 0x22],
  [0xb4; 0xcd; 0x08; 0x6f; 0x15; 0x23; 0x1a; 0x0b; 0x22; 0xed; 0xd1; 0xf1; 0xa7; 0xc7; 0x73; 0x45;
   0xf3; 0x9e; 0xce; 0x76; 0xb7; 0xf6; 0x39; 0xb6; 0x8e; 0x79; 0xbe; 0xe9; 0x9b; 0xcf; 0x7d; 0x62]);
 ([0x92; 0x5b; 0xfc; 0x72; 0xfd; 0xba; 0xf1; 0xfd; 0xa6; 0x7c; 0x95; 0xe3; 0x61; 0x3f; 0xe9; 0x03;
   0xd4; 0x2b; 0xd4; 0x20; 0xd9; 0xdb; 0x4d; 0x32; 0x3e; 0xf5; 0x11; 0x64; 0xe3; 0xb4; 0xbe; 0x32],
  [0x86; 0x17; 0x90; 0xe7; 0xc9; 0x1f; 0x10; 0xa5; 0x6a; 0x2d; 0x39; 0xd0; 0x3b; 0xc4; 0xa6; 0xe9;
   0x59; 0x13; 0xda; 0x1a; 0xe6; 0xa0; 0xb9; 0x3c; 0x50; 0xb8; 0x40; 0x7c; 0x15; 0x36; 0x5a; 0x42]);
 ([0xb4; 0x0b; 0x32; 0xab; 0xdc; 0x04; 0x51; 0x55; 0x21; 0x1e; 0x0b; 0x75; 0x99; 0x89; 0x73; 0x35;
   0x3a; 0x91; 0x2b; 0xfe; 0xe7; 0x49; 0xea; 0x76; 0xc1; 0xf9; 0x46; 0xb9; 0x53; 0x02; 0x23; 0x04],
  [0xfc; 0x5a; 0x1e; 0x1d; 0x74; 0x58; 0x95; 0xa6; 0x8f; 0x7b; 0x97; 0x3e; 0x17; 0x3b; 0x79; 0x2d;
   0xa6; 0x57; 0xef; 0x45; 0x02; 0x0b; 0x4d; 0x6e; 0x9e; 0x93; 0x8d; 0x2f; 0xd9; 0x9d; 0xdb; 0x04]);
 ([0; 0; 0; 0; 0; 0; 0; 0; 0; 0; 0; 0; 0; 0; 0; 0;
   0; 0; 0; 0; 0; 0; 0; 0; 0; 0; 0; 0; 0; 0; 0; 0],
  [1; 0; 0; 0; 0; 0; 0; 0; 0; 0; 0; 0; 0; 0; 0; 0;
   0; 0; 0; 0; 0; 0; 0; 0; 0; 0; 0; 0; 0; 0; 0; 0]);
 ([0xc0; 0xd7; 0x56; 0x97; 0x58; 0x91; 0xde; 0x09; 0x4f; 0x9f; 0xbe; 0x63; 0xb0; 0x83; 0x86; 0x43;
   0x5d; 0xbc; 0xe0; 0xf3; 0xc0; 0x75; 0xbf; 0x8b; 0x8e; 0xaa; 0xf7; 0x8b; 0x64; 0x6e; 0xb0; 0x63],
  [0x16; 0xae; 0x8b; 0xe0; 0x9b; 0x24; 0x68; 0x5c; 0x44; 0xc2; 0xd0; 0x08; 0xb7; 0x7b; 0x62; 0xfd;
   0x7f; 0xd8; 0xd4; 0xb7; 0x50; 0xfd; 0x2c; 0x1b; 0xbf; 0x41; 0x95; 0xd9; 0x8e; 0xd8; 0x17; 0x1b]);
 ([0x86; 0x55; 0x37; 0x8e; 0xc3; 0x38; 0x48; 0x14; 0xb5; 0x97; 0xd2; 0xa7; 0x54; 0x45; 0xf1; 0x35;
   0x44; 0x38; 0x9e; 0xf1; 0x1b; 0xb6; 0x34; 0x00; 0x3c; 0x96; 0xee; 0x29; 0x00; 0xea; 0x2c; 0x0b],
  [0xea; 0xda; 0x99; 0x9e; 0x19; 0x83; 0x66; 0x6d; 0xe9; 0x76; 0x87; 0x50; 0xd1; 0xfd; 0x3c; 0x60;
   0x87; 0xc6; 0x41; 0xd9; 0x8e; 0xdb; 0x5e; 0xde; 0xaa; 0x9a; 0xd3; 0x28; 0xda; 0x95; 0xea; 0x47]);
 ([0xd0; 0x80; 0xba; 0x19; 0xae; 0x1d; 0xa9; 0x79; 0xf6; 0x3f; 0xac; 0x5d; 0x6f; 0x96; 0x1f; 0x2a;
   0xce; 0x29; 0xb2; 0xff; 0x37; 0xf1; 0x94; 0x8f; 0x0c; 0xb5; 0x28; 0xba; 0x9a; 0x21; 0xf6; 0x66],
  [0x02; 0xfb; 0x54; 0xb8; 0x05; 0xf3; 0x81; 0x52; 0x69; 0x34; 0x46; 0x9d; 0x86; 0x76; 0x8f; 0xd7;
   0xf8; 0x6a; 0x66; 0xff; 0xe6; 0xa7; 0x90; 0xf7; 0x5e; 0xcd; 0x6a; 0x9b; 0x55; 0xfc; 0x9d; 0x48]);
 ([0xbd; 0xaa; 0x13; 0xe6; 0xcd; 0x45; 0x4a; 0xa4; 0x59; 0x0a; 0x64; 0xb1; 0x98; 0xd6; 0x34; 0x13;
   0x04; 0xe6; 0x97; 0x94; 0x06; 0xcb; 0xd4; 0x4e; 0xbb; 0x96; 0xcd; 0xd1; 0x57; 0xd1; 0xe3; 0x06],
  [0x7a; 0x6c; 0x45; 0x27; 0xc4; 0x93; 0x7f; 0x7d; 0x7c; 0x62; 0x50; 0x38; 0x3a; 0x6b; 0xb5; 0x88;
   0xc6; 0xd9; 0xf1; 0x78; 0x19; 0xb9; 0x39; 0x93; 0x3d; 0xc9; 0xe0; 0x9c; 0x3c; 0xce; 0xf5; 0x72]);
 ([0; 0; 0; 0; 0; 0; 0; 0; 0; 0; 0; 0; 0; 0; 0; 0;
   0; 0; 0; 0; 0; 0; 0; 0; 0; 0; 0; 0; 0; 0; 0; 0],
  [1; 0; 0; 0; 0; 0; 0; 0; 0; 0; 0; 0; 0; 0; 0; 0;
   0; 0; 0; 0; 0; 0; 0; 0; 0; 0; 0; 0; 0; 0; 0; 0]);
 ([0x24; 0xea; 0x23; 0x7d; 0x56; 0x2c; 0xe2; 0x59; 0x0e; 0x85; 0x60; 0x04; 0x88; 0x5a; 0x74; 0x1e;
   0x4b; 0xef; 0x13; 0xda; 0x4c; 0xff; 0x83; 0x45; 0x85; 0x3f; 0x08; 0x95; 0x2c; 0x20; 0x13; 0x1f],
  [0x48; 0x5f; 0x27; 0x90; 0x5c; 0x02; 0x42; 0xad; 0x78; 0x47; 0x5c; 0xb5; 0x7e; 0x08; 0x85; 0x00;
   0xfa; 0x7f; 0xfd; 0xfd; 0xe7; 0x09; 0x11; 0xf2; 0x7e; 0x1b; 0x38; 0x6c; 0x35; 0x6d; 0x33; 0x66]);
 ([0x93; 0x03; 0x36; 0x81; 0xac; 0xe4; 0x20; 0x09; 0x35; 0x4c; 0x45; 0xb2; 0x1e; 0x4c; 0x14; 0x21;
   0xe6; 0xe9; 0x8a; 0x7b; 0x8d; 0xfe; 0x1e; 0xc6; 0x3e; 0xc1; 0x35; 0xfa; 0xe7; 0x70; 0x4e; 0x1d],
  [0x61; 0x2e; 0xc2; 0xdd; 0x95; 0x57; 0xd1; 0xab; 0x80; 0xe8; 0x63; 0x17; 0xb5; 0x48; 0xe4; 0x8a;
   0x11; 0x9e; 0x72; 0xbe; 0x85; 0x8d; 0x51; 0x0a; 0xf2; 0x9f; 0xe0; 0x1c; 0xa9; 0x07; 0x28; 0x7b]);
 ([0xbb; 0x71; 0x14; 0x5e; 0x26; 0x8c; 0x3d; 0xc8; 0xe9; 0x7c; 0xd3; 0xd6; 0xd1; 0x2f; 0x07; 0x6d;
   0xe6; 0xdf; 0xfb; 0x79; 0xd6; 0x99; 0x59; 0x96; 0x48; 0x40; 0x0f; 0x3a; 0x7b; 0xb2; 0xa0; 0x72],
  [0x4e; 0x3b; 0x69; 0xc8; 0x43; 0x75; 0x51; 0x6c; 0x79; 0x56; 0xe4; 0xcb; 0xf7; 0xa6; 0x51; 0xc2;
   0x2c; 0x42; 0x0b; 0xd4; 0x82; 0x20; 0x1c; 0x01; 0x08; 0x66; 0xd7; 0xbf; 0x04; 0x56; 0xfc; 0x02]);
 ([0x24; 0xe8; 0xb7; 0x60; 0xae; 0x47; 0x80; 0xfc; 0xe5; 0x23; 0xe7; 0xc2; 0xc9; 0x85; 0xe6; 0x98;
   0xa0; 0x29; 0x4e; 0xe1; 0x84; 0x39; 0x2d; 0x95; 0x2c; 0xf3; 0x45; 0x3c; 0xff; 0xaf; 0x27; 0x4c],
  [0x6b; 0xa6; 0xf5; 0x4b; 0x11; 0xbd; 0xba; 0x5b; 0x9e; 0xc4; 0xa4; 0x51; 0x1e; 0xbe; 0xd0; 0x90;
   0x3a; 0x9c; 0xc2; 0x26; 0xb6; 0x1e; 0xf1; 0x95; 0x7d; 0xc8; 0x6d; 0x52; 0xe6; 0x99; 0x2c; 0x5f]);
 ([0; 0; 0; 0; 0; 0; 0; 0; 0; 0; 0; 0; 0; 0; 0; 0;
   0; 0; 0; 0; 0; 0; 0; 0; 0; 0; 0; 0; 0; 0; 0; 0],
  [1; 0; 0; 0; 0; 0; 0; 0; 0; 0; 0; 0; 0; 0; 0; 0;
   0; 0; 0; 0; 0; 0; 0; 0; 0; 0; 0; 0; 0; 0; 0; 0]);
 ([0x85; 0xe0; 0x24; 0x32; 0xb4; 0xd1; 0xef; 0xfc; 0x69; 0xa2; 0xbf; 0x8f; 0x72; 0x2c; 0x95; 0xf6;
   0xe4; 0x6e; 0x7d; 0x90; 0xf7; 0x57; 0x81; 0xa0; 0xf7; 0xda; 0xef; 0x33; 0x07; 0xe3; 0x6b; 0x78],
  [0x36; 0x27; 0x3e; 0xc6; 0x12; 0x07; 0xab; 0x4e; 0xbe; 0x69; 0x9d; 0xb3; 0xbe; 0x08; 0x7c; 0x2a;
   0x47; 0x08; 0xfd; 0xd4; 0xcd; 0x0e; 0x27; 0x34; 0x5b; 0x98; 0x34; 0x2f; 0x77; 0x5f; 0x3a; 0x65]);
 ([0x13; 0xaa; 0x2e; 0x4c; 0xf0; 0x22; 0xb8; 0x6c; 0xb3; 0x19; 0x4d; 0xeb; 0x6b; 0xd0; 0xa4; 0xc6;
   0x9c; 0xdd; 0xc8; 0x5b; 0x81; 0x57; 0x89; 0xdf; 0x33; 0xa9; 0x68; 0x49; 0x80; 0xe4; 0xfe; 0x21],
  [0x00; 0x17; 0x90; 0x30; 0xe9; 0xd3; 0x60; 0x30; 0x31; 0xc2; 0x72; 0x89; 0x7a; 0x36; 0xa5; 0xbd;
   0x39; 0x83; 0x85; 0x50; 0xa1; 0x5d; 0x6c; 0x41; 0x1d; 0xb5; 0x2c; 0x07; 0x40; 0x77; 0x0b; 0x50]);
 ([0x64; 0x34; 0xec; 0xc0; 0x9e; 0x44; 0x41; 0xaf; 0xa0; 0x36; 0x05; 0x6d; 0xea; 0x30; 0x25; 0x46;
   0x35; 0x24; 0x9d; 0x86; 0xbd; 0x95; 0xf1; 0x6a; 0x46; 0xd7; 0x94; 0x54; 0xf9; 0x3b; 0xbd; 0x5d],
  [0x77; 0x5b; 0xe2; 0x37; 0xc7; 0xe1; 0x7c; 0x13; 0x8c; 0x9f; 0x7b; 0x7b; 0x2a; 0xce; 0x42; 0xa3;
   0xb9; 0x2a; 0x99; 0xa8; 0xc0; 0xd8; 0x3c; 0x86; 0xb0; 0xfb; 0xe9; 0x76; 0x77; 0xf7; 0xf5; 0x56]);
 ([0xdf; 0xb3; 0x46; 0x11; 0x6e; 0x13; 0xb7; 0x28; 0x4e; 0x56; 0xdd; 0xf1; 0xac; 0xad; 0x58; 0xc3;
   0xf8; 0x88; 0x94; 0x5e; 0x06; 0x98; 0xa1; 0xe4; 0x6a; 0xfb; 0x0a; 0x49; 0x5d; 0x8a; 0xfe; 0x77],
  [0x46; 0x02; 0xf5; 0xa5; 0xaf; 0xc5; 0x75; 0x6d; 0xba; 0x45; 0x35; 0x0a; 0xfe; 0xc9; 0xac; 0x22;
   0x91; 0x8d; 0x21; 0x95; 0x33; 0x03; 0xc0; 0x8a; 0x16; 0xf3; 0x39; 0xe0; 0x01; 0x0f; 0x53; 0x3c]);
 ([0; 0; 0; 0; 0; 0; 0; 0; 0; 0; 0; 0; 0; 0; 0; 0;
   0; 0; 0; 0; 0; 0; 0; 0; 0; 0; 0; 0; 0; 0; 0; 0],
  [1; 0; 0; 0; 0; 0; 0; 0; 0; 0; 0; 0; 0; 0; 0; 0;
   0; 0; 0; 0; 0; 0; 0; 0; 0; 0; 0; 0; 0; 0; 0; 0]);
 ([0x34; 0x75; 0x37; 0x1f; 0x34; 0x4e; 0xa9; 0x1d; 0x68; 0x67; 0xf8; 0x49; 0x98; 0x96; 0xfc; 0x4c;
   0x65; 0x97; 0xf7; 0x02; 0x4a; 0x52; 0x6c; 0x01; 0xbd; 0x48; 0xbb; 0x1b; 0xed; 0xa4; 0xe2; 0x53],
  [0x59; 0xd5; 0x9b; 0x5a; 0xa2; 0x90; 0xd3; 0xb8; 0x37; 0x4c; 0x55; 0x82; 0x28; 0x08; 0x0f; 0x7f;
   0xaa; 0x81; 0x65; 0xe0; 0x0c; 0x52; 0xc9; 0xa3; 0x32; 0x27; 0x64; 0xda; 0xfd; 0x34; 0x23; 0x5a]);
 ([0xb5; 0xb0; 0x0c; 0x4d; 0xb3; 0x7b; 0x23; 0xc8; 0x1f; 0x8a; 0x39; 0x66; 0xe6; 0xba; 0x4c; 0x10;
   0x37; 0xca; 0x9c; 0x7c; 0x05; 0x9e; 0xff; 0xc0; 0xf8; 0x8e; 0xb1; 0x8f; 0x6f; 0x67; 0x18; 0x26],
  [0x4b; 0x41; 0x13; 0x54; 0x23; 0x1a; 0xa4; 0x4e; 0xa9; 0x8b; 0x1e; 0x4b; 0xfc; 0x15; 0x24; 0xbb;
   0x7e; 0xcb; 0xb6; 0x1e; 0x1b; 0xf5; 0xf2; 0xc8; 0x56; 0xec; 0x32; 0xa2; 0x60; 0x5b; 0xa0; 0x2a]);
 ([0xa4; 0x29; 0x47; 0x86; 0x2e; 0x92; 0x4f; 0x11; 0x4f; 0xf3; 0xb2; 0x5c; 0xd5; 0x3e; 0xa6; 0xb9;
   0xc8; 0xe2; 0x33; 0x11; 0x1f; 0x01; 0x8f; 0xb0; 0x9b; 0xc7; 0xa5; 0xff; 0x83; 0x0f; 0x1e; 0x28],
  [0x1d; 0x29; 0x7a; 0xa1; 0xec; 0x8e; 0xb5; 0xad; 0xea; 0x02; 0x68; 0x60; 0x74; 0x29; 0x1c; 0xa5;
   0xcf; 0xc8; 0x3b; 0x7d; 0x8b; 0x2b; 0x7c; 0xad; 0xa4; 0x40; 0x17; 0x51; 0x59; 0x7c; 0x2e; 0x5d]);
 ([0x0a; 0x6c; 0x4f; 0xbc; 0x3e; 0x32; 0xe7; 0x4a; 0x1a; 0x13; 0xc1; 0x49; 0x38; 0xbf; 0xf7; 0xc2;
   0xd3; 0x8f; 0x6b; 0xad; 0x52; 0xf7; 0xcf; 0xbc; 0x27; 0xcb; 0x40; 0x67; 0x76; 0xcd; 0x6d; 0x56],
  [0xe5; 0xb0; 0x27; 0xad; 0xbe; 0x9b; 0xf2; 0xb5; 0x63; 0xde; 0x3a; 0x23; 0x95; 0xb7; 0x0a; 0x7e;
   0xf3; 0x9e; 0x45; 0x6f; 0x19; 0x39; 0x75; 0x8f; 0x39; 0x3d; 0x0f; 0xc0; 0x9f; 0xf1; 0xe9; 0x51]);
 ([0; 0; 0; 0; 0; 0; 0; 0; 0; 0; 0; 0; 0; 0; 0; 0;
   0; 0; 0; 0; 0; 0; 0; 0; 0; 0; 0; 0; 0; 0; 0; 0],
  [1; 0; 0; 0; 0; 0; 0; 0; 0; 0; 0; 0; 0; 0; 0; 0;
   0; 0; 0; 0; 0; 0; 0; 0; 0; 0; 0; 0; 0; 0; 0; 0]);
 ([0x88; 0xaa; 0x14; 0x24; 0x86; 0x94; 0x11; 0x12; 0x3e; 0x1a; 0xb5; 0xcc; 0xbb; 0xe0; 0x9c; 0xd5;
   0x9c; 0x6d; 0xba; 0x58; 0x72; 0x8d; 0xfb; 0x22; 0x7b; 0x9f; 0x7c; 0x94; 0x30; 0xb3; 0x51; 0x21],
  [0xf6; 0x74; 0x3d; 0xf2; 0xaf; 0xd0; 0x1e; 0x03; 0x7c; 0x23; 0x6b; 0xc9; 0xfc; 0x25; 0x70; 0x90;
   0xdc; 0x9a; 0xa4; 0xfb; 0x49; 0xfc; 0x3d; 0x0a; 0x35; 0x38; 0x6f; 0xe4; 0x7e; 0x50; 0x01; 0x2a]);
 ([0xd6; 0xe3; 0x96; 0x61; 0x3a; 0xfd; 0xef; 0x9b; 0x1f; 0x90; 0xa4; 0x24; 0x14; 0x5b; 0xc8; 0xde;
   0x50; 0xb1; 0x1d; 0xaf; 0xe8; 0x55; 0x8a; 0x87; 0x0d; 0xfe; 0xaa; 0x3b; 0x82; 0x2c; 0x8d; 0x7b],
  [0x85; 0x0c; 0xaf; 0xf8; 0x83; 0x44; 0x49; 0xd9; 0x45; 0xcf; 0xf7; 0x48; 0xd9; 0x53; 0xb4; 0xf1;
   0x65; 0xa0; 0xe1; 0xc3; 0xb3; 0x15; 0xed; 0x89; 0x9b; 0x4f; 0x62; 0xb3; 0x57; 0xa5; 0x45; 0x1c]);
 ([0x8f; 0x12; 0xea; 0xaf; 0xd1; 0x1f; 0x79; 0x10; 0x0b; 0xf6; 0xa3; 0x7b; 0xea; 0xac; 0x8b; 0x57;
   0x32; 0x62; 0xe7; 0x06; 0x12; 0x51; 0xa0; 0x3b; 0x43; 0x5e; 0xa4; 0x20; 0x78; 0x31; 0xce; 0x0d],
  [0x84; 0x7c; 0xc2; 0xa6; 0x91; 0x23; 0xce; 0xbd; 0xdc; 0xf9; 0xce; 0xd5; 0x75; 0x30; 0x22; 0xe6;
   0xf9; 0x43; 0x62; 0x0d; 0xf7; 0x75; 0x9d; 0x7f; 0x8c; 0xff; 0x7d; 0xe4; 0x72; 0xac; 0x9f; 0x1c]);
 ([0x88; 0xc1; 0x99; 0xd0; 0x3c; 0x1c; 0x5d; 0xb4; 0xef; 0x13; 0x0f; 0x90; 0xb9; 0x36; 0x2f; 0x95;
   0x95; 0xc6; 0xdc; 0xde; 0x0a; 0x51; 0xe2; 0x8d; 0xf3; 0xbc; 0x51; 0xec; 0xdf; 0xb1; 0xa2; 0x5f],
  [0x2e; 0x68; 0xa1; 0x23; 0x7d; 0x9b; 0x40; 0x69; 0x85; 0x7b; 0x42; 0xbf; 0x90; 0x4b; 0xd6; 0x40;
   0x2f; 0xd7; 0x52; 0x52; 0xb2; 0x21; 0xde; 0x64; 0xbd; 0x88; 0xc3; 0x6d; 0xa5; 0xfa; 0x81; 0x3f]);
 ([0; 0; 0; 0; 0; 0; 0; 0; 0; 0; 0; 0; 0; 0; 0; 0;
   0; 0; 0; 0; 0; 0; 0; 0; 0; 0; 0; 0; 0; 0; 0; 0],
  [1; 0; 0; 0; 0; 0; 0; 0; 0; 0; 0; 0; 0; 0; 0; 0;
   0; 0; 0; 0; 0; 0; 0; 0; 0; 0; 0; 0; 0; 0; 0; 0]);
 ([0xfb; 0xfd; 0x47; 0x7b; 0x8a; 0x66; 0x9e; 0x79; 0x2e; 0x64; 0x82; 0xef; 0xf7; 0x21; 0xec; 0xf6;
   0xd8; 0x86; 0x09; 0x31; 0x7c; 0xdd; 0x03; 0x6a; 0x58; 0xa0; 0x77; 0xb7; 0x9b; 0x8c; 0x87; 0x1f],
  [0x55; 0x47; 0xe4; 0xa8; 0x3d; 0x55; 0x21; 0x34; 0xab; 0x1d; 0xae; 0xe0; 0xf4; 0xea; 0xdb; 0xc5;
   0xb9; 0x58; 0xbf; 0xc4; 0x2a; 0x89; 0x31; 0x1a; 0xf4; 0x2d; 0xe1; 0xca; 0x37; 0x99; 0x47; 0x59]);
 ([0xc7; 0xca; 0x63; 0xc1; 0x49; 0xa9; 0x35; 0x45; 0x55; 0x7e; 0xda; 0x64; 0x32; 0x07; 0x50; 0xf7;
   0x32; 0xac; 0xde; 0x75; 0x58; 0x9b; 0x11; 0xb2; 0x3a; 0x1f; 0xf5; 0xf7; 0x79; 0x04; 0xe6; 0x08],
  [0x46; 0xfa; 0x22; 0x4b; 0xfa; 0xe1; 0xfe; 0x96; 0xfc; 0x67; 0xba; 0x67; 0x97; 0xc4; 0xe7; 0x1b;
   0x86; 0x90; 0x5f; 0xee; 0xf4; 0x5b; 0x11; 0xb2; 0xcd; 0xad; 0xee; 0xc2; 0x48; 0x6c; 0x2b; 0x1b]);
 ([0xe3; 0x39; 0x62; 0xb4; 0x4f; 0x31; 0x04; 0xc9; 0xda; 0xd5; 0x73; 0x51; 0x57; 0xc5; 0xb8; 0xf3;
   0xa3; 0x43; 0x70; 0xe4; 0x61; 0x81; 0x84; 0xe2; 0xbb; 0xbf; 0x4f; 0x9e; 0xa4; 0x5e; 0x74; 0x06],
  [0x29; 0xac; 0xff; 0x27; 0xe0; 0x59; 0xbe; 0x39; 0x9c; 0x0d; 0x83; 0xd7; 0x10; 0x0b; 0x15; 0xb7;
   0xe1; 0xc2; 0x2c; 0x30; 0x73; 0x80; 0x3a; 0x7d; 0x5d; 0xab; 0x58; 0x6b; 0xc1; 0xf0; 0xf4; 0x22]);
 ([0xfe; 0x7f; 0xfb; 0x35; 0x7d; 0xc6; 0x01; 0x23; 0x28; 0xc4; 0x02; 0xac; 0x1f; 0x42; 0xb4; 0x9d;
   0xfc; 0x00; 0x94; 0xa5; 0xee; 0xca; 0xda; 0x97; 0x09; 0x41; 0x77; 0x87; 0x5d; 0x7b; 0x87; 0x78],
  [0xf5; 0xfb; 0x90; 0x2d; 0x81; 0x19; 0x9e; 0x2f; 0x6d; 0x85; 0x88; 0x8c; 0x40; 0x5c; 0x77; 0x41;
   0x4d; 0x01; 0x19; 0x76; 0x60; 0xe8; 0x4c; 0x48; 0xe4; 0x33; 0x83; 0x32; 0x6c; 0xb4; 0x41; 0x03]);
 ([0; 0; 0; 0; 0; 0; 0; 0; 0; 0; 0; 0; 0; 0; 0; 0;
   0; 0; 0; 0; 0; 0; 0; 0; 0; 0; 0; 0; 0; 0; 0; 0],
  [1; 0; 0; 0; 0; 0; 0; 0; 0; 0; 0; 0; 0; 0; 0; 0;
   0; 0; 0; 0; 0; 0; 0; 0; 0; 0; 0; 0; 0; 0; 0; 0]);
 ([0xff; 0x10; 0xc2; 0x09; 0x4f; 0x6e; 0xf4; 0xd2; 0xdf; 0x7e; 0xca; 0x7b; 0x1c; 0x1d; 0xba; 0xa3;
   0xb6; 0xda; 0x67; 0x33; 0xd4; 0x87; 0x36; 0x4b; 0x11; 0x20; 0x05; 0xa6; 0x29; 0xc1; 0x87; 0x17],
  [0xf6; 0x96; 0xca; 0x2f; 0xda; 0x38; 0xa7; 0x1b; 0xfc; 0xca; 0x7d; 0xfe; 0x08; 0x89; 0xe2; 0x47;
   0x2b; 0x6a; 0x5d; 0x4b; 0xfa; 0xa1; 0xb4; 0xde; 0xb6; 0xc2; 0x31; 0x51; 0xf5; 0xe0; 0xa4; 0x0b]);
 ([0x5c; 0xe5; 0xc6; 0x04; 0x8e; 0x2b; 0x57; 0xbe; 0x38; 0x85; 0x23; 0xcb; 0xb7; 0xbe; 0x4f; 0xa9;
   0xd3; 0x6e; 0x12; 0xaa; 0xd5; 0xb2; 0x2e; 0x93; 0x29; 0x9a; 0x4a; 0x88; 0x18; 0x43; 0xf5; 0x01],
  [0x50; 0xfc; 0xdb; 0xa2; 0x59; 0x21; 0x8d; 0xbd; 0x7e; 0x33; 0xae; 0x2f; 0x87; 0x1a; 0xd0; 0x97;
   0xc7; 0x0d; 0x4d; 0x63; 0x01; 0xef; 0x05; 0x84; 0xec; 0x40; 0xdd; 0xa8; 0x0a; 0x4f; 0x70; 0x0b]);
 ([0x41; 0x69; 0x01; 0x67; 0x5c; 0xd3; 0x8a; 0xc5; 0xcf; 0x3f; 0xd1; 0x57; 0xd1; 0x67; 0x3e; 0x01;
   0x39; 0xb5; 0xcb; 0x81; 0x56; 0x96; 0x26; 0xb6; 0xc2; 0xe7; 0x5c; 0xfb; 0x63; 0x97; 0x58; 0x06],
  [0x0c; 0x0e; 0xf3; 0xba; 0xf0; 0xe5; 0xba; 0xb2; 0x57; 0x77; 0xc6; 0x20; 0x9b; 0x89; 0x24; 0xbe;
   0xf2; 0x9c; 0x8a; 0xba; 0x69; 0xc1; 0xf1; 0xb0; 0x4f; 0x2a; 0x05; 0x9a; 0xee; 0x10; 0x7e; 0x36]);
 ([0x3f; 0x26; 0xe9; 0x40; 0xe9; 0x03; 0xad; 0x06; 0x69; 0x91; 0xe0; 0xd1; 0x89; 0x60; 0x84; 0x79;
   0xde; 0x27; 0x6d; 0xe6; 0x76; 0xbd; 0xea; 0xe6; 0xae; 0x48; 0xc3; 0x67; 0xc0; 0x57; 0xcd; 0x2f],
  [0x7f; 0xc1; 0xdc; 0xb9; 0xc7; 0xbc; 0x86; 0x3d; 0x55; 0x4b; 0x28; 0x7a; 0xfb; 0x4d; 0xc7; 0xf8;
   0xbc; 0x67; 0x2a; 0x60; 0x4d; 0x8f; 0x07; 0x0b; 0x1a; 0x17; 0xbf; 0xfa; 0xac; 0xa7; 0x3d; 0x1a]);
 ([0; 0; 0; 0; 0; 0; 0; 0; 0; 0; 0; 0; 0; 0; 0; 0;
   0; 0; 0; 0; 0; 0; 0; 0; 0; 0; 0; 0; 0; 0; 0; 0],
  [1; 0; 0; 0; 0; 0; 0; 0; 0; 0; 0; 0; 0; 0; 0; 0;
   0; 0; 0; 0; 0; 0; 0; 0; 0; 0; 0; 0; 0; 0; 0; 0]);
 ([0x91; 0x3f; 0xed; 0x5e; 0x18; 0x78; 0x3f; 0x23; 0x2c; 0x0d; 0x8c; 0x44; 0x00; 0xe8; 0xfb; 0xe9;
   0x8e; 0xd6; 0xd1; 0x36; 0x58; 0x57; 0x9e; 0xae; 0x4b; 0x5c; 0x0b; 0x07; 0xbc; 0x6b; 0x55; 0x2b],
  [0x6f; 0x4d; 0x17; 0xd7; 0xe1; 0x84; 0xd9; 0x78; 0xb1; 0x90; 0xfd; 0x2e; 0xb3; 0xb5; 0x19; 0x3f;
   0x1b; 0xfa; 0xc0; 0x68; 0xb3; 0xdd; 0x00; 0x2e; 0x89; 0xbd; 0x7e; 0x80; 0x32; 0x13; 0xa0; 0x7b]);
 ([0x1a; 0x6f; 0x40; 0xaf; 0x44; 0x44; 0xb0; 0x43; 0x8f; 0x0d; 0xd0; 0x1e; 0xc4; 0x0b; 0x19; 0x5d;
   0x8e; 0xfe; 0xc1; 0xf3; 0xc5; 0x5c; 0x91; 0xf8; 0x04; 0x4e; 0xbe; 0x90; 0xb4; 0x47; 0x5c; 0x3f],
  [0xb0; 0x3b; 0x2c; 0xf3; 0xfe; 0x32; 0x71; 0x07; 0x3f; 0xaa; 0xba; 0x45; 0x60; 0xa8; 0x8d; 0xea;
   0x54; 0xcb; 0x39; 0x10; 0xb4; 0xf2; 0x8b; 0xd2; 0x14; 0x82; 0x42; 0x07; 0x8e; 0xe9; 0x7c; 0x53]);
 ([0xb0; 0xae; 0xc1; 0x8d; 0xc9; 0x8f; 0xb9; 0x7a; 0x77; 0xef; 0xba; 0x79; 0xa0; 0x3c; 0xa8; 0xf5;
   0x6a; 0xe2; 0x3f; 0x5d; 0x00; 0xe3; 0x4b; 0x45; 0x24; 0x7b; 0x43; 0x78; 0x55; 0x1d; 0x2b; 0x1e],
  [0x01; 0xb8; 0xd6; 0x16; 0x67; 0xa0; 0x15; 0xb9; 0xe1; 0x58; 0xa4; 0xa7; 0x31; 0x37; 0x77; 0x2f;
   0x8b; 0x12; 0x9f; 0xf4; 0x3f; 0xc7; 0x36; 0x66; 0xd2; 0xa8; 0x56; 0xf7; 0x7f; 0x74; 0xc6; 0x41]);
 ([0x5d; 0xf8; 0xb4; 0xa8; 0x30; 0xdd; 0xcc; 0x38; 0xa5; 0xd3; 0xca; 0xd8; 0xd1; 0xf8; 0xb2; 0x31;
   0x91; 0xd4; 0x72; 0x05; 0x57; 0x4a; 0x3b; 0x82; 0x4a; 0xc6; 0x68; 0x20; 0xe2; 0x18; 0x41; 0x61],
  [0x19; 0xd4; 0x8d; 0x47; 0x29; 0x12; 0x65; 0xb0; 0x11; 0x78; 0x47; 0xb5; 0xcb; 0xa3; 0xa5; 0xfa;
   0x05; 0x85; 0x54; 0xa9; 0x33; 0x97; 0x8d; 0x2b; 0xc2; 0xfe; 0x99; 0x35; 0x28; 0xe5; 0xeb; 0x63]);
 ([0; 0; 0; 0; 0; 0; 0; 0; 0; 0; 0; 0; 0; 0; 0; 0;
   0; 0; 0; 0; 0; 0; 0; 0; 0; 0; 0; 0; 0; 0; 0; 0],
  [1; 0; 0; 0; 0; 0; 0; 0; 0; 0; 0; 0; 0; 0; 0; 0;
   0; 0; 0; 0; 0; 0; 0; 0; 0; 0; 0; 0; 0; 0; 0; 0]);
 ([0xb1; 0x3f; 0x3f; 0xef; 0xd8; 0xf4; 0xfc; 0xb3; 0xa0; 0x60; 0x50; 0x06; 0x2b; 0x29; 0x52; 0x70;
   0x15; 0x0b; 0x24; 0x24; 0xf8; 0x5f; 0x79; 0x18; 0xcc; 0xff; 0x89; 0x99; 0x84; 0xa1; 0xae; 0x13],
  [0x44; 0x1f; 0xb8; 0xc2; 0x01; 0xc1; 0x30; 0x19; 0x55; 0x05; 0x60; 0x10; 0xa4; 0x6c; 0x2d; 0x67;
   0x70; 0xe5; 0x25; 0x1b; 0xf2; 0xbf; 0xdd; 0xfb; 0x70; 0x2b; 0xa1; 0x8c; 0x9c; 0x94; 0x84; 0x08]);
 ([0xe7; 0xc4; 0x43; 0x4d; 0xc9; 0x2b; 0x69; 0x5d; 0x1d; 0x3c; 0xaf; 0xbb; 0x43; 0x38; 0x4e; 0x98;
   0x3d; 0xed; 0x0d; 0x21; 0x03; 0xfd; 0xf0; 0x99; 0x47; 0x04; 0xb0; 0x98; 0x69; 0x55; 0x72; 0x0f],
  [0x5e; 0xdf; 0x15; 0x53; 0x3b; 0x86; 0x80; 0xb0; 0xf1; 0x70; 0x68; 0x8f; 0x66; 0x7c; 0x0e; 0x49;
   0x1a; 0xd8; 0x6b; 0xfe; 0x4e; 0xef; 0xca; 0x47; 0xd4; 0x03; 0xc1; 0x37; 0x50; 0x9c; 0xc1; 0x16]);
 ([0xcd; 0x24; 0xc6; 0x3e; 0x0c; 0x82; 0x9b; 0x91; 0x2b; 0x61; 0x4a; 0xb2; 0x0f; 0x88; 0x55; 0x5f;
   0x5a; 0x57; 0xff; 0xe5; 0x74; 0x0b; 0x13; 0x43; 0x00; 0xd8; 0x6b; 0xcf; 0xd2; 0x15; 0x03; 0x2c],
  [0xdc; 0xff; 0x15; 0x61; 0x2f; 0x4a; 0x2f; 0x62; 0xf2; 0x04; 0x2f; 0xb5; 0x0c; 0xb7; 0x1e; 0x3f;
   0x74; 0x1a; 0x0f; 0xd7; 0xea; 0xcd; 0xd9; 0x7d; 0xf6; 0x12; 0x0e; 0x2f; 0xdb; 0x5a; 0x3b; 0x16]);
 ([0x1b; 0x37; 0x47; 0xe3; 0xf5; 0x9e; 0xea; 0x2c; 0x2a; 0xe7; 0x82; 0x36; 0xf4; 0x1f; 0x81; 0x47;
   0x92; 0x4b; 0x69; 0x0e; 0x11; 0x8c; 0x5d; 0x53; 0x5b; 0x81; 0x27; 0x08; 0xbc; 0xa0; 0xae; 0x25],
  [0x69; 0x32; 0xa1; 0x05; 0x11; 0x42; 0x00; 0xd2; 0x59; 0xac; 0x4d; 0x62; 0x8b; 0x13; 0xe2; 0x50;
   0x5d; 0xa0; 0x9d; 0x9b; 0xfd; 0xbb; 0x12; 0x41; 0x75; 0x41; 0x9e; 0xcc; 0xdc; 0xc7; 0xdc; 0x5d]);
 ([0; 0; 0; 0; 0; 0; 0; 0; 0; 0; 0; 0; 0; 0; 0; 0;
   0; 0; 0; 0; 0; 0; 0; 0; 0; 0; 0; 0; 0; 0; 0; 0],
  [1; 0; 0; 0; 0; 0; 0; 0; 0; 0; 0; 0; 0; 0; 0; 0;
   0; 0; 0; 0; 0; 0; 0; 0; 0; 0; 0; 0; 0; 0; 0; 0]);
 ([0xd9; 0xe3; 0x38; 0x06; 0x46; 0x70; 0x82; 0x5e; 0x28; 0x49; 0x79; 0xff; 0x25; 0xd2; 0x4e; 0x29;
   0x8d; 0x06; 0xb0; 0x23; 0xae; 0x9b; 0x66; 0xe4; 0x7d; 0xc0; 0x70; 0x91; 0xa3; 0xfc; 0xec; 0x4e],
  [0x62; 0x12; 0x37; 0x6a; 0x30; 0xf6; 0x1e; 0xfb; 0x14; 0x5c; 0x0d; 0x0e; 0xb7; 0x81; 0x6a; 0xe7;
   0x08; 0x05; 0xac; 0xaa; 0x38; 0x46; 0xe2; 0x73; 0xea; 0x4b; 0x07; 0x81; 0x43; 0x7c; 0x9e; 0x5e]);
 ([0xfc; 0xf9; 0x21; 0x4f; 0x2e; 0x76; 0x9b; 0x1f; 0x28; 0x60; 0x77; 0x43; 0x32; 0x9d; 0xbe; 0x17;
   0x30; 0x2a; 0xc6; 0x18; 0x92; 0x66; 0x62; 0x30; 0x98; 0x40; 0x11; 0xa6; 0x7f; 0x18; 0x84; 0x28],
  [0x3f; 0xab; 0xd3; 0xf4; 0x8a; 0x76; 0xa1; 0x3c; 0xca; 0x2d; 0x49; 0xc3; 0xea; 0x08; 0x0b; 0x85;
   0x17; 0x2a; 0xc3; 0x6c; 0x08; 0xfd; 0x57; 0x9f; 0x3d; 0x5f; 0xdf; 0x67; 0x68; 0x42; 0x00; 0x32]);
 ([0x51; 0x60; 0x1b; 0x06; 0x4f; 0x8a; 0x21; 0xba; 0x38; 0xa8; 0xba; 0xd6; 0x40; 0xf6; 0xe9; 0x9b;
   0x76; 0x4d; 0x56; 0x21; 0x5b; 0x0a; 0x9b; 0x2e; 0x4f; 0x3d; 0x81; 0x32; 0x08; 0x9f; 0x97; 0x5b],
  [0xe5; 0x44; 0xec; 0x06; 0x9d; 0x90; 0x79; 0x9f; 0xd3; 0xe0; 0x79; 0xaf; 0x8f; 0x10; 0xfd; 0xdd;
   0x04; 0xae; 0x27; 0x97; 0x46; 0x33; 0x79; 0xea; 0xb8; 0x4e; 0xca; 0x5a; 0x59; 0x57; 0xe1; 0x0e]);
 ([0x1a; 0xda; 0xf3; 0xa5; 0x41; 0x43; 0x28; 0xfc; 0x7e; 0xe7; 0x71; 0xea; 0xc6; 0x3b; 0x59; 0xcc;
   0x2e; 0xd3; 0x40; 0xec; 0xb3; 0x13; 0x6f; 0x44; 0xcd; 0x13; 0xb2; 0x37; 0xf2; 0x6e; 0xd9; 0x1c],
  [0xe3; 0xdb; 0x60; 0xcd; 0x5c; 0x4a; 0x18; 0x0f; 0xef; 0x73; 0x36; 0x71; 0x8c; 0xf6; 0x11; 0xb4;
   0xd8; 0xce; 0x17; 0x5e; 0x4f; 0x26; 0x77; 0x97; 0x5f; 0xcb; 0xef; 0x91; 0xeb; 0x6a; 0x62; 0x7a]);
 ([0; 0; 0; 0; 0; 0; 0; 0; 0; 0; 0; 0; 0; 0; 0; 0;
   0; 0; 0; 0; 0; 0; 0; 0; 0; 0; 0; 0; 0; 0; 0; 0],
  [1; 0; 0; 0; 0; 0; 0; 0; 0; 0; 0; 0; 0; 0; 0; 0;
   0; 0; 0; 0; 0; 0; 0; 0; 0; 0; 0; 0; 0; 0; 0; 0]);
 ([0x18; 0x4a; 0xa2; 0x97; 0x08; 0x81; 0x2d; 0x83; 0xc4; 0xcc; 0xf0; 0x83; 0x7e; 0xec; 0x0d; 0x95;
   0x4c; 0x5b; 0xfb; 0xfa; 0x98; 0x80; 0x4a; 0x66; 0x56; 0x0c; 0x51; 0xb3; 0xf2; 0x04; 0x5d; 0x27],
  [0x3b; 0xb9; 0xb8; 0x06; 0x5a; 0x2e; 0xfe; 0xc3; 0x82; 0x37; 0x9c; 0xa3; 0x11; 0x1f; 0x9c; 0xa6;
   0xda; 0x63; 0x48; 0x9b; 0xad; 0xde; 0x2d; 0xa6; 0xbc; 0x6e; 0x32; 0xda; 0x27; 0x65; 0xdd; 0x57]);
 ([0x84; 0x4f; 0x37; 0x31; 0x7d; 0x2e; 0xbc; 0xad; 0x87; 0x07; 0x2a; 0x6b; 0x37; 0xfc; 0x5f; 0xeb;
   0x4e; 0x75; 0x35; 0xa6; 0xde; 0xab; 0x0a; 0x19; 0x3a; 0xb7; 0xb1; 0xef; 0x92; 0x6a; 0x3b; 0x3c],
  [0x3b; 0xb2; 0x94; 0x6d; 0x39; 0x60; 0xac; 0xee; 0xe7; 0x81; 0x1a; 0x3b; 0x76; 0x87; 0x5c; 0x05;
   0x94; 0x2a; 0x45; 0xb9; 0x80; 0xe9; 0x22; 0xb1; 0x07; 0xcb; 0x40; 0x9e; 0x70; 0x49; 0x6d; 0x12]);
 ([0xfd; 0x18; 0x78; 0x84; 0xa8; 0x4c; 0x7d; 0x6e; 0x59; 0xa6; 0xe5; 0x74; 0xf1; 0x19; 0xa6; 0x84;
   0x2e; 0x51; 0xc1; 0x29; 0x13; 0xf2; 0x14; 0x6b; 0x5d; 0x53; 0x51; 0xf7; 0xef; 0xbf; 0x01; 0x22],
  [0xa4; 0x4b; 0x62; 0x4c; 0xe6; 0xfd; 0x72; 0x07; 0xf2; 0x81; 0xfc; 0xf2; 0xbd; 0x12; 0x7c; 0x68;
   0x76; 0x2a; 0xba; 0xf5; 0x65; 0xb1; 0x1f; 0x17; 0x0a; 0x38; 0xb0; 0xbf; 0xc0; 0xf8; 0xf4; 0x2a]);
 ([0x55; 0x60; 0x55; 0x5b; 0xe4; 0x1d; 0x71; 0x4c; 0x9d; 0x5b; 0x9f; 0x70; 0xa6; 0x85; 0x9a; 0x2c;
   0xa0; 0xe2; 0x32; 0x48; 0xce; 0x9e; 0x2a; 0xa5; 0x07; 0x3b; 0xc7; 0x6c; 0x86; 0x77; 0xde; 0x3c],
  [0xf7; 0x18; 0x7a; 0x96; 0x7e; 0x43; 0x57; 0xa9; 0x55; 0xfc; 0x4e; 0xb6; 0x72; 0x00; 0xf2; 0xe4;
   0xd7; 0x52; 0xd3; 0xd3; 0xb6; 0x85; 0xf6; 0x71; 0xc7; 0x44; 0x3f; 0x7f; 0xd7; 0xb3; 0xf2; 0x79]);
 ([0; 0; 0; 0; 0; 0; 0; 0; 0; 0; 0; 0; 0; 0; 0; 0;
   0; 0; 0; 0; 0; 0; 0; 0; 0; 0; 0; 0; 0; 0; 0; 0],
  [1; 0; 0; 0; 0; 0; 0; 0; 0; 0; 0; 0; 0; 0; 0; 0;
   0; 0; 0; 0; 0; 0; 0; 0; 0; 0; 0; 0; 0; 0; 0; 0]);
 ([0x46; 0xca; 0xa7; 0x55; 0x7b; 0x79; 0xf3; 0xca; 0x5a; 0x65; 0xf6; 0xed; 0x50; 0x14; 0x7b; 0xe4;
   0xc4; 0x2a; 0x65; 0x9e; 0xe2; 0xf9; 0xca; 0xa7; 0x22; 0x26; 0x53; 0xcb; 0x21; 0x5b; 0xa7; 0x31],
  [0x90; 0xd7; 0xc5; 0x26; 0x08; 0xbd; 0xb0; 0x53; 0x63; 0x58; 0xc3; 0x31; 0x5e; 0x75; 0x46; 0x15;
   0x91; 0xa6; 0xf8; 0x2f; 0x1a; 0x08; 0x65; 0x88; 0x2f; 0x98; 0x04; 0xf1; 0x7c; 0x6e; 0x00; 0x77]);
 ([0x81; 0x21; 0x61; 0x09; 0xf6; 0x4e; 0xf1; 0x92; 0xee; 0x63; 0x61; 0x73; 0x87; 0xc7; 0x54; 0x0e;
   0x42; 0x4b; 0xc9; 0x47; 0xd1; 0xb8; 0x7e; 0x91; 0x75; 0x37; 0x99; 0x28; 0xb8; 0xdd; 0x7f; 0x50],
  [0x89; 0x8f; 0xc0; 0xbe; 0x5d; 0xd6; 0x9f; 0xa0; 0xf0; 0x9d; 0x81; 0xce; 0x3a; 0x7b; 0x98; 0x58;
   0xbb; 0xd7; 0x78; 0xc8; 0x3f; 0x13; 0xf1; 0x74; 0x19; 0xdf; 0xf8; 0x98; 0x89; 0x5d; 0xfa; 0x5f]);
 ([0x9e; 0x35; 0x85; 0x94; 0x47; 0x1f; 0x90; 0x15; 0x26; 0xd0; 0x84; 0xed; 0x8a; 0x80; 0xf7; 0x63;
   0x42; 0x86; 0x27; 0xd7; 0xf4; 0x75; 0x58; 0xdc; 0x9c; 0xc0; 0x22; 0x7e; 0x20; 0x35; 0xfd; 0x1f],
  [0x68; 0x0e; 0x6f; 0x97; 0xba; 0x70; 0xbb; 0xa3; 0x0e; 0xe5; 0x0b; 0x12; 0xf4; 0xa2; 0xdc; 0x47;
   0xf8; 0xe6; 0xd0; 0x23; 0x6c; 0x33; 0xa8; 0x99; 0x46; 0x6e; 0x0f; 0x44; 0xba; 0x76; 0x48; 0x0f]);
 ([0xa3; 0x2a; 0x61; 0x37; 0xe2; 0x59; 0x12; 0x0e; 0x27; 0xba; 0x64; 0x43; 0xae; 0xc0; 0x42; 0x69;
   0x79; 0xa4; 0x1e; 0x29; 0x8b; 0x15; 0xeb; 0xf8; 0xaf; 0xd4; 0xa2; 0x68; 0x33; 0xb5; 0x7a; 0x24],
  [0x2c; 0x19; 0x33; 0xdd; 0x1b; 0xab; 0xec; 0x01; 0xb0; 0x23; 0xf8; 0x42; 0x2b; 0x06; 0x88; 0xea;
   0x3d; 0x2d; 0x00; 0x2a; 0x78; 0x45; 0x4d; 0x38; 0xed; 0x2e; 0x2e; 0x44; 0x49; 0xed; 0xcb; 0x33]);
 ([0; 0; 0; 0; 0; 0; 0; 0; 0; 0; 0; 0; 0; 0; 0; 0;
   0; 0; 0; 0; 0; 0; 0; 0; 0; 0; 0; 0; 0; 0; 0; 0],
  [1; 0; 0; 0; 0; 0; 0; 0; 0; 0; 0; 0; 0; 0; 0; 0;
   0; 0; 0; 0; 0; 0; 0; 0; 0; 0; 0; 0; 0; 0; 0; 0]);
 ([0xa0; 0x68; 0xe8; 0x41; 0x8f; 0x91; 0xf8; 0x11; 0x13; 0x90; 0x2e; 0xa7; 0xab; 0x30; 0xef; 0xad;
   0xa0; 0x61; 0x00; 0x88; 0xef; 0xdb; 0xce; 0x5b; 0x5c; 0xbb; 0x62; 0xc8; 0x56; 0xf9; 0x00; 0x73],
  [0x3f; 0x60; 0xc1; 0x82; 0x2d; 0xa3; 0x28; 0x58; 0x24; 0x9e; 0x9f; 0xe3; 0x70; 0xcc; 0x09; 0x4e;
   0x1a; 0x3f; 0x11; 0x11; 0x15; 0x07; 0x3c; 0xa4; 0x41; 0xe0; 0x65; 0xa3; 0x0a; 0x41; 0x6d; 0x11]);
 ([0x31; 0x40; 0x01; 0x52; 0x56; 0x94; 0x5b; 0x28; 0x8a; 0xaa; 0x52; 0xee; 0xd8; 0x0a; 0x05; 0x8d;
   0xcd; 0xb5; 0xaa; 0x2e; 0x38; 0xaa; 0xb7; 0x87; 0xf7; 0x2b; 0xfb; 0x04; 0xcb; 0x84; 0x3d; 0x54],
  [0x20; 0xef; 0x59; 0xde; 0xa4; 0x2b; 0x93; 0x6e; 0x2e; 0xec; 0x42; 0x9a; 0xd4; 0x2d; 0xf4; 0x46;
   0x58; 0x27; 0x2b; 0x18; 0x8f; 0x83; 0x3d; 0x69; 0x9e; 0xd4; 0x3e; 0xb6; 0xc5; 0xfd; 0x58; 0x03]);
 ([0x33; 0x89; 0xc9; 0x63; 0x62; 0x1c; 0x17; 0xb4; 0x60; 0xc4; 0x26; 0x68; 0x09; 0xc3; 0x2e; 0x37;
   0x0f; 0x7b; 0xb4; 0x9c; 0xb6; 0xf9; 0xfb; 0xd4; 0x51; 0x78; 0xc8; 0x63; 0xea; 0x77; 0x47; 0x07],
  [0x32; 0xb4; 0x18; 0x47; 0x79; 0xcb; 0xd4; 0x5a; 0x07; 0x14; 0x0f; 0xa0; 0xd5; 0xac; 0xd0; 0x41;
   0x40; 0xab; 0x61; 0x23; 0xe5; 0x2a; 0x2a; 0x6f; 0xf7; 0xa8; 0xd4; 0x76; 0xef; 0xe7; 0x45; 0x6c]);
 ([0xa1; 0x5e; 0x60; 0x4f; 0xfb; 0xe1; 0x70; 0x6a; 0x1f; 0x55; 0x4f; 0x09; 0xb4; 0x95; 0x33; 0x36;
   0xc6; 0x81; 0x01; 0x18; 0x06; 0x25; 0x27; 0xa4; 0xb4; 0x24; 0xa4; 0x86; 0x03; 0x4c; 0xac; 0x02],
  [0x77; 0x38; 0xde; 0xd7; 0x60; 0x48; 0x07; 0xf0; 0x74; 0xa8; 0xff; 0x54; 0xe5; 0x30; 0x43; 0xff;
   0x77; 0xfb; 0x21; 0x07; 0xff; 0xb2; 0x07; 0x6b; 0xe4; 0xe5; 0x30; 0xfc; 0x19; 0x6c; 0xa3; 0x01]);
 ([0; 0; 0; 0; 0; 0; 0; 0; 0; 0; 0; 0; 0; 0; 0; 0;
   0; 0; 0; 0; 0; 0; 0; 0; 0; 0; 0; 0; 0; 0; 0; 0],
  [1; 0; 0; 0; 0; 0; 0; 0; 0; 0; 0; 0; 0; 0; 0; 0;
   0; 0; 0; 0; 0; 0; 0; 0; 0; 0; 0; 0; 0; 0; 0; 0]);
 ([0x13; 0xc5; 0x2c; 0xac; 0xd3; 0x83; 0x82; 0x7c; 0x29; 0xf7; 0x05; 0xa5; 0x00; 0xb6; 0x1f; 0x86;
   0x55; 0xf4; 0xd6; 0x2f; 0x0c; 0x99; 0xd0; 0x65; 0x9b; 0x6b; 0x46; 0x0d; 0x43; 0xf8; 0x16; 0x28],
  [0x1e; 0x7f; 0xb4; 0x74; 0x7e; 0xb1; 0x89; 0x4f; 0x18; 0x5a; 0xab; 0x64; 0x06; 0xdf; 0x45; 0x87;
   0xe0; 0x6a; 0xc6; 0xf0; 0x0e; 0xc9; 0x24; 0x35; 0x38; 0xea; 0x30; 0x54; 0xb4; 0xc4; 0x52; 0x54]);
 ([0xe9; 0x9f; 0xdc; 0x3f; 0xc1; 0x89; 0x44; 0x74; 0x27; 0xe4; 0xc1; 0x90; 0xff; 0x4a; 0xa7; 0x3c;
   0xee; 0xcd; 0xf4; 0x1d; 0x25; 0x94; 0x7f; 0x63; 0x16; 0x48; 0xbc; 0x64; 0xfe; 0x95; 0xc4; 0x0c],
  [0x8b; 0x19; 0x75; 0x6e; 0x03; 0x06; 0x5e; 0x6a; 0x6f; 0x1a; 0x8c; 0xe3; 0xd3; 0x28; 0xf2; 0xe0;
   0xb9; 0x7a; 0x43; 0x69; 0xe6; 0xd3; 0xc0; 0xfe; 0x7e; 0x97; 0xab; 0x6c; 0x7b; 0x8e; 0x13; 0x42]);
 ([0xd4; 0xca; 0x70; 0x3d; 0xab; 0xfb; 0x5f; 0x5e; 0x00; 0x0c; 0xcc; 0x77; 0x22; 0xf8; 0x78; 0x55;
   0xae; 0x62; 0x35; 0xfb; 0x9a; 0xc6; 0x03; 0xe4; 0x0c; 0xee; 0xab; 0xc7; 0xc0; 0x89; 0x87; 0x54],
  [0x32; 0xad; 0xae; 0x85; 0x58; 0x43; 0xb8; 0xb1; 0xe6; 0x3e; 0x00; 0x9c; 0x78; 0x88; 0x56; 0xdb;
   0x9c; 0xfc; 0x79; 0xf6; 0xf9; 0x41; 0x5f; 0xb7; 0xbc; 0x11; 0xf9; 0x20; 0x36; 0x1c; 0x53; 0x2b]);
 ([0x5a; 0x20; 0x5b; 0xa1; 0xa5; 0x44; 0x91; 0x24; 0x02; 0x63; 0x12; 0x64; 0xb8; 0x55; 0xf6; 0xde;
   0x2c; 0xdb; 0x47; 0xb8; 0xc6; 0x0a; 0xc3; 0x00; 0x78; 0x93; 0xd8; 0xf5; 0xf5; 0x18; 0x28; 0x0a],
  [0xd6; 0x1b; 0x9a; 0x6c; 0xe5; 0x46; 0xea; 0x70; 0x96; 0x8d; 0x4e; 0x2a; 0x52; 0x21; 0x26; 0x4b;
   0xb1; 0xbb; 0x0f; 0x7c; 0xa9; 0x9b; 0x04; 0xbb; 0x51; 0x08; 0xf1; 0x9a; 0xa4; 0x76; 0x7c; 0x18]);
 ([0; 0; 0; 0; 0; 0; 0; 0; 0; 0; 0; 0; 0; 0; 0; 0;
   0; 0; 0; 0; 0; 0; 0; 0; 0; 0; 0; 0; 0; 0; 0; 0],
  [1; 0; 0; 0; 0; 0; 0; 0; 0; 0; 0; 0; 0; 0; 0; 0;
   0; 0; 0; 0; 0; 0; 0; 0; 0; 0; 0; 0; 0; 0; 0; 0]);
 ([0xfa; 0x94; 0xf7; 0x40; 0xd0; 0xd7; 0xeb; 0xa9; 0x82; 0x36; 0xd5; 0x15; 0xb9; 0x33; 0x7a; 0xbf;
   0x8a; 0xf2; 0x63; 0xaa; 0x37; 0xf5; 0x59; 0xac; 0xbd; 0xbb; 0x32; 0x36; 0xbe; 0x73; 0x99; 0x38],
  [0x2c; 0xb3; 0xda; 0x7a; 0xd8; 0x3d; 0x99; 0xca; 0xd2; 0xf4; 0xda; 0x99; 0x8e; 0x4f; 0x98; 0xb7;
   0xf4; 0xae; 0x3e; 0x9f; 0x8e; 0x35; 0x60; 0xa4; 0x33; 0x75; 0xa4; 0x04; 0x93; 0xb1; 0x6b; 0x4d]);
 ([0x97; 0x9d; 0xa8; 0xcd; 0x97; 0x7b; 0x9d; 0xb9; 0xe7; 0xa5; 0xef; 0xfd; 0xa8; 0x42; 0x6b; 0xc3;
   0x62; 0x64; 0x7d; 0xa5; 0x1b; 0xc9; 0x9e; 0xd2; 0x45; 0xb9; 0xee; 0x03; 0xb0; 0xbf; 0xc0; 0x68],
  [0xed; 0xb7; 0x84; 0x2c; 0xf6; 0xd3; 0xa1; 0x6b; 0x24; 0x6d; 0x87; 0x56; 0x97; 0x59; 0x79; 0x62;
   0x9f; 0xac; 0xed; 0xf3; 0xc9; 0x89; 0x21; 0x2e; 0x04; 0xb3; 0xcc; 0x2f; 0xbe; 0xd6; 0x0a; 0x4b]);
 ([0x39; 0x61; 0x05; 0xed; 0x25; 0x89; 0x8b; 0x5d; 0x1b; 0xcb; 0x0c; 0x55; 0xf4; 0x6a; 0x00; 0x8a;
   0x46; 0xe8; 0x1e; 0xc6; 0x83; 0xc8; 0x5a; 0x76; 0xdb; 0xcc; 0x19; 0x7a; 0xcc; 0x67; 0x46; 0x0b],
  [0x53; 0xcf; 0xc2; 0xa1; 0xad; 0x6a; 0xf3; 0xcd; 0x8f; 0xc9; 0xde; 0x1c; 0xf8; 0x6c; 0x8f; 0xf8;
   0x76; 0x42; 0xe7; 0xfe; 0xb2; 0x72; 0x21; 0x0a; 0x66; 0x74; 0x8f; 0xb7; 0xeb; 0xe4; 0x6f; 0x01]);
 ([0x22; 0x8c; 0x6b; 0xbe; 0xfc; 0x4d; 0x70; 0x62; 0x6e; 0x52; 0x77; 0x99; 0x88; 0x7e; 0x7b; 0x57;
   0x7a; 0x0d; 0xfe; 0xdc; 0x72; 0x92; 0xf1; 0x68; 0x1d; 0x97; 0xd7; 0x7c; 0x8d; 0x53; 0x10; 0x37],
  [0x53; 0x88; 0x77; 0x02; 0xca; 0x27; 0xa8; 0xe5; 0x45; 0xe2; 0xa8; 0x48; 0x2a; 0xab; 0x18; 0xca;
   0xea; 0x2d; 0x2a; 0x54; 0x17; 0x37; 0x32; 0x09; 0xdc; 0xe0; 0x4a; 0xb7; 0x7d; 0x82; 0x10; 0x7d]);
 ([0; 0; 0; 0; 0; 0; 0; 0; 0; 0; 0; 0; 0; 0; 0; 0;
   0; 0; 0; 0; 0; 0; 0; 0; 0; 0; 0; 0; 0; 0; 0; 0],
  [1; 0; 0; 0; 0; 0; 0; 0; 0; 0; 0; 0; 0; 0; 0; 0;
   0; 0; 0; 0; 0; 0; 0; 0; 0; 0; 0; 0; 0; 0; 0; 0]);
 ([0x8a; 0x64; 0x1e; 0x14; 0x0a; 0x57; 0xd4; 0xda; 0x5c; 0x96; 0x9b; 0x01; 0x4c; 0x67; 0xbf; 0x8b;
   0x30; 0xfe; 0x08; 0xdb; 0x0d; 0xd5; 0xa8; 0xd7; 0x09; 0x11; 0x85; 0xa2; 0xd3; 0x45; 0xfb; 0x7e],
  [0xda; 0x8c; 0xc2; 0xd0; 0xac; 0x18; 0xe8; 0x52; 0x36; 0xd4; 0x21; 0xa3; 0xdd; 0x57; 0x22; 0x79;
   0xb7; 0xf8; 0x71; 0x9d; 0xc6; 0x91; 0x70; 0x86; 0x56; 0xbf; 0xa1; 0x11; 0x8b; 0x19; 0xe1; 0x0f]);
 ([0x18; 0x32; 0x98; 0x2c; 0x8f; 0x91; 0xae; 0x12; 0xf0; 0x8c; 0xea; 0xf3; 0x3c; 0xb9; 0x5d; 0xe4;
   0x69; 0xed; 0xb2; 0x47; 0x18; 0xbd; 0xce; 0x16; 0x52; 0x5c; 0x23; 0xe2; 0xa5; 0x25; 0x52; 0x5d],
  [0xb9; 0xb1; 0xe7; 0x5d; 0x4e; 0xbc; 0xee; 0xbb; 0x40; 0x81; 0x77; 0x82; 0x19; 0xab; 0xb5; 0xc6;
   0xee; 0xab; 0x5b; 0x6b; 0x63; 0x92; 0x8a; 0x34; 0x8d; 0xcd; 0xee; 0x4f; 0x49; 0xe5; 0xc9; 0x7e]);
 ([0x21; 0xac; 0x8b; 0x22; 0xcd; 0xc3; 0x9a; 0xe9; 0x5e; 0x78; 0xbd; 0xde; 0xba; 0xad; 0xab; 0xbf;
   0x75; 0x41; 0x09; 0xc5; 0x58; 0xa4; 0x7d; 0x92; 0xb0; 0x7f; 0xf2; 0xa1; 0xd1; 0xc0; 0xb3; 0x6d],
  [0x62; 0x4f; 0xd0; 0x75; 0x77; 0xba; 0x76; 0x77; 0xd7; 0xb8; 0xd8; 0x92; 0x6f; 0x98; 0x34; 0x3d;
   0xd6; 0x4e; 0x1c; 0x0f; 0xf0; 0x8f; 0x2e; 0xf1; 0xb3; 0xbd; 0xb1; 0xb9; 0xec; 0x99; 0xb4; 0x07]);
 ([0x60; 0x57; 0x2e; 0x9a; 0x72; 0x1d; 0x6b; 0x6e; 0x58; 0x33; 0x24; 0x8c; 0x48; 0x39; 0x46; 0x8e;
   0x89; 0x6a; 0x88; 0x51; 0x23; 0x62; 0xb5; 0x32; 0x09; 0x36; 0xe3; 0x57; 0xf5; 0x98; 0xde; 0x6f],
  [0x8b; 0x2c; 0x00; 0x48; 0x4a; 0xf9; 0x5b; 0x87; 0x69; 0x52; 0xe5; 0x5b; 0xd1; 0xb1; 0xe5; 0x25;
   0x25; 0xe0; 0x9c; 0xc2; 0x13; 0x44; 0xe8; 0xb9; 0x0a; 0x70; 0xad; 0xbd; 0x0f; 0x51; 0x94; 0x69]);
 ([0; 0; 0; 0; 0; 0; 0; 0; 0; 0; 0; 0; 0; 0; 0; 0;
   0; 0; 0; 0; 0; 0; 0; 0; 0; 0; 0; 0; 0; 0; 0; 0],
  [1; 0; 0; 0; 0; 0; 0; 0; 0; 0; 0; 0; 0; 0; 0; 0;
   0; 0; 0; 0; 0; 0; 0; 0; 0; 0; 0; 0; 0; 0; 0; 0]);
 ([0xa2; 0xdc; 0xab; 0xa9; 0x25; 0x2d; 0xac; 0x5f; 0x03; 0x33; 0x08; 0xe7; 0x7e; 0xfe; 0x95; 0x36;
   0x3c; 0x5b; 0x3a; 0xd3; 0x05; 0x82; 0x1c; 0x95; 0x2d; 0xd8; 0x77; 0x7e; 0x02; 0xd9; 0x5b; 0x70],
  [0xc2; 0xfe; 0x1b; 0x0c; 0x67; 0xcd; 0xd6; 0xe0; 0x51; 0x8e; 0x2c; 0xe0; 0x79; 0x88; 0xf0; 0xcf;
   0x41; 0x4a; 0xad; 0x23; 0xd4; 0x46; 0xca; 0x94; 0xa1; 0xc3; 0xeb; 0x28; 0x06; 0xfa; 0x17; 0x14]);
 ([0x7b; 0xaa; 0x70; 0x0a; 0x4b; 0xfb; 0xf5; 0xbf; 0x80; 0xc5; 0xcf; 0x08; 0x7a; 0xdd; 0xa1; 0xf4;
   0x9d; 0x54; 0x50; 0x53; 0x23; 0x77; 0x23; 0xf5; 0x34; 0xa5; 0x22; 0xd1; 0x0d; 0x96; 0x2e; 0x47],
  [0xcc; 0xb7; 0x32; 0x89; 0x57; 0xd0; 0x98; 0x75; 0xe4; 0x37; 0x99; 0xa9; 0xe8; 0xba; 0xed; 0xba;
   0xeb; 0xc7; 0x4f; 0x15; 0x76; 0x07; 0x0c; 0x4c; 0xef; 0x9f; 0x52; 0xfc; 0x04; 0x5d; 0x58; 0x10]);
 ([0xce; 0x82; 0xf0; 0x8f; 0x79; 0x02; 0xa8; 0xd1; 0xda; 0x14; 0x09; 0x48; 0xee; 0x8a; 0x40; 0x98;
   0x76; 0x60; 0x54; 0x5a; 0xde; 0x03; 0x24; 0xf5; 0xe6; 0x2f; 0xe1; 0x03; 0xbf; 0x68; 0x82; 0x7f],
  [0x64; 0xe9; 0x28; 0xc7; 0xa4; 0xcf; 0x2a; 0xf9; 0x90; 0x64; 0x72; 0x2c; 0x8b; 0xeb; 0xec; 0xa0;
   0xf2; 0x7d; 0x35; 0xb5; 0x90; 0x4d; 0x7f; 0x5b; 0x4a; 0x49; 0xe4; 0xb8; 0x3b; 0xc8; 0xa1; 0x2f]);
 ([0x8b; 0xc5; 0xcc; 0x3d; 0x69; 0xa6; 0xa1; 0x18; 0x44; 0xbc; 0x4d; 0x77; 0x37; 0xc7; 0x86; 0xec;
   0x0c; 0xc9; 0xd6; 0x44; 0xa9; 0x23; 0x27; 0xb9; 0x03; 0x34; 0xa7; 0x0a; 0xd5; 0xc7; 0x34; 0x37],
  [0xf9; 0x7e; 0x3e; 0x66; 0xee; 0xf9; 0x99; 0x28; 0xff; 0xad; 0x11; 0xd8; 0xe2; 0x66; 0xc5; 0xcd;
   0x0f; 0x0d; 0x0b; 0x6a; 0xfc; 0x7c; 0x24; 0xa8; 0x4f; 0xa8; 0x5e; 0x80; 0x45; 0x8b; 0x6c; 0x41]);
 ([0; 0; 0; 0; 0; 0; 0; 0; 0; 0; 0; 0; 0; 0; 0; 0;
   0; 0; 0; 0; 0; 0; 0; 0; 0; 0; 0; 0; 0; 0; 0; 0],
  [1; 0; 0; 0; 0; 0; 0; 0; 0; 0; 0; 0; 0; 0; 0; 0;
   0; 0; 0; 0; 0; 0; 0; 0; 0; 0; 0; 0; 0; 0; 0; 0]);
 ([0xef; 0x1e; 0xec; 0xf7; 0x8d; 0x77; 0xf2; 0xea; 0xdb; 0x60; 0x03; 0x21; 0xc0; 0xff; 0x5e; 0x67;
   0xc3; 0x71; 0x0b; 0x21; 0xb4; 0x41; 0xa0; 0x68; 0x38; 0xc6; 0x01; 0xa3; 0xd3; 0x51; 0x3c; 0x3c],
  [0x92; 0xf8; 0xd6; 0x4b; 0xef; 0x42; 0x13; 0xb2; 0x4a; 0xc4; 0x2e; 0x72; 0x3f; 0xc9; 0x11; 0xbd;
   0x74; 0x02; 0x0e; 0xf5; 0x13; 0x9d; 0x83; 0x1a; 0x1b; 0xd5; 0x54; 0xde; 0xc4; 0x1e; 0x16; 0x6c]);
 ([0x27; 0x52; 0xe4; 0x63; 0xaa; 0x94; 0xe6; 0xc3; 0x28; 0x9c; 0xc6; 0x56; 0xac; 0xfa; 0xb6; 0xbd;
   0xe2; 0xcc; 0x76; 0xc6; 0x27; 0x27; 0xa2; 0x8e; 0x78; 0x2b; 0x84; 0x72; 0x10; 0xbd; 0x4e; 0x2a],
  [0xea; 0xa7; 0x23; 0xef; 0x04; 0x61; 0x80; 0x50; 0xc9; 0x6e; 0xa5; 0x96; 0xd1; 0xd1; 0xc8; 0xc3;
   0x18; 0xd7; 0x2d; 0xfd; 0x26; 0xbd; 0xcb; 0x7b; 0x92; 0x51; 0x0e; 0x4a; 0x65; 0x57; 0xb8; 0x49]);
 ([0xab; 0x55; 0x36; 0xc3; 0xec; 0x63; 0x55; 0x11; 0x55; 0xf6; 0xa5; 0xc7; 0x01; 0x5f; 0xfe; 0x79;
   0xd8; 0x0a; 0xf7; 0x03; 0xd8; 0x98; 0x99; 0xf5; 0xd0; 0x00; 0x54; 0x6b; 0x66; 0x28; 0xf5; 0x25],
  [0x7a; 0x8d; 0xa1; 0x5d; 0x70; 0x5d; 0x51; 0x27; 0xee; 0x30; 0x65; 0x56; 0x95; 0x46; 0xde; 0xbd;
   0x03; 0x75; 0xb4; 0x57; 0x59; 0x89; 0xeb; 0x02; 0x9e; 0xcc; 0x89; 0x19; 0xa7; 0xcb; 0x17; 0x67]);
 ([0x6a; 0xeb; 0xfc; 0x9a; 0x9a; 0x10; 0xce; 0xdb; 0x3a; 0x1c; 0x3c; 0x6a; 0x9d; 0xea; 0x46; 0xbc;
   0x45; 0x49; 0xac; 0xe3; 0x41; 0x12; 0x7c; 0xf0; 0xf7; 0x4f; 0xf9; 0xf7; 0xff; 0x2c; 0x89; 0x04],
  [0x30; 0x31; 0x54; 0x1a; 0x46; 0xca; 0xe6; 0xc6; 0xcb; 0xe2; 0xc3; 0xc1; 0x8b; 0x75; 0x81; 0xbe;
   0xee; 0xf8; 0xa3; 0x11; 0x1c; 0x25; 0xa3; 0xa7; 0x35; 0x51; 0x55; 0xe2; 0x25; 0xaa; 0xe2; 0x3a]);
 ([0; 0; 0; 0; 0; 0; 0; 0; 0; 0; 0; 0; 0; 0; 0; 0;
   0; 0; 0; 0; 0; 0; 0; 0; 0; 0; 0; 0; 0; 0; 0; 0],
  [1; 0; 0; 0; 0; 0; 0; 0; 0; 0; 0; 0; 0; 0; 0; 0;
   0; 0; 0; 0; 0; 0; 0; 0; 0; 0; 0; 0; 0; 0; 0; 0]);
 ([0xb4; 0x48; 0x10; 0x9f; 0x8a; 0x09; 0x76; 0xfa; 0xf0; 0x7a; 0xb0; 0x70; 0xf7; 0x83; 0x80; 0x52;
   0x84; 0x2b; 0x26; 0xa2; 0xc4; 0x5d; 0x4f; 0xba; 0xb1; 0xc8; 0x40; 0x0d; 0x78; 0x97; 0xc4; 0x60],
  [0xd4; 0xb1; 0x6c; 0x08; 0xc7; 0x40; 0x38; 0x73; 0x5f; 0x0b; 0xf3; 0x76; 0x5d; 0xb2; 0xa5; 0x2f;
   0x57; 0x57; 0x07; 0xed; 0x08; 0xa2; 0x6c; 0x4f; 0x08; 0x02; 0xb5; 0x0e; 0xee; 0x44; 0xfa; 0x22]);
 ([0x0f; 0x00; 0x3f; 0xa6; 0x04; 0x19; 0x56; 0x65; 0x31; 0x7f; 0x8b; 0xeb; 0x0d; 0xe1; 0x47; 0x89;
   0x97; 0x16; 0x53; 0xfa; 0x81; 0xa7; 0xaa; 0xb2; 0xbf; 0x67; 0xeb; 0x72; 0x60; 0x81; 0x0d; 0x48],
  [0x7e; 0x13; 0x33; 0xcd; 0xa8; 0x84; 0x56; 0x1e; 0x67; 0xaf; 0x6b; 0x43; 0xac; 0x17; 0xaf; 0x16;
   0xc0; 0x52; 0x99; 0x49; 0x5b; 0x87; 0x73; 0x7e; 0xb5; 0x43; 0xda; 0x6b; 0x1d; 0x0f; 0x2d; 0x55]);
 ([0xe9; 0x58; 0x1f; 0xff; 0x84; 0x3f; 0x93; 0x1c; 0xcb; 0xe1; 0x30; 0x69; 0xa5; 0x75; 0x19; 0x7e;
   0x14; 0x5f; 0xf8; 0xfc; 0x09; 0xdd; 0xa8; 0x78; 0x9d; 0xca; 0x59; 0x8b; 0xd1; 0x30; 0x01; 0x13],
  [0xff; 0x76; 0x03; 0xc5; 0x4b; 0x89; 0x99; 0x70; 0x00; 0x59; 0x70; 0x9c; 0xd5; 0xd9; 0x11; 0x89;
   0x5a; 0x46; 0xfe; 0xef; 0xdc; 0xd9; 0x55; 0x2b; 0x45; 0xa7; 0xb0; 0x2d; 0xfb; 0x24; 0xc2; 0x29]);
 ([0x38; 0x06; 0xf8; 0x0b; 0xac; 0x82; 0xc4; 0x97; 0x2b; 0x90; 0xe0; 0xf7; 0xa8; 0xab; 0x6c; 0x08;
   0x80; 0x66; 0x90; 0x46; 0xf7; 0x26; 0x2d; 0xf8; 0xf1; 0xc4; 0x6b; 0x4a; 0x82; 0x98; 0x8e; 0x37],
  [0x8e; 0xb4; 0xee; 0xb8; 0xd4; 0x3f; 0xb2; 0x1b; 0xe0; 0x0a; 0x3d; 0x75; 0x34; 0x28; 0xa2; 0x8e;
   0xc4; 0x92; 0x7b; 0xfe; 0x60; 0x6e; 0x6d; 0xb8; 0x31; 0x1d; 0x62; 0x0d; 0x78; 0x14; 0x42; 0x11]);
 ([0; 0; 0; 0; 0; 0; 0; 0; 0; 0; 0; 0; 0; 0; 0; 0;
   0; 0; 0; 0; 0; 0; 0; 0; 0; 0; 0; 0; 0; 0; 0; 0],
  [1; 0; 0; 0; 0; 0; 0; 0; 0; 0; 0; 0; 0; 0; 0; 0;
   0; 0; 0; 0; 0; 0; 0; 0; 0; 0; 0; 0; 0; 0; 0; 0]);
 ([0x5e; 0xa8; 0xd8; 0x04; 0x9b; 0x73; 0xc9; 0xc9; 0xdc; 0x0d; 0x73; 0xbf; 0x0a; 0x0a; 0x73; 0xff;
   0x18; 0x1f; 0x9c; 0x51; 0xaa; 0xc6; 0xf1; 0x83; 0x25; 0xfd; 0xab; 0xa3; 0x11; 0xd3; 0x01; 0x24],
  [0x4d; 0xe3; 0x7e; 0x38; 0x62; 0x5e; 0x64; 0xbb; 0x2b; 0x53; 0xb5; 0x03; 0x68; 0xc4; 0xf2; 0x2b;
   0x5a; 0x03; 0x32; 0x99; 0x4a; 0x41; 0x9a; 0xe1; 0x1a; 0xae; 0x8c; 0x48; 0xf3; 0x24; 0x32; 0x65]);
 ([0xe8; 0xdd; 0xad; 0x3a; 0x8c; 0xea; 0xf4; 0xb3; 0xb2; 0xe5; 0x73; 0xf2; 0xed; 0x8b; 0xbf; 0xed;
   0xb1; 0x0c; 0x0c; 0xfb; 0x2b; 0xf1; 0x01; 0x48; 0xe8; 0x26; 0x03; 0x8e; 0x27; 0x4d; 0x96; 0x72],
  [0xc8; 0x09; 0x3b; 0x60; 0xc9; 0x26; 0x4d; 0x7c; 0xf2; 0x9c; 0xd4; 0xa1; 0x3b; 0x26; 0xc2; 0x04;
   0x33; 0x44; 0x76; 0x3c; 0x02; 0xbb; 0x11; 0x42; 0x0c; 0x22; 0xb7; 0xc6; 0xe1; 0xac; 0xb4; 0x0e]);
 ([0x6f; 0x85; 0xe7; 0xef; 0xde; 0x67; 0x30; 0xfc; 0xbf; 0x5a; 0xe0; 0x7b; 0x7a; 0x2a; 0x54; 0x6b;
   0x5d; 0x62; 0x85; 0xa1; 0xf8; 0x16; 0x88; 0xec; 0x61; 0xb9; 0x96; 0xb5; 0xef; 0x2d; 0x43; 0x4d],
  [0x7c; 0x31; 0x33; 0xcc; 0xe4; 0xcf; 0x6c; 0xff; 0x80; 0x47; 0x77; 0xd1; 0xd8; 0xe9; 0x69; 0x97;
   0x98; 0x7f; 0x20; 0x57; 0x1d; 0x1d; 0x4f; 0x08; 0x27; 0xc8; 0x35; 0x57; 0x40; 0xc6; 0x21; 0x0c]);
 ([0xd2; 0x8e; 0x9b; 0xfa; 0x42; 0x8e; 0xdf; 0x8f; 0xc7; 0x86; 0xf9; 0xa4; 0xca; 0x70; 0x00; 0x9d;
   0x21; 0xbf; 0xec; 0x57; 0x62; 0x30; 0x58; 0x8c; 0x0d; 0x35; 0xdb; 0x5d; 0x8b; 0x6a; 0xa0; 0x5a],
  [0xc1; 0x58; 0x7c; 0x0d; 0x20; 0xdd; 0x11; 0x26; 0x5f; 0x89; 0x3b; 0x97; 0x58; 0xf8; 0x8b; 0xe3;
   0xdf; 0x32; 0xe2; 0xfc; 0xd8; 0x67; 0xf2; 0xa5; 0x37; 0x1e; 0x6d; 0xec; 0x7c; 0x27; 0x20; 0x79]);
 ([0; 0; 0; 0; 0; 0; 0; 0; 0; 0; 0; 0; 0; 0; 0; 0;
   0; 0; 0; 0; 0; 0; 0; 0; 0; 0; 0; 0; 0; 0; 0; 0],
  [1; 0; 0; 0; 0; 0; 0; 0; 0; 0; 0; 0; 0; 0; 0; 0;
   0; 0; 0; 0; 0; 0; 0; 0; 0; 0; 0; 0; 0; 0; 0; 0]);
 ([0xd0; 0xe9; 0xc0; 0xfa; 0x95; 0x45; 0x23; 0x96; 0xf1; 0x2c; 0x79; 0x25; 0x14; 0xce; 0x40; 0x14;
   0x44; 0x2c; 0x36; 0x50; 0xd9; 0x63; 0x56; 0xb7; 0x56; 0x3b; 0x9e; 0xa7; 0xef; 0x89; 0xbb; 0x0e],
  [0xce; 0x7f; 0xdc; 0x0a; 0xcc; 0x82; 0x1c; 0x0a; 0x78; 0x71; 0xe8; 0x74; 0x8d; 0x01; 0x30; 0x0f;
   0xa7; 0x11; 0x4c; 0xdf; 0x38; 0xd7; 0xa7; 0x0d; 0xf8; 0x48; 0x52; 0x00; 0x80; 0x7b; 0x5f; 0x0e]);
 ([0x25; 0x83; 0xe6; 0x94; 0x7b; 0x81; 0xb2; 0x91; 0xae; 0x0e; 0x05; 0xc9; 0xa3; 0x68; 0x2d; 0xd9;
   0x88; 0x25; 0x19; 0x2a; 0x61; 0x61; 0x21; 0x97; 0x15; 0xa1; 0x35; 0xa5; 0x46; 0xc8; 0xa2; 0x0e],
  [0x1b; 0x03; 0x0d; 0x8b; 0x5a; 0x1b; 0x97; 0x4b; 0xf2; 0x16; 0x31; 0x3d; 0x1f; 0x33; 0xa0; 0x50;
   0x3a; 0x18; 0xbe; 0x13; 0xa1; 0x76; 0xc1; 0xba; 0x1b; 0xf1; 0x05; 0x7b; 0x33; 0xa8; 0x82; 0x3b]);
 ([0xba; 0x36; 0x7b; 0x6d; 0xa9; 0xea; 0x14; 0x12; 0xc5; 0xfa; 0x91; 0x00; 0xba; 0x9b; 0x99; 0xcc;
   0x56; 0x02; 0xe9; 0xa0; 0x26; 0x40; 0x66; 0x8c; 0xc4; 0xf8; 0x85; 0x33; 0x68; 0xe7; 0x03; 0x20],
  [0x50; 0x5b; 0xff; 0xa9; 0xb2; 0xf1; 0xf1; 0x78; 0xcf; 0x14; 0xa4; 0xa9; 0xfc; 0x09; 0x46; 0x94;
   0x54; 0x65; 0x0d; 0x9c; 0x5f; 0x72; 0x21; 0xe2; 0x97; 0xa5; 0x2d; 0x81; 0xce; 0x4a; 0x5f; 0x79]);
 ([0x3d; 0x5f; 0x5c; 0xd2; 0xbc; 0x7d; 0x77; 0x0e; 0x2a; 0x6d; 0x22; 0x45; 0x84; 0x06; 0xc4; 0xdd;
   0xc6; 0xa6; 0xc6; 0xd7; 0x49; 0xad; 0x6d; 0x87; 0x91; 0x0e; 0x3a; 0x67; 0x1d; 0x2c; 0x1d; 0x56],
  [0xfe; 0x7a; 0x74; 0xcf; 0xd4; 0xd2; 0xe5; 0x19; 0xde; 0xd0; 0xdb; 0x70; 0x23; 0x69; 0xe6; 0x6d;
   0xec; 0xec; 0xcc; 0x09; 0x33; 0x6a; 0x77; 0xdc; 0x6b; 0x22; 0x76; 0x5d; 0x92; 0x09; 0xac; 0x2d]);
 ([0; 0; 0; 0; 0; 0; 0; 0; 0; 0; 0; 0; 0; 0; 0; 0;
   0; 0; 0; 0; 0; 0; 0; 0; 0; 0; 0; 0; 0; 0; 0; 0],
  [1; 0; 0; 0; 0; 0; 0; 0; 0; 0; 0; 0; 0; 0; 0; 0;
   0; 0; 0; 0; 0; 0; 0; 0; 0; 0; 0; 0; 0; 0; 0; 0]);
 ([0x23; 0x15; 0x17; 0xeb; 0xd3; 0xdb; 0x12; 0x5e; 0x01; 0xf0; 0x91; 0xab; 0x2c; 0x41; 0xce; 0xac;
   0xed; 0x1b; 0x4b; 0x2d; 0xbc; 0xdb; 0x17; 0x66; 0x89; 0x46; 0xad; 0x4b; 0x1e; 0x6f; 0x0b; 0x14],
  [0x11; 0xce; 0xbf; 0xb6; 0x77; 0x2d; 0x48; 0x22; 0x18; 0x4f; 0xa3; 0x5d; 0x4a; 0xb0; 0x70; 0x12;
   0x3e; 0x54; 0xd7; 0xd8; 0x0e; 0x2b; 0x27; 0xdc; 0x53; 0xff; 0xca; 0x8c; 0x59; 0xb3; 0x4e; 0x44]);
 ([0x07; 0x76; 0x61; 0x0f; 0x66; 0xb2; 0x21; 0x39; 0x7e; 0xc0; 0xec; 0x45; 0x28; 0x82; 0xa1; 0x29;
   0x32; 0x44; 0x35; 0x13; 0x5e; 0x61; 0x5e; 0x54; 0xcb; 0x7c; 0xef; 0xf6; 0x41; 0xcf; 0x9f; 0x0a],
  [0xdd; 0xf9; 0xda; 0x84; 0xc3; 0xe6; 0x8a; 0x9f; 0x24; 0xd2; 0x96; 0x5d; 0x39; 0x6f; 0x58; 0x8c;
   0xc1; 0x56; 0x93; 0xab; 0xb5; 0x79; 0x3b; 0xd2; 0xa8; 0x73; 0x16; 0xed; 0xfa; 0xb4; 0x2f; 0x73]);
 ([0x8b; 0xb1; 0x95; 0xe5; 0x92; 0x50; 0x35; 0x11; 0x76; 0xac; 0xf4; 0x4d; 0x24; 0xc3; 0x32; 0xe6;
   0xeb; 0xfe; 0x2c; 0x87; 0xc4; 0xf1; 0x56; 0xc4; 0x75; 0x24; 0x7a; 0x56; 0x85; 0x5a; 0x3a; 0x13],
  [0x0d; 0x16; 0xac; 0x3c; 0x4a; 0x58; 0x86; 0x3a; 0x46; 0x7f; 0x6c; 0xa3; 0x52; 0x6e; 0x37; 0xe4;
   0x96; 0x9c; 0xe9; 0x5c; 0x66; 0x41; 0x67; 0xe4; 0xfb; 0x79; 0x0c; 0x05; 0xf6; 0x64; 0xd5; 0x7c]);
 ([0x28; 0xc1; 0xe1; 0x54; 0x73; 0xf2; 0xbf; 0x76; 0x74; 0x19; 0x19; 0x1b; 0xe4; 0xb9; 0xa8; 0x46;
   0x65; 0x73; 0xf3; 0x77; 0x9b; 0x29; 0x74; 0x5b; 0xc6; 0x89; 0x6c; 0x2c; 0x7c; 0xf8; 0xb3; 0x0f],
  [0xf7; 0xd5; 0xe9; 0x74; 0x5d; 0xb8; 0x25; 0x16; 0xb5; 0x30; 0xbc; 0x84; 0xc5; 0xf0; 0xad; 0xca;
   0x12; 0x28; 0xbc; 0x9d; 0xd4; 0xfa; 0x82; 0xe6; 0xe3; 0xbf; 0xa2; 0x15; 0x2c; 0xd4; 0x34; 0x10]);
 ([0; 0; 0; 0; 0; 0; 0; 0; 0; 0; 0; 0; 0; 0; 0; 0;
   0; 0; 0; 0; 0; 0; 0; 0; 0; 0; 0; 0; 0; 0; 0; 0],
  [1; 0; 0; 0; 0; 0; 0; 0; 0; 0; 0; 0; 0; 0; 0; 0;
   0; 0; 0; 0; 0; 0; 0; 0; 0; 0; 0; 0; 0; 0; 0; 0]);
 ([0x61; 0xb1; 0x46; 0xba; 0x0e; 0x31; 0xa5; 0x67; 0x6c; 0x7f; 0xd6; 0xd9; 0x27; 0x85; 0x0f; 0x79;
   0x14; 0xc8; 0x6c; 0x2f; 0x5f; 0x5b; 0x9c; 0x35; 0x3d; 0x38; 0x86; 0x77; 0x65; 0x55; 0x6a; 0x7b],
  [0xd3; 0xb0; 0x3a; 0x66; 0x60; 0x1b; 0x43; 0xf1; 0x26; 0x58; 0x99; 0x09; 0x8f; 0x2d; 0xa3; 0x14;
   0x71; 0x85; 0xdb; 0xed; 0xf6; 0x26; 0xd5; 0x61; 0x9a; 0x73; 0xac; 0x0e; 0xea; 0xac; 0xb7; 0x0c]);
 ([0x5e; 0xf4; 0xe5; 0x17; 0x0e; 0x10; 0x9f; 0xe7; 0x43; 0x5f; 0x67; 0x5c; 0xac; 0x4b; 0xe5; 0x14;
   0x41; 0xd2; 0xbf; 0x48; 0xf5; 0x14; 0xb0; 0x71; 0xc6; 0x61; 0xc1; 0xb2; 0x70; 0x58; 0xd2; 0x5a],
  [0x2d; 0xba; 0x16; 0x07; 0x92; 0x94; 0xdc; 0xbd; 0x50; 0x2b; 0xc9; 0x7f; 0x42; 0x00; 0xba; 0x61;
   0xed; 0xf8; 0x43; 0xed; 0xf5; 0xf9; 0x40; 0x60; 0xb2; 0xb0; 0x82; 0xcb; 0xed; 0x75; 0xc7; 0x65]);
 ([0x80; 0xba; 0x0d; 0x09; 0x40; 0xa7; 0x39; 0xa6; 0x67; 0x34; 0x7e; 0x66; 0xbe; 0x56; 0xfb; 0x53;
   0x78; 0xc4; 0x46; 0xe8; 0xed; 0x68; 0x6c; 0x7f; 0xce; 0xe8; 0x9f; 0xce; 0xa2; 0x64; 0x58; 0x53],
  [0xe8; 0xc1; 0xa9; 0xc2; 0x7b; 0x59; 0x21; 0x33; 0xe2; 0x43; 0x73; 0x2b; 0xac; 0x2d; 0xc1; 0x89;
   0x3b; 0x15; 0xe2; 0xd5; 0xc0; 0x97; 0x8a; 0xfd; 0x6f; 0x36; 0x33; 0xb7; 0xb9; 0xc3; 0x88; 0x09]);
 ([0xd0; 0xb6; 0x56; 0x30; 0x5c; 0xae; 0xb3; 0x75; 0x44; 0xa4; 0x83; 0x51; 0x6e; 0x01; 0x65; 0xef;
   0x45; 0x76; 0xe6; 0xf5; 0xa2; 0x0d; 0xd4; 0x16; 0x3b; 0x58; 0x2f; 0xf2; 0x2f; 0x36; 0x18; 0x3f],
  [0xfd; 0x2f; 0xe0; 0x9b; 0x1e; 0x8c; 0xc5; 0x18; 0xa9; 0xca; 0xd4; 0x2b; 0x35; 0xb6; 0x95; 0x0a;
   0x9f; 0x7e; 0xfb; 0xc4; 0xef; 0x88; 0x7b; 0x23; 0x43; 0xec; 0x2f; 0x0d; 0x0f; 0x7a; 0xfc; 0x5c]);
 ([0; 0; 0; 0; 0; 0; 0; 0; 0; 0; 0; 0; 0; 0; 0; 0;
   0; 0; 0; 0; 0; 0; 0; 0; 0; 0; 0; 0; 0; 0; 0; 0],
  [1; 0; 0; 0; 0; 0; 0; 0; 0; 0; 0; 0; 0; 0; 0; 0;
   0; 0; 0; 0; 0; 0; 0; 0; 0; 0; 0; 0; 0; 0; 0; 0]);
 ([0x8d; 0xd2; 0xda; 0xc7; 0x44; 0xd6; 0x7a; 0xdb; 0x26; 0x7d; 0x1d; 0xb8; 0xe1; 0xde; 0x9d; 0x7a;
   0x7d; 0x17; 0x7e; 0x1c; 0x37; 0x04; 0x8d; 0x2d; 0x7c; 0x5e; 0x18; 0x38; 0x1e; 0xaf; 0xc7; 0x1b],
  [0x33; 0x48; 0x31; 0x00; 0x59; 0xf6; 0xf2; 0xca; 0x0f; 0x27; 0x1b; 0x63; 0x12; 0x7e; 0x02; 0x1d;
   0x49; 0xc0; 0x5d; 0x79; 0x87; 0xef; 0x5e; 0x7a; 0x2f; 0x1f; 0x66; 0x55; 0xd8; 0x09; 0xd9; 0x61]);
 ([0x54; 0x83; 0x02; 0x18; 0x82; 0x93; 0x99; 0x07; 0xd0; 0xa7; 0xda; 0xd8; 0x75; 0x89; 0xfa; 0xf2;
   0xd9; 0xa3; 0xb8; 0x6b; 0x5a; 0x35; 0x28; 0xd2; 0x6b; 0x59; 0xc2; 0xf8; 0x45; 0xe2; 0xbc; 0x06],
  [0x65; 0xc0; 0xa3; 0x88; 0x51; 0x95; 0xfc; 0x96; 0x94; 0x78; 0xe8; 0x0d; 0x8b; 0x41; 0xc9; 0xc2;
   0x58; 0x48; 0x75; 0x10; 0x2f; 0xcd; 0x2a; 0xc9; 0xa0; 0x6d; 0x0f; 0xdd; 0x9c; 0x98; 0x26; 0x3d]);
 ([0x2f; 0x66; 0x29; 0x1b; 0x04; 0x89; 0xbd; 0x7e; 0xee; 0x6e; 0xdd; 0xb7; 0x0e; 0xef; 0xb0; 0x0c;
   0xb4; 0xfc; 0x7f; 0xc2; 0xc9; 0x3a; 0x3c; 0x64; 0xef; 0x45; 0x44; 0xaf; 0x8a; 0x90; 0x65; 0x76],
  [0xa1; 0x4c; 0x70; 0x4b; 0x0e; 0xa0; 0x83; 0x70; 0x13; 0xa4; 0xaf; 0xb8; 0x38; 0x19; 0x22; 0x65;
   0x09; 0xb4; 0x02; 0x4f; 0x06; 0xf8; 0x17; 0xce; 0x46; 0x45; 0xda; 0x50; 0x7c; 0x8a; 0xd1; 0x4e]);
 ([0xf7; 0xd4; 0x16; 0x6c; 0x4e; 0x95; 0x9d; 0x5d; 0x0f; 0x91; 0x2b; 0x52; 0xfe; 0x5c; 0x34; 0xe5;
   0x30; 0xe6; 0xa4; 0x3b; 0xf3; 0xf3; 0x34; 0x08; 0xa9; 0x4a; 0xa0; 0xb5; 0x6e; 0xb3; 0x09; 0x0a],
  [0x26; 0xd9; 0x5e; 0xa3; 0x0f; 0xeb; 0xa2; 0xf3; 0x20; 0x3b; 0x37; 0xd4; 0xe4; 0x9e; 0xce; 0x06;
   0x3d; 0x53; 0xed; 0xae; 0x2b; 0xeb; 0xb6; 0x24; 0x0a; 0x11; 0xa3; 0x0f; 0xd6; 0x7f; 0xa4; 0x3a]);
 ([0; 0; 0; 0; 0; 0; 0; 0; 0; 0; 0; 0; 0; 0; 0; 0;
   0; 0; 0; 0; 0; 0; 0; 0; 0; 0; 0; 0; 0; 0; 0; 0],
  [1; 0; 0; 0; 0; 0; 0; 0; 0; 0; 0; 0; 0; 0; 0; 0;
   0; 0; 0; 0; 0; 0; 0; 0; 0; 0; 0; 0; 0; 0; 0; 0]);
 ([0xdb; 0x9f; 0x2c; 0xfc; 0xd6; 0xb2; 0x1e; 0x2e; 0x52; 0x7a; 0x06; 0x87; 0x2d; 0x86; 0x72; 0x2b;
   0x6d; 0x90; 0x77; 0x46; 0x43; 0xb5; 0x7a; 0xf8; 0x60; 0x7d; 0x91; 0x60; 0x5b; 0x9d; 0x9e; 0x07],
  [0x97; 0x87; 0xc7; 0x04; 0x1c; 0x38; 0x01; 0x39; 0x58; 0xc7; 0x85; 0xa3; 0xfc; 0x64; 0x00; 0x64;
   0x25; 0xa2; 0xbf; 0x50; 0x94; 0xca; 0x26; 0x31; 0x45; 0x0a; 0x24; 0xd2; 0x51; 0x29; 0x51; 0x16]);
 ([0x4d; 0x4a; 0xd7; 0x98; 0x71; 0x57; 0xac; 0x7d; 0x8b; 0x37; 0xbd; 0x63; 0xff; 0x87; 0xb1; 0x49;
   0x95; 0x20; 0x7c; 0xcf; 0x7c; 0x59; 0xc4; 0x91; 0x9c; 0xef; 0xd0; 0xdb; 0x60; 0x09; 0x9d; 0x46],
  [0xcb; 0x78; 0x94; 0x90; 0xe4; 0x45; 0xb3; 0xf6; 0xd9; 0xf6; 0x57; 0x74; 0xd5; 0xf8; 0x83; 0x4f;
   0x39; 0xc9; 0xbd; 0x88; 0xc2; 0x57; 0x21; 0x1f; 0x24; 0x32; 0x68; 0xf8; 0xc7; 0x21; 0x5f; 0x0b]);
 ([0x2a; 0x36; 0x68; 0xfc; 0x5f; 0xb6; 0x4f; 0xa5; 0xe3; 0x9d; 0x24; 0x2f; 0xc0; 0x93; 0x61; 0xcf;
   0xf8; 0x0a; 0xed; 0xe1; 0xdb; 0x27; 0xec; 0x0e; 0x14; 0x32; 0x5f; 0x8e; 0xa1; 0x62; 0x41; 0x16],
  [0x95; 0x21; 0x01; 0xce; 0x95; 0x5b; 0x0e; 0x57; 0xc7; 0xb9; 0x62; 0xb5; 0x28; 0xca; 0x11; 0xec;
   0xb4; 0x46; 0x06; 0x73; 0x26; 0xff; 0xfb; 0x66; 0x7d; 0xee; 0x5f; 0xb2; 0x56; 0xfd; 0x2a; 0x08]);
 ([0x92; 0x67; 0x77; 0x56; 0xa1; 0xff; 0xc4; 0xc5; 0x95; 0xf0; 0xe3; 0x3a; 0x0a; 0xca; 0x94; 0x4d;
   0x9e; 0x7e; 0x3d; 0xb9; 0x6e; 0xb6; 0xb0; 0xce; 0xa4; 0x30; 0x89; 0x99; 0xe9; 0xad; 0x11; 0x59],
  [0xf6; 0x48; 0x95; 0xa1; 0x6f; 0x5f; 0xb7; 0xa5; 0xbb; 0x30; 0x00; 0x1c; 0xd2; 0x8a; 0xd6; 0x25;
   0x26; 0x1b; 0xb2; 0x0d; 0x37; 0x6a; 0x05; 0xf4; 0x9d; 0x3e; 0x17; 0x2a; 0x43; 0xd2; 0x3a; 0x06]);
 ([0; 0; 0; 0; 0; 0; 0; 0; 0; 0; 0; 0; 0; 0; 0; 0;
   0; 0; 0; 0; 0; 0; 0; 0; 0; 0; 0; 0; 0; 0; 0; 0],
  [1; 0; 0; 0; 0; 0; 0; 0; 0; 0; 0; 0; 0; 0; 0; 0;
   0; 0; 0; 0; 0; 0; 0; 0; 0; 0; 0; 0; 0; 0; 0; 0]);
 ([0x32; 0x99; 0x93; 0xd1; 0x9a; 0x72; 0xf3; 0xa9; 0x16; 0xbd; 0xb4; 0x4c; 0xdd; 0xf9; 0xd4; 0xb2;
   0x64; 0x9a; 0xd3; 0x05; 0xe4; 0xa3; 0x73; 0x1c; 0xcb; 0x7e; 0x57; 0x67; 0xff; 0x04; 0xb3; 0x10],
  [0xb9; 0x4b; 0xa4; 0xad; 0xd0; 0x6d; 0x61; 0x23; 0xb4; 0xaf; 0x34; 0xa9; 0xaa; 0x65; 0xec; 0xd9;
   0x69; 0xe3; 0x85; 0xcd; 0xcc; 0xe7; 0xb0; 0x9b; 0x41; 0xc1; 0x1c; 0xf9; 0xa0; 0xfa; 0xb7; 0x13]);
 ([0x04; 0xfd; 0x88; 0x3c; 0x0c; 0xd0; 0x09; 0x52; 0x51; 0x4f; 0x06; 0x19; 0xcc; 0xc3; 0xbb; 0xde;
   0x80; 0xc5; 0x33; 0xbc; 0xf9; 0xf3; 0x17; 0x36; 0xdd; 0xc6; 0xde; 0xe8; 0x9b; 0x5d; 0x79; 0x1b],
  [0x65; 0x0a; 0xbe; 0x51; 0x57; 0xad; 0x50; 0x79; 0x08; 0x71; 0x9b; 0x07; 0x95; 0x8f; 0xfb; 0xae;
   0x4b; 0x38; 0xba; 0xcf; 0x53; 0x2a; 0x86; 0x1e; 0xc0; 0x50; 0x5c; 0x67; 0x1b; 0xf6; 0x87; 0x6c]);
 ([0x4f; 0x00; 0xb2; 0x66; 0x55; 0xed; 0x4a; 0xed; 0x8d; 0xe1; 0x66; 0x18; 0xb2; 0x14; 0x74; 0x8d;
   0xfd; 0x1a; 0x36; 0x0f; 0x26; 0x5c; 0x8b; 0x89; 0xf3; 0xab; 0xf2; 0xf3; 0x24; 0x67; 0xfd; 0x70],
  [0xfd; 0x4e; 0x2a; 0xc1; 0x3a; 0xca; 0x8f; 0x00; 0xd8; 0xec; 0x74; 0x67; 0xef; 0x61; 0xe0; 0x28;
   0xd0; 0x96; 0xf4; 0x48; 0xde; 0x81; 0xe3; 0xef; 0xdc; 0xaa; 0x7d; 0xf3; 0xb6; 0x55; 0xa6; 0x65]);
 ([0xeb; 0xcb; 0xc5; 0x70; 0x91; 0x31; 0x10; 0x93; 0x0d; 0xc8; 0xd0; 0xef; 0x62; 0xe8; 0x6f; 0x82;
   0xe3; 0x69; 0x3d; 0x91; 0x7f; 0x31; 0xe1; 0x26; 0x35; 0x3c; 0x4a; 0x2f; 0xab; 0xc4; 0x9a; 0x5e],
  [0xab; 0x1b; 0xb5; 0xe5; 0x2b; 0xc3; 0x0e; 0x29; 0xb0; 0xd0; 0x73; 0xe6; 0x4f; 0x64; 0xf2; 0xbc;
   0xe4; 0xe4; 0xe1; 0x9a; 0x52; 0x33; 0x2f; 0xbd; 0xcc; 0x03; 0xee; 0x8a; 0xfa; 0x00; 0x5f; 0x50]);
 ([0; 0; 0; 0; 0; 0; 0; 0; 0; 0; 0; 0; 0; 0; 0; 0;
   0; 0; 0; 0; 0; 0; 0; 0; 0; 0; 0; 0; 0; 0; 0; 0],
  [1; 0; 0; 0; 0; 0; 0; 0; 0; 0; 0; 0; 0; 0; 0; 0;
   0; 0; 0; 0; 0; 0; 0; 0; 0; 0; 0; 0; 0; 0; 0; 0]);
 ([0xf6; 0xdb; 0x0d; 0x22; 0x3d; 0xb5; 0x14; 0x75; 0x31; 0xf0; 0x81; 0xe2; 0xb9; 0x37; 0xa2; 0xa9;
   0x84; 0x11; 0x9a; 0x07; 0xb5; 0x53; 0x89; 0x78; 0xa9; 0x30; 0x27; 0xa1; 0xf1; 0x4e; 0x5c; 0x2e],
  [0x8b; 0x00; 0x54; 0xfb; 0x4d; 0xdc; 0xcb; 0x17; 0x35; 0x40; 0xff; 0xb7; 0x8c; 0xfe; 0x4a; 0xe4;
   0x4e; 0x99; 0x4e; 0xa8; 0x74; 0x54; 0x5d; 0x5c; 0x96; 0xa3; 0x12; 0x55; 0x36; 0x31; 0x17; 0x5c]);
 ([0xce; 0x24; 0xef; 0x7b; 0x86; 0xf2; 0x0f; 0x77; 0xe8; 0x5c; 0x7d; 0x87; 0x38; 0x2d; 0xef; 0xaf;
   0xf2; 0x8c; 0x72; 0x2e; 0xeb; 0xb6; 0x55; 0x4b; 0x6e; 0xf1; 0x4e; 0x8a; 0x0e; 0x9a; 0x6c; 0x4c],
  [0x25; 0xea; 0x86; 0xc2; 0xd1; 0x4f; 0xb7; 0x3e; 0xa8; 0x5c; 0x8d; 0x66; 0x81; 0x25; 0xed; 0xc5;
   0x4c; 0x05; 0xb9; 0xd8; 0xd6; 0x70; 0xbe; 0x73; 0x82; 0xe8; 0xa1; 0xe5; 0x1e; 0x71; 0xd5; 0x26]);
 ([0x4e; 0x6d; 0xc3; 0xa7; 0x4f; 0x22; 0x45; 0x26; 0xa2; 0x7e; 0x16; 0xf7; 0xf7; 0x63; 0xdc; 0x86;
   0x01; 0x2a; 0x71; 0x38; 0x5c; 0x33; 0xc3; 0xce; 0x30; 0xff; 0xf9; 0x2c; 0x91; 0x71; 0x8a; 0x72],
  [0x8c; 0x44; 0x09; 0x28; 0xd5; 0x23; 0xc9; 0x8f; 0xf3; 0x84; 0x45; 0xc6; 0x9a; 0x5e; 0xff; 0xd2;
   0xc7; 0x57; 0x93; 0xa3; 0xc1; 0x69; 0xdd; 0x62; 0x0f; 0xda; 0x5c; 0x30; 0x59; 0x5d; 0xe9; 0x4c]);
 ([0x92; 0x7e; 0x50; 0x27; 0x72; 0xd7; 0x0c; 0xd6; 0x69; 0x96; 0x81; 0x35; 0x84; 0x94; 0x35; 0x8b;
   0x6c; 0xaa; 0x62; 0x86; 0x6e; 0x1c; 0x15; 0xf3; 0x6c; 0xb3; 0xff; 0x65; 0x1b; 0xa2; 0x9b; 0x59],
  [0xe2; 0xa9; 0x65; 0x88; 0xc4; 0x50; 0xfa; 0xbb; 0x3b; 0x6e; 0x5f; 0x44; 0x01; 0xca; 0x97; 0xd4;
   0xdd; 0xf6; 0xcd; 0x3f; 0x3f; 0xe5; 0x97; 0x67; 0x2b; 0x8c; 0x66; 0x0f; 0x35; 0x9b; 0xf5; 0x07]);
 ([0; 0; 0; 0; 0; 0; 0; 0; 0; 0; 0; 0; 0; 0; 0; 0;
   0; 0; 0; 0; 0; 0; 0; 0; 0; 0; 0; 0; 0; 0; 0; 0],
  [1; 0; 0; 0; 0; 0; 0; 0; 0; 0; 0; 0; 0; 0; 0; 0;
   0; 0; 0; 0; 0; 0; 0; 0; 0; 0; 0; 0; 0; 0; 0; 0]);
 ([0xf1; 0x59; 0x27; 0xd8; 0xdb; 0x5a; 0x11; 0x5e; 0x82; 0xf3; 0x38; 0xff; 0x1c; 0xed; 0xfe; 0x3f;
   0x64; 0x54; 0x3f; 0x7f; 0xd1; 0x81; 0xed; 0xef; 0x65; 0xc5; 0xcb; 0xfd; 0xe1; 0x80; 0xcd; 0x11],
  [0xe0; 0xdb; 0x22; 0x28; 0xe6; 0xff; 0x61; 0x9d; 0x41; 0x14; 0x2d; 0x3b; 0x26; 0x22; 0xdf; 0xf1;
   0x34; 0x81; 0xe9; 0x45; 0xee; 0x0f; 0x98; 0x8b; 0xa6; 0x3f; 0xef; 0xf7; 0x43; 0x19; 0xf1; 0x43]);
 ([0xee; 0xf3; 0x00; 0xa1; 0x50; 0xde; 0xc0; 0xb6; 0x01; 0xe3; 0x8c; 0x3c; 0x4d; 0x31; 0xd2; 0xb0;
   0x58; 0xcd; 0xed; 0x10; 0x4a; 0x7a; 0xef; 0x80; 0xa9; 0x19; 0x32; 0xf3; 0xd8; 0x33; 0x8c; 0x06],
  [0xcb; 0x7d; 0x4f; 0xff; 0x30; 0xd8; 0x12; 0x3b; 0x39; 0x1c; 0x06; 0xf9; 0x4c; 0x34; 0x35; 0x71;
   0xb5; 0x16; 0x94; 0x67; 0xdf; 0xee; 0x11; 0xde; 0xa4; 0x1d; 0x88; 0x93; 0x35; 0xa9; 0x32; 0x10]);
 ([0xe9; 0xc3; 0xbc; 0x7b; 0x5c; 0xfc; 0xb2; 0xf9; 0xc9; 0x2f; 0xe5; 0xba; 0x3a; 0x0b; 0xab; 0x64;
   0x38; 0x6f; 0x5b; 0x4b; 0x93; 0xda; 0x64; 0xec; 0x4d; 0x3d; 0xa0; 0xf5; 0xbb; 0xba; 0x47; 0x48],
  [0x60; 0xbc; 0x45; 0x1f; 0x23; 0xa2; 0x3b; 0x70; 0x76; 0xe6; 0x97; 0x99; 0x4f; 0x77; 0x54; 0x67;
   0x30; 0x9a; 0xe7; 0x66; 0xd6; 0xcd; 0x2e; 0x51; 0x24; 0x2c; 0x42; 0x4a; 0x11; 0xfe; 0x6f; 0x7e]);
 ([0x87; 0xc0; 0xb1; 0xf0; 0xa3; 0x6f; 0x0c; 0x93; 0xa9; 0x0a; 0x72; 0xef; 0x5c; 0xbe; 0x65; 0x35;
   0xa7; 0x6a; 0x4e; 0x2c; 0xbf; 0x21; 0x23; 0xe8; 0x2f; 0x97; 0xc7; 0x3e; 0xc8; 0x17; 0xac; 0x1e],
  [0x7b; 0xef; 0x21; 0xe5; 0x40; 0xcc; 0x1e; 0xdc; 0xd6; 0xbd; 0x97; 0x7a; 0x7c; 0x75; 0x86; 0x7a;
   0x25; 0x5a; 0x6e; 0x7c; 0xe5; 0x51; 0x3c; 0x1b; 0x5b; 0x82; 0x9a; 0x07; 0x60; 0xa1; 0x19; 0x04]);
 ([0; 0; 0; 0; 0; 0; 0; 0; 0; 0; 0; 0; 0; 0; 0; 0;
   0; 0; 0; 0; 0; 0; 0; 0; 0; 0; 0; 0; 0; 0; 0; 0],
  [1; 0; 0; 0; 0; 0; 0; 0; 0; 0; 0; 0; 0; 0; 0; 0;
   0; 0; 0; 0; 0; 0; 0; 0; 0; 0; 0; 0; 0; 0; 0; 0]);
 ([0x96; 0x88; 0xa6; 0xab; 0x8f; 0xe3; 0x3a; 0x49; 0xf8; 0xfe; 0x34; 0xe7; 0x6a; 0xb2; 0xfe; 0x40;
   0x26; 0x74; 0x57; 0x4c; 0xf6; 0xd4; 0x99; 0xce; 0x5d; 0x7b; 0x2f; 0x67; 0xd6; 0x5a; 0xe4; 0x4e],
  [0x5c; 0x82; 0xb3; 0xbd; 0x55; 0x25; 0xf6; 0x6a; 0x93; 0xa4; 0x02; 0xc6; 0x7d; 0x5c; 0xb1; 0x2b;
   0x5b; 0xff; 0xfb; 0x56; 0xf8; 0x01; 0x41; 0x90; 0xc6; 0xb6; 0xac; 0x4f; 0xfe; 0xa7; 0x41; 0x70]);
 ([0xdb; 0xfa; 0x9b; 0x2c; 0xd4; 0x23; 0x67; 0x2c; 0x8a; 0x63; 0x6c; 0x07; 0x26; 0x48; 0x4f; 0xc2;
   0x03; 0xd2; 0x53; 0x20; 0x28; 0xed; 0x65; 0x71; 0x47; 0xa9; 0x16; 0x16; 0x12; 0xbc; 0x28; 0x33],
  [0x39; 0xc0; 0xfa; 0xfa; 0xcd; 0x33; 0x43; 0xc7; 0x97; 0x76; 0x9b; 0x93; 0x91; 0x72; 0xeb; 0xc5;
   0x18; 0x67; 0x4c; 0x11; 0xf0; 0xf4; 0xe5; 0x73; 0xb2; 0x5c; 0x1b; 0xc2; 0x26; 0x3f; 0xbf; 0x2b]);
 ([0x86; 0xe6; 0x8c; 0x1d; 0xdf; 0xca; 0xfc; 0xd5; 0xf8; 0x3a; 0xc3; 0x44; 0x72; 0xe6; 0x78; 0x9d;
   0x2b; 0x97; 0xf8; 0x28; 0x45; 0xb4; 0x20; 0xc9; 0x2a; 0x8c; 0x67; 0xaa; 0x11; 0xc5; 0x5b; 0x2f],
  [0x17; 0x0f; 0x86; 0x52; 0xd7; 0x9d; 0xc3; 0x44; 0x51; 0x76; 0x32; 0x65; 0xb4; 0x37; 0x81; 0x99;
   0x46; 0x37; 0x62; 0xed; 0xcf; 0x64; 0x9d; 0x72; 0x40; 0x7a; 0x4c; 0x0b; 0x76; 0x2a; 0xfb; 0x56]);
 ([0x33; 0xa7; 0x90; 0x7c; 0xc3; 0x6f; 0x17; 0xa5; 0xa0; 0x67; 0x72; 0x17; 0xea; 0x7e; 0x63; 0x14;
   0x83; 0xde; 0xc1; 0x71; 0x2d; 0x41; 0x32; 0x7a; 0xf3; 0xd1; 0x2b; 0xd8; 0x2a; 0xa6; 0x46; 0x36],
  [0xac; 0xcc; 0x6b; 0x7c; 0xf9; 0xb8; 0x8b; 0x08; 0x5c; 0xd0; 0x7d; 0x8f; 0x73; 0xea; 0x20; 0xda;
   0x86; 0xca; 0x00; 0xc7; 0xad; 0x73; 0x4d; 0xe9; 0xe8; 0xa9; 0xda; 0x1f; 0x03; 0x06; 0xdd; 0x24]);
 ([0; 0; 0; 0; 0; 0; 0; 0; 0; 0; 0; 0; 0; 0; 0; 0;
   0; 0; 0; 0; 0; 0; 0; 0; 0; 0; 0; 0; 0; 0; 0; 0],
  [1; 0; 0; 0; 0; 0; 0; 0; 0; 0; 0; 0; 0; 0; 0; 0;
   0; 0; 0; 0; 0; 0; 0; 0; 0; 0; 0; 0; 0; 0; 0; 0]);
 ([0x9c; 0xb2; 0x61; 0x0a; 0x98; 0x2a; 0xa5; 0xd7; 0xee; 0xa9; 0xac; 0x65; 0xcb; 0x0a; 0x1e; 0xe2;
   0xbe; 0xdc; 0x85; 0x59; 0x0f; 0x9c; 0xa6; 0x57; 0x34; 0xa5; 0x87; 0xeb; 0x7b; 0x1e; 0x0c; 0x3c],
  [0x2f; 0xbd; 0x84; 0x63; 0x0d; 0xb5; 0xa0; 0xf0; 0x4b; 0x9e; 0x93; 0xc6; 0x34; 0x9a; 0x34; 0xff;
   0x73; 0x19; 0x2f; 0x6e; 0x54; 0x45; 0x2c; 0x92; 0x31; 0x76; 0x34; 0xf1; 0xb2; 0x26; 0xe8; 0x74]);
 ([0x0a; 0x67; 0x90; 0x6d; 0x0c; 0x4c; 0xcc; 0xc0; 0xe6; 0xbd; 0xa7; 0x5e; 0x55; 0x8c; 0xcd; 0x58;
   0x9b; 0x11; 0xa2; 0xbb; 0x4b; 0xb1; 0x43; 0x04; 0x3c; 0x55; 0xed; 0x23; 0xfe; 0xcd; 0xb1; 0x53],
  [0x05; 0xfb; 0x75; 0xf5; 0x01; 0xaf; 0x38; 0x72; 0x58; 0xfc; 0x04; 0x29; 0x34; 0x7a; 0x67; 0xa2;
   0x08; 0x50; 0x6e; 0xd0; 0x2b; 0x73; 0xd5; 0xb8; 0xe4; 0x30; 0x96; 0xad; 0x45; 0xdf; 0xa6; 0x5c]);
 ([0x0d; 0x88; 0x1a; 0x90; 0x7e; 0xdc; 0xd8; 0xfe; 0xc1; 0x2f; 0x5d; 0x67; 0xee; 0x67; 0x2f; 0xed;
   0x6f; 0x55; 0x43; 0x5f; 0x87; 0x14; 0x35; 0x42; 0xd3; 0x75; 0xae; 0xd5; 0xd3; 0x85; 0x1a; 0x76],
  [0x87; 0xc8; 0xa0; 0x6e; 0xe1; 0xb0; 0xad; 0x6a; 0x4a; 0x34; 0x71; 0xed; 0x7c; 0xd6; 0x44; 0x03;
   0x65; 0x4a; 0x5c; 0x5c; 0x04; 0xf5; 0x24; 0x3f; 0xb0; 0x16; 0x5e; 0x8c; 0xb2; 0xd2; 0xc5; 0x20]);
 ([0x98; 0x83; 0xc2; 0x37; 0xa0; 0x41; 0xa8; 0x48; 0x5c; 0x5f; 0xbf; 0xc8; 0xfa; 0x24; 0xe0; 0x59;
   0x2c; 0xbd; 0xf6; 0x81; 0x7e; 0x88; 0xe6; 0xca; 0x04; 0xd8; 0x5d; 0x60; 0xbb; 0x74; 0xa7; 0x0b],
  [0x21; 0x13; 0x91; 0xbf; 0x77; 0x7a; 0x33; 0xbc; 0xe9; 0x07; 0x39; 0x0a; 0xdd; 0x7d; 0x06; 0x10;
   0x9a; 0xee; 0x47; 0x73; 0x1b; 0x15; 0x5a; 0xfb; 0xcd; 0x4d; 0xd0; 0xd2; 0x3a; 0x01; 0xba; 0x54]);
 ([0; 0; 0; 0; 0; 0; 0; 0; 0; 0; 0; 0; 0; 0; 0; 0;
   0; 0; 0; 0; 0; 0; 0; 0; 0; 0; 0; 0; 0; 0; 0; 0],
  [1; 0; 0; 0; 0; 0; 0; 0; 0; 0; 0; 0; 0; 0; 0; 0;
   0; 0; 0; 0; 0; 0; 0; 0; 0; 0; 0; 0; 0; 0; 0; 0]);
 ([0x48; 0xd5; 0x39; 0x4a; 0x0b; 0x20; 0x6a; 0x43; 0xa0; 0x07; 0x82; 0x5e; 0x49; 0x7c; 0xc9; 0x47;
   0xf1; 0x7c; 0x37; 0xb9; 0x23; 0xef; 0x6b; 0x46; 0x45; 0x8c; 0x45; 0x76; 0xdf; 0x14; 0x6b; 0x6e],
  [0x42; 0xc9; 0xca; 0x29; 0x4c; 0x76; 0x37; 0xda; 0x8a; 0x2d; 0x7c; 0x3a; 0x58; 0xf2; 0x03; 0xb4;
   0xb5; 0xb9; 0x1a; 0x13; 0x2d; 0xde; 0x5f; 0x6b; 0x9d; 0xba; 0x52; 0xc9; 0x5d; 0xb3; 0xf3; 0x30]);
 ([0x4c; 0x6f; 0xfe; 0x6b; 0x0c; 0x62; 0xd7; 0x48; 0x71; 0xef; 0xb1; 0x85; 0x79; 0xc0; 0xed; 0x24;
   0xb1; 0x08; 0x93; 0x76; 0x8e; 0xf7; 0x38; 0x8e; 0xeb; 0xfe; 0x80; 0x40; 0xaf; 0x90; 0x64; 0x49],
  [0x4a; 0x88; 0xda; 0xc1; 0x98; 0x44; 0x3c; 0x53; 0x4e; 0xdb; 0x4b; 0xb9; 0x12; 0x5f; 0xcd; 0x08;
   0x04; 0xef; 0x75; 0xe7; 0xb1; 0x3a; 0xe5; 0x07; 0xfa; 0xca; 0x65; 0x7b; 0x72; 0x10; 0x64; 0x7f]);
 ([0x3d; 0x81; 0xf0; 0xeb; 0x16; 0xfd; 0x58; 0x33; 0x8d; 0x7c; 0x1a; 0xfb; 0x20; 0x2c; 0x8a; 0xee;
   0x90; 0xbb; 0x33; 0x6d; 0x45; 0xe9; 0x8e; 0x99; 0x85; 0xe1; 0x08; 0x1f; 0xc5; 0xf1; 0xb5; 0x46],
  [0xe4; 0xe7; 0x43; 0x4b; 0xa0; 0x3f; 0x2b; 0x06; 0xba; 0x17; 0xae; 0x3d; 0xe6; 0xce; 0xbd; 0xb8;
   0xed; 0x74; 0x11; 0x35; 0xec; 0x96; 0xfe; 0x31; 0xe3; 0x0e; 0x7a; 0x4e; 0xc9; 0x1d; 0xcb; 0x20]);
 ([0xe0; 0x67; 0xe9; 0x7b; 0xdb; 0x96; 0x5c; 0xb0; 0x32; 0xd0; 0x59; 0x31; 0x90; 0xdc; 0x92; 0x97;
   0xac; 0x09; 0x38; 0x31; 0x0f; 0x7e; 0xd6; 0x5d; 0xd0; 0x06; 0xb6; 0x1f; 0xea; 0xf0; 0x5b; 0x07],
  [0x81; 0x9f; 0xc7; 0xde; 0x6b; 0x41; 0x22; 0x35; 0x14; 0x67; 0x77; 0x3e; 0x90; 0x81; 0xb0; 0xd9;
   0x85; 0x4c; 0xca; 0x9b; 0x3f; 0x04; 0x59; 0xd6; 0xaa; 0x17; 0xc3; 0x88; 0x34; 0x37; 0xba; 0x43]);
 ([0; 0; 0; 0; 0; 0; 0; 0; 0; 0; 0; 0; 0; 0; 0; 0;
   0; 0; 0; 0; 0; 0; 0; 0; 0; 0; 0; 0; 0; 0; 0; 0],
  [1; 0; 0; 0; 0; 0; 0; 0; 0; 0; 0; 0; 0; 0; 0; 0;
   0; 0; 0; 0; 0; 0; 0; 0; 0; 0; 0; 0; 0; 0; 0; 0]);
 ([0x4c; 0xb6; 0x69; 0xc8; 0x81; 0x95; 0x94; 0x33; 0x92; 0x34; 0xe9; 0x3c; 0x84; 0x0d; 0x3d; 0x5a;
   0x37; 0x9c; 0x22; 0xa0; 0xaa; 0x65; 0xce; 0xb4; 0xc2; 0x2d; 0x66; 0x67; 0x02; 0xff; 0x74; 0x10],
  [0x22; 0xb0; 0xd5; 0xe6; 0xc7; 0xef; 0xb1; 0xa7; 0x13; 0xda; 0x60; 0xb4; 0x80; 0xc1; 0x42; 0x7d;
   0x10; 0x70; 0x97; 0x04; 0x4d; 0xda; 0x23; 0x89; 0xc2; 0x0e; 0x68; 0xcb; 0xde; 0xe0; 0x9b; 0x29]);
 ([0x33; 0xfe; 0x42; 0x2a; 0x36; 0x2b; 0x2e; 0x36; 0x64; 0x5c; 0x8b; 0xcc; 0x81; 0x6a; 0x15; 0x08;
   0xa1; 0x27; 0xe8; 0x57; 0xe5; 0x78; 0x8e; 0xf2; 0x58; 0x19; 0x12; 0x42; 0xae; 0xc4; 0x63; 0x3e],
  [0x78; 0x96; 0x9c; 0xa7; 0xca; 0x80; 0xae; 0x02; 0x85; 0xb1; 0x7c; 0x04; 0x5c; 0xc1; 0x5b; 0x26;
   0xc1; 0xba; 0xed; 0xa5; 0x59; 0x70; 0x85; 0x8c; 0x8c; 0xe8; 0x87; 0xac; 0x6a; 0x28; 0x99; 0x35]);
 ([0x9f; 0x04; 0x08; 0x28; 0xbe; 0x87; 0xda; 0x80; 0x28; 0x38; 0xde; 0x9f; 0xcd; 0xe4; 0xe3; 0x62;
   0xfb; 0x2e; 0x46; 0x8d; 0x01; 0xb3; 0x06; 0x51; 0xd4; 0x19; 0x3b; 0x11; 0xfa; 0xe2; 0xad; 0x1e],
  [0xa0; 0x20; 0x99; 0x69; 0x0a; 0xae; 0xa3; 0x70; 0x4e; 0x64; 0x80; 0xb7; 0x85; 0x9c; 0x87; 0x54;
   0x43; 0x43; 0x55; 0x80; 0x6d; 0x8d; 0x7c; 0xa9; 0x64; 0xca; 0x6c; 0x2e; 0x21; 0xd8; 0xc8; 0x6c]);
 ([0x91; 0x4a; 0x07; 0xad; 0x08; 0x75; 0xc1; 0x4f; 0xa4; 0xb2; 0xc3; 0x6f; 0x46; 0x3e; 0xb1; 0xce;
   0x52; 0xab; 0x67; 0x09; 0x54; 0x48; 0x6b; 0x6c; 0xd7; 0x1d; 0x71; 0x76; 0xcb; 0xff; 0xdd; 0x31],
  [0x36; 0x88; 0xfa; 0xfd; 0xf0; 0x36; 0x6f; 0x07; 0x74; 0x88; 0x50; 0xd0; 0x95; 0x38; 0x4a; 0x48;
   0x2e; 0x07; 0x64; 0x97; 0x11; 0x76; 0x01; 0x1a; 0x27; 0x4d; 0x8e; 0x25; 0x9a; 0x9b; 0x1c; 0x22]);
 ([0; 0; 0; 0; 0; 0; 0; 0; 0; 0; 0; 0; 0; 0; 0; 0;
   0; 0; 0; 0; 0; 0; 0; 0; 0; 0; 0; 0; 0; 0; 0; 0],
  [1; 0; 0; 0; 0; 0; 0; 0; 0; 0; 0; 0; 0; 0; 0; 0;
   0; 0; 0; 0; 0; 0; 0; 0; 0; 0; 0; 0; 0; 0; 0; 0]);
 ([0xbe; 0x57; 0xbd; 0x0e; 0x0f; 0xac; 0x5e; 0x76; 0xa3; 0x71; 0xad; 0x2b; 0x10; 0x45; 0x02; 0xec;
   0x59; 0xd5; 0x5d; 0xa9; 0x44; 0xcc; 0x25; 0x4c; 0xb3; 0x3c; 0x5b; 0x69; 0x07; 0x55; 0x26; 0x6b],
  [0x30; 0x6b; 0xd4; 0xa7; 0x51; 0x29; 0xe3; 0xf9; 0x7a; 0x75; 0x2a; 0x82; 0x2f; 0xd6; 0x1d; 0x99;
   0x2b; 0x80; 0xd5; 0x67; 0x1e; 0x15; 0x9d; 0xca; 0xfd; 0xeb; 0xac; 0x97; 0x35; 0x09; 0x7f; 0x3f]);
 ([0x35; 0x0d; 0x34; 0x0a; 0xb8; 0x67; 0x56; 0x29; 0x20; 0xf3; 0x19; 0x5f; 0xe2; 0x83; 0x42; 0x73;
   0x53; 0xa8; 0xc5; 0x02; 0x19; 0x33; 0xb4; 0x64; 0xbd; 0xc3; 0x87; 0x8c; 0xd7; 0x76; 0xed; 0x25],
  [0x47; 0x39; 0x37; 0x76; 0x0d; 0x1d; 0x0c; 0xf5; 0x5a; 0x6d; 0x43; 0x88; 0x99; 0x15; 0xb4; 0x52;
   0x0f; 0x2a; 0xb3; 0xb0; 0x3f; 0xa6; 0xb3; 0x26; 0xb3; 0xc7; 0x45; 0xf5; 0x92; 0x5f; 0x9b; 0x17]);
 ([0x9d; 0x23; 0xbd; 0x15; 0xfe; 0x52; 0x52; 0x15; 0x26; 0x79; 0x86; 0xba; 0x06; 0x56; 0x66; 0xbb;
   0x8c; 0x2e; 0x10; 0x11; 0xd5; 0x4a; 0x18; 0x52; 0xda; 0x84; 0x44; 0xf0; 0x3e; 0xe9; 0x8c; 0x35],
  [0xad; 0xa0; 0x41; 0xec; 0xc8; 0x4d; 0xb9; 0xd2; 0x6e; 0x96; 0x4e; 0x5b; 0xc5; 0xc2; 0xa0; 0x1b;
   0xcf; 0x0c; 0xbf; 0x17; 0x66; 0x57; 0xc1; 0x17; 0x90; 0x45; 0x71; 0xc2; 0xe1; 0x24; 0xeb; 0x27]);
 ([0x2c; 0xb9; 0x42; 0xa4; 0xaf; 0x3b; 0x42; 0x0e; 0xc2; 0x0f; 0xf2; 0xea; 0x83; 0xaf; 0x9a; 0x13;
   0x17; 0xb0; 0xbd; 0x89; 0x17; 0xe3; 0x72; 0xcb; 0x0e; 0x76; 0x7e; 0x41; 0x63; 0x04; 0x88; 0x71],
  [0x75; 0x78; 0x38; 0x86; 0x57; 0xdd; 0x9f; 0xee; 0x54; 0x70; 0x65; 0xbf; 0xf1; 0x2c; 0xe0; 0x39;
   0x0d; 0xe3; 0x89; 0xfd; 0x8e; 0x93; 0x4f; 0x43; 0xdc; 0xd5; 0x5b; 0xde; 0xf9; 0x98; 0xe5; 0x7b]);
 ([0; 0; 0; 0; 0; 0; 0; 0; 0; 0; 0; 0; 0; 0; 0; 0;
   0; 0; 0; 0; 0; 0; 0; 0; 0; 0; 0; 0; 0; 0; 0; 0],
  [1; 0; 0; 0; 0; 0; 0; 0; 0; 0; 0; 0; 0; 0; 0; 0;
   0; 0; 0; 0; 0; 0; 0; 0; 0; 0; 0; 0; 0; 0; 0; 0]);
 ([0xe7; 0x3b; 0x65; 0x11; 0xdf; 0xb2; 0xf2; 0x63; 0x94; 0x12; 0x6f; 0x5c; 0x9e; 0x77; 0xc1; 0xb6;
   0xd8; 0xab; 0x58; 0x7a; 0x1d; 0x95; 0x73; 0xdd; 0xe7; 0xe3; 0x6f; 0xf2; 0x03; 0x1d; 0xdb; 0x76],
  [0xae; 0x06; 0x4e; 0x2c; 0x52; 0x1b; 0xbc; 0x5a; 0x5a; 0xa5; 0xbe; 0x27; 0xbd; 0xeb; 0xe1; 0x14;
   0x17; 0x68; 0x26; 0x07; 0x03; 0xd1; 0x18; 0x0b; 0xdf; 0xf1; 0x06; 0x5c; 0xa6; 0x1b; 0xb9; 0x24]);
 ([0xc5; 0x66; 0x80; 0x13; 0x0e; 0x48; 0x8c; 0x87; 0x31; 0x84; 0xb4; 0x60; 0xed; 0xc5; 0xec; 0xb6;
   0xc5; 0x05; 0x33; 0x5f; 0x2f; 0x7d; 0x40; 0xb6; 0x32; 0x1d; 0x38; 0x74; 0x1b; 0xf1; 0x09; 0x3d],
  [0xd4; 0x69; 0x82; 0xbc; 0x8d; 0xf8; 0x34; 0x36; 0x75; 0x55; 0x18; 0x55; 0x58; 0x3c; 0x79; 0xaf;
   0x26; 0x80; 0xab; 0x9b; 0x95; 0x00; 0xf1; 0xcb; 0xda; 0xc1; 0x9f; 0xf6; 0x2f; 0xa2; 0xf4; 0x45]);
 ([0x17; 0xbe; 0xeb; 0x85; 0xed; 0x9e; 0xcd; 0x56; 0xf5; 0x17; 0x45; 0x42; 0xb4; 0x1f; 0x44; 0x4c;
   0x05; 0x74; 0x15; 0x47; 0x00; 0xc6; 0x6a; 0x3d; 0x24; 0x09; 0x0d; 0x58; 0xb1; 0x42; 0xd7; 0x04],
  [0x8d; 0xbd; 0xa3; 0xc4; 0x06; 0x9b; 0x1f; 0x90; 0x58; 0x60; 0x74; 0xb2; 0x00; 0x3b; 0x3c; 0xd2;
   0xda; 0x82; 0xbb; 0x10; 0x90; 0x69; 0x92; 0xa9; 0xb4; 0x30; 0x81; 0xe3; 0x7c; 0xa8; 0x89; 0x45]);
 ([0x3f; 0xdc; 0x05; 0xcb; 0x41; 0x3c; 0xc8; 0x23; 0x04; 0x2c; 0x38; 0x99; 0xe3; 0x68; 0x55; 0xf9;
   0xd3; 0x32; 0xc7; 0xbf; 0xfa; 0xd4; 0x1b; 0x5d; 0xde; 0xdc; 0x10; 0x42; 0xc0; 0x42; 0xd9; 0x75],
  [0x2d; 0xab; 0x35; 0x4e; 0x87; 0xc4; 0x65; 0x97; 0x67; 0x24; 0xa4; 0x47; 0xad; 0x3f; 0x8e; 0xf3;
   0xcb; 0x31; 0x17; 0x77; 0xc5; 0xe2; 0xd7; 0x8f; 0x3c; 0xc1; 0xcd; 0x56; 0x48; 0xc1; 0x6c; 0x69]);
 ([0; 0; 0; 0; 0; 0; 0; 0; 0; 0; 0; 0; 0; 0; 0; 0;
   0; 0; 0; 0; 0; 0; 0; 0; 0; 0; 0; 0; 0; 0; 0; 0],
  [1; 0; 0; 0; 0; 0; 0; 0; 0; 0; 0; 0; 0; 0; 0; 0;
   0; 0; 0; 0; 0; 0; 0; 0; 0; 0; 0; 0; 0; 0; 0; 0]);
 ([0x14; 0xae; 0x5f; 0x88; 0x7b; 0xa5; 0x90; 0xdf; 0x10; 0xb2; 0x8b; 0x5e; 0x24; 0x17; 0xc3; 0xa3;
   0xd4; 0x0f; 0x92; 0x61; 0x1a; 0x19; 0x5a; 0xad; 0x76; 0xbd; 0xd8; 0x1c; 0xdd; 0xe0; 0x12; 0x6d],
  [0x8e; 0xbd; 0x70; 0x8f; 0x02; 0xa3; 0x24; 0x4d; 0x5a; 0x67; 0xc4; 0xda; 0xf7; 0x20; 0x0f; 0x81;
   0x5b; 0x7a; 0x05; 0x24; 0x67; 0x83; 0x0b; 0x2a; 0x80; 0xe7; 0xfd; 0x74; 0x4b; 0x9e; 0x5c; 0x0d]);
 ([0x94; 0xd5; 0x5f; 0x1f; 0xa2; 0xfb; 0xeb; 0xe1; 0x07; 0x34; 0xf8; 0x20; 0xad; 0x81; 0x30; 0x06;
   0x2d; 0xa1; 0x81; 0x95; 0x36; 0xcf; 0x11; 0x0b; 0xaf; 0xc1; 0x2b; 0x9a; 0x6c; 0x55; 0xc1; 0x16],
  [0x36; 0x4f; 0xf1; 0x5e; 0x74; 0x35; 0x13; 0x28; 0xd7; 0x11; 0xcf; 0xb8; 0xde; 0x93; 0xb3; 0x05;
   0xb8; 0xb5; 0x73; 0xe9; 0xeb; 0xad; 0x19; 0x1e; 0x89; 0x0f; 0x8b; 0x15; 0xd5; 0x8c; 0xe3; 0x23]);
 ([0x33; 0x79; 0xe7; 0x18; 0xe6; 0x0f; 0x57; 0x93; 0x15; 0xa0; 0xa7; 0xaa; 0xc4; 0xbf; 0x4f; 0x30;
   0x74; 0x95; 0x5e; 0x69; 0x4a; 0x5b; 0x45; 0xe4; 0x00; 0xeb; 0x23; 0x74; 0x4c; 0xdf; 0x6b; 0x45],
  [0x97; 0x29; 0x6c; 0xc4; 0x42; 0x0b; 0xdd; 0xc0; 0x29; 0x5c; 0x9b; 0x34; 0x97; 0xd0; 0xc7; 0x79;
   0x80; 0x63; 0x74; 0xe4; 0x8e; 0x37; 0xb0; 0x2b; 0x7c; 0xe8; 0x68; 0x6c; 0xc3; 0x82; 0x97; 0x57]);
 ([0x22; 0xbe; 0x83; 0xb6; 0x4b; 0x80; 0x6b; 0x43; 0x24; 0x5e; 0xef; 0x99; 0x9b; 0xa8; 0xfc; 0x25;
   0x8d; 0x3b; 0x03; 0x94; 0x2b; 0x3e; 0xe7; 0x95; 0x76; 0x9b; 0xcc; 0x15; 0xdb; 0x32; 0xe6; 0x66],
  [0x84; 0xf0; 0x4a; 0x13; 0xa6; 0xd6; 0xfa; 0x93; 0x46; 0x07; 0xf6; 0x7e; 0x5c; 0x6d; 0x5e; 0xf6;
   0xa6; 0xe7; 0x48; 0xf0; 0x06; 0xea; 0xff; 0x90; 0xc1; 0xcc; 0x4c; 0x19; 0x9c; 0x3c; 0x4e; 0x53]);
 ([0; 0; 0; 0; 0; 0; 0; 0; 0; 0; 0; 0; 0; 0; 0; 0;
   0; 0; 0; 0; 0; 0; 0; 0; 0; 0; 0; 0; 0; 0; 0; 0],
  [1; 0; 0; 0; 0; 0; 0; 0; 0; 0; 0; 0; 0; 0; 0; 0;
   0; 0; 0; 0; 0; 0; 0; 0; 0; 0; 0; 0; 0; 0; 0; 0]);
 ([0x2a; 0x50; 0xe3; 0x07; 0x15; 0x59; 0xf2; 0x8b; 0x81; 0xf2; 0xf3; 0xd3; 0x6c; 0x99; 0x8c; 0x70;
   0x67; 0xec; 0xcc; 0xee; 0x9e; 0x59; 0x45; 0x59; 0x7d; 0x47; 0x75; 0x69; 0xf5; 0x24; 0x93; 0x5d],
  [0x6a; 0x4f; 0x1b; 0xbe; 0x6b; 0x30; 0xcf; 0x75; 0x46; 0xe3; 0x7b; 0x9d; 0xfc; 0xcd; 0xd8; 0x5c;
   0x1f; 0xb4; 0xc8; 0xe2; 0x24; 0xec; 0x1a; 0x28; 0x05; 0x32; 0x57; 0xfd; 0x3c; 0x5a; 0x98; 0x10]);
 ([0xa3; 0xdb; 0xf7; 0x30; 0xd8; 0xc2; 0x9a; 0xe1; 0xd3; 0xce; 0x22; 0xe5; 0x80; 0x1e; 0xd9; 0xe4;
   0x1f; 0xab; 0xc0; 0x71; 0x1a; 0x86; 0x0e; 0x27; 0x99; 0x5b; 0xfa; 0x76; 0x99; 0xb0; 0x08; 0x3c],
  [0x2a; 0x93; 0xd2; 0x85; 0x1b; 0x6a; 0x5d; 0xa6; 0xee; 0xd1; 0xd1; 0x33; 0xbd; 0x6a; 0x36; 0x73;
   0x37; 0x3a; 0x44; 0xb4; 0xec; 0xa9; 0x7a; 0xde; 0x83; 0x40; 0xd7; 0xdf; 0x28; 0xba; 0xa2; 0x30]);
 ([0xd3; 0xb5; 0x6d; 0x05; 0x3f; 0x9f; 0xf3; 0x15; 0x8d; 0x7c; 0xca; 0xc9; 0xfc; 0x8a; 0x7c; 0x94;
   0xb0; 0x63; 0x36; 0x9b; 0x78; 0xd1; 0x91; 0x1f; 0x93; 0xd8; 0x57; 0x43; 0xde; 0x76; 0xa3; 0x43],
  [0x9b; 0x35; 0xe2; 0xa9; 0x3d; 0x32; 0x1e; 0xbb; 0x16; 0x28; 0x70; 0xe9; 0x45; 0x2f; 0x8f; 0x70;
   0x7f; 0x08; 0x7e; 0x53; 0xc4; 0x7a; 0xbf; 0xf7; 0xe1; 0xa4; 0x6a; 0xd8; 0xac; 0x64; 0x1b; 0x11]);
 ([0xb2; 0xeb; 0x47; 0x46; 0x18; 0x3e; 0x1f; 0x99; 0x0c; 0xcc; 0xf1; 0x2c; 0xe0; 0xe7; 0x8f; 0xe0;
   0x01; 0x7e; 0x65; 0xb8; 0x0c; 0xd0; 0xfb; 0xc8; 0xb9; 0x90; 0x98; 0x33; 0x61; 0x3b; 0xd8; 0x27],
  [0xa0; 0xbe; 0x72; 0x3a; 0x50; 0x4b; 0x74; 0xab; 0x01; 0xc8; 0x93; 0xc5; 0xe4; 0xc7; 0x08; 0x6c;
   0xb4; 0xca; 0xee; 0xeb; 0x8e; 0xd7; 0x4e; 0x26; 0xc6; 0x1d; 0xe2; 0x71; 0xaf; 0x89; 0xa0; 0x2a]);
 ([0; 0; 0; 0; 0; 0; 0; 0; 0; 0; 0; 0; 0; 0; 0; 0;
   0; 0; 0; 0; 0; 0; 0; 0; 0; 0; 0; 0; 0; 0; 0; 0],
  [1; 0; 0; 0; 0; 0; 0; 0; 0; 0; 0; 0; 0; 0; 0; 0;
   0; 0; 0; 0; 0; 0; 0; 0; 0; 0; 0; 0; 0; 0; 0; 0]);
 ([0x98; 0x0b; 0xe4; 0xde; 0xdb; 0xa8; 0xfa; 0x82; 0x74; 0x06; 0x52; 0x6d; 0x08; 0x52; 0x8a; 0xff;
   0x62; 0xc5; 0x6a; 0x44; 0x0f; 0x51; 0x8c; 0x1f; 0x6e; 0xb6; 0xc6; 0x2c; 0x81; 0xd3; 0x76; 0x46],
  [0xf4; 0x29; 0x74; 0x2e; 0x80; 0xa7; 0x1a; 0x8f; 0xf6; 0xbd; 0xd6; 0x8e; 0xbf; 0xc1; 0x95; 0x2a;
   0xeb; 0xa0; 0x7f; 0x45; 0xa0; 0x50; 0x14; 0x05; 0xb1; 0x57; 0x4c; 0x74; 0xb7; 0xe2; 0x89; 0x7d]);
 ([0x07; 0xee; 0xa7; 0xad; 0xb7; 0x09; 0x0b; 0x49; 0x4e; 0xbf; 0xca; 0xe5; 0x21; 0xe6; 0xe6; 0xaf;
   0xd5; 0x67; 0xf3; 0xce; 0x7e; 0x7c; 0x93; 0x7b; 0x5a; 0x10; 0x12; 0x0e; 0x6c; 0x06; 0x11; 0x75],
  [0xd5; 0xfc; 0x86; 0xa3; 0x3b; 0xa3; 0x3e; 0x0a; 0xfb; 0x0b; 0xf7; 0x36; 0xb1; 0x5b; 0xda; 0x70;
   0xb7; 0x00; 0xa7; 0xda; 0x88; 0x8f; 0x84; 0xa8; 0xbc; 0x1c; 0x39; 0xb8; 0x65; 0xf3; 0x4d; 0x60]);
 ([0x96; 0x9d; 0x31; 0xf4; 0xa2; 0xbe; 0x81; 0xb9; 0xa5; 0x59; 0x9e; 0xba; 0x07; 0xbe; 0x74; 0x58;
   0xd8; 0xeb; 0xc5; 0x9f; 0x3d; 0xd1; 0xf4; 0xae; 0xce; 0x53; 0xdf; 0x4f; 0xc7; 0x2a; 0x89; 0x4d],
  [0x29; 0xd8; 0xf2; 0xaa; 0xe9; 0x0e; 0xf7; 0x2e; 0x5f; 0x9d; 0x8a; 0x5b; 0x09; 0xed; 0xc9; 0x24;
   0x22; 0xf4; 0x0f; 0x25; 0x8f; 0x1c; 0x84; 0x6e; 0x34; 0x14; 0x6c; 0xea; 0xb3; 0x86; 0x5d; 0x04]);
 ([0x07; 0x98; 0x61; 0xe8; 0x6a; 0xd2; 0x81; 0x49; 0x25; 0xd5; 0x5b; 0x18; 0xc7; 0x35; 0x52; 0x51;
   0xa4; 0x46; 0xad; 0x18; 0x0d; 0xc9; 0x5f; 0x18; 0x91; 0x3b; 0xb4; 0xc0; 0x60; 0x59; 0x8d; 0x66],
  [0x03; 0x1b; 0x79; 0x53; 0x6e; 0x24; 0xae; 0x57; 0xd9; 0x58; 0x09; 0x85; 0x48; 0xa2; 0xd3; 0xb5;
   0xe2; 0x4d; 0x11; 0x82; 0xe6; 0x86; 0x3c; 0xe9; 0xb1; 0x00; 0x19; 0xc2; 0x57; 0xf7; 0x66; 0x7a]);
 ([0; 0; 0; 0; 0; 0; 0; 0; 0; 0; 0; 0; 0; 0; 0; 0;
   0; 0; 0; 0; 0; 0; 0; 0; 0; 0; 0; 0; 0; 0; 0; 0],
  [1; 0; 0; 0; 0; 0; 0; 0; 0; 0; 0; 0; 0; 0; 0; 0;
   0; 0; 0; 0; 0; 0; 0; 0; 0; 0; 0; 0; 0; 0; 0; 0]);
 ([0x0f; 0xe3; 0x89; 0x03; 0xd7; 0x22; 0x95; 0x9f; 0xca; 0xb4; 0x8d; 0x9e; 0x6d; 0x97; 0xff; 0x8d;
   0x21; 0x59; 0x07; 0xef; 0x03; 0x2d; 0x5e; 0xf8; 0x44; 0x46; 0xe7; 0x85; 0x80; 0xc5; 0x89; 0x50],
  [0x8b; 0xd8; 0x53; 0x86; 0x24; 0x86; 0x29; 0x52; 0x01; 0xfa; 0x20; 0xc3; 0x4e; 0x95; 0xcb; 0xad;
   0x7b; 0x34; 0x94; 0x30; 0xb7; 0x7a; 0xfa; 0x96; 0x41; 0x60; 0x2b; 0xcb; 0x59; 0xb9; 0xca; 0x50]);
 ([0xc2; 0x5b; 0x9b; 0x78; 0x23; 0x1b; 0x3a; 0x88; 0x94; 0x5f; 0x0a; 0x9b; 0x98; 0x2b; 0x6e; 0x53;
   0x11; 0xf6; 0xff; 0xc6; 0x7d; 0x42; 0xcc; 0x02; 0x80; 0x40; 0x0d; 0x1e; 0xfb; 0xaf; 0x61; 0x07],
  [0xb0; 0xe6; 0x2f; 0x81; 0x70; 0xa1; 0x2e; 0x39; 0x04; 0x7c; 0xc4; 0x2c; 0x87; 0x45; 0x4a; 0x5b;
   0x69; 0x97; 0xac; 0x6d; 0x2c; 0x10; 0x42; 0x7c; 0x3b; 0x15; 0x70; 0x60; 0x0e; 0x11; 0x6d; 0x3a]);
 ([0x9b; 0x18; 0x80; 0x5e; 0xdb; 0x05; 0xbd; 0xc6; 0xb7; 0x3c; 0xc2; 0x40; 0x4d; 0x5d; 0xce; 0x97;
   0x8a; 0x34; 0x15; 0xab; 0x28; 0x5d; 0x10; 0xf0; 0x37; 0x0c; 0xcc; 0x16; 0xfa; 0x1f; 0x33; 0x0d],
  [0x19; 0xf9; 0x35; 0xaa; 0x59; 0x1a; 0x0c; 0x5c; 0x06; 0xfc; 0x6a; 0x0b; 0x97; 0x53; 0x36; 0xfc;
   0x2a; 0xa5; 0x5a; 0x9b; 0x30; 0xef; 0x23; 0xaf; 0x39; 0x5d; 0x9a; 0x6b; 0x75; 0x57; 0x48; 0x0b]);
 ([0x26; 0xdc; 0x76; 0x3b; 0xfc; 0xf9; 0x9c; 0x3f; 0x89; 0x0b; 0x62; 0x53; 0xaf; 0x83; 0x01; 0x2e;
   0xbc; 0x6a; 0xc6; 0x03; 0x0d; 0x75; 0x2a; 0x0d; 0xe6; 0x94; 0x54; 0xcf; 0xb3; 0xe5; 0x96; 0x25],
  [0xfe; 0x82; 0xb1; 0x74; 0x31; 0x8a; 0xa7; 0x6f; 0x56; 0xbd; 0x8d; 0xf4; 0xe0; 0x94; 0x51; 0x59;
   0xde; 0x2c; 0x5a; 0xf4; 0x84; 0x6b; 0x4a; 0x88; 0x93; 0xc0; 0x0c; 0x9a; 0xac; 0xa7; 0xa0; 0x68]);
 ([0; 0; 0; 0; 0; 0; 0; 0; 0; 0; 0; 0; 0; 0; 0; 0;
   0; 0; 0; 0; 0; 0; 0; 0; 0; 0; 0; 0; 0; 0; 0; 0],
  [1; 0; 0; 0; 0; 0; 0; 0; 0; 0; 0; 0; 0; 0; 0; 0;
   0; 0; 0; 0; 0; 0; 0; 0; 0; 0; 0; 0; 0; 0; 0; 0]);
 ([0x25; 0x0d; 0xd6; 0xc7; 0x23; 0x47; 0x10; 0xad; 0xc7; 0x08; 0x5c; 0x87; 0x87; 0x93; 0x98; 0x18;
   0xb8; 0xd3; 0x9c; 0xac; 0x5a; 0x3d; 0xc5; 0x75; 0xf8; 0x49; 0x32; 0x14; 0xcc; 0x51; 0x96; 0x24],
  [0x65; 0x9c; 0x5d; 0xf0; 0x37; 0x04; 0xf0; 0x34; 0x69; 0x2a; 0xf0; 0xa5; 0x64; 0xca; 0xde; 0x2b;
   0x5b; 0x15; 0x10; 0xd2; 0xab; 0x06; 0xdd; 0xc4; 0xb0; 0xb6; 0x5b; 0xc1; 0x17; 0xdf; 0x8f; 0x02]);
 ([0xbd; 0x59; 0x3d; 0xbf; 0x5c; 0x31; 0x44; 0x2c; 0x32; 0x94; 0x04; 0x60; 0x84; 0x0f; 0xad; 0x00;
   0xb6; 0x8f; 0xc9; 0x1d; 0xcc; 0x5c; 0xa2; 0x49; 0x0e; 0x50; 0x91; 0x08; 0x9a; 0x43; 0x55; 0x05],
  [0x5d; 0x93; 0x55; 0xdf; 0x9b; 0x12; 0x19; 0xec; 0x93; 0x85; 0x42; 0x9e; 0x66; 0x0f; 0x9d; 0xaf;
   0x99; 0xaf; 0x26; 0x89; 0xbc; 0x61; 0xfd; 0xff; 0xce; 0x4b; 0xf4; 0x33; 0x95; 0xc9; 0x35; 0x58]);
 ([0x12; 0x55; 0xf9; 0xda; 0xcb; 0x44; 0xa7; 0xdc; 0x57; 0xe2; 0xf9; 0x9a; 0xe6; 0x07; 0x23; 0x60;
   0x54; 0xa7; 0x39; 0xa5; 0x9b; 0x84; 0x56; 0x6e; 0xaa; 0x8b; 0x8f; 0xb0; 0x2c; 0x87; 0xaf; 0x67],
  [0x00; 0xa9; 0x4c; 0xb2; 0x12; 0xf8; 0x32; 0xa8; 0x7a; 0x00; 0x4b; 0x49; 0x32; 0xba; 0x1f; 0x5d;
   0x44; 0x8e; 0x44; 0x7a; 0xdc; 0x11; 0xfb; 0x39; 0x08; 0x57; 0x87; 0xa5; 0x12; 0x42; 0x93; 0x0e]);
 ([0x17; 0xb4; 0xae; 0x72; 0x59; 0xd0; 0xaa; 0xa8; 0x16; 0x8b; 0x63; 0x11; 0xb3; 0x43; 0x04; 0xda;
   0x0c; 0xa8; 0xb7; 0x68; 0xdd; 0x4e; 0x54; 0xe7; 0xaf; 0x5d; 0x5d; 0x05; 0x76; 0x36; 0xec; 0x0d],
  [0x6d; 0x7c; 0x82; 0x32; 0x38; 0x55; 0x57; 0x74; 0x5b; 0x7d; 0xc3; 0xc4; 0xfb; 0x06; 0x29; 0xf0;
   0x13; 0x55; 0x54; 0xc6; 0xa7; 0xdc; 0x4c; 0x9f; 0x98; 0x49; 0x20; 0xa8; 0xc3; 0x8d; 0xfa; 0x48]);
 ([0; 0; 0; 0; 0; 0; 0; 0; 0; 0; 0; 0; 0; 0; 0; 0;
   0; 0; 0; 0; 0; 0; 0; 0; 0; 0; 0; 0; 0; 0; 0; 0],
  [1; 0; 0; 0; 0; 0; 0; 0; 0; 0; 0; 0; 0; 0; 0; 0;
   0; 0; 0; 0; 0; 0; 0; 0; 0; 0; 0; 0; 0; 0; 0; 0]);
 ([0x87; 0x47; 0x9d; 0xe9; 0x25; 0xd5; 0xe3; 0x47; 0x78; 0xdf; 0x85; 0xa7; 0x85; 0x5e; 0x7a; 0x4c;
   0x5f; 0x79; 0x1a; 0xf3; 0xa2; 0xb2; 0x28; 0xa0; 0x9c; 0xdd; 0x30; 0x40; 0xd4; 0x38; 0xbd; 0x28],
  [0xfc; 0xbb; 0xd5; 0x78; 0x6d; 0x1d; 0xd4; 0x99; 0xb4; 0xaa; 0x44; 0x44; 0x7a; 0x1b; 0xd8; 0xfe;
   0xb4; 0x99; 0xb9; 0xcc; 0xe7; 0xc4; 0xd3; 0x3a; 0x73; 0x83; 0x41; 0x5c; 0x40; 0xd7; 0x2d; 0x55]);
 ([0x26; 0xe1; 0x7b; 0x5f; 0xe5; 0xdc; 0x3f; 0x7d; 0xa1; 0xa7; 0x26; 0x44; 0x22; 0x23; 0xc0; 0x8f;
   0x7d; 0xf1; 0xb5; 0x11; 0x47; 0x7b; 0x19; 0xd4; 0x75; 0x6f; 0x1e; 0xa5; 0x27; 0xfe; 0xc8; 0x0e],
  [0xd3; 0x11; 0x3d; 0xab; 0xef; 0x2c; 0xed; 0xb1; 0x3d; 0x7c; 0x32; 0x81; 0x6b; 0xfe; 0xf8; 0x1c;
   0x3c; 0x7b; 0xc0; 0x61; 0xdf; 0xb8; 0x75; 0x76; 0x7f; 0xaa; 0xd8; 0x93; 0xaf; 0x3d; 0xe8; 0x3d]);
 ([0xfd; 0x5b; 0x4e; 0x8d; 0xb6; 0x7e; 0x82; 0x9b; 0xef; 0xce; 0x04; 0x69; 0x51; 0x52; 0xff; 0xef;
   0xa0; 0x52; 0xb5; 0x79; 0x17; 0x5e; 0x2f; 0xde; 0xd6; 0x3c; 0x2d; 0xa0; 0x43; 0xb4; 0x0b; 0x19],
  [0xc0; 0x61; 0x48; 0x48; 0x17; 0xf4; 0x9e; 0x18; 0x51; 0x2d; 0xea; 0x2f; 0xf2; 0xf2; 0xe0; 0xa3;
   0x14; 0xb7; 0x8b; 0x3a; 0x30; 0xf5; 0x81; 0xc1; 0x5d; 0x71; 0x39; 0x62; 0x55; 0x1f; 0x60; 0x5a]);
 ([0xe5; 0x89; 0x8a; 0x76; 0x6c; 0xdb; 0x4d; 0x0a; 0x5b; 0x72; 0x9d; 0x59; 0x6e; 0x63; 0x63; 0x18;
   0x7c; 0xe3; 0xfa; 0xe2; 0xdb; 0xa1; 0x8d; 0xf4; 0xa5; 0xd7; 0x16; 0xb2; 0xd0; 0xb3; 0x3f; 0x39],
  [0xce; 0x60; 0x09; 0x6c; 0xf5; 0x76; 0x17; 0x24; 0x80; 0x3a; 0x96; 0xc7; 0x94; 0x2e; 0xf7; 0x6b;
   0xef; 0xb5; 0x05; 0x96; 0xef; 0xd3; 0x7b; 0x51; 0xda; 0x05; 0x44; 0x67; 0xbc; 0x07; 0x21; 0x4e]);
 ([0; 0; 0; 0; 0; 0; 0; 0; 0; 0; 0; 0; 0; 0; 0; 0;
   0; 0; 0; 0; 0; 0; 0; 0; 0; 0; 0; 0; 0; 0; 0; 0],
  [1; 0; 0; 0; 0; 0; 0; 0; 0; 0; 0; 0; 0; 0; 0; 0;
   0; 0; 0; 0; 0; 0; 0; 0; 0; 0; 0; 0; 0; 0; 0; 0]);
 ([0xe9; 0x73; 0x6f; 0x21; 0xb9; 0xde; 0x22; 0x7d; 0xeb; 0x97; 0x31; 0x10; 0xa3; 0xea; 0xe1; 0xc6;
   0x37; 0xeb; 0x8f; 0x43; 0x58; 0xde; 0x41; 0x64; 0x0e; 0x3e; 0x07; 0x99; 0x3d; 0xf1; 0xdf; 0x1e],
  [0xf8; 0xad; 0x43; 0xc2; 0x17; 0x06; 0xe2; 0xe4; 0xa9; 0x86; 0xcd; 0x18; 0xd7; 0x78; 0xc8; 0x74;
   0x66; 0xd2; 0x09; 0x18; 0xa5; 0xf1; 0xca; 0xa6; 0x62; 0x92; 0xc1; 0xcb; 0x00; 0xeb; 0x42; 0x2e]);
 ([0x7b; 0x34; 0x24; 0x4c; 0xcf; 0x38; 0xe5; 0x6c; 0x0a; 0x01; 0x2c; 0x22; 0x0b; 0x24; 0x38; 0xad;
   0x24; 0x7e; 0x19; 0xf0; 0x6c; 0xf9; 0x31; 0xf4; 0x35; 0x11; 0xf6; 0x46; 0x33; 0x3a; 0x23; 0x59],
  [0x20; 0x0b; 0xa1; 0x08; 0x19; 0xad; 0x39; 0x54; 0xea; 0x3e; 0x23; 0x09; 0xb6; 0xe2; 0xd2; 0xbc;
   0x4d; 0xfc; 0x9c; 0xf0; 0x13; 0x16; 0x22; 0x3f; 0xb9; 0xd2; 0x11; 0x86; 0x90; 0x55; 0xce; 0x3c]);
 ([0xc4; 0x0b; 0x4b; 0x62; 0x99; 0x37; 0x84; 0x3f; 0x74; 0xa2; 0xf9; 0xce; 0xe2; 0x0b; 0x0f; 0x2a;
   0x3d; 0xa3; 0xe3; 0xdb; 0x5a; 0x9d; 0x93; 0xcc; 0xa5; 0xef; 0x82; 0x91; 0x1d; 0xe6; 0x6c; 0x68],
  [0xa3; 0x64; 0x17; 0x9b; 0x8b; 0xc8; 0x3a; 0x61; 0xe6; 0x9d; 0xc6; 0xed; 0x7b; 0x03; 0x52; 0x26;
   0x9d; 0x3a; 0xb3; 0x13; 0xcc; 0x8a; 0xfd; 0x2c; 0x1a; 0x1d; 0xed; 0x13; 0xd0; 0x55; 0x57; 0x0e]);
 ([0x1a; 0xea; 0xbf; 0xfd; 0x4a; 0x3c; 0x8e; 0xec; 0x29; 0x7e; 0x77; 0x77; 0x12; 0x99; 0xd7; 0x84;
   0xf9; 0x55; 0x7f; 0xf1; 0x8b; 0xb4; 0xd2; 0x95; 0xa3; 0x8d; 0xf0; 0x8a; 0xa7; 0xeb; 0x82; 0x4b],
  [0x2c; 0x28; 0xf4; 0x3a; 0xf6; 0xde; 0x0a; 0xe0; 0x41; 0x44; 0x23; 0xf8; 0x3f; 0x03; 0x64; 0x9f;
   0xc3; 0x55; 0x4c; 0xc6; 0xc1; 0x94; 0x1c; 0x24; 0x5d; 0x5f; 0x92; 0x45; 0x96; 0x57; 0x37; 0x14]);
 ([0; 0; 0; 0; 0; 0; 0; 0; 0; 0; 0; 0; 0; 0; 0; 0;
   0; 0; 0; 0; 0; 0; 0; 0; 0; 0; 0; 0; 0; 0; 0; 0],
  [1; 0; 0; 0; 0; 0; 0; 0; 0; 0; 0; 0; 0; 0; 0; 0;
   0; 0; 0; 0; 0; 0; 0; 0; 0; 0; 0; 0; 0; 0; 0; 0]);
 ([0xc1; 0xcd; 0x90; 0x66; 0xb9; 0x76; 0xa0; 0x5b; 0xa5; 0x85; 0x75; 0x23; 0xf9; 0x89; 0xa5; 0x82;
   0xb2; 0x6f; 0xb1; 0xeb; 0xc4; 0x69; 0x6f; 0x18; 0x5a; 0xed; 0x94; 0x3d; 0x9d; 0xd9; 0x2c; 0x1a],
  [0x35; 0xb0; 0xe6; 0x73; 0x06; 0xb7; 0x37; 0xe0; 0xf8; 0xb0; 0x22; 0xe8; 0xd2; 0xed; 0x0b; 0xef;
   0xe6; 0xc6; 0x5a; 0x99; 0x9e; 0x1a; 0x9f; 0x04; 0x97; 0xe4; 0x4d; 0x0b; 0xbe; 0xba; 0x44; 0x40]);
 ([0xc1; 0x56; 0x96; 0x91; 0x5f; 0x1f; 0xbb; 0x54; 0x6f; 0x88; 0x89; 0x0a; 0xb2; 0xd6; 0x41; 0x42;
   0x6a; 0x82; 0xee; 0x14; 0xaa; 0x76; 0x30; 0x65; 0x0f; 0x67; 0x39; 0xa6; 0x51; 0x7c; 0x49; 0x24],
  [0x35; 0xa3; 0x78; 0xd1; 0x11; 0x0f; 0x75; 0xd3; 0x70; 0x46; 0xdb; 0x20; 0x51; 0xcb; 0x92; 0x80;
   0x54; 0x10; 0x74; 0x36; 0x86; 0xa9; 0xd7; 0xa3; 0x08; 0x78; 0xf1; 0x01; 0x29; 0xf8; 0x80; 0x3b]);
 ([0xdb; 0xa7; 0x9d; 0x9d; 0xbf; 0xa0; 0xcc; 0xed; 0x53; 0xa2; 0xa2; 0x19; 0x39; 0x48; 0x83; 0x19;
   0x37; 0x58; 0xd1; 0x04; 0x28; 0x40; 0xf7; 0x8a; 0xc2; 0x08; 0xb7; 0xa5; 0x42; 0xcf; 0x53; 0x4c],
  [0xa7; 0xbb; 0xf6; 0x8e; 0xad; 0xdd; 0xf7; 0x90; 0xdd; 0x5f; 0x93; 0x89; 0xae; 0x04; 0x37; 0xe6;
   0x9a; 0xb7; 0xe8; 0xc0; 0xdf; 0x16; 0x2a; 0xbf; 0xc4; 0x3a; 0x3c; 0x41; 0xd5; 0x89; 0x72; 0x5a]);
 ([0x1f; 0x96; 0xff; 0x34; 0x2c; 0x13; 0x21; 0xcb; 0x0a; 0x89; 0x85; 0xbe; 0xb3; 0x70; 0x9e; 0x1e;
   0xde; 0x97; 0xaf; 0x96; 0x30; 0xf7; 0x48; 0x89; 0x40; 0x8d; 0x07; 0xf1; 0x25; 0xf0; 0x30; 0x58],
  [0x1e; 0xd4; 0x93; 0x57; 0xe2; 0x17; 0xe7; 0x9d; 0xab; 0x3c; 0x55; 0x03; 0x82; 0x2f; 0x2b; 0xdb;
   0x56; 0x1e; 0x30; 0x2e; 0x24; 0x47; 0x6e; 0xe6; 0xff; 0x33; 0x24; 0x2c; 0x75; 0x51; 0xd4; 0x67]);
 ([0; 0; 0; 0; 0; 0; 0; 0; 0; 0; 0; 0; 0; 0; 0; 0;
   0; 0; 0; 0; 0; 0; 0; 0; 0; 0; 0; 0; 0; 0; 0; 0],
  [1; 0; 0; 0; 0; 0; 0; 0; 0; 0; 0; 0; 0; 0; 0; 0;
   0; 0; 0; 0; 0; 0; 0; 0; 0; 0; 0; 0; 0; 0; 0; 0]);
 ([0x2b; 0x06; 0xd9; 0xa1; 0x5d; 0xe1; 0xf4; 0xd1; 0x1e; 0x3c; 0x9a; 0xc6; 0x29; 0x2b; 0x13; 0x13;
   0x78; 0xc0; 0xd8; 0x16; 0x17; 0x2d; 0x9e; 0xa9; 0xc9; 0x79; 0x57; 0xab; 0x24; 0x91; 0x92; 0x19],
  [0x69; 0xfb; 0xa1; 0x9c; 0xa6; 0x75; 0x49; 0x7d; 0x60; 0x73; 0x40; 0x42; 0xc4; 0x13; 0x0a; 0x95;
   0x79; 0x1e; 0x04; 0x83; 0x94; 0x99; 0x9b; 0x1e; 0x0c; 0xe8; 0x1f; 0x54; 0xef; 0xcb; 0xc0; 0x52]);
 ([0x14; 0x89; 0x73; 0xa1; 0x37; 0x87; 0x6a; 0x7a; 0xcf; 0x1d; 0xd9; 0x2e; 0x1a; 0x67; 0xed; 0x74;
   0xc0; 0xf0; 0x9c; 0x33; 0xdd; 0xdf; 0x08; 0xbf; 0x7b; 0xd1; 0x66; 0xda; 0xe6; 0xc9; 0x49; 0x08],
  [0xe9; 0xdd; 0x5e; 0x55; 0xb0; 0x0a; 0xde; 0x21; 0x4c; 0x5a; 0x2e; 0xd4; 0x80; 0x3a; 0x57; 0x92;
   0x7a; 0xf1; 0xc4; 0x2c; 0x40; 0xaf; 0x2f; 0xc9; 0x92; 0x03; 0xe5; 0x5a; 0xbc; 0xdc; 0xf4; 0x09]);
 ([0xf3; 0xe1; 0x2b; 0x7c; 0x05; 0x86; 0x80; 0x93; 0x4a; 0xad; 0xb4; 0x8f; 0x7e; 0x99; 0x0c; 0xfd;
   0xcd; 0xef; 0xd1; 0xff; 0x2c; 0x69; 0x34; 0x13; 0x41; 0x64; 0xcf; 0x3b; 0xd0; 0x90; 0x09; 0x1e],
  [0x9d; 0x45; 0xd6; 0x80; 0xe6; 0x45; 0xaa; 0xf4; 0x15; 0xaa; 0x5c; 0x34; 0x87; 0x99; 0xa2; 0x8c;
   0x26; 0x84; 0x62; 0x7d; 0xb6; 0x29; 0xc0; 0x52; 0xea; 0xf5; 0x81; 0x18; 0x0f; 0x35; 0xa9; 0x0e]);
 ([0xe7; 0x20; 0x72; 0x7c; 0x6d; 0x94; 0x5f; 0x52; 0x44; 0x54; 0xe3; 0xf1; 0xb2; 0xb0; 0x36; 0x46;
   0x0f; 0xae; 0x92; 0xe8; 0x70; 0x9d; 0x6e; 0x79; 0xb1; 0xad; 0x37; 0xa9; 0x5f; 0xc0; 0xde; 0x03],
  [0x15; 0x55; 0x37; 0xc6; 0x1c; 0x27; 0x1c; 0x6d; 0x14; 0x4f; 0xca; 0xa4; 0xc4; 0x88; 0x25; 0x46;
   0x39; 0xfc; 0x5a; 0xe5; 0xfe; 0x29; 0x11; 0x69; 0xf5; 0x72; 0x84; 0x4d; 0x78; 0x9f; 0x94; 0x15]);
 ([0; 0; 0; 0; 0; 0; 0; 0; 0; 0; 0; 0; 0; 0; 0; 0;
   0; 0; 0; 0; 0; 0; 0; 0; 0; 0; 0; 0; 0; 0; 0; 0],
  [1; 0; 0; 0; 0; 0; 0; 0; 0; 0; 0; 0; 0; 0; 0; 0;
   0; 0; 0; 0; 0; 0; 0; 0; 0; 0; 0; 0; 0; 0; 0; 0]);
 ([0xec; 0xd3; 0xff; 0x57; 0x0b; 0xb0; 0xb2; 0xdc; 0xf8; 0x4f; 0xe2; 0x12; 0xd5; 0x36; 0xbe; 0x6b;
   0x09; 0x43; 0x6d; 0xa3; 0x4d; 0x90; 0x2d; 0xb8; 0x74; 0xe8; 0x71; 0x45; 0x19; 0x8b; 0x0c; 0x6a],
  [0xb8; 0x42; 0x1c; 0x03; 0xad; 0x2c; 0x03; 0x8e; 0xac; 0xd7; 0x98; 0x29; 0x13; 0xc6; 0x02; 0x29;
   0xb5; 0xd4; 0xe7; 0xcf; 0xcc; 0x8b; 0x83; 0xec; 0x35; 0xc7; 0x9c; 0x74; 0xb7; 0xad; 0x85; 0x5f]);
 ([0x78; 0x84; 0xe1; 0x56; 0x45; 0x69; 0x68; 0x5a; 0x4f; 0xb8; 0xb1; 0x29; 0xff; 0x33; 0x03; 0x31;
   0xb7; 0xcb; 0x96; 0x25; 0xe6; 0xe6; 0x41; 0x98; 0x1a; 0xbb; 0x03; 0x56; 0xf2; 0xb2; 0x91; 0x34],
  [0x2c; 0x6c; 0xf7; 0x66; 0xa4; 0x62; 0x6b; 0x39; 0xb3; 0xba; 0x65; 0xd3; 0x1c; 0xf8; 0x11; 0xaa;
   0xbe; 0xdc; 0x80; 0x59; 0x87; 0xf5; 0x7b; 0xe5; 0xe3; 0xb3; 0x3e; 0x39; 0xda; 0xbe; 0x88; 0x09]);
 ([0x8b; 0xf1; 0xa0; 0xf5; 0xdc; 0x29; 0xb4; 0xe2; 0x07; 0xc6; 0x7a; 0x00; 0xd0; 0x89; 0x17; 0x51;
   0xd4; 0xbb; 0xd4; 0x22; 0xea; 0x7e; 0x7d; 0x7c; 0x24; 0xea; 0xf2; 0xe8; 0x22; 0x12; 0x95; 0x06],
  [0xda; 0x7c; 0xa4; 0x0c; 0xf4; 0xba; 0x6e; 0xe1; 0x89; 0xb5; 0x59; 0xca; 0xf1; 0xc0; 0x29; 0x36;
   0x09; 0x44; 0xe2; 0x7f; 0xd1; 0x63; 0x15; 0x99; 0xea; 0x25; 0xcf; 0x0c; 0x9d; 0xc0; 0x44; 0x6f]);
 ([0x1d; 0x86; 0x4e; 0xcf; 0xf7; 0x37; 0x10; 0x25; 0x8f; 0x12; 0xfb; 0x19; 0xfb; 0xe0; 0xed; 0x10;
   0xc8; 0xe2; 0xf5; 0x75; 0xb1; 0x33; 0xc0; 0x96; 0x0d; 0xfb; 0x15; 0x6c; 0x0d; 0x07; 0x5f; 0x05],
  [0x69; 0x3e; 0x47; 0x97; 0x2c; 0xaf; 0x52; 0x7c; 0x78; 0x83; 0xad; 0x1b; 0x39; 0x82; 0x2f; 0x02;
   0x6f; 0x47; 0xdb; 0x2a; 0xb0; 0xe1; 0x91; 0x99; 0x55; 0xb8; 0x99; 0x3a; 0xa0; 0x44; 0x11; 0x51])].
