(* ===== verification/Ge25519.v ===== *)
(** ge25519.c: points of the curve of Ed25519 in extended coordinates. *)

From S2P Require Import Prelude Curve25519 Products Fe25519 Sc25519 Ge25519Base.

Definition fe25519 : Type := list Z.

(** ** Data *)

Record ge25519 := { gx : fe25519; gy : fe25519; gz : fe25519; gt : fe25519 }.
Record ge25519_p1p1 := { p1x : fe25519; p1z : fe25519; p1y : fe25519; p1t : fe25519 }.
Record ge25519_p2 := { p2x : fe25519; p2y : fe25519; p2z : fe25519 }.
Definition ge25519_aff : Type := fe25519 * fe25519.

Definition ge25519_ecd : fe25519 :=
  [0xA3; 0x78; 0x59; 0x13; 0xCA; 0x4D; 0xEB; 0x75; 0xAB; 0xD8; 0x41; 0x41; 0x4D; 0x0A; 0x70; 0x00;
   0x98; 0xE8; 0x79; 0x77; 0x79; 0x40; 0xC7; 0x8C; 0x73; 0xFE; 0x6F; 0x2B; 0xEE; 0x6C; 0x03; 0x52].
Definition ge25519_ec2d : fe25519 :=
  [0x59; 0xF1; 0xB2; 0x26; 0x94; 0x9B; 0xD6; 0xEB; 0x56; 0xB1; 0x83; 0x82; 0x9A; 0x14; 0xE0; 0x00;
   0x30; 0xD1; 0xF3; 0xEE; 0xF2; 0x80; 0x8E; 0x19; 0xE7; 0xFC; 0xDF; 0x56; 0xDC; 0xD9; 0x06; 0x24].
Definition ge25519_sqrtm1 : fe25519 :=
  [0xB0; 0xA0; 0x0E; 0x4A; 0x27; 0x1B; 0xEE; 0xC4; 0x78; 0xE4; 0x2F; 0xAD; 0x06; 0x18; 0x43; 0x2F;
   0xA7; 0xD7; 0xFB; 0x3D; 0x99; 0x00; 0x4D; 0x2B; 0x0B; 0xDF; 0xC1; 0x4F; 0x80; 0x24; 0x83; 0x2B].
Definition ge25519_base : ge25519 := {|
  gx := [0x1A; 0xD5; 0x25; 0x8F; 0x60; 0x2D; 0x56; 0xC9; 0xB2; 0xA7; 0x25; 0x95; 0x60; 0xC7; 0x2C; 0x69;
         0x5C; 0xDC; 0xD6; 0xFD; 0x31; 0xE2; 0xA4; 0xC0; 0xFE; 0x53; 0x6E; 0xCD; 0xD3; 0x36; 0x69; 0x21];
  gy := [0x58; 0x66; 0x66; 0x66; 0x66; 0x66; 0x66; 0x66; 0x66; 0x66; 0x66; 0x66; 0x66; 0x66; 0x66; 0x66;
         0x66; 0x66; 0x66; 0x66; 0x66; 0x66; 0x66; 0x66; 0x66; 0x66; 0x66; 0x66; 0x66; 0x66; 0x66; 0x66];
  gz := [1; 0; 0; 0; 0; 0; 0; 0; 0; 0; 0; 0; 0; 0; 0; 0;
         0; 0; 0; 0; 0; 0; 0; 0; 0; 0; 0; 0; 0; 0; 0; 0];
  gt := [0xA3; 0xDD; 0xB7; 0xA5; 0xB3; 0x8A; 0xDE; 0x6D; 0xF5; 0x52; 0x51; 0x77; 0x80; 0x9F; 0xF0; 0x20;
         0x7D; 0xE3; 0xAB; 0x64; 0x8E; 0x4E; 0xEA; 0x66; 0x65; 0x76; 0x8B; 0xD7; 0x0F; 0x5F; 0x87; 0x67] |}.

(** ** Addition and doubling *)

Definition p1p1_to_p2 (p : ge25519_p1p1) : ge25519_p2 := {|
  p2x := fe25519_mul (p1x p) (p1t p);
  p2y := fe25519_mul (p1y p) (p1z p);
  p2z := fe25519_mul (p1z p) (p1t p) |}.

Definition p1p1_to_p3 (p : ge25519_p1p1) : ge25519 :=
  let r := p1p1_to_p2 p in
  {| gx := p2x r; gy := p2y r; gz := p2z r; gt := fe25519_mul (p1x p) (p1y p) |}.

(** The first three coordinates, as a cast to [ge25519_p2] sees them, and what is written through it. *)
Definition as_p2 (p : ge25519) : ge25519_p2 := {| p2x := gx p; p2y := gy p; p2z := gz p |}.
Definition set_p2 (r : ge25519) (p : ge25519_p2) : ge25519 := {| gx := p2x p; gy := p2y p; gz := p2z p; gt := gt r |}.

Definition ge25519_mixadd2 (r : ge25519) (q : ge25519_aff) : ge25519 :=
  let qt := fe25519_mul (fst q) (snd q) in
  let a := fe25519_sub (gy r) (gx r) in
  let b := fe25519_add (gy r) (gx r) in
  let t1 := fe25519_sub (snd q) (fst q) in
  let t2 := fe25519_add (snd q) (fst q) in
  let a := fe25519_mul a t1 in
  let b := fe25519_mul b t2 in
  let e := fe25519_sub b a in
  let h := fe25519_add b a in
  let c := fe25519_mul (gt r) qt in
  let c := fe25519_mul c ge25519_ec2d in
  let d := fe25519_add (gz r) (gz r) in
  let f := fe25519_sub d c in
  let g := fe25519_add d c in
  {| gx := fe25519_mul e f; gy := fe25519_mul h g; gz := fe25519_mul g f; gt := fe25519_mul e h |}.

Definition add_p1p1 (p q : ge25519) : ge25519_p1p1 :=
  let a := fe25519_sub (gy p) (gx p) in
  let t := fe25519_sub (gy q) (gx q) in
  let a := fe25519_mul a t in
  let b := fe25519_add (gx p) (gy p) in
  let t := fe25519_add (gx q) (gy q) in
  let b := fe25519_mul b t in
  let c := fe25519_mul (gt p) (gt q) in
  let c := fe25519_mul c ge25519_ec2d in
  let d := fe25519_mul (gz p) (gz q) in
  let d := fe25519_add d d in
  {| p1x := fe25519_sub b a; p1t := fe25519_sub d c; p1z := fe25519_add d c; p1y := fe25519_add b a |}.

Definition dbl_p1p1 (p : ge25519_p2) : ge25519_p1p1 :=
  let a := fe25519_square (p2x p) in
  let b := fe25519_square (p2y p) in
  let c := fe25519_square (p2z p) in
  let c := fe25519_add c c in
  let d := fe25519_neg a in
  let x := fe25519_add (p2x p) (p2y p) in
  let x := fe25519_square x in
  let x := fe25519_sub x a in
  let x := fe25519_sub x b in
  let z := fe25519_add d b in
  {| p1x := x; p1z := z; p1t := fe25519_sub z c; p1y := fe25519_sub d b |}.

(** ** The table of multiples of the base *)

Definition cmov_aff (r p : ge25519_aff) (b : Z) : ge25519_aff :=
  (fe25519_cmov (fst r) (fst p) b, fe25519_cmov (snd r) (snd p) b).

(** [equal] and [negative]: conversions of [signed char] to [unsigned char] and to 64 bits. *)
Definition ge_equal (b c : Z) : Z :=
  let ub := b mod 256 in
  let uc := c mod 256 in
  let x := Z.lxor ub uc in
  Z.shiftr (u32 (x - 1)) 31.
Definition ge_negative (b : Z) : Z := Z.shiftr (u64 b) 63.

Definition base_multiple (n : nat) : ge25519_aff := nth n ge25519_base_multiples_affine ([], []).

Definition choose_t (pos : nat) (b : Z) : ge25519_aff :=
  let t := base_multiple (5 * pos + 0) in
  let t := cmov_aff t (base_multiple (5 * pos + 1)) (Z.lor (ge_equal b 1) (ge_equal b (-1))) in
  let t := cmov_aff t (base_multiple (5 * pos + 2)) (Z.lor (ge_equal b 2) (ge_equal b (-2))) in
  let t := cmov_aff t (base_multiple (5 * pos + 3)) (Z.lor (ge_equal b 3) (ge_equal b (-3))) in
  let t := cmov_aff t (base_multiple (5 * pos + 4)) (ge_equal b (-4)) in
  let v := fe25519_neg (fst t) in
  (fe25519_cmov (fst t) v (ge_negative b), snd t).

Definition setneutral : ge25519 :=
  {| gx := fe25519_setzero; gy := fe25519_setone; gz := fe25519_setone; gt := fe25519_setzero |}.

(** ** Points as bytes *)

(** [None] is the result -1. *)
Definition ge25519_unpackneg_vartime (p : bytes) : option ge25519 :=
  let z := fe25519_setone in
  let par := Z.shiftr (byte_val (nth 31 p x00)) 7 in
  let y := fe25519_unpack p in
  let num := fe25519_square y in
  let den := fe25519_mul num ge25519_ecd in
  let num := fe25519_sub num z in
  let den := fe25519_add z den in
  let den2 := fe25519_square den in
  let den4 := fe25519_square den2 in
  let den6 := fe25519_mul den4 den2 in
  let t := fe25519_mul den6 num in
  let t := fe25519_mul t den in
  let t := fe25519_pow2523 t in
  let t := fe25519_mul t num in
  let t := fe25519_mul t den in
  let t := fe25519_mul t den in
  let x := fe25519_mul t den in
  let chk := fe25519_square x in
  let chk := fe25519_mul chk den in
  let x := if negb (fe25519_iseq_vartime chk num) then fe25519_mul x ge25519_sqrtm1 else x in
  let chk := fe25519_square x in
  let chk := fe25519_mul chk den in
  if negb (fe25519_iseq_vartime chk num) then None
  else
    let x := if negb (fe25519_getparity x =? 1 - par) then fe25519_neg x else x in
    Some {| gx := x; gy := y; gz := z; gt := fe25519_mul x y |}.

Definition ge25519_pack (p : ge25519) : bytes :=
  let zi := fe25519_invert (gz p) in
  let tx := fe25519_mul (gx p) zi in
  let ty := fe25519_mul (gy p) zi in
  let r := fe25519_pack ty in
  let last := byte_of_Z (Z.lxor (byte_val (nth 31 r x00)) (Z.shiftl (fe25519_getparity tx) 7)) in
  firstn 31 r ++ [last].

Definition ge25519_isneutral_vartime (p : ge25519) : bool :=
  let ret := true in
  let ret := if fe25519_iszero (gx p) =? 0 then false else ret in
  if negb (fe25519_iseq_vartime (gy p) (gz p)) then false else ret.

(** ** Multiples *)

Definition dbl_p3 (p : ge25519) : ge25519 := p1p1_to_p3 (dbl_p1p1 (as_p2 p)).
Definition add_p3 (p q : ge25519) : ge25519 := p1p1_to_p3 (add_p1p1 p q).

(** The sixteen sums of multiples 0 to 3 of each point. *)
Definition precomputation (p1 p2 : ge25519) : list ge25519 :=
  let pre0 := setneutral in
  let pre1 := p1 in
  let pre2 := dbl_p3 p1 in
  let pre3 := add_p3 pre1 pre2 in
  let pre4 := p2 in
  let pre5 := add_p3 pre1 pre4 in
  let pre6 := add_p3 pre2 pre4 in
  let pre7 := add_p3 pre3 pre4 in
  let pre8 := dbl_p3 p2 in
  let pre9 := add_p3 pre1 pre8 in
  let pre10 := dbl_p3 pre5 in
  let pre11 := add_p3 pre3 pre8 in
  let pre12 := add_p3 pre4 pre8 in
  let pre13 := add_p3 pre1 pre12 in
  let pre14 := add_p3 pre2 pre12 in
  let pre15 := add_p3 pre3 pre12 in
  [pre0; pre1; pre2; pre3; pre4; pre5; pre6; pre7; pre8; pre9; pre10; pre11; pre12; pre13; pre14; pre15].

(** A round of the loop, for [b[i]]. *)
Definition scalar_round (pre : list ge25519) (r : ge25519) (i : nat) (bi : Z) : ge25519 :=
  let t := dbl_p1p1 (as_p2 r) in
  let r := set_p2 r (p1p1_to_p2 t) in
  let t := dbl_p1p1 (as_p2 r) in
  let '(r, t) :=
    if negb (bi =? 0) then
      let r := p1p1_to_p3 t in
      (r, add_p1p1 r (nth (Z.to_nat bi) pre setneutral))
    else (r, t) in
  if negb (i =? 0)%nat then set_p2 r (p1p1_to_p2 t) else p1p1_to_p3 t.

Definition ge25519_double_scalarmult_vartime (p1 : ge25519) (s1 : list Z) (p2 : ge25519) (s2 : list Z) : ge25519 :=
  let pre := precomputation p1 p2 in
  let b := sc25519_2interleave2 s1 s2 in
  fold_left (fun r i => scalar_round pre r i (nth i b 0)) (rev (seq 0 126)) (nth (Z.to_nat (nth 126 b 0)) pre setneutral).

Definition ge25519_scalarmult_base (s : list Z) : ge25519 :=
  let b := sc25519_window3 s in
  let '(x, y) := choose_t 0 (nth 0 b 0) in
  let r := {| gx := x; gy := y; gz := fe25519_setone; gt := fe25519_mul x y |} in
  fold_left (fun r i => ge25519_mixadd2 r (choose_t i (nth i b 0))) (seq 1 84) r.
