(* ===== verification/Ge25519Thms.v ===== *)
(** What ge25519.c computes: sums and multiples in the group of the curve. *)

From Stdlib Require Import Zmod ZmodInv.
From S2P Require Import Prelude Poly1305 Curve25519 Curve25519Limbs Curve25519Thms Products Fe25519 Fe25519Thms.
From S2P Require Import Sc25519 Sc25519Thms Abelian Edwards EdGroup Ge25519Base Ge25519.
#[local] Open Scope Zmod_scope.

(** ** Limbs as elements of the field *)

Definition fe_is (x : fe25519) (a : Fp) : Prop := element 128 x /\ Fz (val x) = a.

Lemma is_stands x a : fe_is x (Fz a) <-> stands_for x a.
Proof. unfold fe_is, stands_for. by rewrite Fz_eq. Qed.
Lemma is_some x a : fe_is x a -> exists n, a = Fz n /\ stands_for x n.
Proof. intros [H <-]. exists (val x). split; [done|]. by split. Qed.

Lemma is_mul x y a b : fe_is x a -> fe_is y b -> fe_is (fe25519_mul x y) (a * b).
Proof. intros (m & -> & H)%is_some (n & -> & H')%is_some. rewrite <- Fz_mul. by apply is_stands, stands_mul. Qed.
Lemma is_square x a : fe_is x a -> fe_is (fe25519_square x) (a * a).
Proof. intros H. exact (is_mul x x a a H H). Qed.
Lemma is_add x y a b : fe_is x a -> fe_is y b -> fe_is (fe25519_add x y) (a + b).
Proof. intros (m & -> & H)%is_some (n & -> & H')%is_some. rewrite <- Fz_add. by apply is_stands, stands_add. Qed.
Lemma is_sub x y a b : fe_is x a -> fe_is y b -> fe_is (fe25519_sub x y) (a - b).
Proof. intros (m & -> & H)%is_some (n & -> & H')%is_some. rewrite <- Fz_sub. by apply is_stands, stands_sub. Qed.
Lemma is_neg x a : fe_is x a -> fe_is (fe25519_neg x) (- a).
Proof. intros (m & -> & H)%is_some. rewrite <- Fz_opp. by apply is_stands, stands_neg. Qed.
Lemma is_cmov x y a b (c : bool) : fe_is x a -> fe_is y b -> fe_is (fe25519_cmov x y (Z.b2z c)) (if c then b else a).
Proof. intros [Hx Ex] [Hy Ey]. rewrite fe_cmov_val by done. by destruct c. Qed.
Lemma is_one : fe_is fe25519_setone Zmod.one.
Proof. rewrite <- Fz_1. apply is_stands, stands_one. Qed.
Lemma is_zero : fe_is fe25519_setzero Zmod.zero.
Proof. rewrite <- Fz_0. apply is_stands, stands_zero. Qed.
Lemma is_limbs l : element 128 l -> fe_is l (Fz (val l)).
Proof. by split. Qed.

Lemma is_ec2d : fe_is ge25519_ec2d ((Zmod.one + Zmod.one) * Fz D25519).
Proof.
  replace ((Zmod.one + Zmod.one) * Fz D25519) with (Fz (2 * D25519)).
  - apply is_stands. split; [split; [done|small_digits|done]|]. split. vm_compute. reflexivity.
  - rewrite Fz_mul. change 2%Z with (1 + 1)%Z. by rewrite Fz_add, Fz_1.
Qed.

(** What an expression of the operations stands for. *)
Ltac stands :=
  repeat lazymatch goal with
  | |- fe_is (fe25519_mul _ _) _ => simple eapply is_mul
  | |- fe_is (fe25519_add _ _) _ => simple eapply is_add
  | |- fe_is (fe25519_sub _ _) _ => simple eapply is_sub
  | |- fe_is (fe25519_square _) _ => simple eapply is_square
  | |- fe_is (fe25519_neg _) _ => simple eapply is_neg
  | |- fe_is fe25519_setone _ => exact is_one
  | |- fe_is fe25519_setzero _ => exact is_zero
  | |- fe_is ge25519_ec2d _ => exact is_ec2d
  | |- fe_is _ _ => eassumption
  end.

(** ** Points *)

(** Coordinates of [P], scaled by some [z]. *)
Definition rep2 (p : ge25519_p2) (P : ed) : Prop := exists z, z <> Zmod.zero /\
  fe_is (p2x p) (fst (xy P) * z) /\ fe_is (p2y p) (snd (xy P) * z) /\ fe_is (p2z p) z.
Definition rep3 (p : ge25519) (P : ed) : Prop := exists z, z <> Zmod.zero /\
  fe_is (gx p) (fst (xy P) * z) /\ fe_is (gy p) (snd (xy P) * z) /\ fe_is (gz p) z /\ fe_is (gt p) (fst (xy P) * snd (xy P) * z).
(** Fractions [x / z] and [y / t]. *)
Definition repp (p : ge25519_p1p1) (P : ed) : Prop := exists z t, z <> Zmod.zero /\ t <> Zmod.zero /\
  fe_is (p1x p) (fst (xy P) * z) /\ fe_is (p1z p) z /\ fe_is (p1y p) (snd (xy P) * t) /\ fe_is (p1t p) t.
Definition repa (p : ge25519_aff) (P : ed) : Prop := fe_is (fst p) (fst (xy P)) /\ fe_is (snd p) (snd (xy P)).

Lemma is_eq x a b : fe_is x a -> a = b -> fe_is x b.
Proof. by intros H <-. Qed.

(** The fields of what an operation returns. *)
Ltac coords := cbv beta iota zeta delta [p1p1_to_p3 p1p1_to_p2 add_p1p1 dbl_p1p1 ge25519_mixadd2 setneutral as_p2 set_p2
  gx gy gz gt p1x p1z p1y p1t p2x p2y p2z].

Lemma p1p1_to_p3_rep p P : repp p P -> rep3 (p1p1_to_p3 p) P.
Proof.
  intros (z & t & Hz & Ht & Hx & Hpz & Hy & Hpt). exists (z * t). destruct p. coords. split_and!.
  - by apply nonzero_product.
  - eapply is_eq; [stands|ring].
  - eapply is_eq; [stands|ring].
  - stands.
  - eapply is_eq; [stands|ring].
Qed.
Lemma p1p1_to_p2_rep p P : repp p P -> rep2 (p1p1_to_p2 p) P.
Proof. intros H. destruct (p1p1_to_p3_rep p P H) as (z & Hz & Hx & Hy & Hpz & _). exists z. by split_and!. Qed.
Lemma as_p2_rep p P : rep3 p P -> rep2 (as_p2 p) P.
Proof. intros (z & Hz & Hx & Hy & Hpz & _). exists z. by split_and!. Qed.
Lemma set_p2_rep r p P : rep2 p P -> rep2 (as_p2 (set_p2 r p)) P.
Proof. by destruct p. Qed.

Lemma add_rep p q P Q : rep3 p P -> rep3 q Q -> repp (add_p1p1 p q) (P + Q)%G.
Proof.
  intros (z1 & H1 & X1 & Y1 & Z1 & T1) (z2 & H2 & X2 & Y2 & Z2 & T2).
  destruct (ed_extended_add P Q z1 z2 H1 H2) as (Hg & Hf & He & Hh). cbv zeta in *.
  eexists _, _. split; [exact Hg|split; [exact Hf|]]. rewrite <- He, <- Hh. coords.
  split_and!; (eapply is_eq; [stands|ring]).
Qed.

Lemma double_rep p P : rep2 p P -> repp (dbl_p1p1 p) (P + P)%G.
Proof.
  intros (z & Hz & X & Y & Z). destruct (ed_extended_double P z Hz) as (Hg & Hf & He & Hh). cbv zeta in *.
  eexists _, _. split; [exact Hg|split; [exact Hf|]]. rewrite <- He, <- Hh. coords.
  split_and!; (eapply is_eq; [stands|ring]).
Qed.

Lemma one_nz : (Zmod.one : Fp) <> Zmod.zero.
Proof. exact (one_nonzero Pfield prime_P). Qed.

(** The same addition, of a point whose third coordinate is 1. *)
Lemma mixed_add P Q z : z <> Zmod.zero ->
  let A := (snd (xy P) * z - fst (xy P) * z) * (snd (xy Q) - fst (xy Q)) in
  let B := (snd (xy P) * z + fst (xy P) * z) * (snd (xy Q) + fst (xy Q)) in
  let C := (fst (xy P) * snd (xy P) * z) * (fst (xy Q) * snd (xy Q)) * ((Zmod.one + Zmod.one) * Fz D25519) in
  let D := z + z in
  D + C <> Zmod.zero /\ D - C <> Zmod.zero /\ B - A = fst (xy (P + Q)%G) * (D + C) /\ B + A = snd (xy (P + Q)%G) * (D - C).
Proof.
  intros Hz A B C D. destruct (ed_extended_add P Q z Zmod.one Hz one_nz) as (Hg & Hf & He & Hh). cbv zeta in *.
  rewrite (Zmod.mul_1_r z), !(Zmod.mul_1_r (snd (xy Q))), !(Zmod.mul_1_r (fst (xy Q))), !(Zmod.mul_1_r (fst (xy Q) * _)) in *.
  by split_and!.
Qed.

Lemma mixadd2_rep r q P Q : rep3 r P -> repa q Q -> rep3 (ge25519_mixadd2 r q) (P + Q)%G.
Proof.
  intros (z & Hz & X1 & Y1 & Z1 & T1) [X2 Y2]. destruct (mixed_add P Q z Hz) as (Hg & Hf & He & Hh). cbv zeta in *.
  eexists. split; [apply nonzero_product; [exact Hg|exact Hf]|]. rewrite !(Zmod.mul_assoc (fst _)), <- He. coords.
  split_and!.
  - eapply is_eq; [stands|ring].
  - eapply is_eq; [stands|]. rewrite (Zmod.mul_comm (_ + _) (_ - _)), (Zmod.mul_assoc (snd _)), <- Hh. ring.
  - eapply is_eq; [stands|ring].
  - eapply is_eq; [stands|]. 
    match goal with |- ?L = fst ?R * snd ?R * (?g * ?f) => transitivity ((fst R * g) * (snd R * f)); [|ring] end. rewrite <- He, <- Hh. ring.
Qed.

(** ** Multiples *)

Lemma neutral_rep : rep3 setneutral gzero.
Proof.
  exists Zmod.one. split; [exact one_nz|]. rewrite xy_zero. cbn [fst snd]. coords.
  split_and!; (eapply is_eq; [stands|ring]).
Qed.

Lemma add_p3_rep p q P Q : rep3 p P -> rep3 q Q -> rep3 (add_p3 p q) (P + Q)%G.
Proof. intros HP HQ. by apply p1p1_to_p3_rep, add_rep. Qed.
Lemma dbl_p3_rep p P : rep3 p P -> rep3 (dbl_p3 p) (P + P)%G.
Proof. intros HP. by apply p1p1_to_p3_rep, double_rep, as_p2_rep. Qed.

Section double_scalar.
Context (p q : ge25519) (P Q : ed) (HP : rep3 p P) (HQ : rep3 q Q).
#[local] Open Scope Z_scope.

Definition sum_of (m n : Z) : ed := (smul m P + smul n Q)%G.
Definition digit_sum (b : Z) : ed := sum_of (b mod 4) (b / 4).
Definition combination_of (ds : list Z) : ed :=
  sum_of (val_base 4 (map (fun d => d mod 4) ds)) (val_base 4 (map (fun d => d / 4) ds)).

Lemma rep3_eq r R R' : rep3 r R -> R = R' -> rep3 r R'.
Proof. by intros H <-. Qed.

Lemma precomputation_rep : Forall2 rep3 (precomputation p q)
  [sum_of 0 0; sum_of 1 0; sum_of 2 0; sum_of 3 0; sum_of 0 1; sum_of 1 1; sum_of 2 1; sum_of 3 1;
   sum_of 0 2; sum_of 1 2; sum_of 2 2; sum_of 3 2; sum_of 0 3; sum_of 1 3; sum_of 2 3; sum_of 3 3].
Proof.
  assert (H2 := dbl_p3_rep p P HP). assert (H3 := add_p3_rep _ _ _ _ HP H2). assert (H8 := dbl_p3_rep q Q HQ).
  assert (H12 := add_p3_rep _ _ _ _ HQ H8). assert (H5 := add_p3_rep _ _ _ _ HP HQ).
  unfold precomputation, sum_of. cbv zeta. rewrite !smul_0, !smul_1, !smul_2, !smul_3.
  repeat apply Forall2_cons_2; [..|apply Forall2_nil_2].
  - exact (rep3_eq _ _ _ neutral_rep (eq_sym (gadd_zero _))).
  - exact (rep3_eq _ _ _ HP (eq_sym (gadd_zero _))).
  - exact (rep3_eq _ _ _ H2 (eq_sym (gadd_zero _))).
  - exact (rep3_eq _ _ _ H3 (eq_sym (gadd_zero _))).
  - exact (rep3_eq _ _ _ HQ (eq_sym (gzero_add _))).
  - exact H5.
  - exact (add_p3_rep _ _ _ _ H2 HQ).
  - exact (add_p3_rep _ _ _ _ H3 HQ).
  - exact (rep3_eq _ _ _ H8 (eq_sym (gzero_add _))).
  - exact (add_p3_rep _ _ _ _ HP H8).
  - exact (rep3_eq _ _ _ (dbl_p3_rep _ _ H5) (gadd_swap _ _ _ _)).
  - exact (add_p3_rep _ _ _ _ H3 H8).
  - exact (rep3_eq _ _ _ H12 (eq_sym (gzero_add _))).
  - exact (add_p3_rep _ _ _ _ HP H12).
  - exact (add_p3_rep _ _ _ _ H2 H12).
  - exact (add_p3_rep _ _ _ _ H3 H12).
Qed.

Lemma precomputation_at b : 0 <= b < 16 -> rep3 (nth (Z.to_nat b) (precomputation p q) setneutral) (digit_sum b).
Proof.
  intros Hb. pose proof precomputation_rep as H. rewrite Forall2_lookup in H. specialize (H (Z.to_nat b)).
  rewrite nth_lookup. assert (Hn : (Z.to_nat b < 16)%nat) by lia. rewrite <- (Z2Nat.id b) by lia. revert Hn H. generalize (Z.to_nat b). intros n Hn H.
  rewrite Nat2Z.id. do 16 (destruct n as [|n]; [inversion H; subst; assumption|]). lia.
Qed.

Lemma combination_cons b ds : combination_of (b :: ds) = ((combination_of ds + combination_of ds) + (combination_of ds + combination_of ds) + digit_sum b)%G.
Proof.
  unfold combination_of, digit_sum, sum_of. cbn [map val_base]. rewrite !smul_add, !smul_mul, !smul_4.
  generalize (smul (b mod 4) P) (smul (b / 4) Q) (smul (val_base 4 (map (fun d => d mod 4) ds)) P) (smul (val_base 4 (map (fun d => d / 4) ds)) Q).
  intros m n v w. rewrite (gadd_swap v w v w), (gadd_swap (v + v) (w + w) (v + v) (w + w))%G, (gadd_swap (v + v + (v + v)) (w + w + (w + w)) m n)%G.
  by rewrite (gadd_comm m), (gadd_comm n).
Qed.

(** A round quadruples, and adds what the digit says. *)
Lemma double_round_rep r i b R : rep2 (as_p2 r) R -> 0 <= b < 16 ->
  let r' := scalar_round (precomputation p q) r i b in
  let R' := (((R + R) + (R + R)) + digit_sum b)%G in
  rep2 (as_p2 r') R' /\ (i = 0%nat -> rep3 r' R').
Proof.
  intros HR Hb. unfold scalar_round. cbv zeta.
  pose proof (p1p1_to_p2_rep _ _ (double_rep _ _ HR)) as H1. set (t1 := dbl_p1p1 (as_p2 r)) in *. set (r1 := set_p2 r (p1p1_to_p2 t1)).
  assert (H2 : repp (dbl_p1p1 (as_p2 r1)) ((R + R) + (R + R))%G) by (apply double_rep, set_p2_rep, H1). set (t2 := dbl_p1p1 (as_p2 r1)) in *.
  assert (H : exists r2 t, (if negb (b =? 0) then (p1p1_to_p3 t2, add_p1p1 (p1p1_to_p3 t2) (nth (Z.to_nat b) (precomputation p q) setneutral)) else (r1, t2)) = (r2, t) /\
    repp t (((R + R) + (R + R)) + digit_sum b)%G).
  { destruct (Z.eqb_spec b 0) as [->|Hn]; cbn [negb].
    - exists r1, t2. split; [reflexivity|]. unfold digit_sum, sum_of. change (0 mod 4) with 0. change (0 / 4) with 0. rewrite !smul_0, !gadd_zero. exact H2.
    - eexists _, _. split; [reflexivity|]. apply add_rep; [by apply p1p1_to_p3_rep|by apply precomputation_at]. }
  destruct H as (r2 & t & -> & Ht). destruct (Nat.eqb_spec i 0) as [->|Hi]; cbn [negb].
  - split; [by apply as_p2_rep, p1p1_to_p3_rep|]. intros _. by apply p1p1_to_p3_rep.
  - split; [by apply set_p2_rep, p1p1_to_p2_rep|done].
Qed.

Lemma double_rounds b n : forall r, (S n < length b)%nat -> Forall (fun d => 0 <= d < 16) b -> rep2 (as_p2 r) (combination_of (drop (S n) b)) ->
  rep3 (fold_left (fun r i => scalar_round (precomputation p q) r i (nth i b 0)) (rev (seq 0 (S n))) r) (combination_of b).
Proof.
  induction n as [|n IH]; intros r Hn Hb Hr; rewrite seq_S, rev_app_distr; cbn [Nat.add rev app fold_left].
  - assert (E : b = nth 0 b 0 :: drop 1 b) by (destruct b; [cbn in Hn; lia|reflexivity]). rewrite E at 2. rewrite combination_cons.
    apply double_round_rep; [exact Hr| |reflexivity]. eapply Forall_forall in Hb; [exact Hb|]. apply list_elem_of_In, nth_In. lia.
  - apply IH; [lia|exact Hb|]. assert (E : drop (S n) b = nth (S n) b 0 :: drop (S (S n)) b).
    { rewrite <- (drop_S b (nth (S n) b 0) (S n)); [done|]. apply nth_lookup_Some_2 || (rewrite nth_lookup; destruct (lookup_lt_is_Some_2 b (S n)) as [v ->]; [lia|done]). }
    rewrite E, combination_cons. apply double_round_rep; [exact Hr|]. eapply Forall_forall in Hb; [exact Hb|]. apply list_elem_of_In, nth_In. lia.
Qed.
End double_scalar.

(** ** The base point and its table *)

Definition BX : Z := 15112221349535400772501151409588531511454012693041857206046113283949847762202.
Definition BY : Z := 46316835694926478169428394003475163141307993866256225615783033603165251855960.
Lemma base_on : on_ed_num BX BY = true.
Proof. vm_compute. reflexivity. Qed.
Definition base : ed := ed_point (Fz BX, Fz BY) (on_ed_num_spec BX BY base_on).

Definition table_numbers : list (Z * Z) := map (fun e => (val (fst e), val (snd e))) ge25519_base_multiples_affine.
Definition entry (n : nat) : Z * Z := nth n table_numbers (0%Z, 0%Z).

Definition element_check (B : Z) (x : list Z) : bool :=
  (length x =? 32)%nat && forallb (fun d => (0 <=? d) && (d <? 256))%Z (take 31 x) && ((0 <=? at_limb x 31) && (at_limb x 31 <=? B))%Z.
Lemma element_check_spec B x : element_check B x = true -> element B x.
Proof.
  unfold element_check. rewrite !andb_true_iff, Nat.eqb_eq, !Z.leb_le, forallb_forall. intros [[Hl Hd] Ht]. split; [done| |done].
  apply Forall_forall. intros d Hi%list_elem_of_In. specialize (Hd d Hi). by rewrite andb_true_iff, Z.leb_le, Z.ltb_lt in Hd.
Qed.

Lemma table_length : length ge25519_base_multiples_affine = 425%nat.
Proof. vm_compute. reflexivity. Qed.
Lemma table_elements : forallb (fun e => element_check 127 (fst e) && element_check 127 (snd e)) ge25519_base_multiples_affine = true.
Proof. vm_compute. reflexivity. Qed.

(** Every row holds 0 to 4 times the point whose double of its last entry starts the next row. *)
Definition row_check (table : list (Z * Z)) (i : nat) : bool :=
  let entry n := nth n table (0%Z, 0%Z) in
  let e k := entry (5 * i + k)%nat in
  ((fst (e 0%nat) =? 0) && (snd (e 0%nat) =? 1))%Z && sum_num (e 1%nat) (e 1%nat) (e 2%nat) && sum_num (e 1%nat) (e 2%nat) (e 3%nat) &&
  sum_num (e 1%nat) (e 3%nat) (e 4%nat) && ((i =? 84)%nat || sum_num (e 4%nat) (e 4%nat) (entry (5 * S i + 1)%nat)).
Lemma table_rows : forallb (row_check table_numbers) (seq 0 85) = true.
Proof. vm_compute. reflexivity. Qed.
Lemma table_base : entry 1 = (BX, BY).
Proof. vm_compute. reflexivity. Qed.

Lemma base_multiple_rep n P : (n < 425)%nat -> num_point P (entry n) -> repa (base_multiple n) P /\ element 128 (fst (base_multiple n)) /\ element 128 (snd (base_multiple n)).
Proof.
  intros Hn HP. unfold entry, table_numbers in HP. rewrite (nth_indep _ (0%Z, 0%Z) (val (@nil Z), val (@nil Z))) in HP by (rewrite length_map, table_length; exact Hn).
  change (val (@nil Z), val (@nil Z)) with ((fun e : ge25519_aff => (val (fst e), val (snd e))) ([], [])) in HP. rewrite map_nth in HP.
  fold (base_multiple n) in HP. unfold num_point in HP. cbn [fst snd] in HP.
  pose proof table_elements as H. rewrite forallb_forall in H. specialize (H (base_multiple n)).
  assert (Hi : In (base_multiple n) ge25519_base_multiples_affine) by (apply nth_In; rewrite table_length; exact Hn).
  apply H, andb_true_iff in Hi as [H1%element_check_spec%(element_weaken 127 128 _ ltac:(lia)) H2%element_check_spec%(element_weaken 127 128 _ ltac:(lia))].
  unfold repa. rewrite HP. cbn [fst snd]. split_and!; [by apply is_limbs|by apply is_limbs|exact H1|exact H2].
Qed.

Lemma row_rep i P : (i < 85)%nat -> num_point P (entry (5 * i + 1)) ->
  (forall k, (k < 5)%nat -> num_point (smul (Z.of_nat k) P) (entry (5 * i + k))) /\
  ((i < 84)%nat -> num_point (smul 8 P) (entry (5 * S i + 1))).
Proof.
  intros Hi H1. pose proof table_rows as H. rewrite forallb_forall in H. specialize (H i ltac:(apply in_seq; lia)).
  unfold row_check in H. cbv zeta in H. rewrite !andb_true_iff, !Z.eqb_eq in H. fold (entry (5 * i + 0)) (entry (5 * i + 1)) (entry (5 * i + 2)) (entry (5 * i + 3)) (entry (5 * i + 4)) (entry (5 * S i + 1)) in H.
  destruct H as [[[[[Hx Hy] H2] H3] H4] H8].
  assert (P2 := sum_num_spec _ _ _ _ _ H1 H1 H2). assert (P3 := sum_num_spec _ _ _ _ _ H1 P2 H3). assert (P4 := sum_num_spec _ _ _ _ _ H1 P3 H4). split.
  - intros k Hk. destruct k as [|[|[|[|[|k]]]]]; [|exact H1|exact P2|exact P3| |lia].
    + unfold num_point. cbn [Z.of_nat]. rewrite smul_0, Hx, Hy, Fz_0, Fz_1. reflexivity.
    + change (Z.of_nat 4) with (1 + 3)%Z. rewrite smul_add. exact P4.
  - intros Hi'. apply orb_true_iff in H8 as [H8%Nat.eqb_eq|H8]; [lia|]. change 8%Z with (4 + 4)%Z. rewrite smul_add.
    assert (P4' : num_point (smul 4 P) (entry (5 * i + 4))) by (change 4%Z with (1 + 3)%Z; rewrite smul_add; exact P4).
    exact (sum_num_spec _ _ _ _ _ P4' P4' H8).
Qed.

Lemma table_rep i : (i < 85)%nat -> num_point (smul (8 ^ Z.of_nat i) base) (entry (5 * i + 1)).
Proof.
  induction i as [|i IH]; intros Hi.
  - change (5 * 0 + 1)%nat with 1%nat. rewrite table_base. reflexivity.
  - rewrite Nat2Z.inj_succ, Z.pow_succ_r, smul_mul by lia. apply row_rep; [lia|apply IH; lia|lia].
Qed.

Lemma multiple_rep i k : (i < 85)%nat -> (k < 5)%nat ->
  repa (base_multiple (5 * i + k)) (smul (Z.of_nat k * 8 ^ Z.of_nat i)%Z base) /\
  element 128 (fst (base_multiple (5 * i + k))) /\ element 128 (snd (base_multiple (5 * i + k))).
Proof.
  intros Hi Hk. apply base_multiple_rep; [lia|]. rewrite smul_mul. destruct (row_rep i _ Hi (table_rep i Hi)) as [H _]. exact (H k Hk).
Qed.

(** ** Multiples of the base point *)

(** Which of the moves of [choose_t] happen. *)
Lemma selectors b : (-4 <= b < 4)%Z ->
  Z.lor (ge_equal b 1) (ge_equal b (-1)) = Z.b2z (Z.abs b =? 1)%Z /\ Z.lor (ge_equal b 2) (ge_equal b (-2)) = Z.b2z (Z.abs b =? 2)%Z /\
  Z.lor (ge_equal b 3) (ge_equal b (-3)) = Z.b2z (Z.abs b =? 3)%Z /\ ge_equal b (-4) = Z.b2z (Z.abs b =? 4)%Z /\ ge_negative b = Z.b2z (b <? 0)%Z.
Proof.
  intros Hb. assert (H : (b = -4 \/ b = -3 \/ b = -2 \/ b = -1 \/ b = 0 \/ b = 1 \/ b = 2 \/ b = 3)%Z) by lia.
  destruct H as [->|[->|[->|[->|[->|[->|[->| ->]]]]]]]; vm_compute; repeat split.
Qed.

Lemma cmov_aff_val r p (c : bool) : element 128 (fst r) -> element 128 (snd r) -> element 128 (fst p) -> element 128 (snd p) ->
  cmov_aff r p (Z.b2z c) = if c then p else r.
Proof. intros H1 H2 H3 H4. unfold cmov_aff. rewrite !fe_cmov_val by assumption. by destruct c, r, p. Qed.

Lemma choose_t_rep i b : (i < 85)%nat -> (-4 <= b < 4)%Z -> repa (choose_t i b) (smul (b * 8 ^ Z.of_nat i)%Z base).
Proof.
  intros Hi Hb. destruct (selectors b Hb) as (S1 & S2 & S3 & S4 & Sn). pose proof (fun k => multiple_rep i k Hi) as M.
  set (a := Z.to_nat (Z.abs b)). assert (Ha : (a < 5)%nat) by (unfold a; lia).
  assert (E : exists t, repa t (smul (Z.of_nat a * 8 ^ Z.of_nat i)%Z base) /\ choose_t i b = (fe25519_cmov (fst t) (fe25519_neg (fst t)) (ge_negative b), snd t)).
  { exists (base_multiple (5 * i + a)). split; [by apply M|]. unfold choose_t. rewrite S1, S2, S3, S4. cbv zeta.
    assert (A : Z.abs b = Z.of_nat a) by (unfold a; lia). rewrite A. clearbody a.
    destruct (M 0%nat ltac:(lia)) as (_ & X0 & Y0), (M 1%nat ltac:(lia)) as (_ & X1 & Y1), (M 2%nat ltac:(lia)) as (_ & X2 & Y2),
      (M 3%nat ltac:(lia)) as (_ & X3 & Y3), (M 4%nat ltac:(lia)) as (_ & X4 & Y4).
    destruct a as [|[|[|[|[|a]]]]]; [..|lia]; cbv beta iota delta [Z.of_nat Pos.of_succ_nat Pos.succ Z.eqb Pos.eqb].
    all: repeat (lazymatch goal with |- context [cmov_aff (base_multiple ?n) ?q _] => rewrite (cmov_aff_val (base_multiple n) q) by assumption end; cbv iota); reflexivity. }
  destruct E as (t & [Hx Hy] & ->). rewrite Sn. unfold repa. cbn [fst snd].
  assert (Hc := is_cmov _ _ _ _ (b <? 0)%Z Hx (is_neg _ _ Hx)). destruct (Z.ltb_spec b 0) as [Hneg|Hpos].
  - replace (b * 8 ^ Z.of_nat i)%Z with (- (Z.of_nat a * 8 ^ Z.of_nat i))%Z by (unfold a; lia). rewrite smul_opp, xy_opp. cbn [fst snd]. by split.
  - replace (b * 8 ^ Z.of_nat i)%Z with (Z.of_nat a * 8 ^ Z.of_nat i)%Z by (unfold a; lia). by split.
Qed.

Lemma val_base_take B l k : (k < length l)%nat -> (val_base B (take (S k) l) = val_base B (take k l) + nth k l 0 * B ^ Z.of_nat k)%Z.
Proof.
  revert k. induction l as [|d l IH]; intros k Hk; cbn in Hk; [lia|]. destruct k as [|k].
  - cbn [take val_base nth Z.of_nat]. destruct l; cbn [take val_base]; lia.
  - cbn [take val_base nth]. cbn [take] in IH. rewrite (IH k) by lia. rewrite Nat2Z.inj_succ, Z.pow_succ_r by lia. lia.
Qed.

Lemma base_rounds b n : forall r k, (k + n <= 85)%nat -> length b = 85%nat -> Forall (fun d => -4 <= d < 4)%Z b ->
  rep3 r (smul (val_base 8 (take k b)) base) ->
  rep3 (fold_left (fun r i => ge25519_mixadd2 r (choose_t i (nth i b 0%Z))) (seq k n) r) (smul (val_base 8 (take (k + n) b)) base).
Proof.
  induction n as [|n IH]; intros r k Hk Hl Hb Hr; cbn [seq fold_left]; [by rewrite Nat.add_0_r|].
  rewrite Nat.add_succ_r, <- Nat.add_succ_l. apply IH; [lia|exact Hl|exact Hb|]. rewrite val_base_take, smul_add by lia.
  apply mixadd2_rep; [exact Hr|]. apply choose_t_rep; [lia|]. eapply Forall_forall in Hb; [exact Hb|]. apply list_elem_of_In, nth_In. lia.
Qed.

Lemma rep_affine t P : repa t P -> rep3 {| gx := fst t; gy := snd t; gz := fe25519_setone; gt := fe25519_mul (fst t) (snd t) |} P.
Proof.
  intros [Hx Hy]. exists Zmod.one. split; [exact one_nz|]. coords. split_and!; (eapply is_eq; [stands|ring]).
Qed.

Lemma scalarmult_base_rep s : limbs 32 s -> (val s < ORDER)%Z -> rep3 (ge25519_scalarmult_base s) (smul (val s) base).
Proof.
  intros Hs Hlt. destruct (window3_signed s Hs Hlt) as (Hl & Hv & Hd). unfold ge25519_scalarmult_base. set (b := sc25519_window3 s) in *.
  cbv zeta. destruct (choose_t 0 (nth 0 b 0%Z)) as [x y] eqn:E.
  rewrite <- Hv. replace (val_base 8 b) with (val_base 8 (take (1 + 84) b)) by (rewrite take_ge by lia; reflexivity).
  apply base_rounds; [lia|exact Hl|exact Hd|].
  assert (H0 : (-4 <= nth 0 b 0 < 4)%Z) by (eapply Forall_forall in Hd; [exact Hd|]; apply list_elem_of_In, nth_In; lia).
  pose proof (choose_t_rep 0 (nth 0 b 0%Z) ltac:(lia) H0) as H. rewrite E in H. apply rep_affine in H.
  rewrite (val_base_take 8 b 0) by lia. exact H.
Qed.

Lemma double_scalarmult_rep p q P Q s t : rep3 p P -> rep3 q Q -> limbs 32 s -> limbs 32 t -> (val s < ORDER)%Z -> (val t < ORDER)%Z ->
  rep3 (ge25519_double_scalarmult_vartime p s q t) (smul (val s) P + smul (val t) Q)%G.
Proof.
  intros HP HQ Hs Ht Bs Bt. destruct (interleave2_val s t Hs Ht) as (L & F & V1 & V2). pose proof (limbs_val _ _ Hs). pose proof (limbs_val _ _ Ht).
  rewrite Z.mod_small in V1 by (unfold ORDER in *; lia). rewrite Z.mod_small in V2 by (unfold ORDER in *; lia).
  unfold ge25519_double_scalarmult_vartime. cbv zeta. set (b := sc25519_2interleave2 s t) in *.
  rewrite <- V1, <- V2. change (smul ?m P + smul ?n Q)%G with (combination_of P Q b).
  apply (double_rounds p q P Q HP HQ b 125); [lia|exact F|].
  assert (Ed : drop 126 b = [nth 126 b 0%Z]).
  { clear -L. do 127 (destruct b as [|? b]; [discriminate L|]). destruct b; [reflexivity|discriminate L]. }
  rewrite Ed. apply as_p2_rep.
  assert (Hd : (0 <= nth 126 b 0 < 16)%Z) by (eapply Forall_forall in F; [exact F|]; apply list_elem_of_In, nth_In; lia).
  pose proof (precomputation_at p q P Q HP HQ _ Hd) as H1. unfold digit_sum in H1. unfold combination_of. cbn [map val_base].
  by rewrite !Z.mul_0_r, !Z.add_0_r.
Qed.

Lemma base_coordinates : element_check 128 (gx ge25519_base) && element_check 128 (gy ge25519_base) && element_check 128 (gz ge25519_base)
  && element_check 128 (gt ge25519_base) && same_class (val (gx ge25519_base)) BX && same_class (val (gy ge25519_base)) BY
  && same_class (val (gz ge25519_base)) 1 && same_class (val (gt ge25519_base)) (BX * BY) = true.
Proof. vm_compute. reflexivity. Qed.

Lemma base_rep : rep3 ge25519_base base.
Proof.
  pose proof base_coordinates as H. rewrite !andb_true_iff in H.
  destruct H as [[[[[[[Hx%element_check_spec Hy%element_check_spec] Hz%element_check_spec] Ht%element_check_spec] Ex%same_class_spec] Ey%same_class_spec] Ez%same_class_spec] Et%same_class_spec].
  exists Zmod.one. split; [exact one_nz|]. unfold fe_is. rewrite Ex, Ey, Ez, Et, Fz_mul, Fz_1.
  change (fst (xy base)) with (Fz BX). change (snd (xy base)) with (Fz BY). rewrite !Zmod.mul_1_r. by split_and!.
Qed.

(** ** Properties *)

(** Claim C20.  The additions and doublings of ge25519.c are those of the curve's group, so
    [ge25519_scalarmult_base] computes the multiple of the base point and
    [ge25519_double_scalarmult_vartime] the sum of two multiples, for all scalars below the order
    and all points, equal or opposite ones included: no case needs another formula, every entry of
    the table is the multiple it is used as, and the result has a nonzero denominator. *)
Theorem ge25519_multiples p q P Q s t (HP : rep3 p P) (HQ : rep3 q Q) (Hs : limbs 32 s) (Ht : limbs 32 t)
  (Bs : (val s < ORDER)%Z) (Bt : (val t < ORDER)%Z) :
  rep3 (ge25519_scalarmult_base s) (smul (val s) base) /\
  rep3 (ge25519_double_scalarmult_vartime p s q t) (smul (val s) P + smul (val t) Q)%G.
Proof. split; [by apply scalarmult_base_rep|by apply double_scalarmult_rep]. Qed.

Lemma ge25519_multiples_witness : let s := (2 :: repeat 0 31)%Z in
  rep3 (ge25519_scalarmult_base s) (smul 2 base) /\
  rep3 (ge25519_double_scalarmult_vartime ge25519_base s ge25519_base s) (smul 2 base + smul 2 base)%G.
Proof.
  assert (Hs : limbs 32 (2 :: repeat 0 31)%Z) by (split; [done|small_digits]).
  exact (ge25519_multiples ge25519_base ge25519_base base base _ _ base_rep base_rep Hs Hs eq_refl eq_refl).
Defined.
