(* ===== verification/Ge25519Bytes.v ===== *)
(** Points as bytes: what ge25519.c writes and reads. *)

From Stdlib Require Import Field Zmod Zdivisibility ZmodInv Zpow_facts.
From S2P Require Import Prelude Poly1305 Curve25519 Curve25519Limbs Curve25519Thms Products Fe25519 Fe25519Thms.
From S2P Require Import Sc25519 Sc25519Thms Primes Abelian Edwards EdGroup Ge25519Base Ge25519 Ge25519Thms.

(** ** Encoding *)

(** The coordinates as numbers. *)
Definition X (P : ed) : Z := Zmod.to_Z (fst (xy P)).
Definition Y (P : ed) : Z := Zmod.to_Z (snd (xy P)).

Lemma X_range P : 0 <= X P < P25519.
Proof. unfold X. rewrite (Fz_surjective (fst (xy P))), to_Z_Fz. by apply Z.mod_pos_bound. Qed.
Lemma Y_range P : 0 <= Y P < P25519.
Proof. unfold Y. rewrite (Fz_surjective (snd (xy P))), to_Z_Fz. by apply Z.mod_pos_bound. Qed.
Lemma Fz_X P : Fz (X P) = fst (xy P).
Proof. symmetry. apply Fz_surjective. Qed.
Lemma Fz_Y P : Fz (Y P) = snd (xy P).
Proof. symmetry. apply Fz_surjective. Qed.

(** The bytes of a point in RFC 8032: [y] with the parity of [x] on top. *)
Definition encode (P : ed) : bytes := bytes_le 32 (Y P + 2 ^ 255 * (X P mod 2)).

Lemma is_val x a : fe_is x a -> val x mod P25519 = Zmod.to_Z a.
Proof. intros [_ <-]. by rewrite to_Z_Fz. Qed.

Lemma is_invert x a : fe_is x a -> a <> Zmod.zero -> exists w, fe_is (fe25519_invert x) w /\ Zmod.mul a w = Zmod.one.
Proof.
  intros [Hx <-] Hn. exists (Fz (val x ^ (2 ^ 255 - 21))). split.
  - apply is_stands. apply (stands_power x (val x) _ _ (conj Hx (Equivalence_Reflexive _)) (fe_invert_power x Hx)).
  - rewrite <- Fz_mul, <- Fz_1. apply Fz_eq. split. rewrite <- (Z.pow_1_r (val x)) at 1. rewrite <- Z.pow_add_r by lia.
    change (1 + (2 ^ 255 - 21)) with (P25519 - 1). rewrite (Z.fermat_nz P25519 (val x) prime_25519); [done|].
    intros E. apply Hn. rewrite <- Fz_0. apply Fz_eq. split. by rewrite E.
Qed.

(** A product is read as the number it stands for unless that is tiny. *)
Lemma product_regular x y a : element 128 x -> element 128 y -> fe_is (fe25519_mul x y) a -> TINY <= Zmod.to_Z a -> val (fe25519_mul x y) < 2 ^ 255.
Proof. intros Hx Hy Hm Ht. rewrite <- (is_val _ _ Hm) in Ht. by apply product_below. Qed.

Lemma le_val_last r : length r = 32%nat ->
  le_val r = le_val (firstn 31 r) + 256 ^ 31 * byte_val (nth 31 r x00) /\ 0 <= le_val (firstn 31 r) < 256 ^ 31.
Proof.
  intros Hl. assert (L31 : zlen (firstn 31 r) = 31) by (unfold zlen; rewrite length_firstn, Hl; done).
  pose proof (le_val_range (firstn 31 r)) as Rg. rewrite L31 in Rg. split; [|exact Rg].
  assert (E : r = firstn 31 r ++ [nth 31 r x00]).
  { rewrite <- (firstn_skipn 31 r) at 1. f_equal. do 32 (destruct r as [|? r]; [discriminate Hl|]). by destruct r. }
  rewrite E at 1. rewrite le_val_app, L31. cbn [le_val]. lia.
Qed.

Lemma last_byte r b : length r = 32%nat -> le_val r < 2 ^ 255 -> 0 <= b <= 1 ->
  firstn 31 r ++ [byte_of_Z (Z.lxor (byte_val (nth 31 r x00)) (Z.shiftl b 7))] = bytes_le 32 (le_val r + 2 ^ 255 * b).
Proof.
  intros Hl Hr Hb. apply le_val_unique; [rewrite length_app, length_firstn, Hl; done|].
  destruct (le_val_last r Hl) as [V Rg]. pose proof (byte_val_range (nth 31 r x00)) as Rb.
  assert (L31 : zlen (firstn 31 r) = 31) by (unfold zlen; rewrite length_firstn, Hl; done).
  rewrite le_val_app, L31. cbn [le_val].
  assert (H7 : 0 <= byte_val (nth 31 r x00) < 128) by lia.
  assert (Hx : Z.lxor (byte_val (nth 31 r x00)) (Z.shiftl b 7) = byte_val (nth 31 r x00) + 128 * b).
  { assert (Hb' : b = 0 \/ b = 1) by lia. destruct Hb' as [->| ->]; [by rewrite Z.lxor_0_r, Z.mul_0_r, Z.add_0_r|].
    rewrite Z.shiftl_mul_pow2, Z.mul_1_l by lia. rewrite <- Z.add_nocarry_lxor; [lia|]. apply Z.bits_inj'. intros n Hn.
    rewrite Z.land_spec, Z.bits_0. rewrite Z.pow2_bits_eqb by lia. destruct (Z.eqb_spec 7 n) as [<-|]; [|apply andb_false_r].
    rewrite (Z.testbit_eqb (byte_val _)), (Z.div_small (byte_val _)) by lia. done. }
  rewrite Hx, byte_val_of_Z_small by lia. rewrite V. lia.
Qed.

(** [ge25519_pack] writes the encoding of a point, if no coordinate is tiny. *)
Lemma pack_rep g P : rep3 g P -> TINY <= X P -> TINY <= Y P -> ge25519_pack g = encode P.
Proof.
  intros (z & Hz & Hx & Hy & Hgz & _) TX TY. destruct (is_invert _ _ Hgz Hz) as (w & Hw & E).
  assert (Tx : fe_is (fe25519_mul (gx g) (fe25519_invert (gz g))) (fst (xy P))).
  { eapply is_eq; [exact (is_mul _ _ _ _ Hx Hw)|]. rewrite <- Zmod.mul_assoc, E. apply Zmod.mul_1_r. }
  assert (Ty : fe_is (fe25519_mul (gy g) (fe25519_invert (gz g))) (snd (xy P))).
  { eapply is_eq; [exact (is_mul _ _ _ _ Hy Hw)|]. rewrite <- Zmod.mul_assoc, E. apply Zmod.mul_1_r. }
  pose proof (product_regular _ _ _ (proj1 Hx) (proj1 Hw) Tx TX) as Rx. pose proof (product_regular _ _ _ (proj1 Hy) (proj1 Hw) Ty TY) as Ry.
  unfold ge25519_pack. cbv zeta. revert Tx Ty Rx Ry. generalize (fe25519_mul (gx g) (fe25519_invert (gz g))) (fe25519_mul (gy g) (fe25519_invert (gz g))).
  intros tx ty Tx Ty Rx Ry. destruct (fe25519_canonical ty ty (proj1 Ty) (proj1 Ty) Ry Ry) as ([Lr Vr] & _).
  destruct (fe25519_canonical tx tx (proj1 Tx) (proj1 Tx) Rx Rx) as (_ & _ & _ & Vp).
  rewrite Vp. pose proof (Y_range P). rewrite last_byte; [|exact Lr|rewrite Vr, (is_val _ _ Ty); fold (Y P); unfold P25519 in *; lia|].
  - rewrite Vr, (is_val _ _ Ty), (is_val _ _ Tx). reflexivity.
  - pose proof (Z.mod_pos_bound (val tx mod P25519) 2 eq_refl). lia.
Qed.

(** ** Decoding *)

#[local] Open Scope Zmod_scope.

(** A point none of whose relevant coordinates is within [TINY] of zero. *)
Definition N (P : ed) : Z := Zmod.to_Z (snd (xy P) * snd (xy P) - Zmod.one).
Record ordinary (P : ed) : Prop := {
  ordinary_X : (TINY <= X P <= P25519 - TINY)%Z;
  ordinary_Y : (TINY <= Y P)%Z;
  ordinary_N : (TINY <= N P <= P25519 - TINY)%Z
}.

Lemma field_int (a b : Fp) : a * b = Zmod.zero -> a = Zmod.zero \/ b = Zmod.zero.
Proof. exact (mul_zero Pfield prime_P a b). Qed.

Lemma to_Z_opp_field (a : Fp) : a <> Zmod.zero -> Zmod.to_Z (- a) = (P25519 - Zmod.to_Z a)%Z.
Proof.
  intros Ha. rewrite (Fz_surjective a) at 1. rewrite <- Fz_opp, to_Z_Fz. assert (R : (0 <= Zmod.to_Z a < P25519)%Z).
  { rewrite (Fz_surjective a), to_Z_Fz. by apply Z.mod_pos_bound. }
  assert (Zmod.to_Z a <> 0)%Z by (intros E; apply Ha; rewrite (Fz_surjective a), E; apply Fz_0).
  symmetry. apply (Z.mod_unique _ _ (-1)); lia.
Qed.

Lemma to_Z_nonzero (a : Fp) : (TINY <= Zmod.to_Z a)%Z -> a <> Zmod.zero.
Proof. intros H ->. rewrite <- Fz_0, to_Z_Fz in H. vm_compute in H. by apply H. Qed.

(** The denominator of [x^2 = (y^2 - 1) / (d y^2 + 1)] is not zero. *)
Lemma denominator_nonzero (y : Fp) : Zmod.one + y * y * Fz D25519 <> Zmod.zero.
Proof.
  intros E. assert (Hy : y <> Zmod.zero) by (intros ->; apply one_nz; rewrite <- E; ring).
  apply (d_not_square (Zmod.mdiv (Fz I25519) y)).
  transitivity (Zmod.mdiv (Fz I25519 * Fz I25519) (y * y)); [field; exact Hy|]. rewrite root_of_minus_1.
  transitivity (Zmod.mdiv (y * y * Fz D25519) (y * y)); [|field; exact Hy]. f_equal.
  transitivity (Zmod.one + y * y * Fz D25519 - Zmod.one); [rewrite E; ring|ring].
Qed.

Lemma curve_square P : fst (xy P) * fst (xy P) * (Zmod.one + snd (xy P) * snd (xy P) * Fz D25519) = snd (xy P) * snd (xy P) - Zmod.one.
Proof.
  pose proof (xy_on P) as H. unfold on_ed, on_curve in H. revert H. destruct (xy P) as [x y]. cbn [fst snd]. intros H.
  transitivity (x * x + (Zmod.one + Fz D25519 * x * x * y * y) - Zmod.one); [ring|]. rewrite <- H. ring.
Qed.

(** Fermat in the field. *)
Lemma power_p_minus_1 n : Fz n <> Zmod.zero -> Fz (n ^ (P25519 - 1)) = Zmod.one.
Proof.
  intros Hn. rewrite <- Fz_1. apply Fz_eq. split. rewrite (Z.fermat_nz P25519 n prime_25519); [done|].
  intros E. apply Hn. rewrite <- Fz_0. apply Fz_eq. split. by rewrite E.
Qed.

Definition quarter : Z := (P25519 - 1) / 4.
Lemma quarter_times : (quarter * 2 * 2 = P25519 - 1)%Z.
Proof. reflexivity. Qed.
Lemma quarter_odd : (quarter = 2 * (2 ^ 252 - 3) + 1)%Z.
Proof. reflexivity. Qed.
Lemma quarter_pos : (0 <= quarter)%Z.
Proof. discriminate. Qed.

(** The root: [x] times a fourth root of one. *)
Lemma candidate_root x v : Fz x <> Zmod.zero -> Fz v <> Zmod.zero ->
  let s := Fz ((x * v ^ 4) ^ quarter) in
  Fz ((x ^ 2 * v ^ 8) ^ (2 ^ 252 - 3) * (x ^ 2 * v) * v ^ 3) = Fz x * s /\ (s * s = Zmod.one \/ s * s = - Zmod.one).
Proof.
  intros Hx Hv s. pose proof quarter_pos as Hq. split.
  - unfold s. rewrite <- Fz_mul. f_equal. rewrite quarter_odd, Z.pow_add_r, Z.pow_1_r, Z.pow_mul_r by lia.
    replace (x ^ 2 * v ^ 8)%Z with ((x * v ^ 4) ^ 2)%Z by ring. generalize (((x * v ^ 4) ^ 2) ^ (2 ^ 252 - 3))%Z. intros k. ring.
  - assert (Hn : Fz (x * v ^ 4) <> Zmod.zero).
    { replace (x * v ^ 4)%Z with (x * (v * v * (v * v)))%Z by ring. rewrite !Fz_mul. by repeat apply nonzero_product. }
    assert (E : (s * s) * (s * s) = Zmod.one).
    { unfold s. rewrite <- !Fz_mul, <- (power_p_minus_1 _ Hn), <- quarter_times. f_equal.
      rewrite !Z.pow_mul_r by lia. generalize ((x * v ^ 4) ^ quarter)%Z. intros k. ring. }
    destruct (field_int (s * s - Zmod.one) (s * s + Zmod.one)) as [H|H].
    + transitivity (s * s * (s * s) - Zmod.one); [ring|]. rewrite E. ring.
    + left. by apply Zmod.sub_eq_0.
    + right. transitivity (s * s + Zmod.one - Zmod.one); [ring|]. rewrite H. ring.
Qed.

(** The square root of a quotient, as [ge25519_unpackneg_vartime] computes it. *)
Definition quotient_root (num den : fe25519) : fe25519 :=
  let den2 := fe25519_square den in
  let den4 := fe25519_square den2 in
  let den6 := fe25519_mul den4 den2 in
  let t := fe25519_mul (fe25519_mul den6 num) den in
  fe25519_mul (fe25519_mul (fe25519_mul (fe25519_mul (fe25519_pow2523 t) num) den) den) den.

Lemma quotient_root_is num den x v : fe_is num (x * x * v) -> fe_is den v -> x <> Zmod.zero -> v <> Zmod.zero ->
  exists s, fe_is (quotient_root num den) (x * s) /\ (s * s = Zmod.one \/ s * s = - Zmod.one) /\
    (forall b, fe_is (quotient_root num den) b -> (TINY <= Zmod.to_Z b)%Z -> (val (quotient_root num den) < 2 ^ 255)%Z).
Proof.
  rewrite (Fz_surjective x), (Fz_surjective v). set (n := Zmod.to_Z x). set (m := Zmod.to_Z v). intros Hn Hd Hx Hv.
  destruct (candidate_root n m Hx Hv) as [E H]. eexists. rewrite <- E. unfold quotient_root. cbv zeta.
  assert (Ht : fe_is (fe25519_mul (fe25519_mul (fe25519_mul (fe25519_square (fe25519_square den)) (fe25519_square den)) num) den) (Fz (n ^ 2 * m ^ 8))).
  { eapply is_eq; [stands|]. replace (n ^ 2 * m ^ 8)%Z with (m * m * (m * m) * (m * m) * (n * n * m) * m)%Z by ring. by rewrite !Fz_mul. }
  match type of Ht with fe_is ?t _ => revert Ht; generalize t end. intros t Ht.
  assert (Hp : fe_is (fe25519_pow2523 t) (Fz ((n ^ 2 * m ^ 8) ^ (2 ^ 252 - 3)))).
  { apply is_stands. eapply stands_power; [by apply is_stands|]. apply fe_pow2523_power, Ht. }
  revert Hp. generalize ((n ^ 2 * m ^ 8) ^ (2 ^ 252 - 3))%Z. intros k Hp. split; [|split; [exact H|]].
  2: { intros b. apply product_regular; [|exact (proj1 Hd)].
    exact (proj1 (is_mul _ _ _ _ (is_mul _ _ _ _ (is_mul _ _ _ _ Hp Hn) Hd) Hd)). }
  eapply is_eq; [stands|].
  replace (k * (n ^ 2 * m) * m ^ 3)%Z with (k * (n * n * m) * m * m * m)%Z by ring. by rewrite !Fz_mul.
Qed.

Lemma iseq_field x y a b : fe_is x a -> fe_is y b -> (val x < 2 ^ 255)%Z -> (val y < 2 ^ 255)%Z ->
  fe25519_iseq_vartime x y = (Zmod.to_Z a =? Zmod.to_Z b)%Z.
Proof.
  intros Hx Hy Rx Ry. destruct (fe25519_canonical x y (proj1 Hx) (proj1 Hy) Rx Ry) as (_ & _ & -> & _).
  by rewrite (is_val _ _ Hx), (is_val _ _ Hy).
Qed.

Lemma is_sqrtm1 : fe_is ge25519_sqrtm1 (Fz I25519).
Proof. apply is_stands. split; [split; [done|small_digits|done]|]. split. vm_compute. reflexivity. Qed.

Lemma opp_differs (u : Fp) : u <> Zmod.zero -> - u <> u.
Proof.
  intros Hu E. destruct (field_int (Fz 2) u) as [H|H]; [|by apply two_nonzero|done].
  change 2%Z with (1 + 1)%Z. rewrite Fz_add, Fz_1. transitivity (u - - u); [ring|]. rewrite E. ring.
Qed.

(** What the check of the root leaves: a root up to its sign. *)
Lemma checked_root x num den a s u v : fe_is x (a * s) -> s * s = Zmod.one \/ s * s = - Zmod.one ->
  (forall b, fe_is x b -> (TINY <= Zmod.to_Z b)%Z -> (val x < 2 ^ 255)%Z) ->
  fe_is num u -> (val num < 2 ^ 255)%Z -> (TINY <= Zmod.to_Z u <= P25519 - TINY)%Z -> fe_is den v -> a * a * v = u ->
  (TINY <= Zmod.to_Z a <= P25519 - TINY)%Z ->
  let chk x := fe25519_mul (fe25519_square x) den in
  let x' := if negb (fe25519_iseq_vartime (chk x) num) then fe25519_mul x ge25519_sqrtm1 else x in
  fe25519_iseq_vartime (chk x') num = true /\ (val x' < 2 ^ 255)%Z /\ (fe_is x' a \/ fe_is x' (- a)).
Proof.
  intros Hx Hs Hreg Hnum Rnum Hu Hden E Ha chk. assert (Nu : u <> Zmod.zero) by (apply to_Z_nonzero; lia).
  assert (Na : a <> Zmod.zero) by (apply to_Z_nonzero; lia).
  assert (Ca : forall y c, fe_is y (a * c) -> fe_is (chk y) (c * c * u)).
  { intros y c Hy. eapply is_eq; [unfold chk; stands|]. rewrite <- E. ring. }
  assert (Cr : forall y c, fe_is (chk y) c -> (TINY <= Zmod.to_Z c)%Z -> fe_is y (a * s) \/ fe_is y (a * (s * Fz I25519)) -> fe25519_iseq_vartime (chk y) num = (Zmod.to_Z c =? Zmod.to_Z u)%Z).
  { intros y c Hc Tc Hy. apply (iseq_field _ _ _ _ Hc Hnum); [|exact Rnum]. unfold chk in *. eapply product_regular; [|exact (proj1 Hden)|exact Hc|exact Tc].
    destruct Hy as [Hy|Hy]; exact (proj1 (is_square _ _ Hy)). }
  assert (Sgn : forall y c, fe_is y (a * c) -> c * c = Zmod.one -> fe_is y a \/ fe_is y (- a)).
  { intros y c Hy Hc. destruct (field_int (c - Zmod.one) (c + Zmod.one)) as [H|H].
    - transitivity (c * c - Zmod.one); [ring|]. rewrite Hc. ring.
    - left. eapply is_eq; [exact Hy|]. apply Zmod.sub_eq_0 in H. rewrite H. ring.
    - right. eapply is_eq; [exact Hy|]. transitivity (a * (c + Zmod.one) - a); [ring|]. rewrite H. ring. }
  assert (Reg : forall y, (forall b, fe_is y b -> (TINY <= Zmod.to_Z b)%Z -> (val y < 2 ^ 255)%Z) -> fe_is y a \/ fe_is y (- a) -> (val y < 2 ^ 255)%Z).
  { intros y Hy [H|H]; apply (Hy _ H); [lia|]. rewrite to_Z_opp_field by exact Na. lia. }
  destruct Hs as [Hs|Hs].
  - assert (H1 : fe_is (chk x) u) by (eapply is_eq; [exact (Ca _ _ Hx)|]; rewrite Hs; ring).
    rewrite (Cr x u H1 (proj1 Hu) (or_introl Hx)), Z.eqb_refl. cbn [negb]. cbv zeta.
    rewrite (Cr x u H1 (proj1 Hu) (or_introl Hx)), Z.eqb_refl. split; [reflexivity|]. pose proof (Sgn _ _ Hx Hs) as H. split; [by apply Reg|exact H].
  - assert (H1 : fe_is (chk x) (- u)) by (eapply is_eq; [exact (Ca _ _ Hx)|]; rewrite Hs; ring).
    assert (To : (TINY <= Zmod.to_Z (- u))%Z) by (rewrite to_Z_opp_field by exact Nu; lia).
    rewrite (Cr x (- u) H1 To (or_introl Hx)). destruct (Z.eqb_spec (Zmod.to_Z (- u)) (Zmod.to_Z u)) as [E1|_].
    { exfalso. apply (opp_differs u Nu). by rewrite (Fz_surjective (- u)), E1, <- Fz_surjective. }
    cbn [negb]. cbv zeta. assert (H2 : fe_is (fe25519_mul x ge25519_sqrtm1) (a * (s * Fz I25519))).
    { eapply is_eq; [exact (is_mul _ _ _ _ Hx is_sqrtm1)|]. ring. }
    assert (Hc : s * Fz I25519 * (s * Fz I25519) = Zmod.one).
    { transitivity (s * s * (Fz I25519 * Fz I25519)); [ring|]. rewrite Hs, root_of_minus_1. ring. }
    assert (H3 : fe_is (chk (fe25519_mul x ge25519_sqrtm1)) u) by (eapply is_eq; [exact (Ca _ _ H2)|]; rewrite Hc; ring).
    rewrite (Cr _ u H3 (proj1 Hu) (or_intror H2)), Z.eqb_refl. split; [reflexivity|]. pose proof (Sgn _ _ H2 Hc) as H.
    split; [|exact H]. apply Reg; [|exact H]. intros b Hb Tb. exact (product_regular _ _ _ (proj1 Hx) (proj1 is_sqrtm1) Hb Tb).
Qed.

Lemma encode_unpack P : element 127 (fe25519_unpack (encode P)) /\ val (fe25519_unpack (encode P)) = Y P /\
  Z.shiftr (byte_val (nth 31 (encode P) x00)) 7 = (X P mod 2)%Z.
Proof.
  pose proof (Y_range P) as Ry. pose proof (Z.mod_pos_bound (X P) 2 eq_refl) as Rx.
  assert (L : length (encode P) = 32%nat) by apply length_bytes_le.
  assert (V : le_val (encode P) = (Y P + 2 ^ 255 * (X P mod 2))%Z).
  { unfold encode. rewrite le_val_bytes_le. apply Z.mod_small. change (256 ^ Z.of_nat 32)%Z with (2 ^ 255 * 2)%Z. unfold P25519 in Ry. lia. }
  destruct (fe_unpack_val (encode P) L) as [He Hv]. split; [exact He|split].
  - rewrite Hv, V. symmetry. apply (Z.mod_unique _ _ (X P mod 2)); unfold P25519 in Ry; lia.
  - destruct (le_val_last (encode P) L) as [E Rl]. rewrite V in E.
    rewrite Z.shiftr_div_pow2 by lia. symmetry. apply (Z.div_unique _ _ _ (byte_val (nth 31 (encode P) x00) - 2 ^ 7 * (X P mod 2))); [|ring].
    unfold P25519 in Ry. left. lia.
Qed.

Lemma is_ecd : fe_is ge25519_ecd (Fz D25519).
Proof. apply is_stands. split; [split; [done|small_digits|done]|]. split. vm_compute. reflexivity. Qed.

(** [ge25519_unpackneg_vartime] in three parts. *)
Lemma unpackneg_parts p :
  ge25519_unpackneg_vartime p =
  (let par := Z.shiftr (byte_val (nth 31 p x00)) 7 in
  let y := fe25519_unpack p in
  let num := fe25519_sub (fe25519_square y) fe25519_setone in
  let den := fe25519_add fe25519_setone (fe25519_mul (fe25519_square y) ge25519_ecd) in
  let chk x := fe25519_mul (fe25519_square x) den in
  let x := quotient_root num den in
  let x' := if negb (fe25519_iseq_vartime (chk x) num) then fe25519_mul x ge25519_sqrtm1 else x in
  if negb (fe25519_iseq_vartime (chk x') num) then None
  else
    let x'' := if negb (fe25519_getparity x' =? 1 - par)%Z then fe25519_neg x' else x' in
    Some {| gx := x''; gy := y; gz := fe25519_setone; gt := fe25519_mul x'' y |}).
Proof.
  cbv delta [ge25519_unpackneg_vartime quotient_root]. cbv beta.
  generalize fe25519_mul fe25519_square fe25519_add fe25519_sub fe25519_neg fe25519_pow2523 fe25519_iseq_vartime fe25519_getparity.
  reflexivity.
Qed.

(** The wanted sign. *)
Lemma chosen_sign x P : (val x < 2 ^ 255)%Z -> fst (xy P) <> Zmod.zero -> fe_is x (fst (xy P)) \/ fe_is x (- fst (xy P)) ->
  fe_is (if negb (fe25519_getparity x =? 1 - X P mod 2)%Z then fe25519_neg x else x) (- fst (xy P)).
Proof.
  intros Rx Hn H. pose proof (Z.mod_pos_bound (X P) 2 eq_refl) as Rp. destruct H as [H|H].
  - destruct (fe25519_canonical x x (proj1 H) (proj1 H) Rx Rx) as (_ & _ & _ & ->). rewrite (is_val _ _ H). fold (X P).
    destruct (Z.eqb_spec (X P mod 2) (1 - X P mod 2)) as [E|_]; [lia|]. by apply is_neg.
  - destruct (fe25519_canonical x x (proj1 H) (proj1 H) Rx Rx) as (_ & _ & _ & ->). rewrite (is_val _ _ H).
    rewrite to_Z_opp_field by exact Hn. fold (X P). replace ((P25519 - X P) mod 2)%Z with (1 - X P mod 2)%Z; [by rewrite Z.eqb_refl|].
    unfold P25519. Z.to_euclidean_division_equations. lia.
Qed.

(** [ge25519_unpackneg_vartime] reads the encoding of an ordinary point as its negative. *)
Lemma unpackneg_rep P : ordinary P -> exists g, ge25519_unpackneg_vartime (encode P) = Some g /\ rep3 g (- P)%G.
Proof.
  intros [HX HY HN]. destruct (encode_unpack P) as (He & Hy & Hpar).
  assert (Iy : fe_is (fe25519_unpack (encode P)) (snd (xy P))) by (split; [exact (element_weaken 127 128 _ ltac:(lia) He)|rewrite Hy; apply Fz_Y]).
  rewrite unpackneg_parts, Hpar. generalize dependent (fe25519_unpack (encode P)). clear Hpar. intros y _ _ Iy.
  assert (Nx : fst (xy P) <> Zmod.zero) by (apply to_Z_nonzero; exact (proj1 HX)). assert (Nv := denominator_nonzero (snd (xy P))).
  assert (Hnum := is_sub _ _ _ _ (is_square _ _ Iy) is_one).
  assert (Rnum := proj2 (fe_val_range 127 _ (proj1 (fe_sub_val _ _ (proj1 (is_square _ _ Iy)) (proj1 is_one))))).
  assert (Hden := is_add _ _ _ _ is_one (is_mul _ _ _ _ (is_square _ _ Iy) is_ecd)). cbv zeta.
  generalize dependent (fe25519_sub (fe25519_square y) fe25519_setone). intros num Hnum Rnum.
  generalize dependent (fe25519_add fe25519_setone (fe25519_mul (fe25519_square y) ge25519_ecd)). intros den Hden.
  destruct (quotient_root_is num den _ _ (is_eq _ _ _ Hnum (eq_sym (curve_square P))) Hden Nx Nv) as (s & Hs & Hs2 & Hreg).
  destruct (checked_root _ num den _ s _ _ Hs Hs2 Hreg Hnum Rnum HN Hden (curve_square P) HX) as (C1 & C2 & C3).
  revert C1 C2 C3. cbv beta zeta.
  generalize (if negb (fe25519_iseq_vartime (fe25519_mul (fe25519_square (quotient_root num den)) den) num)
    then fe25519_mul (quotient_root num den) ge25519_sqrtm1 else quotient_root num den). intros x -> Rx Hx. cbn [negb].
  eexists. split; [exact eq_refl|]. pose proof (chosen_sign x P Rx Nx Hx) as Hc. revert Hc.
  assert (H : forall x', fe_is x' (- fst (xy P)) -> rep3 {| gx := x'; gy := y; gz := fe25519_setone; gt := fe25519_mul x' y |} (- P)%G).
  { clear -Iy. intros x' Hc. exists Zmod.one. split; [exact one_nz|]. rewrite xy_opp. cbn [fst snd]. coords. split_and!; (eapply is_eq; [stands|ring]). }
  destruct (negb _); exact (H _).
Qed.

(** ** Points given by numbers *)

#[local] Open Scope Z_scope.

Lemma small_multiple k : (k < 5)%nat -> num_point (smul (Z.of_nat k) base) (entry k).
Proof. intros Hk. exact (proj1 (row_rep 0 base ltac:(lia) (table_rep 0 ltac:(lia))) k Hk). Qed.

Definition ordinary_num (n : Z * Z) : bool :=
  let x := fst n mod P25519 in let y := snd n mod P25519 in let u := (y * y - 1) mod P25519 in
  (TINY <=? x) && (x <=? P25519 - TINY) && (TINY <=? y) && (TINY <=? u) && (u <=? P25519 - TINY).
Lemma ordinary_num_spec P n : num_point P n -> ordinary_num n = true -> ordinary P.
Proof.
  intros HP H. unfold ordinary_num in H. cbv zeta in H. rewrite !andb_true_iff, !Z.leb_le in H. destruct H as [[[[H1 H2] H3] H4] H5].
  assert (Ex : X P = fst n mod P25519) by (unfold X; rewrite HP; apply to_Z_Fz).
  assert (Ey : Y P = snd n mod P25519) by (unfold Y; rewrite HP; apply to_Z_Fz).
  assert (En : N P = (snd n mod P25519 * (snd n mod P25519) - 1) mod P25519).
  { unfold N. rewrite <- Fz_Y, Ey, <- Fz_mul, <- Fz_1, <- Fz_sub. apply to_Z_Fz. }
  by split; rewrite ?Ex, ?Ey, ?En.
Qed.

(** ** Properties *)

(** Claim C22.  A point is written as RFC 8032 says, 255 bits of [y] and the parity of [x], and read
    back as its negative: the square root is found, with the sign of the encoding.  Assumed: no
    coordinate, and not [y^2 - 1], is within 2^18 of zero modulo 2^255 - 19, where a product may
    not be canonical. *)
Theorem ge25519_reads_back g P (Hg : rep3 g P) (HP : ordinary P) :
  ge25519_pack g = bytes_le 32 (Y P + 2 ^ 255 * (X P mod 2)) /\
  exists g', ge25519_unpackneg_vartime (ge25519_pack g) = Some g' /\ rep3 g' (- P)%G.
Proof.
  destruct HP as [HX HY HN] eqn:E. rewrite (pack_rep g P Hg (proj1 HX) HY). split; [reflexivity|]. exact (unpackneg_rep P HP).
Qed.

Lemma base_ordinary : ordinary base.
Proof. apply (ordinary_num_spec _ (entry 1)); [exact (small_multiple 1 ltac:(lia))|vm_compute; reflexivity]. Qed.

Lemma ge25519_reads_back_witness : ge25519_pack ge25519_base = bytes_le 32 (Y base + 2 ^ 255 * (X base mod 2)) /\
  exists g', ge25519_unpackneg_vartime (ge25519_pack ge25519_base) = Some g' /\ rep3 g' (- base)%G.
Proof. exact (ge25519_reads_back ge25519_base base base_rep base_ordinary). Defined.
