(* ===== verification/EdOrder.v ===== *)
(** The order of the base point of Ed25519: its multiple by [ORDER] is the neutral point. *)

From Stdlib Require Import Zmod.
From S2P Require Import Prelude Curve25519 Curve25519Limbs Fe25519 Sc25519 Sc25519Thms Primes Abelian Edwards EdGroup.
From S2P Require Import Ge25519Base Ge25519 Ge25519Thms.

(** ** Sums of numbers *)

(** Coordinates with a common denominator, and the product of the first two over it. *)
Definition num4 : Type := Z * Z * Z * Z.
Definition num_rep (P : ed) (r : num4) : Prop := let '(X, Y, Z, T) := r in
  exists z, z <> Zmod.zero /\ Fz X = Zmod.mul (fst (xy P)) z /\ Fz Y = Zmod.mul (snd (xy P)) z /\ Fz Z = z /\
    Fz T = Zmod.mul (Zmod.mul (fst (xy P)) (snd (xy P))) z.

Definition mix_num (r : num4) (q : Z * Z) : num4 :=
  let '(X, Y, Z, T) := r in
  let a := times_num (Y - X) (snd q - fst q) in
  let b := times_num (Y + X) (snd q + fst q) in
  let c := times_num (times_num T (times_num (fst q) (snd q))) (2 * D25519) in
  let e := b - a in
  let f := Z + Z - c in
  let g := Z + Z + c in
  let h := b + a in
  (times_num e f, times_num h g, times_num g f, times_num e h).

Lemma Fz_twice a : Fz (2 * a) = Zmod.mul (Zmod.add Zmod.one Zmod.one) (Fz a).
Proof. rewrite Fz_mul. change 2 with (1 + 1). by rewrite Fz_add, Fz_1. Qed.

Lemma mix_num_rep P Q r q : num_rep P r -> num_point Q q -> num_rep (P + Q)%G (mix_num r q).
Proof.
  destruct r as [[[X Y] Z] T], q as [x y]. unfold num_rep, num_point, mix_num. cbn [fst snd].
  intros (z & Hz & HX & HY & HZ & HT) HQ. destruct (mixed_add P Q z Hz) as (Hg & Hf & He & Hh). cbv zeta in *.
  rewrite HQ in Hg, Hf, He, Hh. cbn [fst snd] in *.
  rewrite ?Fz_times_num, ?Fz_add, ?Fz_sub, ?Fz_add, ?Fz_times_num, ?Fz_twice, ?Fz_times_num, ?Fz_add, ?Fz_sub, HX, HY, HZ, HT.
  eexists. split; [apply nonzero_product; [exact Hg|exact Hf]|]. rewrite !(Zmod.mul_assoc (fst (xy (P + Q)%G))), <- He.
  split_and!; [ring| |ring|].
  - rewrite (Zmod.mul_comm (Zmod.add _ _) (Zmod.sub _ _)), (Zmod.mul_assoc (snd _)), <- Hh. ring.
  - match goal with |- _ = Zmod.mul (Zmod.mul ?X ?Y) (Zmod.mul ?g ?f) => transitivity (Zmod.mul (Zmod.mul X g) (Zmod.mul Y f)); [|ring] end.
    rewrite <- He, <- Hh. ring.
Qed.

(** ** The order *)

(** Digits -4 to 3 in base 8. *)
Fixpoint digits8 (n : nat) (z : Z) : list Z :=
  match n with
  | O => []
  | S n => let d := (z + 4) mod 8 - 4 in d :: digits8 n ((z - d) / 8)
  end.

Definition row_num (i : nat) (d : Z) : Z * Z :=
  let '(x, y) := entry (5 * i + Z.to_nat (Z.abs d)) in (if d <? 0 then - x else x, y).
Fixpoint sum_rows (i : nat) (ds : list Z) (r : num4) : num4 :=
  match ds with
  | [] => r
  | d :: ds => sum_rows (S i) ds (if d =? 0 then r else mix_num r (row_num i d))
  end.

Lemma row_num_rep i d : (i < 85)%nat -> -4 <= d < 4 -> num_point (smul (d * 8 ^ Z.of_nat i) base) (row_num i d).
Proof.
  intros Hi Hd. set (k := Z.to_nat (Z.abs d)). assert (Hk : (k < 5)%nat) by (unfold k; lia).
  destruct (row_rep i _ Hi (table_rep i Hi)) as [H _]. specialize (H k Hk). rewrite <- smul_mul in H.
  unfold row_num. fold k. destruct (entry (5 * i + k)) as [x y]. unfold num_point in *. cbn [fst snd] in *. destruct (Z.ltb_spec d 0).
  - replace (d * 8 ^ Z.of_nat i) with (- (Z.of_nat k * 8 ^ Z.of_nat i)) by (unfold k; lia).
    by rewrite smul_opp, xy_opp, H, Fz_opp.
  - by replace d with (Z.of_nat k) by (unfold k; lia).
Qed.

Lemma sum_rows_rep ds : forall i R r, (i + length ds <= 85)%nat -> Forall (fun d => -4 <= d < 4) ds -> num_rep R r ->
  num_rep (R + smul (8 ^ Z.of_nat i * val_base 8 ds) base)%G (sum_rows i ds r).
Proof.
  induction ds as [|d ds IH]; intros i R r Hl Hd Hr; cbn [length sum_rows val_base] in *.
  - by rewrite Z.mul_0_r, smul_0, gadd_zero.
  - apply Forall_cons in Hd as [Hd Hds].
    replace (8 ^ Z.of_nat i * (d + 8 * val_base 8 ds)) with (d * 8 ^ Z.of_nat i + 8 ^ Z.of_nat (S i) * val_base 8 ds)
      by (rewrite Nat2Z.inj_succ, Z.pow_succ_r by lia; ring).
    rewrite smul_add, gadd_assoc. apply IH; [lia|exact Hds|]. destruct (Z.eqb_spec d 0) as [->|_].
    + by rewrite Z.mul_0_l, smul_0, gadd_zero.
    + apply mix_num_rep; [exact Hr|]. apply row_num_rep; [lia|exact Hd].
Qed.

Definition neutral_num (r : num4) : bool := let '(X, Y, Z, _) := r in same_class X 0 && same_class Y Z.
Lemma neutral_num_rep P r : num_rep P r -> neutral_num r = true -> P = gzero.
Proof.
  destruct r as [[[X Y] Z] T]. intros (z & Hz & HX & HY & HZ & _) H. apply andb_true_iff in H as [Ex%same_class_spec Ey%same_class_spec].
  apply ed_eq. rewrite xy_zero, (surjective_pairing (xy P)). f_equal.
  - apply Zmod.mul_cancel_r_prime with z; [exact prime_P|exact Hz|]. rewrite <- HX, Ex, Fz_0. ring.
  - apply Zmod.mul_cancel_r_prime with z; [exact prime_P|exact Hz|]. rewrite <- HY, Ey, HZ. ring.
Qed.

Lemma order_digits : val_base 8 (digits8 85 ORDER) = ORDER.
Proof. vm_compute. reflexivity. Qed.
Lemma digits8_range n : forall z, Forall (fun d => -4 <= d < 4) (digits8 n z).
Proof.
  induction n as [|n IH]; intros z; constructor; [|apply IH]. pose proof (Z.mod_pos_bound (z + 4) 8 eq_refl). lia.
Qed.
Lemma length_digits8 n : forall z, length (digits8 n z) = n.
Proof. induction n as [|n IH]; intros z; cbn; [done|]. by rewrite IH. Qed.
Lemma order_sum : neutral_num (sum_rows 0 (digits8 85 ORDER) (0, 1, 1, 0)) = true.
Proof. vm_compute. reflexivity. Qed.

Lemma base_order : smul ORDER base = gzero.
Proof.
  refine (neutral_num_rep _ _ _ order_sum). rewrite <- (gzero_add (smul ORDER base)), <- order_digits at 1.
  rewrite <- (Z.mul_1_l (val_base 8 _)). apply (sum_rows_rep (digits8 85 ORDER) 0); [by rewrite length_digits8|apply digits8_range|].
  exists Zmod.one. split; [exact one_nz|]. rewrite xy_zero. cbn [fst snd]. rewrite Fz_0, Fz_1. split_and!; ring.
Qed.

(** Multiples of the base point depend on the number modulo its order. *)
Lemma smul_base_mod n : smul (n mod ORDER) base = smul n base.
Proof.
  rewrite (Z_div_mod_eq_full n ORDER) at 2. rewrite Z.mul_comm, smul_add, smul_mul, base_order.
  by rewrite smul_gzero, gzero_add.
Qed.
