(* ===== verification/ChaCha.v ===== *)
(** chacha.c: the stream cipher, against its definition as the exclusive or with a key
    stream of numbered blocks. *)

From S2P Require Import Prelude Wire Poly1305.

(** ** The code *)

(** The sixteen words of a [chacha_ctx]. *)
Abbreviation words := (list Z).

Definition word (x : words) (i : nat) : Z := nth i x 0.
Definition set_word (i : nat) (v : Z) (x : words) : words := <[i := v]> x.

Definition ROTL32 (v n : Z) : Z := Z.lor (u32 (Z.shiftl v n)) (Z.shiftr v (32 - n)).
Definition ROTATE (v c : Z) : Z := ROTL32 v c.
Definition XOR (v w : Z) : Z := Z.lxor v w.
Definition PLUS (v w : Z) : Z := u32 (v + w).
Definition PLUSONE (v : Z) : Z := PLUS v 1.

Definition U8TO32_LITTLE (p : bytes) (o : Z) : Z := U8TO32_LE p o.
Definition U32TO8_LITTLE (v : Z) : bytes := U32TO8_LE v.

Definition QUARTERROUND (a b c d : nat) (x : words) : words :=
  let x := set_word a (PLUS (word x a) (word x b)) x in
  let x := set_word d (ROTATE (XOR (word x d) (word x a)) 16) x in
  let x := set_word c (PLUS (word x c) (word x d)) x in
  let x := set_word b (ROTATE (XOR (word x b) (word x c)) 12) x in
  let x := set_word a (PLUS (word x a) (word x b)) x in
  let x := set_word d (ROTATE (XOR (word x d) (word x a)) 8) x in
  let x := set_word c (PLUS (word x c) (word x d)) x in
  set_word b (ROTATE (XOR (word x b) (word x c)) 7) x.

Definition sigma : bytes := lit "expand 32-byte k".
Definition tau : bytes := lit "expand 16-byte k".

Definition chacha_keysetup (x : words) (k : bytes) (kbits : Z) : words :=
  let x := set_word 4 (U8TO32_LITTLE k 0) x in
  let x := set_word 5 (U8TO32_LITTLE k 4) x in
  let x := set_word 6 (U8TO32_LITTLE k 8) x in
  let x := set_word 7 (U8TO32_LITTLE k 12) x in
  let '(k, constants) := if kbits =? 256 then (drop 16 k, sigma) else (k, tau) in
  let x := set_word 8 (U8TO32_LITTLE k 0) x in
  let x := set_word 9 (U8TO32_LITTLE k 4) x in
  let x := set_word 10 (U8TO32_LITTLE k 8) x in
  let x := set_word 11 (U8TO32_LITTLE k 12) x in
  let x := set_word 0 (U8TO32_LITTLE constants 0) x in
  let x := set_word 1 (U8TO32_LITTLE constants 4) x in
  let x := set_word 2 (U8TO32_LITTLE constants 8) x in
  set_word 3 (U8TO32_LITTLE constants 12) x.

Definition chacha_ivsetup (x : words) (iv : bytes) (counter : option bytes) : words :=
  let x := set_word 12 match counter with None => 0 | Some c => U8TO32_LITTLE c 0 end x in
  let x := set_word 13 match counter with None => 0 | Some c => U8TO32_LITTLE c 4 end x in
  let x := set_word 14 (U8TO32_LITTLE iv 0) x in
  set_word 15 (U8TO32_LITTLE iv 4) x.

(** Two rounds: the columns, then the diagonals. *)
Definition double_round (x : words) : words :=
  let x := QUARTERROUND 0 4 8 12 x in
  let x := QUARTERROUND 1 5 9 13 x in
  let x := QUARTERROUND 2 6 10 14 x in
  let x := QUARTERROUND 3 7 11 15 x in
  let x := QUARTERROUND 0 5 10 15 x in
  let x := QUARTERROUND 1 6 11 12 x in
  let x := QUARTERROUND 2 7 8 13 x in
  QUARTERROUND 3 4 9 14 x.

(** [for (i = 20; i > 0; i -= 2)], then the addition of the input. *)
Definition block (j : words) : words := zip_with PLUS (Nat.iter 10 double_round j) j.

(** A block of the message, as words, combined with the block function. *)
Definition xor_block (x : words) (m : bytes) : bytes :=
  concat (map (fun i => U32TO8_LITTLE (XOR (word x i) (U8TO32_LITTLE m (4 * Z.of_nat i)))) (seq 0 16)).

Definition next_counter (j : words) : words :=
  let j := set_word 12 (PLUSONE (word j 12)) j in
  if word j 12 =? 0 then set_word 13 (PLUSONE (word j 13)) j else j.

(** The loop.  [tmp] is what the local array holds before the last bytes are copied into
    it. *)
Fixpoint encrypt_loop (fuel : nat) (tmp : bytes) (j : words) (m : bytes) : bytes * words :=
  match fuel with
  | O => ([], j)
  | S fuel =>
    let n := zlen m in
    let src := if n <? 64 then blit 0 m tmp else m in
    let c := xor_block (block j) src in
    let j := next_counter j in
    if n <=? 64 then (if n <? 64 then take (length m) c else c, j)
    else let '(rest, j) := encrypt_loop fuel tmp j (drop 64 m) in (c ++ rest, j)
  end.

(** [chacha_encrypt_bytes] of the [zlen m] bytes at [m]: the output and the context. *)
Definition chacha_encrypt_bytes (tmp : bytes) (x : words) (m : bytes) : bytes * words :=
  if zlen m =? 0 then ([], x)
  else
  let '(c, j) := encrypt_loop (S (length m)) tmp x m in
  (c, set_word 13 (word j 13) (set_word 12 (word j 12) x)).

(** The block function of RFC 8439, section 2.3.2 (its words 13 and 14 are the second word
    of the counter and the first of the nonce here). *)
Example rfc_block :
  let k := map (fun i => byte_of_Z (Z.of_nat i)) (seq 0 32) in
  let x := chacha_keysetup (replicate 16 0) k 256 in
  let x := set_word 15 0 (set_word 14 0x4a000000 (set_word 13 0x09000000 (set_word 12 1 x))) in
  take 4 (block x) = [0xe4e7f110; 0x15593bd1; 0x1fdd0f50; 0xc47120a3].
Proof. vm_compute. reflexivity. Qed.

(** ** The definition *)

Definition byte_xor (a b : byte) : byte := byte_of_Z (Z.lxor (byte_val a) (byte_val b)).

(** The 64-bit block counter of a context. *)
Definition counter (x : words) : Z := word x 12 + 2 ^ 32 * word x 13.
Definition set_counter (c : Z) (x : words) : words :=
  set_word 13 (u32 (Z.shiftr c 32)) (set_word 12 (u32 c) x).

(** The 64 bytes of block number [c]. *)
Definition stream_block (x : words) (c : Z) : bytes :=
  concat (map U32TO8_LITTLE (block (set_counter c x))).

Fixpoint stream_blocks (n : nat) (x : words) (c : Z) : bytes :=
  match n with O => [] | S n => stream_block x c ++ stream_blocks n x (c + 1) end.

(** The key stream from the counter on, [n] bytes of it. *)
Definition keystream (x : words) (n : nat) : bytes :=
  take n (stream_blocks (n / 64 + 1) x (counter x)).

Definition xor_bytes (m k : bytes) : bytes := zip_with byte_xor m k.

(** ** Words *)

Definition wf (x : words) : Prop := length x = 16%nat /\ Forall (fun w => 0 <= w < 4294967296) x.

Lemma length_set_word i v x : length (set_word i v x) = length x.
Proof. apply length_insert. Qed.

Lemma length_QUARTERROUND a b c d x : length (QUARTERROUND a b c d x) = length x.
Proof. unfold QUARTERROUND. by rewrite !length_set_word. Qed.

Lemma length_rounds n x : length (Nat.iter n double_round x) = length x.
Proof.
  induction n as [|n IH]; [done|]. cbn [Nat.iter nat_rect]. unfold double_round at 1.
  by rewrite !length_QUARTERROUND.
Qed.

Lemma wf_block j : length j = 16%nat -> wf (block j).
Proof.
  intros H. unfold block. split; [rewrite length_zip_with, length_rounds; lia|].
  apply Forall_lookup. intros i w Hw. apply lookup_zip_with_Some in Hw as (a & b & -> & _).
  apply u32_range.
Qed.

Lemma word_set_eq i v x : (i < length x)%nat -> word (set_word i v x) i = v.
Proof.
  intros H. unfold word, set_word. by rewrite nth_lookup, list_lookup_insert_eq.
Qed.

Lemma word_set_ne i k v x : i <> k -> word (set_word k v x) i = word x i.
Proof. intros H. unfold word, set_word. by rewrite !nth_lookup, list_lookup_insert_ne. Qed.

Lemma word_range x i : wf x -> 0 <= word x i < 4294967296.
Proof.
  intros [_ F]. unfold word. destruct (Nat.lt_ge_cases i (length x)).
  - rewrite Forall_forall in F. apply F, list_elem_of_In, nth_In. done.
  - rewrite nth_overflow by done. lia.
Qed.

Lemma wf_set_word i v x : wf x -> 0 <= v < 4294967296 -> wf (set_word i v x).
Proof.
  intros [L F] Hv. split; [by rewrite length_set_word|]. by apply Forall_insert.
Qed.

Lemma set_word_same i x : (i < length x)%nat -> set_word i (word x i) x = x.
Proof.
  intros H. apply list_insert_id. unfold word. destruct (lookup_lt_is_Some_2 x i H) as [v E].
  by rewrite (nth_lookup_Some _ _ _ _ E).
Qed.

Lemma counter_range x : wf x -> 0 <= counter x < 2 ^ 64.
Proof.
  intros W. unfold counter. pose proof (word_range x 12 W). pose proof (word_range x 13 W). lia.
Qed.

Lemma set_counter_same x : wf x -> set_counter (counter x) x = x.
Proof.
  intros W. unfold set_counter, counter.
  pose proof (word_range x 12 W). pose proof (word_range x 13 W). destruct W as [L _].
  assert (E1 : u32 (word x 12 + 2 ^ 32 * word x 13) = word x 12).
  { unfold u32, wrap. symmetry. apply Z.mod_unique_pos with (word x 13); lia. }
  assert (E2 : Z.shiftr (word x 12 + 2 ^ 32 * word x 13) 32 = word x 13).
  { rewrite Z.shiftr_div_pow2 by lia. symmetry. apply Z.div_unique_pos with (word x 12); lia. }
  rewrite E1, E2, u32_small, !set_word_same; try done; try lia; rewrite ?set_word_same; lia.
Qed.

Lemma wf_set_counter c x : wf x -> wf (set_counter c x).
Proof. intros W. apply wf_set_word; [apply wf_set_word; [done|]|]; apply u32_range. Qed.

(** The two words count as one number of 64 bits. *)
Lemma next_counter_set c x : wf x -> 0 <= c -> next_counter (set_counter c x) = set_counter (c + 1) x.
Proof.
  intros [L _] Hc. unfold next_counter, set_counter, PLUSONE, PLUS.
  set (y := set_word 12 (u32 c) x). set (z := set_word 13 (u32 (Z.shiftr c 32)) y).
  assert (Ly : length y = 16%nat) by (unfold y; by rewrite length_set_word).
  assert (Lz : length z = 16%nat) by (unfold z; by rewrite length_set_word).
  assert (E12 : word z 12 = u32 c).
  { unfold z. rewrite word_set_ne by lia. unfold y. rewrite word_set_eq by lia. done. }
  assert (E13 : word z 13 = u32 (Z.shiftr c 32)) by (unfold z; by rewrite word_set_eq by lia).
  rewrite E12, word_set_eq, (word_set_ne 13 12), E13 by lia.
  assert (A : u32 (u32 c + 1) = u32 (c + 1)) by (unfold u32, wrap; by rewrite Zplus_mod_idemp_l).
  assert (B : u32 (u32 (Z.shiftr c 32) + 1) = u32 (Z.shiftr c 32 + 1))
    by (unfold u32, wrap; by rewrite Zplus_mod_idemp_l).
  rewrite A. pose proof (u32_range c) as R. unfold u32, wrap in R.
  pose proof (Z.div_mod c (2 ^ 32) ltac:(lia)) as D.
  assert (S12 : forall v w u, set_word 12 u (set_word 13 v (set_word 12 w x)) =
    set_word 13 v (set_word 12 u x)).
  { intros v w u. unfold set_word. rewrite (list_insert_insert_ne _ 12 13) by lia.
    by rewrite list_insert_insert_eq. }
  destruct (Z.eqb_spec (u32 (c + 1)) 0) as [E|E].
  - assert (H : Z.shiftr (c + 1) 32 = Z.shiftr c 32 + 1).
    { rewrite !Z.shiftr_div_pow2 by lia. unfold u32, wrap in E.
      pose proof (Z.div_mod (c + 1) (2 ^ 32) ltac:(lia)) as D'. rewrite E in D'. nia. }
    unfold z, y. rewrite S12, H, <- B. apply list_insert_insert_eq.
  - assert (H : Z.shiftr (c + 1) 32 = Z.shiftr c 32).
    { rewrite !Z.shiftr_div_pow2 by lia. unfold u32, wrap in E.
      pose proof (Z.div_mod (c + 1) (2 ^ 32) ltac:(lia)) as D'.
      pose proof (Z.mod_pos_bound (c + 1) (2 ^ 32) ltac:(lia)). nia. }
    unfold z, y. by rewrite S12, H.
Qed.

(** ** Exclusive or, by words and by bytes *)

Lemma byte_of_xor v w k : 0 <= k ->
  byte_of_Z (Z.shiftr (Z.lxor v w) k) = byte_xor (byte_of_Z (Z.shiftr v k)) (byte_of_Z (Z.shiftr w k)).
Proof.
  intros Hk. apply byte_val_inj. unfold byte_xor. rewrite !byte_val_of_Z.
  change 256 with (2 ^ 8). apply Z.bits_inj'. intros n Hn. destruct (Z.lt_ge_cases n 8).
  - rewrite !Z.mod_pow2_bits_low, Z.lxor_spec, !Z.mod_pow2_bits_low by lia.
    by rewrite !Z.shiftr_spec, Z.lxor_spec by lia.
  - by rewrite !Z.mod_pow2_bits_high by lia.
Qed.

Lemma byte_xor_comm a b : byte_xor a b = byte_xor b a.
Proof. unfold byte_xor. by rewrite Z.lxor_comm. Qed.

Lemma byte_xor_cancel a b : byte_xor (byte_xor a b) b = a.
Proof.
  apply byte_val_inj. unfold byte_xor. rewrite !byte_val_of_Z.
  assert (R : forall x y : byte, 0 <= Z.lxor (byte_val x) (byte_val y) < 256).
  { intros x y. byte_ranges. split; [apply Z.lxor_nonneg; lia|].
    destruct (Z.eq_dec (Z.lxor (byte_val x) (byte_val y)) 0) as [->|N]; [lia|].
    assert (0 <= Z.lxor (byte_val x) (byte_val y)) by (apply Z.lxor_nonneg; lia).
    change 256 with (2 ^ 8). apply Z.log2_lt_pow2; [lia|].
    pose proof (Z.log2_lxor (byte_val x) (byte_val y) ltac:(lia) ltac:(lia)).
    assert (LG : forall z, 0 <= z < 256 -> Z.log2 z < 8).
    { intros z Hz. destruct (Z.eq_dec z 0) as [->|]; [done|]. apply Z.log2_lt_pow2; lia. }
    pose proof (LG (byte_val x) ltac:(lia)). pose proof (LG (byte_val y) ltac:(lia)). lia. }
  rewrite (Z.mod_small _ _ (R a b)), Z.lxor_assoc, Z.lxor_nilpotent, Z.lxor_0_r.
  apply Z.mod_small, byte_val_range.
Qed.

Lemma U32TO8_xor v w : U32TO8_LITTLE (XOR v w) = xor_bytes (U32TO8_LITTLE v) (U32TO8_LITTLE w).
Proof.
  unfold U32TO8_LITTLE, U32TO8_LE, XOR, xor_bytes. cbn [zip_with].
  rewrite <- !byte_of_xor by lia. f_equal.
  rewrite <- (Z.shiftr_0_r v), <- (Z.shiftr_0_r w) at 2. rewrite <- byte_of_xor by lia.
  by rewrite Z.shiftr_0_r.
Qed.

(** A word read and written again. *)
Lemma U32TO8_U8TO32 a b c d :
  U32TO8_LE (byte_val a + 256 * byte_val b + 65536 * byte_val c + 16777216 * byte_val d) = [a; b; c; d].
Proof.
  unfold U32TO8_LE. rewrite !Z.shiftr_div_pow2 by lia.
  change (2 ^ 8) with 256. change (2 ^ 16) with 65536. change (2 ^ 24) with 16777216.
  byte_ranges. repeat f_equal; apply byte_val_inj; rewrite byte_val_of_Z.
  - symmetry. apply Z.mod_unique_pos with (byte_val b + 256 * byte_val c + 65536 * byte_val d); lia.
  - rewrite <- (Z.div_unique_pos (byte_val a + 256 * byte_val b + 65536 * byte_val c + 16777216 * byte_val d)
      256 (byte_val b + 256 * byte_val c + 65536 * byte_val d) (byte_val a)) by lia.
    symmetry. apply Z.mod_unique_pos with (byte_val c + 256 * byte_val d); lia.
  - rewrite <- (Z.div_unique_pos (byte_val a + 256 * byte_val b + 65536 * byte_val c + 16777216 * byte_val d)
      65536 (byte_val c + 256 * byte_val d) (byte_val a + 256 * byte_val b)) by lia.
    symmetry. apply Z.mod_unique_pos with (byte_val d); lia.
  - rewrite <- (Z.div_unique_pos (byte_val a + 256 * byte_val b + 65536 * byte_val c + 16777216 * byte_val d)
      16777216 (byte_val d) (byte_val a + 256 * byte_val b + 65536 * byte_val c)) by lia.
    symmetry. apply Z.mod_unique_pos with 0; lia.
Qed.

Lemma U8TO32_slice m o : 0 <= o -> o + 4 <= zlen m -> U32TO8_LITTLE (U8TO32_LITTLE m o) = slice o 4 m.
Proof.
  intros Ho Hl. unfold U32TO8_LITTLE, U8TO32_LITTLE. rewrite U8TO32_LE_val.
  unfold byte_at. rewrite U32TO8_U8TO32.
  apply list_eq. intros i. unfold slice, zlen in *. rewrite lookup_take, lookup_drop.
  assert (N : forall k, (k < length m)%nat -> m !! k = Some (nth k m x00)).
  { intros k Hk. destruct (nth_lookup_or_length m k x00); [done|lia]. }
  destruct i as [|[|[|[|i]]]]; cbn [lookup list_lookup].
  all: try (rewrite decide_True by lia; rewrite N by lia; do 2 f_equal; lia).
  by rewrite decide_False by lia.
Qed.

Lemma zip_concat (l1 l2 : list bytes) n :
  (forall c, c ∈ l1 -> length c = n) -> (forall c, c ∈ l2 -> length c = n) -> length l1 = length l2 ->
  concat (zip_with xor_bytes l1 l2) = xor_bytes (concat l1) (concat l2).
Proof.
  revert l2. induction l1 as [|c l1 IH]; intros [|d l2] H1 H2 L; try done.
  cbn [zip_with concat]. unfold xor_bytes at 3.
  rewrite zip_with_app by (rewrite H1, H2 by left; done).
  rewrite IH; [done| | |by injection L].
  - intros e He. apply H1. by right.
  - intros e He. apply H2. by right.
Qed.

(** Sixteen words of a block. *)
Lemma slices_of_words (m : bytes) k : 0 <= k -> 4 * (k + 16) <= zlen m + 4 * k ->
  concat (map (fun i => slice (4 * Z.of_nat i) 4 m) (seq 0 16)) = take 64 m.
Proof.
  intros _ Hl. cbn [seq map concat]. rewrite app_nil_r.
  change (take 64 m) with (slice 0 64 m).
  repeat match goal with |- context [4 * Z.of_nat ?i] =>
    let n := eval vm_compute in (4 * Z.of_nat i) in change (4 * Z.of_nat i) with n end.
  change 64 with (4 + (4 + (4 + (4 + (4 + (4 + (4 + (4 + (4 + (4 + (4 + (4 + (4 + (4 + (4 + 4))))))))))))))).
  rewrite !slice_app_split by lia. reflexivity.
Qed.

Lemma words_as_map x : length x = 16%nat -> x = map (word x) (seq 0 16).
Proof.
  intros L. unfold word. do 16 (destruct x as [|? x]; [discriminate L|]).
  destruct x; [done|discriminate L].
Qed.

Lemma zip_map {A} (f g h : A -> bytes) l : (forall i, In i l -> h i = xor_bytes (f i) (g i)) ->
  map h l = zip_with xor_bytes (map f l) (map g l).
Proof.
  induction l as [|i l IH]; intros H; [done|]. cbn [map zip_with]. rewrite H by by left.
  f_equal. apply IH. intros k Hk. apply H. by right.
Qed.

Lemma xor_block_spec x m : length x = 16%nat -> 64 <= zlen m ->
  xor_block x m = xor_bytes (concat (map U32TO8_LITTLE x)) (take 64 m).
Proof.
  intros Lx Lm. rewrite <- (slices_of_words m 0) by lia.
  rewrite (words_as_map x Lx) at 2. rewrite map_map. unfold xor_block.
  rewrite <- (zip_concat _ _ 4).
  - f_equal. apply zip_map. intros i Hi. apply in_seq in Hi.
    by rewrite U32TO8_xor, U8TO32_slice by lia.
  - intros c Hc. apply list_elem_of_In, in_map_iff in Hc as (i & <- & _). done.
  - intros c Hc. apply list_elem_of_In, in_map_iff in Hc as (i & <- & Hi). apply in_seq in Hi.
    pose proof (zlen_slice (4 * Z.of_nat i) 4 m ltac:(lia) ltac:(lia) ltac:(lia)) as L.
    unfold zlen in L. lia.
  - by rewrite !length_map.
Qed.

(** ** The stream *)

Lemma length_stream_block x c : length x = 16%nat -> length (stream_block x c) = 64%nat.
Proof.
  intros L. unfold stream_block, set_counter.
  set (y := set_word 13 _ _). assert (Ly : length y = 16%nat) by (unfold y; by rewrite !length_set_word).
  destruct (wf_block y Ly) as [Lb _]. rewrite (words_as_map (block y) Lb). reflexivity.
Qed.

Lemma length_stream_blocks n x c : length x = 16%nat -> length (stream_blocks n x c) = (64 * n)%nat.
Proof.
  intros L. revert c. induction n as [|n IH]; intros c; [done|]. cbn [stream_blocks].
  rewrite length_app, IH, length_stream_block by done. lia.
Qed.

Lemma xor_bytes_comm m k : xor_bytes m k = xor_bytes k m.
Proof.
  revert k. induction m as [|a m IH]; intros [|b k]; cbn; try done.
  by rewrite byte_xor_comm, IH.
Qed.

Lemma length_xor_bytes m k : (length m <= length k)%nat -> length (xor_bytes m k) = length m.
Proof. intros H. unfold xor_bytes. rewrite length_zip_with. lia. Qed.

Lemma xor_bytes_cancel m k : (length m <= length k)%nat -> xor_bytes (xor_bytes m k) k = m.
Proof.
  revert k. induction m as [|a m IH]; intros [|b k] H; cbn in *; try done; [lia|].
  by rewrite byte_xor_cancel, IH by lia.
Qed.

(** Only the part of the key stream as long as the message counts. *)
Lemma xor_bytes_take m k n : (length m <= n)%nat -> xor_bytes m (take n k) = xor_bytes m k.
Proof.
  revert k n. induction m as [|a m IH]; intros [|b k] [|n] H; cbn in *; try done; try lia.
  by rewrite IH by lia.
Qed.

Lemma take_xor_bytes n m k : take n (xor_bytes m k) = xor_bytes (take n m) k.
Proof.
  revert m k. induction n as [|n IH]; intros [|a m] [|b k]; cbn; try done. by rewrite IH.
Qed.

Lemma length_block c x : wf x -> length (block (set_counter c x)) = 16%nat.
Proof. intros W. apply wf_block, wf_set_counter, W. Qed.

#[local] Opaque block.

(** One pass of the loop. *)
Lemma loop_block tmp x c m : wf x -> length tmp = 64%nat ->
  let src := if zlen m <? 64 then blit 0 m tmp else m in
  take (length m) (xor_block (block (set_counter c x)) src) = xor_bytes (take 64 m) (stream_block x c).
Proof.
  intros W Lt src. destruct (wf_set_counter c x W) as [Lc _].
  destruct (wf_block _ Lc) as [Lb _].
  assert (Ls : 64 <= zlen src /\ take (length m) (take 64 src) = take 64 m).
  { unfold src. destruct (Z.ltb_spec (zlen m) 64).
    - split; [rewrite zlen_blit; unfold zlen in *; lia|]. unfold zlen in *.
      rewrite take_take, Nat.min_l by lia. unfold blit. change (take (Z.to_nat 0) tmp) with (@nil byte).
      cbn [app]. rewrite take_app_length.
      by rewrite take_ge by lia.
    - split; [done|]. rewrite take_take. unfold zlen in *. by rewrite Nat.min_r by lia. }
  rewrite xor_block_spec by (apply Lb || apply Ls). fold (stream_block x c).
  by rewrite xor_bytes_comm, take_xor_bytes, (proj2 Ls).
Qed.

Lemma encrypt_loop_spec tmp x fuel c m : wf x -> length tmp = 64%nat -> 0 <= c -> m <> [] ->
  (length m < fuel)%nat ->
  encrypt_loop fuel tmp (set_counter c x) m =
    (xor_bytes m (stream_blocks (length m / 64 + 1) x c),
     set_counter (c + (zlen m + 63) / 64) x).
Proof.
  intros W Lt. revert c m. induction fuel as [|fuel IH]; intros c m Hc Hne Hf; [lia|].
  cbn [encrypt_loop]. rewrite next_counter_set by done.
  pose proof (loop_block tmp x c m W Lt) as B. cbv zeta in B.
  assert (Lsb : length (stream_block x c) = 64%nat) by (apply length_stream_block, W).
  assert (Hpos : (0 < length m)%nat) by (destruct m; [done|cbn; lia]).
  destruct (Z.leb_spec (zlen m) 64) as [Hle|Hgt].
  - assert (E1 : (zlen m + 63) / 64 = 1).
    { symmetry. apply Z.div_unique_pos with (zlen m - 1); unfold zlen in *; lia. }
    rewrite E1. f_equal.
    rewrite (take_ge m) in B by (unfold zlen in Hle; lia).
    assert (E2 : xor_bytes m (stream_blocks (length m / 64 + 1) x c) = xor_bytes m (stream_block x c)).
    { rewrite Nat.add_1_r. cbn [stream_blocks]. rewrite <- (xor_bytes_take m (_ ++ _) 64),
        take_app_le, (xor_bytes_take m _ 64) by (unfold zlen in Hle; lia). done. }
    rewrite E2, <- B. destruct (Z.ltb_spec (zlen m) 64); [done|].
    rewrite take_ge; [done|]. rewrite xor_block_spec by (apply length_block, W || lia).
    unfold xor_bytes. rewrite length_zip_with, length_take. unfold zlen in *. lia.
  - assert (Hs : (zlen m <? 64) = false) by (apply Z.ltb_ge; lia). rewrite Hs in *.
    unfold zlen in Hgt. rewrite IH; [|lia| |rewrite length_drop; lia].
    2: { intros E. apply (f_equal length) in E. rewrite length_drop in E. cbn in E. lia. }
    assert (Ed : (length m / 64 = S (length (drop 64 m) / 64))%nat).
    { rewrite length_drop. rewrite <- (Nat.sub_add 64 (length m)) at 1 by lia.
      rewrite <- (Nat.mul_1_l 64) at 2. rewrite Nat.div_add by lia. lia. }
    assert (Ez : (zlen (drop 64 m) + 63) / 64 + 1 = (zlen m + 63) / 64).
    { rewrite <- Z.div_add by lia. f_equal. unfold zlen. rewrite length_drop. lia. }
    f_equal.
    + rewrite Ed, Nat.add_succ_l. cbn [stream_blocks].
      transitivity (xor_bytes (take 64 m ++ drop 64 m)
        (stream_block x c ++ stream_blocks (length (drop 64 m) / 64 + 1) x (c + 1)));
        [|by rewrite take_drop].
      unfold xor_bytes at 2. rewrite zip_with_app by (rewrite length_take; lia).
      fold (xor_bytes (take 64 m) (stream_block x c)). rewrite <- B. f_equal.
      rewrite take_ge; [done|]. rewrite xor_block_spec by (apply length_block, W || (unfold zlen; lia)).
      unfold xor_bytes. rewrite length_zip_with, length_take. lia.
    + f_equal. lia.
Qed.

Lemma length_keystream x n : wf x -> length (keystream x n) = n.
Proof.
  intros W. unfold keystream. rewrite length_take, length_stream_blocks by apply W.
  pose proof (Nat.div_mod n 64 ltac:(lia)). pose proof (Nat.mod_upper_bound n 64 ltac:(lia)). lia.
Qed.

Lemma words_of_counter c x : length x = 16%nat ->
  set_word 13 (word (set_counter c x) 13) (set_word 12 (word (set_counter c x) 12) x) = set_counter c x.
Proof.
  intros L. unfold set_counter. rewrite word_set_eq by (rewrite length_set_word; lia).
  rewrite word_set_ne, word_set_eq by lia. done.
Qed.

Lemma chacha_encrypt_bytes_spec tmp x m : wf x -> length tmp = 64%nat ->
  chacha_encrypt_bytes tmp x m =
    (xor_bytes m (keystream x (length m)), set_counter (counter x + (zlen m + 63) / 64) x).
Proof.
  intros W Lt. unfold chacha_encrypt_bytes. destruct (Z.eqb_spec (zlen m) 0) as [E|E].
  - apply zlen_0_nil in E as ->. cbn [length zip_with xor_bytes]. f_equal.
    change ((zlen [] + 63) / 64) with 0. by rewrite Z.add_0_r, set_counter_same.
  - pose proof (counter_range x W) as R.
    pose proof (encrypt_loop_spec tmp x (S (length m)) (counter x) m W Lt) as H.
    rewrite (set_counter_same x W) in H.
    rewrite H; [|lia|by intros ->|lia]. rewrite words_of_counter by apply W. f_equal.
    unfold keystream. by rewrite xor_bytes_take by lia.
Qed.

(** Claim C28.  [chacha_encrypt_bytes] is the exclusive or of the message with the key
    stream that starts at the block counter of the context, whatever its length and
    whatever the local array held; the counter of 64 bits is left after the last block
    used.  Encrypting again from the same counter gives the message back. *)
Theorem chacha_encrypt_bytes_correct (tmp tmp' : bytes) (x : words) (m : bytes) (W : wf x)
    (Lt : length tmp = 64%nat) (Lt' : length tmp' = 64%nat) :
  let c := xor_bytes m (keystream x (length m)) in
  chacha_encrypt_bytes tmp x m = (c, set_counter (counter x + (zlen m + 63) / 64) x) /\
  fst (chacha_encrypt_bytes tmp' x c) = m.
Proof.
  cbv zeta. rewrite !chacha_encrypt_bytes_spec by done. split; [done|]. cbn [fst].
  pose proof (length_keystream x (length m) W) as L.
  rewrite length_xor_bytes by lia. apply xor_bytes_cancel. lia.
Qed.

Lemma chacha_encrypt_bytes_correct_witness :
  fst (chacha_encrypt_bytes (zeros 64) (replicate 16 0)
    (xor_bytes (lit "hello") (keystream (replicate 16 0) 5))) = lit "hello".
Proof.
  assert (W : wf (replicate 16 0)) by (split; [reflexivity|apply Forall_replicate; lia]).
  exact (proj2 (chacha_encrypt_bytes_correct (zeros 64) (zeros 64) (replicate 16 0) (lit "hello") W
    eq_refl eq_refl)).
Defined.
