(* ===== verification/ChachaPoly.v ===== *)
(** cipher-chachapoly.c: authenticated encryption of packets with ChaCha20 and Poly1305. *)

From S2P Require Import Prelude SshErr Wire Compat CompatThms.
From S2P Require Import Poly1305 ChaCha.

(** ** The code *)

Record chachapoly_ctx := mk_cp { main_ctx : words; header_ctx : words }.

(** [tmp]: the local array of [chacha_encrypt_bytes], whose content is not defined. *)
Section code.
Context (tmp : bytes).

Definition chachapoly_new (key : bytes) (keylen : Z) : option chachapoly_ctx :=
  if negb (keylen =? 32 + 32) then None
  else Some (mk_cp (chacha_keysetup (replicate 16 0) key 256)
                   (chacha_keysetup (replicate 16 0) (drop 32 key) 256)).

Definition one : bytes := [x01; x00; x00; x00; x00; x00; x00; x00].

(** [chachapoly_crypt]: what is written to [dest], and the context.  [src] is read at
    [aadlen + len] bytes, and at sixteen more to decrypt. *)
Definition chachapoly_crypt (ctx : chachapoly_ctx) (seqnr : Z) (src : bytes)
    (len aadlen authlen : Z) (do_encrypt : bool) : res bytes * chachapoly_ctx :=
  let seqbuf := POKE_U64 seqnr in
  let main := chacha_ivsetup (main_ctx ctx) seqbuf None in
  let '(poly_key, main) := chacha_encrypt_bytes tmp main (zeros POLY1305_KEYLEN) in
  let tag_ok :=
    if negb do_encrypt then
      let tag := slice (aadlen + len) POLY1305_TAGLEN src in
      let expected_tag := poly1305_auth (slice 0 (aadlen + len) src) poly_key in
      match timingsafe_bcmp expected_tag tag POLY1305_TAGLEN with
      | Some 0 => true
      | _ => false
      end
    else true in
  if negb tag_ok then (Err SSH_ERR_MAC_INVALID, mk_cp main (header_ctx ctx))
  else
  let '(aad, header) :=
    if negb (aadlen =? 0) then
      chacha_encrypt_bytes tmp (chacha_ivsetup (header_ctx ctx) seqbuf None) (slice 0 aadlen src)
    else ([], header_ctx ctx) in
  let main := chacha_ivsetup main seqbuf (Some one) in
  let '(body, main) := chacha_encrypt_bytes tmp main (slice aadlen len src) in
  let dest := aad ++ body in
  let dest := if do_encrypt then dest ++ poly1305_auth (slice 0 (aadlen + len) dest) poly_key
              else dest in
  (Ok dest, mk_cp main header).

(** [chachapoly_get_length]: the length, if the four bytes are there. *)
Definition chachapoly_get_length (ctx : chachapoly_ctx) (seqnr : Z) (cp : bytes) (len : Z)
    : res Z * chachapoly_ctx :=
  if len <? 4 then (Err SSH_ERR_MESSAGE_INCOMPLETE, ctx)
  else
  let '(buf, header) :=
    chacha_encrypt_bytes tmp (chacha_ivsetup (header_ctx ctx) (POKE_U64 seqnr) None) (slice 0 4 cp) in
  (Ok (PEEK_U32 buf), mk_cp (main_ctx ctx) header).
End code.

(** ** Contexts up to the words that every call sets *)

(** The key of a ChaCha context: what [chacha_ivsetup] keeps. *)
Definition same_key (x y : words) : Prop :=
  wf x /\ wf y /\ forall iv c, chacha_ivsetup x iv c = chacha_ivsetup y iv c.

Definition cp_equiv (a b : chachapoly_ctx) : Prop :=
  same_key (main_ctx a) (main_ctx b) /\ same_key (header_ctx a) (header_ctx b).

Definition cp_wf (a : chachapoly_ctx) : Prop := wf (main_ctx a) /\ wf (header_ctx a).

Lemma cp_equiv_refl a : cp_wf a -> cp_equiv a a.
Proof. intros [? ?]. split; (split; [done|split; done]). Qed.

#[export] Instance same_key_sym : Symmetric same_key.
Proof. intros x y (? & ? & H). split_and!; [done..|]. intros. by rewrite H. Qed.

#[export] Instance same_key_trans : Transitive same_key.
Proof. intros x y z (Wx & _ & H) (_ & Wz & H'). split_and!; [done..|]. intros. by rewrite H, H'. Qed.

#[export] Instance cp_equiv_sym : Symmetric cp_equiv.
Proof. intros a b [? ?]. by split; symmetry. Qed.

#[export] Instance cp_equiv_trans : Transitive cp_equiv.
Proof. intros a b c [? ?] [? ?]. split; etrans; eauto. Qed.

Lemma wf_ivsetup x iv c : wf x -> wf (chacha_ivsetup x iv c).
Proof.
  intros W. unfold chacha_ivsetup, U8TO32_LITTLE.
  repeat apply wf_set_word; try done; try apply U8TO32_LE_range; destruct c; try lia; apply U8TO32_LE_range.
Qed.

(** Setting the counter, then everything again. *)
Lemma ivsetup_again x iv c n iv' c' : length x = 16%nat ->
  chacha_ivsetup (set_counter n (chacha_ivsetup x iv c)) iv' c' = chacha_ivsetup x iv' c'.
Proof.
  intros L. do 16 (destruct x as [|? x]; [discriminate L|]). destruct x; [done|discriminate L].
Qed.

Lemma same_key_ivsetup x y iv c n : same_key x y ->
  same_key (set_counter n (chacha_ivsetup x iv c)) y.
Proof.
  intros (Wx & Wy & H). split_and!; [apply wf_set_counter, wf_ivsetup, Wx|done|].
  intros iv' c'. rewrite ivsetup_again by apply Wx. apply H.
Qed.

#[local] Opaque keystream.

(** ** What is computed *)

(** The three key streams of packet [seqnr]. *)
Definition poly_key_of (ctx : chachapoly_ctx) (seqnr : Z) : bytes :=
  keystream (chacha_ivsetup (main_ctx ctx) (POKE_U64 seqnr) None) 32.

Definition body_stream (ctx : chachapoly_ctx) (seqnr : Z) (n : nat) : bytes :=
  keystream (chacha_ivsetup (main_ctx ctx) (POKE_U64 seqnr) (Some one)) n.

Definition length_stream (ctx : chachapoly_ctx) (seqnr : Z) (n : nat) : bytes :=
  keystream (chacha_ivsetup (header_ctx ctx) (POKE_U64 seqnr) None) n.

(** The text enciphered, or deciphered. *)
Definition crypt_text (ctx : chachapoly_ctx) (seqnr len aadlen : Z) (p : bytes) : bytes :=
  xor_bytes (slice 0 aadlen p) (length_stream ctx seqnr (Z.to_nat aadlen)) ++
  xor_bytes (slice aadlen len p) (body_stream ctx seqnr (Z.to_nat len)).

Lemma streams_equiv a b seqnr n : cp_equiv a b ->
  poly_key_of a seqnr = poly_key_of b seqnr /\ body_stream a seqnr n = body_stream b seqnr n /\
  length_stream a seqnr n = length_stream b seqnr n.
Proof.
  intros [(_ & _ & H) (_ & _ & H')]. unfold poly_key_of, body_stream, length_stream.
  by rewrite !H, H'.
Qed.

Lemma crypt_text_equiv a b seqnr len aadlen p : cp_equiv a b ->
  crypt_text a seqnr len aadlen p = crypt_text b seqnr len aadlen p.
Proof.
  intros E. unfold crypt_text.
  destruct (streams_equiv a b seqnr (Z.to_nat len) E) as (_ & -> & _).
  by destruct (streams_equiv a b seqnr (Z.to_nat aadlen) E) as (_ & _ & ->).
Qed.

Lemma zlen_crypt_text ctx seqnr len aadlen p : cp_wf ctx -> 0 <= len -> 0 <= aadlen ->
  zlen p = aadlen + len -> zlen (crypt_text ctx seqnr len aadlen p) = aadlen + len.
Proof.
  intros [W1 W2] Hl Ha Hp. unfold crypt_text, length_stream, body_stream.
  pose proof (zlen_slice 0 aadlen p ltac:(lia) Ha ltac:(lia)) as L1.
  pose proof (zlen_slice aadlen len p Ha Hl ltac:(lia)) as L2.
  rewrite zlen_app. unfold zlen in *.
  rewrite !length_xor_bytes by (rewrite length_keystream by (apply wf_ivsetup; done); lia). lia.
Qed.

(** Enciphering is its own inverse. *)
Lemma crypt_text_twice ctx seqnr len aadlen p : cp_wf ctx -> 0 <= len -> 0 <= aadlen ->
  zlen p = aadlen + len ->
  crypt_text ctx seqnr len aadlen (crypt_text ctx seqnr len aadlen p) = p.
Proof.
  intros [W1 W2] Hl Ha Hp.
  pose proof (zlen_slice 0 aadlen p ltac:(lia) Ha ltac:(lia)) as L1.
  pose proof (zlen_slice aadlen len p Ha Hl ltac:(lia)) as L2.
  assert (K1 : length (length_stream ctx seqnr (Z.to_nat aadlen)) = Z.to_nat aadlen)
    by (apply length_keystream, wf_ivsetup; done).
  assert (K2 : length (body_stream ctx seqnr (Z.to_nat len)) = Z.to_nat len)
    by (apply length_keystream, wf_ivsetup; done).
  unfold crypt_text at 1. set (c := crypt_text ctx seqnr len aadlen p).
  set (a := xor_bytes (slice 0 aadlen p) (length_stream ctx seqnr (Z.to_nat aadlen))).
  assert (La : zlen a = aadlen).
  { unfold a, zlen in *. rewrite length_xor_bytes; lia. }
  assert (E1 : slice 0 aadlen c = a) by (unfold c, crypt_text; fold a; by apply slice_app_l).
  assert (E2 : slice aadlen len c =
    xor_bytes (slice aadlen len p) (body_stream ctx seqnr (Z.to_nat len))).
  { unfold c, crypt_text. fold a. rewrite slice_suffix by lia. rewrite La, Z.sub_diag.
    set (X := xor_bytes _ _). assert (LX : zlen X = len)
      by (unfold X, zlen in *; rewrite length_xor_bytes; lia).
    rewrite <- LX. apply slice_all. }
  rewrite E1, E2. unfold a. unfold zlen in L1, L2. rewrite !xor_bytes_cancel by lia.
  rewrite <- slice_app_split by lia. rewrite <- Hp. apply slice_all.
Qed.

Lemma zlen_poly1305_auth m k : zlen (poly1305_auth m k) = 16.
Proof.
  unfold poly1305_auth. destruct (full_blocks _ _ _ m) as [h rest].
  destruct (reduce _) as [h0 h1 h2 h3 h4]. reflexivity.
Qed.

#[local] Opaque poly1305_auth.

Lemma xor_zeros k n : zlen k = n -> xor_bytes (zeros n) k = k.
Proof.
  intros <-. unfold zeros, zlen, xor_bytes. rewrite Nat2Z.id. induction k as [|b k IH]; [done|]. cbn.
  rewrite IH. f_equal. unfold byte_xor. change (byte_val x00) with 0. rewrite Z.lxor_0_l. apply byte_of_val.
Qed.

(** [chachapoly_crypt] in terms of the key streams. *)
Lemma chachapoly_crypt_eq tmp ctx seqnr src len aadlen authlen enc : length tmp = 64%nat ->
  cp_wf ctx -> 0 <= len -> 0 <= aadlen -> aadlen + len <= zlen src ->
  (enc = false -> zlen src = aadlen + len + 16) ->
  exists ctx', cp_equiv ctx ctx' /\
  chachapoly_crypt tmp ctx seqnr src len aadlen authlen enc =
    (let c := crypt_text ctx seqnr len aadlen (slice 0 (aadlen + len) src) in
     if enc then Ok (c ++ poly1305_auth c (poly_key_of ctx seqnr))
     else if bool_decide (poly1305_auth (slice 0 (aadlen + len) src) (poly_key_of ctx seqnr)
                          = slice (aadlen + len) 16 src)
     then Ok c else Err SSH_ERR_MAC_INVALID, ctx').
Proof.
  intros Lt [W1 W2] Hl Ha Hs He. unfold chachapoly_crypt.
  pose proof (wf_ivsetup (main_ctx ctx) (POKE_U64 seqnr) None W1) as Wm.
  rewrite chacha_encrypt_bytes_spec by done.
  set (main1 := set_counter _ (chacha_ivsetup (main_ctx ctx) (POKE_U64 seqnr) None)).
  assert (PK : xor_bytes (zeros POLY1305_KEYLEN) (keystream (chacha_ivsetup (main_ctx ctx)
    (POKE_U64 seqnr) None) (length (zeros POLY1305_KEYLEN))) = poly_key_of ctx seqnr).
  { assert (L32 : length (zeros POLY1305_KEYLEN) = 32%nat) by reflexivity.
    rewrite L32. unfold poly_key_of. apply xor_zeros. unfold zlen.
    rewrite length_keystream by exact Wm. reflexivity. }
  rewrite PK. clear PK. set (pk := poly_key_of ctx seqnr).
  assert (SK1 : same_key main1 (main_ctx ctx))
    by (apply same_key_ivsetup; split_and!; done).
  assert (SKh : same_key (header_ctx ctx) (header_ctx ctx)) by (split_and!; done).
  destruct SK1 as (Wm1 & _ & E1). rewrite E1.
  rewrite (chacha_encrypt_bytes_spec tmp (chacha_ivsetup (main_ctx ctx) (POKE_U64 seqnr) (Some one)))
    by (done || apply wf_ivsetup, W1).
  set (main2 := set_counter _ (chacha_ivsetup (main_ctx ctx) (POKE_U64 seqnr) (Some one))).
  assert (SK2 : same_key main2 (main_ctx ctx)) by (apply same_key_ivsetup; split_and!; done).
  pose proof (zlen_slice aadlen len src Ha Hl Hs) as L2.
  pose proof (zlen_slice 0 aadlen src ltac:(lia) Ha ltac:(lia)) as L1.
  assert (B : exists header, (if negb (aadlen =? 0)
      then chacha_encrypt_bytes tmp (chacha_ivsetup (header_ctx ctx) (POKE_U64 seqnr) None) (slice 0 aadlen src)
      else ([], header_ctx ctx)) =
      (xor_bytes (slice 0 aadlen src) (length_stream ctx seqnr (Z.to_nat aadlen)), header) /\
      same_key header (header_ctx ctx)).
  { destruct (Z.eqb_spec aadlen 0) as [->|N]; cbn [negb].
    - exists (header_ctx ctx). split; [|done]. rewrite slice_0. done.
    - rewrite chacha_encrypt_bytes_spec by (done || apply wf_ivsetup, W2).
      eexists. split; [|by apply same_key_ivsetup]. f_equal. unfold length_stream.
      do 2 f_equal. unfold zlen in L1. lia. }
  destruct B as (header & -> & SKh').
  assert (C : xor_bytes (slice 0 aadlen src) (length_stream ctx seqnr (Z.to_nat aadlen)) ++
      xor_bytes (slice aadlen len src) (keystream (chacha_ivsetup (main_ctx ctx) (POKE_U64 seqnr) (Some one))
        (length (slice aadlen len src))) =
      crypt_text ctx seqnr len aadlen (slice 0 (aadlen + len) src)).
  { unfold crypt_text, body_stream. rewrite !slice_slice by lia. cbn [Z.add].
    do 3 f_equal. unfold zlen in L2. lia. }
  rewrite C. clear C.
  pose proof (zlen_slice 0 (aadlen + len) src ltac:(lia) ltac:(lia) ltac:(lia)) as L0.
  pose proof (zlen_crypt_text ctx seqnr len aadlen _ (conj W1 W2) Hl Ha L0) as Lc.
  set (c := crypt_text _ _ _ _ _) in *. destruct enc; cbn [negb].
  - exists (mk_cp main2 header). split; [by split; symmetry|].
    rewrite <- Lc at 1. by rewrite slice_all.
  - assert (Tz : zlen (slice (aadlen + len) 16 src) = 16) by (apply zlen_slice; rewrite ?He; lia).
    pose proof (zlen_poly1305_auth (slice 0 (aadlen + len) src) pk) as Pz.
    change POLY1305_TAGLEN with 16.
    rewrite timingsafe_bcmp_spec by lia.
    rewrite !take_ge by (unfold zlen in Tz, Pz; lia).
    case_bool_decide; cbn [negb]; eexists; (split; [|reflexivity]).
    + by split; symmetry.
    + split; [|done]. split_and!; [done..|]. intros. by rewrite E1.
Qed.

(** Claim C17.  Authenticated encryption.  Two contexts with the same key, after any calls,
    give for the packet number [seqnr]: encryption always succeeds, its result is sixteen
    bytes longer than the text; and decryption accepts exactly the encryptions -- it
    returns [p] if and only if encrypting [p] under that number gives the bytes received,
    and reports [SSH_ERR_MAC_INVALID] otherwise.  Both leave contexts with the same key. *)
Theorem chachapoly_accepts_encryptions (tmp tmp' : bytes) (a b : chachapoly_ctx)
    (seqnr len aadlen authlen : Z) (Lt : length tmp = 64%nat) (Lt' : length tmp' = 64%nat)
    (E : cp_equiv a b) (Hl : 0 <= len) (Ha : 0 <= aadlen) :
  (forall p, zlen p = aadlen + len -> exists c a',
     chachapoly_crypt tmp a seqnr p len aadlen authlen true = (Ok c, a') /\
     zlen c = aadlen + len + POLY1305_TAGLEN /\ cp_equiv a a') /\
  (forall c, zlen c = aadlen + len + POLY1305_TAGLEN -> exists r b',
     chachapoly_crypt tmp' b seqnr c len aadlen authlen false = (r, b') /\ cp_equiv b b' /\
     (r = Err SSH_ERR_MAC_INVALID \/ exists p, r = Ok p /\ zlen p = aadlen + len) /\
     forall p, zlen p = aadlen + len ->
       (r = Ok p <-> fst (chachapoly_crypt tmp a seqnr p len aadlen authlen true) = Ok c)).
Proof.
  assert (Wa : cp_wf a) by (destruct E as [(? & _) (? & _)]; done).
  assert (Wb : cp_wf b) by (destruct E as [(_ & ? & _) (_ & ? & _)]; done).
  unfold POLY1305_TAGLEN. split.
  - intros p Hp. destruct (chachapoly_crypt_eq tmp a seqnr p len aadlen authlen true Lt Wa Hl Ha)
      as (a' & Ea & ->); [lia|done|]. cbv zeta. eexists _, a'. split_and!; [done| |done].
    rewrite zlen_app, zlen_poly1305_auth, zlen_crypt_text; try done; try lia. apply zlen_slice; lia.
  - intros c Hc. destruct (chachapoly_crypt_eq tmp' b seqnr c len aadlen authlen false Lt' Wb Hl Ha)
      as (b' & Eb & ->); [lia|done|]. cbv zeta.
    set (t := slice 0 (aadlen + len) c). set (pt := crypt_text b seqnr len aadlen t).
    assert (Lt0 : zlen t = aadlen + len) by (apply zlen_slice; lia).
    assert (Lp : zlen pt = aadlen + len) by (apply zlen_crypt_text; done || lia).
    eexists _, b'. split_and!; [done|done|case_bool_decide; eauto|].
    intros p Hp. destruct (chachapoly_crypt_eq tmp a seqnr p len aadlen authlen true Lt Wa Hl Ha)
      as (a' & _ & ->); [lia|done|]. cbv zeta. cbn [fst].
    assert (Hs : slice 0 (aadlen + len) p = p) by (rewrite <- Hp; apply slice_all). rewrite Hs.
    rewrite (crypt_text_equiv a b) by done.
    destruct (streams_equiv a b seqnr 0 E) as (-> & _ & _).
    assert (Hsplit : c = t ++ slice (aadlen + len) 16 c).
    { unfold t. rewrite <- (slice_all c) at 1. rewrite Hc, slice_app_split by lia. done. }
    case_bool_decide as HT; split; try done.
    + intros [= <-]. unfold pt. rewrite crypt_text_twice by done. by rewrite HT, <- Hsplit.
    + intros [= Hc']. f_equal. rewrite Hsplit in Hc'.
      apply app_inj_1 in Hc' as [Ht _];
        [|pose proof (zlen_crypt_text b seqnr len aadlen p Wb Hl Ha Hp); unfold zlen in *; lia].
      unfold pt. rewrite <- Ht. by apply crypt_text_twice.
    + intros [= Hc']. exfalso. apply HT. rewrite Hsplit in Hc'.
      apply app_inj_1 in Hc' as [Ht Htag];
        [|pose proof (zlen_crypt_text b seqnr len aadlen p Wb Hl Ha Hp); unfold zlen in *; lia].
      by rewrite <- Ht.
Qed.

Lemma chachapoly_accepts_encryptions_witness :
  let ctx := mk_cp (replicate 16 0) (replicate 16 0) in
  exists c a', chachapoly_crypt (zeros 64) ctx 7 (lit "length+payload") 10 4 16 true = (Ok c, a') /\
    zlen c = 4 + 10 + POLY1305_TAGLEN /\ cp_equiv ctx a'.
Proof.
  intros ctx.
  assert (W : wf (replicate 16 0)) by (split; [reflexivity|apply Forall_replicate; lia]).
  exact (proj1 (chachapoly_accepts_encryptions (zeros 64) (zeros 64) ctx ctx 7 10 4 16
    eq_refl eq_refl (cp_equiv_refl ctx (conj W W)) ltac:(lia) ltac:(lia))
    (lit "length+payload") eq_refl).
Defined.

(** ** The length *)

Definition after_length (ctx : chachapoly_ctx) (seqnr : Z) : chachapoly_ctx :=
  let h := chacha_ivsetup (header_ctx ctx) (POKE_U64 seqnr) None in
  mk_cp (main_ctx ctx) (set_counter (counter h + 1) h).

Lemma after_length_equiv ctx seqnr : cp_wf ctx -> cp_equiv ctx (after_length ctx seqnr).
Proof.
  intros [W1 W2]. split; cbn; [split_and!; done|]. symmetry.
  apply same_key_ivsetup. split_and!; done.
Qed.

Lemma get_length_eq tmp ctx seqnr cp : length tmp = 64%nat -> cp_wf ctx -> 4 <= zlen cp ->
  chachapoly_get_length tmp ctx seqnr cp (zlen cp) =
    (Ok (PEEK_U32 (xor_bytes (slice 0 4 cp) (length_stream ctx seqnr 4))), after_length ctx seqnr).
Proof.
  intros Lt [W1 W2] Hl. unfold chachapoly_get_length.
  destruct (Z.ltb_spec (zlen cp) 4); [lia|].
  rewrite chacha_encrypt_bytes_spec by (done || apply wf_ivsetup, W2).
  pose proof (zlen_slice 0 4 cp ltac:(lia) ltac:(lia) ltac:(lia)) as L.
  assert (L' : length (slice 0 4 cp) = 4%nat) by (unfold zlen in L; lia).
  rewrite L, L'. done.
Qed.

(** The length of an enciphered packet is that of the text. *)
Lemma enciphered_length ctx seqnr len p rest : cp_wf ctx -> 0 <= len -> zlen p = 4 + len ->
  xor_bytes (slice 0 4 (crypt_text ctx seqnr len 4 p ++ rest)) (length_stream ctx seqnr 4) =
  slice 0 4 p.
Proof.
  intros [W1 W2] Hl Hp.
  pose proof (zlen_slice 0 4 p ltac:(lia) ltac:(lia) ltac:(lia)) as L1.
  assert (K1 : length (length_stream ctx seqnr 4) = 4%nat)
    by (apply length_keystream, wf_ivsetup; done).
  unfold crypt_text. rewrite <- app_assoc. change (Z.to_nat 4) with 4%nat.
  assert (LX : zlen (xor_bytes (slice 0 4 p) (length_stream ctx seqnr 4)) = 4).
  { unfold zlen in *. rewrite length_xor_bytes; lia. }
  rewrite (slice_app_l 4) by lia. apply xor_bytes_cancel. unfold zlen in L1. lia.
Qed.
