(* ===== verification/Digest.v ===== *)
(** digest-openssl.c: the table of digests and the operations on a digest in progress.
    The functions of libcrypto are the class [Digest]; [DigestLaws] states what is
    documented of them: a digest depends on the bytes it was given, not on how they were
    cut. *)

From S2P Require Import Prelude SshErr Wire SshQueue Compat Match.

Definition SSH_DIGEST_MD5 : Z := 0.
Definition SSH_DIGEST_SHA1 : Z := 1.
Definition SSH_DIGEST_SHA256 : Z := 2.
Definition SSH_DIGEST_SHA384 : Z := 3.
Definition SSH_DIGEST_SHA512 : Z := 4.
Definition SSH_DIGEST_MAX : Z := 5.
Definition SSH_DIGEST_MAX_LENGTH : Z := 64.
Definition UINT_MAX : Z := 2 ^ 32 - 1.

(** [strcasecmp(a, b) == 0]. *)
Definition strcasecmp_eq (a b : bytes) : bool := bool_decide (lowercase a = lowercase b).

(** ** The table *)

Record ssh_digest := mk_digest { dg_id : Z; dg_name : bytes; dg_len : Z }.

Definition digests : list ssh_digest := [
  mk_digest SSH_DIGEST_MD5 (lit "MD5") 16; mk_digest SSH_DIGEST_SHA1 (lit "SHA1") 20;
  mk_digest SSH_DIGEST_SHA256 (lit "SHA256") 32; mk_digest SSH_DIGEST_SHA384 (lit "SHA384") 48;
  mk_digest SSH_DIGEST_SHA512 (lit "SHA512") 64
].

Definition ssh_digest_by_alg (alg : Z) : option ssh_digest :=
  if (alg <? 0) || (alg >=? SSH_DIGEST_MAX) then None
  else
  match nth_error digests (Z.to_nat alg) with
  | Some d => if dg_id d =? alg then Some d else None
  | None => None
  end.

Definition ssh_digest_alg_by_name (name : bytes) : Z :=
  match List.find (fun d => strcasecmp_eq name (dg_name d)) digests with
  | Some d => dg_id d | None => -1 end.

Definition ssh_digest_alg_name (alg : Z) : option bytes := option_map dg_name (ssh_digest_by_alg alg).

Definition ssh_digest_bytes (alg : Z) : Z :=
  match ssh_digest_by_alg alg with Some d => dg_len d | None => 0 end.

(** ** Digests in progress *)

(** libcrypto; [None] is failure, an algorithm is its number in the table. *)
Class Digest := {
  md : Type;
  EVP_DigestInit_ex : Z -> option md;
  EVP_DigestUpdate : md -> bytes -> option md;
  EVP_DigestFinal_ex : md -> option bytes;
  EVP_MD_CTX_copy_ex : md -> option md;
  EVP_MD_CTX_block_size : md -> Z;
  EVP_Digest : Z -> bytes -> option bytes
}.

Section code.
Context {D : Digest}.

Record ssh_digest_ctx := mk_dctx { dc_alg : Z; dc_md : md }.

(** [alloc_ok]: the structure and the context could be allocated. *)
Definition ssh_digest_start (alloc_ok : bool) (alg : Z) : option ssh_digest_ctx :=
  match ssh_digest_by_alg alg with
  | None => None
  | Some _ => if alloc_ok then option_map (mk_dctx alg) (EVP_DigestInit_ex alg) else None
  end.

Definition ssh_digest_blocksize (ctx : ssh_digest_ctx) : Z := EVP_MD_CTX_block_size (dc_md ctx).

(** The new [to]. *)
Definition ssh_digest_copy_state (from to : ssh_digest_ctx) : res ssh_digest_ctx :=
  if negb (dc_alg from =? dc_alg to) then Err SSH_ERR_INVALID_ARGUMENT
  else
  match EVP_MD_CTX_copy_ex (dc_md from) with
  | None => Err SSH_ERR_LIBCRYPTO_ERROR
  | Some c => Ok (mk_dctx (dc_alg to) c)
  end.

Definition ssh_digest_update (ctx : ssh_digest_ctx) (m : bytes) : res ssh_digest_ctx :=
  match EVP_DigestUpdate (dc_md ctx) m with
  | None => Err SSH_ERR_LIBCRYPTO_ERROR
  | Some c => Ok (mk_dctx (dc_alg ctx) c)
  end.

(** What is written to the [dlen] bytes at [d].  The context is not used after it, or is
    overwritten by [ssh_digest_copy_state]. *)
Definition ssh_digest_final (ctx : ssh_digest_ctx) (dlen : Z) : res bytes :=
  match ssh_digest_by_alg (dc_alg ctx) with
  | None => Err SSH_ERR_INVALID_ARGUMENT
  | Some digest =>
    if (dlen >? UINT_MAX) || (dlen <? dg_len digest) then Err SSH_ERR_INVALID_ARGUMENT
    else
    match EVP_DigestFinal_ex (dc_md ctx) with
    | None => Err SSH_ERR_LIBCRYPTO_ERROR
    | Some d => if negb (zlen d =? dg_len digest) then Err SSH_ERR_INTERNAL_ERROR else Ok d
    end
  end.

Definition ssh_digest_memory (alg : Z) (m : bytes) (dlen : Z) : res bytes :=
  match ssh_digest_by_alg alg with
  | None => Err SSH_ERR_INVALID_ARGUMENT
  | Some digest =>
    if (dlen >? UINT_MAX) || (dlen <? dg_len digest) then Err SSH_ERR_INVALID_ARGUMENT
    else
    match EVP_Digest alg m with
    | None => Err SSH_ERR_LIBCRYPTO_ERROR
    | Some d => Ok d
    end
  end.

Fixpoint ssh_digest_updates (ctx : ssh_digest_ctx) (l : list bytes) : res ssh_digest_ctx :=
  match l with
  | [] => Ok ctx
  | m :: l => match ssh_digest_update ctx m with Err e => Err e | Ok ctx => ssh_digest_updates ctx l end
  end.
End code.

(** ** What is documented of libcrypto *)

Class DigestLaws {D : Digest} := {
  (** The context of an algorithm that was given these bytes. *)
  md_holds : md -> Z -> bytes -> Prop;
  digest_init alg : 0 <= alg < SSH_DIGEST_MAX -> exists c, EVP_DigestInit_ex alg = Some c /\ md_holds c alg [];
  digest_update c alg d v : md_holds c alg d -> exists c', EVP_DigestUpdate c v = Some c' /\ md_holds c' alg (d ++ v);
  digest_copy c alg d : md_holds c alg d -> exists c', EVP_MD_CTX_copy_ex c = Some c' /\ md_holds c' alg d;
  digest_final c alg d : md_holds c alg d -> EVP_DigestFinal_ex c = EVP_Digest alg d;
  digest_once alg d : 0 <= alg < SSH_DIGEST_MAX -> exists h, EVP_Digest alg d = Some h /\ zlen h = ssh_digest_bytes alg;
  EVP_MD_block_size : Z -> Z;
  digest_block c alg d : md_holds c alg d -> EVP_MD_CTX_block_size c = EVP_MD_block_size alg;
  digest_block_size alg : 0 <= alg < SSH_DIGEST_MAX ->
    ssh_digest_bytes alg <= EVP_MD_block_size alg <= UINT_MAX
}.

Section laws.
Context {D : Digest} {L : DigestLaws}.

(** A digest in progress of [d]. *)
Definition digesting (ctx : ssh_digest_ctx) (alg : Z) (d : bytes) : Prop :=
  dc_alg ctx = alg /\ md_holds (dc_md ctx) alg d.

(** The digest itself. *)
Definition digest_of (alg : Z) (d : bytes) : bytes := default [] (EVP_Digest alg d).

Lemma digest_known alg : 0 <= alg < SSH_DIGEST_MAX ->
  exists g, ssh_digest_by_alg alg = Some g /\ dg_len g = ssh_digest_bytes alg /\ 16 <= dg_len g <= 64.
Proof.
  intros H. unfold SSH_DIGEST_MAX in H.
  assert (K : alg = 0 \/ alg = 1 \/ alg = 2 \/ alg = 3 \/ alg = 4) by lia.
  destruct K as [->|[->|[->|[->| ->]]]]; eexists; (split; [reflexivity|split; [reflexivity|cbn; lia]]).
Qed.

Lemma digest_bytes_range alg : 0 <= alg < SSH_DIGEST_MAX -> 16 <= ssh_digest_bytes alg <= 64.
Proof. intros H. destruct (digest_known alg H) as (g & _ & <- & ?). lia. Qed.

Lemma digest_of_spec alg d : 0 <= alg < SSH_DIGEST_MAX ->
  EVP_Digest alg d = Some (digest_of alg d) /\ zlen (digest_of alg d) = ssh_digest_bytes alg.
Proof. intros H. destruct (digest_once alg d H) as (h & E & Hl). unfold digest_of. by rewrite E. Qed.

Lemma start_spec alg : 0 <= alg < SSH_DIGEST_MAX ->
  exists ctx, ssh_digest_start true alg = Some ctx /\ digesting ctx alg [].
Proof.
  intros H. destruct (digest_known alg H) as (g & Hg & _). destruct (digest_init alg H) as (c & Hc & Hh).
  unfold ssh_digest_start. rewrite Hg, Hc. by eexists.
Qed.

Lemma update_spec ctx alg d v : digesting ctx alg d ->
  exists ctx', ssh_digest_update ctx v = Ok ctx' /\ digesting ctx' alg (d ++ v).
Proof.
  intros [<- H]. destruct (digest_update _ _ _ v H) as (c & Hc & Hh).
  unfold ssh_digest_update. rewrite Hc. by eexists.
Qed.

Lemma updates_spec l : forall ctx alg d, digesting ctx alg d ->
  exists ctx', ssh_digest_updates ctx l = Ok ctx' /\ digesting ctx' alg (d ++ concat l).
Proof.
  induction l as [|v l IH]; intros ctx alg d H; cbn.
  - exists ctx. by rewrite app_nil_r.
  - destruct (update_spec ctx alg d v H) as (c & -> & Hc).
    destruct (IH c alg _ Hc) as (c' & -> & Hc'). exists c'. by rewrite app_assoc.
Qed.

Lemma copy_spec from to alg d : digesting from alg d -> dc_alg to = alg ->
  exists ctx, ssh_digest_copy_state from to = Ok ctx /\ digesting ctx alg d.
Proof.
  intros [Ha H] Ht. destruct (digest_copy _ _ _ H) as (c & Hc & Hh).
  unfold ssh_digest_copy_state. rewrite Ha, Ht, Z.eqb_refl, Hc. by eexists.
Qed.

Lemma final_spec ctx alg d dlen : digesting ctx alg d -> 0 <= alg < SSH_DIGEST_MAX ->
  ssh_digest_bytes alg <= dlen <= UINT_MAX -> ssh_digest_final ctx dlen = Ok (digest_of alg d).
Proof.
  intros [Ha H] Hr Hd. destruct (digest_known alg Hr) as (g & Hg & Hl & _).
  destruct (digest_of_spec alg d Hr) as [Hh Hz].
  unfold ssh_digest_final. rewrite Ha, Hg, (digest_final _ _ _ H), Hh, Hz, Hl, Z.eqb_refl.
  destruct (Z.gtb_spec dlen UINT_MAX), (Z.ltb_spec dlen (ssh_digest_bytes alg)); [lia..|done].
Qed.

Lemma memory_spec alg d dlen : 0 <= alg < SSH_DIGEST_MAX ->
  ssh_digest_bytes alg <= dlen <= UINT_MAX -> ssh_digest_memory alg d dlen = Ok (digest_of alg d).
Proof.
  intros Hr Hd. destruct (digest_known alg Hr) as (g & Hg & Hl & _).
  unfold ssh_digest_memory. rewrite Hg, Hl, (proj1 (digest_of_spec alg d Hr)).
  destruct (Z.gtb_spec dlen UINT_MAX), (Z.ltb_spec dlen (ssh_digest_bytes alg)); [lia..|done].
Qed.
End laws.

(** ** A digest that satisfies the laws *)

(** The first bytes of the data, filled up with zeros: it evaluates. *)
Definition plain_hash (alg : Z) (d : bytes) : bytes :=
  let n := ssh_digest_bytes alg in take (Z.to_nat n) (d ++ zeros n).

Definition plain_digest : Digest := {|
  md := Z * bytes;
  EVP_DigestInit_ex alg := Some (alg, []);
  EVP_DigestUpdate c v := Some (fst c, snd c ++ v);
  EVP_DigestFinal_ex c := Some (plain_hash (fst c) (snd c));
  EVP_MD_CTX_copy_ex c := Some c;
  EVP_MD_CTX_block_size c := 64;
  EVP_Digest alg d := Some (plain_hash alg d)
|}.

#[export] Instance plain_digest_laws : @DigestLaws plain_digest.
Proof.
  refine {| md_holds := fun c alg d => (c : @md plain_digest) = (alg, d); EVP_MD_block_size _ := 64 |}.
  - intros alg _. by eexists.
  - intros c alg d v ->. by eexists.
  - intros c alg d ->. by eexists.
  - by intros c alg d ->.
  - intros alg d H. eexists. split; [reflexivity|]. unfold plain_hash.
    pose proof (digest_bytes_range alg H). pose proof (zlen_nonneg d). zlen.
  - by intros c alg d ->.
  - intros alg H. pose proof (digest_bytes_range alg H). unfold UINT_MAX. lia.
Defined.
