(* ===== verification/Hmac.v ===== *)
(** hmac.c: message authentication codes from digests, against RFC 2104. *)

From S2P Require Import Prelude SshErr Wire SshQueue ChaCha Digest.

Section code.
Context {D : Digest}.

(** [struct ssh_hmac_ctx]; [buf] is [buf_len] bytes. *)
Record ssh_hmac_ctx := mk_hmac {
  hc_alg : Z; hc_ictx : ssh_digest_ctx; hc_octx : ssh_digest_ctx; hc_digest : ssh_digest_ctx;
  hc_buf : bytes
}.

Definition ssh_hmac_bytes (alg : Z) : Z := ssh_digest_bytes alg.

(** [alloc_ok]: every allocation succeeds. *)
Definition ssh_hmac_start (alloc_ok : bool) (alg : Z) : option ssh_hmac_ctx :=
  match ssh_digest_start alloc_ok alg, ssh_digest_start alloc_ok alg, ssh_digest_start alloc_ok alg with
  | Some ictx, Some octx, Some digest => Some (mk_hmac alg ictx octx digest (zeros (ssh_digest_blocksize ictx)))
  | _, _, _ => None
  end.

(** The loop [buf[i] ^= c]. *)
Definition xor_all (c : Z) (buf : bytes) : bytes := map (fun b => byte_xor b (byte_of_Z c)) buf.

(** [v] copied to the start of [buf]. *)
Definition copy_to (buf v : bytes) : bytes := v ++ drop (length v) buf.

(** The first part of [ssh_hmac_init], with a key of [klen] bytes. *)
Definition hmac_set_key (ctx : ssh_hmac_ctx) (key : bytes) (klen : Z) : option ssh_hmac_ctx :=
  let buf_len := zlen (hc_buf ctx) in
  match (if klen <=? buf_len then Ok (take (Z.to_nat klen) key)
         else ssh_digest_memory (hc_alg ctx) (take (Z.to_nat klen) key) buf_len) with
  | Err _ => None
  | Ok k =>
    let buf := xor_all 0x36 (copy_to (hc_buf ctx) k) in
    match ssh_digest_update (hc_ictx ctx) buf with
    | Err _ => None
    | Ok ictx =>
      let buf := xor_all (Z.lxor 0x36 0x5c) buf in
      match ssh_digest_update (hc_octx ctx) buf with
      | Err _ => None
      | Ok octx => Some (mk_hmac (hc_alg ctx) ictx octx (hc_digest ctx) buf)
      end
    end
  end.

(** [None] is -1; a context is not used after it. *)
Definition ssh_hmac_init (ctx : ssh_hmac_ctx) (key : option bytes) (klen : Z) : option ssh_hmac_ctx :=
  match (match key with Some key => hmac_set_key ctx key klen | None => Some ctx end) with
  | None => None
  | Some ctx =>
    match ssh_digest_copy_state (hc_ictx ctx) (hc_digest ctx) with
    | Err _ => None
    | Ok digest => Some (mk_hmac (hc_alg ctx) (hc_ictx ctx) (hc_octx ctx) digest (hc_buf ctx))
    end
  end.

Definition ssh_hmac_update (ctx : ssh_hmac_ctx) (m : bytes) : option ssh_hmac_ctx :=
  match ssh_digest_update (hc_digest ctx) m with
  | Err _ => None
  | Ok digest => Some (mk_hmac (hc_alg ctx) (hc_ictx ctx) (hc_octx ctx) digest (hc_buf ctx))
  end.

(** The code, and the context; the inner digest stays in [buf]. *)
Definition ssh_hmac_final (ctx : ssh_hmac_ctx) (dlen : Z) : option (bytes * ssh_hmac_ctx) :=
  let len := ssh_digest_bytes (hc_alg ctx) in
  if dlen <? len then None
  else
  match ssh_digest_final (hc_digest ctx) len with
  | Err _ => None
  | Ok inner =>
    let buf := copy_to (hc_buf ctx) inner in
    match ssh_digest_copy_state (hc_octx ctx) (hc_digest ctx) with
    | Err _ => None
    | Ok digest =>
      match ssh_digest_update digest (take (Z.to_nat len) buf) with
      | Err _ => None
      | Ok digest =>
        match ssh_digest_final digest dlen with
        | Err _ => None
        | Ok d => Some (d, mk_hmac (hc_alg ctx) (hc_ictx ctx) (hc_octx ctx) digest buf)
        end
      end
    end
  end.

(** A message in pieces with a context that has its key, as mac.c does it. *)
Fixpoint hmac_updates (ctx : ssh_hmac_ctx) (l : list bytes) : option ssh_hmac_ctx :=
  match l with
  | [] => Some ctx
  | m :: l => match ssh_hmac_update ctx m with None => None | Some ctx => hmac_updates ctx l end
  end.

Definition hmac_message (ctx : ssh_hmac_ctx) (l : list bytes) (dlen : Z) : option (bytes * ssh_hmac_ctx) :=
  match ssh_hmac_init ctx None 0 with
  | None => None
  | Some ctx => match hmac_updates ctx l with None => None | Some ctx => ssh_hmac_final ctx dlen end
  end.
End code.

(** ** RFC 2104 *)

Section spec.
Context {D : Digest} {L : DigestLaws}.

(** The key, filled up with zeros to a block; a longer one is digested. *)
Definition hmac_key (alg : Z) (key : bytes) : bytes :=
  let block := EVP_MD_block_size alg in
  let k := if zlen key <=? block then key else digest_of alg key in
  k ++ zeros (block - zlen k).

Definition hmac (alg : Z) (key m : bytes) : bytes :=
  let k := hmac_key alg key in
  digest_of alg (xor_all 0x5c k ++ digest_of alg (xor_all 0x36 k ++ m)).

(** A context with its key, whatever is left in it of earlier messages. *)
Record keyed (ctx : ssh_hmac_ctx) (alg : Z) (key : bytes) : Prop := {
  keyed_alg : hc_alg ctx = alg /\ dc_alg (hc_digest ctx) = alg;
  keyed_in : digesting (hc_ictx ctx) alg (xor_all 0x36 (hmac_key alg key));
  keyed_out : digesting (hc_octx ctx) alg (xor_all 0x5c (hmac_key alg key))
}.

Lemma xor_all_twice v : xor_all (Z.lxor 0x36 0x5c) (xor_all 0x36 v) = xor_all 0x5c v.
Proof.
  unfold xor_all. rewrite map_map. apply map_ext. intros b. apply (proj1 (bool_decide_eq_true _)). revert b.
  apply (byte_forall (fun b => bool_decide
    (byte_xor (byte_xor b (byte_of_Z 0x36)) (byte_of_Z (Z.lxor 0x36 0x5c)) = byte_xor b (byte_of_Z 0x5c)))).
  vm_compute. reflexivity.
Qed.

Lemma copy_to_zeros n v : zlen v <= n -> copy_to (zeros n) v = v ++ zeros (n - zlen v).
Proof.
  intros H. unfold copy_to, zeros. rewrite drop_replicate. do 2 f_equal. unfold zlen in *. lia.
Qed.

Lemma hmac_updates_spec l : forall ctx alg key d, keyed ctx alg key -> digesting (hc_digest ctx) alg d ->
  exists ctx', hmac_updates ctx l = Some ctx' /\ keyed ctx' alg key /\
    digesting (hc_digest ctx') alg (d ++ concat l).
Proof.
  induction l as [|m l IH]; intros ctx alg key d K H; cbn [hmac_updates concat].
  - exists ctx. by rewrite app_nil_r.
  - unfold ssh_hmac_update. destruct (update_spec _ _ _ m H) as (c & -> & Hc). destruct K as [[Ka _] Ki Ko].
    destruct (IH (mk_hmac (hc_alg ctx) (hc_ictx ctx) (hc_octx ctx) c (hc_buf ctx)) alg key (d ++ m)) as (c' & -> & K' & H');
      [split; [split; [done|apply Hc]|done|done]|exact Hc|].
    exists c'. by rewrite app_assoc.
Qed.

Lemma keyed_init ctx alg key : keyed ctx alg key -> exists ctx', ssh_hmac_init ctx None 0 = Some ctx' /\
  keyed ctx' alg key /\ digesting (hc_digest ctx') alg (xor_all 0x36 (hmac_key alg key)).
Proof.
  intros [[Ka Kd] Ki Ko]. destruct (copy_spec _ (hc_digest ctx) _ _ Ki Kd) as (c & Hc & Hd).
  exists (mk_hmac (hc_alg ctx) (hc_ictx ctx) (hc_octx ctx) c (hc_buf ctx)).
  unfold ssh_hmac_init. rewrite Hc. split; [done|]. split; [|exact Hd].
  by split; [split; [|apply Hd]| |].
Qed.

Lemma keyed_final ctx alg key d dlen : keyed ctx alg key -> digesting (hc_digest ctx) alg d ->
  0 <= alg < SSH_DIGEST_MAX -> ssh_digest_bytes alg <= dlen <= UINT_MAX ->
  exists ctx', ssh_hmac_final ctx dlen =
      Some (digest_of alg (xor_all 0x5c (hmac_key alg key) ++ digest_of alg d), ctx') /\ keyed ctx' alg key.
Proof.
  intros [[Ka Kd] Ki Ko] H Hr Hd. pose proof (digest_bytes_range alg Hr).
  destruct (digest_of_spec alg d Hr) as [_ Hz].
  unfold ssh_hmac_final. rewrite Ka. destruct (Z.ltb_spec dlen (ssh_digest_bytes alg)); [lia|].
  rewrite (final_spec _ alg d) by (done || unfold UINT_MAX; lia).
  destruct (copy_spec _ (hc_digest ctx) _ _ Ko Kd) as (c & -> & Hc).
  replace (take _ (copy_to _ _)) with (digest_of alg d).
  2: { unfold copy_to. rewrite <- Hz. unfold zlen. by rewrite Nat2Z.id, take_app_length. }
  destruct (update_spec _ _ _ (digest_of alg d) Hc) as (c' & -> & Hc').
  rewrite (final_spec _ alg _ dlen Hc') by done.
  eexists. split; [reflexivity|]. by split; [split; [|apply Hc']| |].
Qed.

Lemma set_key_spec alg key klen : 0 <= alg < SSH_DIGEST_MAX -> 0 <= klen <= zlen key ->
  exists ctx ctx', ssh_hmac_start true alg = Some ctx /\ ssh_hmac_init ctx (Some key) klen = Some ctx' /\
    keyed ctx' alg (take (Z.to_nat klen) key).
Proof.
  intros Hr Hk. destruct (start_spec alg Hr) as (c & Hs & Hc). destruct Hc as [Ha Hh].
  set (k := take (Z.to_nat klen) key). assert (Hkz : zlen k = klen) by (unfold k; rewrite zlen_take; lia).
  pose proof (digest_bytes_range alg Hr). pose proof (digest_block_size alg Hr) as Hb.
  pose proof (digest_block _ _ _ Hh) as Hbl.
  set (block := EVP_MD_block_size alg) in *.
  exists (mk_hmac alg c c c (zeros block)). unfold ssh_hmac_start. rewrite Hs. unfold ssh_digest_blocksize. rewrite Hbl.
  unfold ssh_hmac_init, hmac_set_key. cbn [hc_buf hc_alg hc_ictx hc_octx hc_digest]. fold k. rewrite zlen_zeros by lia.
  assert (K : exists v, (if klen <=? block then Ok k else ssh_digest_memory alg k block) = Ok v /\
    copy_to (zeros block) v = hmac_key alg k).
  { unfold hmac_key. fold block. rewrite Hkz. destruct (Z.leb_spec klen block).
    - exists k. split; [done|]. apply copy_to_zeros. lia.
    - exists (digest_of alg k). rewrite memory_spec by (done || lia). split; [done|].
      apply copy_to_zeros. rewrite (proj2 (digest_of_spec alg k Hr)). lia. }
  destruct K as (v & -> & ->).
  destruct (update_spec c alg [] (xor_all 0x36 (hmac_key alg k))) as (ci & -> & Hi); [done|].
  rewrite xor_all_twice.
  destruct (update_spec c alg [] (xor_all 0x5c (hmac_key alg k))) as (co & -> & Ho); [done|].
  cbn [hc_ictx hc_digest]. destruct (copy_spec ci c alg _ Hi Ha) as (cd & -> & Hd).
  eexists. split_and!; [reflexivity..|]. split; [split; [done|apply Hd]|exact Hi|exact Ho].
Qed.

Lemma hmac_message_spec ctx alg key l dlen : keyed ctx alg key -> 0 <= alg < SSH_DIGEST_MAX ->
  ssh_digest_bytes alg <= dlen <= UINT_MAX ->
  exists ctx', hmac_message ctx l dlen = Some (hmac alg key (concat l), ctx') /\ keyed ctx' alg key.
Proof.
  intros K Hr Hd. unfold hmac_message. destruct (keyed_init _ _ _ K) as (c & -> & K1 & H1).
  destruct (hmac_updates_spec l c alg key _ K1 H1) as (c' & -> & K2 & H2).
  by apply keyed_final.
Qed.

(** Messages one after the other with the same context. *)
Fixpoint hmac_messages (ctx : ssh_hmac_ctx) (ms : list (list bytes)) (dlen : Z) : option (list bytes) :=
  match ms with
  | [] => Some []
  | m :: ms =>
    match hmac_message ctx m dlen with
    | None => None
    | Some (d, ctx) => option_map (cons d) (hmac_messages ctx ms dlen)
    end
  end.

Lemma hmac_messages_spec ms : forall ctx alg key dlen, keyed ctx alg key -> 0 <= alg < SSH_DIGEST_MAX ->
  ssh_digest_bytes alg <= dlen <= UINT_MAX ->
  hmac_messages ctx ms dlen = Some (map (fun m => hmac alg key (concat m)) ms).
Proof.
  induction ms as [|m ms IH]; intros ctx alg key dlen K Hr Hd; [done|]. cbn [hmac_messages map].
  destruct (hmac_message_spec ctx alg key m dlen K Hr Hd) as (c & -> & K'). by erewrite IH.
Qed.
End spec.

(** Claim C29: hmac.c computes the HMAC of RFC 2104, for a key of any length and a message in
    any pieces, and one context serves any number of messages: the inner digest that a
    message leaves in the context's buffer does not show in the next. *)
Theorem hmac_correct {D : Digest} {L : DigestLaws} alg key klen ms dlen
    (Ha : 0 <= alg < SSH_DIGEST_MAX) (Hk : 0 <= klen <= zlen key)
    (Hd : ssh_digest_bytes alg <= dlen <= UINT_MAX) :
  exists ctx ctx', ssh_hmac_start true alg = Some ctx /\ ssh_hmac_init ctx (Some key) klen = Some ctx' /\
    hmac_messages ctx' ms dlen = Some (map (fun m => hmac alg (take (Z.to_nat klen) key) (concat m)) ms).
Proof.
  destruct (set_key_spec alg key klen Ha Hk) as (c & c' & Hs & Hi & K).
  exists c, c'. split_and!; [done|done|]. by apply hmac_messages_spec.
Qed.

#[local] Existing Instance plain_digest.

Lemma hmac_correct_witness :
  exists ctx ctx' : @ssh_hmac_ctx plain_digest, ssh_hmac_start true SSH_DIGEST_SHA1 = Some ctx /\
    ssh_hmac_init ctx (Some (lit "key")) 3 = Some ctx' /\
    hmac_messages ctx' [[lit "a"; lit "b"]; []] 64 =
      Some (map (fun m => hmac SSH_DIGEST_SHA1 (take 3 (lit "key")) (concat m)) [[lit "a"; lit "b"]; []]).
Proof.
  apply (hmac_correct SSH_DIGEST_SHA1 (lit "key") 3 [[lit "a"; lit "b"]; []] 64); vm_compute; split; congruence.
Defined.
