(* ===== verification/SshCipher.v ===== *)
(** cipher.c and mac.c: the algorithms a connection can use, and the two operations the
    packet layer is built on, [cipher_crypt] and [mac_compute]/[mac_check].

    libcrypto is not part of the repository: its operations are those of the class
    [Crypto], with those of [Digest]; umac.c is in it, and is a parameter too.  The definitions are those of a build with
    libcrypto.  A pointer to at least [n] bytes that a function reads is a list of
    at least [n] bytes. *)

From S2P Require Import Prelude SshErr Wire SshQueue Compat.
From S2P Require Import Match ChaCha ChachaPoly Digest Hmac.

(** ** Data *)

Definition CFLAG_CBC : Z := 1.
Definition CFLAG_CHACHAPOLY : Z := 2.
Definition CFLAG_AESCTR : Z := 4.
Definition CFLAG_NONE : Z := 8.
Definition CFLAG_INTERNAL : Z := CFLAG_NONE.

Record sshcipher := mk_cipher {
  c_name : bytes; c_block_size : Z; c_key_len : Z; c_iv_len : Z; c_auth_len : Z; c_flags : Z
}.

Definition ciphers : list sshcipher := [
  mk_cipher (lit "3des-cbc") 8 24 0 0 CFLAG_CBC;
  mk_cipher (lit "aes128-cbc") 16 16 0 0 CFLAG_CBC;
  mk_cipher (lit "aes192-cbc") 16 24 0 0 CFLAG_CBC;
  mk_cipher (lit "aes256-cbc") 16 32 0 0 CFLAG_CBC;
  mk_cipher (lit "aes128-ctr") 16 16 0 0 0;
  mk_cipher (lit "aes192-ctr") 16 24 0 0 0;
  mk_cipher (lit "aes256-ctr") 16 32 0 0 0;
  mk_cipher (lit "aes128-gcm@openssh.com") 16 16 12 16 0;
  mk_cipher (lit "aes256-gcm@openssh.com") 16 32 12 16 0;
  mk_cipher (lit "chacha20-poly1305@openssh.com") 8 64 0 16 CFLAG_CHACHAPOLY;
  mk_cipher (lit "none") 8 0 0 0 CFLAG_NONE
].

Definition has (flags f : Z) : bool := negb (Z.land flags f =? 0).

Definition cipher_blocksize (c : sshcipher) : Z := c_block_size c.
Definition cipher_keylen (c : sshcipher) : Z := c_key_len c.
Definition cipher_seclen (c : sshcipher) : Z :=
  if bool_decide (lit "3des-cbc" = c_name c) then 14 else cipher_keylen c.
Definition cipher_authlen (c : sshcipher) : Z := c_auth_len c.
Definition cipher_ivlen (c : sshcipher) : Z :=
  if negb (c_iv_len c =? 0) || has (c_flags c) CFLAG_CHACHAPOLY then c_iv_len c
  else c_block_size c.
Definition cipher_is_cbc (c : sshcipher) : bool := has (c_flags c) CFLAG_CBC.

Definition cipher_by_name (name : bytes) : option sshcipher :=
  List.find (fun c => bool_decide (c_name c = name)) ciphers.

(** [cipher_alg_list], without its allocations. *)
Definition cipher_alg_list (sep : byte) (auth_only : bool) : option bytes :=
  fold_left (fun ret c =>
    if has (c_flags c) CFLAG_INTERNAL then ret
    else if auth_only && (c_auth_len c =? 0) then ret
    else Some (match ret with None => c_name c | Some r => r ++ [sep] ++ c_name c end))
  ciphers None.

Definition compression_alg_list (compression : bool) : bytes :=
  if compression then lit "zlib@openssh.com,zlib,none" else lit "none,zlib@openssh.com,zlib".

(** The loop of [ciphers_valid] and of [mac_valid]: every name up to an empty one. *)
Fixpoint names_valid (fuel : nat) (valid : bytes -> bool) (cp : option bytes) : bool :=
  match fuel with
  | O => true
  | S fuel =>
    match strsep cp SEP with
    | None => true
    | Some (p, cp) =>
      if is_nil p then true
      else if negb (valid p) then false
      else names_valid fuel valid cp
    end
  end.

(** [strdup_ok]: the copy could be allocated. *)
Definition ciphers_valid (strdup_ok : bool) (names : option bytes) : bool :=
  match names with
  | None => false
  | Some names =>
    if is_nil names then false
    else if negb strdup_ok then false
    else names_valid (S (S (length names))) (fun p =>
           match cipher_by_name p with
           | None => false
           | Some c => negb (has (c_flags c) CFLAG_INTERNAL)
           end) (Some names)
  end.

(** *** MACs *)

Definition SSH_DIGEST : Z := 1.
Definition SSH_UMAC : Z := 2.
Definition SSH_UMAC128 : Z := 3.
Definition UMAC_KEY_LEN : Z := 16.
Record macalg := mk_macalg {
  m_name : bytes; m_type : Z; m_alg : Z; m_truncatebits : Z; m_key_len : Z; m_len : Z; m_etm : bool
}.

Definition macs : list macalg := [
  mk_macalg (lit "hmac-sha1") SSH_DIGEST SSH_DIGEST_SHA1 0 0 0 false;
  mk_macalg (lit "hmac-sha1-96") SSH_DIGEST SSH_DIGEST_SHA1 96 0 0 false;
  mk_macalg (lit "hmac-sha2-256") SSH_DIGEST SSH_DIGEST_SHA256 0 0 0 false;
  mk_macalg (lit "hmac-sha2-512") SSH_DIGEST SSH_DIGEST_SHA512 0 0 0 false;
  mk_macalg (lit "hmac-md5") SSH_DIGEST SSH_DIGEST_MD5 0 0 0 false;
  mk_macalg (lit "hmac-md5-96") SSH_DIGEST SSH_DIGEST_MD5 96 0 0 false;
  mk_macalg (lit "umac-64@openssh.com") SSH_UMAC 0 0 128 64 false;
  mk_macalg (lit "umac-128@openssh.com") SSH_UMAC128 0 0 128 128 false;
  mk_macalg (lit "hmac-sha1-etm@openssh.com") SSH_DIGEST SSH_DIGEST_SHA1 0 0 0 true;
  mk_macalg (lit "hmac-sha1-96-etm@openssh.com") SSH_DIGEST SSH_DIGEST_SHA1 96 0 0 true;
  mk_macalg (lit "hmac-sha2-256-etm@openssh.com") SSH_DIGEST SSH_DIGEST_SHA256 0 0 0 true;
  mk_macalg (lit "hmac-sha2-512-etm@openssh.com") SSH_DIGEST SSH_DIGEST_SHA512 0 0 0 true;
  mk_macalg (lit "hmac-md5-etm@openssh.com") SSH_DIGEST SSH_DIGEST_MD5 0 0 0 true;
  mk_macalg (lit "hmac-md5-96-etm@openssh.com") SSH_DIGEST SSH_DIGEST_MD5 96 0 0 true;
  mk_macalg (lit "umac-64-etm@openssh.com") SSH_UMAC 0 0 128 64 true;
  mk_macalg (lit "umac-128-etm@openssh.com") SSH_UMAC128 0 0 128 128 true
].

Definition mac_alg_list (sep : byte) : option bytes :=
  fold_left (fun ret m =>
    Some (match ret with None => m_name m | Some r => r ++ [sep] ++ m_name m end)) macs None.

(** [struct sshmac]; the contexts are the algorithm of [hmac_ctx] and the key the active
    one was made with. *)
Record sshmac := mk_mac {
  mac_enabled : bool; mac_len : Z; mac_key : option bytes; mac_key_len : Z; mac_type : Z;
  mac_etm : bool; hmac_alg : Z; mac_ctx_key : option bytes
}.

Record sshcipher_ctx_ (evp : Type) := mk_cctx {
  cc_plaintext : bool; cc_encrypt : bool; cc_cipher : sshcipher;
  cc_evp : option evp; cc_cp : option chachapoly_ctx
}.
Arguments mk_cctx {evp}.
Arguments cc_plaintext {evp}.
Arguments cc_encrypt {evp}.
Arguments cc_cipher {evp}.
Arguments cc_evp {evp}.
Arguments cc_cp {evp}.

(** The operations of libcrypto on a cipher context, [None] being failure, and UMAC; [tmp]
    is the content of an uninitialised array. *)
Class Crypto := {
  #[global] crypto_digest :: Digest;
  evp : Type;
  EVP_CipherInit_type : bytes -> option bytes -> bool -> option evp;
  EVP_CTRL_GCM_SET_IV_FIXED : evp -> option bytes -> option evp;
  EVP_CIPHER_CTX_key_length : evp -> Z;
  EVP_CIPHER_CTX_set_key_length : evp -> Z -> option evp;
  EVP_CipherInit_key : evp -> bytes -> option evp;
  EVP_CTRL_GCM_IV_GEN : evp -> option evp;
  EVP_CTRL_GCM_SET_TAG : evp -> bytes -> option evp;
  EVP_Cipher_aad : evp -> bytes -> option evp;
  EVP_Cipher : evp -> bytes -> option (bytes * evp);
  EVP_Cipher_final : evp -> option evp;
  EVP_CTRL_GCM_GET_TAG : evp -> Z -> option bytes;
  umac : option bytes -> bytes -> bytes -> bytes;
  umac128 : option bytes -> bytes -> bytes -> bytes;
  tmp : bytes
}.

Section code.
Context {C : Crypto}.

Definition sshcipher_ctx : Type := sshcipher_ctx_ evp.

Definition set_evp (e : evp) (cc : sshcipher_ctx) : sshcipher_ctx :=
  mk_cctx (cc_plaintext cc) (cc_encrypt cc) (cc_cipher cc) (Some e) (cc_cp cc).
Definition set_cp (c : chachapoly_ctx) (cc : sshcipher_ctx) : sshcipher_ctx :=
  mk_cctx (cc_plaintext cc) (cc_encrypt cc) (cc_cipher cc) (cc_evp cc) (Some c).

Definition cipher_ctx_is_plaintext (cc : sshcipher_ctx) : bool := cc_plaintext cc.

(** ** cipher_init *)

Definition cipher_init (cipher : sshcipher) (key : bytes) (keylen : Z) (iv : option bytes)
    (ivlen : Z) (do_encrypt : bool) : res sshcipher_ctx :=
  let cc e cp := mk_cctx (has (c_flags cipher) CFLAG_NONE) do_encrypt cipher e cp in
  if (keylen <? c_key_len cipher) ||
     (match iv with Some _ => ivlen <? cipher_ivlen cipher | None => false end)
  then Err SSH_ERR_INVALID_ARGUMENT
  else if has (c_flags cipher) CFLAG_CHACHAPOLY then
    match chachapoly_new key keylen with
    | Some c => Ok (cc None (Some c))
    | None => Err SSH_ERR_INVALID_ARGUMENT
    end
  else if has (c_flags cipher) CFLAG_NONE then Ok (cc None None)
  else
    let fail := Err SSH_ERR_LIBCRYPTO_ERROR in
    match EVP_CipherInit_type (c_name cipher) iv do_encrypt with
    | None => fail
    | Some e =>
      match (if negb (cipher_authlen cipher =? 0) then EVP_CTRL_GCM_SET_IV_FIXED e iv
             else Some e) with
      | None => fail
      | Some e =>
        let klen := EVP_CIPHER_CTX_key_length e in
        match (if (klen >? 0) && negb (keylen =? klen) then EVP_CIPHER_CTX_set_key_length e keylen
               else Some e) with
        | None => fail
        | Some e =>
          match EVP_CipherInit_key e key with
          | None => fail
          | Some e => Ok (cc (Some e) None)
          end
        end
      end
    end.

(** ** cipher_crypt *)

(** The branch of libcrypto, in the order of its calls.  A context that failed is not
    used again: the result carries none then. *)
Definition evp_crypt (cc : sshcipher_ctx) (e : evp) (src : bytes) (len aadlen authlen : Z)
    : res (bytes * evp) :=
  let fail {A} : res A := Err SSH_ERR_LIBCRYPTO_ERROR in
  let auth := negb (authlen =? 0) in
  if auth && negb (authlen =? cipher_authlen (cc_cipher cc)) then Err SSH_ERR_INVALID_ARGUMENT
  else
  match (if auth then EVP_CTRL_GCM_IV_GEN e else Some e) with None => fail | Some e =>
  match (if auth && negb (cc_encrypt cc) then EVP_CTRL_GCM_SET_TAG e (slice (aadlen + len) authlen src)
         else Some e) with None => fail | Some e =>
  match (if negb (aadlen =? 0) && auth then EVP_Cipher_aad e (slice 0 aadlen src)
         else Some e) with None => fail | Some e =>
  let aad := slice 0 aadlen src in
  if negb (len mod c_block_size (cc_cipher cc) =? 0) then Err SSH_ERR_INVALID_ARGUMENT
  else
  match EVP_Cipher e (slice aadlen len src) with None => fail | Some (body, e) =>
  match (if auth then EVP_Cipher_final e else Some e) with
  | None => if cc_encrypt cc then fail else Err SSH_ERR_MAC_INVALID
  | Some e =>
  match (if auth && cc_encrypt cc then EVP_CTRL_GCM_GET_TAG e authlen else Some []) with
  | None => fail
  | Some tag => Ok (aad ++ body ++ tag, e)
  end end end end end end.

(** [cipher_crypt]: what is written to [dest], and the context. *)
Definition cipher_crypt (cc : sshcipher_ctx) (seqnr : Z) (src : bytes) (len aadlen authlen : Z)
    : res bytes * sshcipher_ctx :=
  if has (c_flags (cc_cipher cc)) CFLAG_CHACHAPOLY then
    match cc_cp cc with
    | Some c =>
      let '(r, c) := chachapoly_crypt tmp c seqnr src len aadlen authlen (cc_encrypt cc) in
      (r, set_cp c cc)
    | None => (Err SSH_ERR_INTERNAL_ERROR, cc)   (* not reached: cipher_init made it *)
    end
  else if has (c_flags (cc_cipher cc)) CFLAG_NONE then (Ok (slice 0 (aadlen + len) src), cc)
  else
    match cc_evp cc with
    | Some e =>
      match evp_crypt cc e src len aadlen authlen with
      | Ok (dest, e) => (Ok dest, set_evp e cc)
      | Err x => (Err x, cc)
      end
    | None => (Err SSH_ERR_INTERNAL_ERROR, cc)   (* not reached *)
    end.

Definition cipher_get_length (cc : sshcipher_ctx) (seqnr : Z) (cp : bytes) (len : Z)
    : res Z * sshcipher_ctx :=
  if has (c_flags (cc_cipher cc)) CFLAG_CHACHAPOLY then
    match cc_cp cc with
    | Some c => let '(r, c) := chachapoly_get_length tmp c seqnr cp len in (r, set_cp c cc)
    | None => (Err SSH_ERR_INTERNAL_ERROR, cc)
    end
  else if len <? 4 then (Err SSH_ERR_MESSAGE_INCOMPLETE, cc)
  else (Ok (PEEK_U32 (slice 0 4 cp)), cc).

(** ** mac.c *)

(** The context of a MAC after [mac_init]; it is made again for every packet, which gives
    the same codes ([hmac_correct]). *)
Definition hmac_context (alg : Z) (key : option bytes) : option ssh_hmac_ctx :=
  match ssh_hmac_start true alg with
  | None => None
  | Some ctx => match key with Some key => ssh_hmac_init ctx (Some key) (zlen key) | None => Some ctx end
  end.

Definition ssh_hmac (alg : Z) (key : option bytes) (pieces : list bytes) : option bytes :=
  match hmac_context alg key with
  | None => None
  | Some ctx => option_map fst (hmac_message ctx pieces SSH_DIGEST_MAX_LENGTH)
  end.

(** [alloc_ok]: the allocations of [ssh_hmac_start] succeed. *)
Definition mac_setup_by_alg (alloc_ok : bool) (mac : sshmac) (a : macalg) : res sshmac :=
  let digest := m_type a =? SSH_DIGEST in
  if digest && negb (bool_decide (is_Some (ssh_hmac_start alloc_ok (m_alg a))))
  then Err SSH_ERR_ALLOC_FAIL
  else
  let '(klen, mlen) :=
    if digest then (ssh_hmac_bytes (m_alg a), ssh_hmac_bytes (m_alg a))
    else (m_key_len a / 8, m_len a / 8) in
  let mlen := if negb (m_truncatebits a =? 0) then m_truncatebits a / 8 else mlen in
  Ok (mk_mac (mac_enabled mac) mlen (mac_key mac) klen (m_type a) (m_etm a) (m_alg a) None).

Definition mac_setup (alloc_ok : bool) (mac : sshmac) (name : bytes) : res sshmac :=
  match List.find (fun a => bool_decide (name = m_name a)) macs with
  | Some a => mac_setup_by_alg alloc_ok mac a
  | None => Err SSH_ERR_INVALID_ARGUMENT
  end.

Definition mac_valid (strdup_ok : bool) (names : option bytes) : bool :=
  match names with
  | None => false
  | Some names =>
    if is_nil names then false
    else if negb strdup_ok then false
    else names_valid (S (S (length names)))
           (fun p => bool_decide (List.find (fun a => bool_decide (p = m_name a)) macs <> None))
           (Some names)
  end.

Definition mac_init (mac : sshmac) : res sshmac :=
  match mac_key mac with
  | None => Err SSH_ERR_INVALID_ARGUMENT
  | Some key =>
    let with_key key :=
      mk_mac (mac_enabled mac) (mac_len mac) (mac_key mac) (mac_key_len mac) (mac_type mac)
        (mac_etm mac) (hmac_alg mac) (Some key) in
    if mac_type mac =? SSH_DIGEST then
      let key := take (Z.to_nat (mac_key_len mac)) key in
      if bool_decide (is_Some (hmac_context (hmac_alg mac) (Some key))) then Ok (with_key key)
      else Err SSH_ERR_INVALID_ARGUMENT
    else if (mac_type mac =? SSH_UMAC) || (mac_type mac =? SSH_UMAC128) then
      Ok (with_key (slice 0 UMAC_KEY_LEN key))      (* what umac_new reads *)
    else Err SSH_ERR_INVALID_ARGUMENT
  end.

(** The [dlen] bytes written to [digest]. *)
Definition mac_compute (mac : sshmac) (seqno : Z) (data : bytes) (dlen : Z) : res bytes :=
  if mac_len mac >? SSH_DIGEST_MAX_LENGTH then Err SSH_ERR_INTERNAL_ERROR
  else
  let m :=
    if mac_type mac =? SSH_DIGEST then
      match ssh_hmac (hmac_alg mac) (mac_ctx_key mac) [POKE_U32 seqno; data] with
      | Some m => Ok m
      | None => Err SSH_ERR_LIBCRYPTO_ERROR
      end
    else if mac_type mac =? SSH_UMAC then Ok (umac (mac_ctx_key mac) data (POKE_U64 seqno))
    else if mac_type mac =? SSH_UMAC128 then Ok (umac128 (mac_ctx_key mac) data (POKE_U64 seqno))
    else Err SSH_ERR_INVALID_ARGUMENT in
  match m with
  | Ok m => Ok (take (Z.to_nat (Z.min dlen (mac_len mac))) m)
  | Err e => Err e
  end.

(** 0 is success. *)
Definition mac_check (mac : sshmac) (seqno : Z) (data theirmac : bytes) (mlen : Z) : option ssh_error :=
  if mac_len mac >? mlen then Some SSH_ERR_INVALID_ARGUMENT
  else
  match mac_compute mac seqno data SSH_DIGEST_MAX_LENGTH with
  | Err e => Some e
  | Ok ourmac =>
    match timingsafe_bcmp ourmac theirmac (mac_len mac) with
    | Some 0 => None
    | _ => Some SSH_ERR_MAC_INVALID
    end
  end.
End code.
