(* ===== verification/CipherLink.v ===== *)
(** The two ends of a cipher: what the packet layer needs of [cipher_crypt] and
    [cipher_get_length], as the class [PacketCipher], and that the ciphers of cipher.c
    provide it, given that libcrypto's do ([CryptoLaws]). *)

From S2P Require Import Prelude SshErr Wire SshQueue Compat CompatThms.
From S2P Require Import Poly1305 ChaCha ChachaPoly SshCipher.

(** ** The interface *)

(** [linked s r]: [r] deciphers what [s] enciphers next. *)
Class PacketCipher {C : Crypto} (linked : sshcipher_ctx -> sshcipher_ctx -> Prop) := {
  link_same s r : linked s r -> cc_cipher s = cc_cipher r /\ 8 <= c_block_size (cc_cipher s) <= 16 /\
    (cipher_authlen (cc_cipher s) = 0 \/ cipher_authlen (cc_cipher s) = 16) /\
    (has (c_flags (cc_cipher s)) CFLAG_CHACHAPOLY = true -> cipher_authlen (cc_cipher s) = 16);
  (** A packet with a length of four bytes that is not enciphered, or not by the body's
      stream. *)
  link_aad s r seqnr p len :
    linked s r -> 0 <= seqnr -> zlen p = 4 + len -> 0 <= len ->
    len mod c_block_size (cc_cipher s) = 0 ->
    let authlen := cipher_authlen (cc_cipher s) in
    exists c s' r1 r2, cipher_crypt s seqnr p len 4 authlen = (Ok c, s') /\
      zlen c = 4 + len + authlen /\
      (forall tail, cipher_get_length r seqnr (c ++ tail) (zlen (c ++ tail)) =
                      (Ok (PEEK_U32 (slice 0 4 p)), r1)) /\
      cipher_crypt r1 seqnr c len 4 authlen = (Ok p, r2) /\ linked s' r2;
  (** Without the four bytes the length is not known. *)
  link_short r s seqnr v : linked s r -> zlen v < 4 -> cipher_get_length r seqnr v (zlen v) =
    (Err SSH_ERR_MESSAGE_INCOMPLETE, r);
  (** A packet enciphered whole, deciphered in two steps. *)
  link_plain s r seqnr seqnr' p :
    linked s r -> cipher_authlen (cc_cipher s) = 0 ->
    c_block_size (cc_cipher s) <= zlen p -> zlen p mod c_block_size (cc_cipher s) = 0 ->
    let bs := c_block_size (cc_cipher s) in
    exists c s' r1 r2, cipher_crypt s seqnr p (zlen p) 0 0 = (Ok c, s') /\ zlen c = zlen p /\
      cipher_crypt r seqnr' (slice 0 bs c) bs 0 0 = (Ok (slice 0 bs p), r1) /\
      cipher_crypt r1 seqnr (drop (Z.to_nat bs) c) (zlen p - bs) 0 0 =
        (Ok (drop (Z.to_nat bs) p), r2) /\ linked s' r2
}.

(** What follows the packet in the input is not looked at. *)
Lemma crypt_prefix {C : Crypto} cc n v w len aadlen authlen :
  (has (c_flags (cc_cipher cc)) CFLAG_CHACHAPOLY = true -> authlen = 16) ->
  0 <= len -> 0 <= aadlen -> 0 <= authlen -> aadlen + len + authlen <= zlen v ->
  cipher_crypt cc n (v ++ w) len aadlen authlen = cipher_crypt cc n v len aadlen authlen.
Proof.
  intros Hf Hl Ha Ht Hv. unfold cipher_crypt. destruct (has (c_flags (cc_cipher cc)) CFLAG_CHACHAPOLY).
  - rewrite (Hf eq_refl) in Hv. destruct (cc_cp cc) as [c|]; [|done]. unfold chachapoly_crypt.
    rewrite (slice_prefix (aadlen + len) POLY1305_TAGLEN), (slice_prefix 0 (aadlen + len)),
      (slice_prefix 0 aadlen), (slice_prefix aadlen len); unfold POLY1305_TAGLEN; (done || lia).
  - rewrite (slice_prefix 0 (aadlen + len)) by lia. destruct (has _ _); [done|].
    destruct (cc_evp cc) as [e|]; [|done]. unfold evp_crypt.
    by rewrite (slice_prefix (aadlen + len) authlen), (slice_prefix 0 aadlen), (slice_prefix aadlen len) by lia.
Qed.

(** A context keeps its cipher. *)
Lemma crypt_cipher {C : Crypto} cc n src len aadlen authlen :
  cc_cipher (snd (cipher_crypt cc n src len aadlen authlen)) = cc_cipher cc.
Proof.
  unfold cipher_crypt. destruct (has _ _).
  - destruct (cc_cp cc) as [c|]; [|done]. by destruct (chachapoly_crypt _ _ _ _ _ _ _ _).
  - destruct (has _ _); [done|]. destruct (cc_evp cc) as [e|]; [|done].
    by destruct (evp_crypt _ _ _ _ _ _) as [[? ?]|?].
Qed.

Lemma get_length_cipher {C : Crypto} cc n cp len :
  cc_cipher (snd (cipher_get_length cc n cp len)) = cc_cipher cc.
Proof.
  unfold cipher_get_length. destruct (has _ _).
  - destruct (cc_cp cc) as [c|]; [|done]. by destruct (chachapoly_get_length _ _ _ _ _).
  - by destruct (len <? 4).
Qed.

(** ** libcrypto *)

Class CryptoLaws {C : Crypto} := {
  (** An enciphering and a deciphering context with the same key, iv and position. *)
  evp_linked : sshcipher -> evp -> evp -> Prop;
  evp_stream c e d p : evp_linked c e d -> cipher_authlen c = 0 -> zlen p mod c_block_size c = 0 ->
    exists q e' d', EVP_Cipher e p = Some (q, e') /\ zlen q = zlen p /\
      EVP_Cipher d q = Some (p, d') /\ evp_linked c e' d';
  evp_split c e d p q1 q2 d' : evp_linked c e d -> zlen q1 mod c_block_size c = 0 ->
    EVP_Cipher d (q1 ++ q2) = Some (p, d') ->
    exists d1, EVP_Cipher d q1 = Some (take (length q1) p, d1) /\
      EVP_Cipher d1 q2 = Some (drop (length q1) p, d');
  evp_gcm c e d aad p : evp_linked c e d -> cipher_authlen c <> 0 -> zlen p mod c_block_size c = 0 ->
    exists e1 e2 e3 e4 q tag d1 d2 d3 d4 d5,
      (EVP_CTRL_GCM_IV_GEN e = Some e1 /\ EVP_Cipher_aad e1 aad = Some e2 /\
       EVP_Cipher e2 p = Some (q, e3) /\ EVP_Cipher_final e3 = Some e4 /\
       EVP_CTRL_GCM_GET_TAG e4 (cipher_authlen c) = Some tag /\ zlen q = zlen p /\
       zlen tag = cipher_authlen c) /\
      (EVP_CTRL_GCM_IV_GEN d = Some d1 /\ EVP_CTRL_GCM_SET_TAG d1 tag = Some d2 /\
       EVP_Cipher_aad d2 aad = Some d3 /\ EVP_Cipher d3 q = Some (p, d4) /\
       EVP_Cipher_final d4 = Some d5) /\ evp_linked c e4 d5;
  tmp_length : length tmp = 64%nat
}.

(** ** The ciphers of cipher.c *)

Section link.
Context {C : Crypto} {L : CryptoLaws}.

Definition same_kind (s r : sshcipher_ctx) : Prop :=
  if has (c_flags (cc_cipher s)) CFLAG_CHACHAPOLY then
    exists a b, cc_cp s = Some a /\ cc_cp r = Some b /\ cp_equiv a b
  else if has (c_flags (cc_cipher s)) CFLAG_NONE then True
  else exists e d, cc_evp s = Some e /\ cc_evp r = Some d /\ evp_linked (cc_cipher s) e d.

Definition ctx_linked (s r : sshcipher_ctx) : Prop :=
  cc_cipher s = cc_cipher r /\ cc_encrypt s = true /\ cc_encrypt r = false /\
  cc_cipher s ∈ ciphers /\ same_kind s r.

Definition cipher_ok (c : sshcipher) : bool :=
  (8 <=? c_block_size c) && (c_block_size c <=? 16) &&
  ((cipher_authlen c =? 0) || (cipher_authlen c =? 16)) &&
  (if has (c_flags c) CFLAG_CHACHAPOLY then cipher_authlen c =? 16 else true) &&
  (if has (c_flags c) CFLAG_NONE then cipher_authlen c =? 0 else true).

Lemma ciphers_ok c : c ∈ ciphers -> cipher_ok c = true.
Proof.
  intros H. assert (F : forallb cipher_ok ciphers = true) by (vm_compute; reflexivity).
  rewrite forallb_forall in F. by apply F, list_elem_of_In.
Qed.

Lemma cipher_ok_facts c : c ∈ ciphers ->
  8 <= c_block_size c <= 16 /\ (cipher_authlen c = 0 \/ cipher_authlen c = 16) /\
  (has (c_flags c) CFLAG_CHACHAPOLY = true -> cipher_authlen c = 16) /\
  (has (c_flags c) CFLAG_NONE = true -> cipher_authlen c = 0).
Proof.
  intros H. apply ciphers_ok in H. unfold cipher_ok in H.
  repeat (apply andb_true_iff in H as [H ?]). rewrite orb_true_iff, !Z.eqb_eq in *.
  rewrite !Z.leb_le in *. destruct (has (c_flags c) CFLAG_CHACHAPOLY), (has (c_flags c) CFLAG_NONE);
    rewrite ?Z.eqb_eq in *; naive_solver.
Qed.

Lemma chacha_link_aad s r seqnr p len : ctx_linked s r ->
  has (c_flags (cc_cipher s)) CFLAG_CHACHAPOLY = true ->
  zlen p = 4 + len -> 0 <= len ->
  exists c s' r1 r2, cipher_crypt s seqnr p len 4 16 = (Ok c, s') /\
    zlen c = 4 + len + 16 /\
    (forall tail, cipher_get_length r seqnr (c ++ tail) (zlen (c ++ tail)) =
                    (Ok (PEEK_U32 (slice 0 4 p)), r1)) /\
    cipher_crypt r1 seqnr c len 4 16 = (Ok p, r2) /\ ctx_linked s' r2.
Proof.
  intros (Ec & Es & Er & Hin & K) Hf Hp Hl. unfold same_kind in K. rewrite Hf in K.
  destruct K as (a & b & Ea & Eb & E).
  assert (Wa : cp_wf a) by (destruct E as [(? & _) (? & _)]; done).
  assert (Wb : cp_wf b) by (destruct E as [(_ & ? & _) (_ & ? & _)]; done).
  destruct (chachapoly_crypt_eq tmp a seqnr p len 4 16 true tmp_length Wa Hl ltac:(lia))
    as (a' & Ea' & Henc); [lia|done|].
  rewrite <- Hp, slice_all in Henc. cbv zeta in Henc.
  set (ct := crypt_text a seqnr len 4 p) in *.
  assert (Lct : zlen ct = 4 + len) by (apply zlen_crypt_text; done || lia).
  set (b1 := after_length b seqnr).
  assert (Eb1 : cp_equiv b b1) by (apply after_length_equiv, Wb).
  assert (Wb1 : cp_wf b1) by (destruct Eb1 as [(_ & ? & _) (_ & ? & _)]; done).
  set (c := ct ++ poly1305_auth ct (poly_key_of a seqnr)) in *.
  assert (Lc : zlen c = 4 + len + 16) by (unfold c; rewrite zlen_app, zlen_poly1305_auth; lia).
  destruct (chachapoly_crypt_eq tmp b1 seqnr c len 4 16 false tmp_length Wb1 Hl ltac:(lia))
    as (b2 & Eb2 & Hdec); [lia|lia|]. cbv zeta in Hdec.
  assert (Hct : slice 0 (4 + len) c = ct) by (unfold c; apply slice_app_l; lia).
  assert (Htag : slice (4 + len) 16 c = poly1305_auth ct (poly_key_of a seqnr)).
  { unfold c. rewrite slice_suffix by lia. rewrite Lct, Z.sub_diag.
    rewrite <- (zlen_poly1305_auth ct (poly_key_of a seqnr)) at 1. apply slice_all. }
  assert (Eab1 : cp_equiv a b1) by (etrans; [exact E|exact Eb1]).
  rewrite Hct, Htag in Hdec. rewrite <- (proj1 (streams_equiv a b1 seqnr 0 Eab1)) in Hdec.
  rewrite bool_decide_eq_true_2 in Hdec by done.
  rewrite <- (crypt_text_equiv a b1) in Hdec by done.
  unfold ct in Hdec. rewrite crypt_text_twice in Hdec by (done || lia).
  assert (Hcp : forall x, cc_cp (set_cp x r) = Some x) by done.
  exists c, (set_cp a' s), (set_cp b1 r), (set_cp b2 (set_cp b1 r)).
  unfold cipher_crypt, cipher_get_length. rewrite <- Ec, Hf, Ea, Es, Henc, Eb. cbn [cc_cipher set_cp cc_cp cc_encrypt].
  rewrite <- Ec, Hf, Er, Hdec. split_and!; [done|done| |done|].
  - intros tail. rewrite get_length_eq; [|apply tmp_length|done|rewrite zlen_app; pose proof (zlen_nonneg tail); lia].
    unfold c. rewrite <- app_assoc.
    destruct (streams_equiv a b seqnr 4 E) as (_ & _ & <-).
    unfold ct. by rewrite enciphered_length by (done || lia).
  - split_and!; cbn; try done. unfold same_kind. cbn. rewrite Hf.
    exists a', b2. split_and!; try done. etrans; [symmetry; exact Ea'|]. by etrans; [exact Eab1|].
Qed.

Lemma none_link_aad s r seqnr p len : ctx_linked s r ->
  has (c_flags (cc_cipher s)) CFLAG_CHACHAPOLY = false ->
  has (c_flags (cc_cipher s)) CFLAG_NONE = true -> zlen p = 4 + len -> 0 <= len ->
  cipher_crypt s seqnr p len 4 0 = (Ok p, s) /\ cipher_crypt r seqnr p len 4 0 = (Ok p, r).
Proof.
  intros (Ec & Es & Er & Hin & K) Hf Hn Hp Hl. unfold cipher_crypt.
  rewrite <- !Ec, Hf, Hn, <- Hp, slice_all. done.
Qed.

(** The libcrypto branch with an authentication tag. *)
Lemma gcm_crypt s r seqnr p len : ctx_linked s r ->
  has (c_flags (cc_cipher s)) CFLAG_CHACHAPOLY = false ->
  has (c_flags (cc_cipher s)) CFLAG_NONE = false ->
  cipher_authlen (cc_cipher s) = 16 ->
  zlen p = 4 + len -> 0 <= len -> len mod c_block_size (cc_cipher s) = 0 ->
  exists c s' r', cipher_crypt s seqnr p len 4 16 = (Ok c, s') /\ zlen c = 4 + len + 16 /\
    slice 0 4 c = slice 0 4 p /\ cipher_crypt r seqnr c len 4 16 = (Ok p, r') /\ ctx_linked s' r'.
Proof.
  intros (Ec & Es & Er & Hin & K) Hf Hn Ha Hp Hl Hm. unfold same_kind in K. rewrite Hf, Hn in K.
  destruct K as (e & d & Ee & Ed & E).
  assert (L4 : zlen (slice 0 4 p) = 4) by (apply zlen_slice; lia).
  assert (Ll : zlen (slice 4 len p) = len) by (apply zlen_slice; lia).
  destruct (evp_gcm (cc_cipher s) e d (slice 0 4 p) (slice 4 len p) E) as
    (e1 & e2 & e3 & e4 & q & tag & d1 & d2 & d3 & d4 & d5 &
     (A1 & A2 & A3 & A4 & A5 & Lq & Ltag) & (B1 & B2 & B3 & B4 & B5) & E'); [lia|by rewrite Ll|].
  rewrite Ha in A5, Ltag. set (c := slice 0 4 p ++ q ++ tag).
  assert (Hp' : p = slice 0 4 p ++ slice 4 len p).
  { rewrite <- slice_app_split by lia. rewrite <- Hp. by rewrite slice_all. }
  assert (S1 : slice 0 4 c = slice 0 4 p) by (unfold c; apply slice_app_l; lia).
  assert (S2 : slice 4 len c = q).
  { unfold c. rewrite slice_suffix by lia. rewrite L4. apply slice_app_l. lia. }
  assert (S3 : slice (4 + len) 16 c = tag).
  { unfold c. rewrite app_assoc, slice_suffix by (rewrite zlen_app; lia).
    rewrite zlen_app. replace (4 + len - _) with 0 by lia. rewrite <- Ltag. apply slice_all. }
  exists c, (set_evp e4 s), (set_evp d5 r). unfold cipher_crypt, evp_crypt.
  rewrite <- Ec, Hf, Hn, Ee, Ed, Ha. cbn [negb andb Z.eqb Pos.eqb].
  rewrite A1, Es, Er. cbn [negb andb]. rewrite A2, Hm, A3, A4, A5. cbn [negb Z.eqb].
  rewrite B1, S3, B2, S1, B3, S2, B4, B5. split_and!.
  - done.
  - unfold c. rewrite !zlen_app. lia.
  - done.
  - by rewrite app_nil_r, <- Hp'.
  - split_and!; cbn; try done. unfold same_kind. cbn. rewrite Hf, Hn. eauto.
Qed.

(** The same without a tag, for any offset of the enciphered part. *)
Lemma evp_stream_crypt s r seqnr p len aadlen : ctx_linked s r ->
  has (c_flags (cc_cipher s)) CFLAG_CHACHAPOLY = false ->
  has (c_flags (cc_cipher s)) CFLAG_NONE = false ->
  cipher_authlen (cc_cipher s) = 0 -> 0 <= aadlen ->
  zlen p = aadlen + len -> 0 <= len -> len mod c_block_size (cc_cipher s) = 0 ->
  exists q e' d d' s', cipher_crypt s seqnr p len aadlen 0 = (Ok (slice 0 aadlen p ++ q), s') /\
    s' = set_evp e' s /\ cc_evp r = Some d /\ zlen q = len /\
    EVP_Cipher d q = Some (slice aadlen len p, d') /\
    evp_linked (cc_cipher s) e' d' /\
    exists e, evp_linked (cc_cipher s) e d.
Proof.
  intros (Ec & Es & Er & Hin & K) Hf Hn Ha Haad Hp Hl Hm. unfold same_kind in K. rewrite Hf, Hn in K.
  destruct K as (e & d & Ee & Ed & E).
  assert (Ll : zlen (slice aadlen len p) = len) by (apply zlen_slice; lia).
  destruct (evp_stream (cc_cipher s) e d (slice aadlen len p) E Ha) as
    (q & e' & d' & A1 & Lq & B1 & E'); [by rewrite Ll|].
  exists q, e', d, d', (set_evp e' s). unfold cipher_crypt, evp_crypt.
  rewrite Hf, Hn, Ee. cbn [negb andb Z.eqb]. rewrite !andb_false_r, Hm. cbn [negb Z.eqb].
  rewrite A1, app_nil_r. split_and!; try done; [lia|]. eauto.
Qed.

(** The deciphering end of [evp_crypt] without a tag. *)
Lemma evp_decipher r seqnr d q p d' aad :
  has (c_flags (cc_cipher r)) CFLAG_CHACHAPOLY = false ->
  has (c_flags (cc_cipher r)) CFLAG_NONE = false ->
  cc_evp r = Some d -> EVP_Cipher d q = Some (p, d') -> zlen q mod c_block_size (cc_cipher r) = 0 ->
  cipher_crypt r seqnr (aad ++ q) (zlen q) (zlen aad) 0 = (Ok (aad ++ p), set_evp d' r).
Proof.
  intros Hf Hn Ed Hd Hm. unfold cipher_crypt, evp_crypt.
  rewrite Hf, Hn, Ed. cbn [negb andb Z.eqb]. rewrite !andb_false_r, Hm. cbn [negb Z.eqb].
  rewrite (slice_app_l (zlen aad)) by done. rewrite slice_suffix by lia.
  rewrite Z.sub_diag, slice_all, Hd. by rewrite app_nil_r.
Qed.

Lemma set_evp_linked s r e d : ctx_linked s r ->
  has (c_flags (cc_cipher s)) CFLAG_CHACHAPOLY = false ->
  has (c_flags (cc_cipher s)) CFLAG_NONE = false ->
  evp_linked (cc_cipher s) e d -> ctx_linked (set_evp e s) (set_evp d r).
Proof.
  intros (Ec & Es & Er & Hin & K) Hf Hn E. split_and!; try done.
  unfold same_kind. cbn. rewrite Hf, Hn. eauto.
Qed.

(** Only the last libcrypto context counts. *)
Lemma set_evp_twice s r d1 d : ctx_linked s (set_evp d r) -> ctx_linked s (set_evp d (set_evp d1 r)).
Proof. intros (Ec & Es & Er & Hin & K). by split_and!. Qed.

Lemma take_is_slice {A} n (l : list A) : take (Z.to_nat n) l = slice 0 n l.
Proof. done. Qed.

Lemma evp_link_plain s r seqnr seqnr' p : ctx_linked s r ->
  has (c_flags (cc_cipher s)) CFLAG_CHACHAPOLY = false ->
  has (c_flags (cc_cipher s)) CFLAG_NONE = false ->
  cipher_authlen (cc_cipher s) = 0 ->
  c_block_size (cc_cipher s) <= zlen p -> zlen p mod c_block_size (cc_cipher s) = 0 ->
  let bs := c_block_size (cc_cipher s) in
  exists c s' r1 r2, cipher_crypt s seqnr p (zlen p) 0 0 = (Ok c, s') /\ zlen c = zlen p /\
    cipher_crypt r seqnr' (slice 0 bs c) bs 0 0 = (Ok (slice 0 bs p), r1) /\
    cipher_crypt r1 seqnr (drop (Z.to_nat bs) c) (zlen p - bs) 0 0 =
      (Ok (drop (Z.to_nat bs) p), r2) /\ ctx_linked s' r2.
Proof.
  intros HL Hf Hn Ha Hb Hm bs. pose proof HL as (Ec & Es & Er & Hin & _).
  destruct (cipher_ok_facts _ Hin) as (Hbs & _). fold bs in Hb, Hm, Hbs.
  destruct (evp_stream_crypt s r seqnr p (zlen p) 0 HL Hf Hn Ha) as
    (q & e' & d & d' & s' & Hs & -> & Ed & Lq & Hd & E' & e & E); [lia|lia|lia|done|].
  rewrite slice_all in Hd. cbn [app] in Hs. change (slice 0 0 p) with (@nil byte) in Hs.
  assert (L1 : zlen (slice 0 bs q) = bs) by (apply zlen_slice; lia).
  assert (L2 : zlen (drop (Z.to_nat bs) q) = zlen p - bs) by (rewrite zlen_drop; lia).
  assert (M2 : (zlen p - bs) mod bs = 0).
  { rewrite Zminus_mod, Hm, Z_mod_same_full. done. }
  rewrite <- (take_drop (Z.to_nat bs) q) in Hd. rewrite take_is_slice in Hd.
  destruct (evp_split _ e d p (slice 0 bs q) (drop (Z.to_nat bs) q) d' E) as (d1 & H1 & H2);
    [rewrite L1; apply Z_mod_same_full|done|].
  assert (Ln : length (slice 0 bs q) = Z.to_nat bs) by (unfold zlen in L1; lia).
  rewrite Ln in H1, H2.
  exists q, (set_evp e' s), (set_evp d1 r), (set_evp d' (set_evp d1 r)).
  split_and!; [done|done| | |].
  - assert (D := evp_decipher r seqnr' d (slice 0 bs q) (take (Z.to_nat bs) p) d1 []). rewrite <- !Ec, L1 in D.
    apply D; try done. apply Z_mod_same_full.
  - assert (D := evp_decipher (set_evp d1 r) seqnr d1 (drop (Z.to_nat bs) q) (drop (Z.to_nat bs) p) d' []).
    cbn [set_evp cc_cipher cc_evp] in D. rewrite <- !Ec, L2 in D. by apply D.
  - by apply set_evp_twice, set_evp_linked.
Qed.

Lemma none_link_plain s r seqnr seqnr' p : ctx_linked s r ->
  has (c_flags (cc_cipher s)) CFLAG_CHACHAPOLY = false ->
  has (c_flags (cc_cipher s)) CFLAG_NONE = true ->
  c_block_size (cc_cipher s) <= zlen p ->
  let bs := c_block_size (cc_cipher s) in
  cipher_crypt s seqnr p (zlen p) 0 0 = (Ok p, s) /\
  cipher_crypt r seqnr' (slice 0 bs p) bs 0 0 = (Ok (slice 0 bs p), r) /\
  cipher_crypt r seqnr (drop (Z.to_nat bs) p) (zlen p - bs) 0 0 = (Ok (drop (Z.to_nat bs) p), r).
Proof.
  intros (Ec & Es & Er & Hin & K) Hf Hn Hb bs. unfold cipher_crypt.
  destruct (cipher_ok_facts _ Hin) as (Hbs & _). fold bs in Hb, Hbs.
  rewrite <- !Ec, Hf, Hn. rewrite !Z.add_0_l, slice_all. split_and!; [done| |].
  - rewrite slice_slice by lia. done.
  - assert (L2 : zlen (drop (Z.to_nat bs) p) = zlen p - bs) by (rewrite zlen_drop; lia).
    rewrite <- L2. by rewrite slice_all.
Qed.

#[export] Instance ciphers_packet : PacketCipher ctx_linked.
Proof.
  split.
  - intros s r (Ec & _ & _ & Hin & _). by destruct (cipher_ok_facts _ Hin) as (? & ? & ? & _).
  - intros s r seqnr p len HL _ Hp Hl Hm. pose proof HL as (Ec & _ & _ & Hin & _).
    destruct (cipher_ok_facts _ Hin) as (Hb & Ha & Hcp & Hno). cbv zeta.
    destruct (has (c_flags (cc_cipher s)) CFLAG_CHACHAPOLY) eqn:Hf.
    { rewrite (Hcp eq_refl). by apply chacha_link_aad. }
    assert (GL : forall x y, slice 0 4 x = slice 0 4 p -> 4 <= zlen x ->
      cipher_get_length r seqnr (x ++ y) (zlen (x ++ y)) = (Ok (PEEK_U32 (slice 0 4 p)), r)).
    { intros x y Hx Lx. unfold cipher_get_length. rewrite <- Ec, Hf. pose proof (zlen_nonneg y).
      destruct (Z.ltb_spec (zlen (x ++ y)) 4) as [H4|_]; [rewrite zlen_app in H4; lia|].
      by rewrite slice_prefix, Hx by lia. }
    destruct (has (c_flags (cc_cipher s)) CFLAG_NONE) eqn:Hn.
    { rewrite (Hno eq_refl). destruct (none_link_aad s r seqnr p len HL Hf Hn Hp Hl) as [H1 H2].
      exists p, s, r, r. split_and!; [done|lia| |done|done]. intros tail. apply GL; [done|lia]. }
    destruct Ha as [Ha|Ha]; rewrite Ha.
    + destruct (evp_stream_crypt s r seqnr p len 4 HL Hf Hn Ha) as
        (q & e' & d & d' & s' & Hs & -> & Ed & Lq & Hd & E' & _); [lia|lia|lia|done|].
      assert (L4 : zlen (slice 0 4 p) = 4) by (apply zlen_slice; lia).
      exists (slice 0 4 p ++ q), (set_evp e' s), r, (set_evp d' r). split_and!; [done| | | |].
      * rewrite zlen_app. lia.
      * intros tail. apply GL; [apply slice_app_l; lia|rewrite zlen_app; lia].
      * assert (D := evp_decipher r seqnr d q (slice 4 len p) d' (slice 0 4 p)).
        rewrite <- !Ec in D. rewrite Lq, L4 in D. rewrite D by done. do 2 f_equal.
        rewrite <- slice_app_split by lia. rewrite <- Hp. apply slice_all.
      * by apply set_evp_linked.
    + destruct (gcm_crypt s r seqnr p len HL Hf Hn Ha Hp Hl Hm) as (c & s' & r' & H1 & H2 & H3 & H4 & H5).
      exists c, s', r, r'. split_and!; try done. intros tail. apply GL; [done|lia].
  - intros r s seqnr v (Ec & _ & _ & _ & K) Hv. unfold cipher_get_length. rewrite <- Ec.
    unfold same_kind in K. destruct (has (c_flags (cc_cipher s)) CFLAG_CHACHAPOLY).
    + destruct K as (a & b & _ & Eb & _). rewrite Eb. unfold chachapoly_get_length.
      destruct (Z.ltb_spec (zlen v) 4); [|lia]. f_equal. destruct r; cbn in *. by rewrite Eb.
    + by destruct (Z.ltb_spec (zlen v) 4); [|lia].
  - intros s r seqnr seqnr' p HL Ha Hb Hm. pose proof HL as (Ec & _ & _ & Hin & _).
    destruct (cipher_ok_facts _ Hin) as (Hbs & _ & Hcp & _).
    destruct (has (c_flags (cc_cipher s)) CFLAG_CHACHAPOLY) eqn:Hf.
    { specialize (Hcp eq_refl). lia. }
    destruct (has (c_flags (cc_cipher s)) CFLAG_NONE) eqn:Hn.
    + destruct (none_link_plain s r seqnr seqnr' p HL Hf Hn Hb) as (H1 & H2 & H3).
      exists p, s, r, r. done.
    + by apply evp_link_plain.
Qed.
End link.
