(* ===== verification/KeyTypes.v ===== *)
(** The names of public key algorithms (sshkey.c), of a build with libcrypto and elliptic
    curves and without XMSS. *)

From S2P Require Import Prelude SshErr Wire SshQueue Compat Match Digest.

(** ** Key types *)

Definition KEY_RSA : Z := 0.
Definition KEY_DSA : Z := 1.
Definition KEY_ECDSA : Z := 2.
Definition KEY_ED25519 : Z := 3.
Definition KEY_RSA_CERT : Z := 4.
Definition KEY_DSA_CERT : Z := 5.
Definition KEY_ECDSA_CERT : Z := 6.
Definition KEY_ED25519_CERT : Z := 7.
Definition KEY_XMSS : Z := 8.
Definition KEY_XMSS_CERT : Z := 9.
Definition KEY_ECDSA_SK : Z := 10.
Definition KEY_ECDSA_SK_CERT : Z := 11.
Definition KEY_ED25519_SK : Z := 12.
Definition KEY_ED25519_SK_CERT : Z := 13.
Definition KEY_UNSPEC : Z := 14.

(** The numbers libcrypto gives the curves. *)
Definition NID_X9_62_prime256v1 : Z := 415.
Definition NID_secp384r1 : Z := 715.
Definition NID_secp521r1 : Z := 716.

Record keytype := mk_keytype {
  kt_name : bytes; kt_shortname : bytes; kt_sigalg : option bytes; kt_type : Z; kt_nid : Z;
  kt_cert : bool; kt_sigonly : bool
}.

Definition keytypes : list keytype := [
  mk_keytype (lit "ssh-ed25519") (lit "ED25519") None KEY_ED25519 0 false false;
  mk_keytype (lit "ssh-ed25519-cert-v01@openssh.com") (lit "ED25519-CERT") None KEY_ED25519_CERT 0 true false;
  mk_keytype (lit "sk-ssh-ed25519@openssh.com") (lit "ED25519-SK") None KEY_ED25519_SK 0 false false;
  mk_keytype (lit "sk-ssh-ed25519-cert-v01@openssh.com") (lit "ED25519-SK-CERT") None KEY_ED25519_SK_CERT 0 true false;
  mk_keytype (lit "ssh-rsa") (lit "RSA") None KEY_RSA 0 false false;
  mk_keytype (lit "rsa-sha2-256") (lit "RSA") None KEY_RSA 0 false true;
  mk_keytype (lit "rsa-sha2-512") (lit "RSA") None KEY_RSA 0 false true;
  mk_keytype (lit "ssh-dss") (lit "DSA") None KEY_DSA 0 false false;
  mk_keytype (lit "ecdsa-sha2-nistp256") (lit "ECDSA") None KEY_ECDSA NID_X9_62_prime256v1 false false;
  mk_keytype (lit "ecdsa-sha2-nistp384") (lit "ECDSA") None KEY_ECDSA NID_secp384r1 false false;
  mk_keytype (lit "ecdsa-sha2-nistp521") (lit "ECDSA") None KEY_ECDSA NID_secp521r1 false false;
  mk_keytype (lit "sk-ecdsa-sha2-nistp256@openssh.com") (lit "ECDSA-SK") None KEY_ECDSA_SK NID_X9_62_prime256v1 false false;
  mk_keytype (lit "webauthn-sk-ecdsa-sha2-nistp256@openssh.com") (lit "ECDSA-SK") None KEY_ECDSA_SK NID_X9_62_prime256v1 false true;
  mk_keytype (lit "ssh-rsa-cert-v01@openssh.com") (lit "RSA-CERT") None KEY_RSA_CERT 0 true false;
  mk_keytype (lit "rsa-sha2-256-cert-v01@openssh.com") (lit "RSA-CERT") (Some (lit "rsa-sha2-256")) KEY_RSA_CERT 0 true true;
  mk_keytype (lit "rsa-sha2-512-cert-v01@openssh.com") (lit "RSA-CERT") (Some (lit "rsa-sha2-512")) KEY_RSA_CERT 0 true true;
  mk_keytype (lit "ssh-dss-cert-v01@openssh.com") (lit "DSA-CERT") None KEY_DSA_CERT 0 true false;
  mk_keytype (lit "ecdsa-sha2-nistp256-cert-v01@openssh.com") (lit "ECDSA-CERT") None KEY_ECDSA_CERT NID_X9_62_prime256v1 true false;
  mk_keytype (lit "ecdsa-sha2-nistp384-cert-v01@openssh.com") (lit "ECDSA-CERT") None KEY_ECDSA_CERT NID_secp384r1 true false;
  mk_keytype (lit "ecdsa-sha2-nistp521-cert-v01@openssh.com") (lit "ECDSA-CERT") None KEY_ECDSA_CERT NID_secp521r1 true false;
  mk_keytype (lit "sk-ecdsa-sha2-nistp256-cert-v01@openssh.com") (lit "ECDSA-SK-CERT") None KEY_ECDSA_SK_CERT NID_X9_62_prime256v1 true false
].

Definition sshkey_type (type : Z) : bytes :=
  match List.find (fun kt => kt_type kt =? type) keytypes with
  | Some kt => kt_shortname kt | None => lit "unknown" end.

Definition sshkey_ssh_name_from_type_nid (type nid : Z) : bytes :=
  match List.find (fun kt => (kt_type kt =? type) && ((kt_nid kt =? 0) || (kt_nid kt =? nid))) keytypes with
  | Some kt => kt_name kt | None => lit "ssh-unknown" end.

Definition sshkey_type_is_cert (type : Z) : bool :=
  match List.find (fun kt => kt_type kt =? type) keytypes with
  | Some kt => kt_cert kt | None => false end.

Definition sshkey_type_plain (type : Z) : Z :=
  if type =? KEY_RSA_CERT then KEY_RSA
  else if type =? KEY_DSA_CERT then KEY_DSA
  else if type =? KEY_ECDSA_CERT then KEY_ECDSA
  else if type =? KEY_ECDSA_SK_CERT then KEY_ECDSA_SK
  else if type =? KEY_ED25519_CERT then KEY_ED25519
  else if type =? KEY_ED25519_SK_CERT then KEY_ED25519_SK
  else if type =? KEY_XMSS_CERT then KEY_XMSS
  else type.

Definition sshkey_type_from_name (name : bytes) : Z :=
  match List.find (fun kt => bool_decide (name = kt_name kt) ||
                             (negb (kt_cert kt) && strcasecmp_eq (kt_shortname kt) name)) keytypes with
  | Some kt => kt_type kt | None => KEY_UNSPEC end.

Definition key_type_is_ecdsa_variant (type : Z) : bool :=
  (type =? KEY_ECDSA) || (type =? KEY_ECDSA_CERT) || (type =? KEY_ECDSA_SK) ||
  (type =? KEY_ECDSA_SK_CERT).

Definition sshkey_ecdsa_nid_from_name (name : bytes) : Z :=
  match List.find (fun kt => key_type_is_ecdsa_variant (kt_type kt) && bool_decide (name = kt_name kt))
          keytypes with
  | Some kt => kt_nid kt | None => -1 end.

(** Without its allocations. *)
Definition sshkey_alg_list (certs_only plain_only include_sigonly : bool) (sep : byte) : option bytes :=
  fold_left (fun ret kt =>
    if negb include_sigonly && kt_sigonly kt then ret
    else if (certs_only && negb (kt_cert kt)) || (plain_only && kt_cert kt) then ret
    else Some (match ret with None => kt_name kt | Some r => r ++ [sep] ++ kt_name kt end))
  keytypes None.

(** One item of [sshkey_names_valid2]. *)
Definition key_name_ok (allow_wildcard : bool) (p : bytes) : bool :=
  if negb (sshkey_type_from_name p =? KEY_UNSPEC) then true
  else allow_wildcard && existsb (fun kt => negb (match_pattern_list (kt_name kt) p false =? 0)) keytypes.

Fixpoint key_names_loop (fuel : nat) (allow_wildcard : bool) (cp : option bytes) : bool :=
  match fuel with
  | O => true
  | S fuel =>
    match strsep cp SEP with
    | None => true
    | Some (p, cp) =>
      if is_nil p then true
      else if key_name_ok allow_wildcard p then key_names_loop fuel allow_wildcard cp
      else false
    end
  end.

Definition sshkey_names_valid2 (strdup_ok : bool) (names : option bytes) (allow_wildcard : bool) : bool :=
  match names with
  | None => false
  | Some names =>
    if is_nil names then false
    else if negb strdup_ok then false
    else key_names_loop (S (S (length names))) allow_wildcard (Some names)
  end.

Definition sshkey_sigalg_by_name (name : bytes) : option bytes :=
  match List.find (fun kt => bool_decide (kt_name kt = name)) keytypes with
  | None => None
  | Some kt =>
    match kt_sigalg kt with
    | Some a => Some a
    | None => if negb (kt_cert kt) then Some (kt_name kt)
              else Some (sshkey_ssh_name_from_type_nid (sshkey_type_plain (kt_type kt)) (kt_nid kt))
    end
  end.

(** [sig]: the signature blob, which begins with the name of its algorithm. *)
Definition sshkey_get_sigtype (sig : bytes) : res bytes :=
  match rd_cstring sig with Ok (t, _) => Ok t | Err e => Err e end.

(** 0 is [None]. *)
Definition sshkey_check_sigtype (sig : bytes) (requested_alg : option bytes) : option ssh_error :=
  match requested_alg with
  | None => None
  | Some alg =>
    match sshkey_sigalg_by_name alg with
    | None => Some SSH_ERR_INVALID_ARGUMENT
    | Some expected =>
      match sshkey_get_sigtype sig with
      | Err e => Some e
      | Ok t => if bool_decide (expected = t) then None else Some SSH_ERR_SIGN_ALG_UNSUPPORTED
      end
    end
  end.

(** A name and the signature algorithm that goes with it. *)
Example sigalg_of_rsa_cert :
  sshkey_sigalg_by_name (lit "rsa-sha2-256-cert-v01@openssh.com") = Some (lit "rsa-sha2-256").
Proof. reflexivity. Qed.
