(* ===== verification/AuthCtxt.v ===== *)
(** The state of an authentication (auth.h, auth2-chall.c): what [ssh->authctxt] points to in
    a server.  The functions on it are those of Auth.v; the record is here because the
    session of Packet.v holds it. *)

From S2P Require Import Prelude.

Record passwd := mk_passwd { pw_name : bytes; pw_uid : Z }.

(** [ctxt] is the pointer a device gave out; [device], an index into the table of devices. *)
Record KbdintAuthctxt := mk_kbdint {
  devices : option bytes; ctxt : option Z; device : option nat; nreq : Z; devices_done : Z
}.

Definition kbdint_eta (k : KbdintAuthctxt) : KbdintAuthctxt :=
  mk_kbdint (devices k) (ctxt k) (device k) (nreq k) (devices_done k).
Definition set_devices (x : option bytes) (k : KbdintAuthctxt) : KbdintAuthctxt := ltac:(setter (kbdint_eta k) (devices k) x).
Definition set_ctxt (x : option Z) (k : KbdintAuthctxt) : KbdintAuthctxt := ltac:(setter (kbdint_eta k) (ctxt k) x).
Definition set_device (x : option nat) (k : KbdintAuthctxt) : KbdintAuthctxt := ltac:(setter (kbdint_eta k) (device k) x).
Definition set_nreq (x : Z) (k : KbdintAuthctxt) : KbdintAuthctxt := ltac:(setter (kbdint_eta k) (nreq k) x).
Definition set_devices_done (x : Z) (k : KbdintAuthctxt) : KbdintAuthctxt := ltac:(setter (kbdint_eta k) (devices_done k) x).

(** [struct Authctxt], with the two variables of the process that belong to it:
    [none_enabled] of auth2-none.c and the lists of [options.auth_methods], which the first
    request rewrites.  The key of the last method is its text.  [granted], which the program
    has not, holds the methods that succeeded. *)
Record Authctxt := mk_authctxt {
  success : bool;
  postponed : bool;
  valid : bool;
  attempt : Z;
  failures : Z;
  server_caused_failure : bool;
  user : option bytes;
  service : option bytes;
  pw : option passwd;
  style : option bytes;
  auth_methods : list bytes;
  kbdintctxt : option KbdintAuthctxt;
  auth_method_key : option bytes;
  auth_method_info : option bytes;
  session_info : option bytes;
  none_enabled : bool;
  conf_methods : list bytes;
  granted : list (bytes * option bytes)
}.

Definition authctxt_eta (a : Authctxt) : Authctxt :=
  mk_authctxt (success a) (postponed a) (valid a) (attempt a) (failures a) (server_caused_failure a)
    (user a) (service a) (pw a) (style a) (auth_methods a) (kbdintctxt a) (auth_method_key a)
    (auth_method_info a) (session_info a) (none_enabled a) (conf_methods a) (granted a).
Definition set_success (x : bool) (a : Authctxt) : Authctxt := ltac:(setter (authctxt_eta a) (success a) x).
Definition set_postponed (x : bool) (a : Authctxt) : Authctxt := ltac:(setter (authctxt_eta a) (postponed a) x).
Definition set_valid (x : bool) (a : Authctxt) : Authctxt := ltac:(setter (authctxt_eta a) (valid a) x).
Definition set_attempt (x : Z) (a : Authctxt) : Authctxt := ltac:(setter (authctxt_eta a) (attempt a) x).
Definition set_failures (x : Z) (a : Authctxt) : Authctxt := ltac:(setter (authctxt_eta a) (failures a) x).
Definition set_server_caused_failure (x : bool) (a : Authctxt) : Authctxt := ltac:(setter (authctxt_eta a) (server_caused_failure a) x).
Definition set_user (x : option bytes) (a : Authctxt) : Authctxt := ltac:(setter (authctxt_eta a) (user a) x).
Definition set_service (x : option bytes) (a : Authctxt) : Authctxt := ltac:(setter (authctxt_eta a) (service a) x).
Definition set_pw (x : option passwd) (a : Authctxt) : Authctxt := ltac:(setter (authctxt_eta a) (pw a) x).
Definition set_style (x : option bytes) (a : Authctxt) : Authctxt := ltac:(setter (authctxt_eta a) (style a) x).
Definition set_auth_methods (x : list bytes) (a : Authctxt) : Authctxt := ltac:(setter (authctxt_eta a) (auth_methods a) x).
Definition set_kbdintctxt (x : option KbdintAuthctxt) (a : Authctxt) : Authctxt := ltac:(setter (authctxt_eta a) (kbdintctxt a) x).
Definition set_auth_method_key (x : option bytes) (a : Authctxt) : Authctxt := ltac:(setter (authctxt_eta a) (auth_method_key a) x).
Definition set_auth_method_info (x : option bytes) (a : Authctxt) : Authctxt := ltac:(setter (authctxt_eta a) (auth_method_info a) x).
Definition set_session_info (x : option bytes) (a : Authctxt) : Authctxt := ltac:(setter (authctxt_eta a) (session_info a) x).
Definition set_none_enabled (x : bool) (a : Authctxt) : Authctxt := ltac:(setter (authctxt_eta a) (none_enabled a) x).
Definition set_conf_methods (x : list bytes) (a : Authctxt) : Authctxt := ltac:(setter (authctxt_eta a) (conf_methods a) x).
Definition set_granted (x : list (bytes * option bytes)) (a : Authctxt) : Authctxt := ltac:(setter (authctxt_eta a) (granted a) x).
