(* ===== verification/Packet.v ===== *)
(** The session of packet.c: its state, the monad its functions run in, and the operations
    that build and take apart a packet.

    [session] joins [struct ssh] and [struct session_state].  Its five buffers are not
    shared with anyone (SshBufSpec is what makes them byte queues), so they are lists of
    bytes with the limit of [sshbuf_put].  The operating system, the random number
    generator, the clock and zlib are not part of the repository: they are the operations
    of [Env], over a state [os] that the session carries.

    A function of the code is a computation [M A]: it returns a value, or fails with an
    error code in the state it has reached, or dereferences a null pointer ([Crash]), or
    has not returned after as many rounds of a loop as the model follows ([Wait]). *)

From S2P Require Import Prelude SshErr Wire SshQueue Compat.
From S2P Require Import ChaCha ChachaPoly SshCipher AuthCtxt.

(** ** Constants *)

Definition PACKET_MAX_SIZE : Z := 256 * 1024.
Definition MAX_PACKETS : Z := 2 ^ 31.
Definition SSH_BUG_NOREKEY : Z := 0x00008000.
Definition SSH_MSG_NONE : Z := 0.
Definition SSH2_MSG_TRANSPORT_MIN : Z := 1.
Definition SSH2_MSG_TRANSPORT_MAX : Z := 49.
Definition SSH2_MSG_CONNECTION_MIN : Z := 80.
Definition SSH2_MSG_CONNECTION_MAX : Z := 127.
Definition SSH2_MSG_MIN : Z := 1.
Definition SSH2_MSG_LOCAL_MIN : Z := 192.
Definition SSH2_MSG_DISCONNECT : Z := 1.
Definition SSH2_MSG_IGNORE : Z := 2.
Definition SSH2_MSG_UNIMPLEMENTED : Z := 3.
Definition SSH2_MSG_DEBUG : Z := 4.
Definition SSH2_MSG_SERVICE_REQUEST : Z := 5.
Definition SSH2_MSG_SERVICE_ACCEPT : Z := 6.
Definition SSH2_MSG_EXT_INFO : Z := 7.
Definition SSH2_MSG_KEXINIT : Z := 20.
Definition SSH2_MSG_NEWKEYS : Z := 21.
Definition SSH2_MSG_USERAUTH_SUCCESS : Z := 52.
Definition SSH2_DISCONNECT_PROTOCOL_ERROR : Z := 2.
Definition COMP_NONE : Z := 0.
Definition COMP_ZLIB : Z := 1.
Definition COMP_DELAYED : Z := 2.
Definition KEX_COOKIE_LEN : Z := 16.
Definition KEX_INIT_SENT : Z := 1.
Definition KEX_INITIAL : Z := 2.
Definition DISPATCH_MAX : Z := 255.

Inductive kex_mode := MODE_IN | MODE_OUT.

(** ** The environment *)

Inductive zcode := Z_OK | Z_BUF_ERROR | Z_DATA_ERROR | Z_MEM_ERROR | Z_STREAM_ERROR.

(** What [select] on the one descriptor, and [read] or [write], answer. *)
Inductive select_answer :=
| Ready
| TimedOut
| Interrupted (elapsed_ms : Z)
| SelectError.
Inductive io_answer :=
| Moved (n : Z)
| Again
| IoError.

(** [deflate] and [inflate] return the code, what they wrote to [next_out], and what is
    left of [next_in]. *)
Class Env := {
  os : Type;
  monotime : os -> Z * os;
  arc4random_buf : Z -> os -> bytes * os;
  request_memory : os -> bool * os;
  uninitialised : Z -> os -> bytes;
  sys_select : bool -> option Z -> os -> select_answer * os;
  sys_write : bytes -> os -> io_answer * os;
  sys_read : Z -> os -> (io_answer * bytes) * os;
  zstream : Type;
  deflateInit : Z -> os -> (zcode * zstream) * os;
  inflateInit : os -> (zcode * zstream) * os;
  deflate : zstream -> bytes -> Z -> zcode * bytes * bytes * zstream;
  inflate : zstream -> bytes -> Z -> zcode * bytes * bytes * zstream;
  hook_in : option (bytes -> Z -> os -> res (bytes * Z) * os);
  patience : nat
}.

(** ** Data *)

Record packet_state := mk_pstate { seqnr : Z; packets : Z; blocks : Z; nbytes : Z }.

(** A packet that waits for the end of a key exchange. *)
Record packet := mk_packet { p_type : Z; p_payload : bytes }.

Record sshenc := mk_enc {
  enc_name : bytes; enc_cipher : sshcipher; enc_enabled : Z; enc_key_len : Z; enc_iv_len : Z;
  enc_block_size : Z; enc_key : bytes; enc_iv : option bytes
}.
Record sshcomp := mk_comp { comp_type : Z; comp_enabled : bool; comp_name : bytes }.
Record newkeys := mk_newkeys {
  nk_enc : sshenc; nk_mac : sshmac; nk_mac_name : bytes; nk_comp : sshcomp
}.

(** The functions a message can be dispatched to. *)
Inductive handler :=
| kex_protocol_error_fn | kex_input_kexinit_fn | kex_input_newkeys_fn | kex_input_ext_info_fn
| dispatch_protocol_error_fn | dispatch_protocol_ignore_fn
| other_fn (id : Z).

(** The state of an exchange.  Of the private keys of its methods it has the one of
    Curve25519, which stands for the others ([dh], [ec_client_key]) too. *)
Record kex_state := mk_kex {
  kex_newkeys_in : option newkeys;
  kex_newkeys_out : option newkeys;
  we_need : Z;
  kex_server : bool;
  kex_name : option bytes;
  hostkey_alg : option bytes;
  hostkey_type : Z;
  hostkey_nid : Z;
  kex_type : Z;
  dh_need : Z;
  hash_alg : Z;
  ec_nid : Z;
  failed_choice : option bytes;
  server_sig_algs : option bytes;
  ext_info_c : bool;
  kex_my : bytes;
  kex_peer : bytes;
  kex_done : bool;
  kex_flags : Z;
  client_version : bytes;
  server_version : bytes;
  session_id : bytes;
  client_pub : option bytes;
  c25519_client_key : bytes
}.

Definition kex_eta (k : kex_state) : kex_state :=
  mk_kex (kex_newkeys_in k) (kex_newkeys_out k) (we_need k) (kex_server k) (kex_name k)
    (hostkey_alg k) (hostkey_type k) (hostkey_nid k) (kex_type k) (dh_need k) (hash_alg k)
    (ec_nid k) (failed_choice k) (server_sig_algs k) (ext_info_c k) (kex_my k) (kex_peer k)
    (kex_done k) (kex_flags k) (client_version k) (server_version k) (session_id k)
    (client_pub k) (c25519_client_key k).
Definition set_kex_newkeys_in (x : option newkeys) (k : kex_state) : kex_state := ltac:(setter (kex_eta k) (kex_newkeys_in k) x).
Definition set_kex_newkeys_out (x : option newkeys) (k : kex_state) : kex_state := ltac:(setter (kex_eta k) (kex_newkeys_out k) x).
Definition set_we_need (x : Z) (k : kex_state) : kex_state := ltac:(setter (kex_eta k) (we_need k) x).
Definition set_kex_server (x : bool) (k : kex_state) : kex_state := ltac:(setter (kex_eta k) (kex_server k) x).
Definition set_kex_name (x : option bytes) (k : kex_state) : kex_state := ltac:(setter (kex_eta k) (kex_name k) x).
Definition set_hostkey_alg (x : option bytes) (k : kex_state) : kex_state := ltac:(setter (kex_eta k) (hostkey_alg k) x).
Definition set_hostkey_type (x : Z) (k : kex_state) : kex_state := ltac:(setter (kex_eta k) (hostkey_type k) x).
Definition set_hostkey_nid (x : Z) (k : kex_state) : kex_state := ltac:(setter (kex_eta k) (hostkey_nid k) x).
Definition set_kex_type (x : Z) (k : kex_state) : kex_state := ltac:(setter (kex_eta k) (kex_type k) x).
Definition set_dh_need (x : Z) (k : kex_state) : kex_state := ltac:(setter (kex_eta k) (dh_need k) x).
Definition set_hash_alg (x : Z) (k : kex_state) : kex_state := ltac:(setter (kex_eta k) (hash_alg k) x).
Definition set_ec_nid (x : Z) (k : kex_state) : kex_state := ltac:(setter (kex_eta k) (ec_nid k) x).
Definition set_failed_choice (x : option bytes) (k : kex_state) : kex_state := ltac:(setter (kex_eta k) (failed_choice k) x).
Definition set_server_sig_algs (x : option bytes) (k : kex_state) : kex_state := ltac:(setter (kex_eta k) (server_sig_algs k) x).
Definition set_ext_info_c (x : bool) (k : kex_state) : kex_state := ltac:(setter (kex_eta k) (ext_info_c k) x).
Definition set_kex_my (x : bytes) (k : kex_state) : kex_state := ltac:(setter (kex_eta k) (kex_my k) x).
Definition set_kex_peer (x : bytes) (k : kex_state) : kex_state := ltac:(setter (kex_eta k) (kex_peer k) x).
Definition set_kex_done (x : bool) (k : kex_state) : kex_state := ltac:(setter (kex_eta k) (kex_done k) x).
Definition set_kex_flags (x : Z) (k : kex_state) : kex_state := ltac:(setter (kex_eta k) (kex_flags k) x).
Definition set_client_version (x : bytes) (k : kex_state) : kex_state := ltac:(setter (kex_eta k) (client_version k) x).
Definition set_server_version (x : bytes) (k : kex_state) : kex_state := ltac:(setter (kex_eta k) (server_version k) x).
Definition set_session_id (x : bytes) (k : kex_state) : kex_state := ltac:(setter (kex_eta k) (session_id k) x).
Definition set_client_pub (x : option bytes) (k : kex_state) : kex_state := ltac:(setter (kex_eta k) (client_pub k) x).
Definition set_c25519_client_key (x : bytes) (k : kex_state) : kex_state := ltac:(setter (kex_eta k) (c25519_client_key k) x).

Section session.
Context {C : Crypto} {E : Env}.

Record session := mk_session {
  receive_context : option sshcipher_ctx;
  send_context : option sshcipher_ctx;
  input : bytes;
  output : bytes;
  outgoing_packet : bytes;
  incoming_packet : bytes;
  compression_buffer : option bytes;
  compression_in_stream : option zstream;
  compression_out_stream : option zstream;
  compression_in_started : bool;
  compression_out_started : bool;
  compression_in_failures : Z;
  compression_out_failures : Z;
  max_packet_size : Z;
  interactive_mode : bool;
  server_side : bool;
  after_authentication : bool;
  keep_alive_timeouts : Z;
  packet_timeout_ms : Z;
  newkeys_in : option newkeys;
  newkeys_out : option newkeys;
  p_read : packet_state;
  p_send : packet_state;
  max_blocks_in : Z;
  max_blocks_out : Z;
  rekey_limit : Z;
  rekey_interval : Z;
  rekey_time : Z;
  extra_pad : Z;
  packet_discard : Z;
  packet_discard_mac_already : Z;
  packet_discard_mac : option sshmac;
  packlen : Z;
  rekeying : bool;
  mux : bool;
  set_maxsize_called : bool;
  outgoing : list packet;
  kex : option kex_state;
  compat : Z;
  dispatch : gmap Z handler;
  dispatch_skip_packets : Z;
  authctxt : option Authctxt;
  world : os;
  sent : list packet
}.

Definition session_eta (s : session) : session :=
  mk_session (receive_context s) (send_context s) (input s) (output s) (outgoing_packet s)
    (incoming_packet s) (compression_buffer s) (compression_in_stream s)
    (compression_out_stream s) (compression_in_started s) (compression_out_started s)
    (compression_in_failures s) (compression_out_failures s) (max_packet_size s)
    (interactive_mode s) (server_side s) (after_authentication s) (keep_alive_timeouts s)
    (packet_timeout_ms s) (newkeys_in s) (newkeys_out s) (p_read s) (p_send s)
    (max_blocks_in s) (max_blocks_out s) (rekey_limit s) (rekey_interval s) (rekey_time s)
    (extra_pad s) (packet_discard s) (packet_discard_mac_already s) (packet_discard_mac s)
    (packlen s) (rekeying s) (mux s) (set_maxsize_called s) (outgoing s) (kex s) (compat s)
    (dispatch s) (dispatch_skip_packets s) (authctxt s) (world s) (sent s).
Definition set_receive_context (x : option sshcipher_ctx) (s : session) : session := ltac:(setter (session_eta s) (receive_context s) x).
Definition set_send_context (x : option sshcipher_ctx) (s : session) : session := ltac:(setter (session_eta s) (send_context s) x).
Definition set_input (x : bytes) (s : session) : session := ltac:(setter (session_eta s) (input s) x).
Definition set_output (x : bytes) (s : session) : session := ltac:(setter (session_eta s) (output s) x).
Definition set_outgoing_packet (x : bytes) (s : session) : session := ltac:(setter (session_eta s) (outgoing_packet s) x).
Definition set_incoming_packet (x : bytes) (s : session) : session := ltac:(setter (session_eta s) (incoming_packet s) x).
Definition set_compression_buffer (x : option bytes) (s : session) : session := ltac:(setter (session_eta s) (compression_buffer s) x).
Definition set_compression_in_stream (x : option zstream) (s : session) : session := ltac:(setter (session_eta s) (compression_in_stream s) x).
Definition set_compression_out_stream (x : option zstream) (s : session) : session := ltac:(setter (session_eta s) (compression_out_stream s) x).
Definition set_compression_in_started (x : bool) (s : session) : session := ltac:(setter (session_eta s) (compression_in_started s) x).
Definition set_compression_out_started (x : bool) (s : session) : session := ltac:(setter (session_eta s) (compression_out_started s) x).
Definition set_compression_in_failures (x : Z) (s : session) : session := ltac:(setter (session_eta s) (compression_in_failures s) x).
Definition set_compression_out_failures (x : Z) (s : session) : session := ltac:(setter (session_eta s) (compression_out_failures s) x).
Definition set_max_packet_size (x : Z) (s : session) : session := ltac:(setter (session_eta s) (max_packet_size s) x).
Definition set_interactive_mode (x : bool) (s : session) : session := ltac:(setter (session_eta s) (interactive_mode s) x).
Definition set_server_side (x : bool) (s : session) : session := ltac:(setter (session_eta s) (server_side s) x).
Definition set_after_authentication (x : bool) (s : session) : session := ltac:(setter (session_eta s) (after_authentication s) x).
Definition set_keep_alive_timeouts (x : Z) (s : session) : session := ltac:(setter (session_eta s) (keep_alive_timeouts s) x).
Definition set_packet_timeout_ms (x : Z) (s : session) : session := ltac:(setter (session_eta s) (packet_timeout_ms s) x).
Definition set_newkeys_in (x : option newkeys) (s : session) : session := ltac:(setter (session_eta s) (newkeys_in s) x).
Definition set_newkeys_out (x : option newkeys) (s : session) : session := ltac:(setter (session_eta s) (newkeys_out s) x).
Definition set_p_read (x : packet_state) (s : session) : session := ltac:(setter (session_eta s) (p_read s) x).
Definition set_p_send (x : packet_state) (s : session) : session := ltac:(setter (session_eta s) (p_send s) x).
Definition set_max_blocks_in (x : Z) (s : session) : session := ltac:(setter (session_eta s) (max_blocks_in s) x).
Definition set_max_blocks_out (x : Z) (s : session) : session := ltac:(setter (session_eta s) (max_blocks_out s) x).
Definition set_rekey_limit (x : Z) (s : session) : session := ltac:(setter (session_eta s) (rekey_limit s) x).
Definition set_rekey_interval (x : Z) (s : session) : session := ltac:(setter (session_eta s) (rekey_interval s) x).
Definition set_rekey_time (x : Z) (s : session) : session := ltac:(setter (session_eta s) (rekey_time s) x).
Definition set_extra_pad (x : Z) (s : session) : session := ltac:(setter (session_eta s) (extra_pad s) x).
Definition set_packet_discard (x : Z) (s : session) : session := ltac:(setter (session_eta s) (packet_discard s) x).
Definition set_packet_discard_mac_already (x : Z) (s : session) : session := ltac:(setter (session_eta s) (packet_discard_mac_already s) x).
Definition set_packet_discard_mac (x : option sshmac) (s : session) : session := ltac:(setter (session_eta s) (packet_discard_mac s) x).
Definition set_packlen (x : Z) (s : session) : session := ltac:(setter (session_eta s) (packlen s) x).
Definition set_rekeying (x : bool) (s : session) : session := ltac:(setter (session_eta s) (rekeying s) x).
Definition set_mux (x : bool) (s : session) : session := ltac:(setter (session_eta s) (mux s) x).
Definition set_set_maxsize_called (x : bool) (s : session) : session := ltac:(setter (session_eta s) (set_maxsize_called s) x).
Definition set_outgoing (x : list packet) (s : session) : session := ltac:(setter (session_eta s) (outgoing s) x).
Definition set_kex (x : option kex_state) (s : session) : session := ltac:(setter (session_eta s) (kex s) x).
Definition set_compat (x : Z) (s : session) : session := ltac:(setter (session_eta s) (compat s) x).
Definition set_dispatch (x : gmap Z handler) (s : session) : session := ltac:(setter (session_eta s) (dispatch s) x).
Definition set_dispatch_skip_packets (x : Z) (s : session) : session := ltac:(setter (session_eta s) (dispatch_skip_packets s) x).
Definition set_authctxt (x : option Authctxt) (s : session) : session := ltac:(setter (session_eta s) (authctxt s) x).
Definition set_world (x : os) (s : session) : session := ltac:(setter (session_eta s) (world s) x).
Definition set_sent (x : list packet) (s : session) : session := ltac:(setter (session_eta s) (sent s) x).

(** *** The parts that come in two directions *)

Definition get_newkeys (m : kex_mode) (s : session) : option newkeys :=
  match m with MODE_IN => newkeys_in s | MODE_OUT => newkeys_out s end.
Definition set_newkeys (m : kex_mode) (k : option newkeys) (s : session) : session :=
  match m with MODE_IN => set_newkeys_in k s | MODE_OUT => set_newkeys_out k s end.
Definition get_pstate (m : kex_mode) (s : session) : packet_state :=
  match m with MODE_IN => p_read s | MODE_OUT => p_send s end.
Definition set_pstate (m : kex_mode) (p : packet_state) (s : session) : session :=
  match m with MODE_IN => set_p_read p s | MODE_OUT => set_p_send p s end.
Definition get_ctx (m : kex_mode) (s : session) : option sshcipher_ctx :=
  match m with MODE_IN => receive_context s | MODE_OUT => send_context s end.
Definition set_ctx (m : kex_mode) (c : option sshcipher_ctx) (s : session) : session :=
  match m with MODE_IN => set_receive_context c s | MODE_OUT => set_send_context c s end.
Definition set_max_blocks (m : kex_mode) (n : Z) (s : session) : session :=
  match m with MODE_IN => set_max_blocks_in n s | MODE_OUT => set_max_blocks_out n s end.
Definition get_kex_newkeys (m : kex_mode) (k : kex_state) : option newkeys :=
  match m with MODE_IN => kex_newkeys_in k | MODE_OUT => kex_newkeys_out k end.
Definition set_kex_newkeys (m : kex_mode) (x : option newkeys) (k : kex_state) : kex_state :=
  match m with MODE_IN => set_kex_newkeys_in x k | MODE_OUT => set_kex_newkeys_out x k end.

(** ** Computations *)

Inductive outcome (A : Type) : Type :=
| Ret (a : A) (s : session)
| Fail (e : ssh_error) (s : session)
| Crash
| Wait (s : session).
Arguments Ret {A} a s.
Arguments Fail {A} e s.
Arguments Crash {A}.
Arguments Wait {A} s.

Definition M (A : Type) : Type := session -> outcome A.

Definition mret {A} (a : A) : M A := Ret a.
Definition mfail {A} (e : ssh_error) : M A := Fail e.
Definition mcrash {A} : M A := fun _ => Crash.
Definition mwait {A} : M A := Wait.
Definition mbind {A B} (m : M A) (f : A -> M B) : M B := fun s =>
  match m s with
  | Ret a s' => f a s'
  | Fail e s' => Fail e s'
  | Crash => Crash
  | Wait s' => Wait s'
  end.
(** Run [m] and give its return value to a caller that tests it. *)
Definition mtry {A} (m : M A) : M (res A) := fun s =>
  match m s with
  | Ret a s' => Ret (Ok a) s'
  | Fail e s' => Ret (Err e) s'
  | Crash => Crash
  | Wait s' => Wait s'
  end.
Definition gets {A} (f : session -> A) : M A := fun s => Ret (f s) s.
Definition modify (f : session -> session) : M unit := fun s => Ret tt (f s).
(** A pointer the code dereferences. *)
Definition deref {A} (f : session -> option A) : M A := fun s =>
  match f s with Some a => Ret a s | None => Crash end.
Definition lift {A} (r : res A) : M A :=
  match r with Ok a => mret a | Err e => mfail e end.
(** An operation of the environment. *)
Definition env {A} (f : os -> A * os) : M A := fun s =>
  let '(a, w) := f (world s) in Ret a (set_world w s).
End session.

Arguments Ret {C E A} a s.
Arguments Fail {C E A} e s.
Arguments Crash {C E A}.
Arguments Wait {C E A} s.

Declare Scope session_scope.
Delimit Scope session_scope with session.
Notation "'let!' x := m 'in' k" := (mbind m (fun x => k))
  (at level 10, x name, m at level 100, k at level 200) : session_scope.
Notation "m ;; k" := (mbind m (fun _ => k))
  (at level 100, right associativity) : session_scope.
Open Scope session_scope.

Section code.
Context {C : Crypto} {E : Env}.

(** ** Buffers *)

(** [sshbuf_reserve] then a copy: the memory of a buffer may have to grow. *)
Definition buf_put (q v : bytes) : M bytes :=
  match q_put SSHBUF_SIZE_MAX q v with
  | Err e => mfail e
  | Ok q' =>
    let! ok := env request_memory in
    if ok : bool then mret q' else mfail SSH_ERR_ALLOC_FAIL
  end.

Definition buf_consume (q : bytes) (n : Z) : res bytes :=
  if zlen q <? n then Err SSH_ERR_MESSAGE_INCOMPLETE else Ok (drop (Z.to_nat n) q).

Definition buf_consume_end (q : bytes) (n : Z) : res bytes :=
  if zlen q <? n then Err SSH_ERR_MESSAGE_INCOMPLETE else Ok (take (Z.to_nat (zlen q - n)) q).

Definition put_input (v : bytes) : M unit :=
  let! q := gets input in let! q' := buf_put q v in modify (set_input q').
Definition put_output (v : bytes) : M unit :=
  let! q := gets output in let! q' := buf_put q v in modify (set_output q').
Definition put_outgoing (v : bytes) : M unit :=
  let! q := gets outgoing_packet in let! q' := buf_put q v in modify (set_outgoing_packet q').
Definition put_incoming (v : bytes) : M unit :=
  let! q := gets incoming_packet in let! q' := buf_put q v in modify (set_incoming_packet q').
Definition put_compressed (v : bytes) : M unit :=
  let! q := deref compression_buffer in
  let! q' := buf_put q v in modify (set_compression_buffer (Some q')).

Definition consume_input (n : Z) : M unit :=
  let! q := gets input in let! q' := lift (buf_consume q n) in modify (set_input q').
Definition consume_output (n : Z) : M unit :=
  let! q := gets output in let! q' := lift (buf_consume q n) in modify (set_output q').
Definition consume_outgoing (n : Z) : M unit :=
  let! q := gets outgoing_packet in let! q' := lift (buf_consume q n) in modify (set_outgoing_packet q').
Definition consume_incoming (n : Z) : M unit :=
  let! q := gets incoming_packet in let! q' := lift (buf_consume q n) in modify (set_incoming_packet q').
Definition consume_end_incoming (n : Z) : M unit :=
  let! q := gets incoming_packet in let! q' := lift (buf_consume_end q n) in modify (set_incoming_packet q').

(** ** sshpkt_put_* and sshpkt_get_* *)

Definition sshpkt_put (v : bytes) : M unit := put_outgoing v.
Definition sshpkt_putb (b : bytes) : M unit := put_outgoing b.
Definition sshpkt_put_u8 (v : Z) : M unit := put_outgoing [byte_of_Z v].
Definition sshpkt_put_u32 (v : Z) : M unit := put_outgoing (POKE_U32 v).
Definition sshpkt_put_u64 (v : Z) : M unit := put_outgoing (POKE_U64 v).
Definition sshpkt_put_string (v : bytes) : M unit :=
  if zlen v >? SSHBUF_SIZE_MAX - 4 then mfail SSH_ERR_NO_BUFFER_SPACE
  else put_outgoing (wr_string v).
(** [v]: the bytes before the terminator. *)
Definition sshpkt_put_cstring (v : bytes) : M unit := sshpkt_put_string v.

Definition take_incoming {A} (rd : bytes -> res (A * bytes)) : M A :=
  let! q := gets incoming_packet in
  let! r := lift (rd q) in modify (set_incoming_packet (snd r)) ;; mret (fst r).

Definition sshpkt_get_u8 : M Z := take_incoming rd_u8.
Definition sshpkt_get_u32 : M Z := take_incoming rd_u32.
Definition sshpkt_get_u64 : M Z := take_incoming rd_u64.
(** [sshbuf_get_string] copies, and the copy may fail after the string was consumed. *)
Definition sshpkt_get_string : M bytes :=
  let! v := take_incoming rd_string in
  let! ok := env request_memory in
  if ok : bool then mret v else mfail SSH_ERR_ALLOC_FAIL.
(** With null results nothing is copied. *)
Definition sshpkt_skip_string : M unit := let! _v := take_incoming rd_string in mret tt.
Definition sshpkt_get_string_direct : M bytes := take_incoming rd_string.
Definition sshpkt_get_cstring : M bytes :=
  let! v := take_incoming rd_cstring in
  let! ok := env request_memory in
  if ok : bool then mret v else mfail SSH_ERR_ALLOC_FAIL.
Definition sshpkt_get_end : M unit :=
  let! q := gets incoming_packet in
  if zlen q >? 0 then mfail SSH_ERR_UNEXPECTED_TRAILING_DATA else mret tt.

(** Packet length, padding length and type. *)
Definition sshpkt_start (type : Z) : M unit :=
  modify (set_outgoing_packet []) ;;
  put_outgoing (zeros 5 ++ [byte_of_Z type]).

Definition sshpkt_add_padding (pad : Z) : M unit := modify (set_extra_pad (u8 pad)).
End code.
