(* ===== verification/PacketSend.v ===== *)
(** The sending half of packet.c: compression, new keys, the decision to rekey, the
    construction of a packet, the queue that holds packets back during a key exchange, and
    the functions of kex.c that start one. *)

From S2P Require Import Prelude SshErr Wire SshQueue Compat.
From S2P Require Import ChaCha ChachaPoly Digest SshCipher Packet.

Section code.
Context {C : Crypto} {E : Env}.

(** ** A new session *)

(** [kex_new], its allocations left out. *)
Definition kex_new : kex_state :=
  mk_kex None None 0 false None None 0 0 0 0 0 0 None None false [] [] false 0 [] [] [] None (zeros 32).

Definition ssh_alloc_session_state (w : os) : session :=
  mk_session None None [] [] [] [] None None None false false 0 0 32768 false false false 0 (-1)
    None None (mk_pstate 0 0 0 0) (mk_pstate 0 0 0 0) 0 0 0 0 0 0 0 0 None 0
    true    (* rekeying: packets wait for the first key exchange *)
    false false [] (Some kex_new) 0 ∅ 0 None w [].

Definition none : sshcipher := mk_cipher (lit "none") 8 0 0 0 CFLAG_NONE.

(** [None]: an error that ends the process. *)
Definition ssh_packet_set_connection (s : session) : option session :=
  match cipher_init none [] 0 None 0 true, cipher_init none [] 0 None 0 false with
  | Ok c, Ok d =>
    Some (set_newkeys_out None (set_newkeys_in None
           (set_receive_context (Some d) (set_send_context (Some c) s))))
  | _, _ => None
  end.

(** ** Is a key exchange in progress? *)

Definition ssh_packet_is_rekeying (s : session) : bool :=
  rekeying s || match kex s with Some k => negb (kex_done k) | None => false end.

(** ** Compression *)

Definition ssh_packet_init_compression : M unit :=
  let! b := gets compression_buffer in
  match b with
  | Some _ => mret tt
  | None =>
    let! ok := env request_memory in
    if ok : bool then modify (set_compression_buffer (Some [])) else mfail SSH_ERR_ALLOC_FAIL
  end.

Definition start_compression_out (level : Z) : M unit :=
  if (level <? 1) || (level >? 9) then mfail SSH_ERR_INVALID_ARGUMENT
  else
  let! r := env (deflateInit level) in
  modify (set_compression_out_stream (Some (snd r))) ;;
  match fst r with
  | Z_OK => modify (set_compression_out_started true)
  | Z_MEM_ERROR => mfail SSH_ERR_ALLOC_FAIL
  | _ => mfail SSH_ERR_INTERNAL_ERROR
  end.

Definition start_compression_in : M unit :=
  let! r := env inflateInit in
  modify (set_compression_in_stream (Some (snd r))) ;;
  match fst r with
  | Z_OK => modify (set_compression_in_started true)
  | Z_MEM_ERROR => mfail SSH_ERR_ALLOC_FAIL
  | _ => mfail SSH_ERR_INTERNAL_ERROR
  end.

(** One round of a loop over [next_in]: go on with what is left of it, or leave. *)
Definition round (A : Type) : Type := bytes * session -> (bytes * session) + outcome A.

(** [body] says whether to go on. *)
Definition as_round {A} (body : bytes -> M (bytes * option A)) : round A := fun '(next_in, s) =>
  match body next_in s with
  | Ret (rest, None) s' => inl (rest, s')
  | Ret (_, Some a) s' => inr (Ret a s')
  | Fail e s' => inr (Fail e s')
  | Crash => inr Crash
  | Wait s' => inr (Wait s')
  end.

Definition run_loop {A} (body : bytes -> M (bytes * option A)) (n : positive) (next_in : bytes) : M A :=
  fun s => match loop (as_round body) n (next_in, s) with
           | inl (_, s') => Wait s'
           | inr r => r
           end.

Definition BUF : Z := 4096.

Definition compress_round (next_in : bytes) : M (bytes * option unit) :=
  let! z := deref compression_out_stream in
  let '(status, out, rest, z') := deflate z next_in BUF in
  modify (set_compression_out_stream (Some z')) ;;
  match status with
  | Z_MEM_ERROR => mfail SSH_ERR_ALLOC_FAIL
  | Z_OK =>
    put_compressed out ;;
    mret (rest, if BUF - zlen out =? 0 then None else Some tt)
  | _ =>
    let! n := gets compression_out_failures in
    modify (set_compression_out_failures (n + 1)) ;;
    mfail SSH_ERR_INVALID_FORMAT
  end.

(** Every round but the last fills [buf]: the limit of a buffer bounds their number. *)
Definition compress_rounds : positive := 32770.

Definition compress_buffer (in_ : bytes) : M unit :=
  let! started := gets compression_out_started in
  if negb started then mfail SSH_ERR_INTERNAL_ERROR
  else if zlen in_ =? 0 then mret tt
  else run_loop compress_round compress_rounds in_.

Definition uncompress_round (next_in : bytes) : M (bytes * option unit) :=
  let! z := deref compression_in_stream in
  let '(status, out, rest, z') := inflate z next_in BUF in
  modify (set_compression_in_stream (Some z')) ;;
  match status with
  | Z_OK => put_compressed out ;; mret (rest, None)
  | Z_BUF_ERROR => mret (rest, Some tt)
  | Z_DATA_ERROR => mfail SSH_ERR_INVALID_FORMAT
  | Z_MEM_ERROR => mfail SSH_ERR_ALLOC_FAIL
  | Z_STREAM_ERROR =>
    let! n := gets compression_in_failures in
    modify (set_compression_in_failures (n + 1)) ;;
    mfail SSH_ERR_INTERNAL_ERROR
  end.

(** Every round reads or writes at least a byte, or is the last. *)
Definition uncompress_rounds (in_ : bytes) : positive :=
  Z.to_pos (zlen in_ + SSHBUF_SIZE_MAX + 2).

Definition uncompress_buffer (in_ : bytes) : M unit :=
  let! started := gets compression_in_started in
  if negb started then mfail SSH_ERR_INTERNAL_ERROR
  else run_loop uncompress_round (uncompress_rounds in_) in_.

(** ** New keys *)

Definition update_kex (f : kex_state -> kex_state) : M unit :=
  modify (fun s => set_kex (option_map f (kex s)) s).
Definition update_newkeys (m : kex_mode) (f : newkeys -> newkeys) : M unit :=
  modify (fun s => set_newkeys m (option_map f (get_newkeys m s)) s).
Definition with_mac (x : sshmac) (k : newkeys) : newkeys :=
  mk_newkeys (nk_enc k) x (nk_mac_name k) (nk_comp k).
Definition with_comp (x : sshcomp) (k : newkeys) : newkeys :=
  mk_newkeys (nk_enc k) (nk_mac k) (nk_mac_name k) x.
Definition comp_on (c : sshcomp) : sshcomp := mk_comp (comp_type c) true (comp_name c).
Definition mac_on (m : sshmac) : sshmac :=
  mk_mac true (mac_len m) (mac_key m) (mac_key_len m) (mac_type m) (mac_etm m) (hmac_alg m)
    (mac_ctx_key m).

Definition ssh_clear_newkeys (m : kex_mode) : M unit := update_kex (set_kex_newkeys m None).

Definition start_compression (m : kex_mode) : M unit :=
  match m with MODE_OUT => start_compression_out 6 | MODE_IN => start_compression_in end.

(** The number of blocks after which a key is changed. *)
Definition max_blocks_of (block_size limit : Z) : Z :=
  let n := if block_size >=? 16 then u64 (Z.shiftl 1 (block_size * 2))
           else Z.shiftl 1 30 / block_size in
  if negb (limit =? 0) then Z.min n (limit / block_size) else n.

Definition ssh_set_newkeys (m : kex_mode) : M unit :=
  modify (set_newkeys m None) ;;
  modify (fun s => let p := get_pstate m s in set_pstate m (mk_pstate (seqnr p) 0 0 (nbytes p)) s) ;;
  let! k := deref kex in
  match get_kex_newkeys m k with
  | None => mfail SSH_ERR_INTERNAL_ERROR
  | Some nk =>
    modify (set_newkeys m (Some nk)) ;;
    update_kex (set_kex_newkeys m None) ;;
    let enc := nk_enc nk in
    let! mac := (if cipher_authlen (enc_cipher enc) =? 0 then lift (mac_init (nk_mac nk))
                 else mret (nk_mac nk)) in
    update_newkeys m (with_mac (mac_on mac)) ;;
    modify (set_ctx m None) ;;
    let! cc := lift (cipher_init (enc_cipher enc) (enc_key enc) (enc_key_len enc) (enc_iv enc)
                       (enc_iv_len enc) (match m with MODE_OUT => true | MODE_IN => false end)) in
    modify (set_ctx m (Some cc)) ;;
    let comp := nk_comp nk in
    let! auth := gets after_authentication in
    (if ((comp_type comp =? COMP_ZLIB) || ((comp_type comp =? COMP_DELAYED) && auth)) &&
        negb (comp_enabled comp)
     then ssh_packet_init_compression ;; start_compression m ;; update_newkeys m (with_comp (comp_on comp))
     else mret tt) ;;
    let! limit := gets rekey_limit in
    modify (set_max_blocks m (max_blocks_of (enc_block_size enc) limit))
  end.

Definition delayed_compress (m : kex_mode) : M unit :=
  let! nk := gets (get_newkeys m) in
  match nk with
  | None => mret tt
  | Some nk =>
    let comp := nk_comp nk in
    if negb (comp_enabled comp) && (comp_type comp =? COMP_DELAYED) then
      ssh_packet_init_compression ;; start_compression m ;; update_newkeys m (with_comp (comp_on comp))
    else mret tt
  end.

Definition ssh_packet_enable_delayed_compress : M unit :=
  modify (set_after_authentication true) ;;
  delayed_compress MODE_IN ;; delayed_compress MODE_OUT.

(** ** The decision to rekey *)

Definition ROUNDUP (x y : Z) : Z := (x + (y - 1)) / y * y.
(** The macro on unsigned integers. *)
Definition ROUNDUP_u32 (x y : Z) : Z := u32 (u32 (x + (y - 1)) / y * y).

(** The clock is only read where the code reads it. *)
Definition ssh_packet_need_rekeying (outbound_packet_len : Z) : M bool :=
  let! s := gets id in
  if negb (after_authentication s) then mret false
  else if ssh_packet_is_rekeying s then mret false
  else if has (compat s) SSH_BUG_NOREKEY then mret false
  else if (packets (p_send s) =? 0) && (packets (p_read s) =? 0) then mret false
  else
  let! late := (if negb (rekey_interval s =? 0) then
                  let! now := env monotime in mret (rekey_time s + rekey_interval s <=? now)
                else mret false) in
  if (late : bool) then mret true
  else if (packets (p_send s) >? MAX_PACKETS) || (packets (p_read s) >? MAX_PACKETS) then mret true
  else
  let! nk := deref newkeys_out in
  let out_blocks := ROUNDUP_u32 (u32 outbound_packet_len) (enc_block_size (nk_enc nk)) in
  mret ((negb (max_blocks_out s =? 0) && (u64 (blocks (p_send s) + out_blocks) >? max_blocks_out s)) ||
        (negb (max_blocks_in s =? 0) && (blocks (p_read s) >? max_blocks_in s))).

(** ** One packet *)

(** The parts of the keys a direction works with: none before the first exchange, and no
    MAC with an authenticating cipher. *)
Record suite := mk_suite {
  su_enc : option sshenc; su_mac : option sshmac; su_comp : option sshcomp; su_authlen : Z
}.
Definition suite_of (k : option newkeys) : suite :=
  match k with
  | None => mk_suite None None None 0
  | Some k =>
    let authlen := cipher_authlen (enc_cipher (nk_enc k)) in
    mk_suite (Some (nk_enc k)) (if negb (authlen =? 0) then None else Some (nk_mac k))
      (Some (nk_comp k)) authlen
  end.
Definition su_block_size (u : suite) : Z :=
  match su_enc u with Some e => enc_block_size e | None => 8 end.
Definition su_mac_on (u : suite) : option sshmac :=
  match su_mac u with Some m => if mac_enabled m then Some m else None | None => None end.
Definition su_etm (u : suite) : bool :=
  match su_mac_on u with Some m => mac_etm m | None => false end.
Definition su_aadlen (u : suite) : Z :=
  if su_etm u || negb (su_authlen u =? 0) then 4 else 0.
Definition su_comp_on (u : suite) : bool :=
  match su_comp u with Some c => comp_enabled c | None => false end.

(** The padding of a packet of [len] bytes, before and with the extra padding asked for;
    [None] is an overflow of the 8-bit arithmetic.  The second value is what is left in
    [extra_pad]. *)
Definition base_padlen (block_size len : Z) : Z :=
  let padlen := u8 (block_size - len mod block_size) in
  if padlen <? 4 then u8 (padlen + block_size) else padlen.

Definition padding (block_size len extra : Z) : option Z * Z :=
  let padlen := base_padlen block_size len in
  if extra =? 0 then (Some padlen, 0)
  else
  let extra' := u8 (ROUNDUP extra block_size) in
  if extra' <? extra then (None, extra')
  else
  let tmp := u8 (u32 (len + padlen) mod extra') in
  if tmp >? extra' then (None, extra')
  else
  let pad := u8 (extra' - tmp) in
  let padlen' := u8 (padlen + pad) in
  if padlen' <? padlen then (None, extra') else (Some padlen', 0).

Definition compress_outgoing : M unit :=
  consume_outgoing 5 ;;
  (let! b := deref compression_buffer in modify (set_compression_buffer (Some []))) ;;
  let! payload := gets outgoing_packet in
  compress_buffer payload ;;
  modify (set_outgoing_packet []) ;;
  put_outgoing (zeros 5) ;;
  let! b := deref compression_buffer in put_outgoing b.

(** [POKE_U32(cp, len - 4); cp[4] = padlen] on the packet. *)
Definition set_header (padlen : Z) (p : bytes) : bytes :=
  POKE_U32 (u32 (zlen p - 4)) ++ [byte_of_Z padlen] ++ drop 5 p.

Definition count_packet (len block_size : Z) (p : packet_state) : packet_state :=
  mk_pstate (seqnr p) (packets p) (u64 (blocks p + len / block_size)) (u64 (nbytes p + len)).

(** The padding and the header of the packet under construction. *)
Definition pad_outgoing (u : suite) : M unit :=
  let! len := gets (fun s => u32 (u32 (zlen (outgoing_packet s)) - su_aadlen u)) in
  let! extra := gets extra_pad in
  let '(padlen, extra') := padding (su_block_size u) len extra in
  modify (set_extra_pad extra') ;;
  match padlen with
  | None => mfail SSH_ERR_INVALID_ARGUMENT
  | Some padlen =>
    let! before := gets outgoing_packet in
    put_outgoing (zeros padlen) ;;   (* reserved here; cleared, or filled below *)
    (if bool_decide (is_Some (su_enc u)) then
       let! cc := deref send_context in
       if negb (cipher_ctx_is_plaintext cc) then
         let! pad := env (arc4random_buf padlen) in
         modify (set_outgoing_packet (before ++ pad))
       else mret tt
     else mret tt) ;;
    modify (fun s => set_outgoing_packet (set_header padlen (outgoing_packet s)) s)
  end.

(** The MAC over the length, the padding length, the payload and the padding, or over what
    is sent of them. *)
Definition mac_of (u : suite) (etm : bool) (n : Z) (data : bytes) : M bytes :=
  match su_mac_on u with
  | Some mac => if eqb (mac_etm mac) etm then lift (mac_compute mac n data SSH_DIGEST_MAX_LENGTH)
                else mret []
  | None => mret []
  end.

(** Encipher the packet onto [output], with its MAC. *)
Definition seal_outgoing (u : suite) : M unit :=
  let! p := gets outgoing_packet in
  let! n := gets (fun s => seqnr (p_send s)) in
  let! macbuf := mac_of u false n p in
  let! before := gets output in
  let! w := gets world in
  put_output (uninitialised (zlen p + su_authlen u) w) ;;
  let! cc := deref send_context in
  let '(r, cc') := cipher_crypt cc n p (zlen p - su_aadlen u) (su_aadlen u) (su_authlen u) in
  modify (set_send_context (Some cc')) ;;
  let! dest := lift r in
  modify (set_output (before ++ dest)) ;;
  let! macbuf' := mac_of u true n (slice 0 (zlen p) dest) in
  if bool_decide (is_Some (su_mac_on u)) then put_output (macbuf ++ macbuf') else mret tt.

(** Sequence number and volume. *)
Definition count_outgoing (u : suite) : M unit :=
  modify (fun s => let q := p_send s in
    set_p_send (mk_pstate (u32 (seqnr q + 1)) (u32 (packets q + 1)) (blocks q) (nbytes q)) s) ;;
  let! wrapped := gets (fun s => (packets (p_send s) =? 0) && negb (has (compat s) SSH_BUG_NOREKEY)) in
  if (wrapped : bool) then mfail SSH_ERR_NEED_REKEY
  else
  modify (fun s => set_p_send (count_packet (zlen (outgoing_packet s)) (su_block_size u) (p_send s)) s) ;;
  modify (set_outgoing_packet []).

(** What a packet changes in its sender. *)
Definition after_packet (type : Z) : M unit :=
  let! server := gets server_side in
  if type =? SSH2_MSG_NEWKEYS then ssh_set_newkeys MODE_OUT
  else if (type =? SSH2_MSG_USERAUTH_SUCCESS) && server then ssh_packet_enable_delayed_compress
  else mret tt.

Definition ssh_packet_send2_wrapped : M unit :=
  let! u := gets (fun s => suite_of (newkeys_out s)) in
  let! p := gets outgoing_packet in
  let type := at_ p 5 in
  (if su_comp_on u then compress_outgoing else mret tt) ;;
  pad_outgoing u ;;
  seal_outgoing u ;;
  modify (fun s => set_sent (sent s ++ [mk_packet type p]) s) ;;
  count_outgoing u ;;
  after_packet type.

(** ** The queue *)

Definition ssh_packet_type_is_kex (type : Z) : bool :=
  (type >=? SSH2_MSG_TRANSPORT_MIN) && (type <=? SSH2_MSG_TRANSPORT_MAX) &&
  negb (type =? SSH2_MSG_SERVICE_REQUEST) && negb (type =? SSH2_MSG_SERVICE_ACCEPT) &&
  negb (type =? SSH2_MSG_EXT_INFO).

(** The loop over the queue after NEWKEYS, one round per packet that waits. *)
Fixpoint send_queue (start_rekex : M unit) (waiting : list packet) : M unit :=
  match waiting with
  | [] => mret tt
  | p :: rest =>
    let! again := ssh_packet_need_rekeying (zlen (p_payload p)) in
    if (again : bool) then start_rekex
    else
    modify (set_outgoing_packet (p_payload p)) ;;
    modify (set_outgoing rest) ;;
    ssh_packet_send2_wrapped ;;
    send_queue start_rekex rest
  end.

(** [ssh_packet_send2], given the function that starts a key exchange: the two call each
    other. *)
Definition send2_with (start_rekex : M unit) : M unit :=
  let! p := gets outgoing_packet in
  if zlen p <? 6 then mfail SSH_ERR_INTERNAL_ERROR
  else
  let type := at_ p 5 in
  let! need_rekey := (if negb (ssh_packet_type_is_kex type) then ssh_packet_need_rekeying (zlen p)
                      else mret false) in
  let! busy := gets rekeying in
  if (need_rekey || busy) && negb (ssh_packet_type_is_kex type) then
    let! ok := env request_memory in
    if negb ok then mfail SSH_ERR_ALLOC_FAIL
    else
    modify (fun s => set_outgoing (outgoing s ++ [mk_packet type p]) s) ;;
    modify (set_outgoing_packet []) ;;
    let! ok := env request_memory in
    if negb ok then mfail SSH_ERR_ALLOC_FAIL
    else if (need_rekey : bool) then start_rekex
    else mret tt
  else
  (if type =? SSH2_MSG_KEXINIT then modify (set_rekeying true) else mret tt) ;;
  ssh_packet_send2_wrapped ;;
  if type =? SSH2_MSG_NEWKEYS then
    modify (set_rekeying false) ;;
    let! now := env monotime in
    modify (set_rekey_time now) ;;
    let! waiting := gets outgoing in
    send_queue start_rekex waiting
  else mret tt.

Definition ssh_packet_send_mux : M unit :=
  let! k := gets kex in
  match k with
  | Some _ => mfail SSH_ERR_INTERNAL_ERROR
  | None =>
    let! p := gets outgoing_packet in
    if zlen p <? 6 then mfail SSH_ERR_INTERNAL_ERROR
    else
    let type := at_ p 5 in
    (if (type >=? SSH2_MSG_CONNECTION_MIN) && (type <=? SSH2_MSG_CONNECTION_MAX) then
       let p' := POKE_U32 (u32 (zlen p - 4)) ++ drop 4 p in
       modify (set_outgoing_packet p') ;; put_output p'
     else mret tt) ;;
    modify (set_outgoing_packet [])
  end.

Definition send_with (start_rekex : M unit) : M unit :=
  let! m := gets mux in
  if (m : bool) then ssh_packet_send_mux else send2_with start_rekex.

(** ** Starting a key exchange (kex.c) *)

(** The cookie is written over the first bytes of our proposal. *)
Definition kex_send_kexinit_with (send : M unit) : M unit :=
  let! k := gets kex in
  match k with
  | None => mfail SSH_ERR_INTERNAL_ERROR
  | Some k =>
    if has (kex_flags k) KEX_INIT_SENT then mret tt
    else
    update_kex (set_kex_done false) ;;
    if zlen (kex_my k) <? KEX_COOKIE_LEN then mfail SSH_ERR_INVALID_FORMAT
    else
    let! cookie := env (arc4random_buf KEX_COOKIE_LEN) in
    let my := cookie ++ drop (Z.to_nat KEX_COOKIE_LEN) (kex_my k) in
    update_kex (set_kex_my my) ;;
    sshpkt_start SSH2_MSG_KEXINIT ;;
    sshpkt_putb my ;;
    send ;;
    update_kex (fun k => set_kex_flags (Z.lor (kex_flags k) KEX_INIT_SENT) k)
  end.

Definition kex_start_rekex_with (send : M unit) : M unit :=
  let! k := gets kex in
  match k with
  | None => mfail SSH_ERR_INTERNAL_ERROR
  | Some k =>
    if negb (kex_done k) then mfail SSH_ERR_INTERNAL_ERROR
    else update_kex (set_kex_done false) ;; kex_send_kexinit_with send
  end.

(** The knot: a KEXINIT is a key exchange message, so that sending one does not start
    another ([send_kexinit_unfold]). *)
Definition kex_send_kexinit : M unit := kex_send_kexinit_with (send_with mcrash).
Definition kex_start_rekex : M unit := kex_start_rekex_with (send_with mcrash).
Definition ssh_packet_send2 : M unit := send2_with kex_start_rekex.
Definition sshpkt_send : M unit := send_with kex_start_rekex.

Definition ssh_packet_check_rekey : M unit :=
  let! need := ssh_packet_need_rekeying 0 in
  if (need : bool) then kex_start_rekex else mret tt.

(** [text]: what [vsnprintf] makes of the format, cut at the size of the buffer. *)
Definition sshpkt_disconnect (text : bytes) : M unit :=
  sshpkt_start SSH2_MSG_DISCONNECT ;;
  sshpkt_put_u32 SSH2_DISCONNECT_PROTOCOL_ERROR ;;
  sshpkt_put_cstring (take 1023 text) ;;
  sshpkt_put_cstring [] ;;
  sshpkt_send.

Fixpoint put_random_bytes (n : nat) (i rnd : Z) : M unit :=
  match n with
  | O => mret tt
  | S n =>
    let! rnd := (if i mod 4 =? 0 then
                   let! v := env (arc4random_buf 4) in mret (PEEK_U32 v)
                 else mret rnd) in
    sshpkt_put_u8 (Z.land rnd 255) ;;
    put_random_bytes n (i + 1) (Z.shiftr rnd 8)
  end.

Definition sshpkt_msg_ignore (nbytes : Z) : M unit :=
  sshpkt_start SSH2_MSG_IGNORE ;;
  sshpkt_put_u32 nbytes ;;
  put_random_bytes (Z.to_nat nbytes) 0 0.
End code.
