(* ===== verification/Plain.v ===== *)
(** A concrete environment, in which the definitions of the packet layer evaluate: a
    libcrypto whose ciphers change nothing and whose digests are the data, a zlib that copies,
    a clock that does not move, memory that is never short and descriptors that are always
    ready.  It satisfies the laws the theorems assume, and their witnesses run in it. *)

From S2P Require Import Prelude SshErr Wire SshQueue Compat.
From S2P Require Import ChaCha ChachaPoly Digest SshCipher CipherLink Packet.

#[export] Instance plain_crypto : Crypto := {|
  crypto_digest := plain_digest;
  evp := unit;
  EVP_CipherInit_type _ _ _ := Some tt;
  EVP_CTRL_GCM_SET_IV_FIXED _ _ := Some tt;
  EVP_CIPHER_CTX_key_length _ := 0;
  EVP_CIPHER_CTX_set_key_length _ _ := Some tt;
  EVP_CipherInit_key _ _ := Some tt;
  EVP_CTRL_GCM_IV_GEN _ := Some tt;
  EVP_CTRL_GCM_SET_TAG _ _ := Some tt;
  EVP_Cipher_aad _ _ := Some tt;
  EVP_Cipher _ p := Some (p, tt);
  EVP_Cipher_final _ := Some tt;
  EVP_CTRL_GCM_GET_TAG _ n := Some (zeros n);
  umac _ _ _ := zeros 8;
  umac128 _ _ _ := zeros 16;
  tmp := zeros 64
|}.

#[export] Instance plain_laws : CryptoLaws.
Proof.
  refine {| evp_linked := fun c _ _ => 0 <= cipher_authlen c |}.
  - intros c e d p Hc _ _. by exists p, tt, tt.
  - intros c e d p q1 q2 d' _ _ H. cbn in *. injection H as <- _.
    exists tt. destruct d'. by rewrite take_app_length, drop_app_length.
  - intros c e d aad p Hc Ha _.
    exists tt, tt, tt, tt, p, (zeros (cipher_authlen c)), tt, tt, tt, tt, tt.
    split_and!; cbn; try done. by apply zlen_zeros.
  - reflexivity.
Defined.

#[export] Instance plain_env : Env := {|
  os := unit;
  monotime w := (0, w);
  arc4random_buf n w := (zeros n, w);
  request_memory w := (true, w);
  uninitialised n _ := zeros n;
  sys_select _ _ w := (Ready, w);
  sys_write q w := (Moved (zlen q), w);
  sys_read n w := ((Moved 0, []), w);
  zstream := unit;
  deflateInit _ w := ((Z_OK, tt), w);
  inflateInit w := ((Z_OK, tt), w);
  deflate _ p n := (Z_OK, take (Z.to_nat n) p, drop (Z.to_nat n) p, tt);
  inflate _ p n := match p with [] => (Z_BUF_ERROR, [], [], tt)
                   | _ => (Z_OK, take (Z.to_nat n) p, drop (Z.to_nat n) p, tt) end;
  hook_in := None;
  patience := 100
|}.
