(* ===== verification/PacketRead.v ===== *)
(** The receiving half of packet.c: the parser of the input buffer, what it does with a
    packet it cannot accept, and the loops that wait for a descriptor. *)

From stdpp Require Import pretty.
From S2P Require Import Prelude SshErr Wire SshQueue Compat.
From S2P Require Import ChaCha ChachaPoly Digest SshCipher Packet PacketSend.

Section code.
#[local] Open Scope Z_scope.
Context {C : Crypto} {E : Env}.

(** [%d] *)
Definition fmt_d (n : Z) : bytes := lit (pretty n).

(** ** Waiting *)

Definition ssh_packet_have_data_to_write : M bool := gets (fun s => negb (zlen (output s) =? 0)).

Definition ssh_packet_not_very_much_data_to_write (s : session) : bool :=
  if interactive_mode s then zlen (output s) <? 16384 else zlen (output s) <? 128 * 1024.

Definition ssh_packet_write_poll : M unit :=
  let! q := gets output in
  if zlen q >? 0 then
    let! a := env (sys_write q) in
    match a with
    | Again => mret tt
    | IoError => mfail SSH_ERR_SYSTEM_ERROR
    | Moved n => if n =? 0 then mfail SSH_ERR_CONN_CLOSED else consume_output n
    end
  else mret tt.

(** The inner loop: [select] until the descriptor is ready, [ms_remain] counting down.
    [Some true] is [ret > 0], [Some false] is [ret == 0], [None] an error. *)
Fixpoint select_loop (fuel : nat) (writing : bool) (ms_remain : Z) : M (option bool) :=
  match fuel with
  | O => mwait
  | S fuel =>
    let! timeout := gets packet_timeout_ms in
    let! a := env (sys_select writing (if timeout >? 0 then Some ms_remain else None)) in
    match a with
    | Ready => mret (Some true)
    | TimedOut => mret (Some false)
    | SelectError => mret None
    | Interrupted elapsed =>
      if timeout <=? 0 then select_loop fuel writing ms_remain
      else
      let ms_remain := ms_remain - elapsed in
      if ms_remain <=? 0 then mret (Some false) else select_loop fuel writing ms_remain
    end
  end.

Fixpoint write_wait_loop (fuel : nat) : M unit :=
  match fuel with
  | O => mwait
  | S fuel =>
    let! more := ssh_packet_have_data_to_write in
    if negb more then mret tt
    else
    let! timeout := gets packet_timeout_ms in
    let! ret := select_loop patience true timeout in
    match ret with
    | Some false => mfail SSH_ERR_CONN_TIMEOUT
    | _ => ssh_packet_write_poll ;; write_wait_loop fuel
    end
  end.

Definition ssh_packet_write_wait : M unit :=
  let! ok := env request_memory in
  if negb ok then mfail SSH_ERR_ALLOC_FAIL
  else ssh_packet_write_poll ;; write_wait_loop patience.

(** ** Discarding *)

Fixpoint fill_incoming (fuel : nat) (dlen : Z) : M unit :=
  match fuel with
  | O => mret tt
  | S fuel =>
    let! q := gets incoming_packet in
    if zlen q <? dlen then put_incoming (replicate 1024 (byte_of_Z 97)) ;; fill_incoming fuel dlen
    else mret tt
  end.

(** The MAC is computed for the time it takes.  Never returns 0. *)
Definition ssh_packet_stop_discard : M unit :=
  let! mac := gets packet_discard_mac in
  (match mac with
   | Some _ =>
     let! already := gets packet_discard_mac_already in
     let dlen := if PACKET_MAX_SIZE >? already then PACKET_MAX_SIZE - already else PACKET_MAX_SIZE in
     fill_incoming 257 dlen
   | None => mret tt
   end) ;;
  mfail SSH_ERR_MAC_INVALID.

Definition ssh_packet_start_discard (enc : option sshenc) (mac : option sshmac)
    (mac_already discard : Z) : M unit :=
  let cbc := match enc with Some e => cipher_is_cbc (enc_cipher e) | None => false end in
  if negb cbc || match mac with Some m => mac_etm m | None => false end then
    sshpkt_disconnect (lit "Packet corrupt") ;; mfail SSH_ERR_MAC_INVALID
  else
  (match mac with
   | Some m => if mac_enabled m then
                 modify (set_packet_discard_mac (Some m)) ;;
                 modify (set_packet_discard_mac_already mac_already)
               else mret tt
   | None => mret tt
   end) ;;
  let! n := gets (fun s => zlen (input s)) in
  if n >=? discard then ssh_packet_stop_discard
  else modify (set_packet_discard (u32 (discard - n))).

(** ** One packet *)

(** A packet was read, or the input holds no whole one: the type, [SSH_MSG_NONE] being
    none, and what is written to [seqnr_p]. *)
Definition polled : Type := Z * option Z.
Definition no_packet : polled := (SSH_MSG_NONE, None).

Definition ssh_packet_read_poll2_mux : M polled :=
  let! k := gets kex in
  match k with
  | Some _ => mfail SSH_ERR_INTERNAL_ERROR
  | None =>
    let! cp := gets input in
    let! known := gets packlen in
    if (known =? 0) && (zlen cp <? 4 + 1) then mret no_packet
    else
    (if known =? 0 then modify (set_packlen (PEEK_U32 (slice 0 4 cp))) else mret tt) ;;
    let! len := gets packlen in
    if (known =? 0) && ((len <? 4 + 1) || (len >? PACKET_MAX_SIZE)) then
      mfail SSH_ERR_MESSAGE_INCOMPLETE
    else
    let need := len + 4 in
    if zlen cp <? need then mret no_packet
    else
    modify (set_incoming_packet []) ;;
    put_incoming (slice 4 len cp) ;;
    consume_input need ;;
    (let! _padlen := sshpkt_get_u8 in mret tt) ;;
    let! type := sshpkt_get_u8 in
    modify (set_packlen 0) ;;
    mret (type, None)
  end.

(** The length of the next packet: [None] when there is not enough input, or when the rest
    of the input is to be discarded. *)
Definition bad_length (len : Z) : bool := (len <? 1 + 4) || (len >? PACKET_MAX_SIZE).

Definition read_length (u : suite) : M (option Z) :=
  let! known := gets packlen in
  if negb (known =? 0) then mret (Some known)
  else
  let! cp := gets input in
  if negb (su_aadlen u =? 0) then
    let! cc := deref receive_context in
    let! n := gets (fun s => seqnr (p_read s)) in
    let '(r, cc') := cipher_get_length cc n cp (zlen cp) in
    modify (set_receive_context (Some cc')) ;;
    match r with
    | Err _ => mret None
    | Ok len =>
      modify (set_packlen len) ;;
      if bad_length len then sshpkt_disconnect (lit "Packet corrupt") ;; mfail SSH_ERR_CONN_CORRUPT
      else modify (set_incoming_packet []) ;; mret (Some len)
    end
  else
    let block_size := su_block_size u in
    if zlen cp <? block_size then mret None
    else
    modify (set_incoming_packet []) ;;
    let! w := gets world in
    put_incoming (uninitialised block_size w) ;;
    let! cc := deref receive_context in
    let! n := gets (fun s => seqnr (p_send s)) in    (* p_send, as in the code *)
    let '(r, cc') := cipher_crypt cc n cp block_size 0 0 in
    modify (set_receive_context (Some cc')) ;;
    let! first := lift r in
    modify (set_incoming_packet first) ;;
    let len := PEEK_U32 (slice 0 4 first) in
    modify (set_packlen len) ;;
    if bad_length len then
      ssh_packet_start_discard (su_enc u) (su_mac u) 0 PACKET_MAX_SIZE ;; mret None
    else consume_input block_size ;; mret (Some len).

(** What is deciphered is in [incoming_packet] and has left [input]. *)
Definition check_mac (u : suite) (need : Z) : M bool :=
  match su_mac_on u with
  | None => mret true
  | Some mac =>
    let! n := gets (fun s => seqnr (p_read s)) in
    let! p := gets incoming_packet in
    let! cp := gets input in
    match (if mac_etm mac then None else mac_check mac n p cp (mac_len mac)) with
    | None => consume_input (mac_len mac) ;; mret true
    | Some SSH_ERR_MAC_INVALID =>
      if u32 (need + su_block_size u) >? PACKET_MAX_SIZE then mfail SSH_ERR_INTERNAL_ERROR
      else
      ssh_packet_start_discard (su_enc u) (su_mac u) (zlen p)
        (u32 (PACKET_MAX_SIZE - need - su_block_size u)) ;; mret false
    | Some e => mfail e
    end
  end.

Definition uncompress_incoming : M unit :=
  (let! b := deref compression_buffer in modify (set_compression_buffer (Some []))) ;;
  let! payload := gets incoming_packet in
  uncompress_buffer payload ;;
  modify (set_incoming_packet []) ;;
  let! b := deref compression_buffer in put_incoming b.

(** From the deciphered packet to its type. *)
Definition finish_packet (u : suite) : M polled :=
  let! len := gets packlen in
  let! n := gets (fun s => seqnr (p_read s)) in
  modify (fun s => let q := p_read s in
    set_p_read (mk_pstate (u32 (seqnr q + 1)) (u32 (packets q + 1)) (blocks q) (nbytes q)) s) ;;
  let! wrapped := gets (fun s => (packets (p_read s) =? 0) && negb (has (compat s) SSH_BUG_NOREKEY)) in
  if (wrapped : bool) then mfail SSH_ERR_NEED_REKEY
  else
  modify (fun s => let q := p_read s in
    set_p_read (mk_pstate (seqnr q) (packets q) (u64 (blocks q + u32 (len + 4) / su_block_size u))
                  (u64 (nbytes q + u32 (len + 4)))) s) ;;
  let! padlen := gets (fun s => at_ (incoming_packet s) 4) in
  if padlen <? 4 then
    sshpkt_disconnect (lit "Corrupted padlen " ++ fmt_d padlen ++ lit " on input.") ;;
    ssh_packet_write_wait ;; mfail SSH_ERR_CONN_CORRUPT
  else
  consume_incoming (4 + 1) ;;
  consume_end_incoming padlen ;;
  (if su_comp_on u then uncompress_incoming else mret tt) ;;
  let! type := sshpkt_get_u8 in
  if (type <? SSH2_MSG_MIN) || (type >=? SSH2_MSG_LOCAL_MIN) then
    sshpkt_disconnect (lit "Invalid ssh2 packet type: " ++ fmt_d type) ;;
    ssh_packet_write_wait ;; mfail SSH_ERR_PROTOCOL_ERROR
  else
  let! type := (match hook_in with
                | None => mret type
                | Some h =>
                  let! p := gets incoming_packet in
                  let! r := env (h p type) in
                  let! r := lift r in
                  modify (set_incoming_packet (fst r)) ;; mret (snd r)
                end) in
  let! server := gets server_side in
  let! r := mtry (if (type =? SSH2_MSG_USERAUTH_SUCCESS) && negb server
                  then ssh_packet_enable_delayed_compress else mret tt) in
  modify (set_packlen 0) ;;
  (* what enable_delayed_compress returned is overwritten here *)
  ssh_packet_check_rekey ;;
  mret (type, Some n).

(** EtM: the MAC over what was received. *)
Definition check_etm (u : suite) (cp : bytes) (need : Z) : M unit :=
  match su_mac_on u with
  | Some mac =>
    if mac_etm mac then
      let! n := gets (fun s => seqnr (p_read s)) in
      match mac_check mac n (slice 0 (su_aadlen u + need) cp)
              (drop (Z.to_nat (su_aadlen u + need + su_authlen u)) cp) (mac_len mac) with
      | Some e => mfail e
      | None => mret tt
      end
    else mret tt
  | None => mret tt
  end.

(** From [input] to [incoming_packet]. *)
Definition decipher (u : suite) (cp : bytes) (need : Z) : M unit :=
  let! n := gets (fun s => seqnr (p_read s)) in
  let! before := gets incoming_packet in
  let! w := gets world in
  put_incoming (uninitialised (su_aadlen u + need) w) ;;
  let! cc := deref receive_context in
  let '(r, cc') := cipher_crypt cc n cp need (su_aadlen u) (su_authlen u) in
  modify (set_receive_context (Some cc')) ;;
  let! dest := lift r in
  modify (set_incoming_packet (before ++ dest)) ;;
  consume_input (su_aadlen u + need + su_authlen u).

(** With the length known: what remains to be received of the packet. *)
Definition needed (u : suite) (len : Z) : Z :=
  if negb (su_aadlen u =? 0) then len else u32 (4 + len - su_block_size u).
Definition su_maclen (u : suite) : Z :=
  match su_mac_on u with Some m => mac_len m | None => 0 end.

Definition read_body (u : suite) (len : Z) : M polled :=
  let need := needed u len in
  if negb (need mod su_block_size u =? 0) then
    ssh_packet_start_discard (su_enc u) (su_mac u) 0 (PACKET_MAX_SIZE - su_block_size u) ;;
    mret no_packet
  else
  let! cp := gets input in
  if zlen cp <? u32 (su_aadlen u + need + su_authlen u + su_maclen u) then mret no_packet
  else
  check_etm u cp need ;;
  decipher u cp need ;;
  let! good := check_mac u need in
  if negb good then mret no_packet else finish_packet u.

Definition ssh_packet_read_poll2 : M polled :=
  let! m := gets mux in
  if (m : bool) then ssh_packet_read_poll2_mux
  else
  let! discarding := gets packet_discard in
  if negb (discarding =? 0) then mret no_packet
  else
  let! u := gets (fun s => suite_of (newkeys_in s)) in
  let! len := read_length u in
  match len with
  | None => mret no_packet
  | Some len => read_body u len
  end.

(** ** Packets that are not given to the caller *)

(** One round: [None] is to go on. *)
Definition read_poll_round : M (option polled) :=
  let! r := ssh_packet_read_poll2 in
  let type := fst r in
  (if negb (type =? 0) then modify (set_keep_alive_timeouts 0) else mret tt) ;;
  if type =? SSH2_MSG_IGNORE then mret None
  else if type =? SSH2_MSG_DEBUG then
    (let! _b := sshpkt_get_u8 in mret tt) ;;
    (let! _b := sshpkt_get_string in mret tt) ;;
    sshpkt_skip_string ;; mret None
  else if type =? SSH2_MSG_DISCONNECT then
    (let! _b := sshpkt_get_u32 in mret tt) ;;
    (let! _b := sshpkt_get_string in mret tt) ;;
    mfail SSH_ERR_DISCONNECTED
  else if type =? SSH2_MSG_UNIMPLEMENTED then
    (let! _b := sshpkt_get_u32 in mret tt) ;; mret None
  else mret (Some r).

Fixpoint read_poll_loop (fuel : nat) : M polled :=
  match fuel with
  | O => mwait
  | S fuel =>
    let! r := read_poll_round in
    match r with Some p => mret p | None => read_poll_loop fuel end
  end.

(** Every packet is at least a byte of input, or was begun before ([read_poll_fuel]). *)
Definition ssh_packet_read_poll_seqnr : M polled :=
  let! n := gets (fun s => length (input s)) in read_poll_loop (S (S n)).

(** What the code does with bytes from the socket.  [stop_discard] does not return 0, so
    that the subtraction after it is not reached. *)
Definition ssh_packet_process_incoming (buf : bytes) : M unit :=
  let! discard := gets packet_discard in
  if negb (discard =? 0) then
    modify (set_keep_alive_timeouts 0) ;;
    (if zlen buf >=? discard then ssh_packet_stop_discard else mret tt) ;;
    modify (set_packet_discard (u32 (discard - zlen buf)))
  else put_input buf.

Definition ssh_packet_remaining (s : session) : Z := zlen (incoming_packet s).

Fixpoint read_seqnr_loop (fuel : nat) : M polled :=
  match fuel with
  | O => mwait
  | S fuel =>
    let! p := ssh_packet_read_poll_seqnr in
    if negb (fst p =? SSH_MSG_NONE) then mret p
    else
    let! timeout := gets packet_timeout_ms in
    let! ret := select_loop patience false timeout in
    match ret with
    | None => mfail SSH_ERR_SYSTEM_ERROR
    | Some false => mfail SSH_ERR_CONN_TIMEOUT
    | Some true =>
      let! r := env (sys_read 8192) in
      match fst r with
      | Moved n =>
        if n =? 0 then mfail SSH_ERR_CONN_CLOSED
        else ssh_packet_process_incoming (snd r) ;; read_seqnr_loop fuel
      | _ => mfail SSH_ERR_SYSTEM_ERROR
      end
    end
  end.

Definition ssh_packet_read_seqnr : M polled :=
  let! ok := env request_memory in
  if negb ok then mfail SSH_ERR_ALLOC_FAIL
  else ssh_packet_write_wait ;; read_seqnr_loop patience.

Definition ssh_packet_read_expect (expected_type : Z) : M unit :=
  let! p := ssh_packet_read_seqnr in
  if negb (fst p =? expected_type) then
    sshpkt_disconnect (lit "Protocol error: expected packet type " ++ fmt_d expected_type ++
                       lit ", got " ++ fmt_d (fst p)) ;;
    mfail SSH_ERR_PROTOCOL_ERROR
  else mret tt.

(** ** The parameters of a session *)

Definition INT_MAX : Z := 2 ^ 31 - 1.

Definition ssh_packet_set_timeout (timeout count : Z) : M unit :=
  modify (set_packet_timeout_ms
    (if (timeout <=? 0) || (count <=? 0) then -1
     else if (INT_MAX / 1000) / count <? timeout then INT_MAX else timeout * count * 1000)).

Definition ssh_packet_set_mux : M unit :=
  modify (set_mux true) ;; modify (set_rekeying false) ;; modify (set_kex None).
Definition ssh_packet_get_mux (s : session) : bool := mux s.
Definition ssh_packet_is_interactive (s : session) : bool := interactive_mode s.

(** The value returned. *)
Definition ssh_packet_set_maxsize (n : Z) : M Z :=
  let! called := gets set_maxsize_called in
  if (called : bool) then mret (-1)
  else if (n <? 4 * 1024) || (n >? 1024 * 1024) then mret (-1)
  else modify (set_set_maxsize_called true) ;; modify (set_max_packet_size n) ;; mret n.
Definition ssh_packet_get_maxsize (s : session) : Z := max_packet_size s.

Definition ssh_packet_inc_alive_timeouts : M Z :=
  let! n := gets keep_alive_timeouts in modify (set_keep_alive_timeouts (n + 1)) ;; mret (n + 1).
Definition ssh_packet_set_alive_timeouts (ka : Z) : M unit := modify (set_keep_alive_timeouts ka).

Definition ssh_packet_set_rekey_limits (bytes seconds : Z) : M unit :=
  modify (set_rekey_limit bytes) ;; modify (set_rekey_interval seconds).
Definition ssh_packet_get_rekey_timeout : M Z :=
  let! at_last := gets rekey_time in
  let! interval := gets rekey_interval in
  let! now := env monotime in
  let seconds := at_last + interval - now in
  mret (if seconds <=? 0 then 1 else seconds).

Definition ssh_packet_set_server : M unit :=
  modify (set_server_side true) ;; let! _k := deref kex in update_kex (set_kex_server true).
Definition ssh_packet_set_authenticated : M unit := modify (set_after_authentication true).
End code.
