(* ===== verification/PacketFrame.v ===== *)
(** What a computation of the packet layer leaves alone: [keeps f m] when [m] does not
    change [f] of the session, however it ends.  The tactic [keeps] proves it by the shape
    of the computation. *)

From S2P Require Import Prelude SshErr Wire SshQueue Compat.
From S2P Require Import ChaCha ChachaPoly Digest SshCipher Packet PacketSend PacketRead.

Section keeps.
Context {C : Crypto} {E : Env} {T : Type} (f : session -> T).

(** The state a computation ends in. *)
Definition final {A} (o : outcome A) : option session :=
  match o with Ret _ s | Fail _ s | Wait s => Some s | Crash => None end.

Definition keeps {A} (m : M A) : Prop := forall s s', final (m s) = Some s' -> f s' = f s.

Lemma keeps_bind {A B} (m : M A) (k : A -> M B) :
  keeps m -> (forall a, keeps (k a)) -> keeps (mbind m k).
Proof.
  intros Hm Hk s s'. unfold mbind. specialize (Hm s).
  destruct (m s) as [a s1|e s1| |s1]; cbn in *; intros H; try done; [|by apply Hm..].
  rewrite <- (Hm s1) by done. by apply (Hk a).
Qed.

Lemma keeps_part {U} (g : T -> U) {A} (m : M A) : keeps m -> forall s s', final (m s) = Some s' ->
  g (f s') = g (f s).
Proof. intros Hm s s' H. by rewrite (Hm s s' H). Qed.

Lemma keeps_try {A} (m : M A) : keeps m -> keeps (mtry m).
Proof. intros Hm s s'. unfold mtry. specialize (Hm s). destruct (m s); cbn in *; try done; eauto. Qed.

Lemma keeps_ret {A} (a : A) : keeps (mret a).
Proof. intros s s' [= ->]. done. Qed.
Lemma keeps_fail {A} e : keeps (mfail e : M A).
Proof. intros s s' [= ->]. done. Qed.
Lemma keeps_crash {A} : keeps (mcrash : M A).
Proof. done. Qed.
Lemma keeps_wait {A} : keeps (mwait : M A).
Proof. intros s s' [= ->]. done. Qed.
Lemma keeps_gets {A} (g : session -> A) : keeps (gets g).
Proof. intros s s' [= ->]. done. Qed.
Lemma keeps_deref {A} (g : session -> option A) : keeps (deref g).
Proof. intros s s'. unfold deref. destruct (g s); [|done]. by intros [= ->]. Qed.
Lemma keeps_lift {A} (r : res A) : keeps (lift r).
Proof. destruct r; [apply keeps_ret|apply keeps_fail]. Qed.
Lemma keeps_modify g : (forall s, f (g s) = f s) -> keeps (modify g).
Proof. intros H s s' [= <-]. apply H. Qed.
Lemma keeps_env {A} (g : os -> A * os) : (forall s w, f (set_world w s) = f s) -> keeps (env g).
Proof. intros H s s'. unfold env. destruct (g (world s)). intros [= <-]. apply H. Qed.

Lemma keeps_run_loop {A} (body : bytes -> M (bytes * option A)) n next_in :
  (forall x, keeps (body x)) -> keeps (run_loop body n next_in).
Proof.
  intros Hb s s' H. unfold run_loop in H.
  assert (L := loop_sound (as_round body) (fun x => f (snd x) = f s)
                 (fun r => forall s2, final r = Some s2 -> f s2 = f s) n (next_in, s)).
  destruct (loop (as_round body) n (next_in, s)) as [[i s1]|r].
  1: injection H as ->. all: apply L; clear L; try done.
  all: intros [i1 s1] y HP Hr; cbn in Hr, HP; specialize (Hb i1 s1);
    destruct (body i1 s1) as [[rest [a|]] s3|e s3| |s3]; try done; injection Hr as <-; cbn in *;
    intros; simplify_eq; by rewrite (Hb _ eq_refl).
Qed.
End keeps.

Create HintDb keeps.
#[export] Hint Resolve keeps_ret keeps_fail keeps_crash keeps_wait keeps_gets keeps_deref keeps_lift
  : keeps.

(** Follow the shape of the computation; what is left are the functions it calls, given by
    the hint database. *)
Ltac keeps_step :=
  lazymatch goal with
  | |- keeps _ (mbind _ _) => apply keeps_bind; [|intros ?]
  | |- keeps _ (mtry _) => apply keeps_try
  | |- keeps _ (modify _) => first [apply keeps_modify; reflexivity | solve [auto with keeps]]
  | |- keeps _ (env _) => apply keeps_env; reflexivity
  | |- keeps _ (run_loop _ _ _) => apply keeps_run_loop; intros ?
  | |- keeps _ (match ?x with _ => _ end) => destruct x
  | |- keeps _ (let x := _ in _) => cbv zeta
  | |- _ => solve [auto with keeps]
  end.
Ltac keeps := repeat keeps_step.

(** ** Running computations backwards *)

Section backwards.
Context {C : Crypto} {E : Env}.

Lemma bind_ret {A B} (m : M A) (k : A -> M B) s b s' : mbind m k s = Ret b s' ->
  exists a s1, m s = Ret a s1 /\ k a s1 = Ret b s'.
Proof. unfold mbind. destruct (m s); intros H; try done. eauto. Qed.

Lemma keeps_ret_eq {A T} (f : session -> T) (m : M A) s a s' :
  keeps f m -> m s = Ret a s' -> f s' = f s.
Proof. intros H Hm. apply (H s). by rewrite Hm. Qed.

Lemma bind_ext {A B} (m : M A) (f g : A -> M B) s :
  (forall a s1, m s = Ret a s1 -> f a s1 = g a s1) -> mbind m f s = mbind m g s.
Proof. intros H. unfold mbind. destruct (m s) eqn:Em; try done. by apply H. Qed.
End backwards.

Ltac inv_bind H :=
  let s := fresh "s" in let H1 := fresh "H" in
  apply bind_ret in H as (? & s & H1 & H).
(** Steps that do not fail. *)
Ltac run H :=
  repeat match type of H with
  | mbind (gets _) _ _ = _ => unfold mbind at 1, gets at 1 in H; cbv beta iota in H
  | mbind (modify _) _ _ = _ => unfold mbind at 1, modify at 1 in H; cbv beta iota in H
  | mbind (mret _) _ _ = _ => unfold mbind at 1, mret at 1 in H; cbv beta iota in H
  end.

Section frames.
Context {C : Crypto} {E : Env}.

(** What the queue of packets depends on. *)
Definition queue_state (s : session) : list packet * list packet * bool * option (bool * Z) * bool :=
  (outgoing s, sent s, rekeying s, option_map (fun k => (kex_done k, kex_flags k)) (kex s), mux s).

Lemma keeps_update_kex (g : kex_state -> kex_state) :
  (forall k, (kex_done (g k), kex_flags (g k)) = (kex_done k, kex_flags k)) ->
  keeps queue_state (update_kex g).
Proof.
  intros H. apply keeps_modify. intros s. unfold queue_state. cbn.
  destruct (kex s) as [k|]; [cbn; by rewrite H|done].
Qed.

Lemma keeps_clear_kex_newkeys m : keeps queue_state (update_kex (set_kex_newkeys m None)).
Proof. apply keeps_update_kex. by destruct m. Qed.
Lemma keeps_update_newkeys m g : keeps queue_state (update_newkeys m g).
Proof. apply keeps_modify. by destruct m. Qed.
Lemma keeps_by_mode (g : kex_mode -> session -> session) m :
  (forall s, queue_state (g MODE_IN s) = queue_state s) ->
  (forall s, queue_state (g MODE_OUT s) = queue_state s) -> keeps queue_state (modify (g m)).
Proof. intros H1 H2. apply keeps_modify. by destruct m. Qed.
#[local] Hint Resolve keeps_clear_kex_newkeys keeps_update_newkeys : keeps.
#[local] Hint Extern 1 (keeps queue_state (modify (set_newkeys ?m ?k))) =>
  apply (keeps_by_mode (fun m => set_newkeys m k)); reflexivity : keeps.
#[local] Hint Extern 1 (keeps queue_state (modify (set_ctx ?m ?k))) =>
  apply (keeps_by_mode (fun m => set_ctx m k)); reflexivity : keeps.
#[local] Hint Extern 1 (keeps queue_state (modify (set_max_blocks ?m ?k))) =>
  apply (keeps_by_mode (fun m => set_max_blocks m k)); reflexivity : keeps.

Lemma keeps_buf_put q v : keeps queue_state (buf_put q v).
Proof. unfold buf_put. keeps. Qed.
#[local] Hint Resolve keeps_buf_put : keeps.

Lemma keeps_put_outgoing v : keeps queue_state (put_outgoing v).
Proof. unfold put_outgoing. keeps. Qed.
Lemma keeps_put_output v : keeps queue_state (put_output v).
Proof. unfold put_output. keeps. Qed.
Lemma keeps_put_compressed v : keeps queue_state (put_compressed v).
Proof. unfold put_compressed. keeps. Qed.
Lemma keeps_consume_outgoing n : keeps queue_state (consume_outgoing n).
Proof. unfold consume_outgoing. keeps. Qed.
#[local] Hint Resolve keeps_put_outgoing keeps_put_output keeps_put_compressed keeps_consume_outgoing : keeps.

Lemma keeps_start_compression m : keeps queue_state (start_compression m).
Proof. unfold start_compression, start_compression_out, start_compression_in. keeps. Qed.
Lemma keeps_init_compression : keeps queue_state ssh_packet_init_compression.
Proof. unfold ssh_packet_init_compression. keeps. Qed.
#[local] Hint Resolve keeps_start_compression keeps_init_compression : keeps.

Lemma keeps_set_newkeys m : keeps queue_state (ssh_set_newkeys m).
Proof.
  unfold ssh_set_newkeys. apply keeps_bind; [auto with keeps|intros _].
  apply keeps_bind; [apply keeps_modify; by destruct m|intros _]. keeps.
Qed.

Lemma keeps_enable_delayed_compress : keeps queue_state ssh_packet_enable_delayed_compress.
Proof. unfold ssh_packet_enable_delayed_compress, delayed_compress. keeps. Qed.

Lemma keeps_compress_outgoing : keeps queue_state compress_outgoing.
Proof. unfold compress_outgoing, compress_buffer, compress_round. keeps. Qed.

Lemma keeps_pad_outgoing u : keeps queue_state (pad_outgoing u).
Proof. unfold pad_outgoing. keeps. Qed.

Lemma keeps_seal_outgoing u : keeps queue_state (seal_outgoing u).
Proof. unfold seal_outgoing, mac_of. keeps. Qed.

Lemma keeps_count_outgoing u : keeps queue_state (count_outgoing u).
Proof. unfold count_outgoing. keeps. Qed.

Lemma keeps_need_rekeying n : keeps queue_state (ssh_packet_need_rekeying n).
Proof. unfold ssh_packet_need_rekeying. keeps. Qed.
#[local] Hint Resolve keeps_set_newkeys keeps_enable_delayed_compress : keeps.

Lemma keeps_after_packet type : keeps queue_state (after_packet type).
Proof. unfold after_packet. keeps. Qed.
End frames.

(** What sending leaves alone in the receiving half. *)
Section receiving.
Context {C : Crypto} {E : Env}.

Definition recv_state (s : session) : bytes * option (sshenc * sshmac) * Z * Z * bool :=
  (input s, option_map (fun k => (nk_enc k, nk_mac k)) (newkeys_in s), packlen s, packet_discard s, mux s).

Lemma recv_update_newkeys m g : (forall k, nk_enc (g k) = nk_enc k /\ nk_mac (g k) = nk_mac k) ->
  keeps recv_state (update_newkeys m g).
Proof.
  intros H. apply keeps_modify. intros s. destruct m; [|done]. unfold recv_state. cbn.
  destruct (newkeys_in s) as [k|]; [|done]. cbn. by destruct (H k) as [-> ->].
Qed.
Lemma recv_update_out g : keeps recv_state (update_newkeys MODE_OUT g).
Proof. by apply keeps_modify. Qed.
Lemma recv_update_kex g : keeps recv_state (update_kex g).
Proof. by apply keeps_modify. Qed.
#[local] Hint Resolve recv_update_out recv_update_kex : keeps.
#[local] Hint Extern 1 (keeps recv_state (update_newkeys _ (with_comp _))) =>
  apply recv_update_newkeys; done : keeps.

Lemma recv_buf_put q v : keeps recv_state (buf_put q v).
Proof. unfold buf_put. keeps. Qed.
#[local] Hint Resolve recv_buf_put : keeps.

Lemma recv_enable_delayed_compress : keeps recv_state ssh_packet_enable_delayed_compress.
Proof.
  unfold ssh_packet_enable_delayed_compress, delayed_compress, ssh_packet_init_compression,
    start_compression, start_compression_in, start_compression_out. keeps.
Qed.
Lemma recv_set_newkeys_out : keeps recv_state (ssh_set_newkeys MODE_OUT).
Proof.
  unfold ssh_set_newkeys, ssh_packet_init_compression, start_compression, start_compression_out. keeps.
Qed.
#[local] Hint Resolve recv_enable_delayed_compress recv_set_newkeys_out : keeps.

Lemma recv_put_outgoing v : keeps recv_state (put_outgoing v).
Proof. unfold put_outgoing. keeps. Qed.
#[local] Hint Resolve recv_put_outgoing : keeps.

Lemma recv_wrapped : keeps recv_state ssh_packet_send2_wrapped.
Proof.
  unfold ssh_packet_send2_wrapped, compress_outgoing, consume_outgoing, compress_buffer, compress_round,
    put_compressed, pad_outgoing, seal_outgoing, mac_of, put_output, count_outgoing, after_packet. keeps.
Qed.
Lemma recv_need_rekeying n : keeps recv_state (ssh_packet_need_rekeying n).
Proof. unfold ssh_packet_need_rekeying. keeps. Qed.
#[local] Hint Resolve recv_wrapped recv_need_rekeying : keeps.

Lemma recv_send_queue k l : keeps recv_state k -> keeps recv_state (send_queue k l).
Proof. intros Hk. induction l as [|p l IH]; cbn [send_queue]; keeps. Qed.
#[local] Hint Resolve recv_send_queue : keeps.

Lemma recv_send_with k : keeps recv_state k -> keeps recv_state (send_with k).
Proof. intros Hk. unfold send_with, ssh_packet_send_mux, send2_with, put_output. keeps. Qed.
#[local] Hint Resolve recv_send_with : keeps.

Lemma recv_start_rekex : keeps recv_state kex_start_rekex.
Proof.
  unfold kex_start_rekex, kex_start_rekex_with, kex_send_kexinit_with, sshpkt_start, sshpkt_putb. keeps.
Qed.
#[local] Hint Resolve recv_start_rekex : keeps.

Lemma recv_check_rekey : keeps recv_state ssh_packet_check_rekey.
Proof. unfold ssh_packet_check_rekey. keeps. Qed.

Lemma recv_disconnect text : keeps recv_state (sshpkt_disconnect text).
Proof.
  unfold sshpkt_disconnect, sshpkt_start, sshpkt_put_u32, sshpkt_put_cstring, sshpkt_put_string, sshpkt_send.
  keeps.
Qed.
End receiving.
