(* ===== verification/Kex.v ===== *)
(** Key exchange (kex.c) up to the exchange itself: name lists, proposals, the choice of
    algorithms, the derivation of keys, the messages KEXINIT, NEWKEYS and EXT_INFO, and the
    dispatch of messages to their handlers (dispatch.c).

    The exchange that a method runs between KEXINIT and NEWKEYS ends in [kex_derive_keys]
    with a hash and a shared secret, which are arguments here. *)

From S2P Require Import Prelude SshErr Wire SshQueue Compat Match KeyTypes.
From S2P Require Import ChaCha ChachaPoly Digest SshCipher Packet PacketSend PacketRead.

(** ** Key exchange methods *)

Record kexalg := mk_kexalg { ka_name : bytes; ka_type : Z; ka_ec_nid : Z; ka_hash_alg : Z }.

Definition KEX_MAX : Z := 10.

Definition kexalgs : list kexalg := [
  mk_kexalg (lit "diffie-hellman-group1-sha1") 0 0 SSH_DIGEST_SHA1;
  mk_kexalg (lit "diffie-hellman-group14-sha1") 1 0 SSH_DIGEST_SHA1;
  mk_kexalg (lit "diffie-hellman-group14-sha256") 2 0 SSH_DIGEST_SHA256;
  mk_kexalg (lit "diffie-hellman-group16-sha512") 3 0 SSH_DIGEST_SHA512;
  mk_kexalg (lit "diffie-hellman-group18-sha512") 4 0 SSH_DIGEST_SHA512;
  mk_kexalg (lit "diffie-hellman-group-exchange-sha1") 5 0 SSH_DIGEST_SHA1;
  mk_kexalg (lit "diffie-hellman-group-exchange-sha256") 6 0 SSH_DIGEST_SHA256;
  mk_kexalg (lit "ecdh-sha2-nistp256") 7 NID_X9_62_prime256v1 SSH_DIGEST_SHA256;
  mk_kexalg (lit "ecdh-sha2-nistp384") 7 NID_secp384r1 SSH_DIGEST_SHA384;
  mk_kexalg (lit "ecdh-sha2-nistp521") 7 NID_secp521r1 SSH_DIGEST_SHA512;
  mk_kexalg (lit "curve25519-sha256") 8 0 SSH_DIGEST_SHA256;
  mk_kexalg (lit "curve25519-sha256@libssh.org") 8 0 SSH_DIGEST_SHA256;
  mk_kexalg (lit "sntrup761x25519-sha512@openssh.com") 9 0 SSH_DIGEST_SHA512
].

Definition kex_alg_list (sep : byte) : option bytes :=
  fold_left (fun ret k =>
    Some (match ret with None => ka_name k | Some r => r ++ [sep] ++ ka_name k end)) kexalgs None.

Definition kex_alg_by_name (name : bytes) : option kexalg :=
  List.find (fun k => bool_decide (ka_name k = name)) kexalgs.

Definition kex_names_valid (strdup_ok : bool) (names : option bytes) : bool :=
  match names with
  | None => false
  | Some names =>
    if is_nil names then false
    else if negb strdup_ok then false
    else names_valid (S (S (length names)))
           (fun p => bool_decide (kex_alg_by_name p <> None)) (Some names)
  end.

(** ** Name lists *)

(** The items of [b] that are not in [ret] yet, appended within [len] bytes. *)
Fixpoint names_cat_loop (fuel : nat) (cp : option bytes) (ret : bytes) (len : Z) : option bytes :=
  match fuel with
  | O => Some ret
  | S fuel =>
    match strsep cp SEP with
    | None => Some ret
    | Some (p, cp) =>
      if is_nil p then Some ret
      else
      match fst (match_list ret p) with
      | Some _ => names_cat_loop fuel cp ret len
      | None =>
        let '(ret, n) := strlcat_str ret SEP len in
        if n >=? len then None
        else
        let '(ret, n) := strlcat_str ret p len in
        if n >=? len then None else names_cat_loop fuel cp ret len
      end
    end
  end.

(** [None]: out of memory, or too long. *)
Definition kex_names_cat (alloc_ok : bool) (a b : bytes) : option bytes :=
  if negb alloc_ok then None
  else if is_nil a then Some b
  else if is_nil b then Some a
  else if zlen b >? 1024 * 1024 then None
  else
    let len := zlen a + zlen b + 2 in
    names_cat_loop (S (S (length b))) (Some b) (fst (strlcpy_str a len)) len.

Definition starts_with (c : byte) (s : bytes) : bool :=
  match s with x :: _ => byte_eqb x c | [] => false end.

(** The patterns of the list, applied to [all]. *)
Fixpoint assemble_loop (fuel : nat) (alloc_ok : bool) (patterns : option bytes) (all ret : bytes)
    : res bytes :=
  match fuel with
  | O => Ok ret
  | S fuel =>
    match strsep patterns SEP with
    | None => Ok ret
    | Some (cp, patterns) =>
      if starts_with BANG cp then Err SSH_ERR_INVALID_ARGUMENT
      else
      match match_filter_allowlist alloc_ok all cp with
      | None => Err SSH_ERR_ALLOC_FAIL
      | Some matching =>
        match kex_names_cat alloc_ok ret matching with
        | None => Err SSH_ERR_ALLOC_FAIL
        | Some ret => assemble_loop fuel alloc_ok patterns all ret
        end
      end
    end
  end.

(** The list of names, then the part of the function after the test of its first
    character. *)
Definition assemble_names (alloc_ok : bool) (list all : bytes) : res bytes :=
  if negb alloc_ok then Err SSH_ERR_ALLOC_FAIL
  else
  match assemble_loop (S (S (length list))) alloc_ok (Some list) all [] with
  | Err e => Err e
  | Ok ret => if is_nil ret then Err SSH_ERR_INVALID_ARGUMENT else Ok ret
  end.

(** The new value of [*listp]: none after an error, but for null arguments, which change
    nothing. *)
Definition kex_assemble_names (alloc_ok : bool) (listp def all : option bytes) : res bytes :=
  match def, all with
  | Some def, Some all =>
    let alloc r := match r with Some l => Ok l | None => Err SSH_ERR_ALLOC_FAIL end in
    match listp with
    | None | Some [] => alloc (if alloc_ok then Some def else None)
    | Some (c :: names) =>
      if byte_eqb c (chr 43) then      (* + *)
        match kex_names_cat alloc_ok def names with
        | None => Err SSH_ERR_ALLOC_FAIL
        | Some list => assemble_names alloc_ok list all
        end
      else if byte_eqb c (chr 45) then (* - *)
        alloc (match_filter_denylist alloc_ok def names)
      else if byte_eqb c (chr 94) then (* ^ *)
        match kex_names_cat alloc_ok names def with
        | None => Err SSH_ERR_ALLOC_FAIL
        | Some list => assemble_names alloc_ok list all
        end
      else assemble_names alloc_ok (c :: names) all
    end
  | _, _ => Err SSH_ERR_INVALID_ARGUMENT
  end.

(** ** Choices *)

Definition PROPOSAL_MAX : nat := 10.
Definition PROPOSAL_KEX_ALGS : nat := 0.
Definition PROPOSAL_SERVER_HOST_KEY_ALGS : nat := 1.
Definition PROPOSAL_ENC_ALGS_CTOS : nat := 2.
Definition PROPOSAL_ENC_ALGS_STOC : nat := 3.
Definition PROPOSAL_MAC_ALGS_CTOS : nat := 4.
Definition PROPOSAL_MAC_ALGS_STOC : nat := 5.
Definition PROPOSAL_COMP_ALGS_CTOS : nat := 6.
Definition PROPOSAL_COMP_ALGS_STOC : nat := 7.

Definition proposal (i : nat) (l : list bytes) : bytes := nth i l [].

Definition choose_enc (client server : bytes) : res sshenc :=
  match fst (match_list client server) with
  | None => Err SSH_ERR_NO_CIPHER_ALG_MATCH
  | Some name =>
    match cipher_by_name name with
    | None => Err SSH_ERR_INTERNAL_ERROR
    | Some c => Ok (mk_enc name c 0 (cipher_keylen c) (cipher_ivlen c) (cipher_blocksize c) [] None)
    end
  end.

Definition blank_mac : sshmac := mk_mac false 0 None 0 0 false 0 None.

Definition choose_mac {C : Crypto} (alloc_ok : bool) (mac : sshmac) (client server : bytes)
    : res (sshmac * bytes) :=
  match fst (match_list client server) with
  | None => Err SSH_ERR_NO_MAC_ALG_MATCH
  | Some name =>
    match mac_setup alloc_ok mac name with
    | Err _ => Err SSH_ERR_INTERNAL_ERROR
    | Ok m => Ok (mk_mac false (mac_len m) None (mac_key_len m) (mac_type m) (mac_etm m) (hmac_alg m)
                    (mac_ctx_key m), name)
    end
  end.

Definition choose_comp (client server : bytes) : res sshcomp :=
  match fst (match_list client server) with
  | None => Err SSH_ERR_NO_COMPRESS_ALG_MATCH
  | Some name =>
    if bool_decide (name = lit "zlib@openssh.com") then Ok (mk_comp COMP_DELAYED false name)
    else if bool_decide (name = lit "zlib") then Ok (mk_comp COMP_ZLIB false name)
    else if bool_decide (name = lit "none") then Ok (mk_comp COMP_NONE false name)
    else Err SSH_ERR_INTERNAL_ERROR
  end.

(** The name is set even when there is no such method. *)
Definition choose_kex (client server : bytes) (k : kex_state) : kex_state * option ssh_error :=
  match fst (match_list client server) with
  | None => (set_kex_name None k, Some SSH_ERR_NO_KEX_ALG_MATCH)
  | Some name =>
    let k := set_kex_name (Some name) k in
    match kex_alg_by_name name with
    | None => (k, Some SSH_ERR_INTERNAL_ERROR)
    | Some a => (set_ec_nid (ka_ec_nid a) (set_hash_alg (ka_hash_alg a) (set_kex_type (ka_type a) k)), None)
    end
  end.

Definition choose_hostkeyalg (client server : bytes) (k : kex_state) : kex_state * option ssh_error :=
  match fst (match_list client server) with
  | None => (set_hostkey_alg None k, Some SSH_ERR_NO_HOSTKEY_ALG_MATCH)
  | Some name =>
    let k := set_hostkey_type (sshkey_type_from_name name) (set_hostkey_alg (Some name) k) in
    if sshkey_type_from_name name =? KEY_UNSPEC then (k, Some SSH_ERR_INTERNAL_ERROR)
    else (set_hostkey_nid (sshkey_ecdsa_nid_from_name name) k, None)
  end.

(** Up to the first comma. *)
Definition first_item (s : bytes) : bytes :=
  match strchr COMMA s with Some (before, _) => before | None => s end.

Definition proposals_match (my peer : list bytes) : bool :=
  let same i := bool_decide (first_item (proposal i my) = first_item (proposal i peer)) in
  same PROPOSAL_KEX_ALGS && same PROPOSAL_SERVER_HOST_KEY_ALGS.

Section code.
Context {C : Crypto} {E : Env}.

(** ** Proposals *)

Fixpoint put_each (q : bytes) (l : list bytes) : M bytes :=
  match l with
  | [] => mret q
  | v :: l => let! q := buf_put q v in put_each q l
  end.

Fixpoint put_cstrings (q : bytes) (l : list bytes) : M bytes :=
  match l with
  | [] => mret q
  | v :: l =>
    if zlen v >? SSHBUF_SIZE_MAX - 4 then mfail SSH_ERR_NO_BUFFER_SPACE
    else let! q := buf_put q (wr_string v) in put_cstrings q l
  end.

(** The cookie, the lists, [first_kex_packet_follows] and the reserved word. *)
Definition kex_prop2buf (proposal : list bytes) : M bytes :=
  let! q := put_each [] (replicate (Z.to_nat KEX_COOKIE_LEN) [x00]) in
  let! q := put_cstrings q proposal in
  let! q := put_each q [[x00]] in
  buf_put q (POKE_U32 0).

(** The C string in a buffer that may end in a NUL. *)
Definition c_str (v : bytes) : bytes :=
  match memchr0 v with Some n => take (Z.to_nat n) v | None => v end.

Fixpoint get_cstrings (n : nat) (q : bytes) : M (list bytes * bytes) :=
  match n with
  | O => mret ([], q)
  | S n =>
    let! r := lift (rd_cstring q) in
    let! ok := env request_memory in
    if negb ok then mfail SSH_ERR_ALLOC_FAIL
    else
    let! rest := get_cstrings n (snd r) in
    mret (c_str (fst r) :: fst rest, snd rest)
  end.

(** The lists, and the value of [first_kex_follows]. *)
Definition kex_buf2prop (raw : bytes) : M (list bytes * Z) :=
  let! ok := env request_memory in
  if negb ok then mfail SSH_ERR_ALLOC_FAIL
  else
  let! ok := env request_memory in
  if negb ok then mfail SSH_ERR_ALLOC_FAIL
  else
  let! q := lift (buf_consume raw KEX_COOKIE_LEN) in
  let! p := get_cstrings PROPOSAL_MAX q in
  let! v := lift (rd_u8 (snd p)) in
  let! _reserved := lift (rd_u32 (snd v)) in
  mret (fst p, fst v).

(** ** The choice of algorithms *)

Definition blank_newkeys : newkeys :=
  mk_newkeys (mk_enc [] none 0 0 0 0 [] None) blank_mac [] (mk_comp 0 false []).
Definition with_enc (x : sshenc) (k : newkeys) : newkeys :=
  mk_newkeys x (nk_mac k) (nk_mac_name k) (nk_comp k).
Definition with_mac_name (x : sshmac * bytes) (k : newkeys) : newkeys :=
  mk_newkeys (nk_enc k) (fst x) (snd x) (nk_comp k).
Definition update_kex_newkeys (m : kex_mode) (f : newkeys -> newkeys) : M unit :=
  update_kex (fun k => set_kex_newkeys m (option_map f (get_kex_newkeys m k)) k).

(** A choice that fails is told to the user with what the peer proposed. *)
Definition chosen {A} (peer : list bytes) (i : nat) (r : res A) : M A :=
  match r with
  | Ok a => mret a
  | Err e => update_kex (set_failed_choice (Some (proposal i peer))) ;; mfail e
  end.

(** The direction from client to server. *)
Definition is_ctos (server : bool) (m : kex_mode) : bool :=
  match m with MODE_OUT => negb server | MODE_IN => server end.

Definition choose_newkeys (cprop sprop peer : list bytes) (server : bool) (m : kex_mode) : M unit :=
  let! ok := env request_memory in
  if negb ok then mfail SSH_ERR_ALLOC_FAIL
  else
  update_kex (set_kex_newkeys m (Some blank_newkeys)) ;;
  let ctos := is_ctos server m in
  let nenc := if ctos then PROPOSAL_ENC_ALGS_CTOS else PROPOSAL_ENC_ALGS_STOC in
  let nmac := if ctos then PROPOSAL_MAC_ALGS_CTOS else PROPOSAL_MAC_ALGS_STOC in
  let ncomp := if ctos then PROPOSAL_COMP_ALGS_CTOS else PROPOSAL_COMP_ALGS_STOC in
  let! enc := chosen peer nenc (choose_enc (proposal nenc cprop) (proposal nenc sprop)) in
  update_kex_newkeys m (with_enc enc) ;;
  (if cipher_authlen (enc_cipher enc) =? 0 then
     let! ok := env request_memory in
     let! mac := chosen peer nmac (choose_mac ok blank_mac (proposal nmac cprop) (proposal nmac sprop)) in
     update_kex_newkeys m (with_mac_name mac)
   else mret tt) ;;
  let! comp := chosen peer ncomp (choose_comp (proposal ncomp cprop) (proposal ncomp sprop)) in
  update_kex_newkeys m (with_comp comp).

Definition max4 (need a b c d : Z) : Z := Z.max (Z.max (Z.max (Z.max need a) b) c) d.

Definition needs (k : newkeys) (nd : Z * Z) : Z * Z :=
  let e := nk_enc k in
  (max4 (fst nd) (enc_key_len e) (enc_block_size e) (enc_iv_len e) (mac_key_len (nk_mac k)),
   max4 (snd nd) (cipher_seclen (enc_cipher e)) (enc_block_size e) (enc_iv_len e)
     (mac_key_len (nk_mac k))).

(** One of the two choices that are made in the exchange's own state. *)
Definition chosen_in_kex (peer : list bytes) (i : nat)
    (choose : kex_state -> kex_state * option ssh_error) : M unit :=
  let! k := deref kex in
  let '(k, e) := choose k in
  modify (set_kex (Some k)) ;;
  match e with
  | None => mret tt
  | Some e => chosen peer i (Err e)
  end.

Definition kex_choose_conf : M unit :=
  let! k := deref kex in
  let! my := kex_buf2prop (kex_my k) in
  let! peer := kex_buf2prop (kex_peer k) in
  let first_kex_follows := snd peer in
  let my := fst my in
  let peer := fst peer in
  let server := kex_server k in
  let cprop := if server then peer else my in
  let sprop := if server then my else peer in
  (if server && has (kex_flags k) KEX_INITIAL then
     update_kex (set_ext_info_c
       (bool_decide (is_Some (fst (match_list (lit "ext-info-c") (proposal PROPOSAL_KEX_ALGS peer))))))
   else mret tt) ;;
  chosen_in_kex peer PROPOSAL_KEX_ALGS
    (choose_kex (proposal PROPOSAL_KEX_ALGS cprop) (proposal PROPOSAL_KEX_ALGS sprop)) ;;
  chosen_in_kex peer PROPOSAL_SERVER_HOST_KEY_ALGS
    (choose_hostkeyalg (proposal PROPOSAL_SERVER_HOST_KEY_ALGS cprop)
       (proposal PROPOSAL_SERVER_HOST_KEY_ALGS sprop)) ;;
  choose_newkeys cprop sprop peer server MODE_IN ;;
  choose_newkeys cprop sprop peer server MODE_OUT ;;
  let! kin := deref (fun s => match kex s with Some k => kex_newkeys_in k | None => None end) in
  let! kout := deref (fun s => match kex s with Some k => kex_newkeys_out k | None => None end) in
  let nd := needs kout (needs kin (0, 0)) in
  update_kex (fun k => set_dh_need (snd nd) (set_we_need (fst nd) k)) ;;
  if negb (first_kex_follows =? 0) && negb (proposals_match my peer) then
    modify (set_dispatch_skip_packets 1)
  else mret tt.

(** ** Keys *)

(** The digest of some pieces, as the three calls on [hashctx] compute it. *)
Definition digest_pieces (alloc_ok : bool) (alg : Z) (pieces : list bytes) : option bytes :=
  match ssh_digest_start alloc_ok alg with
  | None => None
  | Some ctx =>
    match ssh_digest_updates ctx pieces with
    | Err _ => None
    | Ok ctx => match ssh_digest_final ctx (ssh_digest_bytes alg) with Ok d => Some d | Err _ => None end
    end
  end.

(** [K1 || K2 || ...] until there are [need] bytes; every round adds [mdsz > 0]. *)
Fixpoint expand_key (fuel : nat) (alg need : Z) (secret hash have : bytes) : M bytes :=
  match fuel with
  | O => mret have
  | S fuel =>
    if need >? zlen have then
      let! ok := env request_memory in
      match digest_pieces ok alg [secret; hash; have] with
      | Some d => expand_key fuel alg need secret hash (have ++ d)
      | None => mfail SSH_ERR_LIBCRYPTO_ERROR
      end
    else mret have
  end.

Definition derive_key (alg : Z) (session_id : bytes) (id need : Z) (hash secret : bytes) : M bytes :=
  if ssh_digest_bytes alg =? 0 then mfail SSH_ERR_INVALID_ARGUMENT
  else
  let! ok := env request_memory in
  if negb ok then mfail SSH_ERR_ALLOC_FAIL
  else
  let! ok := env request_memory in
  match digest_pieces ok alg [secret; hash; [byte_of_Z id]; session_id] with
  | None => mfail SSH_ERR_LIBCRYPTO_ERROR
  | Some d => expand_key (Z.to_nat need) alg need secret hash d
  end.

Fixpoint derive_keys_loop (n : nat) (i alg : Z) (session_id : bytes) (need : Z) (hash secret : bytes)
    : M (list bytes) :=
  match n with
  | O => mret []
  | S n =>
    let! k := derive_key alg session_id (65 + i) need hash secret in
    let! ks := derive_keys_loop n (i + 1) alg session_id need hash secret in
    mret (k :: ks)
  end.

Definition set_keys (iv key mac : bytes) (k : newkeys) : newkeys :=
  let e := nk_enc k in
  let m := nk_mac k in
  mk_newkeys (mk_enc (enc_name e) (enc_cipher e) (enc_enabled e) (enc_key_len e) (enc_iv_len e)
                (enc_block_size e) key (Some iv))
    (mk_mac (mac_enabled m) (mac_len m) (Some mac) (mac_key_len m) (mac_type m) (mac_etm m)
       (hmac_alg m) (mac_ctx_key m))
    (nk_mac_name k) (nk_comp k).

Definition NKEYS : nat := 6.

Definition give_keys (keys : list bytes) (server : bool) (m : kex_mode) : M unit :=
  let ctos := is_ctos server m in
  let! _nk := deref (fun s => match kex s with Some k => get_kex_newkeys m k | None => None end) in
  update_kex_newkeys m (set_keys (nth (if ctos then 0 else 1)%nat keys [])
                          (nth (if ctos then 2 else 3)%nat keys [])
                          (nth (if ctos then 4 else 5)%nat keys [])).

Definition kex_derive_keys (hash secret : bytes) : M unit :=
  let! k := deref kex in
  (if has (kex_flags k) KEX_INITIAL then
     if negb (zlen (session_id k) =? 0) then mfail SSH_ERR_INTERNAL_ERROR
     else let! sid := buf_put (session_id k) hash in update_kex (set_session_id sid)
   else if zlen (session_id k) =? 0 then mfail SSH_ERR_INTERNAL_ERROR else mret tt) ;;
  let! k := deref kex in
  let! keys := derive_keys_loop NKEYS 0 (hash_alg k) (session_id k) (we_need k) hash secret in
  give_keys keys (kex_server k) MODE_IN ;;
  give_keys keys (kex_server k) MODE_OUT.

(** ** The dispatch table (dispatch.c) *)

Definition ssh_dispatch_set (type : Z) (fn : option handler) : M unit :=
  modify (fun s => set_dispatch
            (match fn with Some h => <[type := h]> (dispatch s) | None => delete type (dispatch s) end) s).

Definition ssh_dispatch_range (from to : Z) (fn : handler) : M unit :=
  modify (fun s => set_dispatch
            (fold_left (fun d i => if Z.of_nat i >=? DISPATCH_MAX then d else <[Z.of_nat i := fn]> d)
               (seq (Z.to_nat from) (Z.to_nat (to - from + 1))) (dispatch s)) s).

(** ** Taking keys into use (kex.c) *)

Definition kex_reset_dispatch : M unit :=
  ssh_dispatch_range SSH2_MSG_TRANSPORT_MIN SSH2_MSG_TRANSPORT_MAX kex_protocol_error_fn.

Definition kex_protocol_error (seq : Z) : M unit :=
  sshpkt_start SSH2_MSG_UNIMPLEMENTED ;; sshpkt_put_u32 seq ;; sshpkt_send.

(** [algs]: what [sshkey_alg_list] answers. *)
Definition kex_send_ext_info (algs : option bytes) : M unit :=
  match algs with
  | None => mfail SSH_ERR_ALLOC_FAIL
  | Some algs =>
    sshpkt_start SSH2_MSG_EXT_INFO ;;
    sshpkt_put_u32 1 ;;
    sshpkt_put_cstring (lit "server-sig-algs") ;;
    sshpkt_put_cstring algs ;;
    sshpkt_send
  end.

Definition kex_send_newkeys (algs : option bytes) : M unit :=
  kex_reset_dispatch ;;
  sshpkt_start SSH2_MSG_NEWKEYS ;;
  sshpkt_send ;;
  ssh_dispatch_set SSH2_MSG_NEWKEYS (Some kex_input_newkeys_fn) ;;
  let! k := deref kex in
  if ext_info_c k && has (kex_flags k) KEX_INITIAL then kex_send_ext_info algs else mret tt.

Definition kex_input_newkeys : M unit :=
  ssh_dispatch_set SSH2_MSG_NEWKEYS (Some kex_protocol_error_fn) ;;
  ssh_dispatch_set SSH2_MSG_KEXINIT (Some kex_input_kexinit_fn) ;;
  sshpkt_get_end ;;
  ssh_set_newkeys MODE_IN ;;
  let! k := deref kex in
  update_kex (set_kex_done true) ;;
  update_kex (fun k => set_kex_flags (Z.land (kex_flags k) (Z.lnot KEX_INITIAL)) k) ;;
  update_kex (set_kex_peer []) ;;
  update_kex (fun k => set_kex_flags (Z.land (kex_flags k) (Z.lnot KEX_INIT_SENT)) k) ;;
  update_kex (set_kex_name None).

(** ** The messages that surround an exchange *)

Definition kex_ready (proposal : list bytes) : M unit :=
  let! _k := deref kex in
  let! my := kex_prop2buf proposal in
  update_kex (set_kex_my my) ;;
  update_kex (set_kex_flags KEX_INITIAL) ;;
  kex_reset_dispatch ;;
  ssh_dispatch_set SSH2_MSG_KEXINIT (Some kex_input_kexinit_fn).

Definition kex_setup (proposal : list bytes) : M unit :=
  kex_ready proposal ;;
  let! r := mtry kex_send_kexinit in
  match r with
  | Ok _ => mret tt
  | Err e => modify (set_kex None) ;; mfail e
  end.

Fixpoint repeat_m (n : nat) (m : M unit) : M unit :=
  match n with O => mret tt | S n => m ;; repeat_m n m end.

(** [methods]: the functions of [kex->kex], which run the exchange. *)
Definition kex_input_kexinit (methods : Z -> option (M unit)) : M unit :=
  let! k := gets kex in
  match k with
  | None => mfail SSH_ERR_INTERNAL_ERROR
  | Some k =>
    ssh_dispatch_set SSH2_MSG_KEXINIT None ;;
    let! ptr := gets incoming_packet in
    let! peer := buf_put (kex_peer k) ptr in
    update_kex (set_kex_peer peer) ;;
    repeat_m (Z.to_nat KEX_COOKIE_LEN) (let! _b := sshpkt_get_u8 in mret tt) ;;
    repeat_m PROPOSAL_MAX sshpkt_skip_string ;;
    (let! _follows := sshpkt_get_u8 in mret tt) ;;
    (let! _reserved := sshpkt_get_u32 in mret tt) ;;
    sshpkt_get_end ;;
    (if negb (has (kex_flags k) KEX_INIT_SENT) then kex_send_kexinit else mret tt) ;;
    kex_choose_conf ;;
    let! k := deref kex in
    match (if kex_type k <? KEX_MAX then methods (kex_type k) else None) with
    | Some f => f
    | None => mfail SSH_ERR_INTERNAL_ERROR
    end
  end.

(** One name and its value; [server-sig-algs] is kept. *)
Fixpoint ext_info_loop (n : nat) : M unit :=
  match n with
  | O => sshpkt_get_end
  | S n =>
    let! name := sshpkt_get_cstring in
    let! val := sshpkt_get_string in
    (if bool_decide (c_str name = lit "server-sig-algs") then
       match memchr0 val with
       | Some _ => mfail SSH_ERR_INVALID_FORMAT
       | None => let! _k := deref kex in update_kex (set_server_sig_algs (Some val))
       end
     else mret tt) ;;
    ext_info_loop n
  end.

(** Every entry takes at least eight bytes, so that the packet bounds the rounds. *)
Definition kex_input_ext_info : M unit :=
  ssh_dispatch_set SSH2_MSG_EXT_INFO (Some kex_protocol_error_fn) ;;
  let! ninfo := sshpkt_get_u32 in
  let! q := gets incoming_packet in
  ext_info_loop (if zlen q <? ninfo then S (length q) else Z.to_nat ninfo).

(** ** Dispatch *)

Definition dispatch_protocol_error (seq : Z) : M unit :=
  let! r := mtry (kex_protocol_error seq ;; ssh_packet_write_wait) in
  match r with Ok _ => mret tt | Err e => mfail e end.    (* sshpkt_fatal: the process ends *)

Definition ssh_dispatch_init (dflt : option handler) : M unit :=
  match dflt with
  | Some h => ssh_dispatch_range 0 (DISPATCH_MAX - 1) h
  | None => modify (set_dispatch ∅)
  end.

Section run.
Context (methods : Z -> option (M unit)) (other : Z -> Z -> Z -> M unit).

Definition call_handler (h : handler) (type seq : Z) : M unit :=
  match h with
  | kex_protocol_error_fn => kex_protocol_error seq
  | kex_input_kexinit_fn => kex_input_kexinit methods
  | kex_input_newkeys_fn => kex_input_newkeys
  | kex_input_ext_info_fn => kex_input_ext_info
  | dispatch_protocol_error_fn => dispatch_protocol_error seq
  | dispatch_protocol_ignore_fn => mret tt
  | other_fn id => other id type seq
  end.

(** [DISPATCH_BLOCK] is [block]; [done] is what the pointer shows. *)
Fixpoint dispatch_loop (fuel : nat) (block : bool) (done : session -> bool) : M unit :=
  match fuel with
  | O => mwait
  | S fuel =>
    let! p := (if block then ssh_packet_read_seqnr else ssh_packet_read_poll_seqnr) in
    let type := fst p in
    if negb block && (type =? SSH_MSG_NONE) then mret tt
    else
    let! d := gets dispatch in
    match (if (type >? 0) && (type <? DISPATCH_MAX) then d !! type else None) with
    | Some h =>
      let! skip := gets dispatch_skip_packets in
      if negb (skip =? 0) then
        modify (set_dispatch_skip_packets (skip - 1)) ;; dispatch_loop fuel block done
      else
      call_handler h type (default 0 (snd p)) ;;
      let! stop := gets done in
      if (stop : bool) then mret tt else dispatch_loop fuel block done
    | None =>
      sshpkt_disconnect (lit "protocol error: rcvd type " ++ fmt_d type) ;;
      mfail SSH_ERR_DISCONNECTED
    end
  end.

Definition ssh_dispatch_run : bool -> (session -> bool) -> M unit := dispatch_loop patience.
End run.
End code.
