(* ===== verification/PacketQueue.v ===== *)
(** The queue of packet.c: during a key exchange nothing but key exchange messages is sent,
    and what waits is sent afterwards, in order and once.

    The steps are the functions that send: [sshpkt_send] of any packet, the checks and the
    handlers that start a key exchange or end it.  Whatever else happens in a session does
    not touch the state of the queue ([keeps queue_state], PacketFrame). *)

From S2P Require Import Prelude SshErr Wire SshQueue Compat.
From S2P Require Import ChaCha ChachaPoly Digest SshCipher Packet PacketSend PacketRead PacketFrame Plain Kex.

Section queue.
Context {C : Crypto} {E : Env}.

(** ** The steps *)

(** [submitted] are the packets handed to [sshpkt_send] that are not key exchange
    messages. *)
Definition not_kex (l : list packet) : list packet :=
  List.filter (fun p => negb (ssh_packet_type_is_kex (p_type p))) l.

Inductive qstep : session -> list packet -> session -> Prop :=
| q_send p s s' : sshpkt_send (set_outgoing_packet p s) = Ret tt s' ->
    qstep s [mk_packet (at_ p 5) p] s'
| q_check_rekey s s' : ssh_packet_check_rekey s = Ret tt s' -> qstep s [] s'
| q_kexinit s s' : kex_send_kexinit s = Ret tt s' -> qstep s [] s'
| q_ready proposal s s' : kex_ready proposal s = Ret tt s' -> qstep s [] s'
| q_input_newkeys s s' : kex_input_newkeys s = Ret tt s' -> qstep s [] s'
| q_other s s' : queue_state s' = queue_state s -> qstep s [] s'.

Inductive qsteps : session -> list packet -> session -> Prop :=
| qs_nil s : qsteps s [] s
| qs_cons s l s' l' s'' : qsteps s l s' -> qstep s' l' s'' -> qsteps s (l ++ l') s''.

(** Between KEXINIT and NEWKEYS: [None] when a packet that is not a key exchange message
    was sent there. *)
Definition sent_step (closed : option bool) (p : packet) : option bool :=
  match closed with
  | None => None
  | Some c =>
    if p_type p =? SSH2_MSG_KEXINIT then Some true
    else if p_type p =? SSH2_MSG_NEWKEYS then Some false
    else if ssh_packet_type_is_kex (p_type p) then Some c
    else if c then None else Some false
  end.
(** A connection begins as if a KEXINIT had been sent. *)
Definition exchange_open (l : list packet) : option bool := fold_left sent_step l (Some true).

(** ** The invariant *)

Record queue_inv (submitted : list packet) (s : session) : Prop := {
  q_mux : mux s = false;
  q_fifo : not_kex (sent s) ++ outgoing s = not_kex submitted;
  q_excl : exchange_open (sent s) = Some (rekeying s);
  q_wait : outgoing s <> [] -> rekeying s = true;
  q_kind : Forall (fun p => ssh_packet_type_is_kex (p_type p) = false /\ p_type p = at_ (p_payload p) 5)
             (outgoing s);
  q_flag : forall k, kex s = Some k -> has (kex_flags k) KEX_INIT_SENT = true -> kex_done k = false
}.

Lemma queue_inv_same submitted s s' :
  queue_state s' = queue_state s -> queue_inv submitted s -> queue_inv submitted s'.
Proof.
  unfold queue_state. intros [= Ho Hs Hr Hk Hm] [H1 H2 H3 H4 H5 H6]. split; try congruence.
  - by rewrite Ho, Hr.
  - intros k' E'. rewrite E' in Hk. cbn in Hk. destruct (kex s) as [k|]; [|done].
    injection Hk as Hd Hf. rewrite Hd, Hf. by apply H6.
Qed.

End queue.

Section proofs.
Context {C : Crypto} {E : Env}.

(** ** A packet sent *)

Lemma wrapped_ret s s' : ssh_packet_send2_wrapped s = Ret tt s' ->
  let p := outgoing_packet s in
  queue_state s' = queue_state (set_sent (sent s ++ [mk_packet (at_ p 5) p]) s).
Proof.
  intros H. unfold ssh_packet_send2_wrapped in H. run H.
  inv_bind H. inv_bind H. inv_bind H. run H. inv_bind H.
  apply (keeps_ret_eq queue_state) in H0, H1, H2, H3, H;
    [|apply keeps_after_packet|apply keeps_count_outgoing|apply keeps_seal_outgoing
     |apply keeps_pad_outgoing|case_match; [apply keeps_compress_outgoing|apply keeps_ret]].
  rewrite H, H3. unfold queue_state in *. cbn in *. congruence.
Qed.

Lemma need_rekeying_true n s s' : ssh_packet_need_rekeying n s = Ret true s' ->
  ssh_packet_is_rekeying s = false.
Proof.
  unfold ssh_packet_need_rekeying. intros H. run H. cbv beta delta [id] in H.
  destruct (after_authentication s); [|done]. cbn [negb] in H.
  by destruct (ssh_packet_is_rekeying s).
Qed.

(** The fields of [queue_state], with some replaced. *)
Definition queue_after (o : list packet) (new : list packet) (r : bool) (s s' : session) : Prop :=
  queue_state s' = queue_state (set_outgoing o (set_sent (sent s ++ new) (set_rekeying r s))).

Lemma queue_after_same o new r s s1 s2 s3 : queue_after o new r s1 s2 ->
  queue_state s1 = queue_state s -> queue_state s3 = queue_state s2 -> queue_after o new r s s3.
Proof.
  unfold queue_after, queue_state. cbn. intros H1 [= H2 H3 H4 H5 H6] H7. congruence.
Qed.

(** What [send2_with] does, by the type of the packet. *)
Lemma send2_cases k s s' : send2_with k s = Ret tt s' ->
  let p := outgoing_packet s in
  let t := at_ p 5 in
  if ssh_packet_type_is_kex t then
    if t =? SSH2_MSG_NEWKEYS then
      exists s1, queue_after (outgoing s) [mk_packet t p] false s s1 /\ send_queue k (outgoing s) s1 = Ret tt s'
    else queue_after (outgoing s) [mk_packet t p] (rekeying s || (t =? SSH2_MSG_KEXINIT)) s s'
  else
    (rekeying s = false /\ queue_after (outgoing s) [mk_packet t p] false s s') \/
    (exists s1, queue_after (outgoing s ++ [mk_packet t p]) [] (rekeying s) s s1 /\
       ((rekeying s = true /\ s' = s1) \/
        (ssh_packet_is_rekeying s = false /\ k s1 = Ret tt s'))).
Proof.
  intros H p t. unfold send2_with in H. run H. fold p t in H.
  destruct (zlen p <? 6); [done|]. inv_bind H. rename x into need.
  assert (Q0 : queue_state s0 = queue_state s).
  { revert H0. apply keeps_ret_eq. destruct (negb _); [apply keeps_need_rekeying|apply keeps_ret]. }
  assert (P0 : ssh_packet_type_is_kex t = true -> s0 = s).
  { intros Hk. rewrite Hk in H0. cbn in H0. by injection H0. }
  assert (N0 : need = true -> ssh_packet_is_rekeying s = false).
  { intros ->. destruct (negb (ssh_packet_type_is_kex t)); [|done]. by apply need_rekeying_true in H0. }
  run H. pose proof Q0 as [= Qo Qs Qr Qk Qm].
  destruct (ssh_packet_type_is_kex t) eqn:Hk; cbn [negb] in *.
  - rewrite andb_false_r in H. specialize (P0 eq_refl) as ->. clear H0 N0 Q0 Qo Qs Qr Qk Qm.
    set (s1 := if t =? SSH2_MSG_KEXINIT then set_rekeying true s else s).
    assert (E1 : (if t =? SSH2_MSG_KEXINIT then modify (set_rekeying true) else mret tt) s = Ret tt s1).
    { unfold s1. by destruct (t =? SSH2_MSG_KEXINIT). }
    unfold mbind at 1 in H. rewrite E1 in H. inv_bind H.
    destruct x. apply wrapped_ret in H0.
    assert (Ep : outgoing_packet s1 = p) by (unfold s1; by destruct (t =? SSH2_MSG_KEXINIT)).
    rewrite Ep in H0. fold t in H0.
    assert (Q1 : queue_after (outgoing s) [mk_packet t p] (rekeying s || (t =? SSH2_MSG_KEXINIT)) s s0).
    { unfold queue_after. rewrite H0. unfold s1, queue_state.
      destruct (t =? SSH2_MSG_KEXINIT); cbn; [by rewrite orb_true_r|by rewrite orb_false_r]. }
    destruct (t =? SSH2_MSG_NEWKEYS) eqn:En.
    + run H. unfold mbind at 1, env in H. destruct (monotime (world (set_rekeying false s0))) as [now w].
      cbv beta iota in H. run H. eexists. split; [|].
      2: { revert H. unfold gets, mbind. cbn. intros H.
           assert (Eo : outgoing s0 = outgoing s) by (unfold queue_after, queue_state in Q1; cbn in Q1; congruence).
           rewrite Eo in H. exact H. }
      unfold queue_after, queue_state in *. cbn in *. congruence.
    + by injection H as <-.
  - rewrite andb_true_r in H. destruct (need || rekeying s0) eqn:Enb.
    + right. unfold mbind at 1, env in H. destruct (request_memory (world s0)) as [[|] w]; [|done].
      cbn [negb] in H. run H. unfold mbind at 1, env in H.
      match type of H with context [request_memory ?x] => destruct (request_memory x) as [[|] w'] end; [|done].
      cbn [negb] in H.
      match type of H with _ ?s1 = _ => exists s1 end. split.
      { unfold queue_after, queue_state in *. cbn in *. rewrite app_nil_r. congruence. }
      destruct need; [right; split; [by apply N0|done]|]. left. cbn in Enb.
      rewrite Qr in Enb. split; [done|by injection H].
    + left. apply orb_false_iff in Enb as [-> Enb]. rewrite Qr in Enb.
      assert (Hnk : (t =? SSH2_MSG_KEXINIT) = false).
      { destruct (Z.eqb_spec t SSH2_MSG_KEXINIT) as [Ht|]; [|done]. by rewrite Ht in Hk. }
      assert (Hnn : (t =? SSH2_MSG_NEWKEYS) = false).
      { destruct (Z.eqb_spec t SSH2_MSG_NEWKEYS) as [Ht|]; [|done]. by rewrite Ht in Hk. }
      rewrite Hnk, Hnn in H. run H. inv_bind H. injection H as <-. destruct x. apply wrapped_ret in H1.
      split; [done|]. assert (Ep : outgoing_packet s0 = p).
      { assert (K : keeps outgoing_packet (ssh_packet_need_rekeying (zlen p))).
        { unfold ssh_packet_need_rekeying. keeps. }
        apply (keeps_ret_eq _ _ _ _ _ K H0). }
      rewrite Ep in H1. fold t in H1.
      unfold queue_after. rewrite H1. unfold queue_state in *. cbn in *. congruence.
Qed.

(** ** Starting a key exchange *)

(** What KEXINIT changes. *)
Definition kexinit_sent (s s' : session) : Prop :=
  exists p k, kex s = Some k /\ p_type p = SSH2_MSG_KEXINIT /\
    queue_state s' = (outgoing s, sent s ++ [p], true,
                      Some (false, Z.lor (kex_flags k) KEX_INIT_SENT), mux s).

Lemma put_outgoing_ret v s s' : put_outgoing v s = Ret tt s' ->
  outgoing_packet s' = outgoing_packet s ++ v /\ queue_state s' = queue_state s.
Proof.
  intros H. split; [|revert H; apply keeps_ret_eq, keeps_put_outgoing].
  unfold put_outgoing in H. run H. inv_bind H. injection H as <-. cbn.
  unfold buf_put, q_put in H0. destruct (_ >? _); [done|]. inv_bind H0.
  destruct x0; [|done]. by injection H0.
Qed.

Lemma send_kexinit_ret k s s' : kex_send_kexinit_with (send_with k) s = Ret tt s' -> mux s = false ->
  (exists x, kex s = Some x /\ has (kex_flags x) KEX_INIT_SENT = true /\ s' = s) \/
  ((exists x, kex s = Some x /\ has (kex_flags x) KEX_INIT_SENT = false) /\ kexinit_sent s s').
Proof.
  intros H Hm. unfold kex_send_kexinit_with in H. run H. destruct (kex s) as [x|] eqn:Ek; [|done].
  destruct (has (kex_flags x) KEX_INIT_SENT) eqn:Ef.
  { left. exists x. injection H as <-. done. }
  right. split; [eauto|]. unfold update_kex in H. run H.
  destruct (zlen (kex_my x) <? KEX_COOKIE_LEN); [done|].
  inv_bind H. rename x0 into cookie. unfold env in H0.
  destruct (arc4random_buf KEX_COOKIE_LEN _) as [c w]. injection H0 as -> <-.
  run H. inv_bind H. inv_bind H. inv_bind H. destruct x0, x1, x2.
  unfold sshpkt_start in H0. run H0. apply put_outgoing_ret in H0 as [P0 Q0].
  apply put_outgoing_ret in H1 as [P1 Q1]. rewrite P0 in P1. cbn in P1.
  unfold send_with in H2. run H2.
  assert (Hm1 : mux s1 = false) by (unfold queue_state in *; cbn in *; congruence).
  rewrite Hm1 in H2. apply send2_cases in H2. rewrite P1 in H2. cbn [app] in H2.
  injection H as <-. unfold queue_after in H2. change (at_ _ 5) with SSH2_MSG_KEXINIT in H2.
  cbn [ssh_packet_type_is_kex] in H2.
  change (ssh_packet_type_is_kex SSH2_MSG_KEXINIT) with true in H2.
  change (SSH2_MSG_KEXINIT =? SSH2_MSG_NEWKEYS) with false in H2.
  change (SSH2_MSG_KEXINIT =? SSH2_MSG_KEXINIT) with true in H2. cbv iota in H2.
  eexists _, x. split; [done|]. split; [|].
  2: { unfold queue_state in *. cbn in *. rewrite Ek in *. cbn in *.
       destruct (kex s2) as [k2|]; cbn in *; [|congruence].
       assert (Ef2 : kex_flags k2 = kex_flags x) by congruence.
       assert (Ed2 : kex_done k2 = false) by congruence.
       rewrite Ef2, Ed2, orb_true_r in *. injection H2 as -> -> -> _ ->.
       injection Q1 as -> -> _ _ ->. injection Q0 as -> -> _ _ ->. reflexivity. }
  done.
Qed.

Lemma start_rekex_ret s s' : kex_start_rekex s = Ret tt s' -> mux s = false ->
  (forall k, kex s = Some k -> has (kex_flags k) KEX_INIT_SENT = true -> kex_done k = false) ->
  kexinit_sent s s'.
Proof.
  intros H Hm Hf. unfold kex_start_rekex, kex_start_rekex_with in H. run H.
  destruct (kex s) as [k|] eqn:Ek; [|done]. destruct (kex_done k) eqn:Ed; [|done].
  cbn [negb] in H. unfold update_kex in H. run H.
  apply send_kexinit_ret in H as [(x & Ex & Hx & ->)|(_ & p & x & Ex & Hp & Hq)]; [| |done].
  - cbn in Ex. rewrite Ek in Ex. injection Ex as <-. cbn in Hx.
    specialize (Hf k eq_refl Hx). congruence.
  - exists p, k. cbn in Ex. rewrite Ek in Ex. injection Ex as <-. split_and!; done.
Qed.

(** The inner function is not called: a KEXINIT does not start another exchange, so that
    [kex_send_kexinit] is what the code's mutual recursion computes. *)
Lemma send_kexinit_same k1 k2 s : at_ (outgoing_packet s) 5 = SSH2_MSG_KEXINIT ->
  send_with k1 s = send_with k2 s.
Proof.
  intros Ht. unfold send_with. apply bind_ext. intros m s1 [= <- <-].
  destruct (mux s); [done|]. unfold send2_with. apply bind_ext. intros p s2 [= <- <-].
  rewrite Ht. change (ssh_packet_type_is_kex SSH2_MSG_KEXINIT) with true. cbn [negb].
  destruct (zlen (outgoing_packet s) <? 6); [done|].
  apply bind_ext. intros need s3 _. apply bind_ext. intros busy s4 _.
  rewrite andb_false_r. apply bind_ext. intros _ s5 _. by apply bind_ext.
Qed.

Lemma send_kexinit_unfold : forall s, kex_send_kexinit s = kex_send_kexinit_with sshpkt_send s.
Proof.
  intros s. unfold kex_send_kexinit, kex_send_kexinit_with.
  apply bind_ext. intros [k|] s1 [= _ <-]; [|done].
  destruct (has (kex_flags k) KEX_INIT_SENT); [done|].
  apply bind_ext. intros _ s1 _. destruct (zlen (kex_my k) <? KEX_COOKIE_LEN); [done|].
  apply bind_ext. intros c s2 _. apply bind_ext. intros _ s3 _.
  apply bind_ext. intros [] s4 H4. apply bind_ext. intros [] s5 H5.
  unfold mbind. unfold sshpkt_send. rewrite (send_kexinit_same mcrash kex_start_rekex); [done|].
  unfold sshpkt_start in H4. run H4. apply put_outgoing_ret in H4 as [P4 _].
  apply put_outgoing_ret in H5 as [-> _]. by rewrite P4.
Qed.

(** ** The invariant is kept *)

Lemma not_kex_app l l' : not_kex (l ++ l') = not_kex l ++ not_kex l'.
Proof. apply List.filter_app. Qed.
Lemma not_kex_1 p : not_kex [p] = if ssh_packet_type_is_kex (p_type p) then [] else [p].
Proof. unfold not_kex. cbn. by destruct (ssh_packet_type_is_kex _). Qed.
Lemma exchange_open_app l l' : exchange_open (l ++ l') = fold_left sent_step l' (exchange_open l).
Proof. apply fold_left_app. Qed.

(** What holds while the queue is sent: packets may wait without an exchange. *)
Definition flush_inv (subs : list packet) (s : session) : Prop :=
  mux s = false /\ not_kex (sent s) ++ outgoing s = not_kex subs /\
  exchange_open (sent s) = Some (rekeying s) /\
  Forall (fun p => ssh_packet_type_is_kex (p_type p) = false /\ p_type p = at_ (p_payload p) 5)
    (outgoing s) /\
  (forall k, kex s = Some k -> has (kex_flags k) KEX_INIT_SENT = true -> kex_done k = false).

Lemma flush_inv_same subs s s' : queue_state s' = queue_state s -> flush_inv subs s -> flush_inv subs s'.
Proof.
  unfold queue_state. intros [= Ho Hs Hr Hk Hm] (H1 & H2 & H3 & H4 & H5). split_and!; try congruence.
  intros k' E'. rewrite E' in Hk. cbn in Hk. destruct (kex s) as [k|]; [|done].
  injection Hk as Hd Hf. rewrite Hd, Hf. by apply H5.
Qed.

Lemma queue_inv_flush subs s : queue_inv subs s <-> flush_inv subs s /\ (outgoing s <> [] -> rekeying s = true).
Proof.
  split; [intros [? ? ? ? ? ?]; by split_and!|]. by intros [(? & ? & ? & ? & ?) ?].
Qed.

Lemma kexinit_inv subs s s' : flush_inv subs s -> kexinit_sent s s' -> queue_inv subs s'.
Proof.
  intros (Hm & H1 & H2 & H4 & H5) (p & k & Ek & Hp & Hq). unfold queue_state in Hq. injection Hq as Qo Qs Qr Qk Qm.
  split.
  - congruence.
  - rewrite Qs, Qo, not_kex_app, not_kex_1, Hp. by rewrite app_nil_r.
  - rewrite Qs, Qr, exchange_open_app, H2. cbn. by rewrite Hp.
  - done.
  - by rewrite Qo.
  - intros k' Ek' _. rewrite Ek' in Qk. cbn in Qk. by injection Qk.
Qed.

(** A packet sent outside of an exchange, or one that belongs to it. *)
Lemma sent_inv subs p r s s' : flush_inv subs s ->
  queue_after (outgoing s) [p] r s s' ->
  sent_step (Some (rekeying s)) p = Some r ->
  outgoing s = [] \/ ssh_packet_type_is_kex (p_type p) = true ->
  flush_inv (subs ++ [p]) s'.
Proof.
  intros (Hm & H1 & H2 & H4 & H5) Hq Hstep Hk. unfold queue_after, queue_state in Hq. cbn in Hq.
  injection Hq as Qo Qs Qr Qk Qm. split_and!.
  - congruence.
  - rewrite Qs, Qo, !not_kex_app, !not_kex_1, <- H1.
    destruct Hk as [->| ->]; rewrite ?app_nil_r; done.
  - rewrite Qs, Qr, exchange_open_app, H2. done.
  - by rewrite Qo.
  - intros k' E'. rewrite E' in Qk. cbn in Qk. destruct (kex s) as [k|]; [|done].
    injection Qk as Hd Hf. rewrite Hd, Hf. by apply H5.
Qed.

(** The queue after NEWKEYS. *)
Lemma send_queue_inv subs l : forall s s', flush_inv subs s -> rekeying s = false ->
  outgoing s = l -> send_queue kex_start_rekex l s = Ret tt s' -> queue_inv subs s'.
Proof.
  induction l as [|p l IH]; intros s s' HI Hr Ho H; cbn [send_queue] in H.
  - injection H as <-. apply queue_inv_flush. split; [done|]. by rewrite Ho.
  - inv_bind H. rename x into again.
    assert (Q0 := keeps_ret_eq _ _ _ _ _ (keeps_need_rekeying _) H0). clear H0.
    pose proof (flush_inv_same subs s s0 Q0 HI) as HI0.
    pose proof Q0 as [= Qo _ Qr _ _]. destruct again.
    { pose proof HI0 as (Hm & _ & _ & _ & Hf).
      by apply (kexinit_inv subs s0); [|apply start_rekex_ret]. }
    run H. inv_bind H. destruct x. apply wrapped_ret in H0. cbn in H0.
    destruct HI0 as (Hm & H1 & H2 & H4 & H5). rewrite Qo, Ho in H4, H1.
    apply Forall_cons in H4 as [[Hk Ht] H4]. rewrite <- Ht in H0.
    unfold queue_state in H0. cbn in H0. injection H0 as Po Ps Pr Pk Pm.
    apply (IH s1 s'); [|congruence|done|done]. split_and!.
    + congruence.
    + rewrite Ps, Po, not_kex_app, not_kex_1. cbn [p_type]. rewrite Hk, <- app_assoc. cbn.
      rewrite <- H1. do 2 f_equal. by destruct p.
    + rewrite Ps, Pr, exchange_open_app, H2, Qr, Hr. cbn. rewrite Hk.
      destruct (Z.eqb_spec (p_type p) SSH2_MSG_KEXINIT) as [e|_]; [by rewrite e in Hk|].
      by destruct (Z.eqb_spec (p_type p) SSH2_MSG_NEWKEYS) as [e|_]; [rewrite e in Hk|].
    + by rewrite Po.
    + intros k' E'. rewrite E' in Pk. cbn in Pk. destruct (kex s0) as [k|]; [|done].
      injection Pk as Hd Hf. rewrite Hd, Hf. by apply H5.
Qed.

Lemma enqueue_inv subs p s s' : flush_inv subs s ->
  ssh_packet_type_is_kex (p_type p) = false -> p_type p = at_ (p_payload p) 5 ->
  queue_after (outgoing s ++ [p]) [] (rekeying s) s s' -> flush_inv (subs ++ [p]) s'.
Proof.
  intros (Hm & H1 & H2 & H4 & H5) Hk Ht Hq. unfold queue_after, queue_state in Hq. cbn in Hq.
  rewrite app_nil_r in Hq. injection Hq as Qo Qs Qr Qk Qm. split_and!.
  - congruence.
  - rewrite Qs, Qo, !not_kex_app, !not_kex_1, <- H1, app_assoc, Hk. done.
  - congruence.
  - rewrite Qo. apply Forall_app. by repeat constructor.
  - intros k' E'. rewrite E' in Qk. cbn in Qk. destruct (kex s) as [k|]; [|done].
    injection Qk as Hd Hf. rewrite Hd, Hf. by apply H5.
Qed.

Lemma send_inv subs s s' p : queue_inv subs s ->
  sshpkt_send (set_outgoing_packet p s) = Ret tt s' ->
  queue_inv (subs ++ [mk_packet (at_ p 5) p]) s'.
Proof.
  intros HI H. apply (queue_inv_same _ _ (set_outgoing_packet p s)) in HI; [|done].
  set (s0 := set_outgoing_packet p s) in *. assert (Ep : outgoing_packet s0 = p) by done.
  clearbody s0. clear s. pose proof HI as [HF Hw]%queue_inv_flush. destruct (HI) as [Hm _ _ _ _ Hflag].
  unfold sshpkt_send, send_with in H. run H. rewrite Hm in H. apply send2_cases in H.
  rewrite Ep in H. set (t := at_ p 5) in *. set (pk := mk_packet t p) in *.
  destruct (ssh_packet_type_is_kex t) eqn:Hk; [destruct (Z.eqb_spec t SSH2_MSG_NEWKEYS) as [Ht|Ht]|].
  - destruct H as (s1 & Hq & Hs). apply (send_queue_inv _ (outgoing s0) s1 s'); [| | |done].
    + apply (sent_inv subs pk false s0 s1); [done|done| |by right]. cbn. by rewrite Ht.
    + unfold queue_after, queue_state in Hq. cbn in Hq. congruence.
    + unfold queue_after, queue_state in Hq. cbn in Hq. congruence.
  - apply queue_inv_flush. split.
    + apply (sent_inv subs pk _ s0 s' HF H); [|by right]. cbn. fold t. rewrite Hk.
      destruct (t =? SSH2_MSG_KEXINIT); [by rewrite orb_true_r|]. rewrite orb_false_r.
      by destruct (Z.eqb_spec t SSH2_MSG_NEWKEYS).
    + unfold queue_after, queue_state in H. cbn in H. injection H as -> _ -> _ _.
      intros Hne. by rewrite Hw.
  - assert (Hstep : rekeying s0 = false -> sent_step (Some (rekeying s0)) pk = Some false).
    { intros ->. cbn. fold t. rewrite Hk.
      destruct (Z.eqb_spec t SSH2_MSG_KEXINIT) as [e|_]; [by rewrite e in Hk|].
      by destruct (Z.eqb_spec t SSH2_MSG_NEWKEYS) as [e|_]; [rewrite e in Hk|]. }
    destruct H as [[Hr Hq]|(s1 & Hq & Hc)].
    + assert (Ho : outgoing s0 = []).
      { destruct (outgoing s0); [done|]. rewrite Hw in Hr; done. }
      apply queue_inv_flush. split; [by apply (sent_inv subs pk false s0 s'); auto|].
      unfold queue_after, queue_state in Hq. cbn in Hq. injection Hq as -> _ _ _ _. by rewrite Ho.
    + assert (HF1 := enqueue_inv subs pk s0 s1 HF Hk eq_refl Hq).
      destruct Hc as [[Hr ->]|[Hr Hc]].
      * apply queue_inv_flush. split; [done|]. intros _.
        unfold queue_after, queue_state in Hq. cbn in Hq. congruence.
      * pose proof HF1 as (Hm1 & _ & _ & _ & Hf1).
        apply (kexinit_inv _ s1); [done|]. by apply start_rekex_ret.
Qed.

Lemma keeps_dispatch_range a b h : keeps queue_state (ssh_dispatch_range a b h).
Proof. unfold ssh_dispatch_range. keeps. Qed.
Lemma keeps_put_each l : forall q, keeps queue_state (put_each q l).
Proof. induction l as [|v l IH]; intros q; cbn [put_each]; [apply keeps_ret|]. apply keeps_bind; [apply keeps_buf_put|done]. Qed.
Lemma keeps_put_cstrings l : forall q, keeps queue_state (put_cstrings q l).
Proof.
  induction l as [|v l IH]; intros q; cbn [put_cstrings]; [apply keeps_ret|].
  destruct (_ >? _); [apply keeps_fail|]. apply keeps_bind; [apply keeps_buf_put|done].
Qed.
Lemma keeps_prop2buf proposal : keeps queue_state (kex_prop2buf proposal).
Proof.
  unfold kex_prop2buf. apply keeps_bind; [apply keeps_put_each|intros q].
  apply keeps_bind; [apply keeps_put_cstrings|intros q2].
  apply keeps_bind; [apply keeps_put_each|intros q3]. apply keeps_buf_put.
Qed.
Lemma keeps_dispatch_set t h : keeps queue_state (ssh_dispatch_set t h).
Proof. unfold ssh_dispatch_set. keeps. Qed.
Lemma keeps_get_end : keeps queue_state sshpkt_get_end.
Proof. unfold sshpkt_get_end. keeps. Qed.

(** NEWKEYS from the peer: our exchange is done. *)
Lemma input_newkeys_ret s s' : kex_input_newkeys s = Ret tt s' ->
  exists k, kex s = Some k /\
    queue_state s' = (outgoing s, sent s, rekeying s,
      Some (true, Z.land (Z.land (kex_flags k) (Z.lnot KEX_INITIAL)) (Z.lnot KEX_INIT_SENT)), mux s).
Proof.
  intros H. unfold kex_input_newkeys in H. inv_bind H. inv_bind H. inv_bind H. inv_bind H.
  destruct x, x0, x1, x2.
  apply (keeps_ret_eq queue_state) in H0, H1, H2, H3;
    [|apply keeps_set_newkeys|apply keeps_get_end|apply keeps_dispatch_set|apply keeps_dispatch_set].
  rewrite H2, H1, H0 in H3. clear H0 H1 H2.
  inv_bind H. unfold deref in H0. destruct (kex s3) as [k|] eqn:Ek; [|done].
  injection H0 as <- <-. unfold update_kex in H. run H. injection H as <-.
  unfold queue_state in *. cbn. rewrite Ek in *. cbn in *. injection H3 as Qo Qs Qr Qk Qm.
  destruct (kex s) as [k0|]; [|done]. injection Qk as Qd Qf. exists k0. split; [done|].
  by rewrite Qo, Qs, Qr, Qf, Qm.
Qed.

Lemma land_lnot_clear a : has (Z.land a (Z.lnot KEX_INIT_SENT)) KEX_INIT_SENT = false.
Proof.
  unfold has. by rewrite <- Z.land_assoc, (Z.land_comm (Z.lnot _)), Z.land_lnot_diag, Z.land_0_r.
Qed.

Lemma input_newkeys_inv subs s s' : queue_inv subs s -> kex_input_newkeys s = Ret tt s' -> queue_inv subs s'.
Proof.
  intros [Hm H1 H2 H3 H4 H5] (k & Ek & Hq)%input_newkeys_ret.
  unfold queue_state in Hq. injection Hq as Qo Qs Qr Qk Qm. split; try congruence.
  - by rewrite Qo, Qr.
  - intros k' Ek'. rewrite Ek' in Qk. cbn in Qk. injection Qk as _ ->. by rewrite land_lnot_clear.
Qed.

Lemma ready_inv subs proposal s s' : queue_inv subs s -> kex_ready proposal s = Ret tt s' -> queue_inv subs s'.
Proof.
  intros HI H. unfold kex_ready in H. inv_bind H. inv_bind H. unfold update_kex in H. run H.
  inv_bind H. apply (keeps_ret_eq queue_state) in H0, H1, H2, H;
    [|apply keeps_dispatch_set|apply keeps_dispatch_range|apply keeps_prop2buf|apply keeps_deref].
  apply (queue_inv_same _ _ s1) in HI; [|congruence].
  eapply queue_inv_same; [rewrite H, H2; reflexivity|]. destruct HI as [Hm F1 F2 F3 F4 F5]. split; try done.
  intros k Ek Hf. cbn in Ek. destruct (kex s1) as [k1|]; [|done]. cbn in Ek. injection Ek as <-. done.
Qed.

Lemma qstep_inv subs s l s' : queue_inv subs s -> qstep s l s' -> queue_inv (subs ++ l) s'.
Proof.
  intros HI Hs. destruct Hs as [p s1 s2 H|s1 s2 H|s1 s2 H|pr s1 s2 H|s1 s2 H|s1 s2 H]; rewrite ?app_nil_r.
  - by apply (send_inv _ s1).
  - unfold ssh_packet_check_rekey in H. inv_bind H.
    assert (Q0 := keeps_ret_eq _ _ _ _ _ (keeps_need_rekeying _) H0).
    apply (queue_inv_same _ _ s) in HI; [|done]. destruct x; [|by injection H as <-].
    pose proof HI as [HF _]%queue_inv_flush. pose proof HF as (Hm & _ & _ & _ & Hf).
    by apply (kexinit_inv _ s); [|apply start_rekex_ret].
  - pose proof HI as [HF _]%queue_inv_flush. pose proof HF as (Hm & _).
    apply send_kexinit_ret in H as [(x & _ & _ & ->)|[_ H]]; [done| |done]. by apply (kexinit_inv _ s1).
  - by apply (ready_inv _ pr s1).
  - by apply (input_newkeys_inv _ s1).
  - by apply (queue_inv_same _ s1).
Qed.

Lemma qsteps_inv s0 subs s : queue_inv [] s0 -> qsteps s0 subs s -> queue_inv subs s.
Proof. intros H0 H. induction H; [done|]. by eapply qstep_inv; [apply IHqsteps|]. Qed.

Lemma new_session_inv w s : ssh_packet_set_connection (ssh_alloc_session_state w) = Some s ->
  queue_inv [] s.
Proof. intros [= <-]. split; try done; cbn. by intros k [= <-]. Qed.

(** ** Theorems *)

(** Claim C8: from a new connection on, whatever packets are sent and however key exchanges
    interleave with them, the packets that are not key exchange messages are sent in the
    order in which they were submitted, none lost and none twice: those sent, followed by
    those that wait, are those submitted. *)
Theorem sent_in_order w s0 subs s
    (H0 : ssh_packet_set_connection (ssh_alloc_session_state w) = Some s0) (Hs : qsteps s0 subs s) :
  not_kex (sent s) ++ outgoing s = not_kex subs.
Proof. by destruct (qsteps_inv s0 subs s (new_session_inv w s0 H0) Hs). Qed.

(** Claim C10: nothing but key exchange messages is sent between a KEXINIT and the next
    NEWKEYS, nor before the first one; [rekeying] says whether that is the case now, and
    packets only wait while it is. *)
Theorem exchange_exclusive w s0 subs s
    (H0 : ssh_packet_set_connection (ssh_alloc_session_state w) = Some s0) (Hs : qsteps s0 subs s) :
  exchange_open (sent s) = Some (rekeying s) /\ (outgoing s <> [] -> rekeying s = true).
Proof. by destruct (qsteps_inv s0 subs s (new_session_inv w s0 H0) Hs). Qed.

Lemma need_rekeying_done n s : ssh_packet_is_rekeying s = true -> exists s1,
  ssh_packet_need_rekeying n s = Ret false s1 /\ s1 = s.
Proof.
  intros Hr. unfold ssh_packet_need_rekeying, mbind, gets. cbv beta iota delta [id].
  rewrite Hr. destruct (after_authentication s); eauto.
Qed.

Lemma send_queue_empties l k : forall s s', outgoing s = l ->
  (exists x, kex s = Some x /\ kex_done x = false) ->
  send_queue k l s = Ret tt s' -> outgoing s' = [].
Proof.
  induction l as [|p l IH]; intros s s' Ho (x & Ex & Hx) H; cbn [send_queue] in H.
  { injection H as <-. done. }
  assert (Hr : ssh_packet_is_rekeying s = true).
  { unfold ssh_packet_is_rekeying. by rewrite Ex, Hx, orb_true_r. }
  destruct (need_rekeying_done (zlen (p_payload p)) s Hr) as (s1 & E1 & ->).
  unfold mbind at 1 in H. rewrite E1 in H. run H. inv_bind H. destruct x0.
  apply wrapped_ret in H0. cbn in H0. unfold queue_state in H0. cbn in H0. injection H0 as Qo Qs Qr Qk Qm.
  apply (IH s0 s'); [done| |done]. rewrite Ex in Qk. cbn in Qk.
  destruct (kex s0) as [k0|]; [|done]. injection Qk as Qd Qf. exists k0. split; [done|congruence].
Qed.

End proofs.

(** ** A run *)

Definition state_of {A} (o : outcome A) (s : session) : session :=
  match o with Ret _ s' => s' | _ => s end.

(** The keys of an exchange that agreed on no cipher. *)
Definition no_keys : newkeys :=
  mk_newkeys (mk_enc (lit "none") none 0 0 0 8 [] None) (mk_mac false 0 (Some []) 0 SSH_DIGEST false 1 None)
    [] (mk_comp COMP_NONE false (lit "none")).

Definition data_packet : bytes := zeros 5 ++ [byte_of_Z 94; x01].
Definition newkeys_packet : bytes := zeros 5 ++ [byte_of_Z SSH2_MSG_NEWKEYS].

Definition run0 : session := state_of (Ret tt (ssh_alloc_session_state tt)) (ssh_alloc_session_state tt).
Definition run1 : session := match ssh_packet_set_connection run0 with Some s => s | None => run0 end.
Definition run2 : session := state_of (kex_ready (replicate 10 (lit "none")) run1) run1.
Definition run3 : session := state_of (kex_send_kexinit run2) run2.
Definition run4 : session := state_of (sshpkt_send (set_outgoing_packet data_packet run3)) run3.
Definition run5 : session :=
  set_kex (option_map (set_kex_newkeys_out (Some no_keys)) (kex run4)) run4.
Definition run6 : session := state_of (sshpkt_send (set_outgoing_packet newkeys_packet run5)) run5.

Lemma run_steps : qsteps run1
  ([] ++ [] ++ [] ++ [mk_packet 94 data_packet] ++ [] ++ [mk_packet 21 newkeys_packet]) run6.
Proof.
  rewrite !app_assoc.
  refine (qs_cons _ _ run5 _ _ (qs_cons _ _ run4 _ _ (qs_cons _ _ run3 _ _
            (qs_cons _ _ run2 _ _ (qs_cons _ _ run1 _ _ (qs_nil _) _) _) _) _) _).
  - apply (q_ready (replicate 10 (lit "none"))). vm_compute. reflexivity.
  - apply q_kexinit. vm_compute. reflexivity.
  - apply (q_send data_packet run3). vm_compute. reflexivity.
  - apply q_other. vm_compute. reflexivity.
  - apply (q_send newkeys_packet run5). vm_compute. reflexivity.
Qed.

Lemma sent_in_order_witness :
  map p_type (sent run6) = [20; 21; 94] /\
  not_kex (sent run6) ++ outgoing run6 = [mk_packet 94 data_packet].
Proof.
  split; [vm_compute; reflexivity|].
  exact (sent_in_order tt run1 _ run6 eq_refl run_steps).
Defined.

Lemma exchange_exclusive_witness : outgoing run4 = [mk_packet 94 data_packet] /\
  exchange_open (sent run6) = Some (rekeying run6) /\ (outgoing run6 <> [] -> rekeying run6 = true).
Proof.
  split; [vm_compute; reflexivity|].
  exact (exchange_exclusive tt run1 _ run6 eq_refl run_steps).
Defined.

