(* ===== verification/PacketBounds.v ===== *)
(** The arithmetic of a packet: its padding, and the loops over zlib. *)

From S2P Require Import Prelude SshErr Wire SshQueue Compat.
From S2P Require Import ChaCha ChachaPoly Digest SshCipher Packet PacketSend Plain PacketRead PacketFrame.

(** ** Padding *)

Lemma u8_small z : 0 <= z < 256 -> u8 z = z.
Proof. apply Z.mod_small. Qed.

Lemma u8_over z : 256 <= z < 512 -> u8 z = z - 256.
Proof.
  intros. unfold u8, wrap. replace z with (z - 256 + 1 * 2 ^ 8) at 1 by lia.
  rewrite Z_mod_plus_full. apply Z.mod_small. lia.
Qed.

Lemma base_padlen_spec bs len : 4 <= bs <= 124 -> 0 <= len ->
  4 <= base_padlen bs len < bs + 4 /\ (len + base_padlen bs len) mod bs = 0.
Proof.
  intros Hb Hl. unfold base_padlen. pose proof (Z.mod_pos_bound len bs ltac:(lia)).
  assert (M : forall k, (len + (bs - len mod bs + k * bs)) mod bs = 0).
  { intros k. pose proof (Z.div_mod len bs ltac:(lia)).
    replace (len + (bs - len mod bs + k * bs)) with ((len / bs + 1 + k) * bs) by lia.
    apply Z_mod_mult. }
  rewrite (u8_small (bs - len mod bs)) by lia.
  destruct (Z.ltb_spec (bs - len mod bs) 4) as [Hlt|Hge].
  - rewrite u8_small by lia. split; [lia|]. replace (bs - _ + bs) with (bs - len mod bs + 1 * bs) by lia. apply M.
  - split; [lia|]. replace (bs - len mod bs) with (bs - len mod bs + 0 * bs) by lia. apply M.
Qed.

Lemma ROUNDUP_spec x y : 0 < y -> x <= ROUNDUP x y < x + y /\ ROUNDUP x y mod y = 0.
Proof.
  intros Hy. unfold ROUNDUP. pose proof (Z.div_mod (x + (y - 1)) y ltac:(lia)).
  pose proof (Z.mod_pos_bound (x + (y - 1)) y Hy). split; [lia|apply Z_mod_mult].
Qed.

Lemma mod_of_multiple a b m : 0 < b -> 0 < m -> b mod m = 0 -> a mod m = 0 -> (b - a mod b) mod m = 0.
Proof.
  intros Hb Hm Hbm Ham. apply Z.mod_divide in Hbm, Ham; try lia. apply Z.mod_divide; [lia|].
  apply Z.divide_sub_r; [done|]. rewrite (Z.mod_eq a b) by lia.
  apply Z.divide_sub_r; [done|]. by apply Z.divide_mul_l.
Qed.

Lemma padding_spec bs len extra padlen left_
    (Hb : 4 <= bs <= 124) (Hl : 0 <= len < 2 ^ 32 - 256) (He : 0 <= extra < 256)
    (H : padding bs len extra = (Some padlen, left_)) :
  4 <= padlen <= 255 /\ (len + padlen) mod bs = 0 /\ left_ = 0 /\
  (extra = 0 -> padlen < bs + 4) /\
  (extra <> 0 -> (len + padlen) mod ROUNDUP extra bs = 0).
Proof.
  destruct (base_padlen_spec bs len Hb (proj1 Hl)) as [Hp Hm]. unfold padding in H. cbv zeta in H.
  set (p := base_padlen bs len) in *. destruct (Z.eqb_spec extra 0) as [E0|E0].
  { injection H as <- <-. split_and!; try done; lia. }
  destruct (ROUNDUP_spec extra bs ltac:(lia)) as [Hr Hrm]. set (r := ROUNDUP extra bs) in *.
  destruct (Z.ltb_spec (u8 r) extra) as [|Hge]; [done|].
  assert (Er : u8 r = r).
  { destruct (Z.lt_ge_cases r 256); [apply u8_small; lia|].
    exfalso. rewrite (u8_over r) in Hge; lia. }
  rewrite Er in *. assert (Hr0 : 0 < r) by lia.
  assert (Er256 : r < 256) by (rewrite <- Er; apply (wrap_range 8); lia).
  rewrite (u32_small (len + p)) in H by lia.
  pose proof (Z.mod_pos_bound (len + p) r Hr0).
  rewrite (u8_small ((len + p) mod r)) in H by lia. rewrite Z.gtb_ltb in H.
  destruct (Z.ltb_spec r ((len + p) mod r)); [lia|].
  rewrite (u8_small (r - _)) in H by lia.
  destruct (Z.ltb_spec (u8 (p + (r - (len + p) mod r))) p) as [|Hov]; [done|]. injection H as <- <-.
  assert (Eov : u8 (p + (r - (len + p) mod r)) = p + (r - (len + p) mod r)).
  { destruct (Z.lt_ge_cases (p + (r - (len + p) mod r)) 256); [apply u8_small; lia|].
    exfalso. rewrite u8_over in Hov; lia. }
  rewrite Eov in *. pose proof (wrap_range 8 (p + (r - (len + p) mod r)) ltac:(lia)) as Hw.
  unfold u8 in Eov. rewrite Eov in Hw.
  assert (D : (r - (len + p) mod r) mod bs = 0) by (apply mod_of_multiple; (done || lia)).
  split_and!; [lia|lia| |done|lia|].
  - rewrite Z.add_assoc, Zplus_mod, Hm, D. done.
  - intros _. pose proof (Z.div_mod (len + p) r ltac:(lia)).
    replace (len + (p + (r - (len + p) mod r))) with (((len + p) / r + 1) * r) by lia. apply Z_mod_mult.
Qed.



(** ** The loops over zlib *)

Section loops.
Context {C : Crypto} {E : Env}.

(** The room left in the buffer a loop writes to. *)
Definition room (s : session) : Z :=
  match compression_buffer s with Some q => SSHBUF_SIZE_MAX - zlen q | None => 0 end.

Definition not_waiting {A} (o : outcome A) : Prop := forall s, o <> Wait s.

Lemma put_compressed_room v s : not_waiting (put_compressed v s) /\
  forall s', put_compressed v s = Ret tt s' -> room s' = room s - zlen v /\ 0 <= room s'.
Proof.
  unfold put_compressed, mbind, deref, buf_put, q_put, room.
  destruct (compression_buffer s) as [q|] eqn:Eq; [|split; [intros ?; done|intros ?; done]].
  destruct (Z.gtb_spec (zlen q + zlen v) SSHBUF_SIZE_MAX); [split; intros ?; done|].
  unfold mbind, env. destruct (request_memory (world s)) as [[|] w]; [|split; intros ?; done].
  unfold mret, modify. split; [intros ?; done|]. intros s' [= <-]. cbn. rewrite zlen_app. lia.
Qed.

Lemma run_loop_ends (body : bytes -> M (bytes * option unit)) (P : bytes * session -> Prop)
    (m : bytes * session -> Z) n next_in s :
  (forall i s, not_waiting (body i s)) ->
  (forall i s i' s', P (i, s) -> body i s = Ret (i', None) s' -> P (i', s') /\ m (i', s') < m (i, s)) ->
  (forall x, P x -> 0 <= m x) -> P (next_in, s) -> m (next_in, s) < Zpos n ->
  not_waiting (run_loop body n next_in s).
Proof.
  intros Hw Hs H0 HP Hm s' Hr. unfold run_loop in Hr.
  destruct (loop_ends (as_round body) P m n (next_in, s)) as [r Er]; [|done..|].
  { intros [i s1] [i' s1'] HP1 Hb. cbn in Hb.
    destruct (body i s1) as [[rest [a|]] s2|e s2| |s2] eqn:Eb; try done.
    injection Hb as <- <-. by apply Hs. }
  rewrite Er in Hr. subst r.
  assert (L := loop_sound (as_round body) (fun _ => True) not_waiting n (next_in, s)).
  rewrite Er in L. refine (L (fun _ _ _ _ => I) _ I s' eq_refl). clear -Hw.
  intros [i s1] r _ Hb. cbn in Hb. specialize (Hw i s1).
  destruct (body i s1) as [[rest [a|]] s2|e s2| |s2]; try done; injection Hb as <-; intros s3 [= ->].
  by apply (Hw s3).
Qed.

Lemma compress_round_spec i s : not_waiting (compress_round i s) /\
  forall i' s', compress_round i s = Ret (i', None) s' -> room s' = room s - BUF /\ 0 <= room s'.
Proof.
  unfold compress_round, mbind, deref. destruct (compression_out_stream s) as [z|]; [|by split; intros ?].
  destruct (deflate z i BUF) as [[[status out] rest] z'].
  set (s1 := set_compression_out_stream (Some z') s).
  unfold modify. cbv beta iota. fold s1.
  destruct status; try (split; intros ?; done).
  destruct (put_compressed_room out s1) as [Hw Hr].
  destruct (put_compressed out s1) as [[] s2|e s2| |s2]; try (split; intros ?; done).
  2: { exfalso. by apply (Hw s2). }
  split; [intros ?; done|]. intros i' s'. unfold mret.
  destruct (Z.eqb_spec (BUF - zlen out) 0) as [Hb|]; [|done]. intros [= <- <-].
  destruct (Hr s2 eq_refl) as [Hr1 Hr2]. change (room s1) with (room s) in Hr1. lia.
Qed.

(** [compress_buffer] returns, whatever deflate answers: every round but the last adds a
    full [buf] to a buffer of limited size. *)
Lemma compress_buffer_returns in_ s : room s <= SSHBUF_SIZE_MAX -> not_waiting (compress_buffer in_ s).
Proof.
  intros Hr s' H. unfold compress_buffer, mbind, gets in H.
  destruct (compression_out_started s); [|done]. cbn [negb] in H. destruct (zlen in_ =? 0); [done|].
  revert H.
  apply (run_loop_ends compress_round (fun _ => True) (fun x => (room (snd x) + BUF) `max` 0 / BUF)); try done.
  - intros i s1. apply compress_round_spec.
  - intros i s1 i' s2 _ H. split; [done|]. apply compress_round_spec in H as [H1 H2]. cbn [snd].
    rewrite !Z.max_l by (unfold BUF in *; lia). rewrite H1.
    replace (room s1 - BUF + BUF) with (room s1) by lia.
    replace (room s1 + BUF) with (room s1 + 1 * BUF) by lia. rewrite Z.div_add by done. lia.
  - intros x _. apply Z.div_pos; [lia|done].
  - cbn [snd]. apply Z.div_lt_upper_bound; [done|].
    unfold BUF, compress_rounds, SSHBUF_SIZE_MAX in *. lia.
Qed.

(** Documented of inflate: [Z_OK] means that some progress was made. *)
Definition inflate_progress : Prop := forall z p out rest z', inflate z p BUF = (Z_OK, out, rest, z') ->
  zlen rest <= zlen p /\ zlen rest < zlen p + zlen out.

Lemma uncompress_round_spec i s : inflate_progress -> not_waiting (uncompress_round i s) /\
  forall i' s', uncompress_round i s = Ret (i', None) s' ->
    zlen i' + room s' < zlen i + room s /\ 0 <= room s'.
Proof.
  intros Law. unfold uncompress_round, mbind, deref.
  destruct (compression_in_stream s) as [z|]; [|by split; intros ?].
  destruct (inflate z i BUF) as [[[status out] rest] z'] eqn:Ei.
  set (s1 := set_compression_in_stream (Some z') s).
  unfold modify. cbv beta iota. fold s1.
  destruct status; try (split; intros ?; done).
  destruct (put_compressed_room out s1) as [Hw Hr].
  destruct (put_compressed out s1) as [[] s2|e s2| |s2]; try (split; intros ?; done).
  2: { exfalso. by apply (Hw s2). }
  split; [intros ?; done|]. intros i' s'. unfold mret. intros [= <- <-].
  destruct (Hr s2 eq_refl) as [Hr1 Hr2]. change (room s1) with (room s) in Hr1.
  apply Law in Ei. lia.
Qed.

Lemma uncompress_buffer_returns in_ s : inflate_progress -> room s <= SSHBUF_SIZE_MAX ->
  not_waiting (uncompress_buffer in_ s).
Proof.
  intros Law Hr s' H. unfold uncompress_buffer, mbind, gets in H.
  destruct (compression_in_started s); [|done]. cbn [negb] in H. revert H.
  apply (run_loop_ends uncompress_round (fun _ => True)
           (fun x => (zlen (fst x) + room (snd x) + 1) `max` 0)); try done.
  - intros i s1. by apply uncompress_round_spec.
  - intros i s1 i' s2 _ H. split; [done|]. apply uncompress_round_spec in H as [H1 H2]; [|done].
    cbn [fst snd]. pose proof (zlen_nonneg i'). lia.
  - intros x _. lia.
  - cbn [fst snd]. unfold uncompress_rounds. pose proof (zlen_nonneg in_).
    rewrite Z2Pos.id by (unfold SSHBUF_SIZE_MAX in *; lia). unfold SSHBUF_SIZE_MAX in *. lia.
Qed.
End loops.

(** Claim C31: the loops over zlib end.  Compression ends whatever deflate answers, because
    every round but the last adds 4096 bytes to a buffer of limited size; decompression
    ends for an inflate that makes progress when it says so, because a packet that expands
    without end reaches the limit of the buffer (the decompression bomb). *)
Theorem zlib_loops_end {C : Crypto} {E : Env} in_ s (Hi : inflate_progress)
    (Hr : room s <= SSHBUF_SIZE_MAX) :
  not_waiting (compress_buffer in_ s) /\ not_waiting (uncompress_buffer in_ s).
Proof. split; [by apply compress_buffer_returns|by apply uncompress_buffer_returns]. Qed.

Lemma plain_progress : inflate_progress.
Proof.
  intros z p out rest z' H. destruct p as [|b p]; [done|].
  assert (Eo : out = take (Z.to_nat BUF) (b :: p)) by (cbn in *; congruence).
  assert (Er : rest = drop (Z.to_nat BUF) (b :: p)) by (cbn in *; congruence).
  rewrite Eo, Er. unfold BUF. zlen.
Qed.

Definition compressing : session :=
  set_compression_in_stream (Some tt) (set_compression_in_started true
    (set_compression_buffer (Some []) (ssh_alloc_session_state tt))).

Lemma zlib_loops_end_witness :
  not_waiting (compress_buffer (zeros 10) compressing) /\ not_waiting (uncompress_buffer (zeros 10) compressing).
Proof. apply zlib_loops_end; [exact plain_progress|vm_compute; discriminate]. Defined.
