(* ===== verification/PacketPoll.v ===== *)
(** The parser of the input buffer makes progress, and does not depend on how the input was
    cut into reads. *)

From S2P Require Import Prelude SshErr Wire SshQueue Compat.
From S2P Require Import ChaCha ChachaPoly Digest SshCipher CipherLink Packet PacketSend Plain PacketRead PacketFrame.

Section poll.
Context {C : Crypto} {E : Env}.

(** ** The parts of [ssh_packet_read_poll2] *)

Lemma consume_input_ret n s s' : consume_input n s = Ret tt s' ->
  n <= zlen (input s) /\ s' = set_input (drop (Z.to_nat n) (input s)) s.
Proof.
  unfold consume_input, mbind, gets, lift, buf_consume.
  destruct (Z.ltb_spec (zlen (input s)) n); intros H'; [done|]. by injection H' as <-.
Qed.

Lemma put_incoming_ret v s s' : put_incoming v s = Ret tt s' ->
  exists w, s' = set_incoming_packet (incoming_packet s ++ v) (set_world w s).
Proof.
  unfold put_incoming. intros H. run H. inv_bind H. unfold buf_put, q_put in H0.
  destruct (_ >? _); [done|]. inv_bind H0. unfold env in H1.
  destruct (request_memory (world s)) as [ok w]. injection H1 as <- <-. destruct ok; [|done].
  injection H0 as <- <-. injection H as <-. by exists w.
Qed.

Definition keys_of (s : session) := option_map (fun k => (nk_enc k, nk_mac k)) (newkeys_in s).

(** A length was found: it was known, or it was read from the input. *)
Lemma read_length_ret u len s s' : read_length u s = Ret (Some len) s' ->
  keys_of s' = keys_of s /\ (newkeys_in s', mux s', packet_discard s') = (newkeys_in s, mux s, packet_discard s) /\
  packlen s' = len /\
  ((packlen s <> 0 /\ s' = s) \/
   (packlen s = 0 /\ bad_length len = false /\
    if su_aadlen u =? 0 then su_block_size u <= zlen (input s) /\
                             input s' = drop (Z.to_nat (su_block_size u)) (input s)
    else input s' = input s)).
Proof.
  unfold read_length. intros H. run H. destruct (Z.eqb_spec (packlen s) 0) as [Hp|Hp]; cbn [negb] in H.
  2: { injection H as <- <-. by split_and!; [..|left]. }
  run H. destruct (Z.eqb_spec (su_aadlen u) 0) as [Ha|Ha]; cbn [negb] in H.
  - destruct (zlen (input s) <? su_block_size u); [done|]. run H. inv_bind H.
    destruct x. apply put_incoming_ret in H0 as (w & E0). inv_bind H. unfold deref in H0.
    destruct (receive_context s0) as [cc|]; [|done]. injection H0 as <- <-. run H.
    destruct (cipher_crypt _ _ _ _ _ _) as [r cc']. run H. destruct r as [first|e]; [|done].
    cbn [lift] in H. run H. set (l := PEEK_U32 _) in *.
    destruct (bad_length l) eqn:Hb.
    { inv_bind H. by injection H. }
    inv_bind H. destruct x. injection H as <- <-.
    apply consume_input_ret in H0 as [Hl ->]. rewrite E0 in *. cbn in *.
    split_and!; try done. right. split_and!; done.
  - inv_bind H. unfold deref in H0. destruct (receive_context s) as [cc|]; [|done].
    injection H0 as <- <-. run H. destruct (cipher_get_length _ _ _ _) as [r cc']. run H.
    destruct r as [l|e]; [|done]. run H. destruct (bad_length l) eqn:Hb.
    { inv_bind H. done. }
    run H. injection H as <- <-. cbn. split_and!; try done. right. done.
Qed.

Lemma check_etm_ret u cp need s s' : check_etm u cp need s = Ret tt s' -> s' = s.
Proof.
  unfold check_etm. intros H. destruct (su_mac_on u) as [m|]; [|by injection H as <-].
  destruct (mac_etm m); [|by injection H as <-]. run H. destruct (mac_check _ _ _ _ _); [done|].
  by injection H as <-.
Qed.

Lemma decipher_ret u cp need s s' : decipher u cp need s = Ret tt s' ->
  su_aadlen u + need + su_authlen u <= zlen (input s) /\
  input s' = drop (Z.to_nat (su_aadlen u + need + su_authlen u)) (input s) /\
  keys_of s' = keys_of s /\ packlen s' = packlen s.
Proof.
  unfold decipher. intros H. run H. inv_bind H. destruct x.
  apply put_incoming_ret in H0 as (w & ->). inv_bind H. unfold deref in H0.
  destruct (receive_context _) as [cc|]; [|done]. injection H0 as <- <-.
  destruct (cipher_crypt _ _ _ _ _ _) as [r cc']. run H. destruct r as [dest|e]; [|done].
  cbn [lift] in H. run H. apply consume_input_ret in H as [Hl ->]. done.
Qed.

Lemma check_mac_ret u need s s' : check_mac u need s = Ret true s' ->
  (length (input s') <= length (input s))%nat /\ keys_of s' = keys_of s /\ packlen s' = packlen s.
Proof.
  unfold check_mac. intros H. destruct (su_mac_on u) as [m|]; [|by injection H as <-].
  run H. destruct (if mac_etm m then None else _) as [e|].
  - destruct e; try done. destruct (_ >? _); [done|]. inv_bind H. done.
  - inv_bind H. destruct x. apply consume_input_ret in H0 as [Hl ->]. injection H as <-.
    cbn. rewrite length_drop. split; [lia|done].
Qed.

(** What finishing a packet leaves alone. *)
Definition in_keys (s : session) := (input s, keys_of s).

Lemma in_keys_recv {A} (m : M A) : keeps recv_state m -> keeps in_keys m.
Proof. intros H. exact (keeps_part recv_state (fun x => (x.1.1.1.1, x.1.1.1.2)) m H). Qed.
#[local] Hint Extern 2 (keeps in_keys (sshpkt_disconnect _)) =>
  apply in_keys_recv, recv_disconnect : keeps.
#[local] Hint Extern 2 (keeps in_keys ssh_packet_enable_delayed_compress) =>
  apply in_keys_recv, recv_enable_delayed_compress : keeps.
#[local] Hint Extern 2 (keeps in_keys ssh_packet_check_rekey) =>
  apply in_keys_recv, recv_check_rekey : keeps.

Lemma in_keys_select fuel : forall w n, keeps in_keys (select_loop fuel w n).
Proof. induction fuel as [|fuel IH]; intros w n; cbn [select_loop]; keeps. Qed.
#[local] Hint Resolve in_keys_select : keeps.
Lemma in_keys_write_poll : keeps in_keys ssh_packet_write_poll.
Proof. unfold ssh_packet_write_poll, consume_output. keeps. Qed.
#[local] Hint Resolve in_keys_write_poll : keeps.
Lemma in_keys_write_wait_loop fuel : keeps in_keys (write_wait_loop fuel).
Proof.
  induction fuel as [|fuel IH]; cbn [write_wait_loop]; unfold ssh_packet_have_data_to_write; keeps.
Qed.
#[local] Hint Resolve in_keys_write_wait_loop : keeps.
Lemma in_keys_write_wait : keeps in_keys ssh_packet_write_wait.
Proof. unfold ssh_packet_write_wait. keeps. Qed.
#[local] Hint Resolve in_keys_write_wait : keeps.

Lemma in_keys_uncompress : keeps in_keys uncompress_incoming.
Proof.
  unfold uncompress_incoming, uncompress_buffer, uncompress_round, put_compressed, put_incoming, buf_put. keeps.
Qed.
#[local] Hint Resolve in_keys_uncompress : keeps.

Lemma in_keys_finish u : keeps in_keys (finish_packet u).
Proof.
  unfold finish_packet, consume_incoming, consume_end_incoming, sshpkt_get_u8, take_incoming. keeps.
Qed.

(** After the last step of a packet its length is forgotten. *)
Definition last_part (type : Z) (n : Z) : M polled :=
  let! server := gets server_side in
  let! _r := mtry (if (type =? SSH2_MSG_USERAUTH_SUCCESS) && negb server
                   then ssh_packet_enable_delayed_compress else mret tt) in
  modify (set_packlen 0) ;; ssh_packet_check_rekey ;; mret (type, Some n).

Lemma last_part_packlen type n s p s' : last_part type n s = Ret p s' -> packlen s' = 0.
Proof.
  unfold last_part. intros H. run H. inv_bind H. run H. inv_bind H. injection H as _ <-.
  apply (keeps_ret_eq recv_state _ _ _ _ recv_check_rekey) in H1. unfold recv_state in H1. cbn in H1. congruence.
Qed.

Lemma finish_packlen u s p s' : finish_packet u s = Ret p s' -> packlen s' = 0.
Proof.
  unfold finish_packet. intros H. run H. destruct (_ && _); [done|]. run H.
  destruct (_ <? 4). { inv_bind H. inv_bind H. done. }
  inv_bind H. inv_bind H. inv_bind H. inv_bind H. destruct (_ || _). { inv_bind H. inv_bind H. done. }
  inv_bind H. exact (last_part_packlen _ _ _ _ _ H).
Qed.

(** ** Progress *)

(** What is left to do: the input, and a packet that was begun. *)
Definition pending (s : session) : nat := (length (input s) + if (packlen s =? 0)%Z then 0 else 1)%nat.

Lemma read_body_shrinks u len s type n s' : read_body u len s = Ret (type, n) s' ->
  type <> SSH_MSG_NONE ->
  su_aadlen u + needed u len + su_authlen u <= zlen (input s) /\
  (length (input s') <= length (input s) - Z.to_nat (su_aadlen u + needed u len + su_authlen u))%nat /\
  keys_of s' = keys_of s /\ packlen s' = 0.
Proof.
  unfold read_body. intros H Ht. destruct (negb (_ =? 0)).
  { inv_bind H. by injection H. }
  run H. destruct (_ <? _); [by injection H|].
  inv_bind H. destruct x. apply check_etm_ret in H0 as ->.
  inv_bind H. destruct x. apply decipher_ret in H0 as (Hl & Hi & Hk & Hp).
  inv_bind H. destruct x; [|by injection H]. apply check_mac_ret in H0 as (Hi2 & Hk2 & Hp2).
  pose proof (finish_packlen _ _ _ _ H) as P0.
  apply (keeps_ret_eq in_keys _ _ _ _ (in_keys_finish u)) in H. unfold in_keys in H. injection H as Hi3 Hk3.
  rewrite Hi3, Hk3, Hk2, Hk. split_and!; try done. cbn in Hi2. rewrite Hi, length_drop in Hi2. lia.
Qed.

(** The keys make sense of the input: their blocks are not empty. *)
Definition blocks_ok (s : session) : Prop :=
  0 < su_block_size (suite_of (newkeys_in s)) /\ 0 <= su_authlen (suite_of (newkeys_in s)).

Lemma blocks_ok_keys s s' : keys_of s' = keys_of s -> blocks_ok s -> blocks_ok s'.
Proof.
  unfold keys_of, blocks_ok. destruct (newkeys_in s) as [k|], (newkeys_in s') as [k'|]; intros Hk; try done.
  cbn in *. injection Hk as He _. by rewrite He.
Qed.

Lemma get_u8_ret s v s' : sshpkt_get_u8 s = Ret v s' -> in_keys s' = in_keys s.
Proof.
  assert (K : keeps in_keys sshpkt_get_u8) by (unfold sshpkt_get_u8, take_incoming; keeps).
  apply (keeps_ret_eq _ _ _ _ _ K).
Qed.

Lemma poll2_mux_shrinks s type n s' : ssh_packet_read_poll2_mux s = Ret (type, n) s' ->
  type <> SSH_MSG_NONE -> 0 <= packlen s ->
  (pending s' < pending s)%nat /\ keys_of s' = keys_of s /\ packlen s' = 0.
Proof.
  unfold ssh_packet_read_poll2_mux. intros H Ht Hp. run H. destruct (kex s); [done|]. run H.
  destruct ((packlen s =? 0) && (zlen (input s) <? 4 + 1)); [by injection H|].
  assert (L : exists s0, (if packlen s =? 0 then modify (set_packlen (PEEK_U32 (slice 0 4 (input s))))
                         else mret tt) s = Ret tt s0 /\ in_keys s0 = in_keys s /\
                         (packlen s <> 0 -> packlen s0 = packlen s)).
  { destruct (Z.eqb_spec (packlen s) 0); eexists; split_and!; try reflexivity. done. }
  destruct L as (s0 & E0 & Hi0 & Hk0). unfold mbind at 1 in H. rewrite E0 in H. run H.
  set (len := packlen s0) in *.
  destruct ((packlen s =? 0) && _) eqn:Hbad; [done|].
  destruct (Z.ltb_spec (zlen (input s)) (len + 4)) as [|Hl]; [by injection H|]. run H.
  assert (Hpos : 0 < len).
  { destruct (Z.eqb_spec (packlen s) 0) as [e|e]; [|rewrite (Hk0 e); lia].
    cbn [andb] in Hbad. apply orb_false_iff in Hbad as [Hbad _]. apply Z.ltb_ge in Hbad. lia. }
  inv_bind H. destruct x. apply put_incoming_ret in H0 as (w & ->).
  inv_bind H. destruct x. apply consume_input_ret in H0 as (_ & ->).
  inv_bind H. inv_bind H0. destruct x. injection H0 as <-. apply get_u8_ret in H1.
  inv_bind H. apply get_u8_ret in H0. run H. injection H as <- <- <-.
  unfold in_keys in *. cbn in *. injection Hi0 as Hi0 Hk1. injection H1 as Hi1 Hk2. injection H0 as Hi2 Hk3.
  split_and!; [|etrans; [exact Hk3|]; etrans; [exact Hk2|exact Hk1]|done].
  unfold pending. cbn. rewrite Hi2, Hi1, length_drop, Hi0. unfold zlen in Hl. lia.
Qed.

Lemma read_poll2_shrinks s type n s' : ssh_packet_read_poll2 s = Ret (type, n) s' ->
  type <> SSH_MSG_NONE -> 0 <= packlen s -> blocks_ok s ->
  (pending s' < pending s)%nat /\ blocks_ok s' /\ packlen s' = 0.
Proof.
  unfold ssh_packet_read_poll2. intros H Ht Hp Hb. run H. destruct (mux s).
  { destruct (poll2_mux_shrinks s type n s' H Ht Hp) as (H1 & H2 & H3).
    split_and!; [done|by apply (blocks_ok_keys s)|done]. }
  run H. destruct (negb _); [by injection H|]. run H. set (u := suite_of (newkeys_in s)) in *.
  inv_bind H. destruct x as [len|]; [|by injection H].
  apply read_length_ret in H0 as (Hk & _ & Hlen & Hc).
  apply read_body_shrinks in H as (Hl & Hi & Hk2 & Hp2); [|done].
  split_and!; [|apply (blocks_ok_keys s); [by rewrite Hk2|done]|done].
  unfold pending at 1. rewrite Hp2. cbn [Z.eqb]. unfold pending. rewrite Nat.add_0_r.
  destruct Hc as [[Hn ->]|(Hz & Hbl & Hc)].
  - apply Z.eqb_neq in Hn. rewrite Hn. lia.
  - rewrite Hz. cbn [Z.eqb]. rewrite Nat.add_0_r. unfold blocks_ok in Hb. fold u in Hb.
    destruct (Z.eqb_spec (su_aadlen u) 0) as [Ha|Ha].
    + destruct Hc as [Hbs Hc]. rewrite Hc, length_drop in Hi. unfold zlen in Hbs. lia.
    + rewrite Hc in Hi, Hl. unfold bad_length in Hbl. apply orb_false_iff in Hbl as [Hbl _].
      apply Z.ltb_ge in Hbl. unfold needed in Hi, Hl. apply Z.eqb_neq in Ha as Ha'. rewrite Ha' in Hi, Hl.
      cbn [negb] in Hi, Hl. unfold zlen in Hl. assert (0 <= su_aadlen u) by (unfold su_aadlen; destruct (_ || _); lia).
      lia.
Qed.

(** ** The loop over packets that are not given to the caller *)

Lemma get_string_in_keys : keeps in_keys sshpkt_get_string.
Proof. unfold sshpkt_get_string, take_incoming. keeps. Qed.

Lemma read_poll_round_shrinks s s' : read_poll_round s = Ret None s' -> 0 <= packlen s -> blocks_ok s ->
  (pending s' < pending s)%nat /\ blocks_ok s' /\ 0 <= packlen s'.
Proof.
  unfold read_poll_round. intros H Hp Hb. inv_bind H. destruct x as [type n]. cbn [fst] in H.
  assert (Ht : type <> SSH_MSG_NONE).
  { intros ->. cbn in H. by run H. }
  destruct (read_poll2_shrinks _ _ _ _ H0 Ht Hp Hb) as (H1 & H2 & H3).
  assert (K : keeps (fun s => (in_keys s, packlen s)) (
    (if negb (type =? 0) then modify (set_keep_alive_timeouts 0) else mret tt) ;;
  if type =? SSH2_MSG_IGNORE then mret None
  else if type =? SSH2_MSG_DEBUG then
    (let! _b := sshpkt_get_u8 in mret tt) ;;
    (let! _b := sshpkt_get_string in mret tt) ;;
    sshpkt_skip_string ;; mret None
  else if type =? SSH2_MSG_DISCONNECT then
    (let! _b := sshpkt_get_u32 in mret tt) ;;
    (let! _b := sshpkt_get_string in mret tt) ;;
    mfail SSH_ERR_DISCONNECTED
  else if type =? SSH2_MSG_UNIMPLEMENTED then
    (let! _b := sshpkt_get_u32 in mret tt) ;; mret None
  else mret (Some (type, n)))).
  { unfold sshpkt_get_u8, sshpkt_get_string, sshpkt_skip_string, sshpkt_get_u32, take_incoming. keeps. }
  apply (keeps_ret_eq _ _ _ _ _ K) in H. injection H as Hi Hk Hpl.
  split_and!; [unfold pending in *; by rewrite Hi, Hpl|by apply (blocks_ok_keys s0)|lia].
Qed.

Lemma read_poll_loop_more n1 : forall n2 s, (pending s < n1)%nat -> (n1 <= n2)%nat -> 0 <= packlen s -> blocks_ok s ->
  read_poll_loop n1 s = read_poll_loop n2 s.
Proof.
  induction n1 as [|n1 IH]; intros n2 s Hn Hle Hp Hb; [lia|]. destruct n2 as [|n2]; [lia|].
  cbn [read_poll_loop]. apply bind_ext. intros [p|] s1 H1; [done|].
  destruct (read_poll_round_shrinks _ _ H1 Hp Hb) as (H2 & H3 & H4). apply IH; (done || lia).
Qed.

End poll.

(** ** Input in pieces *)

Section pieces.
Context {C : Crypto} {E : Env}.

(** More bytes from the socket. *)
Definition more (v : bytes) (s : session) : session := set_input (input s ++ v) s.

(** A cipher that needs the length in clear is used with it in clear, as in the table. *)
Definition ctx_fits (s : session) : Prop := forall cc, receive_context s = Some cc ->
  has (c_flags (cc_cipher cc)) CFLAG_CHACHAPOLY = true -> su_aadlen (suite_of (newkeys_in s)) <> 0.

Lemma start_discard_ret enc mac already n s s' : n < 2 ^ 32 ->
  ssh_packet_start_discard enc mac already n s = Ret tt s' -> packet_discard s' <> 0.
Proof.
  intros Hn H. unfold ssh_packet_start_discard in H. destruct (_ || _). { inv_bind H. done. }
  inv_bind H. run H. pose proof (zlen_nonneg (input s0)).
  destruct (Z.geb_spec (zlen (input s0)) n).
  - unfold ssh_packet_stop_discard in H. run H. inv_bind H. done.
  - injection H as <-. cbn. rewrite u32_small by lia. lia.
Qed.

Lemma get_length_more cc n v w l cc' : cipher_get_length cc n v (zlen v) = (Ok l, cc') ->
  cipher_get_length cc n (v ++ w) (zlen (v ++ w)) = (Ok l, cc').
Proof.
  unfold cipher_get_length, chachapoly_get_length. rewrite zlen_app. pose proof (zlen_nonneg w).
  destruct (has _ _).
  - destruct (cc_cp cc) as [c|]; [|done].
    destruct (Z.ltb_spec (zlen v) 4); [done|]. destruct (Z.ltb_spec (zlen v + zlen w) 4); [lia|].
    by rewrite slice_prefix by lia.
  - destruct (Z.ltb_spec (zlen v) 4); [done|]. destruct (Z.ltb_spec (zlen v + zlen w) 4); [lia|].
    by rewrite slice_prefix by lia.
Qed.

Lemma get_length_err cc n v len e cc' : cipher_get_length cc n v len = (Err e, cc') -> cc' = cc.
Proof.
  unfold cipher_get_length, chachapoly_get_length. destruct (has _ _).
  - destruct (cc_cp cc) as [c|] eqn:Ec; [|by intros [= _ <-]].
    destruct (len <? 4); [|by destruct (chacha_encrypt_bytes _ _ _)].
    intros [= _ <-]. destruct cc; cbn in *. by rewrite Ec.
  - destruct (len <? 4); [|done]. by intros [= _ <-].
Qed.

Lemma put_incoming_more v q s : put_incoming q (more v s) =
  match put_incoming q s with Ret a s' => Ret a (more v s') | Fail e s' => Fail e (more v s')
  | Crash => Crash | Wait s' => Wait (more v s') end.
Proof.
  unfold put_incoming, buf_put, q_put. unfold mbind, gets, env, modify, mret, mfail. cbn.
  destruct (_ >? _); [done|]. change (world (more v s)) with (world s).
  by destruct (request_memory (world s)) as [[|] w].
Qed.

Lemma consume_input_more v n s s' : consume_input n s = Ret tt s' ->
  consume_input n (more v s) = Ret tt (more v s').
Proof.
  intros [Hl ->]%consume_input_ret. unfold consume_input, mbind, gets, lift, buf_consume, more. cbn.
  rewrite zlen_app. pose proof (zlen_nonneg v).
  destruct (Z.ltb_spec (zlen (input s) + zlen v) n); [lia|].
  unfold mret, modify. by rewrite drop_app_le by (unfold zlen in *; lia).
Qed.

Lemma read_length_more u v len s s1 : read_length u s = Ret (Some len) s1 -> ctx_fits s ->
  u = suite_of (newkeys_in s) -> 0 < su_block_size u ->
  read_length u (more v s) = Ret (Some len) (more v s1).
Proof.
  intros H Hfit Hu Hbs. unfold read_length in *. run H. unfold mbind at 1, gets at 1.
  change (packlen (more v s)) with (packlen s).
  destruct (negb (packlen s =? 0)); [by injection H as <- <-|]. run H. unfold mbind at 1, gets at 1.
  change (input (more v s)) with (input s ++ v). destruct (negb (su_aadlen u =? 0)) eqn:Ha.
  - inv_bind H. unfold deref in H0. destruct (receive_context s) as [cc|] eqn:Ec; [|done].
    injection H0 as <- <-. run H. unfold mbind at 1, deref.
    change (receive_context (more v s)) with (receive_context s). rewrite Ec.
    unfold mbind at 1, gets at 1. change (seqnr (p_read (more v s))) with (seqnr (p_read s)).
    destruct (cipher_get_length cc _ _ _) as [[l|e] cc'] eqn:Eg; run H; [|done].
    rewrite (get_length_more _ _ _ v _ _ Eg). unfold mbind at 1, modify at 1. unfold mbind at 1, modify at 1.
    destruct (bad_length l). { inv_bind H. done. }
    run H. by injection H as <- <-.
  - apply negb_false_iff, Z.eqb_eq in Ha.
    destruct (Z.ltb_spec (zlen (input s)) (su_block_size u)) as [|Hl]; [done|].
    rewrite zlen_app. pose proof (zlen_nonneg v) as Hv.
    destruct (Z.ltb_spec (zlen (input s) + zlen v) (su_block_size u)) as [|_]; [lia|]. run H.
    unfold mbind at 1, modify at 1. unfold mbind at 1, gets at 1.
    change (set_incoming_packet [] (more v s)) with (more v (set_incoming_packet [] s)).
    change (world (more v ?x)) with (world x).
    inv_bind H. destruct x. unfold mbind at 1. rewrite put_incoming_more, H0.
    apply put_incoming_ret in H0 as (w & ->). inv_bind H. unfold deref in H0.
    destruct (receive_context _) as [cc|] eqn:Ec; [|done]. injection H0 as <- <-. run H.
    unfold mbind at 1, deref.
    change (receive_context (more v ?x)) with (receive_context x). rewrite Ec.
    unfold mbind at 1, gets at 1. change (p_send (more v ?x)) with (p_send x).
    assert (Hcc : has (c_flags (cc_cipher cc)) CFLAG_CHACHAPOLY = false).
    { destruct (has (c_flags (cc_cipher cc)) CFLAG_CHACHAPOLY) eqn:Hf; [|done].
      exfalso. apply (Hfit cc Ec Hf). by rewrite <- Hu. }
    rewrite crypt_prefix by (by rewrite ?Hcc || lia).
    destruct (cipher_crypt cc _ _ _ _ _) as [[first|e] cc']; [|run H; done].
    cbn [lift] in *. run H. unfold mbind at 1, modify at 1. unfold mbind at 1, mret at 1.
    unfold mbind at 1, modify at 1. unfold mbind at 1, modify at 1.
    destruct (bad_length _). { inv_bind H. by injection H. }
    inv_bind H. destruct x. injection H as <- <-. apply (consume_input_more v) in H0.
    exact (f_equal (fun o => match o with Ret _ s' => Ret _ s' | Fail e s' => Fail e s'
                             | Crash => Crash | Wait s' => Wait s' end) H0).
Qed.

(** Without a length, nothing has changed. *)
Lemma read_length_none u s s1 : read_length u s = Ret None s1 ->
  packet_discard s1 = 0 -> s1 = s.
Proof.
  intros H Hd. unfold read_length in *. run H. destruct (negb (packlen s =? 0)); [by injection H|].
  run H. destruct (negb (su_aadlen u =? 0)).
  - inv_bind H. unfold deref in H0. destruct (receive_context s) as [cc|] eqn:Ec; [|done].
    injection H0 as <- <-. run H. destruct (cipher_get_length cc _ _ _) as [[l|e] cc'] eqn:Eg; run H.
    + destruct (bad_length l); [inv_bind H; done|]. run H. by injection H.
    + apply get_length_err in Eg as ->. injection H as <-. destruct s; cbn in *. by rewrite Ec.
  - destruct (_ <? _); [by injection H|]. run H. inv_bind H. inv_bind H. run H.
    destruct (cipher_crypt _ _ _ _ _ _) as [[first|e] cc']; [|run H; done].
    cbn [lift] in H. run H. destruct (bad_length _); inv_bind H; [|by injection H].
    destruct x1. apply start_discard_ret in H2; [|done]. injection H as <-. done.
Qed.

Lemma check_mac_false u need s s1 : check_mac u need s = Ret false s1 -> packet_discard s1 <> 0.
Proof.
  unfold check_mac. intros H. destruct (su_mac_on u) as [m|]; [|done]. run H.
  destruct (if mac_etm m then None else _) as [e|]; [|inv_bind H; done].
  destruct e; try done. destruct (_ >? _); [done|]. inv_bind H. destruct x.
  injection H as <-. apply start_discard_ret in H0; [done|]. apply (wrap_range 32). lia.
Qed.

Lemma finish_packet_some u s p s1 : finish_packet u s = Ret p s1 -> p <> no_packet.
Proof.
  unfold finish_packet. intros H. run H. destruct (_ && _); [done|]. run H.
  destruct (_ <? 4). { inv_bind H. inv_bind H. done. }
  inv_bind H. inv_bind H. inv_bind H. inv_bind H. destruct (_ || _). { inv_bind H. inv_bind H. done. }
  inv_bind H. run H. inv_bind H. run H. inv_bind H. by injection H as <- _.
Qed.

Lemma read_body_none u len s s1 : read_body u len s = Ret no_packet s1 -> 0 < su_block_size u ->
  packet_discard s1 = 0 -> s1 = s.
Proof.
  unfold read_body. intros H Hb Hd. destruct (negb (_ =? 0)).
  { inv_bind H. destruct x. injection H as <-.
    apply start_discard_ret in H0; [done|]. unfold PACKET_MAX_SIZE. lia. }
  run H. destruct (_ <? _); [by injection H|]. inv_bind H. destruct x. apply check_etm_ret in H0 as ->.
  inv_bind H. inv_bind H. destruct x0.
  - by apply finish_packet_some in H.
  - injection H as <-. by apply check_mac_false in H1.
Qed.

Lemma bad_length_pos len : bad_length len = false -> len <> 0.
Proof. unfold bad_length. intros [H _]%orb_false_iff. apply Z.ltb_ge in H. lia. Qed.

Lemma read_poll2_body s : mux s = false -> packet_discard s = 0 ->
  let u := suite_of (newkeys_in s) in
  ssh_packet_read_poll2 s =
    mbind (read_length u) (fun len => match len with None => mret no_packet | Some len => read_body u len end) s.
Proof.
  intros Hm Hd u. unfold ssh_packet_read_poll2, mbind at 1, gets at 1. rewrite Hm.
  unfold mbind at 1, gets at 1. by rewrite Hd.
Qed.

Lemma read_poll2_again s s1 v : mux s = false -> packet_discard s = 0 -> blocks_ok s -> ctx_fits s ->
  ssh_packet_read_poll2 s = Ret no_packet s1 -> packet_discard s1 = 0 ->
  ssh_packet_read_poll2 (more v s) = ssh_packet_read_poll2 (more v s1).
Proof.
  intros Hm Hd [Hb _] Hfit H Hd1. unfold ssh_packet_read_poll2 in H. run H. rewrite Hm in H. run H.
  rewrite Hd in H. cbn [Z.eqb negb] in H. run H. set (u := suite_of (newkeys_in s)) in *.
  inv_bind H. destruct x as [len|].
  2: { injection H as <-. by rewrite (read_length_none _ _ _ H0 Hd1). }
  pose proof (read_body_none _ _ _ _ H Hb Hd1) as ->.
  pose proof (read_length_more u v len s s0 H0 Hfit eq_refl Hb) as Hmore.
  apply read_length_ret in H0 as (_ & Hf & Hlen & Hc). injection Hf as Hn0 Hm0 Hd0.
  assert (Hne : len <> 0).
  { destruct Hc as [[Hne E0]|(_ & Hne & _)]; [rewrite <- Hlen, E0; done|by apply bad_length_pos]. }
  assert (Hknown : read_length u (more v s0) = Ret (Some len) (more v s0)).
  { unfold read_length, mbind, gets. change (packlen (more v s0)) with (packlen s0).
    rewrite Hlen. by apply Z.eqb_neq in Hne as ->. }
  rewrite (read_poll2_body (more v s) Hm Hd), (read_poll2_body (more v s0) (eq_trans Hm0 Hm) (eq_trans Hd0 Hd)).
  change (newkeys_in (more v ?x)) with (newkeys_in x). rewrite Hn0. fold u.
  unfold mbind. by rewrite Hmore, Hknown.
Qed.
End pieces.

(** Claim C15: the packets that are read do not depend on how the input was cut: when the
    bytes received so far hold no whole packet, what is read after more of them have come is
    what would have been read had they all come at once, in the same state. *)
Theorem read_poll2_in_pieces {C : Crypto} {E : Env} s s1 v
    (Hm : mux s = false) (Hd : packet_discard s = 0) (Hb : blocks_ok s) (Hc : ctx_fits s)
    (H : ssh_packet_read_poll2 s = Ret no_packet s1) (Hd1 : packet_discard s1 = 0) :
  ssh_packet_read_poll2 (more v s) = ssh_packet_read_poll2 (more v s1).
Proof. by apply read_poll2_again. Qed.



(** An IGNORE, then a packet for the caller. *)
Definition two_packets : session :=
  set_input (POKE_U32 12 ++ [byte_of_Z 6; x02; x00; x00; x00; x00] ++ zeros 6 ++
             POKE_U32 12 ++ [byte_of_Z 9; byte_of_Z 94; x07] ++ zeros 9)
    (match ssh_packet_set_connection (ssh_alloc_session_state tt) with
     | Some s => s | None => ssh_alloc_session_state tt end).


(** The first eleven bytes, then the others. *)
Definition first_piece : session := set_input (take 11 (input two_packets)) two_packets.
Definition after_first_piece : session :=
  match ssh_packet_read_poll2 first_piece with Ret _ s => s | _ => first_piece end.

Lemma read_poll2_in_pieces_witness : packlen after_first_piece = 12 /\
  ssh_packet_read_poll2 (more (drop 11 (input two_packets)) first_piece) =
  ssh_packet_read_poll2 (more (drop 11 (input two_packets)) after_first_piece).
Proof.
  split; [vm_compute; reflexivity|]. apply read_poll2_in_pieces; try (vm_compute; reflexivity).
  - vm_compute. split; congruence.
  - intros cc [= <-]. vm_compute. congruence.
Defined.
