(* ===== verification/PacketLink.v ===== *)
(** What one end of a connection sends, the other reads: for any cipher that provides the
    interface [PacketCipher] of CipherLink, with a MAC before or after enciphering, or
    with an authenticating cipher. *)

From S2P Require Import Prelude SshErr Wire SshQueue Compat CompatThms.
From S2P Require Import ChaCha ChachaPoly Digest SshCipher CipherLink Packet PacketSend Plain PacketRead.
From S2P Require Import PacketFrame PacketBounds PacketPoll.

(** ** The environment *)

(** Memory is not short, and the random number generator fills what it is asked to fill. *)
Class EnvLaws {E : Env} := {
  memory w : fst (request_memory w) = true;
  random_length n w : 0 <= n -> zlen (fst (arc4random_buf n w)) = n;
  reserved_length n w : 0 <= n -> zlen (uninitialised n w) = n
}.

#[export] Instance plain_env_laws : @EnvLaws plain_env.
Proof. split; [done| |]; intros n w Hn; by apply zlen_zeros. Qed.

Section link.
Context {C : Crypto} {E : Env} {L : EnvLaws}.
Context {linked : sshcipher_ctx -> sshcipher_ctx -> Prop} {PC : PacketCipher linked}.

(** ** Two ends *)

(** A MAC that always gives a tag of its length. *)
Definition mac_good (m : sshmac) : Prop := 0 <= mac_len m <= SSH_DIGEST_MAX_LENGTH /\
  forall n d, exists tag, mac_compute m n d SSH_DIGEST_MAX_LENGTH = Ok tag /\ zlen tag = mac_len m.

(** What a MAC computes, and what a packet looks like under the keys of a direction: the
    state of the keys themselves (the name of a cipher, the iv it began with) is not part
    of it. *)
Definition mac_view (m : sshmac) :=
  (mac_len m, mac_type m, mac_etm m, hmac_alg m, mac_ctx_key m).
Definition suite_view (u : suite) :=
  (su_block_size u, option_map mac_view (su_mac_on u), su_comp_on u, su_authlen u).

Record linked_ends (s r : session) : Prop := {
  le_suite : suite_view (suite_of (newkeys_out s)) = suite_view (suite_of (newkeys_in r));
  le_comp : su_comp_on (suite_of (newkeys_in r)) = false;
  le_mac : forall m, su_mac_on (suite_of (newkeys_in r)) = Some m -> mac_good m;
  le_seq : seqnr (p_send s) = seqnr (p_read r) /\ 0 <= seqnr (p_read r) < 2 ^ 32;
  le_ctx : exists cs cr, send_context s = Some cs /\ receive_context r = Some cr /\ linked cs cr /\
    su_block_size (suite_of (newkeys_in r)) = c_block_size (cc_cipher cs) /\
    su_authlen (suite_of (newkeys_in r)) = cipher_authlen (cc_cipher cs)
}.

(** ** The sender *)

Lemma buf_put_ret q v s q' s' : buf_put q v s = Ret q' s' ->
  q' = q ++ v /\ exists w, s' = set_world w s.
Proof.
  unfold buf_put, q_put. destruct (_ >? _); [done|]. intros H. inv_bind H. unfold env in H0.
  destruct (request_memory (world s)) as [ok w]. injection H0 as <- <-. destruct ok; [|done].
  injection H as <- <-. eauto.
Qed.

(** A packet as it is before it is enciphered. *)
Definition framed (padlen : Z) (payload pad : bytes) : bytes :=
  POKE_U32 (u32 (1 + zlen payload + padlen)) ++ [byte_of_Z padlen] ++ payload ++ pad.

Lemma set_header_framed padlen payload pad : zlen pad = padlen ->
  set_header padlen ((zeros 5 ++ payload) ++ pad) = framed padlen payload pad.
Proof.
  intros Hp. unfold set_header, framed. rewrite !zlen_app, zlen_zeros by lia. rewrite Hp.
  replace (5 + zlen payload + padlen - 4) with (1 + zlen payload + padlen) by lia.
  rewrite <- app_assoc. reflexivity.
Qed.

Lemma pad_outgoing_ret u payload s s' : pad_outgoing u s = Ret tt s' ->
  outgoing_packet s = zeros 5 ++ payload ->
  exists padlen left_ pad, padding (su_block_size u) (u32 (u32 (5 + zlen payload) - su_aadlen u)) (extra_pad s)
      = (Some padlen, left_) /\ (0 <= padlen -> zlen pad = padlen /\
    outgoing_packet s' = framed padlen payload pad).
Proof.
  unfold pad_outgoing. intros H Ho. run H. rewrite Ho, zlen_app, zlen_zeros in H by lia.
  destruct (padding _ _ _) as [[padlen|] left_] eqn:Ep; run H; [|done].
  exists padlen, left_. inv_bind H. destruct x.
  assert (P1 : outgoing_packet s0 = (zeros 5 ++ payload) ++ zeros padlen).
  { unfold put_outgoing in H0. run H0. inv_bind H0. apply buf_put_ret in H1 as (-> & w & ->).
    injection H0 as <-. cbn. by rewrite Ho. }
  clear H0. inv_bind H. destruct x. injection H as <-. cbn [outgoing_packet set_outgoing_packet].
  destruct (bool_decide _).
  2: { injection H0 as <-. exists (zeros padlen). split; [done|]. intros Hp0. rewrite P1.
       split; [by apply zlen_zeros|]. apply set_header_framed. by apply zlen_zeros. }
  inv_bind H0. unfold deref in H. destruct (send_context s0) as [cc|]; [|done]. injection H as <- <-.
  destruct (negb (cipher_ctx_is_plaintext cc)).
  2: { injection H0 as <-. exists (zeros padlen). split; [done|]. intros Hp0. rewrite P1.
       split; [by apply zlen_zeros|]. apply set_header_framed. by apply zlen_zeros. }
  inv_bind H0. unfold env in H. pose proof (random_length padlen (world s0)) as Hr.
  destruct (arc4random_buf padlen (world s0)) as [pad w]. injection H as <- <-.
  injection H0 as <-. exists pad. split; [done|]. intros Hp0. cbn. split; [by apply Hr|].
  cbn. rewrite Ho. by apply set_header_framed, Hr.
Qed.

Definition send_keys (s : session) := (output s, seqnr (p_send s), send_context s, newkeys_out s).

Lemma pad_outgoing_keys u : keeps send_keys (pad_outgoing u).
Proof. unfold pad_outgoing, put_outgoing, buf_put. keeps. Qed.

(** The tag that goes with a packet. *)
Definition is_tag (u : suite) (n : Z) (p dest tag : bytes) : Prop :=
  match su_mac_on u with
  | None => tag = []
  | Some m => mac_compute m n (if mac_etm m then slice 0 (zlen p) dest else p) SSH_DIGEST_MAX_LENGTH = Ok tag
  end.

Lemma mac_compute_view m m' : mac_view m = mac_view m' -> mac_compute m = mac_compute m'.
Proof. unfold mac_view. intros [= H1 H2 H3 H4 H5]. unfold mac_compute. by rewrite H1, H2, H4, H5. Qed.

(** Suites with the same view give the same packets. *)
Lemma suite_view_facts u v : suite_view u = suite_view v ->
  su_block_size u = su_block_size v /\ su_authlen u = su_authlen v /\ su_comp_on u = su_comp_on v /\
  su_aadlen u = su_aadlen v /\ forall n p dest tag, is_tag u n p dest tag -> is_tag v n p dest tag.
Proof.
  unfold suite_view. intros [= H1 H2 H3 H4]. unfold su_aadlen, su_etm, is_tag. rewrite H4.
  destruct (su_mac_on u) as [m|], (su_mac_on v) as [m'|]; try done.
  assert (V : mac_view m = mac_view m') by (cbn in H2; congruence).
  assert (Ee : mac_etm m = mac_etm m') by (unfold mac_view in V; congruence).
  rewrite Ee, (mac_compute_view _ _ V). done.
Qed.

Lemma mac_of_ret u etm n d s tag s' : mac_of u etm n d s = Ret tag s' -> s' = s /\
  match su_mac_on u with
  | Some m => if eqb (mac_etm m) etm then mac_compute m n d SSH_DIGEST_MAX_LENGTH = Ok tag else tag = []
  | None => tag = []
  end.
Proof.
  unfold mac_of. intros H. destruct (su_mac_on u) as [m|]; [|by injection H as <- <-].
  destruct (eqb _ _); [|by injection H as <- <-].
  destruct (mac_compute _ _ _ _); [|done]. by injection H as <- <-.
Qed.

Lemma put_output_ret v s s' : put_output v s = Ret tt s' ->
  exists w, s' = set_output (output s ++ v) (set_world w s).
Proof.
  unfold put_output. intros H. run H. inv_bind H. apply buf_put_ret in H0 as (-> & w & ->).
  injection H as <-. by exists w.
Qed.

Lemma seal_outgoing_ret u s s' : seal_outgoing u s = Ret tt s' ->
  let p := outgoing_packet s in let n := seqnr (p_send s) in
  exists cs cs' dest tag, send_context s = Some cs /\
    cipher_crypt cs n p (zlen p - su_aadlen u) (su_aadlen u) (su_authlen u) = (Ok dest, cs') /\
    is_tag u n p dest tag /\ send_keys s' = (output s ++ dest ++ tag, n, Some cs', newkeys_out s).
Proof.
  intros H p n. unfold seal_outgoing in H. run H. fold p n in H.
  inv_bind H. apply mac_of_ret in H0 as [-> Hm1]. run H. inv_bind H. destruct x0.
  apply put_output_ret in H0 as (w & ->). inv_bind H. unfold deref in H0. cbn in H0.
  destruct (send_context s) as [cs|] eqn:Ec; [|done]. injection H0 as <- <-.
  destruct (cipher_crypt _ _ _ _ _ _) as [[dest|e] cs'] eqn:Ed; run H; [|done]. cbn [lift] in H. run H.
  inv_bind H. apply mac_of_ret in H0 as [-> Hm2]. exists cs, cs', dest. unfold is_tag.
  destruct (su_mac_on u) as [m|] eqn:Em.
  - rewrite bool_decide_eq_true_2 in H by eauto. apply put_output_ret in H as (w' & ->).
    exists (x ++ x0). unfold send_keys. cbn. split_and!; [done|done| |by rewrite <- app_assoc].
    destruct (mac_etm m); cbn in Hm1, Hm2; subst; [done|by rewrite app_nil_r].
  - rewrite bool_decide_eq_false_2 in H by (by intros [? ?]). injection H as <-.
    exists []. rewrite app_nil_r. done.
Qed.

Lemma count_outgoing_ret u s s' : count_outgoing u s = Ret tt s' ->
  send_keys s' = (output s, u32 (seqnr (p_send s) + 1), send_context s, newkeys_out s).
Proof. unfold count_outgoing. intros H. run H. destruct (_ && _); [done|]. run H. by injection H as <-. Qed.

(** The packets that change nothing in their sender. *)
Definition plain_type (type : Z) : Prop := type <> SSH2_MSG_NEWKEYS /\ type <> SSH2_MSG_USERAUTH_SUCCESS.

Lemma after_packet_ret type s s' : plain_type type -> after_packet type s = Ret tt s' -> s' = s.
Proof.
  intros [H1 H2] H. unfold after_packet in H. run H. apply Z.eqb_neq in H1, H2. rewrite H1, H2 in H.
  by injection H.
Qed.

(** What a packet becomes on the wire. *)
Lemma wrapped_wire payload s s' : ssh_packet_send2_wrapped s = Ret tt s' ->
  outgoing_packet s = zeros 5 ++ payload -> plain_type (at_ (outgoing_packet s) 5) ->
  let u := suite_of (newkeys_out s) in su_comp_on u = false ->
  let n := seqnr (p_send s) in
  exists padlen left_ pad, padding (su_block_size u) (u32 (u32 (5 + zlen payload) - su_aadlen u)) (extra_pad s)
      = (Some padlen, left_) /\ (0 <= padlen -> zlen pad = padlen /\
   let p := framed padlen payload pad in
   exists cs cs' dest tag, send_context s = Some cs /\
    cipher_crypt cs n p (zlen p - su_aadlen u) (su_aadlen u) (su_authlen u) = (Ok dest, cs') /\
    is_tag u n p dest tag /\ send_keys s' = (output s ++ dest ++ tag, u32 (n + 1), Some cs', newkeys_out s)).
Proof.
  intros H Ho Ht u Hc n. unfold ssh_packet_send2_wrapped in H. run H. fold u in H. rewrite Hc in H. run H.
  inv_bind H. destruct x. pose proof (keeps_ret_eq _ _ _ _ _ (pad_outgoing_keys u) H0) as Hk.
  apply (pad_outgoing_ret u payload) in H0 as (padlen & left_ & pad & Hp & Hf); [|done].
  exists padlen, left_, pad. split; [done|]. intros Hp0. destruct (Hf Hp0) as [Hl Hf']. split; [done|].
  inv_bind H. destruct x. apply seal_outgoing_ret in H0 as (cs & cs' & dest & tag & Ec & Ed & Etag & Es).
  unfold send_keys in Hk. injection Hk as K1 K2 K3 K4. rewrite Hf', K2 in Ed. rewrite Hf', K2 in Etag.
  rewrite K1, K4, K2 in Es. rewrite K3 in Ec.
  run H. inv_bind H. destruct x. apply count_outgoing_ret in H0. apply after_packet_ret in H as ->; [|done].
  exists cs, cs', dest, tag. split_and!; [done|done|done|].
  rewrite H0. unfold send_keys in Es. cbn in *. injection Es as -> -> -> ->. done.
Qed.

(** ** The receiver *)

Lemma mac_check_good m n d tag tail : mac_good m ->
  mac_compute m n d SSH_DIGEST_MAX_LENGTH = Ok tag -> mac_check m n d (tag ++ tail) (mac_len m) = None.
Proof.
  intros [Hl Hg] Hc. unfold mac_check. rewrite Z.gtb_ltb, Z.ltb_irrefl, Hc.
  destruct (Hg n d) as (tag' & Hc' & Ht). rewrite Hc in Hc'. injection Hc' as <-.
  pose proof (zlen_nonneg tail). rewrite timingsafe_bcmp_spec by (rewrite ?zlen_app; lia).
  rewrite <- Ht. unfold zlen. rewrite Nat2Z.id, take_app_length.
  rewrite bool_decide_eq_true_2; [done|]. apply take_ge. lia.
Qed.

Lemma tag_length u n p dest tag : (forall m, su_mac_on u = Some m -> mac_good m) ->
  is_tag u n p dest tag -> zlen tag = su_maclen u.
Proof.
  unfold is_tag, su_maclen. intros Hg H. destruct (su_mac_on u) as [m|]; [|by subst].
  destruct (Hg m eq_refl) as [_ Hm]. destruct (Hm n (if mac_etm m then slice 0 (zlen p) dest else p)) as (t & Ht & <-).
  rewrite H in Ht. by injection Ht as ->.
Qed.

(** A suite has a MAC or a cipher that authenticates, not both. *)
Definition suite_ok (u : suite) : Prop := forall m, su_mac_on u = Some m -> su_authlen u = 0.

Lemma suite_of_ok k : suite_ok (suite_of k).
Proof.
  intros m. destruct k as [k|]; [|done]. unfold su_mac_on. cbn.
  destruct (Z.eqb_spec (cipher_authlen (enc_cipher (nk_enc k))) 0); done.
Qed.

Lemma put_incoming_ok v s : zlen (incoming_packet s) + zlen v <= SSHBUF_SIZE_MAX ->
  exists w, put_incoming v s = Ret tt (set_incoming_packet (incoming_packet s ++ v) (set_world w s)).
Proof.
  intros Hl. unfold put_incoming, buf_put, q_put. unfold mbind at 1, gets at 1.
  destruct (Z.gtb_spec (zlen (incoming_packet s) + zlen v) SSHBUF_SIZE_MAX); [lia|].
  pose proof (memory (world s)) as Hm. unfold mbind, env.
  destruct (request_memory (world s)) as [ok w]. cbn in Hm. subst ok. by exists w.
Qed.

Lemma consume_input_app v tail s : input s = v ++ tail ->
  consume_input (zlen v) s = Ret tt (set_input tail s).
Proof.
  intros Hi. unfold consume_input, mbind, gets, lift, buf_consume. rewrite Hi, zlen_app.
  pose proof (zlen_nonneg tail). destruct (Z.ltb_spec (zlen v + zlen tail) (zlen v)); [lia|].
  unfold zlen. by rewrite Nat2Z.id, drop_app_length.
Qed.

(** What reading a packet does not change before it is finished. *)
Definition recv_rest (s : session) :=
  (p_read s, newkeys_in s, compat s, server_side s, mux s, packet_discard s, after_authentication s,
   ssh_packet_is_rekeying s).

(** The state in which the deciphered packet is finished. *)
Definition deciphered (r : session) (p tail : bytes) (cr : sshcipher_ctx) (r' : session) : Prop :=
  incoming_packet r' = p /\ input r' = tail /\ packlen r' = zlen p - 4 /\
  receive_context r' = Some cr /\ recv_rest r' = recv_rest r.

Lemma decipher_ok u (r : session) v p q tail cr cr' need :
  input r = v ++ tail -> zlen v = su_aadlen u + need + su_authlen u -> 0 <= need -> 0 <= su_authlen u ->
  su_aadlen u = 0 \/ su_aadlen u = 4 ->
  (has (c_flags (cc_cipher cr)) CFLAG_CHACHAPOLY = true -> su_authlen u = 16) ->
  zlen (incoming_packet r) + (su_aadlen u + need) <= SSHBUF_SIZE_MAX -> incoming_packet r ++ q = p ->
  receive_context r = Some cr ->
  cipher_crypt cr (seqnr (p_read r)) v need (su_aadlen u) (su_authlen u) = (Ok q, cr') ->
  exists w, decipher u (input r) need r =
    Ret tt (set_input tail (set_incoming_packet p (set_receive_context (Some cr') (set_world w r)))).
Proof.
  intros Hi Hv Hn Hau Haad Hfl Hsz Hq Hc Hcr. unfold decipher. unfold mbind at 1, gets at 1.
  unfold mbind at 1, gets at 1. unfold mbind at 1, gets at 1.
  destruct (put_incoming_ok (uninitialised (su_aadlen u + need) (world r)) r) as [w Hw].
  { rewrite reserved_length; lia. }
  exists w. unfold mbind at 1. rewrite Hw. unfold mbind at 1, deref.
  cbn [receive_context set_incoming_packet set_world]. rewrite Hc, Hi, crypt_prefix by (done || lia). rewrite Hcr.
  unfold mbind at 1, modify at 1, mbind at 1, lift, mret, mbind at 1, modify at 1. rewrite Hq, <- Hv.
  by rewrite (consume_input_app v tail) by done.
Qed.

Lemma check_mac_ok u r need p tag tail : (forall m, su_mac_on u = Some m -> mac_good m) ->
  incoming_packet r = p -> input r = tag ++ tail ->
  (forall dest, su_etm u = false -> is_tag u (seqnr (p_read r)) p dest tag) -> zlen tag = su_maclen u ->
  check_mac u need r = Ret true (set_input tail r).
Proof.
  intros Hg Hp Hi Ht Hl. unfold check_mac. unfold is_tag, su_etm, su_maclen in *.
  destruct (su_mac_on u) as [m|].
  2: { apply zlen_0_nil in Hl as ->. cbn in Hi. rewrite <- Hi. by destruct r. }
  unfold mbind at 1, gets at 1. unfold mbind at 1, gets at 1. unfold mbind at 1, gets at 1. rewrite Hp, Hi.
  assert (Hc : (if mac_etm m then None else mac_check m (seqnr (p_read r)) p (tag ++ tail) (mac_len m)) = None).
  { destruct (mac_etm m); [done|]. apply mac_check_good; [by apply Hg|by apply (Ht [])]. }
  rewrite Hc. unfold mbind. by rewrite <- Hl, (consume_input_app tag tail).
Qed.

Lemma check_etm_ok u r need dest tag tail p : (forall m, su_mac_on u = Some m -> mac_good m) -> suite_ok u ->
  zlen p = su_aadlen u + need -> 0 <= need -> zlen dest = zlen p + su_authlen u ->
  is_tag u (seqnr (p_read r)) p dest tag -> zlen tag = su_maclen u ->
  check_etm u (dest ++ tag ++ tail) need r = Ret tt r.
Proof.
  intros Hg Hok Hp Hn Hd Ht Hl. unfold check_etm, is_tag in *. specialize (Hok).
  destruct (su_mac_on u) as [m|] eqn:Em; [|done]. destruct (mac_etm m); [|done].
  unfold mbind, gets. rewrite (Hok m Em) in *. rewrite Z.add_0_r in *. rewrite <- Hp, <- Hd.
  rewrite (slice_app_l (zlen dest)) by done.
  assert (Edrop : drop (Z.to_nat (zlen dest)) (dest ++ tag ++ tail) = tag ++ tail).
  { unfold zlen. by rewrite Nat2Z.id, drop_app_length. }
  rewrite Edrop, mac_check_good; [done|by apply Hg|]. rewrite <- Hd in Ht. by rewrite slice_all in Ht.
Qed.

(** The parts of [linked_ends] for a suite and two contexts. *)
Definition fits (u : suite) (cs : sshcipher_ctx) : Prop :=
  su_block_size u = c_block_size (cc_cipher cs) /\ su_authlen u = cipher_authlen (cc_cipher cs).

Lemma aadlen_cases u : su_aadlen u = 0 \/ su_aadlen u = 4.
Proof. unfold su_aadlen. destruct (_ || _); auto. Qed.

Lemma aadlen_0 u : su_aadlen u = 0 -> su_authlen u = 0 /\ su_etm u = false.
Proof.
  unfold su_aadlen. destruct (su_etm u); [done|]. destruct (Z.eqb_spec (su_authlen u) 0); done.
Qed.

(** A length in clear: enciphered with its own stream or not at all. *)
Lemma read_aad u r cs cr p dest cs' tag tail (HL : linked cs cr) (Hfit : fits u cs) (Ha : su_aadlen u = 4)
    (Hok : suite_ok u) (Hg : forall m, su_mac_on u = Some m -> mac_good m)
    (Hpk : packlen r = 0) (Hcr : receive_context r = Some cr) (Hseq : 0 <= seqnr (p_read r))
    (Hlen : 5 <= zlen p - 4 <= PACKET_MAX_SIZE) (Hmod : (zlen p - 4) mod su_block_size u = 0)
    (Hhd : slice 0 4 p = POKE_U32 (zlen p - 4))
    (Hd : cipher_crypt cs (seqnr (p_read r)) p (zlen p - 4) 4 (su_authlen u) = (Ok dest, cs'))
    (Ht : is_tag u (seqnr (p_read r)) p dest tag) (Hi : input r = dest ++ tag ++ tail) :
  exists cr' r', linked cs' cr' /\ deciphered r p tail cr' r' /\
    mbind (read_length u) (fun len => match len with None => mret no_packet | Some len => read_body u len end) r =
    finish_packet u r'.
Proof.
  destruct Hfit as [Hbs Hau]. pose proof (link_same _ _ HL) as (Hcc & Hb & Hauth & Hfl).
  destruct (link_aad cs cr (seqnr (p_read r)) p (zlen p - 4)) as (c & s' & r1 & r2 & E1 & E2 & E3 & E4 & E5);
    [done|done|lia|lia|by rewrite <- Hbs|]. rewrite <- Hau in E1, E2, E4. rewrite Hd in E1. injection E1 as <- <-.
  pose proof (tag_length _ _ _ _ _ Hg Ht) as Htl. set (len := zlen p - 4) in *.
  assert (Hau0 : 0 <= su_authlen u) by lia.
  set (ra := set_incoming_packet [] (set_packlen len (set_receive_context (Some r1) r))).
  assert (HR : read_length u r = Ret (Some len) ra).
  { unfold read_length. unfold mbind at 1, gets at 1. rewrite Hpk. cbn [Z.eqb negb].
    unfold mbind at 1, gets at 1. rewrite Ha. cbn [Z.eqb negb]. unfold mbind at 1, deref. rewrite Hcr.
    unfold mbind at 1, gets at 1. rewrite Hi, E3, Hhd, PEEK_POKE_U32, u32_small by (unfold PACKET_MAX_SIZE in *; lia).
    unfold mbind at 1, modify at 1, mbind at 1, modify at 1. unfold bad_length.
    destruct (Z.ltb_spec len (1 + 4)); [lia|]. rewrite Z.gtb_ltb.
    destruct (Z.ltb_spec PACKET_MAX_SIZE len); [lia|]. done. }
  assert (Hc1 : has (c_flags (cc_cipher r1)) CFLAG_CHACHAPOLY = true -> su_authlen u = 16).
  { pose proof (get_length_cipher cr (seqnr (p_read r)) (dest ++ []) (zlen (dest ++ []))) as Hk.
    rewrite E3 in Hk. cbn in Hk. rewrite Hk, <- Hcc, Hau. exact Hfl. }
  destruct (decipher_ok u ra dest p p (tag ++ tail) r1 r2 len) as [w Hw];
    try (rewrite ?Ha; (done || lia)). 
  { change (zlen (incoming_packet ra)) with 0. unfold PACKET_MAX_SIZE, SSHBUF_SIZE_MAX in *. lia. }
  set (rb := set_input (tag ++ tail) _) in Hw.
  exists r2, (set_input tail rb). split_and!; [done|done|].
  unfold mbind at 1. rewrite HR. unfold read_body. unfold needed. rewrite Ha. cbn [negb Z.eqb].
  rewrite Hmod. cbn [negb Z.eqb]. unfold mbind at 1, gets at 1.
  change (input ra) with (input r). rewrite Hi.
  assert (Hsz : zlen (dest ++ tag ++ tail) = 4 + len + su_authlen u + su_maclen u + zlen tail).
  { rewrite !zlen_app, E2, Htl. lia. }
  pose proof (zlen_nonneg tail) as Htail. pose proof (zlen_nonneg tag).
  destruct (Z.ltb_spec (zlen (dest ++ tag ++ tail)) (u32 (4 + len + su_authlen u + su_maclen u))) as [Hlt|_].
  { exfalso. unfold u32, wrap in Hlt.
    pose proof (Z.mod_le (4 + len + su_authlen u + su_maclen u) (2 ^ 32) ltac:(lia) ltac:(lia)). lia. }
  unfold mbind at 1. rewrite (check_etm_ok u ra len dest tag tail p); try (rewrite ?Ha; (done || lia)).
  change (input ra) with (input r) in Hw. rewrite Hi in Hw.
  unfold mbind at 1. rewrite Hw. unfold mbind at 1.
  rewrite (check_mac_ok u rb len p tag tail); try done.
  intros dest' He. unfold is_tag in *. unfold su_etm in He. destruct (su_mac_on u) as [m|]; [|done]. by rewrite He in *.
Qed.

(** A length that is enciphered with the first block. *)
Lemma read_plain u r cs cr p dest cs' tag tail (HL : linked cs cr) (Hfit : fits u cs) (Ha : su_aadlen u = 0)
    (Hok : suite_ok u) (Hg : forall m, su_mac_on u = Some m -> mac_good m)
    (Hpk : packlen r = 0) (Hcr : receive_context r = Some cr)
    (Hlen : 5 <= zlen p - 4 <= PACKET_MAX_SIZE) (Hmod : zlen p mod su_block_size u = 0)
    (Hhd : slice 0 4 p = POKE_U32 (zlen p - 4))
    (Hd : cipher_crypt cs (seqnr (p_read r)) p (zlen p) 0 0 = (Ok dest, cs'))
    (Ht : is_tag u (seqnr (p_read r)) p dest tag) (Hi : input r = dest ++ tag ++ tail) :
  exists cr' r', linked cs' cr' /\ deciphered r p tail cr' r' /\
    mbind (read_length u) (fun len => match len with None => mret no_packet | Some len => read_body u len end) r =
    finish_packet u r'.
Proof.
  destruct Hfit as [Hbs Hau]. pose proof (link_same _ _ HL) as (Hcc & Hb & Hauth & Hfl).
  destruct (aadlen_0 u Ha) as [Hau0 Hetm]. rewrite Hau0 in Hau.
  set (bs := su_block_size u) in *. set (len := zlen p - 4) in *.
  assert (Hbp : bs <= zlen p).
  { apply Z.mod_divide in Hmod as [k Hk]; [|lia]. assert (1 <= k) by nia. nia. }
  destruct (link_plain cs cr (seqnr (p_read r)) (seqnr (p_send r)) p) as (c & s' & r1 & r2 & E1 & E2 & E3 & E4 & E5);
    [done|done|by rewrite <- Hbs|by rewrite <- Hbs|]. rewrite <- Hbs in E3, E4. rewrite Hd in E1. injection E1 as <- <-.
  pose proof (tag_length _ _ _ _ _ Hg Ht) as Htl.
  assert (Hflag : forall x : sshcipher_ctx, cc_cipher x = cc_cipher cr ->
            has (c_flags (cc_cipher x)) CFLAG_CHACHAPOLY = true -> 0 = 16).
  { intros x ->. rewrite <- Hcc, Hau. exact Hfl. }
  set (b1 := slice 0 bs dest) in *. set (b2 := drop (Z.to_nat bs) dest) in *.
  assert (Hsplit : dest = b1 ++ b2) by (symmetry; apply take_drop).
  assert (L1 : zlen b1 = bs) by (apply zlen_slice; lia).
  assert (L2 : zlen b2 = zlen p - bs) by (unfold b2; rewrite zlen_drop; lia).
  rewrite Hsplit, <- app_assoc in Hi.
  destruct (put_incoming_ok (uninitialised bs (world (set_incoming_packet [] r))) (set_incoming_packet [] r)) as [w Hw].
  { rewrite reserved_length by lia. change (zlen (incoming_packet _)) with 0. unfold SSHBUF_SIZE_MAX. lia. }
  set (ra := set_input (b2 ++ tag ++ tail) (set_packlen len (set_incoming_packet (slice 0 bs p)
               (set_receive_context (Some r1) (set_world w r))))).
  assert (HR : read_length u r = Ret (Some len) ra).
  { unfold read_length. unfold mbind at 1, gets at 1. rewrite Hpk. cbn [Z.eqb negb].
    unfold mbind at 1, gets at 1. rewrite Ha. cbn [Z.eqb negb]. fold bs.
    destruct (Z.ltb_spec (zlen (input r)) bs) as [Hlt|_].
    { rewrite Hi, zlen_app in Hlt. pose proof (zlen_nonneg (b2 ++ tag ++ tail)). lia. }
    unfold mbind at 1, modify at 1, mbind at 1, gets at 1. unfold mbind at 1. rewrite Hw.
    unfold mbind at 1, deref. cbn [receive_context set_incoming_packet set_world]. rewrite Hcr.
    unfold mbind at 1, gets at 1. change (seqnr (p_send _)) with (seqnr (p_send r)). rewrite Hi.
    rewrite crypt_prefix by (by apply Hflag || lia). rewrite E3.
    unfold mbind at 1, modify at 1, mbind at 1, lift, mret, mbind at 1, modify at 1, mbind at 1, modify at 1.
    rewrite slice_slice, Z.add_0_l, Hhd, PEEK_POKE_U32, u32_small by (unfold PACKET_MAX_SIZE in *; lia).
    unfold bad_length. destruct (Z.ltb_spec len (1 + 4)); [lia|]. rewrite Z.gtb_ltb.
    destruct (Z.ltb_spec PACKET_MAX_SIZE len); [lia|]. cbn [orb]. unfold mbind. rewrite <- L1.
    rewrite (consume_input_app b1 (b2 ++ tag ++ tail)) by done. by rewrite L1. }
  assert (Hneed : needed u len = zlen p - bs).
  { unfold needed. rewrite Ha. cbn [negb Z.eqb]. fold bs. rewrite u32_small by (unfold PACKET_MAX_SIZE in *; lia). lia. }
  destruct (decipher_ok u ra b2 p (drop (Z.to_nat bs) p) (tag ++ tail) r1 r2 (zlen p - bs)) as [w2 Hw2];
    try (rewrite ?Ha, ?Hau0; (done || lia)).
  { rewrite Hau0. apply Hflag. pose proof (crypt_cipher cr (seqnr (p_send r)) b1 bs 0 0) as Hk. by rewrite E3 in Hk. }
  { change (incoming_packet ra) with (slice 0 bs p). rewrite zlen_slice by lia.
    unfold PACKET_MAX_SIZE, SSHBUF_SIZE_MAX in *. lia. }
  { apply take_drop. }
  set (rb := set_input (tag ++ tail) _) in Hw2.
  exists r2, (set_input tail rb). split_and!; [done|done|].
  unfold mbind at 1. rewrite HR. unfold read_body. fold bs. rewrite Hneed.
  assert (M2 : (zlen p - bs) mod bs = 0) by (rewrite Zminus_mod, Hmod, Z_mod_same_full; done).
  rewrite M2. cbn [negb Z.eqb]. unfold mbind at 1, gets at 1.
  change (input ra) with (b2 ++ tag ++ tail) in *. rewrite Ha, Hau0.
  pose proof (zlen_nonneg tail). pose proof (zlen_nonneg tag).
  assert (Hsz : zlen (b2 ++ tag ++ tail) = zlen p - bs + su_maclen u + zlen tail).
  { rewrite !zlen_app, L2, Htl. lia. }
  destruct (Z.ltb_spec (zlen (b2 ++ tag ++ tail)) (u32 (0 + (zlen p - bs) + 0 + su_maclen u))) as [Hlt|_].
  { exfalso. unfold u32, wrap in Hlt.
    pose proof (Z.mod_le (0 + (zlen p - bs) + 0 + su_maclen u) (2 ^ 32) ltac:(lia) ltac:(lia)). lia. }
  assert (Hce : check_etm u (b2 ++ tag ++ tail) (zlen p - bs) ra = Ret tt ra).
  { unfold check_etm, su_etm in *. destruct (su_mac_on u) as [m|]; [|done]. by rewrite Hetm. }
  unfold mbind at 1. rewrite Hce. unfold mbind at 1. rewrite Hw2. unfold mbind at 1.
  rewrite (check_mac_ok u rb (zlen p - bs) p tag tail); try done.
  intros dest' He. unfold is_tag in *. unfold su_etm in He. destruct (su_mac_on u) as [m|]; [|done]. by rewrite He in *.
Qed.

(** ** From one end to the other *)

Lemma zlen_framed padlen payload pad : zlen pad = padlen -> zlen (framed padlen payload pad) = 5 + zlen payload + padlen.
Proof. intros Hp. unfold framed. rewrite !zlen_app, zlen_POKE_U32, zlen_cons, zlen_nil. lia. Qed.

Lemma framed_head padlen payload pad : zlen pad = padlen -> zlen payload + padlen < 2 ^ 31 -> 0 <= padlen ->
  slice 0 4 (framed padlen payload pad) = POKE_U32 (zlen (framed padlen payload pad) - 4) /\
  at_ (framed padlen payload pad) 4 = u8 padlen /\
  drop 5 (framed padlen payload pad) = payload ++ pad.
Proof.
  intros Hp Hl H0. pose proof (zlen_nonneg payload). rewrite zlen_framed by done. unfold framed.
  rewrite u32_small by lia. replace (5 + zlen payload + padlen - 4) with (1 + zlen payload + padlen) by lia.
  split_and!; [done| |done]. unfold at_. cbn [nth app POKE_U32]. apply byte_val_of_Z.
Qed.

Lemma finish_framed u r r' padlen t payload pad tail cr' :
  deciphered r (framed padlen ([byte_of_Z t] ++ payload) pad) tail cr' r' ->
  su_comp_on u = false -> hook_in = None -> zlen pad = padlen -> 4 <= padlen <= 255 ->
  zlen payload + padlen < 2 ^ 30 -> 1 <= t < 192 -> plain_type t -> u32 (packets (p_read r) + 1) <> 0 ->
  exists r'', finish_packet u r' = mbind ssh_packet_check_rekey (fun _ => mret (t, Some (seqnr (p_read r)))) r'' /\
    incoming_packet r'' = payload /\ input r'' = tail /\ packlen r'' = 0 /\ receive_context r'' = Some cr' /\
    seqnr (p_read r'') = u32 (seqnr (p_read r) + 1) /\
    (newkeys_in r'', mux r'', packet_discard r'') = (newkeys_in r, mux r, packet_discard r) /\
    packets (p_read r'') = u32 (packets (p_read r) + 1) /\
    (after_authentication r'', ssh_packet_is_rekeying r'') =
    (after_authentication r, ssh_packet_is_rekeying r).
Proof.
  intros (Hin & Hi & Hpl & Hcx & Hrest) Hcomp Hhook Hpad Hpl4 Hsz Ht [Ht1 Ht2] Hpk.
  set (body := [byte_of_Z t] ++ payload) in *.
  assert (Lb : zlen body = 1 + zlen payload) by (unfold body; rewrite zlen_app; done).
  pose proof (zlen_nonneg payload) as Hpay.
  unfold recv_rest in Hrest. injection Hrest as R1 R2 R3 R4 R5 R6 R7 R8.
  destruct (framed_head padlen body pad Hpad ltac:(lia) ltac:(lia)) as (_ & Hp4 & Hd5).
  unfold finish_packet. unfold mbind at 1, gets at 1. unfold mbind at 1, gets at 1. rewrite R1.
  unfold mbind at 1, modify at 1. unfold mbind at 1, gets at 1. cbn [p_read set_p_read packets].
  rewrite R1. apply Z.eqb_neq in Hpk. rewrite Hpk. cbn [andb].
  unfold mbind at 1, modify at 1. unfold mbind at 1, gets at 1. cbn [incoming_packet set_p_read p_read].
  rewrite Hin, Hp4, u8_small by lia. destruct (Z.ltb_spec padlen 4); [lia|].
  unfold mbind at 1. unfold consume_incoming at 1. unfold mbind at 1, gets at 1, mbind at 1, buf_consume.
  cbn [incoming_packet set_p_read]. rewrite Hin, zlen_framed by done.
  destruct (Z.ltb_spec (5 + zlen body + padlen) (4 + 1)); [lia|]. cbn [lift mret modify].
  change (Z.to_nat (4 + 1)) with 5%nat. unfold mret, modify. rewrite Hd5.
  unfold mbind at 1. unfold consume_end_incoming at 1. unfold mbind at 1, gets at 1, mbind at 1, buf_consume_end.
  cbn [incoming_packet set_incoming_packet]. rewrite zlen_app, Hpad.
  destruct (Z.ltb_spec (zlen body + padlen) padlen); [lia|]. cbn [lift mret modify]. unfold mret, modify.
  replace (zlen body + padlen - padlen) with (zlen body) by lia.
  assert (Eb : take (Z.to_nat (zlen body)) (body ++ pad) = body).
  { unfold zlen. by rewrite Nat2Z.id, take_app_length. }
  rewrite Eb, Hcomp. unfold mbind at 1. unfold mbind at 1.
  unfold sshpkt_get_u8, take_incoming. unfold mbind at 1, gets at 1, mbind at 1.
  cbn [incoming_packet set_incoming_packet]. unfold body at 1. cbn [app]. rewrite rd_u8_app.
  cbn [lift]. unfold mret, mbind, modify. cbn [fst snd]. rewrite u8_small by lia.
  unfold SSH2_MSG_MIN, SSH2_MSG_LOCAL_MIN.
  destruct (Z.ltb_spec t 1); [lia|]. rewrite Z.geb_leb. destruct (Z.leb_spec 192 t); [lia|]. cbn [orb].
  rewrite Hhook. unfold gets, mtry. apply Z.eqb_neq in Ht2 as ->. cbn [andb].
  eexists. split; [reflexivity|]. cbn. rewrite ?R1, R2, R5, R6.
  rewrite <- R7, <- R8. split_and!; done.
Qed.

(** The bytes a packet added to the output of its sender. *)
Definition on_wire (s s' : session) (wire : bytes) : Prop := output s' = output s ++ wire.

Lemma linked_read s s' r t payload wire tail : linked_ends s r ->
  outgoing_packet s = zeros 5 ++ [byte_of_Z t] ++ payload -> 1 <= t < 192 -> plain_type t ->
  zlen payload + 261 <= PACKET_MAX_SIZE -> 0 <= extra_pad s < 256 ->
  ssh_packet_send2_wrapped s = Ret tt s' -> on_wire s s' wire ->
  input r = wire ++ tail -> packlen r = 0 -> packet_discard r = 0 -> mux r = false ->
  u32 (packets (p_read r) + 1) <> 0 -> hook_in = None ->
  exists r', ssh_packet_read_poll2 r =
      mbind ssh_packet_check_rekey (fun _ => mret (t, Some (seqnr (p_read r)))) r' /\
    incoming_packet r' = payload /\ input r' = tail /\ linked_ends s' r' /\
    (packlen r', packet_discard r', mux r') = (0, 0, false) /\
    packets (p_read r') = u32 (packets (p_read r) + 1) /\
    (after_authentication r', ssh_packet_is_rekeying r') =
    (after_authentication r, ssh_packet_is_rekeying r).
Proof.
  intros [Hsv Hcomp Hg [Hsq Hsq0] (cs & cr & Ecs & Ecr & HL & Hfit)] Ho Ht Hpt Hsz Hep Hsend Hw Hi Hpl Hpd Hm Hpk Hhook.
  destruct (suite_view_facts _ _ Hsv) as (Hsub & Hsua & Hsuc & Hsud & Hsut).
  destruct Hfit as [Hbs Hau]. pose proof (link_same _ _ HL) as (_ & Hb & Hauth & _).
  set (u := suite_of (newkeys_in r)) in *. pose proof (zlen_nonneg payload) as Hpay.
  set (body := [byte_of_Z t] ++ payload) in *.
  assert (Lb : zlen body = 1 + zlen payload) by (unfold body; rewrite zlen_app; done).
  unfold PACKET_MAX_SIZE in Hsz.
  apply (wrapped_wire body) in Hsend as (padlen & left_ & pad & Hpad & Hrest); [|done| |by rewrite Hsuc].
  2: { rewrite Ho. unfold at_. cbn [nth app zeros replicate Z.to_nat]. change (nth 5 _ _) with (byte_of_Z t).
       by rewrite byte_val_of_Z_small by lia. }
  rewrite Hsub, Hsud in Hpad. rewrite Hsua, Hsud in Hrest. fold u in Hpad, Hrest.
  set (aad := su_aadlen u) in *.
  assert (Haad : 0 <= aad <= 4) by (destruct (aadlen_cases u); unfold aad; lia).
  rewrite (u32_small (5 + zlen body)), (u32_small (5 + zlen body - aad)) in Hpad by lia.
  destruct (padding_spec (su_block_size u) (5 + zlen body - aad) (extra_pad s) padlen left_
    ltac:(lia) ltac:(lia) Hep Hpad) as (Hp4 & Hpm & _).
  destruct Hrest as (Lp & cs0 & cs' & dest & tag & Ec0 & Hd & Htag & Hk); [lia|]. apply Hsut in Htag. fold u in Htag.
  rewrite Ecs in Ec0. injection Ec0 as <-. unfold send_keys in Hk. injection Hk as K1 K2 K3 K4.
  unfold on_wire in Hw. rewrite K1 in Hw. apply app_inv_head in Hw as <-. rewrite <- app_assoc in Hi.
  set (p := framed padlen body pad) in *.
  assert (Lp5 : zlen p = 5 + zlen body + padlen) by (by apply zlen_framed).
  destruct (framed_head padlen body pad Lp ltac:(lia) ltac:(lia)) as (Hhd & _). fold p in Hhd.
  rewrite Hsq in *.
  assert (Hread : exists cr' r1, linked cs' cr' /\ deciphered r p tail cr' r1 /\
    mbind (read_length u) (fun len => match len with None => mret no_packet | Some len => read_body u len end) r =
    finish_packet u r1).
  { destruct (aadlen_cases u) as [Ha|Ha]; fold aad in Ha; rewrite Ha in *.
    - destruct (aadlen_0 u Ha) as [Hau0 _]. rewrite Hau0, Z.sub_0_r in Hd.
      apply (read_plain u r cs cr p dest cs' tag tail); try done; [apply suite_of_ok| |].
      + unfold PACKET_MAX_SIZE. lia.
      + rewrite Lp5. replace (5 + zlen body + padlen) with (5 + zlen body - 0 + padlen) by lia. done.
    - apply (read_aad u r cs cr p dest cs' tag tail); try done; [apply suite_of_ok|lia| |].
      + unfold PACKET_MAX_SIZE. lia.
      + rewrite Lp5. replace (5 + zlen body + padlen - 4) with (5 + zlen body - 4 + padlen) by lia. done. }
  destruct Hread as (cr' & r1 & HL' & Hdec & Hrun).
  destruct (finish_framed u r r1 padlen t payload pad tail cr') as (r' & Hf & F1 & F2 & F3 & F4 & F5 & F6 & F9 & F10); try done; try lia.
  exists r'. injection F6 as F6 F7 F8. rewrite read_poll2_body by done. fold u. rewrite Hrun.
  split_and!; [done|done|done| |congruence|done|done].
  pose proof (crypt_cipher cs (seqnr (p_read r)) p (zlen p - aad) aad (su_authlen u)) as Hcc.
  rewrite Hd in Hcc. cbn in Hcc. split.
  - by rewrite K4, F6.
  - by rewrite F6.
  - rewrite F6. exact Hg.
  - rewrite K2, F5. split; [done|]. apply (wrap_range 32). lia.
  - exists cs', cr'. rewrite K3, F6, Hcc. split_and!; done.
Qed.

(** ** A conversation *)

(** A packet the receiver may be handed: a type that is not one of the two that change the
    keys or the compression, and a size within [PACKET_MAX_SIZE]. *)
Definition ordinary (x : Z * bytes) : Prop :=
  1 <= fst x < 192 /\ plain_type (fst x) /\ zlen (snd x) + 261 <= PACKET_MAX_SIZE.

(** Packets sent one after the other, and the bytes they add to the output. *)
Inductive sends : session -> list (Z * bytes) -> bytes -> session -> Prop :=
| sends_nil s : sends s [] [] s
| sends_cons s t payload wire s1 l wires s2 :
    ordinary (t, payload) -> 0 <= extra_pad s < 256 ->
    ssh_packet_send2_wrapped (set_outgoing_packet (zeros 5 ++ [byte_of_Z t] ++ payload) s) = Ret tt s1 ->
    on_wire s s1 wire -> sends s1 l wires s2 ->
    sends s ((t, payload) :: l) (wire ++ wires) s2.

(** Packets read one after the other. *)
Inductive reads : session -> list (Z * bytes) -> session -> Prop :=
| reads_nil r : reads r [] r
| reads_cons r t payload n r1 l r2 :
    ssh_packet_read_poll2 r = Ret (t, Some n) r1 -> incoming_packet r1 = payload ->
    reads r1 l r2 -> reads r ((t, payload) :: l) r2.

(** No rekeying of the receiver's own in between. *)
Definition no_rekey (r : session) : Prop := after_authentication r = false \/ ssh_packet_is_rekeying r = true.

Lemma check_rekey_none r : no_rekey r -> ssh_packet_check_rekey r = Ret tt r.
Proof.
  intros H. unfold ssh_packet_check_rekey, ssh_packet_need_rekeying. unfold mbind, gets. cbv beta iota delta [id].
  destruct H as [->| ->]; [done|]. by destruct (after_authentication r).
Qed.

Lemma linked_ends_outgoing q s r : linked_ends s r -> linked_ends (set_outgoing_packet q s) r.
Proof. intros [H1 H2 H3 H4 H5]. by split. Qed.

Lemma sends_reads s l wire s' : sends s l wire s' -> forall r tail, linked_ends s r ->
  input r = wire ++ tail -> packlen r = 0 -> packet_discard r = 0 -> mux r = false -> no_rekey r ->
  0 <= packets (p_read r) -> packets (p_read r) + zlen l < 2 ^ 32 -> hook_in = None ->
  exists r', reads r l r' /\ input r' = tail /\ linked_ends s' r'.
Proof.
  induction 1 as [s|s t payload wire s1 l wires s2 (Ht & Hpt & Hsz) Hep Hsend Hw _ IH];
    intros r tail HL Hi Hpl Hpd Hm Hnr Hp0 Hp1 Hhook.
  { exists r. split; [constructor|done]. }
  rewrite zlen_cons in Hp1. pose proof (zlen_nonneg l). cbn [fst snd] in *.
  assert (Hpk : u32 (packets (p_read r) + 1) = packets (p_read r) + 1) by (apply u32_small; lia).
  rewrite <- app_assoc in Hi.
  destruct (linked_read (set_outgoing_packet (zeros 5 ++ [byte_of_Z t] ++ payload) s) s1 r t payload wire (wires ++ tail))
    as (r1 & Hr & F1 & F2 & F3 & F4 & F5 & F6); try done; [by apply linked_ends_outgoing|by rewrite Hpk; lia|].
  injection F4 as F4 F7 F8. injection F6 as F6 F9.
  assert (Hnr1 : no_rekey r1) by (unfold no_rekey; by rewrite F6, F9).
  unfold mbind in Hr. rewrite check_rekey_none in Hr by done.
  destruct (IH r1 tail) as (r' & Hrs & Hi' & HL'); try done; [rewrite F5, Hpk; lia..|].
  exists r'. split_and!; [|done|done]. by eapply reads_cons.
Qed.
End link.

(** Claim C2: what one end sends, the other reads, in order and unchanged.  Two ends with the
    same keys and sequence number, whose contexts are linked, stay so after any number of
    packets, whatever the cipher, the MAC and the padding; what follows the packets in the
    input is left there. *)
Theorem packets_arrive {C : Crypto} {E : Env} {L : EnvLaws} {linked} {PC : PacketCipher linked}
    s r l wire s' tail (HL : linked_ends (linked := linked) s r) (Hs : sends s l wire s')
    (Hi : input r = wire ++ tail) (Hpl : packlen r = 0) (Hd : packet_discard r = 0) (Hm : mux r = false)
    (Hn : no_rekey r) (Hp : 0 <= packets (p_read r) /\ packets (p_read r) + zlen l < 2 ^ 32)
    (Hh : hook_in = None) :
  exists r', reads r l r' /\ input r' = tail /\ linked_ends (linked := linked) s' r'.
Proof. destruct Hp. by eapply sends_reads. Qed.

(** ** Two ends with chacha20-poly1305 *)

Definition cp_cipher : sshcipher := mk_cipher (lit "chacha20-poly1305@openssh.com") 8 64 0 16 CFLAG_CHACHAPOLY.
Definition cp_keys : newkeys :=
  mk_newkeys (mk_enc (c_name cp_cipher) cp_cipher 0 64 0 8 (zeros 64) None) (mk_mac true 0 None 0 0 false 0 None)
    [] (mk_comp COMP_NONE false (lit "none")).
Definition cp_context (encrypt : bool) : sshcipher_ctx :=
  match cipher_init cp_cipher (zeros 64) 64 None 0 encrypt with
  | Ok c => c | Err _ => mk_cctx false encrypt cp_cipher None None end.
Definition cp_sender : session :=
  set_send_context (Some (cp_context true)) (set_newkeys_out (Some cp_keys) (ssh_alloc_session_state tt)).
Definition cp_messages : list (Z * bytes) := [(94, lit "hello"); (80, []); (94, lit "world")].
Fixpoint send_all (s : session) (l : list (Z * bytes)) : session :=
  match l with
  | [] => s
  | (t, p) :: l =>
    match ssh_packet_send2_wrapped (set_outgoing_packet (zeros 5 ++ [byte_of_Z t] ++ p) s) with
    | Ret _ s' => send_all s' l | _ => s end
  end.
Definition cp_sent : session := send_all cp_sender cp_messages.
Definition cp_listener : session :=
  set_receive_context (Some (cp_context false)) (set_newkeys_in (Some cp_keys) (ssh_alloc_session_state tt)).
Definition cp_receiver : session := set_input (output cp_sent) cp_listener.

Lemma input_set_input x r : input (set_input x r) = x.
Proof. by destruct r. Qed.

Definition cp_ctx0 : chachapoly_ctx := default (mk_cp [] []) (cc_cp (cp_context true)).

Lemma wf_check x : Nat.eqb (length x) 16 && forallb (fun w => (0 <=? w) && (w <? 4294967296)) x = true -> wf x.
Proof.
  intros [H1%Nat.eqb_eq H2]%andb_true_iff. split; [done|]. apply Forall_forall. intros w Hw.
  rewrite forallb_forall in H2. specialize (H2 w (proj1 (list_elem_of_In _ _) Hw)).
  apply andb_true_iff in H2 as [?%Z.leb_le ?%Z.ltb_lt]. lia.
Qed.

Lemma cp_ctx0_wf : cp_wf cp_ctx0.
Proof. split; apply wf_check; vm_compute; reflexivity. Qed.

Lemma cp_linked : linked_ends (linked := ctx_linked) cp_sender cp_receiver.
Proof.
  split; try done.
  eexists _, _. split; [reflexivity|]. split; [reflexivity|]. split; [|done].
  split_and!; try done; [apply list_elem_of_In; do 9 right; by left|].
  assert (K : exists a b, cc_cp (cp_context true) = Some a /\ cc_cp (cp_context false) = Some b /\ cp_equiv a b).
  { exists cp_ctx0, cp_ctx0. split_and!; [vm_compute; reflexivity|vm_compute; reflexivity|].
    apply cp_equiv_refl, cp_ctx0_wf. }
  exact K.
Qed.

Lemma cp_sends : exists s', sends cp_sender cp_messages (output cp_sent) s'.
Proof.
  set (s1 := send_all cp_sender (take 1 cp_messages)). set (s2 := send_all cp_sender (take 2 cp_messages)).
  exists cp_sent.
  replace (output cp_sent) with
    (output s1 ++ (drop (length (output s1)) (output s2) ++ (drop (length (output s2)) (output cp_sent) ++ [])))
    by (vm_compute; reflexivity).
  apply (sends_cons _ _ _ _ s1); [| | | |apply (sends_cons _ _ _ _ s2); [| | | |apply (sends_cons _ _ _ _ cp_sent)]];
    try (vm_compute; reflexivity); try (vm_compute; split; congruence).
  all: try (split_and!; [vm_compute; congruence|vm_compute; reflexivity|split; vm_compute; congruence|vm_compute; congruence]).
  apply sends_nil.
Qed.

Lemma packets_arrive_witness : zlen (output cp_sent) = 100 /\
  exists s' r', reads cp_receiver cp_messages r' /\ input r' = [] /\ linked_ends (linked := ctx_linked) s' r'.
Proof.
  split; [vm_compute; reflexivity|]. destruct cp_sends as [s' Hs]. exists s'.
  refine (packets_arrive cp_sender cp_receiver cp_messages (output cp_sent) s' [] cp_linked Hs
            _ eq_refl eq_refl eq_refl _ _ eq_refl).
  - rewrite app_nil_r. apply input_set_input.
  - by left.
  - vm_compute. split; congruence.
Defined.
