(* ===== verification/PacketTyped.v ===== *)
(** The types of a session's integers: every call of the packet layer leaves each of them in
    the range of its C type, and the block sizes of the keys where the divisions of the
    code need them, however the call ends. *)

From S2P Require Import Prelude SshErr Wire SshQueue Compat.
From S2P Require Import ChaCha ChachaPoly Digest SshCipher CipherLink Packet PacketSend Plain PacketRead.
From S2P Require Import PacketFrame.

(** ** Invariants of computations *)

Section preserves.
Context {C : Crypto} {E : Env} (P : session -> Prop).

Definition preserves {A} (m : M A) : Prop := forall s s', P s -> final (m s) = Some s' -> P s'.

Lemma preserves_bind {A B} (m : M A) (k : A -> M B) :
  preserves m -> (forall a, preserves (k a)) -> preserves (mbind m k).
Proof.
  intros Hm Hk s s' HP. specialize (Hm s). unfold mbind.
  destruct (m s) as [a s1|e s1| |s1]; cbn in *; intros H; try done; [|by apply Hm..].
  apply (Hk a s1); [|done]. by apply Hm.
Qed.

(** What is read of the state has the properties the invariant gives it. *)
Lemma preserves_gets {A B} (Q : A -> Prop) (f : session -> A) (k : A -> M B) :
  (forall s, P s -> Q (f s)) -> (forall a, Q a -> preserves (k a)) -> preserves (mbind (gets f) k).
Proof. intros Hf Hk s s' HP H. by apply (Hk (f s) (Hf s HP) s). Qed.

Lemma preserves_deref {A B} (Q : A -> Prop) (f : session -> option A) (k : A -> M B) :
  (forall s a, P s -> f s = Some a -> Q a) -> (forall a, Q a -> preserves (k a)) -> preserves (mbind (deref f) k).
Proof.
  intros Hf Hk s s' HP. unfold mbind, deref. destruct (f s) as [a|] eqn:Ea; [|done]. intros H.
  by apply (Hk a (Hf s a HP Ea) s).
Qed.

Lemma preserves_try {A} (m : M A) : preserves m -> preserves (mtry m).
Proof. intros Hm s s' HP. unfold mtry. specialize (Hm s). destruct (m s); cbn in *; try done; eauto. Qed.

Lemma preserves_modify g : (forall s, P s -> P (g s)) -> preserves (modify g).
Proof. intros H s s' HP [= <-]. by apply H. Qed.

Lemma preserves_keeps {A T} (f : session -> T) (m : M A) :
  (forall s s', f s' = f s -> P s -> P s') -> keeps f m -> preserves m.
Proof. intros Hf Hm s s' HP H. apply (Hf s); [|done]. by apply Hm. Qed.

Lemma preserves_run_loop {A} (body : bytes -> M (bytes * option A)) n next_in :
  (forall x, preserves (body x)) -> preserves (run_loop body n next_in).
Proof.
  intros Hb s s' HP H. unfold run_loop in H.
  assert (L := loop_sound (as_round body) (fun x => P (snd x))
                 (fun r => forall s2, final r = Some s2 -> P s2) n (next_in, s)).
  destruct (loop (as_round body) n (next_in, s)) as [[i s1]|r].
  1: injection H as ->. all: apply L; clear L; try done.
  all: intros [i1 s1] y HP1 Hr; cbn in Hr, HP1; specialize (Hb i1 s1);
    destruct (body i1 s1) as [[rest [a|]] s3|e s3| |s3]; try done; injection Hr as <-; cbn in *;
    intros; simplify_eq; by apply Hb.
Qed.
End preserves.

(** ** The integers *)

Section typed.
Context {C : Crypto} {E : Env}.

Definition pstate_ok (p : packet_state) : Prop :=
  0 <= seqnr p < 2 ^ 32 /\ 0 <= packets p < 2 ^ 32 /\ 0 <= blocks p < 2 ^ 64 /\ 0 <= nbytes p < 2 ^ 64.

Definition key_block (k : option newkeys) : option Z := option_map (fun k => enc_block_size (nk_enc k)) k.
Definition block_ok (b : option Z) : Prop := match b with Some b => 8 <= b <= 16 | None => True end.
Definition kex_blocks (k : option kex_state) : option Z * option Z :=
  match k with Some k => (key_block (kex_newkeys_in k), key_block (kex_newkeys_out k)) | None => (None, None) end.

Definition ints (s : session) :=
  ((p_read s, p_send s), (max_blocks_in s, max_blocks_out s, rekey_limit s),
   (extra_pad s, packlen s, packet_discard s), (packet_timeout_ms s, max_packet_size s),
   (key_block (newkeys_in s), key_block (newkeys_out s)), kex_blocks (kex s)).

Record typed (s : session) : Prop := {
  ty_read : pstate_ok (p_read s);
  ty_send : pstate_ok (p_send s);
  ty_in : 0 <= max_blocks_in s < 2 ^ 64;
  ty_out : 0 <= max_blocks_out s < 2 ^ 64;
  ty_limit : 0 <= rekey_limit s < 2 ^ 64;
  ty_pad : 0 <= extra_pad s < 2 ^ 8;
  ty_packlen : 0 <= packlen s < 2 ^ 32;
  ty_discard : 0 <= packet_discard s < 2 ^ 32;
  ty_timeout : -1 <= packet_timeout_ms s <= INT_MAX;
  ty_maxsize : 0 <= max_packet_size s < 2 ^ 32;
  ty_keys : block_ok (key_block (newkeys_in s)) /\ block_ok (key_block (newkeys_out s));
  ty_kex : block_ok (fst (kex_blocks (kex s))) /\ block_ok (snd (kex_blocks (kex s)))
}.

Lemma typed_ints s s' : ints s' = ints s -> typed s -> typed s'.
Proof.
  intros H [H1 H2 H3 H4 H5 H6 H7 H8 H9 H10 H11 H12]. unfold ints in H.
  injection H as E1 E2 E3 E4 E5 E6 E7 E8 E9 E10 E11 E12 E13.
  split; congruence || (try rewrite E13; try rewrite E11, E12; done).
Qed.

Lemma typed_keeps {A} (m : M A) : keeps ints m -> preserves typed m.
Proof. apply preserves_keeps. intros. by eapply typed_ints. Qed.

Lemma ints_env {A} (g : os -> A * os) : keeps ints (env g).
Proof. by apply keeps_env. Qed.
End typed.

Create HintDb typed.
#[export] Hint Extern 1 (preserves typed (gets _)) => apply typed_keeps; apply keeps_gets : typed.
#[export] Hint Extern 1 (preserves typed (deref _)) => apply typed_keeps; apply keeps_deref : typed.
#[export] Hint Extern 1 (preserves typed (mret _)) => apply typed_keeps; apply keeps_ret : typed.
#[export] Hint Extern 1 (preserves typed (mfail _)) => apply typed_keeps; apply keeps_fail : typed.
#[export] Hint Extern 1 (preserves typed mcrash) => apply typed_keeps; apply keeps_crash : typed.
#[export] Hint Extern 1 (preserves typed mwait) => apply typed_keeps; apply keeps_wait : typed.
#[export] Hint Extern 1 (preserves typed (lift _)) => apply typed_keeps; apply keeps_lift : typed.

Ltac typed_step :=
  lazymatch goal with
  | |- preserves _ (mbind _ _) => apply preserves_bind; [|intros ?]
  | |- preserves _ (mtry _) => apply preserves_try
  | |- preserves _ (modify _) =>
    first [apply typed_keeps, keeps_modify; reflexivity | solve [auto with typed]]
  | |- preserves _ (env _) => apply typed_keeps, ints_env
  | |- preserves _ (run_loop _ _ _) => apply preserves_run_loop; intros ?
  | |- preserves _ (match ?x with _ => _ end) => destruct x
  | |- preserves _ (let x := _ in _) => cbv zeta
  | |- _ => solve [auto with typed]
  end.
Ltac typed := repeat typed_step.

Section calls.
Context {C : Crypto} {E : Env}.

Lemma pstate_count p : pstate_ok p ->
  pstate_ok (mk_pstate (u32 (seqnr p + 1)) (u32 (packets p + 1)) (blocks p) (nbytes p)).
Proof. intros (? & ? & ? & ?). split; [|split; [|split]]; try done; by apply (wrap_range 32). Qed.

Lemma pstate_volume p x y : pstate_ok p -> pstate_ok (mk_pstate (seqnr p) (packets p) (u64 x) (u64 y)).
Proof. intros (? & ? & ? & ?). split; [|split; [|split]]; try done; by apply (wrap_range 64). Qed.

Lemma u8_range z : 0 <= u8 z < 2 ^ 8.
Proof. by apply wrap_range. Qed.

(** A write to one of the integers. *)
Ltac typed_write :=
  apply preserves_modify; intros ? []; split; try done.

Lemma typed_buf_put q v : preserves typed (buf_put q v).
Proof. unfold buf_put. typed. Qed.
Hint Resolve typed_buf_put : typed.
Lemma typed_put_outgoing v : preserves typed (put_outgoing v).
Proof. unfold put_outgoing. typed. Qed.
Lemma typed_put_output v : preserves typed (put_output v).
Proof. unfold put_output. typed. Qed.
Lemma typed_put_compressed v : preserves typed (put_compressed v).
Proof. unfold put_compressed. typed. Qed.
Lemma typed_put_incoming v : preserves typed (put_incoming v).
Proof. unfold put_incoming. typed. Qed.
Lemma typed_consume_outgoing n : preserves typed (consume_outgoing n).
Proof. unfold consume_outgoing. typed. Qed.
Lemma typed_consume_output n : preserves typed (consume_output n).
Proof. unfold consume_output. typed. Qed.
Lemma typed_consume_input n : preserves typed (consume_input n).
Proof. unfold consume_input. typed. Qed.
Lemma typed_consume_incoming n : preserves typed (consume_incoming n).
Proof. unfold consume_incoming. typed. Qed.
Lemma typed_consume_end_incoming n : preserves typed (consume_end_incoming n).
Proof. unfold consume_end_incoming. typed. Qed.
Hint Resolve typed_put_outgoing typed_put_output typed_put_compressed typed_put_incoming typed_consume_outgoing
  typed_consume_output typed_consume_input typed_consume_incoming typed_consume_end_incoming : typed.

Lemma typed_compression m : preserves typed (ssh_packet_init_compression ;; start_compression m).
Proof. unfold ssh_packet_init_compression, start_compression, start_compression_out, start_compression_in. typed. Qed.

(** Writes to the keys that keep the cipher. *)
Lemma typed_update_newkeys m g : (forall k, nk_enc (g k) = nk_enc k) -> preserves typed (update_newkeys m g).
Proof.
  intros H. apply typed_keeps, keeps_modify. intros s. destruct m; unfold ints; cbn;
    [destruct (newkeys_in s)|destruct (newkeys_out s)]; cbn; by rewrite ?H.
Qed.
Hint Extern 1 (preserves typed (update_newkeys _ _)) => apply typed_update_newkeys; done : typed.

Lemma max_blocks_range bs limit : 8 <= bs <= 16 -> 0 <= limit < 2 ^ 64 -> 0 <= max_blocks_of bs limit < 2 ^ 64.
Proof.
  intros Hb Hl. unfold max_blocks_of.
  assert (Hn : 0 <= (if bs >=? 16 then u64 (Z.shiftl 1 (bs * 2)) else Z.shiftl 1 30 / bs) < 2 ^ 64).
  { destruct (bs >=? 16); [by apply wrap_range|]. change (Z.shiftl 1 30) with (2 ^ 30).
    split; [apply Z.div_pos; lia|]. apply Z.div_lt_upper_bound; lia. }
  destruct (negb (limit =? 0)); [|done]. assert (0 <= limit / bs) by (apply Z.div_pos; lia). lia.
Qed.

Lemma typed_set_newkeys m : preserves typed (ssh_set_newkeys m).
Proof.
  unfold ssh_set_newkeys.
  apply preserves_bind; [apply preserves_modify; intros s [? ? ? ? ? ? ? ? ? ? [? ?] ?]; destruct m; by split|intros _].
  apply preserves_bind.
  { apply preserves_modify. intros s [(? & ? & ? & ?) (? & ? & ? & ?) ? ? ? ? ? ? ? ? ? ?]. destruct m; split; done. }
  intros _. apply (preserves_deref _ (fun k => block_ok (key_block (kex_newkeys_in k)) /\ block_ok (key_block (kex_newkeys_out k)))).
  { intros s k [? ? ? ? ? ? ? ? ? ? ? Hk] Ek. by rewrite Ek in Hk. }
  intros k Hk. destruct (get_kex_newkeys m k) as [nk|] eqn:Em; [|auto with typed].
  assert (Hb : block_ok (Some (enc_block_size (nk_enc nk)))).
  { destruct m, Hk as [H1 H2]; cbn in Em; rewrite Em in *; done. }
  apply preserves_bind; [apply preserves_modify; intros s [? ? ? ? ? ? ? ? ? ? [? ?] ?]; destruct m; by split|intros _].
  apply preserves_bind.
  { apply preserves_modify. intros s [? ? ? ? ? ? ? ? ? ? ? Hkx]. split; try done. cbn.
    destruct (kex s) as [k'|]; [|done]. destruct m, Hkx; by split. }
  intros _. apply preserves_bind; [typed|intros mac].
  apply preserves_bind; [auto with typed|intros _].
  apply preserves_bind; [by apply preserves_modify; intros s []; destruct m; split|intros _].
  apply preserves_bind; [typed|intros cc].
  apply preserves_bind; [by apply preserves_modify; intros s []; destruct m; split|intros _].
  apply preserves_bind; [typed|intros auth]. apply preserves_bind.
  { destruct (_ && _); [|auto with typed].
    unfold ssh_packet_init_compression, start_compression, start_compression_out, start_compression_in. typed. }
  intros _. apply (preserves_gets _ (fun l => 0 <= l < 2 ^ 64)); [by intros s []|].
  intros l Hl. pose proof (max_blocks_range _ l Hb Hl).
  apply preserves_modify. intros s []. by destruct m; split.
Qed.
Hint Resolve typed_set_newkeys : typed.

Lemma typed_enable_delayed_compress : preserves typed ssh_packet_enable_delayed_compress.
Proof.
  unfold ssh_packet_enable_delayed_compress, delayed_compress, ssh_packet_init_compression, start_compression,
    start_compression_out, start_compression_in. typed.
Qed.
Hint Resolve typed_enable_delayed_compress : typed.

Lemma typed_compress_outgoing : preserves typed compress_outgoing.
Proof. unfold compress_outgoing, compress_buffer, compress_round. typed. Qed.

Lemma padding_left_range bs len extra : 0 <= snd (padding bs len extra) < 2 ^ 8.
Proof. unfold padding. cbv zeta. repeat case_match; cbn; try lia; apply u8_range. Qed.

Lemma typed_pad_outgoing u : preserves typed (pad_outgoing u).
Proof.
  unfold pad_outgoing. apply preserves_bind; [typed|intros len]. apply preserves_bind; [typed|intros extra].
  pose proof (padding_left_range (su_block_size u) len extra). destruct (padding _ _ _) as [pl left_]. cbn in *.
  apply preserves_bind; [typed_write|intros _]. typed.
Qed.

Lemma typed_seal_outgoing u : preserves typed (seal_outgoing u).
Proof. unfold seal_outgoing, mac_of. typed. Qed.

(** Sequence number, packets and volume: the additions of the code at their width. *)
Lemma typed_count_outgoing u : preserves typed (count_outgoing u).
Proof.
  unfold count_outgoing, count_packet. apply preserves_bind.
  { apply preserves_modify. intros s [? Hs ? ? ? ? ? ? ? ? ? ?]. split; try done. by apply pstate_count. }
  intros _. typed. apply preserves_modify. intros s [? Hs ? ? ? ? ? ? ? ? ? ?]. split; try done. by apply pstate_volume.
Qed.
Hint Resolve typed_compress_outgoing typed_pad_outgoing typed_seal_outgoing typed_count_outgoing : typed.

Lemma typed_wrapped : preserves typed ssh_packet_send2_wrapped.
Proof. unfold ssh_packet_send2_wrapped, after_packet. typed. Qed.
Lemma typed_need_rekeying n : preserves typed (ssh_packet_need_rekeying n).
Proof. unfold ssh_packet_need_rekeying. typed. Qed.
Hint Resolve typed_wrapped typed_need_rekeying : typed.

Lemma typed_send_queue k l : preserves typed k -> preserves typed (send_queue k l).
Proof. intros Hk. induction l as [|p l IH]; cbn [send_queue]; typed. Qed.
Hint Resolve typed_send_queue : typed.
Lemma typed_send_with k : preserves typed k -> preserves typed (send_with k).
Proof. intros Hk. unfold send_with, ssh_packet_send_mux, send2_with. typed. Qed.

(** Writes to the exchange that keep the keys. *)
Lemma typed_update_kex g : (forall k, kex_newkeys_in (g k) = kex_newkeys_in k /\ kex_newkeys_out (g k) = kex_newkeys_out k) ->
  preserves typed (update_kex g).
Proof.
  intros H. apply typed_keeps, keeps_modify. intros s. unfold ints. cbn.
  destruct (kex s) as [k|]; cbn; [|done]. by destruct (H k) as [-> ->].
Qed.
Hint Extern 1 (preserves typed (update_kex _)) => apply typed_update_kex; done : typed.

Lemma typed_sshpkt_start t : preserves typed (sshpkt_start t).
Proof. unfold sshpkt_start. typed. Qed.
Hint Resolve typed_sshpkt_start : typed.

Lemma typed_start_rekex : preserves typed kex_start_rekex.
Proof.
  assert (Hs : preserves typed (send_with mcrash)) by (apply typed_send_with; auto with typed).
  unfold kex_start_rekex, kex_start_rekex_with, kex_send_kexinit_with, sshpkt_putb. typed.
Qed.
Hint Resolve typed_start_rekex : typed.
Lemma typed_send : preserves typed sshpkt_send.
Proof. apply typed_send_with. auto with typed. Qed.
Lemma typed_check_rekey : preserves typed ssh_packet_check_rekey.
Proof. unfold ssh_packet_check_rekey. typed. Qed.
Hint Resolve typed_send typed_check_rekey : typed.

Lemma typed_disconnect text : preserves typed (sshpkt_disconnect text).
Proof. unfold sshpkt_disconnect, sshpkt_put_u32, sshpkt_put_cstring, sshpkt_put_string. typed. Qed.
Hint Resolve typed_disconnect : typed.

(** *** Receiving *)

Lemma typed_write_poll : preserves typed ssh_packet_write_poll.
Proof. unfold ssh_packet_write_poll. typed. Qed.
Lemma typed_select_loop n b : forall ms, preserves typed (select_loop n b ms).
Proof. induction n as [|n IH]; intros ms; cbn [select_loop]; typed. Qed.
Hint Resolve typed_write_poll typed_select_loop : typed.
Lemma typed_write_wait : preserves typed ssh_packet_write_wait.
Proof.
  unfold ssh_packet_write_wait. assert (Hl : forall n, preserves typed (write_wait_loop n)).
  { induction n as [|n IH]; cbn [write_wait_loop]; unfold ssh_packet_have_data_to_write; typed. }
  typed.
Qed.
Hint Resolve typed_write_wait : typed.

Lemma typed_fill_incoming n : forall d, preserves typed (fill_incoming n d).
Proof. induction n as [|n IH]; intros d; cbn [fill_incoming]; typed. Qed.
Hint Resolve typed_fill_incoming : typed.
Lemma typed_stop_discard : preserves typed ssh_packet_stop_discard.
Proof. unfold ssh_packet_stop_discard. typed. Qed.
Hint Resolve typed_stop_discard : typed.

Lemma typed_set_discard n : preserves typed (modify (set_packet_discard (u32 n))).
Proof. apply preserves_modify. intros s []. split; try done. by apply (wrap_range 32). Qed.
Hint Resolve typed_set_discard : typed.
Lemma typed_start_discard e m a d : preserves typed (ssh_packet_start_discard e m a d).
Proof. unfold ssh_packet_start_discard. typed. Qed.
Hint Resolve typed_start_discard : typed.

Lemma typed_process_incoming buf : preserves typed (ssh_packet_process_incoming buf).
Proof. unfold ssh_packet_process_incoming, put_input. typed. Qed.
Hint Resolve typed_process_incoming : typed.

Lemma PEEK_U32_bound v : 0 <= PEEK_U32 v < 2 ^ 32.
Proof. exact (PEEK_U32_range (nth 0 v x00) (nth 1 v x00) (nth 2 v x00) (nth 3 v x00)). Qed.

Lemma typed_set_packlen n : 0 <= n < 2 ^ 32 -> preserves typed (modify (set_packlen n)).
Proof. intros H. apply preserves_modify. intros s []. by split. Qed.
Hint Extern 1 (preserves typed (modify (set_packlen (PEEK_U32 _)))) => apply typed_set_packlen, PEEK_U32_bound : typed.
Hint Extern 1 (preserves typed (modify (set_packlen 0))) => apply typed_set_packlen; lia : typed.

Lemma typed_get_u8 : preserves typed sshpkt_get_u8.
Proof. unfold sshpkt_get_u8, take_incoming. typed. Qed.
Lemma typed_get_u32 : preserves typed sshpkt_get_u32.
Proof. unfold sshpkt_get_u32, take_incoming. typed. Qed.
Lemma typed_get_string : preserves typed sshpkt_get_string.
Proof. unfold sshpkt_get_string, take_incoming. typed. Qed.
Lemma typed_skip_string : preserves typed sshpkt_skip_string.
Proof. unfold sshpkt_skip_string, take_incoming. typed. Qed.
Hint Resolve typed_get_u8 typed_get_u32 typed_get_string typed_skip_string : typed.

Lemma typed_read_poll2_mux : preserves typed ssh_packet_read_poll2_mux.
Proof. unfold ssh_packet_read_poll2_mux. typed. Qed.
Hint Resolve typed_read_poll2_mux : typed.

Lemma get_length_range cc n cp l len cc' : cipher_get_length cc n cp l = (Ok len, cc') -> 0 <= len < 2 ^ 32.
Proof.
  unfold cipher_get_length. destruct (has _ _).
  - destruct (cc_cp cc) as [c|]; [|done]. unfold chachapoly_get_length. destruct (l <? 4); [done|].
    destruct (chacha_encrypt_bytes _ _ _). intros [= <- _]. apply PEEK_U32_bound.
  - destruct (l <? 4); [done|]. intros [= <- _]. apply PEEK_U32_bound.
Qed.

Lemma typed_read_length u : preserves typed (read_length u).
Proof.
  unfold read_length. apply preserves_bind; [typed|intros known]. destruct (negb (known =? 0)); [typed|].
  apply preserves_bind; [typed|intros cp]. destruct (negb (su_aadlen u =? 0)).
  - apply preserves_bind; [typed|intros cc]. apply preserves_bind; [typed|intros n].
    destruct (cipher_get_length cc n cp (zlen cp)) as [[len|e] cc'] eqn:El; [|typed].
    apply get_length_range in El. pose proof (typed_set_packlen len El). typed.
  - typed.
Qed.
Hint Resolve typed_read_length : typed.

Lemma typed_finish_packet u : preserves typed (finish_packet u).
Proof.
  unfold finish_packet, uncompress_incoming, uncompress_buffer, uncompress_round.
  apply preserves_bind; [typed|intros len]. apply preserves_bind; [typed|intros n].
  apply preserves_bind.
  { apply preserves_modify. intros s [Hr ? ? ? ? ? ? ? ? ? ? ?]. split; try done. by apply pstate_count. }
  intros _. apply preserves_bind; [typed|intros wr]. destruct wr; [typed|].
  apply preserves_bind.
  { apply preserves_modify. intros s [Hr ? ? ? ? ? ? ? ? ? ? ?]. split; try done. by apply pstate_volume. }
  intros _. typed.
Qed.
Hint Resolve typed_finish_packet : typed.

Lemma typed_read_poll2 : preserves typed ssh_packet_read_poll2.
Proof. unfold ssh_packet_read_poll2, read_body, check_etm, decipher, check_mac. typed. Qed.
Hint Resolve typed_read_poll2 : typed.

Lemma typed_read_poll_seqnr : preserves typed ssh_packet_read_poll_seqnr.
Proof.
  unfold ssh_packet_read_poll_seqnr. apply preserves_bind; [typed|intros n].
  generalize (S (S n)). clear n. induction n as [|n IH]; cbn [read_poll_loop]; unfold read_poll_round; typed.
Qed.
Hint Resolve typed_read_poll_seqnr : typed.

Lemma typed_read_seqnr : preserves typed ssh_packet_read_seqnr.
Proof.
  unfold ssh_packet_read_seqnr. assert (Hl : forall n, preserves typed (read_seqnr_loop n)).
  { induction n as [|n IH]; cbn [read_seqnr_loop]; typed. }
  typed.
Qed.
Hint Resolve typed_read_seqnr : typed.

Lemma typed_put_random_bytes n : forall i r, preserves typed (put_random_bytes n i r).
Proof. induction n as [|n IH]; intros i r; cbn [put_random_bytes]; unfold sshpkt_put_u8; typed. Qed.
Hint Resolve typed_put_random_bytes : typed.

(** ** Calls of the packet layer *)

(** The calls of the rest of the program; between them it negotiates keys, and changes what
    is not an integer of the layer. *)
Inductive call : M unit -> Prop :=
| call_start type : call (sshpkt_start type)
| call_put v : call (sshpkt_put v)
| call_put_string v : call (sshpkt_put_string v)
| call_add_padding pad : call (sshpkt_add_padding pad)
| call_send : call sshpkt_send
| call_msg_ignore n : call (sshpkt_msg_ignore n)
| call_disconnect text : call (sshpkt_disconnect text)
| call_start_rekex : call kex_start_rekex
| call_set_newkeys m : call (ssh_set_newkeys m)
| call_write_poll : call ssh_packet_write_poll
| call_write_wait : call ssh_packet_write_wait
| call_read_seqnr : call (ssh_packet_read_seqnr ;; mret tt)
| call_read_poll_seqnr : call (ssh_packet_read_poll_seqnr ;; mret tt)
| call_read_expect type : call (ssh_packet_read_expect type)
| call_process_incoming buf : call (ssh_packet_process_incoming buf)
| call_negotiated k : block_ok (fst (kex_blocks (Some k))) -> block_ok (snd (kex_blocks (Some k))) ->
    call (modify (set_kex (Some k)))
| call_set_rekey_limits bytes seconds : 0 <= bytes < 2 ^ 64 -> call (ssh_packet_set_rekey_limits bytes seconds)
| call_set_timeout timeout count : call (ssh_packet_set_timeout timeout count)
| call_set_maxsize n : call (ssh_packet_set_maxsize n ;; mret tt)
| call_set_mux : call ssh_packet_set_mux
| call_set_server : call ssh_packet_set_server
| call_set_authenticated : call ssh_packet_set_authenticated
| call_other g : (forall s, ints (g s) = ints s) -> call (modify g).

Lemma timeout_range timeout count :
  -1 <= (if (timeout <=? 0) || (count <=? 0) then -1
         else if (INT_MAX / 1000) / count <? timeout then INT_MAX else timeout * count * 1000) <= INT_MAX.
Proof.
  unfold INT_MAX. change ((2 ^ 31 - 1) / 1000) with 2147483.
  destruct (Z.leb_spec timeout 0), (Z.leb_spec count 0); cbn [orb]; try lia.
  destruct (Z.ltb_spec (2147483 / count) timeout); [lia|].
  pose proof (Z.mul_div_le 2147483 count). nia.
Qed.

Lemma typed_call m : call m -> preserves typed m.
Proof.
  destruct 1; try (by auto with typed); unfold sshpkt_put, sshpkt_put_string, sshpkt_msg_ignore, sshpkt_put_u32,
    ssh_packet_read_expect, ssh_packet_set_authenticated, ssh_packet_set_server; try (by typed).
  - apply preserves_modify. intros s []. split; try done. apply u8_range.
  - apply preserves_modify. intros s []. by split.
  - apply preserves_bind; [apply preserves_modify; intros s []; by split|intros _]. typed.
  - apply preserves_modify. intros s []. split; try done. apply timeout_range.
  - unfold ssh_packet_set_maxsize. apply preserves_bind; [|intros _; typed].
    apply preserves_bind; [typed|intros []]; [typed|].
    destruct (Z.ltb_spec n (4 * 1024)), (Z.gtb_spec n (1024 * 1024)); cbn [orb]; try (by typed).
    apply preserves_bind; [typed|intros _]. apply preserves_bind; [|intros _; typed].
    apply preserves_modify. intros s []. split; try done. cbn. lia.
  - unfold ssh_packet_set_mux. apply preserves_bind; [typed|intros _]. apply preserves_bind; [typed|intros _].
    apply preserves_modify. intros s []. by split.
  - by apply typed_keeps, keeps_modify.
Qed.
End calls.

(** The sessions that calls lead to, those that failed or wait for the peer included. *)
Inductive reachable {C : Crypto} {E : Env} : session -> Prop :=
| reach_start w : reachable (ssh_alloc_session_state w)
| reach_plain s s' : reachable s -> ssh_packet_set_connection s = Some s' -> reachable s'
| reach_call s m s' : reachable s -> call m -> final (m s) = Some s' -> reachable s'.


(** A session after a call that fails and one that does not. *)
Definition limited : session :=
  set_packet_timeout_ms INT_MAX (set_rekey_interval 3600 (set_rekey_limit (2 ^ 30) (ssh_alloc_session_state (tt : @os plain_env)))).

