(* ===== verification/KexConf.v ===== *)
(** The negotiation of a key exchange: proposals as they are sent and parsed, and the choice
    of algorithms against the rule of RFC 4253, which does not depend on the side that
    applies it. *)

From S2P Require Import Prelude SshErr Wire SshQueue Compat Match KeyTypes.
From S2P Require Import ChaCha ChachaPoly Digest SshCipher CipherLink Packet PacketSend Plain PacketRead.
From S2P Require Import PacketFrame PacketBounds PacketPoll PacketLink Kex.

(** ** Computations that depend on the environment for memory only *)

Section does.
Context {C : Crypto} {E : Env} {L : EnvLaws}.

(** [m] gives [r] and leaves [s'], up to the state of the environment. *)
Definition does {A} (m : M A) (s : session) (r : res A) (s' : session) : Prop :=
  exists w, m s = match r with Ok a => Ret a (set_world w s') | Err e => Fail e (set_world w s') end.

Lemma does_bind {A B} (m : M A) (k : A -> M B) s a s1 r s2 :
  does m s (Ok a) s1 -> (forall w, does (k a) (set_world w s1) r s2) -> does (mbind m k) s r s2.
Proof. intros [w H] K. destruct (K w) as [w' K']. exists w'. unfold mbind. by rewrite H. Qed.

Lemma does_fail {A B} (m : M A) (k : A -> M B) s e s1 :
  does m s (Err e) s1 -> does (mbind m k) s (Err e) s1.
Proof. intros [w H]. exists w. unfold mbind. by rewrite H. Qed.

Lemma does_exact {A} (m : M A) s a s1 : m s = Ret a s1 -> does m s (Ok a) s1.
Proof. intros H. exists (world s1). rewrite H. by destruct s1. Qed.

Lemma does_stop {A} (m : M A) s e s1 : m s = Fail e s1 -> does m s (Err e) s1.
Proof. intros H. exists (world s1). rewrite H. by destruct s1. Qed.

Lemma does_lift {A} (r : res A) s : does (lift r) s r s.
Proof. destruct r; [by apply does_exact|by apply does_stop]. Qed.

Lemma does_memory s : does (env request_memory) s (Ok true) s.
Proof.
  unfold does, env. pose proof (memory (world s)) as H. destruct (request_memory (world s)) as [b w].
  cbn in H. subst b. by exists w.
Qed.

Lemma does_world {A} (m : M A) s r s' w : does m s r (set_world w s') <-> does m s r s'.
Proof. split; intros [w' H]; exists w'; rewrite H; by destruct r. Qed.

Lemma does_buf_put q v s : zlen q + zlen v <= SSHBUF_SIZE_MAX -> does (buf_put q v) s (Ok (q ++ v)) s.
Proof.
  intros H. unfold buf_put, q_put. destruct (Z.gtb_spec (zlen q + zlen v) SSHBUF_SIZE_MAX); [lia|].
  eapply does_bind; [apply does_memory|]. intros w. by apply (proj1 (does_world _ _ _ _ w)), does_exact.
Qed.
End does.

(** A step whose result is known, and the steps that evaluate. *)
Ltac does_step H := eapply does_bind; [H|intros ?w; cbv beta iota].
Ltac does_done := first [eexists; reflexivity | apply does_exact; reflexivity | apply does_stop; reflexivity].

(** The last step of a computation, in the state the others left. *)
Ltac does_last :=
  match goal with |- does _ (set_world ?w _) _ _ => apply (proj1 (does_world _ _ _ _ w)) end.

(** ** Proposals *)

Section proposals.
Context {C : Crypto} {E : Env} {L : EnvLaws}.

(** [kex_buf2prop] without its allocations. *)
Fixpoint rd_names (n : nat) (q : bytes) : res (list bytes * bytes) :=
  match n with
  | O => Ok ([], q)
  | S n =>
    match rd_cstring q with
    | Err e => Err e
    | Ok (v, q) =>
      match rd_names n q with Err e => Err e | Ok (l, q) => Ok (c_str v :: l, q) end
    end
  end.

Definition rd_proposal (raw : bytes) : res (list bytes * Z) :=
  match buf_consume raw KEX_COOKIE_LEN with
  | Err e => Err e
  | Ok q =>
    match rd_names PROPOSAL_MAX q with
    | Err e => Err e
    | Ok (l, q) =>
      match rd_u8 q with
      | Err e => Err e
      | Ok (v, q) => match rd_u32 q with Err e => Err e | Ok _ => Ok (l, v) end
      end
    end
  end.

Lemma does_get_cstrings n : forall q s, does (get_cstrings n q) s (rd_names n q) s.
Proof.
  induction n as [|n IH]; intros q s; cbn [get_cstrings rd_names]; [does_done|].
  pose proof (does_lift (rd_cstring q) s) as H. destruct (rd_cstring q) as [[v q']|e]; [|by apply does_fail].
  does_step ltac:(exact H). does_step ltac:(apply does_memory). cbn [negb snd fst].
  pose proof (IH q' (set_world w0 (set_world w s))) as K.
  destruct (rd_names n q') as [[l q2]|e]; [|by apply does_fail].
  does_step ltac:(exact K). does_done.
Qed.

Lemma does_buf2prop raw s : does (kex_buf2prop raw) s (rd_proposal raw) s.
Proof.
  unfold kex_buf2prop, rd_proposal. does_step ltac:(apply does_memory). does_step ltac:(apply does_memory).
  cbn [negb]. set (s1 := set_world w0 _).
  pose proof (does_lift (buf_consume raw KEX_COOKIE_LEN) s1) as H.
  destruct (buf_consume raw KEX_COOKIE_LEN) as [q|e]; [|by apply does_fail].
  does_step ltac:(exact H). pose proof (does_get_cstrings PROPOSAL_MAX q (set_world w1 s1)) as K.
  destruct (rd_names PROPOSAL_MAX q) as [[l q2]|e]; [|by apply does_fail]. does_step ltac:(exact K).
  cbn [snd fst]. pose proof (does_lift (rd_u8 q2) (set_world w2 (set_world w1 s1))) as K2.
  destruct (rd_u8 q2) as [[v q3]|e]; [|by apply does_fail]. does_step ltac:(exact K2).
  cbn [snd fst]. pose proof (does_lift (rd_u32 q3) (set_world w3 (set_world w2 (set_world w1 s1)))) as K3.
  destruct (rd_u32 q3) as [[v' q4]|e]; [|by apply does_fail]. does_step ltac:(exact K3). does_done.
Qed.

(** What is sent. *)
Definition wr_proposal (cookie : bytes) (props : list bytes) : bytes :=
  cookie ++ concat (map wr_string props) ++ [x00] ++ POKE_U32 0.

Definition no_nul (v : bytes) : Prop := memchr0 v = None.

Lemma rd_names_app n : forall props rest, length props = n -> Forall no_nul props ->
  Forall (fun v => zlen v <= SSHBUF_SIZE_MAX - 4) props ->
  rd_names n (concat (map wr_string props) ++ rest) = Ok (props, rest).
Proof.
  induction n as [|n IH]; intros [|v props] rest Hl Hn Hz; try done.
  inversion Hn as [|? ? Hv Hn']; inversion Hz as [|? ? Hvz Hz']; subst. unfold no_nul in Hv.
  cbn [rd_names map concat]. rewrite <- app_assoc. unfold rd_cstring. rewrite rd_string_app, Hv by done.
  rewrite IH by (done || by injection Hl). unfold c_str. by rewrite Hv.
Qed.

Lemma rd_proposal_wr cookie props : zlen cookie = KEX_COOKIE_LEN -> length props = PROPOSAL_MAX ->
  Forall no_nul props -> Forall (fun v => zlen v <= SSHBUF_SIZE_MAX - 4) props ->
  rd_proposal (wr_proposal cookie props) = Ok (props, 0).
Proof.
  intros Hc Hl Hn Hz. unfold rd_proposal, wr_proposal, buf_consume. rewrite zlen_app, Hc.
  pose proof (zlen_nonneg (concat (map wr_string props) ++ [x00] ++ POKE_U32 0)).
  destruct (Z.ltb_spec (KEX_COOKIE_LEN + zlen (concat (map wr_string props) ++ [x00] ++ POKE_U32 0)) KEX_COOKIE_LEN); [lia|].
  replace (Z.to_nat KEX_COOKIE_LEN) with (length cookie) by (unfold zlen in Hc; lia).
  rewrite drop_app_length, rd_names_app by done. reflexivity.
Qed.

Lemma does_put_each n v : forall q s, zlen q + zlen (concat (replicate n v)) <= SSHBUF_SIZE_MAX ->
  does (put_each q (replicate n v)) s (Ok (q ++ concat (replicate n v))) s.
Proof.
  induction n as [|n IH]; intros q s H; cbn [put_each replicate concat].
  - rewrite app_nil_r. does_done.
  - cbn [replicate concat] in H. rewrite zlen_app in H. pose proof (zlen_nonneg (concat (replicate n v))).
    does_step ltac:(apply does_buf_put; lia). rewrite app_assoc.
    does_last. apply IH. rewrite zlen_app. lia.
Qed.

Lemma does_put_cstrings l : forall q s, zlen q + zlen (concat (map wr_string l)) <= SSHBUF_SIZE_MAX ->
  does (put_cstrings q l) s (Ok (q ++ concat (map wr_string l))) s.
Proof.
  induction l as [|v l IH]; intros q s H; cbn [put_cstrings map concat].
  - rewrite app_nil_r. does_done.
  - cbn [map concat] in H. rewrite zlen_app in H. pose proof (zlen_nonneg (concat (map wr_string l))).
    pose proof (zlen_nonneg q). assert (Hw : zlen (wr_string v) = 4 + zlen v) by (unfold wr_string; zlen).
    destruct (Z.gtb_spec (zlen v) (SSHBUF_SIZE_MAX - 4)); [lia|].
    does_step ltac:(apply does_buf_put; lia). rewrite app_assoc.
    does_last. apply IH. rewrite zlen_app. lia.
Qed.

Lemma does_prop2buf props s : zlen (wr_proposal (zeros 16) props) <= SSHBUF_SIZE_MAX ->
  does (kex_prop2buf props) s (Ok (wr_proposal (zeros 16) props)) s.
Proof.
  intros H. unfold wr_proposal in H. rewrite !zlen_app in H. change (zlen (zeros 16)) with 16 in H.
  change (zlen [x00]) with 1 in H. change (zlen (POKE_U32 0)) with 4 in H.
  pose proof (zlen_nonneg (concat (map wr_string props))).
  unfold kex_prop2buf. eapply does_bind; [by apply does_put_each|]. intros w.
  change (concat (replicate (Z.to_nat KEX_COOKIE_LEN) [x00])) with (zeros 16). cbn [app].
  assert (Z16 : zlen (zeros 16) = 16) by done.
  eapply does_bind; [apply does_put_cstrings; lia|]. intros w1.
  eapply does_bind; [apply (does_put_each 1); cbn [replicate concat]; rewrite !zlen_app, Z16;
    change (zlen [x00]) with 1; change (zlen (@nil byte)) with 0; lia|]. intros w2.
  cbn [replicate concat]. rewrite app_nil_r.
  replace (wr_proposal (zeros 16) props) with (((zeros 16 ++ concat (map wr_string props)) ++ [x00]) ++ POKE_U32 0)
    by (unfold wr_proposal; by rewrite <- !app_assoc).
  does_last. apply does_buf_put. rewrite !zlen_app, Z16. change (zlen [x00]) with 1. change (zlen (POKE_U32 0)) with 4. lia.
Qed.
End proposals.

(** Claim C35: the proposal that [kex_prop2buf] writes is the one [kex_buf2prop] reads, with the
    cookie that [kex_send_kexinit] puts over the first bytes; the lists hold no NUL, as C
    strings do, and fit a buffer. *)
Theorem proposal_roundtrip {C : Crypto} {E : Env} {L : EnvLaws} props cookie s
    (Hl : length props = PROPOSAL_MAX) (Hn : Forall no_nul props) (Hc : zlen cookie = KEX_COOKIE_LEN)
    (Hz : zlen (concat (map wr_string props)) + 21 <= SSHBUF_SIZE_MAX) :
  exists raw s1 s2, kex_prop2buf props s = Ret raw s1 /\
    kex_buf2prop (cookie ++ drop (Z.to_nat KEX_COOKIE_LEN) raw) s1 = Ret (props, 0) s2.
Proof.
  destruct (does_prop2buf props s) as [w Hw].
  { unfold wr_proposal. rewrite !zlen_app. change (zlen (zeros 16)) with 16. change (zlen [x00]) with 1.
    change (zlen (POKE_U32 0)) with 4. lia. }
  set (s1 := set_world w s) in *.
  destruct (does_buf2prop (wr_proposal cookie props) s1) as [w' Hw'].
  rewrite rd_proposal_wr in Hw' by (done || (apply Forall_forall; intros v Hv;
    apply list_elem_of_split in Hv as (l1 & l2 & ->); rewrite map_app, concat_app, zlen_app in Hz;
    cbn [map concat] in Hz; rewrite zlen_app in Hz;
    pose proof (zlen_nonneg (concat (map wr_string l1))); pose proof (zlen_nonneg (concat (map wr_string l2)));
    unfold wr_string at 2 in Hz; rewrite zlen_app in Hz; change (zlen (POKE_U32 (zlen v))) with 4 in Hz; lia)).
  exists (wr_proposal (zeros 16) props), s1, (set_world w' s1). split; [exact Hw|].
  replace (drop _ _) with (drop (length (zeros 16)) (wr_proposal (zeros 16) props)) by done.
  unfold wr_proposal at 1. rewrite drop_app_length. exact Hw'.
Qed.

Definition ten_names : list bytes := [
  lit "curve25519-sha256,ext-info-c"; lit "ssh-ed25519"; lit "chacha20-poly1305@openssh.com,aes128-ctr";
  lit "aes128-ctr"; lit "umac-64@openssh.com"; lit "hmac-sha2-256"; lit "none"; lit "none"; []; []
].

Lemma proposal_roundtrip_witness :
  exists raw s1 s2, kex_prop2buf ten_names (ssh_alloc_session_state (tt : @os plain_env)) = Ret raw s1 /\
    kex_buf2prop (lit "0123456789abcdef" ++ drop (Z.to_nat KEX_COOKIE_LEN) raw) s1 = Ret (ten_names, 0) s2.
Proof.
  apply proposal_roundtrip; [reflexivity|repeat (constructor; [reflexivity|]); constructor|reflexivity|].
  vm_compute. discriminate.
Defined.

(** ** The rule of RFC 4253, section 7.1 *)

Section rule.
Context {C : Crypto}.

(** The algorithms of one direction. *)
Definition choose_direction (ctos : bool) (client server : list bytes) : res newkeys :=
  let pick i := (proposal i client, proposal i server) in
  let enc := pick (if ctos then PROPOSAL_ENC_ALGS_CTOS else PROPOSAL_ENC_ALGS_STOC) in
  let mac := pick (if ctos then PROPOSAL_MAC_ALGS_CTOS else PROPOSAL_MAC_ALGS_STOC) in
  let comp := pick (if ctos then PROPOSAL_COMP_ALGS_CTOS else PROPOSAL_COMP_ALGS_STOC) in
  match choose_enc (fst enc) (snd enc) with
  | Err e => Err e
  | Ok enc =>
    match (if cipher_authlen (enc_cipher enc) =? 0 then choose_mac true blank_mac (fst mac) (snd mac)
           else Ok (blank_mac, [])) with
    | Err e => Err e
    | Ok (mac, name) =>
      match choose_comp (fst comp) (snd comp) with
      | Err e => Err e
      | Ok comp => Ok (mk_newkeys enc mac name comp)
      end
    end
  end.

Record algorithms := mk_algs {
  al_kex : kexalg; al_kex_name : bytes; al_hostkey : bytes; al_ctos : newkeys; al_stoc : newkeys
}.

(** What a client's and a server's lists agree on, whoever computes it. *)
Definition negotiate (client server : list bytes) : option algorithms :=
  match fst (match_list (proposal PROPOSAL_KEX_ALGS client) (proposal PROPOSAL_KEX_ALGS server)),
    fst (match_list (proposal PROPOSAL_SERVER_HOST_KEY_ALGS client)
           (proposal PROPOSAL_SERVER_HOST_KEY_ALGS server)),
    choose_direction true client server, choose_direction false client server with
  | Some kn, Some hn, Ok ctos, Ok stoc =>
    match kex_alg_by_name kn with
    | Some a => if sshkey_type_from_name hn =? KEY_UNSPEC then None else Some (mk_algs a kn hn ctos stoc)
    | None => None
    end
  | _, _, _, _ => None
  end.

(** The same with the state an exchange keeps of it. *)
Record adopted (al : algorithms) (k : kex_state) : Prop := {
  ad_name : kex_name k = Some (al_kex_name al);
  ad_method : kex_type k = ka_type (al_kex al) /\ ec_nid k = ka_ec_nid (al_kex al) /\
    hash_alg k = ka_hash_alg (al_kex al);
  ad_hostkey : hostkey_alg k = Some (al_hostkey al) /\
    hostkey_type k = sshkey_type_from_name (al_hostkey al) /\
    hostkey_nid k = sshkey_ecdsa_nid_from_name (al_hostkey al);
  ad_in : kex_newkeys_in k = Some (if kex_server k then al_ctos al else al_stoc al);
  ad_out : kex_newkeys_out k = Some (if kex_server k then al_stoc al else al_ctos al);
  ad_need : (we_need k, dh_need k) = needs (al_ctos al) (needs (al_stoc al) (0, 0))
}.
End rule.

Section choice.
Context {C : Crypto} {E : Env} {L : EnvLaws}.

Lemma does_update_kex f s k : kex s = Some k ->
  does (update_kex f) s (Ok tt) (set_kex (Some (f k)) s).
Proof. intros H. apply does_exact. unfold update_kex, modify. by rewrite H. Qed.

Lemma does_deref {A} (g : session -> option A) s a : g s = Some a -> does (deref g) s (Ok a) s.
Proof. intros H. apply does_exact. unfold deref. by rewrite H. Qed.

(** A computation that ends with an error. *)
Definition fails {A} (m : M A) (s : session) : Prop := exists e s', m s = Fail e s'.

(** It succeeds with this result and state, or it fails. *)
Definition settles {A} (m : M A) (s : session) (r : option (A * session)) : Prop :=
  match r with Some (a, s') => does m s (Ok a) s' | None => fails m s end.

Lemma settles_bind {A B} (m : M A) (k : A -> M B) s a s1 r :
  does m s (Ok a) s1 -> (forall w, settles (k a) (set_world w s1) r) -> settles (mbind m k) s r.
Proof.
  intros [w H] K. specialize (K w). destruct r as [[b s2]|]; cbn in *.
  - destruct K as [w' K']. exists w'. unfold mbind. by rewrite H.
  - destruct K as (e & s' & K'). exists e, s'. unfold mbind. by rewrite H.
Qed.

Lemma settles_fail {A B} (m : M A) (k : A -> M B) s : fails m s -> settles (mbind m k) s None.
Proof. intros (e & s' & H). exists e, s'. unfold mbind. by rewrite H. Qed.

Lemma settles_err {A} peer i e s (k : A -> M unit) : settles (mbind (chosen peer i (Err e)) k) s None.
Proof. apply settles_fail. unfold chosen. by eexists _, _. Qed.

(** The keys of a direction under construction. *)
Definition building (m : kex_mode) (k : kex_state) (s : session) (nk : newkeys) : session :=
  set_kex (Some (set_kex_newkeys m (Some nk) k)) s.

Lemma does_build m f w k s nk :
  does (update_kex_newkeys m f) (set_world w (building m k s nk)) (Ok tt) (building m k s (f nk)).
Proof. exists w. by destruct m. Qed.

Lemma does_choose_newkeys c sp peer server m s k : kex s = Some k ->
  settles (choose_newkeys c sp peer server m) s
    match choose_direction (is_ctos server m) c sp with
    | Ok nk => Some (tt, building m k s nk)
    | Err _ => None
    end.
Proof.
  intros Hk. unfold choose_newkeys, choose_direction. cbv zeta. cbn [fst snd].
  set (ie := if is_ctos server m then PROPOSAL_ENC_ALGS_CTOS else _).
  set (im := if is_ctos server m then PROPOSAL_MAC_ALGS_CTOS else _).
  set (ic := if is_ctos server m then PROPOSAL_COMP_ALGS_CTOS else _).
  eapply settles_bind; [apply does_memory|]. intros w. cbn [negb].
  eapply (settles_bind _ _ _ _ (building m k s blank_newkeys)); [does_last; exact (does_update_kex _ (set_world w s) k Hk)|]. intros w1.
  destruct (choose_enc (proposal ie c) (proposal ie sp)) as [enc|e]; [|apply settles_err].
  eapply settles_bind; [by apply does_exact|]. intros w2.
  eapply settles_bind; [apply does_build|]. intros w3.
  assert (Hmac : settles (if cipher_authlen (enc_cipher enc) =? 0
     then let! ok := env request_memory in
          let! mac := chosen peer im (choose_mac ok blank_mac (proposal im c) (proposal im sp)) in
          update_kex_newkeys m (with_mac_name mac)
     else mret tt) (set_world w3 (building m k s (with_enc enc blank_newkeys)))
    match (if cipher_authlen (enc_cipher enc) =? 0 then choose_mac true blank_mac (proposal im c) (proposal im sp)
           else Ok (blank_mac, [])) with
    | Ok mac => Some (tt, building m k s (with_mac_name mac (with_enc enc blank_newkeys)))
    | Err _ => None end).
  { destruct (cipher_authlen (enc_cipher enc) =? 0); [|by exists w3].
    eapply settles_bind; [apply does_memory|]. intros w4.
    destruct (choose_mac true _ _ _) as [mac|e]; [|apply settles_err].
    eapply settles_bind; [by apply does_exact|]. intros w5. apply does_build. }
  destruct (if cipher_authlen (enc_cipher enc) =? 0 then _ else _) as [[mac name]|e]; [|by apply settles_fail].
  eapply settles_bind; [exact Hmac|]. intros w4.
  destruct (choose_comp _ _) as [comp|e]; [|apply settles_err].
  eapply settles_bind; [by apply does_exact|]. intros w5. apply does_build.
Qed.

Lemma settles_in_kex {B} peer i choose s k (next : unit -> M B) r : kex s = Some k ->
  (forall k', choose k = (k', None) -> forall w, settles (next tt) (set_world w (set_kex (Some k') s)) r) ->
  (snd (choose k) <> None -> r = None) ->
  settles (mbind (chosen_in_kex peer i choose) next) s r.
Proof.
  intros Hk Hn Hr. destruct (choose k) as [k' [e|]] eqn:Ec.
  - rewrite (Hr ltac:(done)). apply settles_fail. unfold fails, chosen_in_kex, mbind, deref. rewrite Hk, Ec. by eexists _, _.
  - eapply settles_bind; [|intros w; by apply (Hn k')]. apply does_exact.
    unfold chosen_in_kex, mbind, deref. by rewrite Hk, Ec.
Qed.

(** What the choice leaves alone. *)
Definition kex_frame (k : kex_state) := (kex_server k, kex_flags k, session_id k, kex_my k, kex_peer k).

Lemma max4_comm n a b c d a' b' c' d' : max4 (max4 n a b c d) a' b' c' d' = max4 (max4 n a' b' c' d') a b c d.
Proof.
  assert (H : forall n a b c d, max4 n a b c d = Z.max n (Z.max a (Z.max b (Z.max c d)))).
  { intros. unfold max4. by rewrite <- !Z.max_assoc. }
  rewrite !H. by rewrite <- !(Z.max_assoc n), (Z.max_comm (Z.max a _)).
Qed.

Lemma needs_comm a b : needs a (needs b (0, 0)) = needs b (needs a (0, 0)).
Proof. unfold needs. cbn [fst snd]. f_equal; apply max4_comm. Qed.

Lemma choose_kex_agreed c sp k : match fst (match_list c sp) with
  | None => snd (choose_kex c sp k) <> None
  | Some n => match kex_alg_by_name n with
              | None => snd (choose_kex c sp k) <> None
              | Some a => choose_kex c sp k =
                  (set_ec_nid (ka_ec_nid a) (set_hash_alg (ka_hash_alg a)
                     (set_kex_type (ka_type a) (set_kex_name (Some n) k))), None)
              end
  end.
Proof.
  unfold choose_kex. destruct (fst (match_list c sp)) as [n|]; [|done]. by destruct (kex_alg_by_name n).
Qed.

Lemma choose_hostkeyalg_agreed c sp k : match fst (match_list c sp) with
  | None => snd (choose_hostkeyalg c sp k) <> None
  | Some n => if sshkey_type_from_name n =? KEY_UNSPEC then snd (choose_hostkeyalg c sp k) <> None
              else choose_hostkeyalg c sp k =
                (set_hostkey_nid (sshkey_ecdsa_nid_from_name n)
                   (set_hostkey_type (sshkey_type_from_name n) (set_hostkey_alg (Some n) k)), None)
  end.
Proof.
  unfold choose_hostkeyalg. destruct (fst (match_list c sp)) as [n|]; [|done].
  by destruct (sshkey_type_from_name n =? KEY_UNSPEC).
Qed.

(** The two directions, in the order of the code. *)
Lemma settles_directions {B} c sp peer server s k (next : unit -> M B) r : kex s = Some k ->
  let dir m := choose_direction (is_ctos server m) c sp in
  (forall kin kout w, dir MODE_IN = Ok kin -> dir MODE_OUT = Ok kout ->
     settles (next tt) (set_world w (set_kex (Some (set_kex_newkeys_out (Some kout) (set_kex_newkeys_in (Some kin) k))) s)) r) ->
  ((exists e, dir MODE_IN = Err e) \/ (exists e, dir MODE_OUT = Err e) -> r = None) ->
  settles (choose_newkeys c sp peer server MODE_IN ;; mbind (choose_newkeys c sp peer server MODE_OUT) next) s r.
Proof.
  intros Hk dir Hn Hr. pose proof (does_choose_newkeys c sp peer server MODE_IN s k Hk) as H1. fold (dir MODE_IN) in H1.
  destruct (dir MODE_IN) as [kin|e]; [|rewrite Hr by eauto; by apply settles_fail].
  eapply settles_bind; [exact H1|]. intros w. set (s1 := set_world w _).
  pose proof (does_choose_newkeys c sp peer server MODE_OUT s1 _ eq_refl) as H2. fold (dir MODE_OUT) in H2.
  destruct (dir MODE_OUT) as [kout|e]; [|rewrite Hr by eauto; by apply settles_fail].
  eapply settles_bind; [exact H2|]. intros w1. by apply (Hn kin kout w1).
Qed.

(** The state in which a successful negotiation leaves the exchange. *)
Definition settled (peer : list bytes) (al : algorithms) (k : kex_state) : kex_state :=
  let k1 := if kex_server k && has (kex_flags k) KEX_INITIAL
    then set_ext_info_c (bool_decide (is_Some (fst (match_list (lit "ext-info-c") (proposal PROPOSAL_KEX_ALGS peer))))) k
    else k in
  let a := al_kex al in let hn := al_hostkey al in
  let kin := if kex_server k then al_ctos al else al_stoc al in
  let kout := if kex_server k then al_stoc al else al_ctos al in
  let nd := needs kout (needs kin (0, 0)) in
  set_dh_need (snd nd) (set_we_need (fst nd)
    (set_kex_newkeys_out (Some kout) (set_kex_newkeys_in (Some kin)
      (set_hostkey_nid (sshkey_ecdsa_nid_from_name hn) (set_hostkey_type (sshkey_type_from_name hn)
        (set_hostkey_alg (Some hn) (set_ec_nid (ka_ec_nid a) (set_hash_alg (ka_hash_alg a)
          (set_kex_type (ka_type a) (set_kex_name (Some (al_kex_name al)) k1)))))))))).

Lemma settled_adopted peer al k : adopted al (settled peer al k) /\ kex_frame (settled peer al k) = kex_frame k.
Proof.
  split; [split|]; try (unfold settled; destruct (_ && _); split_and?; reflexivity).
  transitivity (let nd := needs (if kex_server k then al_stoc al else al_ctos al)
    (needs (if kex_server k then al_ctos al else al_stoc al) (0, 0)) in (fst nd, snd nd)).
  { unfold settled. destruct (_ && _); reflexivity. }
  cbv zeta. rewrite <- surjective_pairing. destruct (kex_server k); [apply needs_comm|reflexivity].
Qed.

Lemma conf_settles s k my peer f0 f : kex s = Some k ->
  rd_proposal (kex_my k) = Ok (my, f0) -> rd_proposal (kex_peer k) = Ok (peer, f) ->
  settles kex_choose_conf s
    match negotiate (if kex_server k then peer else my) (if kex_server k then my else peer) with
    | Some al => Some (tt, let s' := set_kex (Some (settled peer al k)) s in
        if negb (f =? 0) && negb (proposals_match my peer) then set_dispatch_skip_packets 1 s' else s')
    | None => None
    end.
Proof.
  intros Hk Hmy Hpeer. unfold kex_choose_conf.
  set (c := if kex_server k then peer else my). set (sp := if kex_server k then my else peer).
  eapply settles_bind; [by apply does_deref|]. intros w.
  pose proof (does_buf2prop (kex_my k) (set_world w s)) as H1. rewrite Hmy in H1.
  eapply settles_bind; [exact H1|]. intros w1. clear H1.
  pose proof (does_buf2prop (kex_peer k) (set_world w1 (set_world w s))) as H1. rewrite Hpeer in H1.
  eapply settles_bind; [exact H1|]. intros w2. clear H1. cbn [fst snd]. fold c sp.
  set (k1 := if kex_server k && has (kex_flags k) KEX_INITIAL
    then set_ext_info_c (bool_decide (is_Some (fst (match_list (lit "ext-info-c") (proposal PROPOSAL_KEX_ALGS peer))))) k
    else k).
  eapply (settles_bind _ _ _ _ (set_kex (Some k1) s)).
  { unfold k1. destruct (_ && _).
    - does_last. exact (does_update_kex _ (set_world w2 s) k Hk).
    - does_last. apply does_exact. unfold mret. f_equal. clear -Hk. destruct s; cbn in *. by subst. }
  intros w3. set (s3 := set_world w3 _).
  unfold negotiate.
  pose proof (choose_kex_agreed (proposal PROPOSAL_KEX_ALGS c) (proposal PROPOSAL_KEX_ALGS sp) k1) as HK.
  destruct (fst (match_list (proposal PROPOSAL_KEX_ALGS c) _)) as [kn|];
    [|apply (settles_in_kex _ _ _ _ k1); [done| |done]; intros k' Ek; by rewrite Ek in HK].
  destruct (kex_alg_by_name kn) as [a|];
    [|apply (settles_in_kex _ _ _ _ k1); [done| |by repeat case_match]; intros k' Ek; by rewrite Ek in HK].
  apply (settles_in_kex _ _ _ _ k1); [done| |rewrite HK; done]. intros k2 Ek w4.
  rewrite HK in Ek. injection Ek as <-. clear HK.
  match goal with |- context [set_kex (Some ?k') s3] => set (k2 := k') end.
  pose proof (choose_hostkeyalg_agreed (proposal PROPOSAL_SERVER_HOST_KEY_ALGS c)
    (proposal PROPOSAL_SERVER_HOST_KEY_ALGS sp) k2) as HK.
  destruct (fst (match_list (proposal PROPOSAL_SERVER_HOST_KEY_ALGS c) _)) as [hn|];
    [|apply (settles_in_kex _ _ _ _ k2); [done| |done]; intros k' Ek; by rewrite Ek in HK].
  destruct (sshkey_type_from_name hn =? KEY_UNSPEC);
    [apply (settles_in_kex _ _ _ _ k2); [done| |by repeat case_match]; intros k' Ek; by rewrite Ek in HK|].
  apply (settles_in_kex _ _ _ _ k2); [done| |rewrite HK; done]. intros k3 Ek w5.
  rewrite HK in Ek. injection Ek as <-. clear HK.
  match goal with |- context [set_kex (Some ?k') (set_world w4 _)] => set (k3 := k') end.
  apply (settles_directions _ _ _ _ _ k3); [done| |].
  2: { intros [[e He]|[e He]]; unfold is_ctos in He; destruct (kex_server k); cbn in He; rewrite He;
       by repeat case_match. }
  intros kin kout w6 Hin Hout.
  assert (Hdir : choose_direction true c sp = Ok (if kex_server k then kin else kout) /\
                 choose_direction false c sp = Ok (if kex_server k then kout else kin)).
  { unfold is_ctos in *. by destruct (kex_server k). }
  destruct Hdir as [-> ->].
  eapply settles_bind; [by apply does_deref|]. intros w7.
  eapply settles_bind; [by apply does_deref|]. intros w8. cbn [kex_newkeys_in kex_newkeys_out].
  eapply settles_bind; [by eapply does_update_kex|]. intros w9.
  match goal with |- context [set_kex (Some ?k') (set_world w8 _)] => set (k5 := k') end.
  assert (Ek5 : k5 = settled peer (mk_algs a kn hn (if kex_server k then kin else kout)
                                    (if kex_server k then kout else kin)) k).
  { unfold k5, settled. cbn [al_kex al_kex_name al_hostkey al_ctos al_stoc]. fold k1.
    by destruct (kex_server k). }
  rewrite <- Ek5. destruct (negb (f =? 0) && _); by exists w9.
Qed.
End choice.

(** Claim C13: two ends that hold each other's proposals, one as the server, adopt the same
    algorithms, those of the rule of RFC 4253 applied to the lists of the client and of the
    server, or both refuse; what else the exchange holds stays. *)
Theorem ends_agree {C : Crypto} {E : Env} {L : EnvLaws} a b ka kb pa fa pb fb
    (Ha : kex a = Some ka) (Hb : kex b = Some kb)
    (Hab : kex_peer ka = kex_my kb) (Hba : kex_peer kb = kex_my ka) (Hs : kex_server kb = negb (kex_server ka))
    (Hpa : rd_proposal (kex_my ka) = Ok (pa, fa)) (Hpb : rd_proposal (kex_my kb) = Ok (pb, fb)) :
  match negotiate (if kex_server ka then pb else pa) (if kex_server ka then pa else pb) with
  | Some al => exists a' b' ka' kb', kex_choose_conf a = Ret tt a' /\ kex_choose_conf b = Ret tt b' /\
      kex a' = Some ka' /\ kex b' = Some kb' /\ adopted al ka' /\ adopted al kb' /\
      kex_frame ka' = kex_frame ka /\ kex_frame kb' = kex_frame kb
  | None => fails kex_choose_conf a /\ fails kex_choose_conf b
  end.
Proof.
  pose proof (conf_settles a ka pa pb fa fb Ha Hpa ltac:(by rewrite Hab)) as H1.
  pose proof (conf_settles b kb pb pa fb fa Hb Hpb ltac:(by rewrite Hba)) as H2.
  assert (E2 : negotiate (if kex_server kb then pa else pb) (if kex_server kb then pb else pa) =
               negotiate (if kex_server ka then pb else pa) (if kex_server ka then pa else pb)).
  { rewrite Hs. by destruct (kex_server ka). }
  rewrite E2 in H2. clear E2. destruct (negotiate _ _) as [al|]; [|done].
  destruct H1 as [wa H1], H2 as [wb H2]. cbv zeta in H1, H2.
  destruct (settled_adopted pb al ka) as [A1 F1], (settled_adopted pa al kb) as [A2 F2].
  eexists _, _, (settled pb al ka), (settled pa al kb). split; [exact H1|]. split; [exact H2|].
  assert (K : forall (b : bool) w s, kex (set_world w (if b then set_dispatch_skip_packets 1 s else s)) = kex s)
    by (by intros []).
  split; [exact (K _ _ (set_kex _ a))|]. split; [exact (K _ _ (set_kex _ b))|]. done.
Qed.

(** A server that prefers other algorithms. *)
Definition server_names : list bytes := [
  lit "curve25519-sha256"; lit "rsa-sha2-512,ssh-ed25519"; lit "aes128-ctr,chacha20-poly1305@openssh.com";
  lit "aes256-ctr,aes128-ctr"; lit "hmac-sha2-256"; lit "umac-64@openssh.com,hmac-sha2-256"; lit "none,zlib"; lit "zlib,none"; []; []
].

Definition proposed (server : bool) (my peer : list bytes) : kex_state :=
  set_kex_server server (set_kex_my (wr_proposal (zeros 16) my)
    (set_kex_peer (wr_proposal (zeros 16) peer) kex_new)).
Definition before_choice (server : bool) (my peer : list bytes) : session :=
  set_kex (Some (proposed server my peer)) (ssh_alloc_session_state (tt : @os plain_env)).

Lemma ends_agree_witness : negotiate ten_names server_names <> None /\
  match negotiate ten_names server_names with
  | Some al => exists a' b' ka' kb',
      kex_choose_conf (before_choice false ten_names server_names) = Ret tt a' /\
      kex_choose_conf (before_choice true server_names ten_names) = Ret tt b' /\
      kex a' = Some ka' /\ kex b' = Some kb' /\ adopted al ka' /\ adopted al kb' /\
      kex_frame ka' = kex_frame (proposed false ten_names server_names) /\
      kex_frame kb' = kex_frame (proposed true server_names ten_names)
  | None => fails kex_choose_conf (before_choice false ten_names server_names) /\
      fails kex_choose_conf (before_choice true server_names ten_names)
  end.
Proof.
  split; [vm_compute; discriminate|].
  apply (ends_agree (before_choice false ten_names server_names) (before_choice true server_names ten_names)
    (proposed false ten_names server_names) (proposed true server_names ten_names) ten_names 0 server_names 0
    eq_refl eq_refl eq_refl eq_refl eq_refl); vm_compute; reflexivity.
Defined.
