(* ===== verification/KexKeys.v ===== *)
(** The keys of an exchange: their derivation from the shared secret, and that two ends that
    agreed on the algorithms and took the keys into use are linked in the sense of
    PacketLink, so that the packets of one reach the other. *)

From S2P Require Import Prelude SshErr Wire SshQueue Compat Match KeyTypes.
From S2P Require Import Poly1305 ChaCha ChachaPoly Digest Hmac SshCipher CipherLink Packet PacketSend Plain PacketRead.
From S2P Require Import PacketFrame PacketBounds PacketPoll PacketLink Kex KexConf.

(** ** The derivation of RFC 4253, section 7.2 *)

Section derive.
Context {C : Crypto} {E : Env} {L : EnvLaws} {DL : DigestLaws}.

(** [K1 || K2 || ... || K(n+1)]. *)
Fixpoint key_stream (alg : Z) (secret hash k1 : bytes) (n : nat) : bytes :=
  match n with
  | O => k1
  | S n => let k := key_stream alg secret hash k1 n in k ++ digest_of alg (secret ++ hash ++ k)
  end.

(** The key with this letter: as many digests as [need] bytes take. *)
Definition derived (alg need : Z) (session_id hash secret : bytes) (id : Z) : bytes :=
  key_stream alg secret hash (digest_of alg (secret ++ hash ++ [byte_of_Z id] ++ session_id))
    (Z.to_nat ((need - 1) / ssh_digest_bytes alg)).

Lemma digest_pieces_spec alg l : 0 <= alg < SSH_DIGEST_MAX ->
  digest_pieces true alg l = Some (digest_of alg (concat l)).
Proof.
  intros H. unfold digest_pieces. destruct (start_spec alg H) as (c & -> & Hc).
  destruct (updates_spec l c alg [] Hc) as (c' & -> & Hc').
  pose proof (digest_bytes_range alg H). rewrite (final_spec _ _ _ _ Hc') by (done || unfold UINT_MAX; lia). done.
Qed.

Lemma zlen_key_stream alg secret hash k1 n : 0 <= alg < SSH_DIGEST_MAX -> zlen k1 = ssh_digest_bytes alg ->
  zlen (key_stream alg secret hash k1 n) = (Z.of_nat n + 1) * ssh_digest_bytes alg.
Proof.
  intros H H1. induction n as [|n IH]; cbn [key_stream]; [lia|].
  rewrite zlen_app, IH, (proj2 (digest_of_spec alg _ H)). lia.
Qed.

Lemma does_expand_key alg need secret hash k1 s : 0 <= alg < SSH_DIGEST_MAX ->
  zlen k1 = ssh_digest_bytes alg -> 0 < need -> forall fuel i,
  let n := Z.to_nat ((need - 1) / ssh_digest_bytes alg) in (i <= n)%nat -> (n <= fuel + i)%nat ->
  forall w, does (expand_key fuel alg need secret hash (key_stream alg secret hash k1 i)) (set_world w s)
    (Ok (key_stream alg secret hash k1 n)) s.
Proof.
  intros H H1 Hneed. pose proof (digest_bytes_range alg H) as Hd. set (md := ssh_digest_bytes alg) in *.
  assert (Hq : 0 <= (need - 1) / md) by (apply Z.div_pos; lia).
  assert (Hqs : md * ((need - 1) / md) <= need - 1 < md * ((need - 1) / md + 1)).
  { pose proof (Z.div_mod (need - 1) md). pose proof (Z.mod_pos_bound (need - 1) md). lia. }
  induction fuel as [|fuel IH]; intros i n Hi Hf w; cbn [expand_key].
  - assert (i = n) as -> by lia. by exists w.
  - rewrite zlen_key_stream by done. fold md.
    destruct (Z.gtb_spec need ((Z.of_nat i + 1) * md)).
    + assert (i < n)%nat by (unfold n; nia).
      eapply does_bind; [apply does_memory|]. intros w1.
      rewrite digest_pieces_spec by done. cbn [concat]. rewrite app_nil_r. apply (IH (S i)); lia.
    + assert (i = n) as -> by (unfold n in *; nia). by exists w.
Qed.

Lemma does_derive_key alg need sid hash secret id s : 0 <= alg < SSH_DIGEST_MAX -> 0 < need ->
  does (derive_key alg sid id need hash secret) s (Ok (derived alg need sid hash secret id)) s.
Proof.
  intros H Hn. pose proof (digest_bytes_range alg H) as Hd. unfold derive_key.
  destruct (Z.eqb_spec (ssh_digest_bytes alg) 0); [lia|].
  eapply does_bind; [apply does_memory|]. intros w. cbn [negb].
  eapply does_bind; [apply does_memory|]. intros w1. rewrite digest_pieces_spec by done.
  cbn [concat]. rewrite app_nil_r.
  apply (does_expand_key alg need secret hash _ s H (proj2 (digest_of_spec alg _ H)) Hn (Z.to_nat need) 0); [lia|].
  assert ((need - 1) / ssh_digest_bytes alg <= need) by (apply Z.div_le_upper_bound; nia). lia.
Qed.

Lemma zlen_derived alg need sid hash secret id : 0 <= alg < SSH_DIGEST_MAX -> 0 < need ->
  need <= zlen (derived alg need sid hash secret id).
Proof.
  intros H Hn. pose proof (digest_bytes_range alg H) as Hd. unfold derived.
  rewrite zlen_key_stream by (done || by apply digest_of_spec).
  pose proof (Z.div_mod (need - 1) (ssh_digest_bytes alg)). pose proof (Z.mod_pos_bound (need - 1) (ssh_digest_bytes alg)).
  assert (0 <= (need - 1) / ssh_digest_bytes alg) by (apply Z.div_pos; lia). nia.
Qed.

Lemma does_derive_keys_loop n : forall i alg sid need hash secret s, 0 <= alg < SSH_DIGEST_MAX -> 0 < need ->
  does (derive_keys_loop n i alg sid need hash secret) s
    (Ok (map (fun j => derived alg need sid hash secret (65 + (i + Z.of_nat j))) (seq 0 n))) s.
Proof.
  induction n as [|n IH]; intros i alg sid need hash secret s H Hn; cbn [derive_keys_loop seq map]; [does_done|].
  eapply does_bind; [by apply does_derive_key|]. intros w.
  eapply does_bind; [by apply IH|]. intros w1. rewrite Z.add_0_r.
  replace (map (fun j => derived alg need sid hash secret (65 + (i + Z.of_nat j))) (seq 1 n))
    with (map (fun j => derived alg need sid hash secret (65 + (i + 1 + Z.of_nat j))) (seq 0 n)).
  - does_done.
  - rewrite <- seq_shift, map_map. apply map_ext. intros j. do 2 f_equal. lia.
Qed.

(** The session identifier of an exchange is the hash of the first. *)
Definition session_id_of (k : kex_state) (hash : bytes) : bytes :=
  if has (kex_flags k) KEX_INITIAL then hash else session_id k.

Definition id_ready (k : kex_state) (hash : bytes) : Prop :=
  if has (kex_flags k) KEX_INITIAL then session_id k = [] /\ zlen hash <= SSHBUF_SIZE_MAX
  else session_id k <> [].

(** The keys of one direction: the letters A, C, E from client to server. *)
Definition direction_keys (k : kex_state) (hash secret : bytes) (ctos : bool) : newkeys -> newkeys :=
  let key id := derived (hash_alg k) (we_need k) (session_id_of k hash) hash secret id in
  set_keys (key (if ctos then 65 else 66)) (key (if ctos then 67 else 68)) (key (if ctos then 69 else 70)).

Definition with_keys (k : kex_state) (hash secret : bytes) (ki ko : newkeys) : kex_state :=
  set_kex_newkeys_out (Some (direction_keys k hash secret (negb (kex_server k)) ko))
    (set_kex_newkeys_in (Some (direction_keys k hash secret (kex_server k) ki))
       (set_session_id (session_id_of k hash) k)).

Lemma does_give_keys keys server m s k nk : kex s = Some k -> get_kex_newkeys m k = Some nk ->
  let ctos := is_ctos server m in
  does (give_keys keys server m) s (Ok tt) (set_kex (Some (set_kex_newkeys m (Some (set_keys
    (nth (if ctos then 0 else 1)%nat keys []) (nth (if ctos then 2 else 3)%nat keys [])
    (nth (if ctos then 4 else 5)%nat keys []) nk)) k)) s).
Proof.
  intros Hk Hm ctos. unfold give_keys. fold ctos.
  eapply does_bind; [apply does_deref; rewrite Hk; exact Hm|]. intros w.
  unfold update_kex_newkeys. does_last. pose proof (does_update_kex (fun k => set_kex_newkeys m
    (option_map (set_keys (nth (if ctos then 0 else 1)%nat keys []) (nth (if ctos then 2 else 3)%nat keys [])
      (nth (if ctos then 4 else 5)%nat keys [])) (get_kex_newkeys m k)) k) (set_world w s) k Hk) as H.
  cbv beta in H. by rewrite Hm in H.
Qed.

Lemma does_derive_keys hash secret s k ki ko : kex s = Some k ->
  kex_newkeys_in k = Some ki -> kex_newkeys_out k = Some ko -> id_ready k hash ->
  0 <= hash_alg k < SSH_DIGEST_MAX -> 0 < we_need k ->
  does (kex_derive_keys hash secret) s (Ok tt) (set_kex (Some (with_keys k hash secret ki ko)) s).
Proof.
  intros Hk Hi Ho Hid Ha Hn. unfold kex_derive_keys.
  eapply does_bind; [by apply does_deref|]. intros w.
  set (k1 := set_session_id (session_id_of k hash) k).
  eapply (does_bind _ _ _ _ (set_kex (Some k1) s)).
  { unfold k1, session_id_of, id_ready in *. destruct (has (kex_flags k) KEX_INITIAL).
    - destruct Hid as [Hid Hz]. rewrite Hid. cbn [zlen length Z.of_nat Z.eqb negb].
      eapply does_bind; [by apply does_buf_put|]. intros w1. cbn [app].
      does_last. exact (does_update_kex _ (set_world w1 s) k Hk).
    - destruct (Z.eqb_spec (zlen (session_id k)) 0) as [E0|].
      { exfalso. apply Hid. destruct (session_id k); [done|]. unfold zlen in E0. cbn in E0. lia. }
      exists w. unfold mret. f_equal. clear -Hk. destruct s; cbn in *. subst. by destruct k. }
  intros w1. eapply does_bind; [by apply does_deref|]. intros w2.
  eapply does_bind; [by apply does_derive_keys_loop|]. intros w3.
  change (kex_server k1) with (kex_server k).
  eapply does_bind; [eapply (does_give_keys _ _ MODE_IN); [reflexivity|exact Hi]|]. intros w4.
  set (keys := map _ _).
  assert (Ew : with_keys k hash secret ki ko =
    set_kex_newkeys MODE_OUT (Some (set_keys (nth (if is_ctos (kex_server k) MODE_OUT then 0 else 1)%nat keys [])
      (nth (if is_ctos (kex_server k) MODE_OUT then 2 else 3)%nat keys [])
      (nth (if is_ctos (kex_server k) MODE_OUT then 4 else 5)%nat keys []) ko))
    (set_kex_newkeys MODE_IN (Some (set_keys (nth (if is_ctos (kex_server k) MODE_IN then 0 else 1)%nat keys [])
      (nth (if is_ctos (kex_server k) MODE_IN then 2 else 3)%nat keys [])
      (nth (if is_ctos (kex_server k) MODE_IN then 4 else 5)%nat keys []) ki)) k1)).
  { unfold with_keys, direction_keys, is_ctos, keys. by destruct (kex_server k). }
  rewrite Ew. does_last. match goal with |- does _ ?S _ _ => pose (s4 := S) end.
  exact (does_give_keys keys (kex_server k) MODE_OUT s4 _ ko eq_refl Ho).
Qed.
End derive.

(** ** Contexts made from the same key *)

Section setup.
Context {C : Crypto}.

(** The calls of [cipher_init] for a cipher of libcrypto. *)
Definition evp_setup (c : sshcipher) (key : bytes) (keylen : Z) (iv : option bytes) (encrypt : bool) : option evp :=
  match EVP_CipherInit_type (c_name c) iv encrypt with
  | None => None
  | Some e =>
    match (if negb (cipher_authlen c =? 0) then EVP_CTRL_GCM_SET_IV_FIXED e iv else Some e) with
    | None => None
    | Some e =>
      let klen := EVP_CIPHER_CTX_key_length e in
      match (if (klen >? 0) && negb (keylen =? klen) then EVP_CIPHER_CTX_set_key_length e keylen else Some e) with
      | None => None
      | Some e => EVP_CipherInit_key e key
      end
    end
  end.

Lemma cipher_init_evp c key iv ivlen enc : has (c_flags c) CFLAG_CHACHAPOLY = false ->
  has (c_flags c) CFLAG_NONE = false -> cipher_ivlen c <= ivlen ->
  cipher_init c key (c_key_len c) (Some iv) ivlen enc =
    match evp_setup c key (c_key_len c) (Some iv) enc with
    | Some e => Ok (mk_cctx false enc c (Some e) None)
    | None => Err SSH_ERR_LIBCRYPTO_ERROR
    end.
Proof.
  intros Hf Hn Hl. unfold cipher_init, evp_setup. rewrite Hf, Hn, Z.ltb_irrefl.
  destruct (Z.ltb_spec ivlen (cipher_ivlen c)); [lia|]. cbn [orb].
  repeat case_match; congruence.
Qed.
End setup.

(** Documented of libcrypto: contexts initialised with the same key and iv, long enough for
    the cipher, decipher what the other enciphers; and the lengths of UMAC's tags. *)
Class KeyLaws {C : Crypto} {CL : CryptoLaws} := {
  evp_init c key iv : c ∈ ciphers -> has (c_flags c) CFLAG_CHACHAPOLY = false ->
    has (c_flags c) CFLAG_NONE = false -> c_key_len c <= zlen key -> cipher_ivlen c <= zlen iv ->
    exists e d, evp_setup c key (c_key_len c) (Some iv) true = Some e /\
      evp_setup c key (c_key_len c) (Some iv) false = Some d /\ evp_linked c e d;
  umac_length k d n : zlen (umac k d n) = 8;
  umac128_length k d n : zlen (umac128 k d n) = 16
}.

Section keys.
Context {C : Crypto} {CL : CryptoLaws} {KL : KeyLaws} {DL : DigestLaws}.

Lemma wf_keysetup x key : wf x -> wf (chacha_keysetup x key 256).
Proof.
  intros W. unfold chacha_keysetup. change (256 =? 256) with true. unfold U8TO32_LITTLE.
  repeat apply wf_set_word; try done; apply U8TO32_LE_range.
Qed.

Lemma chachapoly_new_wf key ctx : chachapoly_new key 64 = Some ctx -> cp_wf ctx.
Proof.
  intros [= <-]. assert (W : wf (replicate 16 0)).
  { split; [done|]. apply Forall_replicate. lia. }
  by split; apply wf_keysetup.
Qed.

(** The row of ChaCha20-Poly1305 is the only one with its flag. *)
Lemma chacha_key_len c : c ∈ ciphers -> has (c_flags c) CFLAG_CHACHAPOLY = true -> c_key_len c = 64.
Proof.
  intros Hc. assert (F : forallb (fun c => implb (has (c_flags c) CFLAG_CHACHAPOLY) (c_key_len c =? 64)) ciphers = true)
    by reflexivity.
  rewrite forallb_forall in F. specialize (F c (proj1 (list_elem_of_In _ _) Hc)). intros Hf.
  rewrite Hf in F. by apply Z.eqb_eq in F.
Qed.

(** Both ends of a cipher. *)
Lemma cipher_init_linked c key iv ivlen : c ∈ ciphers -> c_key_len c <= zlen key -> cipher_ivlen c <= zlen iv ->
  cipher_ivlen c <= ivlen ->
  exists e d, cipher_init c key (c_key_len c) (Some iv) ivlen true = Ok e /\
    cipher_init c key (c_key_len c) (Some iv) ivlen false = Ok d /\ ctx_linked e d /\ cc_cipher e = c.
Proof.
  intros Hc Hk Hi Hl. destruct (has (c_flags c) CFLAG_CHACHAPOLY) eqn:Hf; [|destruct (has (c_flags c) CFLAG_NONE) eqn:Hn].
  - pose proof (chacha_key_len c Hc Hf) as Hkl. unfold cipher_init. rewrite Hf, Z.ltb_irrefl, Hkl.
    destruct (Z.ltb_spec ivlen (cipher_ivlen c)); [lia|]. cbn [orb].
    destruct (chachapoly_new key 64) as [ctx|] eqn:En; [|done]. eexists _, _. split_and!; [reflexivity..| |done].
    split_and!; try done. unfold same_kind. cbn [cc_cipher]. rewrite Hf. exists ctx, ctx. split_and!; try done.
    by eapply cp_equiv_refl, chachapoly_new_wf.
  - unfold cipher_init. rewrite Hf, Hn, Z.ltb_irrefl. destruct (Z.ltb_spec ivlen (cipher_ivlen c)); [lia|]. cbn [orb].
    eexists _, _. split_and!; [reflexivity..| |done]. split_and!; try done. unfold same_kind. cbn [cc_cipher]. by rewrite Hf, Hn.
  - destruct (evp_init c key iv Hc Hf Hn Hk Hi) as (e & d & He & Hd & El).
    rewrite !cipher_init_evp, He, Hd by done. eexists _, _. split_and!; [reflexivity..| |done].
    split_and!; try done. unfold same_kind. cbn [cc_cipher]. rewrite Hf, Hn. eauto.
Qed.

(** *** MACs *)

(** The rows of the table of MACs. *)
Definition mac_row_ok (a : macalg) : bool :=
  ((m_type a =? SSH_DIGEST) && (0 <=? m_alg a) && (m_alg a <? SSH_DIGEST_MAX) &&
     ((m_truncatebits a =? 0) || (m_truncatebits a =? 96))) ||
  ((m_type a =? SSH_UMAC) && (m_len a =? 64) && (m_key_len a =? 128) && (m_truncatebits a =? 0)) ||
  ((m_type a =? SSH_UMAC128) && (m_len a =? 128) && (m_key_len a =? 128) && (m_truncatebits a =? 0)).

Lemma macs_ok a : In a macs -> mac_row_ok a = true.
Proof.
  intros H. assert (F : forallb mac_row_ok macs = true) by (vm_compute; reflexivity).
  rewrite forallb_forall in F. by apply F.
Qed.

(** A MAC as the negotiation sets it up, with a key given to it. *)
Definition mac_from_table (m : sshmac) : Prop :=
  exists key, mac_key m = Some key /\ mac_key_len m <= zlen key /\ 0 <= mac_key_len m /\ (
    (mac_type m = SSH_DIGEST /\ 0 <= hmac_alg m < SSH_DIGEST_MAX /\ 0 <= mac_len m <= ssh_digest_bytes (hmac_alg m)) \/
    (mac_type m = SSH_UMAC /\ mac_len m = 8) \/ (mac_type m = SSH_UMAC128 /\ mac_len m = 16)).

Lemma hmac_context_keyed alg key : 0 <= alg < SSH_DIGEST_MAX ->
  exists ctx, hmac_context alg (Some key) = Some ctx /\ keyed ctx alg key.
Proof.
  intros H. pose proof (zlen_nonneg key). destruct (set_key_spec alg key (zlen key) H) as (c & c' & Hs & Hi & Hk); [lia|].
  exists c'. unfold hmac_context. rewrite Hs, Hi. split; [done|]. unfold zlen in Hk. by rewrite Nat2Z.id, firstn_all in Hk.
Qed.

Lemma mac_init_good m : mac_from_table m -> exists m', mac_init m = Ok m' /\ mac_good (mac_on m').
Proof.
  intros (key & Hkey & Hkl & Hk0 & K). unfold mac_init. rewrite Hkey.
  destruct K as [(Ht & Ha & Hl)|[(Ht & Hl)|(Ht & Hl)]]; rewrite Ht; cbn [Z.eqb Pos.eqb SSH_DIGEST SSH_UMAC SSH_UMAC128 orb].
  - set (k := take (Z.to_nat (mac_key_len m)) key).
    destruct (hmac_context_keyed (hmac_alg m) k Ha) as (ctx & Hc & Hkd). rewrite Hc, bool_decide_eq_true_2 by done.
    eexists. split; [reflexivity|]. pose proof (digest_bytes_range _ Ha).
    split; [cbn; unfold SSH_DIGEST_MAX_LENGTH; lia|]. intros n d. unfold mac_compute, ssh_hmac.
    cbn [mac_on mac_len mac_type hmac_alg mac_ctx_key]. rewrite ?Ht. cbn [Z.eqb Pos.eqb SSH_DIGEST]. rewrite Hc.
    destruct (hmac_message_spec ctx (hmac_alg m) k [POKE_U32 n; d] SSH_DIGEST_MAX_LENGTH Hkd Ha) as (c' & -> & _);
      [unfold SSH_DIGEST_MAX_LENGTH, UINT_MAX; lia|]. cbn [option_map fst].
    destruct (Z.gtb_spec (mac_len m) SSH_DIGEST_MAX_LENGTH); [unfold SSH_DIGEST_MAX_LENGTH in *; lia|].
    eexists. split; [reflexivity|]. rewrite zlen_take by (unfold SSH_DIGEST_MAX_LENGTH; lia). unfold hmac. rewrite (proj2 (digest_of_spec _ _ Ha)).
    unfold SSH_DIGEST_MAX_LENGTH in *. lia.
  - eexists. split; [reflexivity|]. split; [cbn; rewrite Hl; unfold SSH_DIGEST_MAX_LENGTH; lia|].
    intros n d. unfold mac_compute. cbn [mac_on mac_len mac_type hmac_alg mac_ctx_key]. rewrite ?Ht, Hl. cbn.
    eexists. split; [reflexivity|]. rewrite zlen_take, umac_length by done. done.
  - eexists. split; [reflexivity|]. split; [cbn; rewrite Hl; unfold SSH_DIGEST_MAX_LENGTH; lia|].
    intros n d. unfold mac_compute. cbn [mac_on mac_len mac_type hmac_alg mac_ctx_key]. rewrite ?Ht, Hl. cbn.
    eexists. split; [reflexivity|]. rewrite zlen_take, umac128_length by done. done.
Qed.

(** *** The keys of a direction *)

(** Keys that can be taken into use. *)
Record keys_ready (nk : newkeys) : Prop := {
  kr_cipher : enc_cipher (nk_enc nk) ∈ ciphers;
  kr_key : enc_key_len (nk_enc nk) = c_key_len (enc_cipher (nk_enc nk)) /\
    c_key_len (enc_cipher (nk_enc nk)) <= zlen (enc_key (nk_enc nk));
  kr_iv : exists iv, enc_iv (nk_enc nk) = Some iv /\ cipher_ivlen (enc_cipher (nk_enc nk)) <= zlen iv /\
    cipher_ivlen (enc_cipher (nk_enc nk)) <= enc_iv_len (nk_enc nk);
  kr_block : enc_block_size (nk_enc nk) = c_block_size (enc_cipher (nk_enc nk));
  kr_comp : comp_enabled (nk_comp nk) = false;
  kr_mac : cipher_authlen (enc_cipher (nk_enc nk)) = 0 -> mac_from_table (nk_mac nk)
}.

Lemma cipher_by_name_in n c : cipher_by_name n = Some c -> c ∈ ciphers.
Proof. intros H. apply find_some in H as [H _]. by apply list_elem_of_In. Qed.

Lemma choose_enc_facts c s enc : choose_enc c s = Ok enc -> enc_cipher enc ∈ ciphers /\
  enc_key_len enc = c_key_len (enc_cipher enc) /\ enc_iv_len enc = cipher_ivlen (enc_cipher enc) /\
  enc_block_size enc = c_block_size (enc_cipher enc).
Proof.
  unfold choose_enc. destruct (fst (match_list c s)) as [n|]; [|done].
  destruct (cipher_by_name n) as [x|] eqn:En; [|done]. intros [= <-]. by apply cipher_by_name_in in En.
Qed.

Lemma choose_comp_facts c s comp : choose_comp c s = Ok comp -> comp_enabled comp = false.
Proof.
  unfold choose_comp. destruct (fst (match_list c s)) as [n|]; [|done].
  repeat case_bool_decide; intros [= <-]; done.
Qed.

Definition give_key (key : bytes) (m : sshmac) : sshmac :=
  mk_mac (mac_enabled m) (mac_len m) (Some key) (mac_key_len m) (mac_type m) (mac_etm m) (hmac_alg m) (mac_ctx_key m).

(** A MAC of the table, once it has a key of its length. *)
Lemma mac_setup_facts name m key : mac_setup true blank_mac name = Ok m -> mac_key_len m <= zlen key ->
  mac_from_table (give_key key m).
Proof.
  unfold mac_setup. destruct (List.find _ macs) as [a|] eqn:Ef; [|done]. apply find_some in Ef as [Hin _].
  apply macs_ok in Hin. unfold mac_row_ok in Hin. unfold mac_setup_by_alg.
  destruct (_ && negb _); [done|]. intros Heq Hk. destruct (m_type a =? SSH_DIGEST) eqn:Et.
  - rewrite !orb_true_iff, !andb_true_iff, !orb_true_iff, !Z.leb_le, !Z.ltb_lt, !Z.eqb_eq in Hin.
    assert (Ha : 0 <= m_alg a < SSH_DIGEST_MAX).
    { apply Z.eqb_eq in Et. rewrite Et in Hin. unfold SSH_DIGEST, SSH_UMAC, SSH_UMAC128 in Hin. lia. }
    assert (Ht : m_truncatebits a = 0 \/ m_truncatebits a = 96) by lia.
    pose proof (digest_bytes_range _ Ha) as Hb.
    assert (Hl : 0 <= (if negb (m_truncatebits a =? 0) then m_truncatebits a / 8 else ssh_digest_bytes (m_alg a)) <=
      ssh_digest_bytes (m_alg a)).
    { destruct Ht as [-> | ->]; change (96 / 8) with 12; cbv [negb Z.eqb Pos.eqb]; lia. }
    injection Heq as <-. exists key. unfold ssh_hmac_bytes in *.
    cbn [give_key mac_key mac_key_len mac_len mac_type hmac_alg] in Hk |- *. apply Z.eqb_eq in Et.
    split_and!; [done|done|lia|]. by left.
  - apply Z.eqb_neq in Et. rewrite !orb_true_iff, !andb_true_iff, !Z.eqb_eq in Hin. injection Heq as <-. exists key. cbn in Hk |- *.
    destruct Hin as [[[[[? _] _] _]|[[[Hu Hl] Hkl] Ht]]|[[[Hu Hl] Hkl] Ht]]; [done|..]; rewrite ?Hl, ?Hkl, ?Ht in *;
      (split_and!; [done|exact Hk|done|]); right; [left|right]; done.
Qed.

Lemma choose_mac_facts c s m name key : choose_mac true blank_mac c s = Ok (m, name) ->
  mac_key_len m <= zlen key -> mac_from_table (give_key key m).
Proof.
  unfold choose_mac. destruct (fst (match_list c s)) as [n|]; [|done].
  destruct (mac_setup true blank_mac n) as [m0|] eqn:Em; [|done]. intros [= <- <-] Hk.
  exact (mac_setup_facts n m0 key Em Hk).
Qed.

Lemma direction_ready ctos c s nk iv key mac : choose_direction ctos c s = Ok nk ->
  cipher_ivlen (enc_cipher (nk_enc nk)) <= zlen iv -> c_key_len (enc_cipher (nk_enc nk)) <= zlen key ->
  mac_key_len (nk_mac nk) <= zlen mac -> keys_ready (set_keys iv key mac nk).
Proof.
  unfold choose_direction. cbv zeta. intros H Hi Hk Hm.
  destruct (choose_enc _ _) as [enc|] eqn:Ee; [|done]. apply choose_enc_facts in Ee as (E1 & E2 & E3 & E4).
  destruct (if cipher_authlen (enc_cipher enc) =? 0 then _ else _) as [[m n]|] eqn:Em; [|done].
  destruct (choose_comp _ _) as [comp|] eqn:Ec; [|done]. apply choose_comp_facts in Ec.
  injection H as <-. cbn in Hi, Hk, Hm. split; cbn; try done.
  - exists iv. by rewrite E3.
  - intros Ha. rewrite Ha in Em. cbn [Z.eqb] in Em. by eapply choose_mac_facts.
Qed.

(** ** Taking keys into use *)

(** The session after a direction has been given these keys, without compression. *)
Definition rekeyed {E : Env} (m : kex_mode) (nk : newkeys) (mac : sshmac) (cc : sshcipher_ctx) (k : kex_state)
    (s : session) : session :=
  let p := get_pstate m s in
  set_max_blocks m (max_blocks_of (enc_block_size (nk_enc nk)) (rekey_limit s))
    (set_ctx m (Some cc) (set_newkeys m (Some (with_mac (mac_on mac) nk))
      (set_kex (Some (set_kex_newkeys m None k)) (set_pstate m (mk_pstate (seqnr p) 0 0 (nbytes p)) s)))).

Definition encrypts (m : kex_mode) : bool := match m with MODE_OUT => true | MODE_IN => false end.

Lemma does_set_newkeys {E : Env} m s k nk mac cc : kex s = Some k -> get_kex_newkeys m k = Some nk ->
  (if cipher_authlen (enc_cipher (nk_enc nk)) =? 0 then mac_init (nk_mac nk) else Ok (nk_mac nk)) = Ok mac ->
  cipher_init (enc_cipher (nk_enc nk)) (enc_key (nk_enc nk)) (enc_key_len (nk_enc nk)) (enc_iv (nk_enc nk))
    (enc_iv_len (nk_enc nk)) (encrypts m) = Ok cc ->
  comp_type (nk_comp nk) = COMP_NONE -> ssh_set_newkeys m s = Ret tt (rekeyed m nk mac cc k s).
Proof.
  intros Hks Hkn Hmac Hcc Hcomp.
  assert (HmacM : forall st, (if cipher_authlen (enc_cipher (nk_enc nk)) =? 0 then lift (mac_init (nk_mac nk))
    else mret (nk_mac nk)) st = Ret mac st).
  { intros st. destruct (_ =? 0); [by rewrite Hmac|]. by injection Hmac as <-. }
  destruct s. cbn in Hks. subst.
  unfold ssh_set_newkeys, rekeyed, update_kex, update_newkeys, deref, gets, modify, mbind, mret.
  destruct m; cbn in Hkn |- *; rewrite Hkn, HmacM; cbn [encrypts] in Hcc; rewrite Hcc, Hcomp; reflexivity.
Qed.

Lemma set_newkeys_ready {E : Env} nk : keys_ready nk -> comp_type (nk_comp nk) = COMP_NONE ->
  exists mac e d, ctx_linked e d /\ cc_cipher e = enc_cipher (nk_enc nk) /\
    (cipher_authlen (enc_cipher (nk_enc nk)) = 0 -> mac_good (mac_on mac)) /\
    forall m s k, kex s = Some k -> get_kex_newkeys m k = Some nk ->
      ssh_set_newkeys m s = Ret tt (rekeyed m nk mac (if encrypts m then e else d) k s).
Proof.
  intros [Hc [Hkl Hk] (iv & Hiv & Hil & Hil') Hb Hco Hm] Hcomp.
  assert (M : exists mac, (if cipher_authlen (enc_cipher (nk_enc nk)) =? 0 then mac_init (nk_mac nk) else Ok (nk_mac nk)) = Ok mac /\
    (cipher_authlen (enc_cipher (nk_enc nk)) = 0 -> mac_good (mac_on mac))).
  { destruct (Z.eqb_spec (cipher_authlen (enc_cipher (nk_enc nk))) 0) as [Ha|Ha]; [|by exists (nk_mac nk)].
    destruct (mac_init_good _ (Hm Ha)) as (m' & Hi & Hg). by exists m'. }
  destruct M as (mac & Hmac & Hgood).
  destruct (cipher_init_linked _ (enc_key (nk_enc nk)) iv (enc_iv_len (nk_enc nk)) Hc Hk Hil Hil') as (e & d & He & Hd & HL & Hce).
  exists mac, e, d. split_and!; try done. intros m s k Hks Hkn.
  apply does_set_newkeys; try done. rewrite Hkl, Hiv. by destruct m.
Qed.
End keys.

(** ** What the negotiation provides *)

Section exchange.
Context {C : Crypto} {CL : CryptoLaws} {KL : KeyLaws} {DL : DigestLaws} {E : Env} {L : EnvLaws}.

Lemma negotiate_facts c s al : negotiate c s = Some al ->
  choose_direction true c s = Ok (al_ctos al) /\ choose_direction false c s = Ok (al_stoc al) /\
  0 <= ka_hash_alg (al_kex al) < SSH_DIGEST_MAX.
Proof.
  unfold negotiate. destruct (fst (match_list _ _)) as [kn|]; [|done]. destruct (fst (match_list _ _)) as [hn|]; [|done].
  destruct (choose_direction true c s) as [x|]; [|done]. destruct (choose_direction false c s) as [y|]; [|done].
  destruct (kex_alg_by_name kn) as [a|] eqn:Ek; [|done]. destruct (_ =? KEY_UNSPEC); [done|]. intros [= <-].
  split_and!; try done; apply find_some in Ek as [Hin _];
    assert (F : forallb (fun a => (0 <=? ka_hash_alg a) && (ka_hash_alg a <? SSH_DIGEST_MAX)) kexalgs = true) by reflexivity;
    rewrite forallb_forall in F; specialize (F a Hin); cbn; lia.
Qed.

(** As many bytes are derived as any of the algorithms needs. *)
Lemma needs_bound a b n : fst (needs a (needs b (0, 0))) = n -> forall nk, nk = a \/ nk = b ->
  enc_key_len (nk_enc nk) <= n /\ enc_iv_len (nk_enc nk) <= n /\ mac_key_len (nk_mac nk) <= n /\
  enc_block_size (nk_enc nk) <= n.
Proof. intros <- nk [-> | ->]; unfold needs, max4; cbn [fst snd]; lia. Qed.

Lemma direction_enc ctos c s nk : choose_direction ctos c s = Ok nk ->
  enc_cipher (nk_enc nk) ∈ ciphers /\ enc_key_len (nk_enc nk) = c_key_len (enc_cipher (nk_enc nk)) /\
  enc_iv_len (nk_enc nk) = cipher_ivlen (enc_cipher (nk_enc nk)) /\
  enc_block_size (nk_enc nk) = c_block_size (enc_cipher (nk_enc nk)).
Proof.
  unfold choose_direction. cbv zeta. intros H.
  destruct (choose_enc _ _) as [enc|] eqn:Ee; [|done]. apply choose_enc_facts in Ee.
  destruct (if cipher_authlen (enc_cipher enc) =? 0 then _ else _) as [[? ?]|]; [|done].
  destruct (choose_comp _ _); [|done]. by injection H as <-.
Qed.

Lemma direction_keys_ready k hash secret ctos c s nk : choose_direction ctos c s = Ok nk ->
  0 <= hash_alg k < SSH_DIGEST_MAX ->
  enc_key_len (nk_enc nk) <= we_need k -> enc_iv_len (nk_enc nk) <= we_need k ->
  mac_key_len (nk_mac nk) <= we_need k -> 0 < we_need k ->
  keys_ready (direction_keys k hash secret ctos nk).
Proof.
  intros Hd Ha Hk Hi Hm Hn. destruct (direction_enc _ _ _ _ Hd) as (_ & E2 & E3 & _).
  unfold direction_keys. eapply direction_ready; [exact Hd|..]; etrans; try (by apply zlen_derived); lia.
Qed.

Lemma direction_block ctos c s nk : choose_direction ctos c s = Ok nk -> 8 <= enc_block_size (nk_enc nk).
Proof.
  intros H. destruct (direction_enc _ _ _ _ H) as (E1 & _ & _ & ->). by destruct (cipher_ok_facts _ E1) as [[? _] _].
Qed.
End exchange.

(** Keys of which those of [b] for its input are those of [a] for its output. *)
Definition keys_link {C : Crypto} {CL : CryptoLaws} {E : Env} (a b : session) : Prop :=
  forall a2 b2, kex a2 = kex a -> kex b2 = kex b -> seqnr (p_send a2) = seqnr (p_read b2) ->
    0 <= seqnr (p_read b2) < 2 ^ 32 ->
    exists a3 b3, ssh_set_newkeys MODE_OUT a2 = Ret tt a3 /\ ssh_set_newkeys MODE_IN b2 = Ret tt b3 /\
      linked_ends (linked := ctx_linked) a3 b3.

Lemma derived_keys_link {C : Crypto} {CL : CryptoLaws} {KL : KeyLaws} {DL : DigestLaws} {E : Env} {L : EnvLaws}
    client server al a b ka kb hash secret (Hal : negotiate client server = Some al)
    (Ha : kex a = Some ka) (Hb : kex b = Some kb) (Aa : adopted al ka) (Ab : adopted al kb)
    (Hs : kex_server kb = negb (kex_server ka))
    (Hf : has (kex_flags kb) KEX_INITIAL = has (kex_flags ka) KEX_INITIAL) (Hid : session_id kb = session_id ka)
    (Hr : id_ready ka hash)
    (Hc : comp_type (nk_comp (if kex_server ka then al_stoc al else al_ctos al)) = COMP_NONE) :
  exists a1 b1, kex_derive_keys hash secret a = Ret tt a1 /\ kex_derive_keys hash secret b = Ret tt b1 /\ keys_link a1 b1.
Proof.
  destruct (negotiate_facts _ _ _ Hal) as (Hct & Hst & Hh).
  destruct Aa as [_ (_ & _ & Ah) _ Ai Ao An], Ab as [_ (_ & _ & Bh) _ Bi Bo Bn].
  assert (Na : we_need ka = fst (needs (al_ctos al) (needs (al_stoc al) (0, 0)))) by (by rewrite <- An).
  assert (Nb : we_need kb = we_need ka) by (rewrite Na; by rewrite <- Bn).
  pose proof (needs_bound _ _ _ (eq_sym Na)) as Hn.
  set (nk := if kex_server ka then al_stoc al else al_ctos al) in *.
  assert (Hdir : choose_direction (negb (kex_server ka)) client server = Ok nk) by (unfold nk; by destruct (kex_server ka)).
  destruct (Hn nk) as (N1 & N2 & N3 & N4); [unfold nk; destruct (kex_server ka); auto|].
  assert (Hpos : 0 < we_need ka).
  { pose proof (direction_block _ _ _ _ Hct). destruct (Hn (al_ctos al)) as (_ & _ & _ & ?); [auto|]. lia. }
  assert (Rb : id_ready kb hash) by (unfold id_ready; rewrite Hf, Hid; exact Hr).
  destruct (does_derive_keys hash secret a ka _ _ Ha Ai Ao Hr) as [wa Da]; [by rewrite Ah|done|].
  destruct (does_derive_keys hash secret b kb _ _ Hb Bi Bo Rb) as [wb Db]; [by rewrite Bh|by rewrite Nb|].
  eexists _, _. split; [exact Da|]. split; [exact Db|]. intros a2 b2 Ka Kb Hseq Hrange.
  set (key := direction_keys ka hash secret (negb (kex_server ka)) nk).
  assert (Hsame : forall x, direction_keys kb hash secret x = direction_keys ka hash secret x).
  { intros x. unfold direction_keys, session_id_of. by rewrite Hf, Hid, Nb, Ah, Bh. }
  assert (Hready : keys_ready key).
  { eapply direction_keys_ready; try done. by rewrite Ah. }
  assert (Hcomp : comp_type (nk_comp key) = COMP_NONE) by exact Hc.
  destruct (set_newkeys_ready key Hready Hcomp) as (mac & e & d & HL & Hce & Hmac & Hset).
  eexists _, _. split; [exact (Hset MODE_OUT a2 _ Ka eq_refl)|]. split.
  { apply (Hset MODE_IN b2 _ Kb). cbn. rewrite Hsame, Hs. unfold key, nk. by destruct (kex_server ka). }
  destruct Hready as [_ _ _ Hblk Hce0 _]. split; try done.
  - intros m. change (newkeys_in _) with (Some (with_mac (mac_on mac) key)).
    unfold su_mac_on, suite_of. cbn [su_mac nk_enc with_mac nk_mac].
    destruct (Z.eqb_spec (cipher_authlen (enc_cipher (nk_enc key))) 0) as [E0|]; cbn [negb]; [|done].
    cbn [mac_enabled mac_on]. intros [= <-]. by apply Hmac.
  - exists e, d. split_and!; try done; by rewrite Hce.
Qed.

(** Claim C5: an exchange links the ends.  Two ends that adopted what was negotiated derive the
    same keys from the shared secret; when the one takes its outgoing keys into use and the
    other its incoming ones, at the same sequence number, what the one sends is what the
    other reads ([packets_arrive]).  Exchanged, [a] and [b] give the other direction. *)
Theorem exchange_links_ends {C : Crypto} {CL : CryptoLaws} {KL : KeyLaws} {DL : DigestLaws} {E : Env} {L : EnvLaws}
    client server al a b ka kb hash secret (Hal : negotiate client server = Some al)
    (Ha : kex a = Some ka) (Hb : kex b = Some kb) (Aa : adopted al ka) (Ab : adopted al kb)
    (Hs : kex_server kb = negb (kex_server ka))
    (Hf : has (kex_flags kb) KEX_INITIAL = has (kex_flags ka) KEX_INITIAL) (Hid : session_id kb = session_id ka)
    (Hr : id_ready ka hash)
    (Hc : comp_type (nk_comp (if kex_server ka then al_stoc al else al_ctos al)) = COMP_NONE) :
  exists a1 b1, kex_derive_keys hash secret a = Ret tt a1 /\ kex_derive_keys hash secret b = Ret tt b1 /\
    forall a2 b2, kex a2 = kex a1 -> kex b2 = kex b1 -> seqnr (p_send a2) = seqnr (p_read b2) ->
      0 <= seqnr (p_read b2) < 2 ^ 32 ->
      exists a3 b3, ssh_set_newkeys MODE_OUT a2 = Ret tt a3 /\ ssh_set_newkeys MODE_IN b2 = Ret tt b3 /\
        linked_ends (linked := ctx_linked) a3 b3.
Proof. exact (derived_keys_link client server al a b ka kb hash secret Hal Ha Hb Aa Ab Hs Hf Hid Hr Hc). Qed.

#[export] Instance plain_key_laws : KeyLaws.
Proof.
  split; [|done|done]. intros c key iv Hc Hf Hn _ _. exists tt, tt. unfold evp_setup. cbn.
  destruct (cipher_ok_facts _ Hc) as (_ & Ha & _). split_and!; [by repeat case_match|by repeat case_match|].
  destruct Ha as [-> | ->]; lia.
Qed.

#[local] Existing Instance plain_digest_laws.

Definition no_algs : algorithms := mk_algs (mk_kexalg [] 0 0 0) [] [] blank_newkeys blank_newkeys.
Definition agreed : algorithms := default no_algs (negotiate ten_names server_names).

(** An end that has negotiated, in its first exchange. *)
Definition negotiated_kex (server : bool) (my peer : list bytes) : kex_state :=
  settled peer agreed (set_kex_flags KEX_INITIAL (proposed server my peer)).
Definition negotiated_end (server : bool) (my peer : list bytes) : session :=
  set_kex (Some (negotiated_kex server my peer)) (ssh_alloc_session_state (tt : @os plain_env)).

Lemma exchange_links_ends_witness :
  exists a1 b1, kex_derive_keys (lit "hash") (lit "secret") (negotiated_end false ten_names server_names) = Ret tt a1 /\
    kex_derive_keys (lit "hash") (lit "secret") (negotiated_end true server_names ten_names) = Ret tt b1 /\
    forall a2 b2, kex a2 = kex a1 -> kex b2 = kex b1 -> seqnr (p_send a2) = seqnr (p_read b2) ->
      0 <= seqnr (p_read b2) < 2 ^ 32 ->
      exists a3 b3, ssh_set_newkeys MODE_OUT a2 = Ret tt a3 /\ ssh_set_newkeys MODE_IN b2 = Ret tt b3 /\
        linked_ends (linked := ctx_linked) a3 b3.
Proof.
  apply (exchange_links_ends ten_names server_names agreed _ _
    (negotiated_kex false ten_names server_names) (negotiated_kex true server_names ten_names)).
  - vm_compute. reflexivity.
  - reflexivity.
  - reflexivity.
  - apply settled_adopted.
  - apply settled_adopted.
  - reflexivity.
  - reflexivity.
  - reflexivity.
  - vm_compute. split; [reflexivity|discriminate].
  - vm_compute. reflexivity.
Defined.
