(* ===== verification/KexGen.v ===== *)
(** kexgen.c, and kex.c's part in the proof of the server's identity: the messages with which
    client and server agree on a secret, the hash over all they exchanged, its signature by
    the server's key, and the keys derived of it.

    What a method does with its groups (kexc25519.c, kexdh.c, kexecdh.c and
    kexsntrup761x25519.c) is the class [KeyAgreement], of which KexC25519 gives an instance.
    Host keys and their signatures are the class [HostKeys]. *)

From S2P Require Import Prelude SshErr Wire SshQueue Compat Match KeyTypes.
From S2P Require Import ChaCha ChachaPoly Digest SshCipher Packet PacketSend PacketRead Kex.

Definition SSH2_MSG_KEX_ECDH_INIT : Z := 30.
Definition SSH2_MSG_KEX_ECDH_REPLY : Z := 31.
Definition KEX_DH_GRP18_SHA512 : Z := 4.
Definition KEX_ECDH_SHA2 : Z := 7.
Definition KEX_C25519_SHA256 : Z := 8.
Definition KEX_KEM_SNTRUP761X25519_SHA512 : Z := 9.
Definition CURVE25519_SIZE : Z := 32.

(** The cases of the methods' calls, by the type of the method: the server's part takes the
    public key of the client and gives its own with the secret; the client's part takes the
    public key of the server. *)
Class KeyAgreement {C : Crypto} {E : Env} := {
  kex_keypair : Z -> M unit;
  kex_enc : Z -> bytes -> M (bytes * bytes);
  kex_dec : Z -> bytes -> M bytes
}.

(** The callbacks of a [kex] may be null. *)
Class HostKeys {E : Env} := {
  sshkey : Type;
  sshkey_type : sshkey -> Z;
  sshkey_nid : sshkey -> Z;
  sshkey_fromb : bytes -> res sshkey;
  sshkey_putb : sshkey -> res bytes;
  sshkey_verify : sshkey -> bytes -> bytes -> option bytes -> Z -> option ssh_error;
  kex_sign : option sshkey -> sshkey -> bytes -> option bytes -> os -> res bytes * os;
  load_host_public_key : option (Z -> Z -> option sshkey);
  load_host_private_key : option (Z -> Z -> option sshkey);
  verify_host_key : option (sshkey -> os -> bool * os);
  sig_alg_list : option bytes
}.

Section code.
Context {C : Crypto} {E : Env} {A : KeyAgreement} {H : HostKeys}.

(** The types in the switches. *)
Definition gen_type (t : Z) : bool :=
  (0 <=? t) && (t <=? KEX_DH_GRP18_SHA512) || (t =? KEX_ECDH_SHA2) || (t =? KEX_C25519_SHA256) ||
  (t =? KEX_KEM_SNTRUP761X25519_SHA512).

Definition kem_case {B} (t : Z) (m : M B) : M B := if gen_type t then m else mfail SSH_ERR_INVALID_ARGUMENT.

Definition sshpkt_getb_froms : M bytes :=
  let! q := gets incoming_packet in
  let! r := lift (rd_string q) in
  let! ok := env request_memory in
  if negb ok then mfail SSH_ERR_ALLOC_FAIL
  else modify (set_incoming_packet (snd r)) ;; mret (fst r).

(** ** The hash *)

(** What is hashed; the length before each proposal counts the type of its message. *)
Definition transcript (cv sv ckexinit skexinit hostkey cpub spub secret : bytes) : list bytes :=
  [wr_string cv; wr_string sv;
   POKE_U32 (u32 (zlen ckexinit + 1)); [byte_of_Z SSH2_MSG_KEXINIT]; ckexinit;
   POKE_U32 (u32 (zlen skexinit + 1)); [byte_of_Z SSH2_MSG_KEXINIT]; skexinit;
   wr_string hostkey; wr_string cpub; wr_string spub; secret].

Definition kex_gen_hash (alg : Z) (cv sv ckexinit skexinit hostkey cpub spub secret : bytes) : M bytes :=
  if SSH_DIGEST_MAX_LENGTH <? ssh_digest_bytes alg then mfail SSH_ERR_INVALID_ARGUMENT
  else
  let! ok := env request_memory in
  if negb ok then mfail SSH_ERR_ALLOC_FAIL
  else
  let! b := put_each [] (transcript cv sv ckexinit skexinit hostkey cpub spub secret) in
  match ssh_digest_memory alg b SSH_DIGEST_MAX_LENGTH with
  | Ok hash => mret hash
  | Err _ => mfail SSH_ERR_LIBCRYPTO_ERROR
  end.

(** ** The host key *)

Definition kex_load_hostkey : M (option sshkey * sshkey) :=
  let! k := deref kex in
  match load_host_public_key, load_host_private_key with
  | Some pub, Some prv =>
    match pub (hostkey_type k) (hostkey_nid k) with
    | Some key => mret (prv (hostkey_type k) (hostkey_nid k), key)
    | None => mfail SSH_ERR_NO_HOSTKEY_LOADED
    end
  | _, _ => mfail SSH_ERR_INVALID_ARGUMENT
  end.

Definition kex_verify_host_key (key : sshkey) : M unit :=
  let! k := deref kex in
  match verify_host_key with
  | None => mfail SSH_ERR_INVALID_ARGUMENT
  | Some verify =>
    if negb (sshkey_type key =? hostkey_type k) ||
       (hostkey_type k =? KEY_ECDSA) && negb (sshkey_nid key =? hostkey_nid k)
    then mfail SSH_ERR_KEY_TYPE_MISMATCH
    else
    let! ok := env (verify key) in
    if ok : bool then mret tt else mfail SSH_ERR_SIGNATURE_INVALID
  end.

(** ** The client *)

Definition input_kex_gen_reply_fn : handler := other_fn 31.
Definition input_kex_gen_init_fn : handler := other_fn 30.

Definition kex_gen_client : M unit :=
  let! k := deref kex in
  kem_case (kex_type k) (kex_keypair (kex_type k)) ;;
  sshpkt_start SSH2_MSG_KEX_ECDH_INIT ;;
  let! k := deref kex in
  sshpkt_put_string (default [] (client_pub k)) ;;
  sshpkt_send ;;
  ssh_dispatch_set SSH2_MSG_KEX_ECDH_REPLY (Some input_kex_gen_reply_fn).

(** Until the keys are derived. *)
Definition gen_reply_secret : M (bytes * bytes) :=
  let! blob := sshpkt_getb_froms in
  let! ok := env request_memory in
  if negb ok then mfail SSH_ERR_ALLOC_FAIL
  else
  let! key := lift (sshkey_fromb blob) in
  kex_verify_host_key key ;;
  let! server_blob := sshpkt_getb_froms in
  let! signature := sshpkt_get_string in
  sshpkt_get_end ;;
  let! k := deref kex in
  let! secret := kem_case (kex_type k) (kex_dec (kex_type k) server_blob) in
  let! k := deref kex in
  let! hash := kex_gen_hash (hash_alg k) (client_version k) (server_version k) (kex_my k) (kex_peer k)
                 blob (default [] (client_pub k)) server_blob secret in
  let! flags := gets compat in
  match sshkey_verify key signature hash (hostkey_alg k) flags with
  | Some e => mfail e
  | None => mret (hash, secret)
  end.

(** The keys, and our NEWKEYS. *)
Definition gen_keys (hs : bytes * bytes) : M unit :=
  kex_derive_keys (fst hs) (snd hs) ;; kex_send_newkeys sig_alg_list.

(** However it ends, the pair of the client is wiped. *)
Definition forget_pair : M unit :=
  update_kex (fun k => set_client_pub None (set_c25519_client_key (zeros CURVE25519_SIZE) k)).

Definition input_kex_gen_reply : M unit :=
  ssh_dispatch_set SSH2_MSG_KEX_ECDH_REPLY (Some kex_protocol_error_fn) ;;
  let! r := mtry (let! hs := gen_reply_secret in gen_keys hs) in
  forget_pair ;;
  lift r.

(** ** The server *)

Definition kex_gen_server : M unit :=
  ssh_dispatch_set SSH2_MSG_KEX_ECDH_INIT (Some input_kex_gen_init_fn).

(** What the server answers with. *)
Definition put_reply (blob server_pubkey signature : bytes) : M unit :=
  sshpkt_start SSH2_MSG_KEX_ECDH_REPLY ;;
  sshpkt_put_string blob ;;
  sshpkt_put_string server_pubkey ;;
  sshpkt_put_string signature ;;
  sshpkt_send.

Definition gen_init_secret : M (bytes * bytes) :=
  let! host := kex_load_hostkey in
  let! client_pubkey := sshpkt_getb_froms in
  sshpkt_get_end ;;
  let! k := deref kex in
  let! r := kem_case (kex_type k) (kex_enc (kex_type k) client_pubkey) in
  let! ok := env request_memory in
  if negb ok then mfail SSH_ERR_ALLOC_FAIL
  else
  let! blob := lift (sshkey_putb (snd host)) in
  let! k := deref kex in
  let! hash := kex_gen_hash (hash_alg k) (client_version k) (server_version k) (kex_peer k) (kex_my k)
                 blob client_pubkey (fst r) (snd r) in
  let! signature := env (kex_sign (fst host) (snd host) hash (hostkey_alg k)) in
  let! signature := lift signature in
  put_reply blob (fst r) signature ;;
  mret (hash, snd r).

Definition input_kex_gen_init : M unit :=
  ssh_dispatch_set SSH2_MSG_KEX_ECDH_INIT (Some kex_protocol_error_fn) ;;
  let! hs := gen_init_secret in
  gen_keys hs.

(** ** The table of methods *)

(** [kex->kex[]] of a client and of a server, but for group exchange. *)
Definition gen_methods (server : bool) (t : Z) : option (M unit) :=
  if gen_type t then Some (if server then kex_gen_server else kex_gen_client) else None.

Definition gen_handlers (id type seq : Z) : M unit :=
  if id =? 30 then input_kex_gen_init
  else if id =? 31 then input_kex_gen_reply
  else mcrash.
End code.
