(* ===== verification/KexGenThms.v ===== *)
(** The exchange of KexGen: what a client has checked before it uses keys, and that the keys of
    two ends that ran an exchange link them. *)

From S2P Require Import Prelude SshErr Wire SshQueue Compat Match KeyTypes.
From S2P Require Import ChaCha ChachaPoly Digest SshCipher CipherLink Packet PacketSend Plain PacketRead.
From S2P Require Import PacketFrame Kex PacketQueue PacketBounds PacketPoll PacketLink KexConf KexKeys KexGen.

(** ** The transcript *)

Lemma POKE_U32_inj a b : 0 <= a < 2 ^ 32 -> 0 <= b < 2 ^ 32 -> POKE_U32 a = POKE_U32 b -> a = b.
Proof.
  intros Ha Hb E. apply (f_equal PEEK_U32) in E. rewrite !PEEK_POKE_U32 in E.
  by rewrite !u32_small in E by lia.
Qed.

Lemma wr_string_inj v w r1 r2 : zlen v < 2 ^ 32 -> zlen w < 2 ^ 32 ->
  wr_string v ++ r1 = wr_string w ++ r2 -> v = w /\ r1 = r2.
Proof.
  intros Hv Hw E. unfold wr_string in E. rewrite <- !app_assoc in E.
  apply app_inj_1 in E as [E1 E2]; [|done].
  apply POKE_U32_inj in E1; [|split; [apply zlen_nonneg|done]..].
  by apply app_inj_1 in E2; [|unfold zlen in E1; lia].
Qed.

(** A proposal with its length and the type of its message. *)
Lemma kexinit_inj v w t r1 r2 : zlen v + 1 < 2 ^ 32 -> zlen w + 1 < 2 ^ 32 ->
  POKE_U32 (u32 (zlen v + 1)) ++ [t] ++ v ++ r1 = POKE_U32 (u32 (zlen w + 1)) ++ [t] ++ w ++ r2 -> v = w /\ r1 = r2.
Proof.
  intros Hv Hw E. pose proof (zlen_nonneg v). pose proof (zlen_nonneg w). apply app_inj_1 in E as [E1 E2]; [|done].
  rewrite !u32_small in E1 by lia. apply POKE_U32_inj in E1; [|lia..]. cbn in E2. injection E2 as E2.
  by apply app_inj_1 in E2; [|unfold zlen in E1; lia].
Qed.

(** Claim C26.  What is hashed determines what was exchanged: versions, proposals, host key,
    public keys and secret; no two exchanges are hashed alike for lack of a boundary. *)
Theorem transcript_injective cv sv ck sk hk cp sp secret cv' sv' ck' sk' hk' cp' sp' secret'
    (Hlen : Forall (fun v => zlen v + 1 < 2 ^ 32) [cv; sv; ck; sk; hk; cp; sp; cv'; sv'; ck'; sk'; hk'; cp'; sp'])
    (Heq : concat (transcript cv sv ck sk hk cp sp secret) = concat (transcript cv' sv' ck' sk' hk' cp' sp' secret')) :
  cv = cv' /\ sv = sv' /\ ck = ck' /\ sk = sk' /\ hk = hk' /\ cp = cp' /\ sp = sp' /\ secret = secret'.
Proof.
  repeat match type of Hlen with Forall _ (_ :: _) => apply Forall_cons in Hlen as [?Hl Hlen] end.
  unfold transcript in Heq. cbn [concat] in Heq. rewrite !app_nil_r in Heq.
  apply wr_string_inj in Heq as [-> Heq]; [|lia..]. apply wr_string_inj in Heq as [-> Heq]; [|lia..].
  apply kexinit_inj in Heq as [-> Heq]; [|lia..]. apply kexinit_inj in Heq as [-> Heq]; [|lia..].
  do 3 (apply wr_string_inj in Heq as [-> Heq]; [|lia..]). by split_and!.
Qed.

Lemma transcript_injective_witness :
  concat (transcript (lit "SSH-2.0-a") (lit "SSH-2.0-b") (lit "c") (lit "s") (lit "k") (lit "p") (lit "q") (lit "x")) =
  concat (transcript (lit "SSH-2.0-a") (lit "SSH-2.0-b") (lit "c") (lit "s") (lit "k") (lit "p") (lit "q") (lit "x")) /\
  lit "SSH-2.0-a" = lit "SSH-2.0-a" /\ lit "SSH-2.0-b" = lit "SSH-2.0-b" /\ lit "c" = lit "c" /\ lit "s" = lit "s" /\
  lit "k" = lit "k" /\ lit "p" = lit "p" /\ lit "q" = lit "q" /\ lit "x" = lit "x".
Proof.
  split; [reflexivity|]. apply transcript_injective; [|reflexivity]. repeat constructor.
Defined.

(** ** Frames *)

Section frames.
Context {C : Crypto} {E : Env}.

(** What an exchange is apart from the pair of the client. *)
Definition rest_of_kex (s : session) : option kex_state :=
  option_map (fun k => set_client_pub None (set_c25519_client_key [] k)) (kex s).

(** What the methods leave alone. *)
Definition gen_view (s : session) := (rest_of_kex s, sent s, mux s).

Definition kex_sent (s : session) := (kex s, sent s, mux s, compat s).

Lemma sent_update_newkeys m g : keeps kex_sent (update_newkeys m g).
Proof. apply keeps_modify. by destruct m. Qed.
#[local] Hint Resolve sent_update_newkeys : keeps.
Lemma sent_buf_put q v : keeps kex_sent (buf_put q v).
Proof. unfold buf_put. keeps. Qed.
#[local] Hint Resolve sent_buf_put : keeps.
Lemma sent_put_outgoing v : keeps kex_sent (put_outgoing v).
Proof. unfold put_outgoing. keeps. Qed.
Lemma sent_put_output v : keeps kex_sent (put_output v).
Proof. unfold put_output. keeps. Qed.
#[local] Hint Resolve sent_put_outgoing sent_put_output : keeps.
Lemma sent_compress_outgoing : keeps kex_sent compress_outgoing.
Proof. unfold compress_outgoing, consume_outgoing, compress_buffer, compress_round, put_compressed. keeps. Qed.
Lemma sent_pad_outgoing u : keeps kex_sent (pad_outgoing u).
Proof. unfold pad_outgoing. keeps. Qed.
Lemma sent_seal_outgoing u : keeps kex_sent (seal_outgoing u).
Proof. unfold seal_outgoing, mac_of. keeps. Qed.
Lemma sent_count_outgoing u : keeps kex_sent (count_outgoing u).
Proof. unfold count_outgoing. keeps. Qed.
Lemma sent_sshpkt_start t : keeps kex_sent (sshpkt_start t).
Proof. unfold sshpkt_start. keeps. Qed.
Lemma sent_put_string v : keeps kex_sent (sshpkt_put_string v).
Proof. unfold sshpkt_put_string. keeps. Qed.
Lemma sent_get_end : keeps kex_sent sshpkt_get_end.
Proof. unfold sshpkt_get_end. keeps. Qed.
Lemma sent_getb_froms : keeps kex_sent sshpkt_getb_froms.
Proof. unfold sshpkt_getb_froms. keeps. Qed.
Lemma sent_get_string : keeps kex_sent sshpkt_get_string.
Proof. unfold sshpkt_get_string, take_incoming. keeps. Qed.
Lemma sent_put_each l : forall q, keeps kex_sent (put_each q l).
Proof. induction l as [|v l IH]; intros q; cbn [put_each]; keeps. Qed.
#[local] Hint Resolve sent_put_each : keeps.
Lemma sent_gen_hash alg cv sv ck sk hk cp sp secret : keeps kex_sent (kex_gen_hash alg cv sv ck sk hk cp sp secret).
Proof. unfold kex_gen_hash. keeps. Qed.
Lemma sent_dispatch_set t h : keeps kex_sent (ssh_dispatch_set t h).
Proof. unfold ssh_dispatch_set. keeps. Qed.

(** A packet of an exchange that neither begins nor ends it. *)
Definition plain_kex_type (t : Z) : Prop :=
  ssh_packet_type_is_kex t = true /\ t <> SSH2_MSG_NEWKEYS /\ t <> SSH2_MSG_KEXINIT /\ t <> SSH2_MSG_USERAUTH_SUCCESS.

Lemma wrapped_kex s s' : ssh_packet_send2_wrapped s = Ret tt s' -> plain_kex_type (at_ (outgoing_packet s) 5) ->
  kex_sent s' = (kex s, sent s ++ [mk_packet (at_ (outgoing_packet s) 5) (outgoing_packet s)], mux s, compat s).
Proof.
  intros H (_ & H1 & _ & H2). unfold ssh_packet_send2_wrapped in H. run H.
  inv_bind H. inv_bind H. inv_bind H. run H. inv_bind H. unfold after_packet in H. run H.
  destruct (Z.eqb_spec (at_ (outgoing_packet s) 5) SSH2_MSG_NEWKEYS); [done|].
  destruct (Z.eqb_spec (at_ (outgoing_packet s) 5) SSH2_MSG_USERAUTH_SUCCESS); [done|]. injection H as <-.
  apply (keeps_ret_eq kex_sent) in H0, H3, H4, H5;
    [|apply sent_count_outgoing|apply sent_seal_outgoing|apply sent_pad_outgoing|case_match; [apply sent_compress_outgoing|apply keeps_ret]].
  unfold kex_sent in *. cbn in *. congruence.
Qed.

Lemma send_plain_kex s s' : sshpkt_send s = Ret tt s' -> mux s = false -> plain_kex_type (at_ (outgoing_packet s) 5) ->
  kex_sent s' = (kex s, sent s ++ [mk_packet (at_ (outgoing_packet s) 5) (outgoing_packet s)], mux s, compat s).
Proof.
  intros H Hm Ht. unfold sshpkt_send, send_with in H. run H. rewrite Hm in H. unfold send2_with in H. run H.
  destruct (_ <? 6); [done|]. pose proof Ht as (Hk & Hn & Hi & _). rewrite Hk in H. cbn [negb] in H. run H.
  rewrite andb_false_r in H.
  destruct (Z.eqb_spec (at_ (outgoing_packet s) 5) SSH2_MSG_KEXINIT); [done|]. run H.
  inv_bind H. destruct (Z.eqb_spec (at_ (outgoing_packet s) 5) SSH2_MSG_NEWKEYS); [done|]. injection H as <-.
  destruct x. by apply wrapped_kex in H0.
Qed.
End frames.

(** ** The two sides of an exchange, run backwards *)

Section sides.
Context {C : Crypto} {E : Env} {A : KeyAgreement} {H : HostKeys}.

(** What the methods promise: they touch nothing but the pair of the client, and the secret
    that the client computes from the server's public key is the one the server computed. *)
Class AgreementLaws : Prop := {
  keypair_frame t : keeps gen_view (kex_keypair t);
  enc_frame t p : keeps kex_sent (kex_enc t p);
  dec_frame t p : keeps kex_sent (kex_dec t p);
  agreement t c c1 k1 s blob secret s1 c2 k2 secret' c3 :
    kex_keypair t c = Ret tt c1 -> kex c1 = Some k1 ->
    kex_enc t (default [] (client_pub k1)) s = Ret (blob, secret) s1 ->
    kex c2 = Some k2 -> c25519_client_key k2 = c25519_client_key k1 ->
    kex_dec t blob c2 = Ret secret' c3 -> secret' = secret
}.

Lemma buf_put_appends q v s q' s' : buf_put q v s = Ret q' s' -> q' = q ++ v.
Proof.
  unfold buf_put, q_put. destruct (_ >? _); [done|]. intros Hr. inv_bind Hr. destruct x; [|done]. by injection Hr.
Qed.

Lemma put_each_ret l : forall q s b s', put_each q l s = Ret b s' -> b = q ++ concat l.
Proof.
  induction l as [|v l IH]; intros q s b s' Hr; cbn [put_each concat] in *.
  - injection Hr as <- _. by rewrite app_nil_r.
  - inv_bind Hr. apply buf_put_appends in H0 as ->. apply IH in Hr as ->. by rewrite <- app_assoc.
Qed.

Lemma put_all_ret l s b s' : put_each [] l s = Ret b s' -> b = concat l.
Proof. apply put_each_ret. Qed.

(** The digest of what was put. *)
Definition digest_of (alg : Z) (l : list bytes) : M bytes :=
  let! b := put_each [] l in
  match ssh_digest_memory alg b SSH_DIGEST_MAX_LENGTH with
  | Ok hash => mret hash
  | Err _ => mfail SSH_ERR_LIBCRYPTO_ERROR
  end.

Lemma digest_of_ret alg l s h s' : digest_of alg l s = Ret h s' ->
  ssh_digest_memory alg (concat l) SSH_DIGEST_MAX_LENGTH = Ok h.
Proof.
  unfold digest_of. intros Hr. inv_bind Hr. apply put_all_ret in H0 as ->.
  destruct (ssh_digest_memory alg _ _); [|discriminate Hr]. by injection Hr as <- _.
Qed.

Lemma gen_hash_ret alg cv sv ck sk hk cp sp secret s h s' : kex_gen_hash alg cv sv ck sk hk cp sp secret s = Ret h s' ->
  ssh_digest_memory alg (concat (transcript cv sv ck sk hk cp sp secret)) SSH_DIGEST_MAX_LENGTH = Ok h.
Proof.
  unfold kex_gen_hash.
  generalize (transcript cv sv ck sk hk cp sp secret) as l. intros l.
  destruct (SSH_DIGEST_MAX_LENGTH <? ssh_digest_bytes alg); [discriminate|]. intros Hr. inv_bind Hr.
  destruct x; [|discriminate Hr]. exact (digest_of_ret _ _ _ _ _ Hr).
Qed.

Lemma getb_froms_ret s v s' : sshpkt_getb_froms s = Ret v s' ->
  exists rest, rd_string (incoming_packet s) = Ok (v, rest) /\ incoming_packet s' = rest.
Proof.
  unfold sshpkt_getb_froms. intros Hr. run Hr. inv_bind Hr.
  destruct (rd_string (incoming_packet s)) as [[v' rest]|]; [|done]. injection H0 as <- <-.
  inv_bind Hr. destruct x; [|done]. cbn [negb] in Hr. run Hr. injection Hr as <- <-. by exists rest.
Qed.

Lemma get_string_ret s v s' : sshpkt_get_string s = Ret v s' ->
  exists rest, rd_string (incoming_packet s) = Ok (v, rest) /\ incoming_packet s' = rest.
Proof.
  unfold sshpkt_get_string, take_incoming. intros Hr. inv_bind Hr. run H0. inv_bind H0.
  destruct (rd_string (incoming_packet s)) as [[v' rest]|]; [|done]. injection H1 as <- <-.
  run H0. injection H0 as <- <-. inv_bind Hr.
  unfold env in H0. destruct (request_memory _) as [ok w] in H0. injection H0 as <- <-.
  destruct ok; [|done]. injection Hr as <- <-. by exists rest.
Qed.

Lemma get_end_ret s s' : sshpkt_get_end s = Ret tt s' -> incoming_packet s = [] /\ s' = s.
Proof.
  unfold sshpkt_get_end. intros Hr. run Hr. destruct (incoming_packet s) eqn:Ei; cbn in Hr; [|].
  - by injection Hr as <-.
  - revert Hr. unfold zlen. cbn. done.
Qed.

Lemma kem_case_ret {B} t (m : M B) s b s' : kem_case t m s = Ret b s' -> m s = Ret b s'.
Proof. unfold kem_case. by destruct (gen_type t). Qed.

Lemma kex_keys_ready hash secret s s' k : kex_derive_keys hash secret s = Ret tt s' -> kex s = Some k -> id_ready k hash.
Proof.
  intros Hr Ek. unfold kex_derive_keys in Hr. unfold mbind at 1, deref at 1 in Hr. rewrite Ek in Hr.
  unfold id_ready. destruct (has (kex_flags k) KEX_INITIAL).
  - destruct (Z.eqb_spec (zlen (session_id k)) 0) as [Hz|]; [|done]. cbn [negb] in Hr. inv_bind Hr. inv_bind H0.
    apply zlen_0_nil in Hz. split; [done|]. rewrite Hz in H1. unfold buf_put, q_put in H1.
    destruct (Z.gtb_spec (zlen (@nil byte) + zlen hash) SSHBUF_SIZE_MAX); [done|]. change (zlen (@nil byte)) with 0 in *. lia.
  - destruct (Z.eqb_spec (zlen (session_id k)) 0) as [|Hz]; [done|]. by intros E0; rewrite E0 in Hz.
Qed.

Lemma env_keeps {B T} (f : session -> T) (g : os -> B * os) s b s' :
  (forall w s, f (set_world w s) = f s) -> env g s = Ret b s' -> f s' = f s.
Proof. intros Hf. unfold env. destruct (g (world s)). intros [= <- <-]. apply Hf. Qed.

Lemma verify_ret key s s' : kex_verify_host_key key s = Ret tt s' ->
  exists k verify, kex s = Some k /\ verify_host_key = Some verify /\
    sshkey_type key = hostkey_type k /\ (hostkey_type k = KEY_ECDSA -> sshkey_nid key = hostkey_nid k) /\
    fst (verify key (world s)) = true /\ s' = set_world (snd (verify key (world s))) s.
Proof.
  unfold kex_verify_host_key. intros Hr. unfold mbind at 1, deref at 1 in Hr.
  destruct (kex s) as [k|]; [|discriminate Hr]. destruct verify_host_key as [verify|]; [|discriminate Hr].
  destruct (_ || _) eqn:Ht; [discriminate Hr|]. apply orb_false_iff in Ht as [H1 H2].
  unfold mbind, env in Hr. destruct (verify key (world s)) as [ok w] eqn:Ev. destruct ok; [|discriminate Hr].
  injection Hr as <-. exists k, verify. rewrite Ev. split_and!; try done.
  - apply negb_false_iff in H1. lia.
  - intros Hk. rewrite Hk in H2. cbn in H2. apply negb_false_iff in H2. lia.
Qed.

Definition with_input (s : session) := (kex_sent s, incoming_packet s).

Lemma memory_ret s b s' : env request_memory s = Ret b s' -> with_input s' = with_input s.
Proof. by apply env_keeps. Qed.

Lemma getb_ret s v s' : sshpkt_getb_froms s = Ret v s' ->
  kex_sent s' = kex_sent s /\ rd_string (incoming_packet s) = Ok (v, incoming_packet s').
Proof.
  intros Hr. split; [by apply (keeps_ret_eq _ _ _ _ _ sent_getb_froms Hr)|].
  by apply getb_froms_ret in Hr as (rest & Hr & ->).
Qed.

Lemma string_ret s v s' : sshpkt_get_string s = Ret v s' ->
  kex_sent s' = kex_sent s /\ rd_string (incoming_packet s) = Ok (v, incoming_packet s').
Proof.
  intros Hr. split; [by apply (keeps_ret_eq _ _ _ _ _ sent_get_string Hr)|].
  by apply get_string_ret in Hr as (rest & Hr & ->).
Qed.

(** What a client has done when it accepts a reply: [q] the reply, [k] the exchange and [flags]
    the known bugs of the server. *)
Record reply_accepted (k : kex_state) (flags : Z) (q hash secret blob server_pub signature : bytes) (key : sshkey) : Prop := {
  ra_reads : exists r1 r2, rd_string q = Ok (blob, r1) /\ rd_string r1 = Ok (server_pub, r2) /\
    rd_string r2 = Ok (signature, []);
  ra_parsed : sshkey_fromb blob = Ok key;
  ra_type : sshkey_type key = hostkey_type k /\ (hostkey_type k = KEY_ECDSA -> sshkey_nid key = hostkey_nid k);
  ra_trusted : exists verify w, verify_host_key = Some verify /\ fst (verify key w) = true;
  ra_secret : exists c1 c2, kex c1 = Some k /\ kex_dec (kex_type k) server_pub c1 = Ret secret c2;
  ra_hash : ssh_digest_memory (hash_alg k) (concat (transcript (client_version k) (server_version k) (kex_my k)
    (kex_peer k) blob (default [] (client_pub k)) server_pub secret)) SSH_DIGEST_MAX_LENGTH = Ok hash;
  ra_signed : sshkey_verify key signature hash (hostkey_alg k) flags = None
}.

Context {AL : AgreementLaws}.

Lemma verify_keeps key : keeps with_input (kex_verify_host_key key).
Proof. unfold kex_verify_host_key. keeps. Qed.

Lemma view_inj (s s' : session) : kex_sent s' = kex_sent s ->
  kex s' = kex s /\ sent s' = sent s /\ mux s' = mux s /\ compat s' = compat s.
Proof. unfold kex_sent. intros [= -> -> -> ->]. done. Qed.

Lemma input_inj (s s' : session) : with_input s' = with_input s ->
  kex_sent s' = kex_sent s /\ incoming_packet s' = incoming_packet s.
Proof. unfold with_input. intros Heq. split; congruence. Qed.

Lemma reply_secret_ret k c hash secret c' : kex c = Some k -> gen_reply_secret c = Ret (hash, secret) c' ->
  kex_sent c' = kex_sent c /\
  exists blob server_pub signature key,
    reply_accepted k (compat c) (incoming_packet c) hash secret blob server_pub signature key.
Proof.
  intros Hk Hr. unfold gen_reply_secret in Hr.
  inv_bind Hr. apply getb_ret in H0 as [V0 R0]. inv_bind Hr. apply memory_ret in H0. destruct x0; [|discriminate Hr].
  cbn [negb] in Hr. inv_bind Hr. destruct (sshkey_fromb x) as [key|] eqn:Ekey; [|discriminate H1]. injection H1 as <- <-.
  inv_bind Hr. destruct x0. pose proof (keeps_ret_eq _ _ _ _ _ (verify_keeps key) H1) as V2. 
  apply input_inj in H0 as [V1 I1], V2 as [V2 I2]. apply verify_ret in H1 as (k1 & verify & Hk1 & Hv & Hty & Hnid & Hok & _).
  inv_bind Hr. apply getb_ret in H0 as [V3 R3]. inv_bind Hr. apply string_ret in H0 as [V4 R4].
  inv_bind Hr. destruct x2. apply get_end_ret in H0 as [R5 ->].
  assert (V : kex_sent s3 = kex_sent c) by congruence.
  assert (k1 = k) as -> by (apply view_inj in V0, V1; destruct V0, V1; congruence). clear V0 V1 V2 V3 V4.
  apply view_inj in V as (K4 & S4 & M4 & F4).
  unfold mbind at 1, deref at 1 in Hr. rewrite K4, Hk in Hr.
  inv_bind Hr. apply kem_case_ret in H0. pose proof (keeps_ret_eq _ _ _ _ _ (dec_frame _ _) H0) as V5.
  apply view_inj in V5 as (K5 & S5 & M5 & F5).
  unfold mbind at 1, deref at 1 in Hr. rewrite K5, K4, Hk in Hr.
  inv_bind Hr. pose proof (keeps_ret_eq _ _ _ _ _ (sent_gen_hash _ _ _ _ _ _ _ _ _) H1) as V6.
  apply view_inj in V6 as (K6 & S6 & M6 & F6). apply gen_hash_ret in H1.
  run Hr. destruct (sshkey_verify _ _ _ _ _) eqn:Esig; [discriminate Hr|]. injection Hr as <- <- <-.
  split; [unfold kex_sent; congruence|]. exists x, x0, x1, key. split; try done.
  - exists (incoming_packet s), (incoming_packet s2). rewrite <- R5, <- R4. split_and!; congruence.
  - by exists verify, (world s0).
  - exists s3, s4. split; [congruence|done].
  - congruence.
Qed.

(** *** Messages of strings *)

Definition message (type : Z) (l : list bytes) : bytes := zeros 5 ++ [byte_of_Z type] ++ concat (map wr_string l).
Definition strings_fit (l : list bytes) : Prop := Forall (fun v => zlen v <= SSHBUF_SIZE_MAX - 4) l.

Lemma start_ret t s s' : sshpkt_start t s = Ret tt s' ->
  kex_sent s' = kex_sent s /\ outgoing_packet s' = zeros 5 ++ [byte_of_Z t].
Proof.
  intros Hr. split; [by apply (keeps_ret_eq _ _ _ _ _ (sent_sshpkt_start t) Hr)|].
  unfold sshpkt_start, put_outgoing in Hr. run Hr. inv_bind Hr. apply buf_put_appends in H0 as ->. by injection Hr as <-.
Qed.

Lemma put_string_ret v s s' : sshpkt_put_string v s = Ret tt s' ->
  kex_sent s' = kex_sent s /\ outgoing_packet s' = outgoing_packet s ++ wr_string v /\ zlen v <= SSHBUF_SIZE_MAX - 4.
Proof.
  intros Hr. split; [by apply (keeps_ret_eq _ _ _ _ _ (sent_put_string v) Hr)|].
  unfold sshpkt_put_string in Hr. destruct (Z.gtb_spec (zlen v) (SSHBUF_SIZE_MAX - 4)); [discriminate Hr|].
  unfold put_outgoing in Hr. run Hr. inv_bind Hr.
  apply buf_put_appends in H1 as ->. by injection Hr as <-.
Qed.

Lemma send_message_ret t s s' : sshpkt_send s = Ret tt s' -> mux s = false ->
  plain_kex_type t -> 0 <= t < 256 -> forall l, outgoing_packet s = message t l ->
  kex s' = kex s /\ mux s' = mux s /\ compat s' = compat s /\ sent s' = sent s ++ [mk_packet t (message t l)].
Proof.
  intros Hr Hm Ht Hb l Ho.
  assert (Hat : at_ (outgoing_packet s) 5 = t).
  { rewrite Ho. exact (byte_val_of_Z_small t Hb). }
  apply send_plain_kex in Hr; [|done|by rewrite Hat]. rewrite Hat, Ho in Hr. unfold kex_sent in Hr. by injection Hr as -> -> -> ->.
Qed.

(** What a server has done when it has answered: [host] its key. *)
Record init_answered (k : kex_state) (q hash secret client_pub blob server_pub signature : bytes)
    (host : option sshkey * sshkey) : Prop := {
  ia_reads : rd_string q = Ok (client_pub, []);
  ia_host : exists pub prv, load_host_public_key = Some pub /\ load_host_private_key = Some prv /\
    pub (hostkey_type k) (hostkey_nid k) = Some (snd host) /\ fst host = prv (hostkey_type k) (hostkey_nid k);
  ia_blob : sshkey_putb (snd host) = Ok blob;
  ia_secret : exists s1 s2, kex_enc (kex_type k) client_pub s1 = Ret (server_pub, secret) s2;
  ia_hash : ssh_digest_memory (hash_alg k) (concat (transcript (client_version k) (server_version k) (kex_peer k)
    (kex_my k) blob client_pub server_pub secret)) SSH_DIGEST_MAX_LENGTH = Ok hash;
  ia_signed : exists w, fst (kex_sign (fst host) (snd host) hash (hostkey_alg k) w) = Ok signature;
  ia_fit : strings_fit [blob; server_pub; signature]
}.

Lemma load_hostkey_ret k s host s' : kex s = Some k -> kex_load_hostkey s = Ret host s' -> s' = s /\
  exists pub prv, load_host_public_key = Some pub /\ load_host_private_key = Some prv /\
    pub (hostkey_type k) (hostkey_nid k) = Some (snd host) /\ fst host = prv (hostkey_type k) (hostkey_nid k).
Proof.
  intros Hk. unfold kex_load_hostkey, mbind, deref. rewrite Hk.
  destruct load_host_public_key as [pub|], load_host_private_key as [prv|]; try discriminate.
  destruct (pub _ _) eqn:Hp; [|discriminate]. intros [= <- <-]. split; [done|]. by exists pub, prv.
Qed.

Lemma put_reply_ret blob server_pub signature s s' : put_reply blob server_pub signature s = Ret tt s' -> mux s = false ->
  kex s' = kex s /\ strings_fit [blob; server_pub; signature] /\
  sent s' = sent s ++ [mk_packet 31 (message 31 [blob; server_pub; signature])].
Proof.
  intros Hr Hm. unfold put_reply in Hr. inv_bind Hr. destruct x. apply start_ret in H0 as [V0 O0].
  do 3 (inv_bind Hr; match goal with Hp : sshpkt_put_string _ _ = Ret ?u _ |- _ =>
    destruct u; apply put_string_ret in Hp as (?V & ?O & ?F) end).
  assert (V3 : kex_sent s3 = kex_sent s) by congruence. apply view_inj in V3 as (K & S & M & _).
  apply (send_message_ret 31) with (l := [blob; server_pub; signature]) in Hr as (K' & _ & _ & S').
  - split_and!; [congruence|by repeat constructor|congruence].
  - congruence.
  - done.
  - done.
  - rewrite O2, O1, O, O0. unfold message. cbn [map concat]. by rewrite app_nil_r, <- !app_assoc.
Qed.

Lemma init_secret_ret k s hash secret s' : kex s = Some k -> mux s = false -> gen_init_secret s = Ret (hash, secret) s' ->
  kex s' = kex s /\
  exists client_pub blob server_pub signature host,
    init_answered k (incoming_packet s) hash secret client_pub blob server_pub signature host /\
    sent s' = sent s ++ [mk_packet 31 (message 31 [blob; server_pub; signature])].
Proof.
  intros Hk Hm Hr. unfold gen_init_secret in Hr. inv_bind Hr. apply (load_hostkey_ret k) in H0 as [-> Hhost]; [|done].
  inv_bind Hr. apply getb_ret in H0 as [V0 R0]. inv_bind Hr. destruct x1. apply get_end_ret in H0 as [R1 ->].
  apply view_inj in V0 as (K0 & S0 & M0 & _).
  unfold mbind at 1, deref at 1 in Hr. rewrite K0, Hk in Hr. inv_bind Hr. apply kem_case_ret in H0.
  destruct x1 as [server_pub sec]. pose proof (keeps_ret_eq _ _ _ _ _ (enc_frame _ _) H0) as V1.
  apply view_inj in V1 as (K1 & S1 & M1 & _). inv_bind Hr. apply memory_ret, input_inj, proj1, view_inj in H1 as (K2 & S2 & M2 & _).
  destruct x1; [|discriminate Hr]. cbn [negb] in Hr. inv_bind Hr.
  destruct (sshkey_putb (snd x)) as [blob|] eqn:Eblob; [|discriminate H1]. injection H1 as <- <-.
  unfold mbind at 1, deref at 1 in Hr. rewrite K2, K1, K0, Hk in Hr.
  inv_bind Hr. pose proof (keeps_ret_eq _ _ _ _ _ (sent_gen_hash _ _ _ _ _ _ _ _ _) H1) as V3.
  apply view_inj in V3 as (K3 & S3 & M3 & _). apply gen_hash_ret in H1.
  inv_bind Hr. unfold env in H2.
  destruct (kex_sign (fst x) (snd x) x1 (hostkey_alg k) (world s3)) as [r w] eqn:Esign.
  injection H2 as <- <-. inv_bind Hr. destruct r as [signature|]; [|discriminate H2]. injection H2 as <- <-.
  inv_bind Hr. injection Hr as <- <- <-. destruct x2.
  apply put_reply_ret in H2 as (K4 & Hfit & S4); [|cbn; congruence]. cbn in K4, S4.
  split; [congruence|]. exists x0, blob, server_pub, signature, x. split.
  - split; try done.
    + by rewrite R0, R1.
    + eexists _, _. exact H0.
    + exists (world s3). by rewrite Esign.
  - congruence.
Qed.

(** What a client has done when it has sent its public key. *)
Lemma gen_client_ret k c c1 : kex c = Some k -> mux c = false -> kex_gen_client c = Ret tt c1 ->
  exists k1 ca, kex_keypair (kex_type k) c = Ret tt ca /\ kex ca = Some k1 /\ kex c1 = Some k1 /\
    rest_of_kex c1 = rest_of_kex c /\ strings_fit [default [] (client_pub k1)] /\
    sent c1 = sent c ++ [mk_packet 30 (message 30 [default [] (client_pub k1)])].
Proof.
  intros Hk Hm Hr. unfold kex_gen_client in Hr. unfold mbind at 1, deref at 1 in Hr. rewrite Hk in Hr.
  inv_bind Hr. destruct x. apply kem_case_ret in H0. pose proof (keeps_ret_eq _ _ _ _ _ (keypair_frame _) H0) as V.
  assert (V1 : rest_of_kex s = rest_of_kex c /\ sent s = sent c /\ mux s = mux c)
    by (unfold gen_view in V; split_and!; congruence). destruct V1 as (R1 & S1 & M1).
  inv_bind Hr. destruct x. apply start_ret in H1 as [V2 O2]. apply view_inj in V2 as (K2 & S2 & M2 & _).
  unfold mbind at 1, deref at 1 in Hr. destruct (kex s0) as [k1|] eqn:Hk1; [|discriminate Hr].
  inv_bind Hr. destruct x. apply put_string_ret in H1 as (V3 & O3 & F3). apply view_inj in V3 as (K3 & S3 & M3 & _).
  inv_bind Hr. destruct x. apply (send_message_ret 30) with (l := [default [] (client_pub k1)]) in H1 as (K4 & M4 & _ & S4).
  - pose proof (keeps_ret_eq _ _ _ _ _ (sent_dispatch_set _ _) Hr) as V5. apply view_inj in V5 as (K5 & S5 & _).
    exists k1, s. split_and!; try congruence.
    + unfold rest_of_kex in *. congruence.
    + by repeat constructor.
  - congruence.
  - done.
  - done.
  - rewrite O3, O2. unfold message. cbn [map concat]. by rewrite app_nil_r, <- !app_assoc.
Qed.

(** What was read of a message is what was put into it. *)
Lemma read_message t l : drop 6 (message t l) = concat (map wr_string l).
Proof. done. Qed.
Lemma read_string v rest w r : zlen v <= SSHBUF_SIZE_MAX - 4 -> rd_string (wr_string v ++ rest) = Ok (w, r) -> w = v /\ r = rest.
Proof. intros Hf. rewrite rd_string_app by done. by intros [= <- <-]. Qed.

Lemma reply_reads blob server_pub signature q hash secret k flags blob' server_pub' signature' key :
  strings_fit [blob; server_pub; signature] -> q = concat (map wr_string [blob; server_pub; signature]) ->
  reply_accepted k flags q hash secret blob' server_pub' signature' key ->
  blob' = blob /\ server_pub' = server_pub /\ signature' = signature.
Proof.
  intros Hf -> Hr. destruct (ra_reads _ _ _ _ _ _ _ _ _ Hr) as (r1 & r2 & R1 & R2 & R3). cbn [map concat] in R1.
  apply Forall_cons in Hf as [F1 Hf]. apply Forall_cons in Hf as [F2 Hf]. apply Forall_cons in Hf as [F3 _].
  apply read_string in R1 as [-> ->]; [|done]. apply read_string in R2 as [-> ->]; [|done].
  by apply read_string in R3 as [-> _].
Qed.

Definition forgotten (s : session) : Prop :=
  forall k, kex s = Some k -> client_pub k = None /\ c25519_client_key k = zeros CURVE25519_SIZE.

Lemma forget_pair_ret s : exists s', forget_pair s = Ret tt s' /\ forgotten s'.
Proof.
  eexists. split; [reflexivity|]. intros k Hk. cbn in Hk. destruct (kex s); [|discriminate Hk]. by injection Hk as <-.
Qed.

(** A reply ends with the pair wiped; if it ends well, keys were derived and ours taken into
    use. *)
Lemma gen_reply_cases c : match input_kex_gen_reply c with
  | Ret _ c' => forgotten c' /\ exists d hs c1 c2 c3,
      gen_reply_secret (set_dispatch d c) = Ret hs c1 /\ kex_derive_keys (fst hs) (snd hs) c1 = Ret tt c2 /\
      kex_send_newkeys sig_alg_list c2 = Ret tt c3 /\ forget_pair c3 = Ret tt c'
  | Fail _ c' => forgotten c'
  | _ => True end.
Proof.
  unfold input_kex_gen_reply, ssh_dispatch_set. unfold mbind at 1, modify at 1. unfold mbind at 1, mtry.
  match goal with |- context [mbind ?m ?f (set_dispatch ?x c)] => set (d := x);
    destruct (mbind m f (set_dispatch d c)) as [u c3|e c3| |] eqn:Em end; try exact I;
    destruct (forget_pair_ret c3) as (c' & Hf & Hfd); unfold mbind; rewrite Hf; [|done].
  split; [done|]. inv_bind Em. unfold gen_keys in Em. inv_bind Em. destruct u, x0. by exists d, x, s, s0, c3.
Qed.
End sides.


(** ** What an exchange gives *)

(** Claim C4.  Keys are for the server that was meant.  A client that ends an exchange well has
    read a host key of the negotiated type that its user trusts, and a signature by that key of
    the hash over everything this client saw: both versions, both proposals, the host key, its
    own public key, the server's, and the secret the keys were derived of.  However it ends, the
    pair of the client is wiped. *)
Theorem server_authenticated {C : Crypto} {E : Env} {A : KeyAgreement} {H : HostKeys} {AL : AgreementLaws} k c
    (Hk : kex c = Some k) :
  match input_kex_gen_reply c with
  | Ret _ c' => forgotten c' /\ exists hash secret blob server_pub signature key c1 c2 c3,
      reply_accepted k (compat c) (incoming_packet c) hash secret blob server_pub signature key /\
      kex c1 = Some k /\ kex_derive_keys hash secret c1 = Ret tt c2 /\
      kex_send_newkeys sig_alg_list c2 = Ret tt c3 /\ forget_pair c3 = Ret tt c'
  | Fail _ c' => forgotten c'
  | _ => True end.
Proof.
  pose proof (gen_reply_cases c) as Hc. destruct (input_kex_gen_reply c); try done.
  destruct Hc as [Hf (d & [hash secret] & c1 & c2 & c3 & Hs & Hd & Hn & Hp)]. split; [done|].
  apply (reply_secret_ret k (set_dispatch d c)) in Hs as [V (blob & server_pub & signature & key & Hr)]; [|done].
  apply view_inj in V as [K _]. exists hash, secret, blob, server_pub, signature, key, c1, c2, c3.
  split_and!; try done. by rewrite K.
Qed.

Section agreement.
Context {C : Crypto} {CL : CryptoLaws} {KL : KeyLaws} {DL : DigestLaws} {E : Env} {L : EnvLaws}.
Context {A : KeyAgreement} {H : HostKeys} {AL : AgreementLaws}.

(** The two ends before a method runs: both adopted what was negotiated from the proposals of
    both, and know each other's versions. *)
Record met (al : algorithms) (kc ks : kex_state) : Prop := {
  met_client : adopted al kc;
  met_server : adopted al ks;
  met_sides : kex_server kc = false /\ kex_server ks = true;
  met_versions : client_version ks = client_version kc /\ server_version ks = server_version kc;
  met_proposals : kex_my ks = kex_peer kc /\ kex_peer ks = kex_my kc;
  met_first : has (kex_flags ks) KEX_INITIAL = has (kex_flags kc) KEX_INITIAL;
  met_session : session_id ks = session_id kc
}.

(** The pair of the client is not part of what was agreed. *)
Lemma met_pair al kc k1 ks :
  set_client_pub None (set_c25519_client_key [] k1) = set_client_pub None (set_c25519_client_key [] kc) ->
  met al kc ks -> met al k1 ks.
Proof.
  destruct kc, k1. intros Heq Hm. cbn in Heq. injection Heq. intros. subst.
  destruct Hm as [Ha Hs H1 H2 H3 H4 H5]. split; try assumption. by destruct Ha.
Qed.

(** The answer that was given and the answer that was accepted. *)
Lemma answers_agree al k1 ks c ca client_pub' blob spub sig host hash secret hash' secret' flags blob' spub' sig' key :
  met al k1 ks -> kex_keypair (kex_type k1) c = Ret tt ca -> kex ca = Some k1 ->
  strings_fit [default [] (client_pub k1)] ->
  init_answered ks (concat (map wr_string [default [] (client_pub k1)])) hash secret client_pub' blob spub sig host ->
  reply_accepted k1 flags (concat (map wr_string [blob; spub; sig])) hash' secret' blob' spub' sig' key ->
  hash' = hash /\ secret' = secret.
Proof.
  intros [Ma Mb _ [Mc Ms] [Mm Mp] _ _] Hpair Hca Hfit Hi Hr.
  destruct (reply_reads _ _ _ _ _ _ _ _ _ _ _ _ (ia_fit _ _ _ _ _ _ _ _ _ Hi) eq_refl Hr) as (-> & -> & ->).
  pose proof (ia_reads _ _ _ _ _ _ _ _ _ Hi) as Hq. cbn [map concat] in Hq.
  apply read_string in Hq as [-> _]; [|by apply Forall_inv in Hfit].
  destruct (ad_method _ _ Ma) as (Ta & _ & Ha), (ad_method _ _ Mb) as (Tb & _ & Hb).
  destruct (ia_secret _ _ _ _ _ _ _ _ _ Hi) as (s1 & s2 & Henc), (ra_secret _ _ _ _ _ _ _ _ _ Hr) as (c1 & c2 & Hc1 & Hdec).
  assert (secret' = secret) as ->.
  { rewrite Tb, <- Ta in Henc. by apply (agreement _ _ _ _ _ _ _ _ _ _ _ _ Hpair Hca Henc Hc1 eq_refl Hdec). }
  pose proof (ia_hash _ _ _ _ _ _ _ _ _ Hi) as Hhi. pose proof (ra_hash _ _ _ _ _ _ _ _ _ Hr) as Hhr.
  rewrite Hb, <- Ha, Mc, Ms, Mp, Mm, Hhr in Hhi. by injection Hhi as <-.
Qed.

(** Each direction of the keys that two ends derived of one exchange. *)
Lemma derived_both al client server a ka b kb hash secret a1 b1 : negotiate client server = Some al ->
  comp_type (nk_comp (al_ctos al)) = COMP_NONE -> comp_type (nk_comp (al_stoc al)) = COMP_NONE ->
  met al ka kb -> kex a = Some ka -> kex b = Some kb ->
  kex_derive_keys hash secret a = Ret tt a1 -> kex_derive_keys hash secret b = Ret tt b1 ->
  keys_link a1 b1 /\ keys_link b1 a1.
Proof.
  intros Hal C1 C2 [Ma Mb [Sa Sb] _ _ Mf Mi] Ka Kb Da Db.
  pose proof (kex_keys_ready _ _ _ _ _ Da Ka) as Ra. pose proof (kex_keys_ready _ _ _ _ _ Db Kb) as Rb.
  split.
  - destruct (derived_keys_link client server al a b ka kb hash secret) as (a2 & b2 & Da' & Db' & HL); rewrite ?Sa, ?Sb; try done.
    assert (a2 = a1) as <- by congruence. by assert (b2 = b1) as <- by congruence.
  - destruct (derived_keys_link client server al b a kb ka hash secret) as (b2 & a2 & Db' & Da' & HL); rewrite ?Sa, ?Sb; try done.
    assert (a2 = a1) as <- by congruence. by assert (b2 = b1) as <- by congruence.
Qed.
End agreement.

(** Claim C3.  The two ends of an exchange arrive at one secret.  When the server has answered
    what the client sent, and the client has accepted that answer, both derived their keys from
    the same hash and the same secret, and the keys are paired: in each direction the one end
    reads what the other sends ([packets_arrive]). *)
Theorem exchange_agrees {C : Crypto} {CL : CryptoLaws} {KL : KeyLaws} {DL : DigestLaws} {E : Env} {L : EnvLaws}
    {A : KeyAgreement} {H : HostKeys} {AL : AgreementLaws} client server al c kc c1 s ks s2 init
    (Hal : negotiate client server = Some al)
    (Hct : comp_type (nk_comp (al_ctos al)) = COMP_NONE) (Hst : comp_type (nk_comp (al_stoc al)) = COMP_NONE)
    (Hkc : kex c = Some kc) (Hks : kex s = Some ks) (Hmet : met al kc ks) (Hmc : mux c = false) (Hms : mux s = false)
    (Hclient : kex_gen_client c = Ret tt c1) (Hinit : sent c1 = sent c ++ [init])
    (Hread : incoming_packet s = drop 6 (p_payload init)) (Hserver : input_kex_gen_init s = Ret tt s2) :
  exists hash secret reply s0 s1, p_type init = 30 /\ p_type reply = 31 /\ sent s0 = sent s ++ [reply] /\
    kex_derive_keys hash secret s0 = Ret tt s1 /\ kex_send_newkeys sig_alg_list s1 = Ret tt s2 /\
    forall c2 c6, kex c2 = kex c1 -> incoming_packet c2 = drop 6 (p_payload reply) -> input_kex_gen_reply c2 = Ret tt c6 ->
      exists c3 c4 c5, kex_derive_keys hash secret c3 = Ret tt c4 /\ kex_send_newkeys sig_alg_list c4 = Ret tt c5 /\
        forget_pair c5 = Ret tt c6 /\ keys_link c4 s1 /\ keys_link s1 c4.
Proof.
  destruct (gen_client_ret _ _ _ Hkc Hmc Hclient) as (k1 & ca & Hpair & Hka & Hk1 & Hrest & Hfit & Hsent).
  rewrite Hsent in Hinit. apply app_inj_2 in Hinit as [_ Hinit]; [|done]. injection Hinit as <-.
  cbn [p_payload] in Hread. rewrite read_message in Hread.
  unfold rest_of_kex in Hrest. rewrite Hk1, Hkc in Hrest. cbn [option_map] in Hrest. apply (inj Some) in Hrest.
  apply (met_pair _ _ _ _ Hrest) in Hmet as Hmet1.
  unfold input_kex_gen_init in Hserver. inv_bind Hserver. injection H0 as _ <-. inv_bind Hserver. destruct x0 as [hash secret].
  apply (init_secret_ret ks) in H0 as [K0 (cpub & blob & spub & sig & host & Hans & Hs0)]; [|done|done].
  unfold gen_keys in Hserver. inv_bind Hserver. destruct x0.
  exists hash, secret, (mk_packet 31 (message 31 [blob; spub; sig])), s0, s1. split_and!; try done.
  intros c2 c6 Hk2 Hin Hreply. pose proof (gen_reply_cases c2) as Hc. rewrite Hreply in Hc.
  destruct Hc as [_ (d & [hash' secret'] & c3 & c4 & c5 & Hs & Hd & Hn & Hp)].
  apply (reply_secret_ret k1 (set_dispatch d c2)) in Hs as [V (blob' & spub' & sig' & key & Hr)]; [|cbn; congruence].
  apply view_inj in V as [K3 _]. cbn [kex set_dispatch] in K3. rewrite Hk2, Hk1 in K3.
  assert (Ht : kex_type k1 = kex_type kc) by exact (f_equal kex_type Hrest).
  cbn [incoming_packet set_dispatch] in Hans, Hr. rewrite Hread in Hans. rewrite Hin in Hr.
  assert (hash' = hash /\ secret' = secret) as [-> ->].
  { eapply (answers_agree al k1 ks c ca); [exact Hmet1|by rewrite Ht|exact Hka|exact Hfit|exact Hans|exact Hr]. }
  destruct (derived_both al client server c3 k1 s0 ks hash secret c4 s1) as [Hl1 Hl2]; try done; [by rewrite K0|].
  by exists c3, c4, c5.
Qed.

(** ** A method and a host key that can be run *)

(** Each side's public key is its key, and the secret is both. *)
#[local] Instance plain_agreement : KeyAgreement := {|
  kex_keypair _ := update_kex (fun k => set_client_pub (Some (lit "client")) (set_c25519_client_key (lit "client") k));
  kex_enc _ p := mret (lit "server", p ++ lit "server");
  kex_dec _ p := let! k := deref kex in mret (c25519_client_key k ++ p)
|}.

#[local] Instance plain_agreement_laws : AgreementLaws.
Proof.
  split; cbn.
  - intros t. apply keeps_modify. intros s. unfold gen_view, rest_of_kex. cbn. by destruct (kex s).
  - intros. apply keeps_ret.
  - intros. keeps.
  - unfold update_kex, modify, mret. intros t c c1 k1 s blob secret s1 c2 k2 secret' c3 [= <-] Hk [= <- <- <-] Hc2 Hkey Hd.
    unfold mbind, deref in Hd. rewrite Hc2 in Hd. injection Hd as <- _. rewrite Hkey. cbn in Hk.
    destruct (kex c); [|discriminate Hk]. by injection Hk as <-.
Qed.

(** A signature is what was signed. *)
#[local] Instance plain_hostkeys : HostKeys := {|
  sshkey := bytes;
  sshkey_type _ := sshkey_type_from_name (lit "ssh-ed25519");
  sshkey_nid _ := 0;
  sshkey_fromb b := Ok b;
  sshkey_putb k := Ok k;
  sshkey_verify _ sig data _ _ := if bool_decide (sig = data) then None else Some SSH_ERR_SIGNATURE_INVALID;
  kex_sign _ _ data _ w := (Ok data, w);
  load_host_public_key := Some (fun _ _ => Some (lit "host key"));
  load_host_private_key := Some (fun _ _ => Some (lit "host key"));
  verify_host_key := Some (fun _ w => (true, w));
  sig_alg_list := Some (lit "ssh-ed25519")
|}.

Definition after {T} (m : M T) (s : session) : session :=
  match m s with Ret _ s' => s' | _ => s end.

Definition returns {T} (m : M T) (s : session) : bool := match m s with Ret _ _ => true | _ => false end.
Lemma after_ret (m : M unit) s : returns m s = true -> m s = Ret tt (after m s).
Proof. unfold returns, after. by destruct (m s) as [[]| | |]. Qed.

Definition connected (s : session) : session := default s (ssh_packet_set_connection s).
Definition plain_client : session := connected (negotiated_end false ten_names server_names).
Definition plain_init : packet := mk_packet 30 (message 30 [lit "client"]).
Definition plain_server : session :=
  set_incoming_packet (drop 6 (p_payload plain_init)) (connected (negotiated_end true server_names ten_names)).
Definition plain_answered : session := after input_kex_gen_init plain_server.

Lemma exchange_agrees_witness :
  exists hash secret reply s0 s1, p_type plain_init = 30 /\ p_type reply = 31 /\ sent s0 = sent plain_server ++ [reply] /\
    kex_derive_keys hash secret s0 = Ret tt s1 /\ kex_send_newkeys sig_alg_list s1 = Ret tt plain_answered /\
    forall c2 c6, kex c2 = kex (after kex_gen_client plain_client) -> incoming_packet c2 = drop 6 (p_payload reply) ->
      input_kex_gen_reply c2 = Ret tt c6 ->
      exists c3 c4 c5, kex_derive_keys hash secret c3 = Ret tt c4 /\ kex_send_newkeys sig_alg_list c4 = Ret tt c5 /\
        forget_pair c5 = Ret tt c6 /\ keys_link c4 s1 /\ keys_link s1 c4.
Proof.
  apply (exchange_agrees ten_names server_names agreed plain_client (negotiated_kex false ten_names server_names)
    (after kex_gen_client plain_client) plain_server (negotiated_kex true server_names ten_names) plain_answered plain_init).
  - vm_compute. reflexivity.
  - vm_compute. reflexivity.
  - vm_compute. reflexivity.
  - vm_compute. reflexivity.
  - vm_compute. reflexivity.
  - split; [apply settled_adopted..| | | | |]; vm_compute; repeat split.
  - vm_compute. reflexivity.
  - vm_compute. reflexivity.
  - apply after_ret. vm_compute. reflexivity.
  - vm_compute. reflexivity.
  - vm_compute. reflexivity.
  - apply after_ret. vm_compute. reflexivity.
Defined.

(** The client given the answer of that server. *)
Definition plain_accepting : session :=
  set_incoming_packet (drop 6 (match sent plain_answered with p :: _ => p_payload p | [] => [] end))
    (after kex_gen_client plain_client).
Definition plain_accepting_kex : kex_state := default (negotiated_kex false [] []) (kex plain_accepting).

Lemma server_authenticated_witness : returns input_kex_gen_reply plain_accepting = true /\
  match input_kex_gen_reply plain_accepting with
  | Ret _ c' => forgotten c' /\ exists hash secret blob server_pub signature key c1 c2 c3,
      reply_accepted plain_accepting_kex (compat plain_accepting) (incoming_packet plain_accepting) hash secret blob
        server_pub signature key /\
      kex c1 = Some plain_accepting_kex /\ kex_derive_keys hash secret c1 = Ret tt c2 /\
      kex_send_newkeys sig_alg_list c2 = Ret tt c3 /\ forget_pair c3 = Ret tt c'
  | Fail _ c' => forgotten c'
  | _ => True end.
Proof. split; [vm_compute; reflexivity|]. apply server_authenticated. vm_compute. reflexivity. Defined.
