(* ===== verification/KexC25519.v ===== *)
(** kexc25519.c: the key exchange method over Curve25519, and what two ends that use it
    compute. *)

From S2P Require Import Prelude SshErr Wire SshQueue Compat CompatThms.
From S2P Require Import ChaCha ChachaPoly Digest SshCipher Packet PacketSend Plain PacketFrame PacketLink.
From S2P Require Import Kex KexConf KexGen KexGenThms.
From S2P Require Import Poly1305 Curve25519 Curve25519Limbs Curve25519Thms.

Definition basepoint : bytes := x09 :: zeros 31.

Section code.
Context {C : Crypto} {E : Env}.

(** The key and its public key. *)
Definition kexc25519_keygen : M (bytes * bytes) :=
  let! key := env (arc4random_buf CURVE25519_SIZE) in
  mret (key, crypto_scalarmult_curve25519 key basepoint).

(** [out]: what the buffer holds before. *)
Definition kexc25519_shared_key_ext (key pub out : bytes) (raw : bool) : M bytes :=
  let shared_key := crypto_scalarmult_curve25519 key pub in
  match timingsafe_bcmp (zeros CURVE25519_SIZE) shared_key CURVE25519_SIZE with
  | None => mcrash
  | Some r =>
    if r =? 0 then mfail SSH_ERR_KEY_INVALID_EC_VALUE
    else if raw then buf_put out shared_key
    else buf_put out (wr_bignum2 shared_key)
  end.

Definition kexc25519_shared_key (key pub out : bytes) : M bytes := kexc25519_shared_key_ext key pub out false.

(** [sshbuf_new] *)
Definition new_buffer : M bytes :=
  let! ok := env request_memory in
  if ok : bool then mret [] else mfail SSH_ERR_ALLOC_FAIL.
(** [sshbuf_reserve] of a buffer that is filled next. *)
Definition reserve_key : M unit :=
  let! ok := env request_memory in
  if ok : bool then mret tt else mfail SSH_ERR_ALLOC_FAIL.

Definition kex_c25519_keypair : M unit :=
  let! _buf := new_buffer in
  reserve_key ;;
  let! kp := kexc25519_keygen in
  update_kex (set_c25519_client_key (fst kp)) ;;
  update_kex (set_client_pub (Some (snd kp))).

(** The server's public key and the secret. *)
Definition kex_c25519_enc (client_blob : bytes) : M (bytes * bytes) :=
  if negb (zlen client_blob =? CURVE25519_SIZE) then mfail SSH_ERR_SIGNATURE_INVALID
  else
  let! _server_blob := new_buffer in
  reserve_key ;;
  let! kp := kexc25519_keygen in
  let! buf := new_buffer in
  let! secret := kexc25519_shared_key_ext (fst kp) client_blob buf false in
  mret (snd kp, secret).

Definition kex_c25519_dec (server_blob : bytes) : M bytes :=
  if negb (zlen server_blob =? CURVE25519_SIZE) then mfail SSH_ERR_SIGNATURE_INVALID
  else
  let! buf := new_buffer in
  let! k := deref kex in
  kexc25519_shared_key_ext (c25519_client_key k) server_blob buf false.
End code.

(** The method among the others. *)
Definition with_c25519 {C : Crypto} {E : Env} (other : KeyAgreement) : KeyAgreement := {|
  kex_keypair t := if t =? KEX_C25519_SHA256 then kex_c25519_keypair else kex_keypair (KeyAgreement := other) t;
  kex_enc t p := if t =? KEX_C25519_SHA256 then kex_c25519_enc p else kex_enc (KeyAgreement := other) t p;
  kex_dec t p := if t =? KEX_C25519_SHA256 then kex_c25519_dec p else kex_dec (KeyAgreement := other) t p
|}.

(** ** What the ends compute *)

(** The bytes of a public key and of a secret. *)
Lemma scalarmult_bytes n p : length n = 32%nat -> length p = 32%nat ->
  crypto_scalarmult_curve25519 n p = bytes_le 32 (x25519 (scalar_of n) (le_val p)).
Proof.
  intros Hn Hp. destruct (scalarmult_value n p Hn Hp) as (Hl & <- & _). rewrite <- Hl at 1. symmetry. apply bytes_le_val.
Qed.

Definition public_of (key : bytes) : Z := x25519 (scalar_of key) 9.
Definition secret_of (key : bytes) (pub : Z) : bytes := wr_bignum2 (bytes_le 32 (x25519 (scalar_of key) pub)).

Section ends.
Context {C : Crypto} {E : Env} {L : EnvLaws}.

Lemma does_keygen s : exists key, length key = 32%nat /\ le_val (bytes_le 32 (public_of key)) = public_of key /\
  does kexc25519_keygen s (Ok (key, bytes_le 32 (public_of key))) s.
Proof.
  pose proof (random_length CURVE25519_SIZE (world s)) as Hl.
  unfold kexc25519_keygen, does, mbind, env. destruct (arc4random_buf CURVE25519_SIZE (world s)) as [key w].
  assert (Hk : length key = 32%nat) by (unfold zlen, CURVE25519_SIZE in Hl; cbn in Hl; lia).
  exists key. pose proof (scalarmult_bytes key basepoint Hk eq_refl) as Hb. change (le_val basepoint) with 9 in Hb.
  fold (public_of key) in Hb. rewrite <- Hb.
  split_and!; [done|apply (scalarmult_value key basepoint Hk eq_refl)|by exists w].
Qed.

Lemma zlen_bytes_le z : zlen (bytes_le 32 z) = 32.
Proof. unfold zlen. by rewrite length_bytes_le. Qed.

Lemma zlen_skip_zeros v : zlen (skip_zeros v) <= zlen v.
Proof. induction v as [|c v IH]; cbn [skip_zeros]; [done|]. destruct (_ =? 0); [rewrite zlen_cons; lia|done]. Qed.

(** The secret, or the refusal of a point of small order. *)
Definition agreed_secret (key : bytes) (pub : Z) : res bytes :=
  if x25519 (scalar_of key) pub =? 0 then Err SSH_ERR_KEY_INVALID_EC_VALUE else Ok (secret_of key pub).

Lemma does_shared_key key pub s : length key = 32%nat -> length pub = 32%nat ->
  does (kexc25519_shared_key_ext key pub [] false) s (agreed_secret key (le_val pub)) s.
Proof.
  intros Hk Hp. unfold kexc25519_shared_key_ext, agreed_secret, secret_of. cbv zeta.
  pose proof (proj1 (scalarmult_value key pub Hk Hp)) as Hs. pose proof (scalarmult_bytes key pub Hk Hp) as Hb.
  pose proof (proj1 (proj2 (scalarmult_value key pub Hk Hp))) as Hv.
  revert Hs Hb Hv. generalize (crypto_scalarmult_curve25519 key pub) as sh, (x25519 (scalar_of key) (le_val pub)) as v.
  intros sh v Hs -> Hv. rewrite timingsafe_bcmp_spec by (unfold zlen; rewrite ?Hs; done).
  rewrite !take_ge by (rewrite ?Hs; done). destruct (Z.eqb_spec v 0) as [->|Hne].
  - rewrite bytes_le_zero, bool_decide_true by done. does_done.
  - rewrite bool_decide_false. 2: { intros E0. rewrite <- E0 in Hv. by vm_compute in Hv. }
    cbn [Z.eqb]. apply (does_buf_put []). change (zlen (@nil byte)) with 0. unfold wr_bignum2, wr_string.
    pose proof (zlen_skip_zeros (bytes_le 32 v)) as Hz. rewrite zlen_bytes_le in Hz.
    rewrite zlen_app, zlen_POKE_U32, zlen_app. unfold SSHBUF_SIZE_MAX.
    destruct (msb_set _); [change (zlen [x00]) with 1|change (zlen (@nil byte)) with 0]; lia.
Qed.

Lemma does_new_buffer s : does new_buffer s (Ok []) s.
Proof. unfold new_buffer. does_step ltac:(apply does_memory). does_done. Qed.
Lemma does_reserve_key s : does reserve_key s (Ok tt) s.
Proof. unfold reserve_key. does_step ltac:(apply does_memory). does_done. Qed.

(** A key drawn after memory was given. *)
Lemma does_fresh_key {B} (k : bytes * bytes -> M B) s : exists key, length key = 32%nat /\
  le_val (bytes_le 32 (public_of key)) = public_of key /\
  forall r s', (forall w, does (k (key, bytes_le 32 (public_of key))) (set_world w s) r s') ->
    does (let! _buf := new_buffer in reserve_key ;; let! kp := kexc25519_keygen in k kp) s r s'.
Proof.
  destruct (does_new_buffer s) as [w0 H0]. destruct (does_reserve_key (set_world w0 s)) as [w1 H1].
  destruct (does_keygen (set_world w1 (set_world w0 s))) as (key & Hl & Hv & [w2 H2]).
  exists key. split_and!; [done|done|]. intros r s' Hk. unfold does. unfold mbind at 1. rewrite H0. unfold mbind at 1. rewrite H1.
  unfold mbind at 1. rewrite H2. destruct (Hk w2) as [w3 H3]. exists w3. exact H3.
Qed.

Lemma does_keypair c k : kex c = Some k -> exists key, length key = 32%nat /\
  le_val (bytes_le 32 (public_of key)) = public_of key /\
  does kex_c25519_keypair c (Ok tt) (set_kex (Some (set_client_pub (Some (bytes_le 32 (public_of key)))
    (set_c25519_client_key key k))) c).
Proof.
  intros Hk. destruct (does_fresh_key (fun kp => update_kex (set_c25519_client_key (fst kp)) ;;
    update_kex (set_client_pub (Some (snd kp)))) c) as (key & Hl & Hv & Hd). exists key. split_and!; [done|done|].
  apply Hd. intros w. exists w. clear Hd. destruct c. cbn in Hk. subst. reflexivity.
Qed.

Lemma does_enc pub s : le_val (bytes_le 32 pub) = pub -> exists key, length key = 32%nat /\
  le_val (bytes_le 32 (public_of key)) = public_of key /\
  does (kex_c25519_enc (bytes_le 32 pub)) s
    (match agreed_secret key pub with Ok secret => Ok (bytes_le 32 (public_of key), secret) | Err e => Err e end) s.
Proof.
  intros Hpv. destruct (does_fresh_key (fun kp => let! buf := new_buffer in
    let! secret := kexc25519_shared_key_ext (fst kp) (bytes_le 32 pub) buf false in mret (snd kp, secret)) s)
    as (key & Hl & Hv & Hd). exists key. split_and!; [done|done|].
  assert (Hs : forall st, does (kexc25519_shared_key_ext key (bytes_le 32 pub) [] false) st (agreed_secret key pub) st).
  { intros st. pose proof (does_shared_key key (bytes_le 32 pub) st Hl (length_bytes_le _ _)) as Hs. by rewrite Hpv in Hs. }
  unfold kex_c25519_enc. rewrite zlen_bytes_le. apply Hd. intros w. cbn [fst snd].
  eapply does_bind; [apply does_new_buffer|]. intros w0. does_last.
  destruct (agreed_secret key pub) as [secret|e].
  - eapply does_bind; [apply Hs|]. intros w2. does_done.
  - apply does_fail, Hs.
Qed.

Lemma does_dec pub s k : le_val (bytes_le 32 pub) = pub -> kex s = Some k -> length (c25519_client_key k) = 32%nat ->
  does (kex_c25519_dec (bytes_le 32 pub)) s (agreed_secret (c25519_client_key k) pub) s.
Proof.
  intros Hpv Hk Hl. unfold kex_c25519_dec. rewrite zlen_bytes_le. change (32 =? CURVE25519_SIZE) with true. cbn [negb].
  eapply does_bind; [apply does_new_buffer|]. intros w. eapply does_bind; [apply does_deref; exact Hk|]. intros w1.
  does_last. rewrite <- Hpv at 2. apply (does_shared_key (c25519_client_key k) (bytes_le 32 pub) _ Hl (length_bytes_le _ _)).
Qed.
End ends.



(** ** As a method of the exchange *)

(** Multiplication by one number after another does not depend on their order: a theorem about the
    curve that is not proved here. *)
Class LadderCommutes : Prop :=
  ladder_commutes a b : length a = 32%nat -> length b = 32%nat ->
    x25519 (scalar_of a) (public_of b) = x25519 (scalar_of b) (public_of a).

Section laws.
Context {C : Crypto} {E : Env} {L : EnvLaws}.

Lemma frame_new_buffer {T} (f : session -> T) : (forall w s, f (set_world w s) = f s) -> keeps f new_buffer.
Proof. intros H. unfold new_buffer. apply keeps_bind; [by apply keeps_env|]. intros []; [apply keeps_ret|apply keeps_fail]. Qed.
Lemma frame_reserve_key {T} (f : session -> T) : (forall w s, f (set_world w s) = f s) -> keeps f reserve_key.
Proof. intros H. unfold reserve_key. apply keeps_bind; [by apply keeps_env|]. intros []; [apply keeps_ret|apply keeps_fail]. Qed.
Lemma frame_keygen {T} (f : session -> T) : (forall w s, f (set_world w s) = f s) -> keeps f kexc25519_keygen.
Proof. intros H. unfold kexc25519_keygen. apply keeps_bind; [by apply keeps_env|]. intros ?. apply keeps_ret. Qed.
Lemma frame_shared_key key pub out raw : keeps kex_sent (kexc25519_shared_key_ext key pub out raw).
Proof.
  unfold kexc25519_shared_key_ext. cbv zeta. destruct (timingsafe_bcmp _ _ _) as [r|]; [|apply keeps_crash].
  destruct (r =? 0); [apply keeps_fail|]. destruct raw; apply sent_buf_put.
Qed.
#[local] Hint Resolve frame_new_buffer frame_reserve_key frame_keygen frame_shared_key : keeps.

Lemma frame_keypair : keeps gen_view kex_c25519_keypair.
Proof.
  unfold kex_c25519_keypair. keeps; apply keeps_modify; intros s; unfold gen_view, rest_of_kex; cbn; by destruct (kex s).
Qed.
Lemma frame_enc blob : keeps kex_sent (kex_c25519_enc blob).
Proof. unfold kex_c25519_enc. keeps. Qed.
Lemma frame_dec blob : keeps kex_sent (kex_c25519_dec blob).
Proof. unfold kex_c25519_dec. keeps. Qed.

Lemma does_ret {A} (m : M A) s r s' a s1 : does m s r s' -> m s = Ret a s1 -> r = Ok a /\ exists w, s1 = set_world w s'.
Proof. intros [w Hd] Hm. rewrite Hm in Hd. destruct r; [|done]. injection Hd as -> ->. eauto. Qed.

Lemma c25519_agrees {LC : LadderCommutes} c c1 k1 s blob secret s1 c2 k2 secret' c3 :
  kex_c25519_keypair c = Ret tt c1 -> kex c1 = Some k1 ->
  kex_c25519_enc (default [] (client_pub k1)) s = Ret (blob, secret) s1 ->
  kex c2 = Some k2 -> c25519_client_key k2 = c25519_client_key k1 ->
  kex_c25519_dec blob c2 = Ret secret' c3 -> secret' = secret.
Proof.
  intros Hp H1 He H2 Hkey Hd.
  assert (exists k, kex c = Some k) as [k Hk].
  { apply (keeps_ret_eq _ _ _ _ _ frame_keypair) in Hp. unfold gen_view, rest_of_kex in Hp. rewrite H1 in Hp.
    destruct (kex c); [eauto|discriminate Hp]. }
  destruct (does_keypair c k Hk) as (a & La & Va & Da). destruct (does_ret _ _ _ _ _ _ Da Hp) as (_ & w & ->).
  injection H1 as <-. cbn [client_pub default] in He.
  destruct (does_enc (public_of a) s Va) as (b & Lb & Vb & Db). destruct (does_ret _ _ _ _ _ _ Db He) as [E1 _].
  unfold agreed_secret in E1. destruct (_ =? 0) in E1; [discriminate E1|]. injection E1 as <- <-.
  cbn in Hkey. pose proof (does_dec (public_of b) c2 k2 Vb H2) as Dd. rewrite Hkey in Dd.
  destruct (does_ret _ _ _ _ _ _ (Dd La) Hd) as [E2 _].
  unfold agreed_secret in E2. destruct (_ =? 0) in E2; [discriminate E2|]. injection E2 as <-.
  unfold secret_of. by rewrite ladder_commutes.
Qed.

(** Given that, the method has the laws with which [KexGenThms] relates the two ends. *)
Lemma c25519_laws {LC : LadderCommutes} (other : KeyAgreement) : AgreementLaws (A := other) ->
  AgreementLaws (A := with_c25519 other).
Proof.
  intros [F1 F2 F3 Ag]. split; cbn; intros t; destruct (t =? KEX_C25519_SHA256);
    auto using frame_keypair, frame_enc, frame_dec.
  - exact c25519_agrees.
  - apply Ag.
Qed.
End laws.
