(* ===== verification/Ed25519.v ===== *)
(** ed25519.c, verify.c, hash.c and ssh-ed25519.c: signatures, and their wire form. *)

From S2P Require Import Prelude SshErr Wire SshQueue KeyTypes PacketRead Kex.
From S2P Require Import Products Fe25519 Sc25519 Ge25519Base Ge25519.

Definition crypto_sign_ed25519_BYTES : Z := 64.

(** What the files call: SHA-512 of libcrypto ([None] is failure), the memory [malloc] gives
    to the request of a number, and what the local arrays of a function hold at its start. *)
Class Libraries := {
  EVP_sha512 : bytes -> option bytes;
  malloc : nat -> Z -> option bytes;
  uninitialised : nat -> bytes
}.

(** ** verify.c *)

Definition s32 (z : Z) : Z := if u32 z <? 2 ^ 31 then u32 z else u32 z - 2 ^ 32.

Definition crypto_verify_32 (x y : bytes) : Z :=
  let differentbits := fold_left (fun d i => Z.lor d (Z.lxor (at_ x i) (at_ y i))) (seq 0 32) 0 in
  s32 (Z.land 1 (Z.shiftr (u32 (differentbits - 1)) 8) - 1).

(** ** ed25519.c *)

Section code.
Context {L : Libraries}.

(** [out]: what the result's array holds before. *)
Definition crypto_hash_sha512 (out m : bytes) : bytes * Z :=
  match EVP_sha512 m with
  | None => (out, -1)
  | Some d => (d, 0)
  end.

(** [extsk[0] &= 248; extsk[31] &= 127; extsk[31] |= 64]. *)
Definition clamp_extsk (extsk : bytes) : bytes :=
  let extsk := <[0%nat := byte_of_Z (Z.land (at_ extsk 0) 248)]> extsk in
  let extsk := <[31%nat := byte_of_Z (Z.land (at_ extsk 31) 127)]> extsk in
  <[31%nat := byte_of_Z (Z.lor (at_ extsk 31) 64)]> extsk.

(** The hash and what [playground], maybe [sm] itself, holds afterwards. *)
Definition get_hram (hram sm pk : bytes) : bytes * bytes :=
  let playground := firstn 32 sm ++ firstn 32 pk ++ skipn 64 sm in
  (fst (crypto_hash_sha512 hram playground), playground).

(** [seed]: the bytes of [randombytes].  Returns [pk] and [sk]. *)
Definition crypto_sign_ed25519_keypair (seed : bytes) : bytes * bytes :=
  let sk := firstn 32 seed in
  let extsk := clamp_extsk (fst (crypto_hash_sha512 (uninitialised 0) sk)) in
  let scsk := sc25519_from32bytes extsk in
  let gepk := ge25519_scalarmult_base scsk in
  let pk := ge25519_pack gepk in
  (pk, sk ++ pk).

(** [sm], of length [*smlen]; the function always returns 0. *)
Definition crypto_sign_ed25519 (m sk : bytes) : bytes :=
  let extsk := clamp_extsk (fst (crypto_hash_sha512 (uninitialised 0) (firstn 32 sk))) in
  let hmg := fst (crypto_hash_sha512 (uninitialised 1) (firstn 32 (skipn 32 extsk) ++ m)) in
  let sck := sc25519_from64bytes hmg in
  let ger := ge25519_scalarmult_base sck in
  let r := ge25519_pack ger in
  let sm := r ++ firstn 32 (skipn 32 extsk) ++ m in
  let '(hram, sm) := get_hram (uninitialised 2) sm (skipn 32 sk) in
  let scs := sc25519_from64bytes hram in
  let scsk := sc25519_from32bytes extsk in
  let scs := sc25519_mul scs scsk in
  let scs := sc25519_add scs sck in
  let s := sc25519_to32bytes scs in
  firstn 32 sm ++ s ++ skipn 64 sm.

(** [t2]: the point the equation of the signature gives, for the key [get1], negated. *)
Definition open_t2 (get1 : ge25519) (hram sm : bytes) : bytes :=
  let schram := sc25519_from64bytes hram in
  let scs := sc25519_from32bytes (firstn 32 (skipn 32 sm)) in
  let get2 := ge25519_double_scalarmult_vartime get1 schram ge25519_base scs in
  ge25519_pack get2.

(** The result, [*mlen] and what is in the memory of [m], which is as long as [sm].  The
    loops count with 32 bits: messages are shorter than that. *)
Definition crypto_sign_ed25519_open (m sm pk : bytes) : Z * Z * bytes :=
  let mlen := 2 ^ 64 - 1 in
  if zlen sm <? 64 then (-1, mlen, m)
  else match ge25519_unpackneg_vartime pk return Z * Z * bytes with
  | None => (-1, mlen, m)
  | Some get1 =>
    let '(hram, m) := get_hram (uninitialised 0) sm pk in
    let ret := crypto_verify_32 sm (open_t2 get1 hram sm) in
    let n := zlen sm - 64 in
    if ret =? 0 then (ret, n, skipn 64 sm ++ skipn (Z.to_nat n) m)
    else (ret, mlen, zeros n ++ skipn (Z.to_nat n) m)
  end.

(** ** ssh-ed25519.c *)

(** The fields of [struct sshkey] that are used. *)
Record ed_key := { ed_type : Z; ed25519_pk : option bytes; ed25519_sk : option bytes }.

Definition name_ed25519 : bytes := lit "ssh-ed25519".

(** [sshbuf_put_cstring] and [sshbuf_put_string] to the buffer of request 1, which holds
    256 bytes before it has to grow. *)
Definition ssh_ed25519_sign (key : option ed_key) (data : bytes) : res bytes :=
  match key with
  | None => Err SSH_ERR_INVALID_ARGUMENT
  | Some key =>
    match ed25519_sk key with
    | None => Err SSH_ERR_INVALID_ARGUMENT
    | Some sk =>
      if negb (sshkey_type_plain (ed_type key) =? KEY_ED25519) || (zlen data >=? INT_MAX - crypto_sign_ed25519_BYTES)
      then Err SSH_ERR_INVALID_ARGUMENT
      else match malloc 0 (zlen data + crypto_sign_ed25519_BYTES) with
      | None => Err SSH_ERR_ALLOC_FAIL
      | Some _ =>
        let sig := crypto_sign_ed25519 data sk in
        let smlen := zlen data + 64 in
        if smlen <=? zlen data then Err SSH_ERR_INVALID_ARGUMENT
        else match malloc 1 256 with
        | None => Err SSH_ERR_ALLOC_FAIL
        | Some _ =>
          let b := wr_string name_ed25519 ++ wr_string (firstn (Z.to_nat (smlen - zlen data)) sig) in
          match malloc 2 (zlen b) with
          | None => Err SSH_ERR_ALLOC_FAIL
          | Some _ => Ok b
          end
        end
      end
    end
  end.

Definition ssh_ed25519_verify (key : option ed_key) (signature : option bytes) (data : bytes) : res unit :=
  match key, signature with
  | Some key, Some signature =>
    match ed25519_pk key with
    | None => Err SSH_ERR_INVALID_ARGUMENT
    | Some pk =>
      if negb (sshkey_type_plain (ed_type key) =? KEY_ED25519) || (zlen data >=? INT_MAX - crypto_sign_ed25519_BYTES)
        || (zlen signature =? 0)
      then Err SSH_ERR_INVALID_ARGUMENT
      else if (zlen signature >? SSHBUF_SIZE_MAX) || bool_decide (malloc 0 256 = None) then Err SSH_ERR_ALLOC_FAIL
      else match rd_cstring signature with
      | Err e => Err e
      | Ok (ktype, b) =>
        if bool_decide (malloc 1 (zlen ktype + 1) = None) then Err SSH_ERR_ALLOC_FAIL
        else match rd_string b with
        | Err e => Err e
        | Ok (sigblob, b) =>
          let len := zlen sigblob in
          if negb (bool_decide (name_ed25519 = c_str ktype)) then Err SSH_ERR_KEY_TYPE_MISMATCH
          else if negb (zlen b =? 0) then Err SSH_ERR_UNEXPECTED_TRAILING_DATA
          else if len >? crypto_sign_ed25519_BYTES then Err SSH_ERR_INVALID_FORMAT
          else if zlen data >=? SIZE_MAX - len then Err SSH_ERR_INVALID_ARGUMENT
          else match malloc 2 (len + zlen data), malloc 3 (len + zlen data) with
          | Some _, Some m =>
            let '(ret, mlen, _) := crypto_sign_ed25519_open m (sigblob ++ data) pk in
            if negb (ret =? 0) || negb (mlen =? zlen data) then Err SSH_ERR_SIGNATURE_INVALID
            else Ok tt
          | _, _ => Err SSH_ERR_ALLOC_FAIL
          end
        end
      end
    end
  | _, _ => Err SSH_ERR_INVALID_ARGUMENT
  end.
End code.
