(* ===== verification/Ed25519Thms.v ===== *)
(** Ed25519 signatures: what is signed, what is accepted, and that the one is the other. *)

From Stdlib Require Import Zmod.
From S2P Require Import Prelude SshErr Wire SshQueue Compat CompatThms KeyTypes Kex.
From S2P Require Import Poly1305 Curve25519 Curve25519Limbs Curve25519Thms Products Fe25519 Fe25519Thms.
From S2P Require Import Sc25519 Sc25519Thms Primes Abelian Edwards EdGroup Ge25519Base Ge25519 Ge25519Thms Ge25519Bytes EdOrder Ed25519.

(** What is assumed of the libraries: the hash does not fail and has 64 bytes, and there is memory. *)
Class LibraryLaws {L : Libraries} := {
  sha512 : bytes -> bytes;
  EVP_sha512_eq m : EVP_sha512 m = Some (sha512 m);
  sha512_length m : length (sha512 m) = 64%nat;
  malloc_some k n : malloc k n <> None
}.

(** ** crypto_verify_32 *)

Lemma lor_bound n r s : 0 <= n -> 0 <= r < 2 ^ n -> 0 <= s < 2 ^ n -> 0 <= Z.lor r s < 2 ^ n.
Proof.
  intros Hn Hr Hs. assert (E : Z.lor r s = Z.land (Z.lor r s) (Z.ones n)).
  { rewrite Z.land_lor_distr_l, !Z.land_ones, !Z.mod_small by lia. done. }
  rewrite E, Z.land_ones by lia. apply Z.mod_pos_bound. lia.
Qed.

Lemma differing_bits x y n : let d := fold_left (fun d i => Z.lor d (Z.lxor (at_ x i) (at_ y i))) (seq 0 n) 0 in
  0 <= d < 2 ^ 8 /\ (d = 0 <-> forall i, (i < n)%nat -> at_ x i = at_ y i).
Proof.
  induction n as [|n IH]; cbv zeta in *; [split; [cbn; lia|]; split; [intros _ i Hi; lia|done]|].
  rewrite seq_S, fold_left_app. cbn [Nat.add fold_left]. revert IH. generalize (fold_left (fun d i => Z.lor d (Z.lxor (at_ x i) (at_ y i))) (seq 0 n) 0).
  intros d [Hd IH]. unfold at_ in *. pose proof (byte_val_range (nth n x x00)) as Hx. pose proof (byte_val_range (nth n y x00)) as Hy.
  pose proof (lxor_bound 8 _ _ ltac:(lia) Hx Hy) as Hl. split; [by apply (lor_bound 8)|].
  rewrite Z.lor_eq_0_iff, lxor_zero, IH. split.
  - intros [H E] i Hi. destruct (decide (i = n)) as [->|Hn]; [exact E|apply H; lia].
  - intros H. split; [intros i Hi; apply H; lia|apply H; lia].
Qed.

Lemma crypto_verify_32_val x y : (32 <= length x)%nat -> (32 <= length y)%nat ->
  crypto_verify_32 x y = if bool_decide (firstn 32 x = firstn 32 y) then 0 else -1.
Proof.
  intros Hx Hy. destruct (differing_bits x y 32) as [Hd E]. unfold crypto_verify_32. cbv zeta.
  set (d := fold_left _ _ _) in *. clearbody d.
  assert (E' : d = 0 <-> firstn 32 x = firstn 32 y).
  { rewrite E. split.
    - intros H. apply nth_ext with x00 x00; [rewrite !length_firstn; lia|]. intros i Hi. rewrite length_firstn in Hi.
      rewrite !nth_firstn. destruct (Nat.ltb_spec i 32); [|lia]. by apply byte_val_inj, H.
    - intros H i Hi. unfold at_. f_equal. transitivity (nth i (firstn 32 x) x00); [|rewrite H]; rewrite nth_firstn;
        destruct (Nat.ltb_spec i 32); try lia; done. }
  destruct (Z.eq_dec d 0) as [->|Hn].
  - rewrite bool_decide_true by by apply E'. reflexivity.
  - rewrite bool_decide_false by by rewrite <- E'. rewrite u32_small by lia. rewrite Z.shiftr_div_pow2, Z.div_small by lia. reflexivity.
Qed.

(** ** Secret scalars *)

Lemma masked_127 b : byte_val (byte_of_Z (Z.land (byte_val b) 127)) = Z.land (byte_val b) 127.
Proof. destruct b; by vm_compute. Qed.

Lemma clamp_extsk_parts e : length e = 64%nat ->
  length (clamp_extsk e) = 64%nat /\ firstn 32 (clamp_extsk e) = clamp_scalar (firstn 32 e) /\ skipn 32 (clamp_extsk e) = skipn 32 e.
Proof.
  intros He. do 64 (destruct e as [|? e]; [discriminate He|]). destruct e; [|discriminate He].
  split; [reflexivity|split; [|reflexivity]].
  unfold clamp_extsk, clamp_scalar, at_. cbn [nth firstn insert list_insert map seq app]. by rewrite masked_127.
Qed.

Lemma from32bytes_first x : (32 <= length x)%nat -> sc25519_from32bytes x = sc25519_from32bytes (firstn 32 x).
Proof.
  intros Hx. unfold sc25519_from32bytes.
  rewrite (map_ext_in (fun i => byte_val (nth i (firstn 32 x) x00)) (fun i => byte_val (nth i x x00))); [reflexivity|].
  intros i Hi%in_seq. rewrite nth_firstn. destruct (Nat.ltb_spec i 32); [done|lia].
Qed.

Lemma clamped_scalar e : length e = 64%nat ->
  limbs 32 (sc25519_from32bytes (clamp_extsk e)) /\ val (sc25519_from32bytes (clamp_extsk e)) = scalar_of (firstn 32 e) mod ORDER.
Proof.
  intros He. destruct (clamp_extsk_parts e He) as (Hl & Hf & _). rewrite from32bytes_first, Hf by lia.
  assert (H32 : length (firstn 32 e) = 32%nat) by (rewrite length_firstn; lia).
  rewrite <- (clamp_scalar_val _ H32). by apply from32bytes_val.
Qed.

(** ** Keys and signatures *)

(** Points that [ge25519_pack] writes as their encoding. *)
Definition regular (P : ed) : Prop := (TINY <= X P)%Z /\ (TINY <= Y P)%Z.
Lemma ordinary_regular P : ordinary P -> regular P.
Proof. intros [HX HY _]. split; [apply HX|exact HY]. Qed.

Lemma mod_order z : 0 <= z mod ORDER < ORDER.
Proof. by apply Z.mod_pos_bound. Qed.

Lemma base_multiple_packs s z : limbs 32 s -> val s = z mod ORDER -> regular (smul z base) ->
  ge25519_pack (ge25519_scalarmult_base s) = encode (smul z base).
Proof.
  intros Hs Hv [HX HY]. assert (Hr : rep3 (ge25519_scalarmult_base s) (smul z base)).
  { rewrite <- smul_base_mod, <- Hv. apply scalarmult_base_rep; [exact Hs|]. rewrite Hv. apply mod_order. }
  exact (pack_rep _ _ Hr HX HY).
Qed.

Section keys.
Context {L : Libraries} {W : LibraryLaws}.

Lemma hash_val out m : fst (crypto_hash_sha512 out m) = sha512 m.
Proof. unfold crypto_hash_sha512. by rewrite EVP_sha512_eq. Qed.

(** RFC 8032: the scalar, the prefix and the public point of a secret key, the number of a
    message's nonce, and the challenge. *)
Definition secret_scalar (seed : bytes) : Z := scalar_of (firstn 32 (sha512 seed)).
Definition prefix (seed : bytes) : bytes := skipn 32 (sha512 seed).
Definition public_point (seed : bytes) : ed := smul (secret_scalar seed) base.
Definition nonce (seed m : bytes) : Z := le_val (sha512 (prefix seed ++ m)).
Definition nonce_point (seed m : bytes) : ed := smul (nonce seed m) base.
Definition challenge (r pk m : bytes) : Z := le_val (sha512 (r ++ pk ++ m)).

Definition response (seed m : bytes) : Z :=
  (challenge (encode (nonce_point seed m)) (encode (public_point seed)) m * secret_scalar seed + nonce seed m) mod ORDER.
Definition signature_bytes (seed m : bytes) : bytes := encode (nonce_point seed m) ++ bytes_le 32 (response seed m).

Lemma length_encode P : length (encode P) = 32%nat.
Proof. apply length_bytes_le. Qed.
Lemma zlen_signature_bytes seed m : zlen (signature_bytes seed m) = 64.
Proof. unfold zlen, signature_bytes. by rewrite length_app, length_encode, length_bytes_le. Qed.

Lemma keypair_val seed : length seed = 32%nat -> regular (public_point seed) ->
  crypto_sign_ed25519_keypair seed = (encode (public_point seed), seed ++ encode (public_point seed)).
Proof.
  intros Hs Hr. unfold crypto_sign_ed25519_keypair. rewrite hash_val, (firstn_all2 seed) by lia.
  destruct (clamped_scalar (sha512 seed) (sha512_length seed)) as [Hl Hv].
  by rewrite (base_multiple_packs _ _ Hl Hv Hr).
Qed.

Lemma get_hram_val out r b m pk : length r = 32%nat -> length b = 32%nat -> length pk = 32%nat ->
  get_hram out (r ++ b ++ m) pk = (sha512 (r ++ pk ++ m), r ++ pk ++ m).
Proof.
  intros Hr Hb Hp. unfold get_hram. rewrite hash_val.
  rewrite (take_app_length' r _ 32) by done. rewrite (firstn_all2 pk) by lia.
  rewrite (app_assoc r b m), (drop_app_length' (r ++ b) m 64) by (rewrite length_app; lia). reflexivity.
Qed.

(** ** Signing *)

Lemma response_val h a r : length h = 64%nat -> limbs 32 a -> limbs 32 r -> val r < ORDER ->
  sc25519_to32bytes (sc25519_add (sc25519_mul (sc25519_from64bytes h) a) r) = bytes_le 32 ((le_val h * val a + val r) mod ORDER).
Proof.
  intros Hh Ha Hr Br. destruct (from64bytes_val h Hh) as [Lh Vh]. destruct (mul_sc_val _ a Lh Ha) as [Lm Vm].
  assert (Bm : val (sc25519_mul (sc25519_from64bytes h) a) < ORDER) by (rewrite Vm; apply mod_order).
  destruct (add_sc_val _ r Lm Hr Bm Br) as [Ls Vs]. destruct (to32bytes_val _ Ls) as [Lb Vb].
  apply le_val_unique; [exact Lb|]. rewrite Vb, Vs, Vm, Vh, Zmult_mod_idemp_l, Zplus_mod_idemp_l. reflexivity.
Qed.

Lemma sign_val seed m : length seed = 32%nat -> regular (nonce_point seed m) ->
  crypto_sign_ed25519 m (seed ++ encode (public_point seed)) = signature_bytes seed m ++ m.
Proof.
  intros Hs HR. destruct (clamp_extsk_parts _ (sha512_length seed)) as (Lc & _ & Hp).
  destruct (clamped_scalar _ (sha512_length seed)) as [La Va].
  unfold crypto_sign_ed25519. rewrite !hash_val, (take_app_length' seed _ 32), (drop_app_length' seed _ 32) by done.
  assert (Lp : length (skipn 32 (sha512 seed)) = 32%nat) by (rewrite length_skipn, sha512_length; done).
  rewrite Hp, (firstn_all2 (skipn 32 (sha512 seed))) by lia. fold (prefix seed) in *.
  destruct (from64bytes_val _ (sha512_length (prefix seed ++ m))) as [Ln Vn]. fold (nonce seed m) in Vn.
  rewrite (base_multiple_packs _ _ Ln Vn HR). fold (nonce_point seed m).
  rewrite get_hram_val; [|apply length_encode|exact Lp|apply length_encode].
  rewrite (response_val _ _ _ (sha512_length _) La Ln) by (rewrite Vn; apply mod_order).
  rewrite (take_app_length' (encode (nonce_point seed m)) _ 32) by (rewrite length_encode; reflexivity).
  rewrite (app_assoc (encode _) (encode _) m), (drop_app_length' (_ ++ _) m 64) by (rewrite length_app, !length_encode; done).
  rewrite Va, Vn. fold (secret_scalar seed) (challenge (encode (nonce_point seed m)) (encode (public_point seed)) m).
  unfold signature_bytes, response. rewrite <- app_assoc, Zplus_mod_idemp_r, Zplus_mod, Zmult_mod_idemp_r, <- Zplus_mod. reflexivity.
Qed.
End keys.

(** ** Opening *)

(** The point that is compared with the first half of a signature: what its second half
    gives, less the challenge times the key. *)
Definition equation_point (A : ed) (h s : Z) : ed := (smul (h mod ORDER) (- A) + smul s base)%G.

Lemma open_t2_val get1 A hram sm : rep3 get1 (- A)%G -> length hram = 64%nat -> (64 <= length sm)%nat ->
  regular (equation_point A (le_val hram) (le_val (firstn 32 (skipn 32 sm)))) ->
  open_t2 get1 hram sm = encode (equation_point A (le_val hram) (le_val (firstn 32 (skipn 32 sm)))).
Proof.
  intros HA Hh Hsm [HX HY]. destruct (from64bytes_val hram Hh) as [Lh Vh].
  assert (Ls32 : length (firstn 32 (skipn 32 sm)) = 32%nat) by (rewrite length_firstn, length_skipn; lia).
  destruct (from32bytes_val _ Ls32) as [Ls Vs]. unfold open_t2. cbv zeta.
  assert (Bh : val (sc25519_from64bytes hram) < ORDER) by (rewrite Vh; apply mod_order).
  assert (Bs : val (sc25519_from32bytes (firstn 32 (skipn 32 sm))) < ORDER) by (rewrite Vs; apply mod_order).
  pose proof (double_scalarmult_rep _ _ _ _ _ _ HA base_rep Lh Ls Bh Bs) as Hr. rewrite Vh, Vs, smul_base_mod in Hr.
  exact (pack_rep _ _ Hr HX HY).
Qed.

Section opening.
Context {L : Libraries} {W : LibraryLaws}.

(** The equation of a signature [sm] with its message, for the key of a point. *)
Definition checked_point (A : ed) (sm : bytes) : ed :=
  equation_point A (challenge (firstn 32 sm) (encode A) (skipn 64 sm)) (le_val (firstn 32 (skipn 32 sm))).
Definition verifies (A : ed) (sm : bytes) : Prop := firstn 32 sm = encode (checked_point A sm).
#[global] Instance verifies_dec A sm : Decision (verifies A sm).
Proof. unfold verifies. apply _. Defined.

Lemma open_val A m sm : ordinary A -> 64 <= zlen sm -> regular (checked_point A sm) ->
  let '(ret, mlen, m') := crypto_sign_ed25519_open m sm (encode A) in
  if bool_decide (verifies A sm) then ret = 0 /\ mlen = zlen sm - 64 /\ take (Z.to_nat mlen) m' = skipn 64 sm
  else ret = -1 /\ mlen = 2 ^ 64 - 1 /\ take (Z.to_nat (zlen sm - 64)) m' = zeros (zlen sm - 64).
Proof.
  intros HA Hsm HR. destruct (unpackneg_rep A HA) as (get1 & E & H1). unfold crypto_sign_ed25519_open.
  destruct (Z.ltb_spec (zlen sm) 64) as [Hlt|_]; [lia|]. rewrite E. clear E. unfold zlen in Hsm.
  assert (Eh : get_hram (uninitialised 0) sm (encode A) =
    (sha512 (firstn 32 sm ++ encode A ++ skipn 64 sm), firstn 32 sm ++ encode A ++ skipn 64 sm)).
  { unfold get_hram. by rewrite hash_val, (firstn_all2 (encode A)) by (rewrite length_encode; lia). }
  rewrite Eh. cbv zeta. clear Eh.
  rewrite (open_t2_val get1 A _ sm H1 (sha512_length _)) by (try exact HR; lia).
  fold (challenge (firstn 32 sm) (encode A) (skipn 64 sm)). fold (checked_point A sm).
  rewrite crypto_verify_32_val by (rewrite ?length_encode; lia). rewrite (firstn_all2 (encode (checked_point A sm))) by (rewrite length_encode; lia).
  pose proof (zlen_zeros (zlen sm - 64)) as Lz. unfold zlen in Lz at 1.
  destruct (decide (verifies A sm)) as [H|H]; [rewrite (bool_decide_true (verifies A sm)) by exact H|rewrite (bool_decide_false (verifies A sm)) by exact H];
    unfold verifies in H; [rewrite bool_decide_true by exact H|rewrite bool_decide_false by exact H]; cbn [Z.eqb].
  - split_and!; [done..|]. apply take_app_length'. rewrite length_skipn. unfold zlen. lia.
  - split_and!; [done..|]. apply take_app_length'. unfold zlen in *. lia.
Qed.

(** Whatever is opened is as long as the message says. *)
Lemma open_mlen m sm pk : let '(ret, mlen, _) := crypto_sign_ed25519_open m sm pk in ret = 0 -> mlen = zlen sm - 64.
Proof.
  unfold crypto_sign_ed25519_open. destruct (_ <? _); [done|]. destruct (ge25519_unpackneg_vartime pk); [|done].
  destruct (get_hram _ _ _) as [hram m']. cbv zeta. destruct (Z.eqb_spec (crypto_verify_32 sm (open_t2 g hram sm)) 0); done.
Qed.

(** What was signed verifies. *)
Lemma signed_point seed m : length seed = 32%nat -> checked_point (public_point seed) (signature_bytes seed m ++ m) = nonce_point seed m.
Proof.
  intros Hs. unfold checked_point, signature_bytes. rewrite <- !app_assoc.
  rewrite (take_app_length' (encode _) _ 32) by (rewrite length_encode; reflexivity).
  rewrite (drop_app_length' (encode _) _ 32) by (rewrite length_encode; reflexivity).
  rewrite (take_app_length' (bytes_le _ _) _ 32) by (rewrite length_bytes_le; reflexivity).
  rewrite (app_assoc (encode _)), (drop_app_length' (_ ++ _) m 64) by (rewrite length_app, length_encode, length_bytes_le; reflexivity).
  rewrite le_val_bytes_le. change (256 ^ Z.of_nat 32) with (2 ^ 256). pose proof (mod_order (challenge (encode (nonce_point seed m)) (encode (public_point seed)) m * secret_scalar seed + nonce seed m)) as Hr.
  unfold response. rewrite (Z.mod_small (_ mod ORDER) (2 ^ 256)) by (unfold ORDER in *; lia).
  unfold equation_point. rewrite smul_base_mod. generalize (challenge (encode (nonce_point seed m)) (encode (public_point seed)) m).
  intros h. unfold public_point, nonce_point. rewrite <- smul_opp, <- smul_mul, <- smul_add, <- (smul_base_mod (_ + _)), <- (smul_base_mod (nonce seed m)).
  f_equal. rewrite (Z_div_mod_eq_full h ORDER) at 2.
  replace (h mod ORDER * - secret_scalar seed + ((ORDER * (h / ORDER) + h mod ORDER) * secret_scalar seed + nonce seed m))
    with (nonce seed m + h / ORDER * secret_scalar seed * ORDER) by ring.
  apply Z_mod_plus_full.
Qed.
End opening.
