(* ===== verification/Ed25519Wire.v ===== *)
(** ssh-ed25519.c: signatures in their wire form are accepted exactly when the equation holds. *)

From S2P Require Import Prelude SshErr Wire SshQueue KeyTypes PacketRead Kex.
From S2P Require Import Poly1305 Curve25519 Curve25519Limbs Curve25519Thms Fe25519 Fe25519Thms Sc25519 Sc25519Thms Abelian EdGroup.
From S2P Require Import Ge25519 Ge25519Thms Ge25519Bytes EdOrder Ed25519 Ed25519Thms.

(** ** Strings *)

Lemma rd_inv n c v rest : rd n c = Ok (v, rest) -> c = v ++ rest /\ n <= zlen c.
Proof. unfold rd. destruct (Z.ltb_spec (zlen c) n); [done|]. intros [= <- <-]. by rewrite take_drop. Qed.

Lemma rd_string_inv c v rest : rd_string c = Ok (v, rest) -> c = wr_string v ++ rest /\ zlen v <= SSHBUF_SIZE_MAX - 4.
Proof.
  unfold rd_string, rd_u32, rd_map. destruct (rd 4 c) as [[p c']|] eqn:E; [|done].
  destruct (Z.gtb_spec (PEEK_U32 p) (SSHBUF_SIZE_MAX - 4)) as [|Hm]; [done|]. intros Hv.
  assert (Hp : exists b0 b1 b2 b3, p = [b0; b1; b2; b3]).
  { unfold rd in E. destruct (Z.ltb_spec (zlen c) 4) as [|Hc]; [done|]. injection E as <- _. unfold zlen in Hc.
    destruct c as [|b0 [|b1 [|b2 [|b3 c]]]]; cbn [length] in Hc; try lia. by exists b0, b1, b2, b3. }
  destruct Hp as (b0 & b1 & b2 & b3 & ->). apply rd_inv in E as [-> _]. pose proof (PEEK_U32_range b0 b1 b2 b3) as Hr.
  assert (Hz : zlen v = PEEK_U32 [b0; b1; b2; b3]).
  { unfold rd in Hv. destruct (Z.ltb_spec (zlen c') (PEEK_U32 [b0; b1; b2; b3])) as [|Hc]; [done|]. injection Hv as <- _.
    unfold zlen in *. rewrite length_take. lia. }
  apply rd_inv in Hv as [-> _]. split; [|lia]. unfold wr_string. by rewrite Hz, POKE_PEEK_U32, <- app_assoc.
Qed.

Lemma memchr0_some v : forall z, memchr0 v = Some z -> exists w r, v = w ++ x00 :: r /\ zlen w = z.
Proof.
  induction v as [|c v IH]; intros z H; cbn in H; [done|]. destruct (Z.eqb_spec (byte_val c) 0) as [E|_].
  - injection H as <-. exists [], v. split; [|done]. cbn [app]. f_equal. by apply byte_val_inj.
  - destruct (memchr0 v) as [n|]; [|done]. injection H as <-. destruct (IH n eq_refl) as (w & r & -> & <-).
    exists (c :: w), r. split; [done|]. rewrite zlen_cons. lia.
Qed.

(** Names that the type in a signature may have: its own, or that with a NUL at the end. *)
Definition names_ed25519 (kt : bytes) : Prop := kt = name_ed25519 \/ kt = name_ed25519 ++ [x00].

Lemma rd_cstring_name c kt rest : rd_cstring c = Ok (kt, rest) -> name_ed25519 = c_str kt -> c = wr_string kt ++ rest /\ names_ed25519 kt.
Proof.
  unfold rd_cstring, c_str. destruct (rd_string c) as [[v r]|] eqn:E; [|done]. apply rd_string_inv in E as [-> _].
  destruct (memchr0 v) as [z|] eqn:Ez.
  - destruct (Z.ltb_spec z (zlen v - 1)) as [|Hz]; [done|]. intros [= -> ->]. rewrite Ez. intros Hn. split; [done|]. right.
    destruct (memchr0_some _ _ Ez) as (w & t & -> & <-). rewrite zlen_app, zlen_cons in Hz. pose proof (zlen_nonneg t).
    assert (t = []) as -> by (apply zlen_0_nil; lia). unfold zlen in Hn. rewrite Nat2Z.id, take_app_length in Hn. by rewrite Hn.
  - intros [= -> ->]. rewrite Ez. intros <-. split; [done|by left].
Qed.

Lemma rd_cstring_wr kt rest : names_ed25519 kt -> rd_cstring (wr_string kt ++ rest) = Ok (kt, rest) /\ name_ed25519 = c_str kt.
Proof. intros [->| ->]; unfold rd_cstring; rewrite rd_string_app by done; by split. Qed.

(** ** Acceptance *)

Section wire.
Context {L : Libraries} {W : LibraryLaws}.

Lemma open_blob A m blob data : ordinary A -> zlen blob <= 64 -> (zlen blob = 64 -> regular (checked_point A (blob ++ data))) ->
  let '(ret, mlen, _) := crypto_sign_ed25519_open m (blob ++ data) (encode A) in
  negb (ret =? 0) || negb (mlen =? zlen data) = false <-> zlen blob = 64 /\ verifies A (blob ++ data).
Proof.
  intros HA Hb HR. pose proof (zlen_nonneg data) as Hd. assert (Ez := zlen_app blob data). destruct (Z.eq_dec (zlen blob) 64) as [E|Hn].
  - pose proof (open_val A m (blob ++ data) HA ltac:(lia) (HR E)) as H.
    destruct (crypto_sign_ed25519_open m (blob ++ data) (encode A)) as [[ret mlen] m']. destruct (decide (verifies A (blob ++ data))) as [V|V].
    + rewrite bool_decide_true in H by exact V. destruct H as (-> & -> & _). cbn [Z.eqb negb orb].
      rewrite Ez, E. replace (64 + zlen data - 64) with (zlen data) by lia. rewrite Z.eqb_refl. done.
    + rewrite bool_decide_false in H by exact V. destruct H as (-> & _). cbn [Z.eqb negb orb]. by split; [|intros [_ ?]].
  - pose proof (open_mlen m (blob ++ data) (encode A)) as H.
    destruct (crypto_sign_ed25519_open m (blob ++ data) (encode A)) as [[ret mlen] m'].
    destruct (Z.eqb_spec ret 0) as [->|]; cbn [negb orb]; [|by split; [|intros [? _]]]. rewrite (H eq_refl), Ez.
    destruct (Z.eqb_spec (zlen blob + zlen data - 64) (zlen data)); cbn [negb]; [lia|]. by split; [|intros [? _]].
Qed.

(** What [ssh_ed25519_verify] accepts for the key of [A]. *)
Definition accepted (A : ed) (signature data : bytes) : Prop :=
  exists kt blob, signature = wr_string kt ++ wr_string blob /\ names_ed25519 kt /\ zlen blob = 64 /\ verifies A (blob ++ data).
Definition ed_public (t : Z) (sk : option bytes) (A : ed) : option ed_key :=
  Some {| ed_type := t; ed25519_pk := Some (encode A); ed25519_sk := sk |}.

Lemma some_memory k n : bool_decide (malloc k n = None) = false.
Proof. apply bool_decide_eq_false, malloc_some. Qed.
Lemma some_memory_is k n : exists m, malloc k n = Some m.
Proof. pose proof (malloc_some k n). destruct (malloc k n) as [m|]; [by exists m|done]. Qed.

(** The checks before the signature is opened. *)
Definition read_blob (signature : bytes) : res bytes :=
  match rd_cstring signature with
  | Err e => Err e
  | Ok (ktype, b) =>
    match rd_string b with
    | Err e => Err e
    | Ok (sigblob, b) =>
      if negb (bool_decide (name_ed25519 = c_str ktype)) then Err SSH_ERR_KEY_TYPE_MISMATCH
      else if negb (zlen b =? 0) then Err SSH_ERR_UNEXPECTED_TRAILING_DATA
      else if zlen sigblob >? crypto_sign_ed25519_BYTES then Err SSH_ERR_INVALID_FORMAT
      else Ok sigblob
    end
  end.

Lemma read_blob_ok signature blob : read_blob signature = Ok blob <->
  zlen blob <= 64 /\ exists kt, signature = wr_string kt ++ wr_string blob /\ names_ed25519 kt.
Proof.
  unfold read_blob, crypto_sign_ed25519_BYTES. split.
  - destruct (rd_cstring signature) as [[kt b]|] eqn:E; [|done]. destruct (rd_string b) as [[v r]|] eqn:Er; [|done].
    destruct (decide (name_ed25519 = c_str kt)) as [Hn|Hn]; [rewrite bool_decide_true by exact Hn|rewrite bool_decide_false by exact Hn; done].
    cbn [negb]. destruct (Z.eqb_spec (zlen r) 0) as [Hr%zlen_0_nil|]; cbn [negb]; [|done]. subst r.
    destruct (Z.gtb_spec (zlen v) 64); [done|]. intros [= ->]. split; [lia|].
    destruct (rd_cstring_name _ _ _ E Hn) as [-> Hk]. apply rd_string_inv in Er as [-> _]. exists kt. by rewrite app_nil_r.
  - intros [Hb (kt & -> & Hk)]. destruct (rd_cstring_wr kt (wr_string blob) Hk) as [-> Hn].
    rewrite <- (app_nil_r (wr_string blob)), rd_string_app by (unfold SSHBUF_SIZE_MAX; lia).
    rewrite bool_decide_true by exact Hn. cbn [negb]. change (zlen (@nil byte) =? 0) with true. cbn [negb].
    destruct (Z.gtb_spec (zlen blob) 64); [lia|done].
Qed.

Lemma verify_reads t sk A signature data : sshkey_type_plain t = KEY_ED25519 -> zlen data < INT_MAX - 64 -> 0 < zlen signature <= SSHBUF_SIZE_MAX ->
  exists m, ssh_ed25519_verify (ed_public t sk A) (Some signature) data =
  match read_blob signature with
  | Err e => Err e
  | Ok blob =>
    let '(ret, mlen, _) := crypto_sign_ed25519_open m (blob ++ data) (encode A) in
    if negb (ret =? 0) || negb (mlen =? zlen data) then Err SSH_ERR_SIGNATURE_INVALID else Ok tt
  end.
Proof.
  intros Ht Hd Hs. unfold ssh_ed25519_verify, ed_public. cbn [ed25519_pk ed_type]. rewrite Ht.
  change (KEY_ED25519 =? KEY_ED25519) with true. unfold crypto_sign_ed25519_BYTES. rewrite Z.geb_leb, Z.gtb_ltb.
  destruct (Z.leb_spec (INT_MAX - 64) (zlen data)); [lia|]. destruct (Z.eqb_spec (zlen signature) 0); [lia|].
  destruct (Z.ltb_spec SSHBUF_SIZE_MAX (zlen signature)); [lia|]. rewrite some_memory. cbn [negb orb]. unfold read_blob.
  destruct (rd_cstring signature) as [[kt b]|] eqn:E; [|by exists []]. rewrite some_memory. destruct (rd_string b) as [[v r]|] eqn:Er; [|by exists []].
  destruct (some_memory_is 3 (zlen v + zlen data)) as [m Hm]. destruct (some_memory_is 2 (zlen v + zlen data)) as [m2 Hm2]. exists m. rewrite Hm, Hm2.
  destruct (negb (bool_decide _)); [done|]. destruct (negb (zlen r =? 0)); [done|]. unfold crypto_sign_ed25519_BYTES.
  destruct (Z.gtb_spec (zlen v) 64); [done|]. rewrite Z.geb_leb.
  destruct (Z.leb_spec (SIZE_MAX - zlen v) (zlen data)); [unfold INT_MAX, SIZE_MAX in *; lia|]. done.
Qed.

Lemma verify_iff t sk A signature data : sshkey_type_plain t = KEY_ED25519 -> zlen data < INT_MAX - 64 -> 0 < zlen signature <= SSHBUF_SIZE_MAX ->
  ordinary A -> (forall kt blob, signature = wr_string kt ++ wr_string blob -> zlen blob = 64 -> regular (checked_point A (blob ++ data))) ->
  ssh_ed25519_verify (ed_public t sk A) (Some signature) data = Ok tt <-> accepted A signature data.
Proof.
  intros Ht Hd Hs HA HR. destruct (verify_reads t sk A signature data Ht Hd Hs) as [m ->]. split.
  - destruct (read_blob signature) as [blob|] eqn:E; [|done]. apply read_blob_ok in E as [Hb (kt & Es & Hk)].
    pose proof (open_blob A m blob data HA Hb (HR kt blob Es)) as H. destruct (crypto_sign_ed25519_open _ _ _) as [[ret mlen] m'].
    destruct (negb (ret =? 0) || negb (mlen =? zlen data)); [done|]. intros _. destruct (proj1 H eq_refl) as [Hz V]. by exists kt, blob.
  - intros (kt & blob & Es & Hk & Hz & V). assert (E : read_blob signature = Ok blob) by (apply read_blob_ok; split; [lia|by exists kt]).
    rewrite E. pose proof (open_blob A m blob data HA ltac:(lia) (HR kt blob Es)) as H. destruct (crypto_sign_ed25519_open _ _ _) as [[ret mlen] m'].
    by rewrite (proj2 H (conj Hz V)).
Qed.

Definition signature_wire (seed data : bytes) : bytes := wr_string name_ed25519 ++ wr_string (signature_bytes seed data).

Lemma ssh_sign_val t pk seed data : sshkey_type_plain t = KEY_ED25519 -> length seed = 32%nat -> zlen data < INT_MAX - 64 ->
  regular (nonce_point seed data) ->
  ssh_ed25519_sign (Some {| ed_type := t; ed25519_pk := pk; ed25519_sk := Some (seed ++ encode (public_point seed)) |}) data =
  Ok (signature_wire seed data).
Proof.
  intros Ht Hs Hd HR. unfold ssh_ed25519_sign. cbn [ed25519_sk ed_type]. rewrite Ht. change (KEY_ED25519 =? KEY_ED25519) with true.
  unfold crypto_sign_ed25519_BYTES. rewrite Z.geb_leb. destruct (Z.leb_spec (INT_MAX - 64) (zlen data)); [lia|]. cbn [negb orb].
  destruct (some_memory_is 0 (zlen data + 64)) as [m0 ->]. cbv zeta. destruct (Z.leb_spec (zlen data + 64) (zlen data)); [lia|].
  destruct (some_memory_is 1 256) as [m1 ->]. rewrite (sign_val seed data Hs HR).
  replace (Z.to_nat (zlen data + 64 - zlen data)) with 64%nat by lia.
  rewrite take_app_length'; [|pose proof (zlen_signature_bytes seed data) as Hz; unfold zlen in Hz; lia].
  fold (signature_wire seed data). by destruct (some_memory_is 2 (zlen (signature_wire seed data))) as [m2 ->].
Qed.

Lemma wr_strings_inj v1 w1 v2 w2 : zlen v1 <= SSHBUF_SIZE_MAX - 4 -> zlen v2 <= SSHBUF_SIZE_MAX - 4 -> zlen w1 = zlen w2 ->
  wr_string v1 ++ wr_string w1 = wr_string v2 ++ wr_string w2 -> v1 = v2 /\ w1 = w2.
Proof.
  intros H1 H2 Hz E. pose proof (rd_string_app v1 (wr_string w1) H1) as R. rewrite E, rd_string_app in R by exact H2.
  assert (v1 = v2) as -> by congruence. split; [done|]. apply app_inv_head in E. unfold wr_string in E. rewrite Hz in E. by apply app_inv_head in E.
Qed.

Lemma signature_wire_blob seed data kt blob : signature_wire seed data = wr_string kt ++ wr_string blob -> zlen blob = 64 -> blob = signature_bytes seed data.
Proof.
  intros E Hz. pose proof (rd_string_app name_ed25519 (wr_string (signature_bytes seed data)) ltac:(done)) as R.
  fold (signature_wire seed data) in R. rewrite E in R. pose proof (f_equal zlen E) as El. unfold signature_wire, wr_string in El.
  rewrite !zlen_app, !zlen_POKE_U32, zlen_signature_bytes, Hz in El. change (zlen name_ed25519) with 11 in El.
  unfold signature_wire in E. apply wr_strings_inj in E; [by symmetry; apply E|done|unfold SSHBUF_SIZE_MAX; lia|by rewrite zlen_signature_bytes].
Qed.
End wire.

(** ** A key whose numbers are small *)

(** A hash of one value: the secret scalar is 2 and the nonce 3 modulo the order. *)
Definition constant_hash : bytes := bytes_le 64
  516259438576141781008579463984057496813924319725736930771216273694781577909218921511359077276040153848968746651295373032294745409699017124698286522038160.
#[local] Instance constant_libraries : Libraries :=
  {| EVP_sha512 _ := Some constant_hash; malloc _ n := Some (zeros n); uninitialised _ := [] |}.
#[local] Instance constant_laws : LibraryLaws.
Proof. refine {| sha512 _ := constant_hash |}; done. Defined.

Definition small_seed : bytes := zeros 32.
Lemma small_public : ordinary (public_point small_seed).
Proof.
  apply (ordinary_num_spec _ (entry 2)); [|vm_compute; reflexivity]. unfold public_point. rewrite <- smul_base_mod.
  replace (secret_scalar small_seed mod ORDER) with (Z.of_nat 2) by (vm_compute; reflexivity). apply small_multiple. lia.
Qed.
Lemma small_nonce m : regular (nonce_point small_seed m).
Proof.
  apply ordinary_regular, (ordinary_num_spec _ (entry 3)); [|vm_compute; reflexivity]. unfold nonce_point. rewrite <- smul_base_mod.
  replace (nonce small_seed m mod ORDER) with (Z.of_nat 3) by (unfold nonce; cbn [sha512]; vm_compute; reflexivity). apply small_multiple. lia.
Qed.

(** ** Properties *)

(** Claim C18.  What an Ed25519 key signs, its public half accepts.  [crypto_sign_ed25519_keypair] makes
    the key of a seed, [ssh_ed25519_sign] the signature of RFC 8032 in the wire form of RFC 8709
    (the bytes of the nonce's point and of [(challenge * secret + nonce) mod order]), and
    [ssh_ed25519_verify] accepts it for the same data.  Assumed: SHA-512 works, there is memory,
    no coordinate of the two points is within 2^18 of zero modulo 2^255 - 19. *)
Theorem ed25519_signature_verifies {L : Libraries} {W : LibraryLaws} seed data (Hs : length seed = 32%nat)
  (Hd : zlen data < INT_MAX - 64) (HA : ordinary (public_point seed)) (HR : regular (nonce_point seed data)) :
  let '(pk, sk) := crypto_sign_ed25519_keypair seed in
  let key := Some {| ed_type := KEY_ED25519; ed25519_pk := Some pk; ed25519_sk := Some sk |} in
  ssh_ed25519_sign key data = Ok (signature_wire seed data) /\
  ssh_ed25519_verify key (Some (signature_wire seed data)) data = Ok tt.
Proof.
  rewrite (keypair_val seed Hs (ordinary_regular _ HA)). cbv zeta. split; [by apply ssh_sign_val|].
  apply (verify_iff KEY_ED25519 (Some (seed ++ encode (public_point seed))) (public_point seed)); [done|done| |exact HA| |].
  - unfold signature_wire, wr_string. rewrite !zlen_app, !zlen_POKE_U32, zlen_signature_bytes. by vm_compute.
  - intros kt blob E Hz. rewrite (signature_wire_blob _ _ _ _ E Hz), signed_point by exact Hs. exact HR.
  - exists name_ed25519, (signature_bytes seed data). split_and!; [done|by left|apply zlen_signature_bytes|].
    unfold verifies. rewrite signed_point by exact Hs. unfold signature_bytes. rewrite <- app_assoc.
    apply take_app_length'. by rewrite length_encode.
Qed.

Lemma ed25519_signature_verifies_witness :
  let '(pk, sk) := crypto_sign_ed25519_keypair small_seed in
  let key := Some {| ed_type := KEY_ED25519; ed25519_pk := Some pk; ed25519_sk := Some sk |} in
  ssh_ed25519_sign key (lit "data") = Ok (signature_wire small_seed (lit "data")) /\
  ssh_ed25519_verify key (Some (signature_wire small_seed (lit "data"))) (lit "data") = Ok tt.
Proof. exact (ed25519_signature_verifies small_seed (lit "data") eq_refl eq_refl small_public (small_nonce _)). Defined.



(** The result of the hash is not looked at: if SHA-512 fails, every seed has the same public key,
    that of what the array held. *)
Lemma failed_hash_unnoticed {L : Libraries} seed1 seed2 : (forall m, EVP_sha512 m = None) ->
  fst (crypto_sign_ed25519_keypair seed1) = fst (crypto_sign_ed25519_keypair seed2).
Proof. intros H. unfold crypto_sign_ed25519_keypair, crypto_hash_sha512. by rewrite !H. Qed.
