(* ===== verification/PacketState.v ===== *)
(** The session of packet.c turned into bytes and back: [ssh_packet_get_state] in the process
    that did the key exchange, [ssh_packet_set_state] in the one that goes on with the
    connection.

    A buffer that is written or read here is not shared, so it is its bytes.  What is left
    in it after a failure is not kept: both callers end the process then. *)

From S2P Require Import Prelude SshErr Wire SshQueue Compat Match KeyTypes.
From S2P Require Import ChaCha ChachaPoly Digest SshCipher Packet PacketSend PacketRead Kex.

(** ** The iv of a context (cipher.c) *)

(** Of libcrypto: the control [EVP_CTRL_GCM_IV_GEN] with the iv it writes, and the iv a
    context has come to. *)
Class CipherIv {C : Crypto} := {
  EVP_CIPHER_CTX_iv_length : evp -> Z;
  EVP_CTRL_GCM_IV_GEN_iv : evp -> Z -> option (bytes * evp);
  EVP_CIPHER_CTX_get_iv : evp -> Z -> option bytes;
  EVP_CIPHER_CTX_set_iv : evp -> bytes -> option evp
}.

Section code.
Context {C : Crypto} {I : CipherIv} {E : Env}.

(** The iv of a libcrypto context; asking an authenticating one moves it on. *)
Definition read_iv (c : sshcipher) (e : evp) (len : Z) : option (bytes * evp) :=
  if negb (cipher_authlen c =? 0) then EVP_CTRL_GCM_IV_GEN_iv e len
  else option_map (fun iv => (iv, e)) (EVP_CIPHER_CTX_get_iv e len).

(** What is written to [iv], if anything.  No cipher of the table has the flag
    [CFLAG_AESCTR] in a build with libcrypto. *)
Definition cipher_get_keyiv (cc : sshcipher_ctx) (len : Z) : res (option bytes) * sshcipher_ctx :=
  let c := cc_cipher cc in
  if has (c_flags c) CFLAG_CHACHAPOLY then
    (if negb (len =? 0) then Err SSH_ERR_INVALID_ARGUMENT else Ok None, cc)
  else if has (c_flags c) CFLAG_NONE then (Ok None, cc)
  else
  match cc_evp cc with
  | None => (Err SSH_ERR_INTERNAL_ERROR, cc)   (* not reached *)
  | Some e =>
    let evplen := EVP_CIPHER_CTX_iv_length e in
    if evplen =? 0 then (Ok None, cc)
    else if evplen <? 0 then (Err SSH_ERR_LIBCRYPTO_ERROR, cc)
    else if negb (evplen =? len) then (Err SSH_ERR_INVALID_ARGUMENT, cc)
    else
    match read_iv c e len with
    | None => (Err SSH_ERR_LIBCRYPTO_ERROR, cc)
    | Some (iv, e) => (Ok (Some iv), set_evp e cc)
    end
  end.

Definition cipher_set_keyiv (cc : sshcipher_ctx) (iv : bytes) (len : Z) : res sshcipher_ctx :=
  let c := cc_cipher cc in
  if has (c_flags c) CFLAG_CHACHAPOLY then Ok cc
  else if has (c_flags c) CFLAG_NONE then Ok cc
  else
  match cc_evp cc with
  | None => Err SSH_ERR_INTERNAL_ERROR          (* not reached *)
  | Some e =>
    let evplen := EVP_CIPHER_CTX_iv_length e in
    if evplen <=? 0 then Err SSH_ERR_LIBCRYPTO_ERROR
    else if negb (evplen =? len) then Err SSH_ERR_INVALID_ARGUMENT
    else
    match (if negb (cipher_authlen c =? 0) then EVP_CTRL_GCM_SET_IV_FIXED e (Some iv)
           else EVP_CIPHER_CTX_set_iv e (slice 0 evplen iv)) with
    | None => Err SSH_ERR_LIBCRYPTO_ERROR
    | Some e => Ok (set_evp e cc)
    end
  end.

(** ** Writing *)

(** One [sshbuf_put_*]. *)
Inductive field := U32 (v : Z) | U64 (v : Z) | Str (v : bytes).

Definition put_field (m : bytes) (f : field) : M bytes :=
  match f with
  | U32 v => buf_put m (POKE_U32 v)
  | U64 v => buf_put m (POKE_U64 v)
  | Str v => if zlen v >? SSHBUF_SIZE_MAX - 4 then mfail SSH_ERR_NO_BUFFER_SPACE
             else buf_put m (wr_string v)
  end.

(** A chain of them, up to the first that fails. *)
Fixpoint put_fields (m : bytes) (l : list field) : M bytes :=
  match l with
  | [] => mret m
  | f :: l => let! m := put_field m f in put_fields m l
  end.

(** [sshbuf_put_cstring] of a null pointer puts an empty string. *)
Definition kex_to_blob (m : bytes) (k : kex_state) : M bytes :=
  put_fields m [U32 (we_need k); Str (default [] (hostkey_alg k)); U32 (hostkey_type k);
    U32 (hostkey_nid k); U32 (kex_type k); Str (kex_my k); Str (kex_peer k);
    Str (client_version k); Str (server_version k); Str (session_id k); U32 (kex_flags k)].

(** The [len] bytes behind a pointer, which may be null when there are none. *)
Definition behind (p : option bytes) (len : Z) : M bytes :=
  match p with
  | Some v => mret (slice 0 len v)
  | None => if len =? 0 then mret [] else mcrash
  end.

Definition with_iv (iv : option bytes) (e : sshenc) : sshenc :=
  mk_enc (enc_name e) (enc_cipher e) (enc_enabled e) (enc_key_len e) (enc_iv_len e)
    (enc_block_size e) (enc_key e) iv.

(** The iv the context has come to replaces the one it began with. *)
Definition update_iv (m : kex_mode) (nk : newkeys) : M (option bytes) :=
  let! cc := deref (get_ctx m) in
  let '(r, cc) := cipher_get_keyiv cc (enc_iv_len (nk_enc nk)) in
  modify (set_ctx m (Some cc)) ;;
  let! iv := lift r in
  match iv, enc_iv (nk_enc nk) with
  | None, old => mret old
  | Some _, None => mcrash
  | Some iv, Some old =>
    let iv := Some (iv ++ drop (length iv) old) in
    update_newkeys m (with_enc (with_iv iv (nk_enc nk))) ;; mret iv
  end.

Definition newkeys_to_blob (m : bytes) (mode : kex_mode) : M bytes :=
  let! nk := gets (get_newkeys mode) in
  match nk with
  | None => mfail SSH_ERR_INTERNAL_ERROR
  | Some nk =>
    let enc := nk_enc nk in
    let mac := nk_mac nk in
    let comp := nk_comp nk in
    let! iv := update_iv mode nk in
    let! ok := env request_memory in
    if negb ok then mfail SSH_ERR_ALLOC_FAIL
    else
    let! b := put_fields [] [Str (enc_name enc); U32 (enc_enabled enc); U32 (enc_block_size enc);
                             Str (slice 0 (enc_key_len enc) (enc_key enc))] in
    let! iv := behind iv (enc_iv_len enc) in
    let! b := put_field b (Str iv) in
    let! b := (if cipher_authlen (enc_cipher enc) =? 0 then
                 let! b := put_fields b [Str (nk_mac_name nk); U32 (Z.b2z (mac_enabled mac))] in
                 let! key := behind (mac_key mac) (mac_key_len mac) in
                 put_field b (Str key)
               else mret b) in
    let! b := put_fields b [U32 (comp_type comp); Str (comp_name comp)] in
    put_field m (Str b)
  end.

Definition ssh_packet_get_state (m : bytes) : M bytes :=
  let! k := deref kex in
  let! m := kex_to_blob m k in
  let! m := newkeys_to_blob m MODE_OUT in
  let! m := newkeys_to_blob m MODE_IN in
  let! s := gets id in
  let p := p_send s in
  let q := p_read s in
  put_fields m [U64 (rekey_limit s); U32 (rekey_interval s);
    U32 (seqnr p); U64 (blocks p); U32 (packets p); U64 (nbytes p);
    U32 (seqnr q); U64 (blocks q); U32 (packets q); U64 (nbytes q);
    Str (input s); Str (output s)].

(** ** Reading *)

(** A value and what is left of the buffer. *)
Notation "'let!' ( x , q ) := m 'in' k" := (mbind m (fun r => let '(x, q) := r in k))
  (at level 10, x name, q name, m at level 100, k at level 200) : session_scope.

(** A 32-bit word stored to an [int]. *)
Definition to_int (v : Z) : Z := if v >=? 2 ^ 31 then v - 2 ^ 32 else v.

Definition get_u32 (q : bytes) : M (Z * bytes) := lift (rd_u32 q).
Definition get_int (q : bytes) : M (Z * bytes) := let! (v, q) := get_u32 q in mret (to_int v, q).
Definition get_u64 (q : bytes) : M (Z * bytes) := lift (rd_u64 q).

(** The copy may fail. *)
Definition get_string (q : bytes) : M (bytes * bytes) :=
  let! r := lift (rd_string q) in
  let! ok := env request_memory in
  if ok : bool then mret r else mfail SSH_ERR_ALLOC_FAIL.

(** The string a pointer to the copy denotes. *)
Definition get_cstring (q : bytes) : M (bytes * bytes) :=
  let! (v, q) := lift (rd_cstring q) in
  let! ok := env request_memory in
  if ok : bool then mret (c_str v, q) else mfail SSH_ERR_ALLOC_FAIL.

(** Onto the buffer [v]. *)
Definition get_stringb (q v : bytes) : M (bytes * bytes) :=
  let! (x, q) := lift (rd_string q) in
  let! v := buf_put v x in mret (v, q).

(** The reads of [kex_from_blob], on a new exchange. *)
Definition read_kex (q : bytes) : M (kex_state * bytes) :=
  let k := kex_new in
  let! (need, q) := get_u32 q in
  let! (alg, q) := get_cstring q in
  let! (type, q) := get_int q in
  let! (nid, q) := get_int q in
  let! (method, q) := get_u32 q in
  let! (my, q) := get_stringb q (kex_my k) in
  let! (peer, q) := get_stringb q (kex_peer k) in
  let! (cver, q) := get_stringb q (client_version k) in
  let! (sver, q) := get_stringb q (server_version k) in
  let! (sid, q) := get_stringb q (session_id k) in
  let! (flags, q) := get_u32 q in
  mret (set_kex_done true (set_kex_server true (set_kex_flags flags (set_session_id sid
          (set_server_version sver (set_client_version cver (set_kex_peer peer (set_kex_my my
          (set_kex_type method (set_hostkey_nid nid (set_hostkey_type type
          (set_hostkey_alg (Some alg) (set_we_need need k)))))))))))), q).

(** After an error there is no exchange any more, but for the very first allocation. *)
Definition kex_from_blob (q : bytes) : M bytes :=
  let! ok := env request_memory in
  if negb ok then mfail SSH_ERR_ALLOC_FAIL
  else
  let! r := mtry (read_kex q) in
  match r with
  | Err e => modify (set_kex None) ;; mfail e
  | Ok (k, q) => modify (set_kex (Some k)) ;; mret q
  end.

Definition with_mac_key (enabled : bool) (key : bytes) (mac : sshmac) : sshmac :=
  mk_mac enabled (mac_len mac) (Some key) (zlen key) (mac_type mac) (mac_etm mac) (hmac_alg mac)
    (mac_ctx_key mac).

Definition read_mac (q : bytes) : M ((sshmac * bytes) * bytes) :=
  let! (name, q) := get_cstring q in
  let! ok := env request_memory in
  let! mac := lift (mac_setup ok blank_mac name) in
  let! (enabled, q) := get_u32 q in
  let! (key, q) := get_string q in
  if zlen key >? mac_key_len mac then mfail SSH_ERR_INVALID_FORMAT
  else mret (with_mac_key (negb (enabled =? 0)) key mac, name, q).

(** The keys of a direction. *)
Definition read_newkeys (b : bytes) : M newkeys :=
  let! (name, b) := get_cstring b in
  let! (enabled, b) := get_int b in
  let! (block_size, b) := get_u32 b in
  let! (key, b) := get_string b in
  let! (iv, b) := get_string b in
  match cipher_by_name name with
  | None => mfail SSH_ERR_INVALID_FORMAT
  | Some cipher =>
    let! (mac, b) := (if cipher_authlen cipher =? 0 then read_mac b else mret (blank_mac, [], b)) in
    let! (type, b) := get_u32 b in
    let! (cname, b) := get_cstring b in
    if negb (zlen b =? 0) then mfail SSH_ERR_INVALID_FORMAT
    else mret (mk_newkeys (mk_enc name cipher enabled (zlen key) (zlen iv) block_size key (Some iv))
                 (fst mac) (snd mac) (mk_comp type false cname))
  end.

Definition newkeys_from_blob (q : bytes) (mode : kex_mode) : M bytes :=
  let! ok := env request_memory in
  if negb ok then mfail SSH_ERR_ALLOC_FAIL
  else
  let! (b, q) := get_string q in          (* sshbuf_froms: no copy, but a new buffer *)
  let! nk := read_newkeys b in
  let! _k := deref kex in
  update_kex (set_kex_newkeys mode (Some nk)) ;; mret q.

(** [p_send] then [p_read], field by field. *)
Definition read_pstate (mode : kex_mode) (q : bytes) : M bytes :=
  let upd f := modify (fun s => set_pstate mode (f (get_pstate mode s)) s) in
  let! (v, q) := get_u32 q in
  upd (fun p => mk_pstate v (packets p) (blocks p) (nbytes p)) ;;
  let! (v, q) := get_u64 q in
  upd (fun p => mk_pstate (seqnr p) (packets p) v (nbytes p)) ;;
  let! (v, q) := get_u32 q in
  upd (fun p => mk_pstate (seqnr p) v (blocks p) (nbytes p)) ;;
  let! (v, q) := get_u64 q in
  upd (fun p => mk_pstate (seqnr p) (packets p) (blocks p) v) ;; mret q.

Definition ssh_packet_set_postauth : M unit :=
  modify (set_after_authentication true) ;;
  modify (set_rekeying false) ;;
  ssh_packet_enable_delayed_compress.

Definition ssh_packet_set_state (q : bytes) : M unit :=
  let! q := kex_from_blob q in
  let! q := newkeys_from_blob q MODE_OUT in
  let! q := newkeys_from_blob q MODE_IN in
  let! (v, q) := get_u64 q in
  modify (set_rekey_limit v) ;;
  let! (v, q) := get_u32 q in
  modify (set_rekey_interval v) ;;
  let! q := read_pstate MODE_OUT q in
  let! q := read_pstate MODE_IN q in
  let! now := env monotime in
  modify (set_rekey_time now) ;;
  ssh_set_newkeys MODE_IN ;;
  ssh_set_newkeys MODE_OUT ;;
  ssh_packet_set_postauth ;;
  modify (set_input []) ;;
  modify (set_output []) ;;
  let! (in_, q) := lift (rd_string q) in
  let! (out, q) := lift (rd_string q) in
  put_input in_ ;;
  put_output out ;;
  if negb (zlen q =? 0) then mfail SSH_ERR_INVALID_FORMAT else mret tt.
End code.
