(* ===== verification/CipherResume.v ===== *)
(** The contexts of a cipher across processes: what a context made of a key answers for its iv
    makes, with the key, a context that goes on in its place, for the same peer. *)

From S2P Require Import Prelude SshErr Wire SshQueue Compat Match KeyTypes.
From S2P Require Import Poly1305 ChaCha ChachaPoly Digest Hmac SshCipher CipherLink Packet PacketSend Plain PacketRead.
From S2P Require Import PacketFrame PacketBounds PacketPoll PacketLink Kex KexConf KexKeys PacketState.

(** ** Contexts and the key they were made of *)

(** The contexts of libcrypto that the code can have made of a key: one that was
    initialised, then enciphered or deciphered whole blocks, with the calls a packet takes. *)
Inductive evp_made {C : Crypto} (c : sshcipher) (key : bytes) (encrypt : bool) : evp -> Prop :=
| made_init e iv : evp_setup c key (c_key_len c) (Some iv) encrypt = Some e -> evp_made c key encrypt e
| made_stream e p q e' : evp_made c key encrypt e -> cipher_authlen c = 0 ->
    zlen p mod c_block_size c = 0 -> EVP_Cipher e p = Some (q, e') -> evp_made c key encrypt e'
| made_gcm e e1 e2 e3 e4 e5 aad p q tag : evp_made c key encrypt e -> cipher_authlen c <> 0 ->
    zlen p mod c_block_size c = 0 -> EVP_CTRL_GCM_IV_GEN e = Some e1 ->
    (if encrypt then e2 = e1 else EVP_CTRL_GCM_SET_TAG e1 tag = Some e2) ->
    EVP_Cipher_aad e2 aad = Some e3 -> EVP_Cipher e3 p = Some (q, e4) ->
    EVP_Cipher_final e4 = Some e5 -> evp_made c key encrypt e5.

(** A cipher that libcrypto does. *)
Definition of_libcrypto (c : sshcipher) : Prop :=
  c ∈ ciphers /\ has (c_flags c) CFLAG_CHACHAPOLY = false /\ has (c_flags c) CFLAG_NONE = false.

(** The end of a connection that works in direction [m], and its peer. *)
Definition joined {C : Crypto} {CL : CryptoLaws} (m : kex_mode) (cc peer : sshcipher_ctx) : Prop :=
  match m with MODE_OUT => ctx_linked cc peer | MODE_IN => ctx_linked peer cc end.
Definition evp_joined {C : Crypto} {CL : CryptoLaws} (c : sshcipher) (m : kex_mode) (e peer : evp) : Prop :=
  match m with MODE_OUT => evp_linked c e peer | MODE_IN => evp_linked c peer e end.

(** Documented of libcrypto: a context knows the length of its iv; the iv it answers at the
    end of a block, with the key it was made of, makes a context that goes on in its place.
    Only the bytes of the key that the cipher uses are read. *)
Class IvLaws {C : Crypto} {CL : CryptoLaws} {I : CipherIv} := {
  iv_length c key enc e : of_libcrypto c -> evp_made c key enc e ->
    EVP_CIPHER_CTX_iv_length e = cipher_ivlen c;
  iv_resumes c key m e peer : of_libcrypto c -> evp_made c key (encrypts m) e -> evp_joined c m e peer ->
    c_key_len c <= zlen key ->
    exists iv e' e2, read_iv c e (cipher_ivlen c) = Some (iv, e') /\ zlen iv = cipher_ivlen c /\
      evp_setup c (slice 0 (c_key_len c) key) (c_key_len c) (Some iv) (encrypts m) = Some e2 /\
      evp_joined c m e2 peer
}.

Section resume.
Context {C : Crypto} {CL : CryptoLaws} {I : CipherIv} {IL : IvLaws}.

(** The context was made of the key. *)
Definition ctx_made (c : sshcipher) (key : bytes) (enc : bool) (cc : sshcipher_ctx) : Prop :=
  cc_cipher cc = c /\ cc_encrypt cc = enc /\
  if has (c_flags c) CFLAG_CHACHAPOLY then
    exists a b, cc_cp cc = Some a /\ chachapoly_new key 64 = Some b /\ cp_equiv b a
  else if has (c_flags c) CFLAG_NONE then True
  else exists e, cc_evp cc = Some e /\ evp_made c key enc e.

(** The iv lengths of the table. *)
Definition ivlen_row (c : sshcipher) : bool :=
  if has (c_flags c) CFLAG_CHACHAPOLY then cipher_ivlen c =? 0
  else (8 <=? cipher_ivlen c) && (cipher_ivlen c <=? 16).

Lemma ivlen_facts c : c ∈ ciphers -> 0 <= cipher_ivlen c <= 16 /\ 0 <= c_key_len c <= 64 /\
  (if has (c_flags c) CFLAG_CHACHAPOLY then cipher_ivlen c = 0 else 8 <= cipher_ivlen c).
Proof.
  intros Hc. assert (F : forallb (fun c => ivlen_row c && (0 <=? c_key_len c) && (c_key_len c <=? 64)) ciphers = true)
    by reflexivity.
  rewrite forallb_forall in F. specialize (F c (proj1 (list_elem_of_In _ _) Hc)). unfold ivlen_row in F.
  destruct (has (c_flags c) CFLAG_CHACHAPOLY); lia.
Qed.

Lemma byte_at_slice k n i : 0 <= i < n -> byte_at (slice 0 n k) i = byte_at k i.
Proof.
  intros H. unfold byte_at, slice. change (drop (Z.to_nat 0) k) with k.
  destruct (decide (Z.to_nat i < length k)%nat).
  - rewrite <- (take_drop (Z.to_nat n) k) at 2. rewrite app_nth1; [done|]. rewrite length_take. lia.
  - rewrite !nth_overflow; [done|rewrite ?length_take; lia..].
Qed.

Lemma keysetup_slice x k n : 32 <= n -> chacha_keysetup x (slice 0 n k) 256 = chacha_keysetup x k 256.
Proof.
  intros Hn. assert (W : forall i, 0 <= i -> i + 4 <= n -> U8TO32_LITTLE (slice 0 n k) i = U8TO32_LITTLE k i).
  { intros i H0 Hi. unfold U8TO32_LITTLE, U8TO32_LE. by rewrite !byte_at_slice by lia. }
  assert (D : forall l i, 0 <= i -> U8TO32_LITTLE (drop 16 l) i = U8TO32_LITTLE l (16 + i)).
  { intros l i Hi. unfold U8TO32_LITTLE, U8TO32_LE, byte_at. rewrite !nth_skipn.
    repeat (f_equal; try lia). }
  unfold chacha_keysetup. change (256 =? 256) with true. cbv beta iota. rewrite !D by lia. by rewrite !W by lia.
Qed.

Lemma new_slice key : chachapoly_new (slice 0 64 key) 64 = chachapoly_new key 64.
Proof.
  unfold chachapoly_new. cbn [Z.add Z.eqb Pos.add Pos.eqb negb]. do 2 f_equal; [by apply keysetup_slice|].
  assert (E : drop 32 (slice 0 64 key) = slice 0 32 (drop 32 key)).
  { unfold slice. cbn [Z.to_nat drop]. change (Z.to_nat 64) with (32 + 32)%nat. by rewrite <- take_drop_commute. }
  rewrite E. by apply keysetup_slice.
Qed.

Definition moved_iv (r : option bytes) (old : bytes) : bytes :=
  match r with None => old | Some v => v ++ drop (length v) old end.

Lemma cipher_init_ok c key iv enc : c ∈ ciphers -> c_key_len c <= zlen key ->
  (of_libcrypto c -> is_Some (evp_setup c (slice 0 (c_key_len c) key) (c_key_len c) (Some iv) enc)) ->
  exists cc, cipher_init c (slice 0 (c_key_len c) key) (c_key_len c) (Some iv) (cipher_ivlen c) enc = Ok cc /\
    cc_cipher cc = c /\ cc_encrypt cc = enc /\
    (has (c_flags c) CFLAG_CHACHAPOLY = true -> cc_cp cc = chachapoly_new key 64) /\
    (of_libcrypto c -> cc_evp cc = evp_setup c (slice 0 (c_key_len c) key) (c_key_len c) (Some iv) enc).
Proof.
  intros Hc Hk Hs. destruct (has (c_flags c) CFLAG_CHACHAPOLY) eqn:Hf; [|destruct (has (c_flags c) CFLAG_NONE) eqn:Hn].
  - pose proof (chacha_key_len c Hc Hf) as Hkl. unfold cipher_init. rewrite Hf, !Z.ltb_irrefl, Hkl. cbn [orb].
    rewrite new_slice. eexists. split_and!; try done. intros (_ & H & _). by rewrite Hf in H.
  - unfold cipher_init. rewrite Hf, Hn, !Z.ltb_irrefl. cbn [orb].
    eexists. split_and!; try done. intros (_ & _ & H). by rewrite Hn in H.
  - destruct Hs as [e He]; [done|]. rewrite cipher_init_evp, He by (done || lia). eexists. by split_and!.
Qed.

(** [joined] without its direction. *)
Definition kind_joined (c : sshcipher) (m : kex_mode) (cc peer : sshcipher_ctx) : Prop :=
  if has (c_flags c) CFLAG_CHACHAPOLY then
    exists a b, cc_cp cc = Some a /\ cc_cp peer = Some b /\ cp_equiv a b
  else if has (c_flags c) CFLAG_NONE then True
  else exists e d, cc_evp cc = Some e /\ cc_evp peer = Some d /\ evp_joined c m e d.

Ltac swap_kinds K :=
  destruct (has _ CFLAG_CHACHAPOLY);
  [destruct K as (a & b & Ea & Eb & K); exists b, a; split_and!; [..|symmetry]|
   destruct (has _ CFLAG_NONE); [|destruct K as (a & b & Ea & Eb & K); exists b, a]].

Lemma joined_iff m c cc peer : cc_cipher cc = c -> joined m cc peer <->
  (cc_cipher peer = c /\ cc_encrypt cc = encrypts m /\ cc_encrypt peer = negb (encrypts m) /\ c ∈ ciphers) /\
  kind_joined c m cc peer.
Proof.
  intros <-. unfold joined, ctx_linked, same_kind, kind_joined. destruct m; cbn [encrypts negb evp_joined].
  - split.
    + intros (E1 & E2 & E3 & E4 & K). rewrite E1 in *. split_and!; try done. by swap_kinds K.
    + intros ((E1 & E2 & E3 & E4) & K). rewrite E1. split_and!; try done. by swap_kinds K.
  - split.
    + intros (E1 & E2 & E3 & E4 & K). split_and!; done.
    + intros ((E1 & E2 & E3 & E4) & K). split_and!; done.
Qed.

(** The iv that is sent, and the context the other side makes of it. *)
Lemma ctx_resumes m c key cc peer old : c_key_len c <= zlen key ->
  ctx_made c key (encrypts m) cc -> joined m cc peer -> cipher_ivlen c <= zlen old ->
  exists r cc' cc2, cipher_get_keyiv cc (cipher_ivlen c) = (Ok r, cc') /\
    cipher_ivlen c <= zlen (moved_iv r old) /\
    cipher_init c (slice 0 (c_key_len c) key) (c_key_len c) (Some (slice 0 (cipher_ivlen c) (moved_iv r old)))
      (cipher_ivlen c) (encrypts m) = Ok cc2 /\ joined m cc2 peer /\ cc_cipher cc2 = c.
Proof.
  intros Hk (Hcc & Henc & K) HJ Hold. apply (joined_iff m c cc peer Hcc) in HJ as ((Jc & _ & Je & Hc) & Jk).
  destruct (ivlen_facts c Hc) as (Hiv & _ & Hiv').
  assert (Mk : forall cc2, cc_cipher cc2 = c -> cc_encrypt cc2 = encrypts m -> kind_joined c m cc2 peer ->
    joined m cc2 peer) by (intros; by apply (joined_iff m c)).
  unfold cipher_get_keyiv, kind_joined in *. rewrite Hcc.
  destruct (has (c_flags c) CFLAG_CHACHAPOLY) eqn:Hf; [|destruct (has (c_flags c) CFLAG_NONE) eqn:Hn].
  - destruct K as (a & b & Ea & Eb & Eab), Jk as (x & y & Ex & Ey & Exy). rewrite Ea in Ex. injection Ex as <-.
    destruct (cipher_init_ok c key (slice 0 (cipher_ivlen c) old) (encrypts m) Hc Hk) as (cc2 & Hi & C2 & N2 & P2 & _).
    { intros (_ & H & _). by rewrite Hf in H. }
    exists None, cc, cc2. rewrite Hiv' in *. cbn [moved_iv]. split_and!; try done.
    apply Mk; try done. rewrite Eb in P2. exists b, y. split_and!; try done; [by apply P2|]. by etrans.
  - destruct (cipher_init_ok c key (slice 0 (cipher_ivlen c) old) (encrypts m) Hc Hk) as (cc2 & Hi & C2 & N2 & _).
    { intros (_ & _ & H). by rewrite Hn in H. }
    exists None, cc, cc2. cbn [moved_iv]. split_and!; try done. by apply Mk.
  - destruct K as (e & Ee & Hmade), Jk as (x & d & Ex & Ed & HJe). rewrite Ee in Ex. injection Ex as <-.
    assert (Hl : of_libcrypto c) by done.
    destruct (iv_resumes c key m e d Hl Hmade HJe Hk) as (iv & e' & e2 & Hr & Liv & Hs & HJ2).
    destruct (cipher_init_ok c key iv (encrypts m) Hc Hk) as (cc2 & Hi & C2 & N2 & _ & V2); [by rewrite Hs|].
    assert (Hm : slice 0 (cipher_ivlen c) (moved_iv (Some iv) old) = iv) by (by apply slice_app_l).
    exists (Some iv), (set_evp e' cc), cc2. rewrite Hm, Ee, (iv_length c key (encrypts m) e), Hr, Z.eqb_refl by done.
    destruct (Z.eqb_spec (cipher_ivlen c) 0); [lia|]. destruct (Z.ltb_spec (cipher_ivlen c) 0); [lia|].
    split_and!; try done; [cbn [moved_iv]; rewrite zlen_app; pose proof (zlen_nonneg (drop (length iv) old)); lia|].
    apply Mk; try done. specialize (V2 Hl). rewrite Hs in V2. eauto.
Qed.

(** *** The hypothesis is an invariant of the contexts of the code *)

Lemma init_made {KL : KeyLaws} c key iv ivlen enc cc : c ∈ ciphers -> c_key_len c <= zlen key ->
  cipher_init c key (c_key_len c) (Some iv) ivlen enc = Ok cc -> ctx_made c key enc cc.
Proof.
  intros Hc Hk H. unfold ctx_made.
  destruct (has (c_flags c) CFLAG_CHACHAPOLY) eqn:Hf; [|destruct (has (c_flags c) CFLAG_NONE) eqn:Hn].
  - unfold cipher_init in H. rewrite Hf, (chacha_key_len c Hc Hf) in H.
    destruct (_ || _); [done|]. destruct (chachapoly_new key 64) as [b|] eqn:Eb; [|done]. injection H as <-.
    split_and!; try done. exists b, b. split_and!; try done. by eapply cp_equiv_refl, chachapoly_new_wf.
  - unfold cipher_init in H. rewrite Hf, Hn in H. destruct (_ || _); [done|]. injection H as <-. done.
  - destruct (Z.ltb_spec ivlen (cipher_ivlen c)) as [Hl|Hl].
    { unfold cipher_init in H. apply Z.ltb_lt in Hl. by rewrite Hl, orb_true_r in H. }
    rewrite cipher_init_evp in H by done. destruct (evp_setup _ _ _ _ _) as [e|] eqn:Es; [|done].
    injection H as <-. split_and!; try done. exists e. split; [done|]. by apply (made_init _ _ _ e iv).
Qed.

Lemma crypt_made c key enc cc n src len aadlen dest cc' : c ∈ ciphers -> ctx_made c key enc cc ->
  0 <= len -> 0 <= aadlen -> (cipher_authlen c <> 0 -> aadlen <> 0) ->
  zlen src = aadlen + len + (if enc then 0 else cipher_authlen c) ->
  cipher_crypt cc n src len aadlen (cipher_authlen c) = (Ok dest, cc') -> ctx_made c key enc cc'.
Proof.
  intros Hc (Hcc & Henc & K) Hl Ha Haad Hs H. unfold cipher_crypt in H. unfold ctx_made. rewrite Hcc in H.
  destruct (cipher_ok_facts c Hc) as (_ & Hau & Hcp & _).
  destruct (has (c_flags c) CFLAG_CHACHAPOLY) eqn:Hf; [|destruct (has (c_flags c) CFLAG_NONE) eqn:Hn].
  - destruct K as (a & b & Ea & Eb & Eab). rewrite Ea, Henc in H. rewrite (Hcp eq_refl) in *.
    destruct (chachapoly_crypt_eq tmp a n src len aadlen 16 enc tmp_length) as (a' & Eaa & Hx); try done.
    { by destruct Eab as [(_ & ? & _) (_ & ? & _)]. }
    { destruct enc; lia. }
    { intros ->. lia. }
    rewrite Hx in H. injection H as _ <-. split_and!; try done. exists a', b. split_and!; try done. by etrans.
  - by injection H as _ <-.
  - destruct K as (e & Ee & Hm). rewrite Ee in H.
    destruct (evp_crypt cc e src len aadlen (cipher_authlen c)) as [[d e']|] eqn:Ec; [|done]. injection H as _ <-.
    split_and!; try done. exists e'. split; [done|]. unfold evp_crypt in Ec. rewrite Hcc, Henc in Ec.
    rewrite Z.eqb_refl in Ec. assert (Ls : zlen (slice aadlen len src) = len).
    { apply zlen_slice; try lia. destruct enc; lia. }
    destruct (Z.eqb_spec (cipher_authlen c) 0) as [E0|E0]; cbn [negb andb] in Ec.
    + rewrite !andb_false_r in Ec. destruct (Z.eqb_spec (len mod c_block_size c) 0) as [Hb|]; [|done]. cbn [negb] in Ec.
      destruct (EVP_Cipher e (slice aadlen len src)) as [[q e1]|] eqn:E1; [|done]. injection Ec as _ <-.
      eapply made_stream; [exact Hm|done|by rewrite Ls|exact E1].
    + destruct (Z.eqb_spec aadlen 0) as [|_]; [by specialize (Haad E0)|]. cbn [negb andb] in Ec.
      destruct (EVP_CTRL_GCM_IV_GEN e) as [e1|] eqn:G1; [|done].
      destruct (if negb enc then _ else _) as [e2|] eqn:G2; [|done].
      destruct (EVP_Cipher_aad e2 _) as [e3|] eqn:G3; [|done].
      destruct (Z.eqb_spec (len mod c_block_size c) 0) as [Hb|]; [|done]. cbn [negb] in Ec.
      destruct (EVP_Cipher e3 _) as [[q e4]|] eqn:G4; [|done].
      destruct (EVP_Cipher_final e4) as [e5|] eqn:G5; [|by destruct enc].
      assert (e' = e5) as -> by (destruct enc; cbn in Ec; [destruct (EVP_CTRL_GCM_GET_TAG _ _)|]; congruence).
      eapply made_gcm; [exact Hm|exact E0|rewrite Ls; exact Hb|exact G1| |exact G3|exact G4|exact G5].
      destruct enc; cbn in G2; [by injection G2|exact G2].
Qed.
End resume.

