(* ===== verification/PacketMove.v ===== *)
(** A connection handed from one process to another: the session that
    [ssh_packet_set_state] makes of the bytes of [ssh_packet_get_state] goes on where the
    other stopped, in both directions, with the peer none the wiser. *)

From S2P Require Import Prelude SshErr Wire SshQueue Compat Match KeyTypes.
From S2P Require Import Poly1305 ChaCha ChachaPoly Digest Hmac SshCipher CipherLink Packet PacketSend Plain PacketRead.
From S2P Require Import PacketFrame PacketBounds PacketPoll PacketLink Kex KexConf KexKeys PacketState CipherResume.

(** ** The fields of a blob *)

Section fields.
Context {C : Crypto} {E : Env} {L : EnvLaws}.

Definition enc_field (f : field) : bytes :=
  match f with U32 v => POKE_U32 v | U64 v => POKE_U64 v | Str v => wr_string v end.
Definition enc_fields (l : list field) : bytes := concat (map enc_field l).

Lemma enc_fields_cons f l : enc_fields (f :: l) = enc_field f ++ enc_fields l.
Proof. done. Qed.

Lemma zlen_wr_string v : zlen (wr_string v) = 4 + zlen v.
Proof. unfold wr_string. by rewrite zlen_app, zlen_POKE_U32. Qed.

Lemma does_put_field m f s : zlen m + zlen (enc_field f) <= SSHBUF_SIZE_MAX ->
  does (put_field m f) s (Ok (m ++ enc_field f)) s.
Proof.
  intros H. pose proof (zlen_nonneg m). destruct f as [v|v|v]; cbn [put_field enc_field] in *;
    [by apply does_buf_put..|].
  rewrite zlen_wr_string in H. destruct (Z.gtb_spec (zlen v) (SSHBUF_SIZE_MAX - 4)); [lia|].
  apply does_buf_put. by rewrite zlen_wr_string.
Qed.

Lemma does_put_fields l : forall m s, zlen m + zlen (enc_fields l) <= SSHBUF_SIZE_MAX ->
  does (put_fields m l) s (Ok (m ++ enc_fields l)) s.
Proof.
  induction l as [|f l IH]; intros m s H; cbn [put_fields].
  - rewrite app_nil_r. does_done.
  - rewrite enc_fields_cons, zlen_app in H. pose proof (zlen_nonneg (enc_fields l)).
    eapply does_bind; [by apply does_put_field; lia|]. intros w. rewrite enc_fields_cons, app_assoc.
    does_last. apply IH. rewrite zlen_app. lia.
Qed.

Definition is_u32 (v : Z) : Prop := 0 <= v < 2 ^ 32.
Definition is_u64 (v : Z) : Prop := 0 <= v < 2 ^ 64.
Definition is_int (v : Z) : Prop := - 2 ^ 31 <= v < 2 ^ 31.
Definition is_str (v : bytes) : Prop := zlen v <= SSHBUF_SIZE_MAX - 4.

Lemma to_int_u32 v : is_int v -> to_int (u32 v) = v.
Proof.
  unfold is_int, to_int. intros H. destruct (Z.ltb_spec v 0).
  - replace (u32 v) with (v + 2 ^ 32) by (unfold u32, wrap; apply (Z.mod_unique _ _ (-1)); lia).
    destruct (Z.geb_spec (v + 2 ^ 32) (2 ^ 31)); lia.
  - rewrite u32_small by lia. destruct (Z.geb_spec v (2 ^ 31)); lia.
Qed.

Lemma does_get_u32 v q s : is_u32 v -> does (get_u32 (POKE_U32 v ++ q)) s (Ok (v, q)) s.
Proof. intros H. unfold get_u32. rewrite rd_u32_app, u32_small by done. apply does_lift. Qed.

Lemma does_get_int v q s : is_int v -> does (get_int (POKE_U32 v ++ q)) s (Ok (v, q)) s.
Proof.
  intros H. unfold get_int, get_u32. rewrite rd_u32_app. eapply does_bind; [apply does_lift|]. intros w.
  cbv beta iota. rewrite to_int_u32 by done. does_done.
Qed.

Lemma does_get_u64 v q s : is_u64 v -> does (get_u64 (POKE_U64 v ++ q)) s (Ok (v, q)) s.
Proof. intros H. unfold get_u64. rewrite rd_u64_app, u64_small by done. apply does_lift. Qed.

Lemma does_get_string v q s : is_str v -> does (get_string (wr_string v ++ q)) s (Ok (v, q)) s.
Proof.
  intros H. unfold get_string. rewrite rd_string_app by done. eapply does_bind; [apply does_lift|]. intros w.
  eapply does_bind; [apply does_memory|]. intros w1. does_done.
Qed.

Lemma does_get_cstring v q s : is_str v -> no_nul v -> does (get_cstring (wr_string v ++ q)) s (Ok (v, q)) s.
Proof.
  intros H Hn. unfold get_cstring, rd_cstring. rewrite rd_string_app by done. unfold no_nul in Hn. rewrite Hn.
  eapply does_bind; [apply does_lift|]. intros w. eapply does_bind; [apply does_memory|]. intros w1.
  unfold c_str. rewrite Hn. does_done.
Qed.

Lemma does_get_stringb v q s : is_str v -> does (get_stringb (wr_string v ++ q) []) s (Ok (v, q)) s.
Proof.
  intros H. unfold get_stringb. rewrite rd_string_app by done. eapply does_bind; [apply does_lift|]. intros w.
  cbv beta iota. eapply does_bind; [apply does_buf_put; unfold is_str in H; rewrite zlen_nil; lia|].
  intros w1. does_done.
Qed.
End fields.

(** One read of a field that was written. *)
Ltac reads lem := eapply does_bind; [apply lem; done|]; intros ?w; cbv beta iota.

Section kex_blob.
Context {C : Crypto} {E : Env} {L : EnvLaws}.

Definition kex_fields (k : kex_state) : list field :=
  [U32 (we_need k); Str (default [] (hostkey_alg k)); U32 (hostkey_type k); U32 (hostkey_nid k);
   U32 (kex_type k); Str (kex_my k); Str (kex_peer k); Str (client_version k); Str (server_version k);
   Str (session_id k); U32 (kex_flags k)].

(** Fields of the width they are sent with. *)
Definition kex_fits (k : kex_state) : Prop :=
  (exists alg, hostkey_alg k = Some alg /\ no_nul alg) /\ is_u32 (we_need k) /\ is_int (hostkey_type k) /\
  is_int (hostkey_nid k) /\ is_u32 (kex_type k) /\ is_u32 (kex_flags k).

(** What an exchange is on the other side: the server's, finished, without the parts that a
    new exchange makes again. *)
Definition kex_moved (k : kex_state) : kex_state :=
  mk_kex None None (we_need k) true None (hostkey_alg k) (hostkey_type k) (hostkey_nid k) (kex_type k)
    0 0 0 None None false (kex_my k) (kex_peer k) true (kex_flags k) (client_version k) (server_version k)
    (session_id k) None (zeros 32).

Lemma is_str_in v l : In (Str v) l -> zlen (enc_fields l) <= SSHBUF_SIZE_MAX -> is_str v.
Proof.
  unfold is_str. induction l as [|f l IH]; [done|]. rewrite enc_fields_cons, zlen_app.
  pose proof (zlen_nonneg (enc_fields l)). pose proof (zlen_nonneg (enc_field f)).
  intros [->|Hin] Hz; [|by apply IH; [|lia]]. cbn [enc_field] in Hz. rewrite zlen_wr_string in Hz. lia.
Qed.

Lemma does_read_kex k q s : kex_fits k -> zlen (enc_fields (kex_fields k)) <= SSHBUF_SIZE_MAX ->
  does (read_kex (enc_fields (kex_fields k) ++ q)) s (Ok (kex_moved k, q)) s.
Proof.
  intros ((alg & Ha & Hn) & H1 & H2 & H3 & H4 & H5) Hz.
  pose proof (fun v Hin => is_str_in v _ Hin Hz) as Hs. unfold kex_fields in *. rewrite Ha in *.
  cbn [default] in *. rewrite !enc_fields_cons, <- !app_assoc. cbn [enc_field].
  unfold read_kex, kex_moved. rewrite Ha. cbn [kex_new kex_my kex_peer client_version server_version session_id].
  reads does_get_u32. eapply does_bind; [apply does_get_cstring; [apply Hs; cbn; tauto|done]|]. intros w1; cbv beta iota.
  reads does_get_int. reads does_get_int. reads does_get_u32.
  do 5 (eapply does_bind; [apply does_get_stringb, Hs; cbn; tauto|]; intros ?w; cbv beta iota).
  reads does_get_u32. does_done.
Qed.

Lemma does_kex_from_blob k q s : kex_fits k -> zlen (enc_fields (kex_fields k)) <= SSHBUF_SIZE_MAX ->
  does (kex_from_blob (enc_fields (kex_fields k) ++ q)) s (Ok q) (set_kex (Some (kex_moved k)) s).
Proof.
  intros Hk Hz. unfold kex_from_blob. eapply does_bind; [apply does_memory|]. intros w. cbn [negb].
  destruct (does_read_kex k q (set_world w s) Hk Hz) as [w1 H1].
  eapply (does_bind _ _ _ (Ok (kex_moved k, q)) s); [exists w1; unfold mtry; by rewrite H1|].
  intros w2. cbv beta iota. by exists w2.
Qed.

Lemma does_kex_to_blob m k s : zlen m + zlen (enc_fields (kex_fields k)) <= SSHBUF_SIZE_MAX ->
  does (kex_to_blob m k) s (Ok (m ++ enc_fields (kex_fields k))) s.
Proof. apply does_put_fields. Qed.
End kex_blob.

(** ** The keys of a direction *)

Section keys_blob.
Context {C : Crypto} {CL : CryptoLaws} {KL : KeyLaws} {DL : DigestLaws} {I : CipherIv} {IL : IvLaws}.
Context {E : Env} {L : EnvLaws}.

(** A MAC as [ssh_set_newkeys] takes it into use. *)
Definition mac_live (nk : newkeys) (m0 m1 : sshmac) (key : bytes) : Prop :=
  mac_setup true blank_mac (nk_mac_name nk) = Ok m0 /\ mac_key_len m0 <= zlen key /\
  mac_init (give_key key m0) = Ok m1 /\ nk_mac nk = mac_on m1.

(** Keys in use without compression, with the context that was made of them. *)
Record keys_live (m : kex_mode) (nk : newkeys) (cc : sshcipher_ctx) : Prop := {
  kl_cipher : cipher_by_name (enc_name (nk_enc nk)) = Some (enc_cipher (nk_enc nk));
  kl_key : enc_key_len (nk_enc nk) = c_key_len (enc_cipher (nk_enc nk)) /\
    c_key_len (enc_cipher (nk_enc nk)) <= zlen (enc_key (nk_enc nk));
  kl_iv : enc_iv_len (nk_enc nk) = cipher_ivlen (enc_cipher (nk_enc nk)) /\
    exists iv, enc_iv (nk_enc nk) = Some iv /\ cipher_ivlen (enc_cipher (nk_enc nk)) <= zlen iv;
  kl_block : enc_block_size (nk_enc nk) = c_block_size (enc_cipher (nk_enc nk));
  kl_enabled : is_int (enc_enabled (nk_enc nk));
  kl_comp : comp_type (nk_comp nk) = COMP_NONE /\ no_nul (comp_name (nk_comp nk)) /\
    zlen (comp_name (nk_comp nk)) <= 2 ^ 16 /\ comp_enabled (nk_comp nk) = false;
  kl_mac : cipher_authlen (enc_cipher (nk_enc nk)) = 0 -> exists m0 m1 key, mac_live nk m0 m1 key;
  kl_ctx : ctx_made (enc_cipher (nk_enc nk)) (enc_key (nk_enc nk)) (encrypts m) cc
}.

Definition mac_fields (nk : newkeys) (key : bytes) : list field :=
  [Str (nk_mac_name nk); U32 1; Str (slice 0 (mac_key_len (nk_mac nk)) key)].
Definition key_fields (nk : newkeys) (iv : bytes) (mac : list field) : list field :=
  let e := nk_enc nk in
  [Str (enc_name e); U32 (enc_enabled e); U32 (enc_block_size e); Str (slice 0 (enc_key_len e) (enc_key e));
   Str (slice 0 (enc_iv_len e) iv)] ++ mac ++
  [U32 (comp_type (nk_comp nk)); Str (comp_name (nk_comp nk))].

(** The keys on the other side. *)
Definition keys_moved (nk : newkeys) (iv : bytes) (mac : sshmac) (name : bytes) : newkeys :=
  let e := nk_enc nk in
  mk_newkeys (mk_enc (enc_name e) (enc_cipher e) (enc_enabled e) (enc_key_len e) (enc_iv_len e)
                (enc_block_size e) (slice 0 (enc_key_len e) (enc_key e)) (Some (slice 0 (enc_iv_len e) iv)))
    mac name (mk_comp (comp_type (nk_comp nk)) false (comp_name (nk_comp nk))).

Lemma enc_fields_app l l' : enc_fields (l ++ l') = enc_fields l ++ enc_fields l'.
Proof. unfold enc_fields. by rewrite map_app, concat_app. Qed.

(** *** Names and sizes *)

Lemma cipher_name c n : cipher_by_name n = Some c -> is_str n /\ no_nul n /\ zlen n <= 64 /\
  is_u32 (c_block_size c).
Proof.
  intros H. unfold cipher_by_name in H. apply find_some in H as [Hin Hn]. apply bool_decide_eq_true in Hn as <-.
  assert (F : forallb (fun c => (zlen (c_name c) <=? 64) && bool_decide (memchr0 (c_name c) = None) &&
    (0 <=? c_block_size c) && (c_block_size c <=? 16)) ciphers = true) by reflexivity.
  rewrite forallb_forall in F. specialize (F c Hin). rewrite !andb_true_iff, bool_decide_eq_true in F.
  destruct F as [[[F1 F2] F3] F4]. unfold is_str, SSHBUF_SIZE_MAX, is_u32. split_and!; try done; lia.
Qed.

Lemma mac_setup_row name m : mac_setup true blank_mac name = Ok m ->
  is_str name /\ no_nul name /\ zlen name <= 64 /\ 0 <= mac_key_len m <= 64 /\ mac_ctx_key m = None /\
  mac_enabled m = false /\
  (mac_type m = SSH_DIGEST \/ ((mac_type m = SSH_UMAC \/ mac_type m = SSH_UMAC128) /\ mac_key_len m = 16)).
Proof.
  unfold mac_setup. destruct (List.find _ macs) as [a|] eqn:Ef; [|done]. apply find_some in Ef as [Hin Hn].
  apply bool_decide_eq_true in Hn as ->.
  assert (F : forallb (fun a => (zlen (m_name a) <=? 64) && bool_decide (memchr0 (m_name a) = None)) macs = true) by reflexivity.
  rewrite forallb_forall in F. specialize (F a Hin). rewrite !andb_true_iff, bool_decide_eq_true in F.
  apply macs_ok in Hin. unfold mac_row_ok in Hin. unfold mac_setup_by_alg.
  destruct (_ && negb _); [done|]. intros Heq. destruct F as [F1 F2].
  split_and!; [unfold is_str, SSHBUF_SIZE_MAX; lia|done|lia|..]; revert Heq;
    destruct (m_type a =? SSH_DIGEST) eqn:Et; intros [= <-]; cbn [mac_key_len mac_ctx_key mac_enabled mac_type]; try done.
  all: unfold SSH_DIGEST, SSH_UMAC, SSH_UMAC128 in *; try (left; lia).
  all: first [unfold ssh_hmac_bytes; pose proof (digest_bytes_range (m_alg a)); lia
             |assert (m_key_len a = 128) as -> by lia; change (128 / 8) with 16; lia].
Qed.

(** The other side makes the same MAC. *)
Lemma mac_moves nk m0 m1 key : mac_live nk m0 m1 key ->
  exists m2, mac_init (with_mac_key true (slice 0 (mac_key_len m0) key) m0) = Ok m2 /\
    mac_view (mac_on m2) = mac_view (nk_mac nk).
Proof.
  intros (Hs & Hk & Hi & ->). destruct (mac_setup_row _ _ Hs) as (_ & _ & _ & Hl & Hc & He & Ht).
  unfold mac_init, with_mac_key, give_key in *. cbn [mac_key mac_type mac_key_len hmac_alg mac_enabled mac_len mac_etm] in *.
  assert (Lk : zlen (slice 0 (mac_key_len m0) key) = mac_key_len m0) by (apply zlen_slice; lia).
  destruct (mac_type m0 =? SSH_DIGEST) eqn:Hd.
  - rewrite Lk, (take_is_slice (mac_key_len m0) (slice _ _ _)), slice_slice, Z.add_0_l by lia.
    rewrite (take_is_slice (mac_key_len m0) key) in Hi.
    destruct (bool_decide _); [|done]. injection Hi as <-. eexists. split; [reflexivity|]. done.
  - destruct (_ || _); [|done]. injection Hi as <-. eexists. split; [reflexivity|].
    destruct Ht as [Ht|[_ Ht]]; [by rewrite Ht in Hd|]. unfold mac_view, mac_on. cbn.
    rewrite Ht. unfold UMAC_KEY_LEN. by rewrite slice_slice.
Qed.

(** *** Writing *)

(** What asking for the iv changes. *)
Definition asked (m : kex_mode) (nk : newkeys) (iv : bytes) (cc : sshcipher_ctx) (s : session) : session :=
  set_newkeys m (Some (with_enc (with_iv (Some iv) (nk_enc nk)) nk)) (set_ctx m (Some cc) s).

Lemma does_update_iv m nk r cc cc' old s : get_newkeys m s = Some nk -> get_ctx m s = Some cc ->
  enc_iv (nk_enc nk) = Some old -> cipher_get_keyiv cc (enc_iv_len (nk_enc nk)) = (Ok r, cc') ->
  does (update_iv m nk) s (Ok (Some (moved_iv r old))) (asked m nk (moved_iv r old) cc' s).
Proof.
  intros Hn Hc Ho Hr. unfold update_iv. eapply does_bind; [by apply does_deref|]. intros w. rewrite Hr.
  eapply does_bind; [by apply does_exact|]. intros w1. eapply does_bind; [apply does_lift|]. intros w2. cbv beta.
  rewrite Ho. destruct r as [iv|].
  - eapply does_bind; [by apply does_exact|]. intros w3. destruct m; cbn in Hn; cbn; rewrite Hn; does_done.
  - cbn [moved_iv]. apply (proj2 (does_world _ _ _ _ (world s))). destruct s, nk as [[] ? ? ?], m; cbn in *; subst; does_done.
Qed.

Definition mac_part (nk : newkeys) (key : bytes) : list field :=
  if cipher_authlen (enc_cipher (nk_enc nk)) =? 0 then mac_fields nk key else [].

Lemma zlen_slice_at_most {A} n (l : list A) : 0 <= n -> zlen (slice 0 n l) <= n.
Proof. intros H. unfold zlen, slice. rewrite length_take. lia. Qed.

(** The size of the keys of a direction. *)
Lemma key_fields_small m nk cc iv key : keys_live m nk cc ->
  (cipher_authlen (enc_cipher (nk_enc nk)) = 0 -> exists m0 m1, mac_live nk m0 m1 key) ->
  zlen (enc_fields (key_fields nk iv (mac_part nk key))) <= 2 ^ 17.
Proof.
  intros [Kc [Kk Kk'] [Ki _] _ _ (_ & _ & Kz & _) _ _] Hm. destruct (cipher_name _ _ Kc) as (_ & _ & Hn & _).
  destruct (ivlen_facts _ (cipher_by_name_in _ _ Kc)) as (Hi & Hk & _).
  unfold key_fields. rewrite !enc_fields_app, !enc_fields_cons. unfold enc_fields at 1 3. cbn [map concat enc_field].
  rewrite !zlen_app, !zlen_wr_string, !zlen_POKE_U32, Kk, Ki. change (zlen (@nil byte)) with 0.
  pose proof (zlen_slice_at_most (c_key_len (enc_cipher (nk_enc nk))) (enc_key (nk_enc nk))).
  pose proof (zlen_slice_at_most (cipher_ivlen (enc_cipher (nk_enc nk))) iv).
  assert (zlen (enc_fields (mac_part nk key)) <= 200); [|lia].
  unfold mac_part. destruct (Z.eqb_spec (cipher_authlen (enc_cipher (nk_enc nk))) 0) as [Ha|]; [|done].
  destruct (Hm Ha) as (m0 & m1 & Hs & Hkl & Hin & Hmac). destruct (mac_setup_row _ _ Hs) as (_ & _ & Hnl & Hml & _).
  assert (El : mac_key_len (nk_mac nk) = mac_key_len m0).
  { rewrite Hmac. unfold mac_init, give_key in Hin. cbn in Hin. repeat case_match; simplify_eq; done. }
  cbn [enc_fields mac_fields map concat enc_field]. rewrite !zlen_app, !zlen_wr_string, !zlen_POKE_U32, El. change (zlen (@nil byte)) with 0.
  pose proof (zlen_slice_at_most (mac_key_len m0) key). lia.
Qed.

Lemma live_key_len nk m0 m1 key : mac_live nk m0 m1 key -> mac_key_len (nk_mac nk) = mac_key_len m0 /\
  mac_enabled (nk_mac nk) = true /\ mac_key (nk_mac nk) = Some key.
Proof.
  intros (Hs & Hkl & Hin & ->). unfold mac_init, give_key in Hin. cbn in Hin.
  repeat case_match; simplify_eq; done.
Qed.

Definition mac_ready (nk : newkeys) (key : bytes) : Prop :=
  cipher_authlen (enc_cipher (nk_enc nk)) = 0 -> exists m0 m1, mac_live nk m0 m1 key.

Lemma does_mac_part nk key b s : mac_ready nk key ->
  zlen b + zlen (enc_fields (mac_part nk key)) <= SSHBUF_SIZE_MAX ->
  does (if cipher_authlen (enc_cipher (nk_enc nk)) =? 0 then
          let! b := put_fields b [Str (nk_mac_name nk); U32 (Z.b2z (mac_enabled (nk_mac nk)))] in
          let! key := behind (mac_key (nk_mac nk)) (mac_key_len (nk_mac nk)) in put_field b (Str key)
        else mret b) s (Ok (b ++ enc_fields (mac_part nk key))) s.
Proof.
  intros Hm Hz. unfold mac_part in *. destruct (Z.eqb_spec (cipher_authlen (enc_cipher (nk_enc nk))) 0) as [Ha|_];
    [|rewrite app_nil_r; does_done].
  destruct (Hm Ha) as (m0 & m1 & Hl). destruct (live_key_len _ _ _ _ Hl) as (_ & -> & ->). cbn [Z.b2z behind].
  unfold mac_fields in *. rewrite !enc_fields_cons, !zlen_app in Hz.
  set (f1 := Str (nk_mac_name nk)) in *. set (f2 := U32 1) in *. set (f3 := Str (slice _ _ _)) in *. change (zlen (enc_fields [])) with 0 in Hz.
  pose proof (zlen_nonneg b). pose proof (zlen_nonneg (enc_field f1)). pose proof (zlen_nonneg (enc_field f2)).
  pose proof (zlen_nonneg (enc_field f3)).
  assert (Z2 : zlen (enc_fields [f1; f2]) = zlen (enc_field f1) + zlen (enc_field f2)).
  { rewrite !enc_fields_cons, !zlen_app. change (zlen (enc_fields [])) with 0. lia. }
  eapply does_bind; [apply does_put_fields; lia|]. intros w. eapply does_bind; [by apply does_exact|]. intros w1.
  replace (b ++ enc_fields [f1; f2; f3]) with ((b ++ enc_fields [f1; f2]) ++ enc_field f3).
  2: { rewrite !enc_fields_cons. cbn [enc_fields map concat]. by rewrite !app_nil_r, <- !app_assoc. }
  do 2 does_last. apply does_put_field. rewrite zlen_app. lia.
Qed.

Lemma does_newkeys_to_blob b m nk cc cc' r old key s : get_newkeys m s = Some nk -> get_ctx m s = Some cc ->
  keys_live m nk cc -> mac_ready nk key -> enc_iv (nk_enc nk) = Some old ->
  cipher_get_keyiv cc (enc_iv_len (nk_enc nk)) = (Ok r, cc') -> zlen b + 2 ^ 17 + 4 <= SSHBUF_SIZE_MAX ->
  let iv := moved_iv r old in
  does (newkeys_to_blob b m) s
    (Ok (b ++ wr_string (enc_fields (key_fields nk iv (mac_part nk key))))) (asked m nk iv cc' s).
Proof.
  intros Hn Hc K Hm Ho Hr Hb iv. pose proof (key_fields_small m nk cc iv key K Hm) as Hz.
  unfold newkeys_to_blob. eapply does_bind; [by apply does_exact|]. intros w. cbv beta. rewrite Hn.
  eapply does_bind; [by apply (does_update_iv m nk r cc cc' old); destruct m|]. intros w1. fold iv.
  eapply does_bind; [apply does_memory|]. intros w2. cbn [negb].
  unfold key_fields in *. set (e := nk_enc nk) in *.
  set (l1 := [Str (enc_name e); U32 (enc_enabled e); U32 (enc_block_size e); Str (slice 0 (enc_key_len e) (enc_key e))]) in *.
  set (ivf := Str (slice 0 (enc_iv_len e) iv)) in *. set (l3 := [U32 _; Str _]) in *.
  change ([_; _; _; _; ivf] ++ mac_part nk key ++ l3) with (l1 ++ [ivf] ++ mac_part nk key ++ l3) in Hz |- *.
  rewrite !enc_fields_app in Hz |- *. rewrite !zlen_app in Hz. unfold SSHBUF_SIZE_MAX in *.
  assert (Ei : enc_fields [ivf] = enc_field ivf) by (unfold enc_fields; cbn [map concat]; apply app_nil_r). rewrite Ei in *.
  pose proof (zlen_nonneg (enc_fields l1)). pose proof (zlen_nonneg (enc_field ivf)).
  pose proof (zlen_nonneg (enc_fields l3)). pose proof (zlen_nonneg (enc_fields (mac_part nk key))).
  pose proof (zlen_nonneg b). unfold SSHBUF_SIZE_MAX in *.
  eapply does_bind; [apply does_put_fields; rewrite zlen_nil; unfold SSHBUF_SIZE_MAX; lia|]. intros w3. cbn [app].
  eapply does_bind; [by apply does_exact|]. intros w4.
  eapply does_bind; [apply does_put_field; unfold SSHBUF_SIZE_MAX; fold ivf; lia|]. intros w5. fold ivf.
  eapply does_bind; [apply (does_mac_part nk key); [done|rewrite zlen_app; unfold SSHBUF_SIZE_MAX; lia]|]. intros w6.
  eapply does_bind; [apply does_put_fields; rewrite !zlen_app; unfold SSHBUF_SIZE_MAX; lia|]. intros w7.
  rewrite <- !app_assoc.
  match goal with |- does (put_field b (Str ?x)) ?st _ _ =>
    assert (Hf : does (put_field b (Str x)) st (Ok (b ++ enc_field (Str x))) st) end.
  { apply does_put_field. cbn [enc_field]. rewrite zlen_wr_string, !zlen_app. unfold SSHBUF_SIZE_MAX. lia. }
  destruct Hf as [w8 Hf]. exists w8. destruct m; exact Hf.
Qed.

(** *** Reading *)

Lemma does_read_mac nk key q s m0 m1 : mac_live nk m0 m1 key ->
  does (read_mac (enc_fields (mac_fields nk key) ++ q)) s
    (Ok (with_mac_key true (slice 0 (mac_key_len m0) key) m0, nk_mac_name nk, q)) s.
Proof.
  intros Hl. unfold mac_fields. destruct (live_key_len _ _ _ _ Hl) as (-> & _). destruct Hl as (Hs & Hk & _).
  destruct (mac_setup_row _ _ Hs) as (Hstr & Hnn & _ & Hml & _).
  assert (Lk : zlen (slice 0 (mac_key_len m0) key) = mac_key_len m0) by (apply zlen_slice; lia).
  rewrite !enc_fields_cons, <- !app_assoc. cbn [enc_field].
  unfold read_mac. reads does_get_cstring. eapply does_bind; [apply does_memory|]. intros w1.
  rewrite Hs. eapply does_bind; [apply does_lift|]. intros w2.
  reads does_get_u32. eapply does_bind; [apply does_get_string; unfold is_str, SSHBUF_SIZE_MAX; lia|]. intros w4.
  cbv beta iota. rewrite Lk, Z.gtb_ltb, Z.ltb_irrefl. does_done.
Qed.

(** The MAC that is read, and that [mac_init] makes of it what it was. *)
Definition mac_reads (nk : newkeys) (mac : sshmac * bytes) : Prop :=
  if cipher_authlen (enc_cipher (nk_enc nk)) =? 0
  then exists m2, mac_init (fst mac) = Ok m2 /\ mac_view (mac_on m2) = mac_view (nk_mac nk)
  else mac = (blank_mac, []).

Lemma does_mac_read nk key q : mac_ready nk key -> exists mac, mac_reads nk mac /\ forall s,
  does (if cipher_authlen (enc_cipher (nk_enc nk)) =? 0 then read_mac (enc_fields (mac_part nk key) ++ q)
        else mret (blank_mac, [], enc_fields (mac_part nk key) ++ q)) s (Ok (mac, q)) s.
Proof.
  intros Hm. unfold mac_part, mac_reads, mac_ready in *.
  destruct (Z.eqb_spec (cipher_authlen (enc_cipher (nk_enc nk))) 0) as [Ha|_].
  - destruct (Hm Ha) as (m0 & m1 & Hl). eexists (_, _). split; [|intros s; by eapply does_read_mac]. by eapply mac_moves.
  - exists (blank_mac, []). split; [done|]. intros s. does_done.
Qed.

Lemma does_read_newkeys m nk cc iv key : keys_live m nk cc -> mac_ready nk key ->
  cipher_ivlen (enc_cipher (nk_enc nk)) <= zlen iv ->
  exists mac, mac_reads nk mac /\ forall s,
    does (read_newkeys (enc_fields (key_fields nk iv (mac_part nk key)))) s
      (Ok (keys_moved nk iv (fst mac) (snd mac))) s.
Proof.
  intros [Kc [Kk Kk'] [Ki _] Kb Ke (Kt & Kn & Kz & _) _ _] Hm Hiv.
  destruct (cipher_name _ _ Kc) as (Hs & Hn & _ & Hb).
  destruct (ivlen_facts _ (cipher_by_name_in _ _ Kc)) as (Hi & Hk & _).
  set (q := enc_fields [U32 (comp_type (nk_comp nk)); Str (comp_name (nk_comp nk))]).
  destruct (does_mac_read nk key q Hm) as (mac & Hr & Hd). exists mac. split; [done|]. intros s.
  assert (Lk : zlen (slice 0 (enc_key_len (nk_enc nk)) (enc_key (nk_enc nk))) = enc_key_len (nk_enc nk)) by (apply zlen_slice; lia).
  assert (Li : zlen (slice 0 (enc_iv_len (nk_enc nk)) iv) = enc_iv_len (nk_enc nk)) by (apply zlen_slice; lia).
  unfold key_fields. rewrite !enc_fields_app. fold q. rewrite !enc_fields_cons, <- !app_assoc.
  change (enc_fields []) with (@nil byte). cbn [enc_field app]. unfold read_newkeys.
  reads does_get_cstring. reads does_get_int. eapply does_bind; [apply does_get_u32; by rewrite Kb|]. intros w2. cbv beta iota.
  eapply does_bind; [apply does_get_string; unfold is_str, SSHBUF_SIZE_MAX; lia|]. intros w3. cbv beta iota.
  eapply does_bind; [apply does_get_string; unfold is_str, SSHBUF_SIZE_MAX; lia|]. intros w4. cbv beta iota.
  rewrite Kc. eapply does_bind; [apply Hd|].
  intros w5. cbv beta iota. unfold q. rewrite !enc_fields_cons. change (enc_fields []) with (@nil byte).
  cbn [enc_field]. eapply does_bind; [apply does_get_u32; by rewrite Kt|]. intros w6. cbv beta iota.
  eapply does_bind; [apply does_get_cstring; [unfold is_str, SSHBUF_SIZE_MAX; lia|done]|]. intros w7. cbv beta iota.
  change (negb (zlen (@nil byte) =? 0)) with false. cbv iota. unfold keys_moved. rewrite Lk, Li. does_done.
Qed.
End keys_blob.

(** ** The session *)

Section session_blob.
Context {C : Crypto} {CL : CryptoLaws} {KL : KeyLaws} {DL : DigestLaws} {I : CipherIv} {IL : IvLaws}.
Context {E : Env} {L : EnvLaws}.

Definition pstate_fields (p : packet_state) : list field :=
  [U32 (seqnr p); U64 (blocks p); U32 (packets p); U64 (nbytes p)].
Definition pstate_fits (p : packet_state) : Prop :=
  is_u32 (seqnr p) /\ is_u64 (blocks p) /\ is_u32 (packets p) /\ is_u64 (nbytes p).
Definition rest_fields (s : session) : list field :=
  [U64 (rekey_limit s); U32 (rekey_interval s)] ++ pstate_fields (p_send s) ++ pstate_fields (p_read s) ++
  [Str (input s); Str (output s)].

(** A session that has what a connection needs, with fields of their widths. *)
Record movable (s : session) : Prop := {
  mv_kex : exists k, kex s = Some k /\ kex_fits k /\ zlen (enc_fields (kex_fields k)) <= 2 ^ 20;
  mv_keys m : exists nk cc, get_newkeys m s = Some nk /\ get_ctx m s = Some cc /\ keys_live m nk cc;
  mv_rekey : is_u64 (rekey_limit s) /\ is_u32 (rekey_interval s);
  mv_counts : pstate_fits (p_send s) /\ pstate_fits (p_read s);
  mv_buffers : zlen (input s) <= 2 ^ 25 /\ zlen (output s) <= 2 ^ 25
}.

Lemma does_newkeys_from_blob m mode nk cc iv key k q s : kex s = Some k -> keys_live m nk cc -> mac_ready nk key ->
  cipher_ivlen (enc_cipher (nk_enc nk)) <= zlen iv ->
  exists mac, mac_reads nk mac /\ forall w,
    does (newkeys_from_blob (wr_string (enc_fields (key_fields nk iv (mac_part nk key))) ++ q) mode) (set_world w s) (Ok q)
      (set_kex (Some (set_kex_newkeys mode (Some (keys_moved nk iv (fst mac) (snd mac))) k)) s).
Proof.
  intros Hk K Hm Hiv. destruct (does_read_newkeys m nk cc iv key K Hm Hiv) as (mac & Hr & Hd).
  exists mac. split; [done|]. intros w. pose proof (key_fields_small m nk cc iv key K Hm).
  unfold newkeys_from_blob. eapply does_bind; [apply does_memory|]. intros w1. cbn [negb].
  eapply does_bind; [apply does_get_string; unfold is_str, SSHBUF_SIZE_MAX; lia|]. intros w2. cbv beta iota.
  eapply does_bind; [apply Hd|]. intros w3. eapply does_bind; [by apply does_deref|]. intros w4.
  eapply does_bind; [by apply does_update_kex|]. intros w5. does_done.
Qed.

Lemma does_read_pstate m p q s : pstate_fits p ->
  does (read_pstate m (enc_fields (pstate_fields p) ++ q)) s (Ok q) (set_pstate m p s).
Proof.
  intros (H1 & H2 & H3 & H4). unfold pstate_fields, read_pstate. rewrite !enc_fields_cons, <- !app_assoc.
  cbn [enc_field]. eapply does_bind; [by apply does_get_u32|]. intros w1; cbv beta iota.
  eapply does_bind; [by apply does_exact|]. intros w2. eapply does_bind; [by apply does_get_u64|]. intros w3; cbv beta iota.
  eapply does_bind; [by apply does_exact|]. intros w4. eapply does_bind; [by apply does_get_u32|]. intros w5; cbv beta iota.
  eapply does_bind; [by apply does_exact|]. intros w6. eapply does_bind; [by apply does_get_u64|]. intros w7; cbv beta iota.
  eapply does_bind; [by apply does_exact|]. intros w8. eexists. destruct p, m; reflexivity.
Qed.

(** The bytes of a session. *)
Definition session_bytes (s : session) (k : kex_state) (nko nki : newkeys) (ivo ivi keyo keyi : bytes) : bytes :=
  enc_fields (kex_fields k) ++ wr_string (enc_fields (key_fields nko ivo (mac_part nko keyo))) ++
  wr_string (enc_fields (key_fields nki ivi (mac_part nki keyi))) ++ enc_fields (rest_fields s).

Lemma zlen_rest_fields s : zlen (enc_fields (rest_fields s)) = 68 + zlen (input s) + zlen (output s).
Proof.
  unfold rest_fields, pstate_fields. cbn [app]. rewrite !enc_fields_cons, !zlen_app. cbn [enc_field].
  rewrite !zlen_wr_string, !zlen_POKE_U32, !zlen_POKE_U64. change (zlen (enc_fields [])) with 0. lia.
Qed.

Lemma does_get_state s k nko cco cco' ro oldo keyo nki cci cci' ri oldi keyi : kex s = Some k -> movable s ->
  zlen (enc_fields (kex_fields k)) <= 2 ^ 20 ->
  newkeys_out s = Some nko -> send_context s = Some cco -> keys_live MODE_OUT nko cco -> mac_ready nko keyo ->
  enc_iv (nk_enc nko) = Some oldo -> cipher_get_keyiv cco (enc_iv_len (nk_enc nko)) = (Ok ro, cco') ->
  newkeys_in s = Some nki -> receive_context s = Some cci -> keys_live MODE_IN nki cci -> mac_ready nki keyi ->
  enc_iv (nk_enc nki) = Some oldi -> cipher_get_keyiv cci (enc_iv_len (nk_enc nki)) = (Ok ri, cci') ->
  does (ssh_packet_get_state []) s
    (Ok (session_bytes s k nko nki (moved_iv ro oldo) (moved_iv ri oldi) keyo keyi))
    (asked MODE_IN nki (moved_iv ri oldi) cci' (asked MODE_OUT nko (moved_iv ro oldo) cco' s)).
Proof.
  intros Hk [_ _ _ _ [Hi Ho]] Hkz N1 C1 K1 M1 O1 R1 N2 C2 K2 M2 O2 R2.
  pose proof (key_fields_small _ _ _ (moved_iv ro oldo) _ K1 M1) as Z1.
  pose proof (key_fields_small _ _ _ (moved_iv ri oldi) _ K2 M2) as Z2.
  pose proof (zlen_nonneg (enc_fields (kex_fields k))).
  unfold ssh_packet_get_state. eapply does_bind; [by apply does_deref|]. intros w.
  eapply does_bind; [apply does_kex_to_blob; change (zlen (@nil byte)) with 0; unfold SSHBUF_SIZE_MAX; lia|]. intros w1. cbn [app].
  eapply does_bind; [apply (does_newkeys_to_blob _ MODE_OUT nko cco cco' ro oldo keyo); try done; unfold SSHBUF_SIZE_MAX; lia|].
  intros w2. eapply does_bind; [apply (does_newkeys_to_blob _ MODE_IN nki cci cci' ri oldi keyi); try done;
    rewrite zlen_app, zlen_wr_string; unfold SSHBUF_SIZE_MAX; lia|].
  intros w3. eapply does_bind; [by apply does_exact|]. intros w4. unfold session_bytes. rewrite !app_assoc.
  match goal with |- does (put_fields ?m ?l) ?st _ _ => change l with (rest_fields s);
    assert (Hf : does (put_fields m (rest_fields s)) st (Ok (m ++ enc_fields (rest_fields s))) st) end.
  { apply does_put_fields. rewrite zlen_rest_fields, !zlen_app, !zlen_wr_string. unfold SSHBUF_SIZE_MAX. lia. }
  destruct Hf as [w5 Hf]. exists w5. exact Hf.
Qed.

(** It ends, with this. *)
Definition gives {A} (m : M A) (s : session) (P : A -> session -> Prop) : Prop :=
  exists a s', m s = Ret a s' /\ P a s'.

Lemma gives_does {A B} (m : M A) (f : A -> M B) s a s1 P :
  does m s (Ok a) s1 -> (forall w, gives (f a) (set_world w s1) P) -> gives (mbind m f) s P.
Proof.
  intros [w H] K. destruct (K w) as (b & s' & E' & HP). exists b, s'. unfold mbind. by rewrite H.
Qed.

Lemma gives_exact {A B} (m : M A) (f : A -> M B) s a s1 P :
  m s = Ret a s1 -> gives (f a) s1 P -> gives (mbind m f) s P.
Proof. intros H (b & s' & E' & HP). exists b, s'. unfold mbind. by rewrite H. Qed.

(** Read by one process, the bytes of another's session give these parts of a session. *)
Definition taken_over (s : session) (k : kex_state) (nko nki : newkeys) (mo mi : sshmac)
    (co ci : sshcipher_ctx) (t : session) : Prop :=
  newkeys_out t = Some (with_mac (mac_on mo) nko) /\ newkeys_in t = Some (with_mac (mac_on mi) nki) /\
  send_context t = Some co /\ receive_context t = Some ci /\
  p_send t = mk_pstate (seqnr (p_send s)) 0 0 (nbytes (p_send s)) /\
  p_read t = mk_pstate (seqnr (p_read s)) 0 0 (nbytes (p_read s)) /\
  kex t = Some (kex_moved k) /\ input t = input s /\ output t = output s /\
  rekey_limit t = rekey_limit s /\ rekey_interval t = rekey_interval s /\
  after_authentication t = true /\ rekeying t = false.

(** The keys that were read can be taken into use. *)
Definition takes (m : kex_mode) (nk : newkeys) (mac : sshmac) (cc : sshcipher_ctx) : Prop :=
  (if cipher_authlen (enc_cipher (nk_enc nk)) =? 0 then mac_init (nk_mac nk) else Ok (nk_mac nk)) = Ok mac /\
  cipher_init (enc_cipher (nk_enc nk)) (enc_key (nk_enc nk)) (enc_key_len (nk_enc nk)) (enc_iv (nk_enc nk))
    (enc_iv_len (nk_enc nk)) (encrypts m) = Ok cc /\
  comp_type (nk_comp nk) = COMP_NONE /\ comp_enabled (nk_comp nk) = false.

Lemma does_set_postauth s nko nki mo mi : newkeys_out s = Some (with_mac mo nko) ->
  newkeys_in s = Some (with_mac mi nki) -> comp_type (nk_comp nko) = COMP_NONE -> comp_type (nk_comp nki) = COMP_NONE ->
  ssh_packet_set_postauth s = Ret tt (set_rekeying false (set_after_authentication true s)).
Proof.
  intros Ho Hi Co Ci. destruct s. cbn in Ho, Hi. subst.
  unfold ssh_packet_set_postauth, ssh_packet_enable_delayed_compress, delayed_compress, mbind, modify, gets.
  cbn. rewrite Ci, andb_false_r. cbn. by rewrite Co, andb_false_r.
Qed.

Lemma put_input_ok v s : zlen (input s) + zlen v <= SSHBUF_SIZE_MAX ->
  exists w, put_input v s = Ret tt (set_input (input s ++ v) (set_world w s)).
Proof.
  intros H. destruct (does_buf_put (input s) v s H) as [w Hw]. exists w.
  unfold put_input, mbind, gets, modify. by rewrite Hw.
Qed.

Lemma put_output_ok v s : zlen (output s) + zlen v <= SSHBUF_SIZE_MAX ->
  exists w, put_output v s = Ret tt (set_output (output s ++ v) (set_world w s)).
Proof.
  intros H. destruct (does_buf_put (output s) v s H) as [w Hw]. exists w.
  unfold put_output, mbind, gets, modify. by rewrite Hw.
Qed.

Lemma gives_set_state s k nko cco ivo keyo nki cci ivi keyi t : kex s = Some k -> movable s -> kex_fits k ->
  zlen (enc_fields (kex_fields k)) <= 2 ^ 20 ->
  keys_live MODE_OUT nko cco -> mac_ready nko keyo -> cipher_ivlen (enc_cipher (nk_enc nko)) <= zlen ivo ->
  keys_live MODE_IN nki cci -> mac_ready nki keyi -> cipher_ivlen (enc_cipher (nk_enc nki)) <= zlen ivi ->
  exists mo mi, mac_reads nko mo /\ mac_reads nki mi /\
    let ko := keys_moved nko ivo (fst mo) (snd mo) in let ki := keys_moved nki ivi (fst mi) (snd mi) in
    forall mo' mi' co ci, takes MODE_OUT ko mo' co -> takes MODE_IN ki mi' ci ->
    gives (ssh_packet_set_state (session_bytes s k nko nki ivo ivi keyo keyi)) t
      (fun _ t' => taken_over s k ko ki mo' mi' co ci t').
Proof.
  intros Hk [_ _ [Hr1 Hr2] [Hp1 Hp2] [Hi Ho]] Hkf Hkz K1 M1 I1 K2 M2 I2.
  set (km := kex_moved k). unfold session_bytes.
  destruct (does_newkeys_from_blob MODE_OUT MODE_OUT nko cco ivo keyo km
    (wr_string (enc_fields (key_fields nki ivi (mac_part nki keyi))) ++ enc_fields (rest_fields s)) (set_kex (Some km) t))
    as (mo & Rmo & Do); try done.
  set (ko := keys_moved nko ivo (fst mo) (snd mo)) in *. set (km1 := set_kex_newkeys MODE_OUT (Some ko) km) in *.
  destruct (does_newkeys_from_blob MODE_IN MODE_IN nki cci ivi keyi km1 (enc_fields (rest_fields s)) (set_kex (Some km1) t))
    as (mi & Rmi & Di); try done.
  set (ki := keys_moved nki ivi (fst mi) (snd mi)) in *. exists mo, mi. split; [done|]. split; [done|].
  intros mo' mi' co ci (To1 & To2 & To3 & _) (Ti1 & Ti2 & Ti3 & _). unfold ssh_packet_set_state.
  eapply gives_does; [apply does_kex_from_blob; [done|unfold SSHBUF_SIZE_MAX; lia]|]. intros w.
  eapply gives_does; [exact (Do w)|]. intros w1. eapply gives_does; [exact (Di w1)|]. intros w2.
  unfold rest_fields. cbn [app]. rewrite 2!enc_fields_cons, 2!enc_fields_app. cbn [enc_field].
  eapply gives_does; [by apply does_get_u64|]. intros w3. cbv beta iota.
  eapply gives_exact; [reflexivity|]. eapply gives_does; [by apply does_get_u32|]. intros w4. cbv beta iota.
  eapply gives_exact; [reflexivity|].
  eapply gives_does; [by apply does_read_pstate|]. intros w5. eapply gives_does; [by apply does_read_pstate|]. intros w6.
  unfold env at 1. match goal with |- gives (mbind (fun s => let '(_, _) := monotime (world s) in _) _) ?st _ =>
    destruct (monotime (world st)) as [now w7] eqn:Em; eapply gives_exact; [cbv beta; rewrite Em; reflexivity|] end.
  eapply gives_exact; [reflexivity|].
  eapply gives_exact; [by apply (does_set_newkeys MODE_IN _ (set_kex_newkeys MODE_IN (Some ki) km1) ki mi' ci)|].
  eapply gives_exact; [by apply (does_set_newkeys MODE_OUT _ km1 ko mo' co)|].
  eapply gives_exact; [by eapply does_set_postauth|].
  eapply gives_exact; [reflexivity|]. eapply gives_exact; [reflexivity|].
  rewrite !enc_fields_cons. cbn [enc_field].
  rewrite rd_string_app by (unfold SSHBUF_SIZE_MAX; lia). eapply gives_exact; [reflexivity|]. cbv beta iota.
  rewrite rd_string_app by (unfold SSHBUF_SIZE_MAX; lia). eapply gives_exact; [reflexivity|]. cbv beta iota.
  match goal with |- gives (mbind (put_input ?v) _) ?st _ => destruct (put_input_ok v st) as [w8 Hw8] end;
    [match goal with |- zlen ?x + _ <= _ => change x with (@nil byte) end; change (zlen (@nil byte)) with 0;
     unfold SSHBUF_SIZE_MAX; lia|].
  eapply gives_exact; [exact Hw8|].
  match goal with |- gives (mbind (put_output ?v) _) ?st _ => destruct (put_output_ok v st) as [w9 Hw9] end;
    [match goal with |- zlen ?x + _ <= _ => change x with (@nil byte) end; change (zlen (@nil byte)) with 0;
     unfold SSHBUF_SIZE_MAX; lia|].
  eapply gives_exact; [exact Hw9|].
  eexists _, _. split; [reflexivity|]. repeat split.
Qed.

(** ** The two ends *)

(** What becomes of a direction, seen from its peer. *)
Lemma direction_moves m nk cc peer : keys_live m nk cc -> joined m cc peer ->
  exists old r cc' cc2, enc_iv (nk_enc nk) = Some old /\
    cipher_get_keyiv cc (enc_iv_len (nk_enc nk)) = (Ok r, cc') /\
    cipher_ivlen (enc_cipher (nk_enc nk)) <= zlen (moved_iv r old) /\
    joined m cc2 peer /\ cc_cipher cc2 = cc_cipher cc /\
    forall mac, mac_reads nk mac -> let nk' := keys_moved nk (moved_iv r old) (fst mac) (snd mac) in
      exists m', takes m nk' m' cc2 /\
        suite_view (suite_of (Some (with_mac (mac_on m') nk'))) = suite_view (suite_of (Some nk)).
Proof.
  intros [Kc [Kk Kk'] [Ki (old & Ho & Hol)] Kb _ (Kt & _ & _ & Kd) Km Kx] HJ.
  destruct (ctx_resumes m _ _ cc peer old Kk' Kx HJ Hol) as (r & cc' & cc2 & Hr & Hl & Hi & HJ2 & Hc2).
  exists old, r, cc', cc2. rewrite Ki. split_and!; try done; [by rewrite Hc2, (proj1 Kx)|].
  intros mac Hm nk'. unfold mac_reads in Hm. unfold takes, suite_view, suite_of, su_block_size, su_mac_on, su_comp_on.
  cbn [nk' keys_moved with_mac nk_enc nk_mac nk_comp enc_cipher enc_key enc_key_len enc_iv enc_iv_len enc_block_size
    comp_type comp_enabled su_enc su_mac su_comp su_authlen fst snd].
  rewrite Kk, Ki, Kt, Kd. destruct (Z.eqb_spec (cipher_authlen (enc_cipher (nk_enc nk))) 0) as [Ha|_]; cbn [negb].
  - destruct Hm as (m2 & Hm2 & Hv). exists m2. split; [done|].
    destruct (Km Ha) as (m0 & m1 & key & HL). destruct (live_key_len _ _ _ _ HL) as (_ & -> & _).
    cbn [mac_enabled mac_on option_map]. by rewrite Hv.
  - exists (fst mac). done.
Qed.

Lemma mac_good_view m m' : mac_view m = mac_view m' -> mac_good m -> mac_good m'.
Proof.
  intros V. unfold mac_good. rewrite (mac_compute_view _ _ V). unfold mac_view in V. by injection V as ->.
Qed.

Lemma view_mac_good u v : suite_view u = suite_view v -> (forall m, su_mac_on u = Some m -> mac_good m) ->
  forall m, su_mac_on v = Some m -> mac_good m.
Proof.
  intros V H m Hm. unfold suite_view in V. injection V as _ V _ _. rewrite Hm in V.
  destruct (su_mac_on u) as [m'|] eqn:Eu; [|done]. cbn in V. eapply mac_good_view; [|by apply H].
  unfold mac_view in *. congruence.
Qed.

(** A sender that looks the same under other keys is still linked. *)
Lemma linked_sender s t peer cs cs' cr : linked_ends (linked := ctx_linked) s peer -> send_context s = Some cs ->
  suite_view (suite_of (newkeys_out t)) = suite_view (suite_of (newkeys_out s)) -> seqnr (p_send t) = seqnr (p_send s) ->
  send_context t = Some cs' -> receive_context peer = Some cr -> ctx_linked cs' cr -> cc_cipher cs' = cc_cipher cs ->
  linked_ends (linked := ctx_linked) t peer.
Proof.
  intros [H1 H2 H3 H4 (a & b & Ha & Hb & _ & H5 & H6)] Hc Hv Hs Hc' Hr HL Hk. rewrite Hc in Ha. injection Ha as <-.
  split; try done; [congruence|by rewrite Hs|]. exists cs', cr. by rewrite Hk.
Qed.

Lemma linked_receiver s t peer cs cr' : linked_ends (linked := ctx_linked) peer s ->
  suite_view (suite_of (newkeys_in t)) = suite_view (suite_of (newkeys_in s)) -> seqnr (p_read t) = seqnr (p_read s) ->
  receive_context t = Some cr' -> send_context peer = Some cs -> ctx_linked cs cr' ->
  linked_ends (linked := ctx_linked) peer t.
Proof.
  intros [H1 H2 H3 H4 (a & b & Ha & Hb & _ & H5 & H6)] Hv Hs Hc' Hr HL. rewrite Hr in Ha. injection Ha as <-.
  destruct (suite_view_facts _ _ Hv) as (V1 & V2 & V3 & _). split.
  - congruence.
  - by rewrite V3.
  - apply (view_mac_good _ _ (eq_sym Hv) H3).
  - by rewrite Hs.
  - exists cs, cr'. by rewrite V1, V2.
Qed.

(** The keys of a negotiation, derived and taken into use, are live: the hypothesis of the
    theorem is what an exchange leaves. *)
Lemma direction_live m ctos c sp nk iv key mk mac cc : choose_direction ctos c sp = Ok nk ->
  c_key_len (enc_cipher (nk_enc nk)) <= zlen key -> cipher_ivlen (enc_cipher (nk_enc nk)) <= zlen iv ->
  mac_key_len (nk_mac nk) <= zlen mk -> takes m (set_keys iv key mk nk) mac cc ->
  keys_live m (with_mac (mac_on mac) (set_keys iv key mk nk)) cc.
Proof.
  intros H Hk Hiv Hmk (T1 & T2 & T3 & T4). unfold choose_direction in H. cbv zeta in H.
  destruct (choose_enc _ _) as [enc|] eqn:Ee; [|done].
  destruct (if cipher_authlen (enc_cipher enc) =? 0 then _ else _) as [[m0 n]|] eqn:Em; [|done].
  destruct (choose_comp _ _) as [comp|] eqn:Ec; [|done]. injection H as <-.
  pose proof (choose_enc_facts _ _ _ Ee) as (E1 & E2 & E3 & E4).
  cbn in Hk, Hiv, Hmk, T1, T2, T3, T4. split; cbn; try done.
  - unfold choose_enc in Ee. destruct (fst (match_list _ _)) as [x|]; [|done].
    destruct (cipher_by_name x) as [y|] eqn:Ey; [|done]. by injection Ee as <-.
  - eauto.
  - unfold choose_enc in Ee. destruct (fst (match_list _ _)) as [x|]; [|done].
    destruct (cipher_by_name x); [|done]. injection Ee as <-. done.
  - unfold choose_comp in Ec. destruct (fst (match_list _ _)) as [x|]; [|done].
    repeat case_bool_decide; simplify_eq; done.
  - intros Ha. rewrite Ha in Em, T1. cbn [Z.eqb] in Em, T1. unfold choose_mac in Em.
    destruct (fst (match_list _ _)) as [x|]; [|done]. destruct (mac_setup true blank_mac x) as [m1|] eqn:Es; [|done].
    injection Em as <- <-. exists m1, mac, mk. split_and!; try done.
    destruct (mac_setup_row _ _ Es) as (_ & _ & _ & _ & _ & He & _). unfold give_key. rewrite He. exact T1.
  - rewrite E2, E3 in T2. by eapply init_made.
Qed.
End session_blob.

(** Claim C6: a connection survives the change of process.  [ssh_packet_get_state] turns the
    session of the process that negotiated into bytes; [ssh_packet_set_state] makes of them, in
    any session, one that is linked with the same peer in both directions at the same place,
    with what was buffered and the same exchange; the volume since the last rekeying alone
    starts again. *)
Theorem connection_moves {C : Crypto} {CL : CryptoLaws} {KL : KeyLaws} {DL : DigestLaws} {I : CipherIv} {IL : IvLaws}
    {E : Env} {L : EnvLaws} s peer
    (Hs : movable s) (Ho : linked_ends (linked := ctx_linked) s peer) (Hi : linked_ends (linked := ctx_linked) peer s) :
  exists b s1, ssh_packet_get_state [] s = Ret b s1 /\ forall t,
    exists t', ssh_packet_set_state b t = Ret tt t' /\
      linked_ends (linked := ctx_linked) t' peer /\ linked_ends (linked := ctx_linked) peer t' /\
      input t' = input s /\ output t' = output s /\ kex t' = option_map kex_moved (kex s) /\
      p_send t' = mk_pstate (seqnr (p_send s)) 0 0 (nbytes (p_send s)) /\
      p_read t' = mk_pstate (seqnr (p_read s)) 0 0 (nbytes (p_read s)) /\
      after_authentication t' = true /\ rekeying t' = false.
Proof.
  pose proof Hs as [(k & Hk & Hkf & Hkz) Hkeys _ _ _].
  destruct (Hkeys MODE_OUT) as (nko & cco & N1 & C1 & K1), (Hkeys MODE_IN) as (nki & cci & N2 & C2 & K2).
  cbn in N1, C1, N2, C2. pose proof Ho as [_ _ _ _ (a & pr & Ea & Epr & Lo & _)].
  pose proof Hi as [_ _ _ _ (ps & a' & Eps & Ea' & Li & _)]. rewrite C1 in Ea. injection Ea as <-.
  rewrite C2 in Ea'. injection Ea' as <-.
  destruct (direction_moves MODE_OUT nko cco pr K1 Lo) as (oldo & ro & cco' & co & O1 & R1 & I1 & J1 & Q1 & T1).
  destruct (direction_moves MODE_IN nki cci ps K2 Li) as (oldi & ri & cci' & ci & O2 & R2 & I2 & J2 & Q2 & T2).
  assert (MR : forall m nk cc, keys_live m nk cc -> exists key, mac_ready nk key).
  { intros m nk cc [_ _ _ _ _ _ Km _]. unfold mac_ready. destruct (decide (cipher_authlen (enc_cipher (nk_enc nk)) = 0)) as [Ha|].
    - destruct (Km Ha) as (m0 & m1 & key & HL). eauto.
    - by exists []. }
  destruct (MR _ _ _ K1) as [keyo M1], (MR _ _ _ K2) as [keyi M2].
  destruct (does_get_state s k nko cco cco' ro oldo keyo nki cci cci' ri oldi keyi) as [w Hget]; try done.
  eexists _, _. split; [exact Hget|]. intros t.
  destruct (gives_set_state s k nko cco (moved_iv ro oldo) keyo nki cci (moved_iv ri oldi) keyi t)
    as (mo & mi & Rmo & Rmi & Hset); try done.
  destruct (T1 mo Rmo) as (mo' & To & Vo), (T2 mi Rmi) as (mi' & Ti & Vi).
  destruct (Hset mo' mi' co ci To Ti) as ([] & t' & Ht & F1 & F2 & F3 & F4 & F5 & F6 & F7 & F8 & F9 & _ & _ & F10 & F11).
  exists t'. split; [exact Ht|]. rewrite Hk. split_and!; try done.
  - eapply (linked_sender s t' peer cco co pr); try done; [by rewrite F1, N1|by rewrite F5].
  - eapply (linked_receiver s t' peer ps ci); try done; [by rewrite F2, N2|by rewrite F6].
Qed.

(** ** An example *)

(** A libcrypto whose ciphers change nothing and whose contexts know the length of their iv. *)
#[local] Instance moving_crypto : Crypto := {|
  crypto_digest := plain_digest;
  evp := Z;
  EVP_CipherInit_type name _ _ := option_map cipher_ivlen (cipher_by_name name);
  EVP_CTRL_GCM_SET_IV_FIXED e _ := Some e;
  EVP_CIPHER_CTX_key_length _ := 0;
  EVP_CIPHER_CTX_set_key_length e _ := Some e;
  EVP_CipherInit_key e _ := Some e;
  EVP_CTRL_GCM_IV_GEN e := Some e;
  EVP_CTRL_GCM_SET_TAG e _ := Some e;
  EVP_Cipher_aad e _ := Some e;
  EVP_Cipher e p := Some (p, e);
  EVP_Cipher_final e := Some e;
  EVP_CTRL_GCM_GET_TAG _ n := Some (zeros n);
  umac _ _ _ := zeros 8;
  umac128 _ _ _ := zeros 16;
  tmp := zeros 64
|}.

#[local] Instance moving_iv : CipherIv := {|
  EVP_CIPHER_CTX_iv_length (e : @evp moving_crypto) := e;
  EVP_CTRL_GCM_IV_GEN_iv e n := Some (zeros n, e);
  EVP_CIPHER_CTX_get_iv _ n := Some (zeros n);
  EVP_CIPHER_CTX_set_iv e _ := Some e
|}.

#[local] Instance moving_laws : CryptoLaws.
Proof.
  refine {| evp_linked := fun c (e d : @evp moving_crypto) => 0 <= cipher_authlen c |}.
  - intros c e d p Hc _ _. by exists p, e, d.
  - intros c e d p q1 q2 d' _ _ H. cbn in *. injection H as <- <-.
    exists d. by rewrite take_app_length, drop_app_length.
  - intros c e d aad p Hc Ha _.
    exists e, e, e, e, p, (zeros (cipher_authlen c)), d, d, d, d, d.
    split_and!; cbn; try done. by apply zlen_zeros.
  - reflexivity.
Defined.

Lemma moving_name c : c ∈ ciphers -> cipher_by_name (c_name c) = Some c.
Proof.
  intros Hc. assert (F : Forall (fun c => cipher_by_name (c_name c) = Some c) ciphers).
  { repeat (apply Forall_cons; split; [reflexivity|]). constructor. }
  exact (proj1 (Forall_forall _ _) F c Hc).
Qed.

Lemma moving_setup c key keylen iv enc : c ∈ ciphers -> evp_setup c key keylen (Some iv) enc = Some (cipher_ivlen c).
Proof.
  intros Hc. unfold evp_setup. cbn [EVP_CipherInit_type moving_crypto]. rewrite moving_name by done.
  cbn. by destruct (negb _).
Qed.

#[local] Instance moving_key_laws : KeyLaws.
Proof.
  split; [|done|done]. intros c key iv Hc Hf Hn _ _. exists (cipher_ivlen c), (cipher_ivlen c).
  rewrite !moving_setup by done. destruct (cipher_ok_facts _ Hc) as (_ & Ha & _). split_and!; [done..|].
  cbn. destruct Ha as [-> | ->]; lia.
Qed.

#[local] Instance moving_iv_laws : IvLaws.
Proof.
  split.
  - intros c key enc e [Hc _] H. cbn. induction H as [e iv H|e p q e' _ IH _ _ H|e e1 e2 e3 e4 e5 aad p q tag _ IH _ _ H1 H2 H3 H4 H5].
    + rewrite moving_setup in H by done. by injection H.
    + cbn in H. congruence.
    + cbn in *. destruct enc; simplify_eq; done.
  - intros c key m e peer Hl Hm Hj Hk. destruct (ivlen_facts c (proj1 Hl)) as (Hi & _).
    exists (zeros (cipher_ivlen c)), e, (cipher_ivlen c). split_and!.
    + unfold read_iv. cbn. by destruct (negb _).
    + apply zlen_zeros. lia.
    + apply moving_setup, Hl.
    + destruct m; exact Hj.
Qed.

#[local] Existing Instance plain_digest_laws.

Definition mv_keys_used : newkeys :=
  mk_newkeys (mk_enc (c_name cp_cipher) cp_cipher 0 64 0 8 (zeros 64) (Some [])) blank_mac []
    (mk_comp COMP_NONE false (lit "none")).
Definition mv_context (encrypt : bool) : sshcipher_ctx :=
  match cipher_init cp_cipher (zeros 64) 64 (Some []) 0 encrypt with
  | Ok c => c | Err _ => mk_cctx false encrypt cp_cipher None None end.
Definition mv_kex_used : kex_state :=
  set_session_id (lit "an id") (set_hostkey_alg (Some (lit "ssh-ed25519")) kex_new).

(** An end of a connection with chacha20-poly1305 after ten packets each way. *)
Definition mv_end : session :=
  set_input (lit "tail") (set_output (lit "head") (set_kex (Some mv_kex_used)
   (set_p_read (mk_pstate 10 10 30 240) (set_p_send (mk_pstate 10 10 30 240)
    (set_receive_context (Some (mv_context false)) (set_send_context (Some (mv_context true))
     (set_newkeys_in (Some mv_keys_used) (set_newkeys_out (Some mv_keys_used)
       (ssh_alloc_session_state (tt : @os plain_env)))))))))).

Definition mv_ctx0 : chachapoly_ctx := default (mk_cp [] []) (chachapoly_new (zeros 64) 64).

Lemma mv_ctx0_wf : cp_wf mv_ctx0.
Proof. split; apply wf_check; vm_compute; reflexivity. Qed.

Lemma mv_contexts : ctx_linked (mv_context true) (mv_context false).
Proof.
  split_and!; try done; [apply list_elem_of_In; do 9 right; by left|].
  assert (K : exists a b, cc_cp (mv_context true) = Some a /\ cc_cp (mv_context false) = Some b /\ cp_equiv a b).
  { exists mv_ctx0, mv_ctx0. split_and!; [vm_compute; reflexivity|vm_compute; reflexivity|]. apply cp_equiv_refl, mv_ctx0_wf. }
  exact K.
Qed.

Lemma mv_linked : linked_ends (linked := ctx_linked) mv_end mv_end.
Proof.
  split; try done. exists (mv_context true), (mv_context false).
  split_and!; try done. apply mv_contexts.
Qed.

Lemma connection_moves_witness : exists b s1, ssh_packet_get_state [] mv_end = Ret b s1 /\ forall t,
    exists t', ssh_packet_set_state b t = Ret tt t' /\
      linked_ends (linked := ctx_linked) t' mv_end /\ linked_ends (linked := ctx_linked) mv_end t' /\
      input t' = lit "tail" /\ output t' = lit "head" /\ kex t' = Some (kex_moved mv_kex_used) /\
      p_send t' = mk_pstate 10 0 0 240 /\ p_read t' = mk_pstate 10 0 0 240 /\
      after_authentication t' = true /\ rekeying t' = false.
Proof.
  apply (connection_moves mv_end mv_end); [|exact mv_linked..].
  split.
  - exists mv_kex_used. split_and!; [reflexivity| |vm_compute; discriminate].
    split; [by exists (lit "ssh-ed25519")|]. split_and!; try (vm_compute; split; congruence).
  - intros m. exists mv_keys_used, (mv_context (encrypts m)). split_and!; [by destruct m|by destruct m|].
    split.
    + reflexivity.
    + split; [reflexivity|]. vm_compute. discriminate.
    + split; [reflexivity|]. exists []. split; [reflexivity|]. vm_compute. discriminate.
    + reflexivity.
    + split; vm_compute; congruence.
    + split_and!; try reflexivity. vm_compute. discriminate.
    + intros H. vm_compute in H. discriminate.
    + split; [by destruct m|]. split; [by destruct m|].
      assert (K : exists a b, cc_cp (mv_context (encrypts m)) = Some a /\ chachapoly_new (zeros 64) 64 = Some b /\ cp_equiv b a).
      { exists mv_ctx0, mv_ctx0. split_and!; [destruct m; vm_compute; reflexivity|vm_compute; reflexivity|].
        apply cp_equiv_refl, mv_ctx0_wf. }
      exact K.
  - vm_compute. split; split; congruence.
  - split; split_and!; split; vm_compute; congruence.
  - split; vm_compute; discriminate.
Defined.
