(* ===== verification/Auth.v ===== *)
(** The authentication of a user by the server: auth2.c, with auth2-none.c, auth2-passwd.c,
    auth2-kbdint.c and auth2-chall.c.

    The password file, the check of a password, the devices of keyboard-interactive and the
    methods [publickey] and [hostbased] are not modelled: they are the operations of
    [AuthEnv], with the options of the server.  Logging, auditing, the messages to the
    monitor and the delay after a failure have no effect on the state here.

    [fatal] and [ssh_packet_disconnect] end the process: the run fails, and none of these
    functions, nor [ssh_dispatch_run], does anything after a failure. *)

From S2P Require Import Prelude SshErr Wire SshQueue Compat Match KeyTypes AuthCtxt.
From S2P Require Import ChaCha ChachaPoly Digest SshCipher Packet PacketSend PacketRead Kex.

(** ** Constants and parameters *)

Definition SSH2_MSG_USERAUTH_REQUEST : Z := 50.
Definition SSH2_MSG_USERAUTH_FAILURE : Z := 51.
Definition SSH2_MSG_USERAUTH_BANNER : Z := 53.
Definition SSH2_MSG_USERAUTH_INFO_REQUEST : Z := 60.
Definition SSH2_MSG_USERAUTH_INFO_RESPONSE : Z := 61.
Definition PERMIT_NO : Z := 0.
Definition PERMIT_FORCED_ONLY : Z := 1.
Definition PERMIT_NO_PASSWD : Z := 2.
Definition PERMIT_YES : Z := 3.

(** The options these functions read. *)
Record ServerOptions := mk_options {
  max_authtries : Z;
  permit_root_login : Z;
  permit_empty_passwd : bool;
  password_authentication : bool;
  pubkey_authentication : bool;
  kbd_interactive_authentication : bool;
  hostbased_authentication : bool
}.

(** What a device asks: a name, an instruction, and prompts with the echo of their answers. *)
Record query_answer := mk_query { q_name : bytes; q_instr : bytes; q_prompts : list (bytes * Z) }.

Record KbdintDevice {E : Env} := mk_device {
  dev_name : bytes;
  init_ctx : Authctxt -> os -> option Z * os;
  query : Z -> os -> option query_answer * os;
  respond : Z -> list bytes -> os -> Z * os;
  free_ctx : Z -> os -> os
}.
Arguments KbdintDevice : clear implicits.

Class AuthEnv {C : Crypto} {E : Env} := {
  options : ServerOptions;
  kbdint_devices : list (KbdintDevice E);
  getpwnamallow : bytes -> os -> option passwd * os;
  fakepw : passwd;
  auth2_read_banner : os -> option bytes * os;
  forced_command : os -> bool;
  auth_password : Authctxt -> bytes -> os -> bool * os;
  userauth_pubkey : M bool;
  userauth_hostbased : M bool
}.

Definition COLON : byte := chr 58.

(** ** Lists of methods *)

Definition MATCH_NONE : Z := 0.
Definition MATCH_METHOD : Z := 1.
Definition MATCH_BOTH : Z := 2.
Definition MATCH_PARTIAL : Z := 3.

(** What follows [p] in [s]: [strncmp(s, p, strlen(p)) == 0]. *)
Fixpoint after_prefix (p s : bytes) : option bytes :=
  match p, s with
  | [], _ => Some s
  | a :: p, b :: s => if byte_eqb a b then after_prefix p s else None
  | _ :: _, [] => None
  end.

(** [*p == ','] or the end. *)
Definition item_ends (p : bytes) : bool := is_nil p || starts_with COMMA p.

Definition list_starts_with (methods method : bytes) (submethod : option bytes) : Z :=
  match after_prefix method methods with
  | None => MATCH_NONE
  | Some p =>
    if starts_with COLON p then
      match submethod with
      | None => MATCH_PARTIAL
      | Some sub =>
        match after_prefix sub (tail p) with
        | None => MATCH_NONE
        | Some p => if item_ends p then MATCH_BOTH else MATCH_NONE
        end
      end
    else if item_ends p then MATCH_METHOD else MATCH_NONE
  end.

(** The list without its first method, if that is the one. *)
Definition remove_method (methods method : bytes) (submethod : option bytes) : option bytes :=
  let m := list_starts_with methods method submethod in
  if negb (m =? MATCH_METHOD) && negb (m =? MATCH_BOTH) then None
  else
    let p := drop (length method) methods in
    let p := match submethod with
             | Some sub => if m =? MATCH_BOTH then drop (1 + length sub) p else p
             | None => p
             end in
    Some (if starts_with COMMA p then tail p else p).

(** The lists, whether a list began with the method, and whether one is complete; the lists
    after that one are not looked at. *)
Fixpoint update_lists (lists : list bytes) (method : bytes) (submethod : option bytes)
    : list bytes * bool * bool :=
  match lists with
  | [] => ([], false, false)
  | l :: rest =>
    match remove_method l method submethod with
    | None => let '(rest, found, complete) := update_lists rest method submethod in (l :: rest, found, complete)
    | Some l =>
      if is_nil l then (l :: rest, true, true)
      else let '(rest, _, complete) := update_lists rest method submethod in (l :: rest, true, complete)
    end
  end.

(** ** Methods *)

Inductive Authmethod := method_none | method_pubkey | method_passwd | method_kbdint | method_hostbased.
Definition authmethods : list Authmethod :=
  [method_none; method_pubkey; method_passwd; method_kbdint; method_hostbased].
Definition method_name (m : Authmethod) : bytes :=
  match m with
  | method_none => lit "none"
  | method_pubkey => lit "publickey"
  | method_passwd => lit "password"
  | method_kbdint => lit "keyboard-interactive"
  | method_hostbased => lit "hostbased"
  end.

Section code.
Context {C : Crypto} {E : Env} {A : AuthEnv}.

(** [fatal], and [ssh_packet_disconnect]. *)
Definition fatal {B} : M B := mfail SSH_ERR_DISCONNECTED.
Definition ssh_packet_disconnect {B} (text : bytes) : M B :=
  sshpkt_disconnect text ;; ssh_packet_write_wait ;; fatal.

Definition get_auth : M Authctxt := deref authctxt.
(** The same where the code looks: without an authentication there is no going on. *)
Definition need_auth : M Authctxt :=
  let! a := gets authctxt in
  match a with Some a => mret a | None => fatal end.
Definition update_auth (f : Authctxt -> Authctxt) : M unit :=
  modify (fun s => set_authctxt (option_map f (authctxt s)) s).

(** [*enabled]. *)
Definition method_enabled (a : Authctxt) (m : Authmethod) : bool :=
  match m with
  | method_none => none_enabled a
  | method_pubkey => pubkey_authentication options
  | method_passwd => password_authentication options
  | method_kbdint => kbd_interactive_authentication options
  | method_hostbased => hostbased_authentication options
  end.

(** ** The configured lists *)

Definition auth2_method_allowed (a : Authctxt) (method : bytes) (submethod : option bytes) : bool :=
  is_nil (conf_methods a) ||
  existsb (fun l => negb (list_starts_with l method submethod =? MATCH_NONE)) (auth_methods a).

Definition method_by_name (name : bytes) : option Authmethod :=
  List.find (fun m => bool_decide (method_name m = name)) authmethods.

(** The loop over the items, up to their colons. *)
Fixpoint methods_valid_loop (fuel : nat) (a : Authctxt) (methods : option bytes) (need_enable : bool) : bool :=
  match fuel with
  | O => true
  | S fuel =>
    match strsep methods SEP with
    | None => true
    | Some (item, methods) =>
      let method := match strchr COLON item with Some (before, _) => before | None => item end in
      match method_by_name method with
      | None => false
      | Some m =>
        if need_enable && negb (method_enabled a m) then false
        else methods_valid_loop fuel a methods need_enable
      end
    end
  end.

Definition auth2_methods_valid (a : Authctxt) (methods : bytes) (need_enable : bool) : bool :=
  if is_nil methods then false
  else methods_valid_loop (S (S (length methods))) a (Some methods) need_enable.

(** Whether a list is left, when lists are configured. *)
Definition auth2_setup_methods_lists : M bool :=
  let! a := get_auth in
  let conf := if bool_decide (conf_methods a = [lit "any"]) then [] else conf_methods a in
  update_auth (set_conf_methods conf) ;;
  if is_nil conf then mret true
  else
  let kept := filter (fun l => auth2_methods_valid a l true = true) conf in
  update_auth (set_auth_methods kept) ;;
  mret (negb (is_nil kept)).

(** 1 if the method completed a list. *)
Definition auth2_update_methods_lists (method : bytes) (submethod : option bytes) : M bool :=
  let! a := get_auth in
  let '(lists, found, complete) := update_lists (auth_methods a) method submethod in
  update_auth (set_auth_methods lists) ;;
  if found then mret complete else fatal.

Definition authmethod_lookup (a : Authctxt) (name : bytes) : option Authmethod :=
  List.find (fun m => method_enabled a m && bool_decide (name = method_name m) &&
                      auth2_method_allowed a (method_name m) None) authmethods.

(** The methods a client is told of. *)
Definition listed (a : Authctxt) : list bytes :=
  map method_name (filter (fun m => bool_decide (method_name m = lit "none") = false /\
     method_enabled a m = true /\ auth2_method_allowed a (method_name m) None = true) authmethods).

Fixpoint with_commas (first : bool) (l : list bytes) : list bytes :=
  match l with
  | [] => []
  | v :: l => ((if first then [] else SEP) ++ v) :: with_commas false l
  end.

Definition authmethods_get : M bytes :=
  let! a := get_auth in
  let! b := put_each [] (with_commas true (listed a)) in
  let! ok := env request_memory in
  if ok : bool then mret b else fatal.

(** ** What the session is told *)

Definition auth2_authctxt_reset_info : M unit :=
  update_auth (set_auth_method_key None) ;; update_auth (set_auth_method_info None).

(** A line: the method, the key, what the method says. *)
Definition auth2_update_session_info (method : bytes) (submethod : option bytes) : M unit :=
  let! a := get_auth in
  let opt x := match x with None => [] | Some v => [[chr 32]; v] end in
  if existsb (byte_eqb (chr 10)) (default [] (auth_method_info a)) then fatal
  else
  let! q := put_each (default [] (session_info a))
    ([method ++ match submethod with None => [] | Some s => chr 47 :: s end] ++
     opt (auth_method_key a) ++ opt (auth_method_info a) ++ [[chr 10]]) in
  update_auth (set_session_info (Some q)).

(** ** keyboard-interactive *)

Definition update_kbdint (f : KbdintAuthctxt -> KbdintAuthctxt) : M unit :=
  update_auth (fun a => set_kbdintctxt (option_map f (kbdintctxt a)) a).
Definition get_kbdint : M KbdintAuthctxt :=
  deref (fun s => match authctxt s with Some a => kbdintctxt a | None => None end).
Definition get_device (k : KbdintAuthctxt) : M (KbdintDevice E) :=
  deref (fun _ => match device k with Some i => kbdint_devices !! i | None => None end).

Definition kbdint_alloc (devs : bytes) : KbdintAuthctxt :=
  mk_kbdint (Some (if is_nil devs then concat (with_commas true (map dev_name kbdint_devices)) else devs))
    None None 0 0.

Definition kbdint_reset_device : M unit :=
  let! k := get_kbdint in
  (match ctxt k with
   | Some c =>
     let! d := get_device k in
     env (fun w => (tt, free_ctx d c w)) ;; update_kbdint (set_ctxt None)
   | None => mret tt
   end) ;;
  update_kbdint (set_device None).

Definition auth2_challenge_stop : M unit :=
  ssh_dispatch_set SSH2_MSG_USERAUTH_INFO_RESPONSE None ;;
  let! a := get_auth in
  match kbdintctxt a with
  | None => mret tt
  | Some k =>
    (match device k with Some _ => kbdint_reset_device | None => mret tt end) ;;
    update_auth (set_kbdintctxt None)
  end.

(** The devices an item names that are allowed and were not tried: the last of them. *)
Fixpoint match_devices (a : Authctxt) (item : bytes) (i : nat) (l : list (KbdintDevice E))
    (k : KbdintAuthctxt) : KbdintAuthctxt :=
  match l with
  | [] => k
  | d :: l =>
    let k :=
      if Z.testbit (devices_done k) (Z.of_nat i) ||
         negb (auth2_method_allowed a (lit "keyboard-interactive") (Some (dev_name d))) then k
      else if bool_decide (is_Some (after_prefix item (dev_name d))) then
        set_devices_done (Z.lor (devices_done k) (Z.shiftl 1 (Z.of_nat i))) (set_device (Some i) k)
      else k in
    match_devices a item (S i) l k
  end.

(** Every round takes an item off the list. *)
Fixpoint next_device_loop (fuel : nat) (a : Authctxt) (k : KbdintAuthctxt) : KbdintAuthctxt :=
  match fuel with
  | O => k
  | S fuel =>
    let list := default [] (devices k) in
    let item := first_item list in
    if is_nil item then k
    else
    let k := match_devices a item 0 kbdint_devices k in
    let k := set_devices (match strchr COMMA list with Some (_, rest) => Some rest | None => None end) k in
    match devices k, device k with
    | Some _, None => next_device_loop fuel a k
    | _, _ => k
    end
  end.

Definition kbdint_next_device : M bool :=
  let! k := get_kbdint in
  (match device k with Some _ => kbdint_reset_device | None => mret tt end) ;;
  let! k := get_kbdint in
  let! a := get_auth in
  let k := next_device_loop (S (length (default [] (devices k)))) a k in
  update_kbdint (fun _ => k) ;;
  mret (match device k with Some _ => true | None => false end).

(** Whether a request was sent. *)
Definition send_userauth_info_request : M bool :=
  let! k := get_kbdint in
  let! d := get_device k in
  let! c := deref (fun _ => ctxt k) in
  let! q := env (query d c) in
  match q with
  | None => mret false
  | Some q =>
    update_kbdint (set_nreq (u32 (zlen (q_prompts q)))) ;;
    sshpkt_start SSH2_MSG_USERAUTH_INFO_REQUEST ;;
    sshpkt_put_cstring (q_name q) ;;
    sshpkt_put_cstring (q_instr q) ;;
    sshpkt_put_cstring [] ;;
    sshpkt_put_u32 (u32 (zlen (q_prompts q))) ;;
    (fix prompts l := match l with
       | [] => mret tt
       | (p, e) :: l => sshpkt_put_cstring p ;; sshpkt_put_u8 e ;; prompts l
       end) (q_prompts q) ;;
    sshpkt_send ;;
    ssh_packet_write_wait ;;
    mret true
  end.

Definition input_userauth_info_response_fn : handler := other_fn 61.

(** A method that has asked does not succeed yet: the result is 0. *)
Definition auth2_challenge_start : M unit :=
  let! ok := kbdint_next_device in
  if negb ok then auth2_challenge_stop
  else
  let! k := get_kbdint in
  let! d := get_device k in
  let! a := get_auth in
  let! c := env (init_ctx d a) in
  update_kbdint (set_ctxt c) ;;
  match c with
  | None => auth2_challenge_stop
  | Some _ =>
    let! sent := send_userauth_info_request in
    if negb sent then auth2_challenge_stop
    else
    ssh_dispatch_set SSH2_MSG_USERAUTH_INFO_RESPONSE (Some input_userauth_info_response_fn) ;;
    update_auth (set_postponed true)
  end.

Definition auth2_challenge (devs : bytes) : M bool :=
  let! a := get_auth in
  match user a with
  | None => mret false
  | Some _ =>
    (match kbdintctxt a with
     | None => update_auth (set_kbdintctxt (Some (kbdint_alloc devs)))
     | Some _ => mret tt
     end) ;;
    auth2_challenge_start ;;
    mret false
  end.

(** ** The methods *)

Definition userauth_none : M bool :=
  update_auth (set_none_enabled false) ;;
  sshpkt_get_end ;;
  let! a := get_auth in
  if permit_empty_passwd options && password_authentication options then env (auth_password a [])
  else mret false.

Definition userauth_passwd : M bool :=
  let! change := sshpkt_get_u8 in
  let! password := sshpkt_get_cstring in
  (if negb (change =? 0) then let! _v := take_incoming rd_cstring in mret tt else mret tt) ;;
  sshpkt_get_end ;;
  if negb (change =? 0) then mret false
  else let! a := get_auth in env (auth_password a (c_str password)).

Definition userauth_kbdint : M bool :=
  let! _lang := sshpkt_get_cstring in
  let! devs := sshpkt_get_cstring in
  sshpkt_get_end ;;
  if kbd_interactive_authentication options then auth2_challenge (c_str devs) else mret false.

Definition userauth (m : Authmethod) : M bool :=
  match m with
  | method_none => userauth_none
  | method_pubkey => userauth_pubkey
  | method_passwd => userauth_passwd
  | method_kbdint => userauth_kbdint
  | method_hostbased => userauth_hostbased
  end.

(** ** The end of an attempt *)

Definition auth_root_allowed (method : bytes) : M bool :=
  let! w := gets world in
  mret (if permit_root_login options =? PERMIT_YES then true
        else if permit_root_login options =? PERMIT_NO_PASSWD then
          bool_decide (method = lit "publickey") || bool_decide (method = lit "hostbased") ||
          bool_decide (method = lit "gssapi-with-mic")
        else if permit_root_login options =? PERMIT_FORCED_ONLY then forced_command w
        else false).

Definition auth_maxtries_exceeded {B} : M B :=
  ssh_packet_disconnect (lit "Too many authentication failures").

(** Root may have to be refused. *)
Definition root_check (authenticated : bool) (method : bytes) : M bool :=
  if authenticated then
    let! a := get_auth in
    let! p := deref (fun _ => pw a) in
    if pw_uid p =? 0 then auth_root_allowed method else mret true
  else mret false.

Definition grant (method : bytes) (submethod : option bytes) : M unit :=
  update_auth (fun a => set_granted (granted a ++ [(method, submethod)]) a).

Definition userauth_finish (authenticated : bool) (method : bytes) (submethod : option bytes) : M unit :=
  let! a := get_auth in
  if negb (valid a) && authenticated then fatal
  else if authenticated && postponed a then fatal
  else
  let! authenticated := root_check authenticated method in
  let! a := get_auth in
  let! r := (if (authenticated : bool) && negb (is_nil (conf_methods a)) then
               let! complete := auth2_update_methods_lists method submethod in
               mret (complete, negb complete)
             else mret (authenticated, false)) in
  let '(authenticated, partial) := r in
  (if authenticated || partial then grant method submethod ;; auth2_update_session_info method submethod
   else mret tt) ;;
  let! a := get_auth in
  if postponed a then mret tt
  else if authenticated then
    ssh_dispatch_set SSH2_MSG_USERAUTH_REQUEST (Some dispatch_protocol_ignore_fn) ;;
    sshpkt_start SSH2_MSG_USERAUTH_SUCCESS ;;
    sshpkt_send ;;
    ssh_packet_write_wait ;;
    update_auth (set_success true)
  else
    (if negb partial && negb (server_caused_failure a) &&
        ((attempt a >? 1) || negb (bool_decide (method = lit "none")))
     then update_auth (fun a => set_failures (failures a + 1) a) else mret tt) ;;
    let! a := get_auth in
    if failures a >=? max_authtries options then auth_maxtries_exceeded
    else
    let! methods := authmethods_get in
    sshpkt_start SSH2_MSG_USERAUTH_FAILURE ;;
    sshpkt_put_cstring methods ;;
    sshpkt_put_u8 (Z.b2z partial) ;;
    sshpkt_send ;;
    ssh_packet_write_wait.

(** ** The messages *)

Fixpoint get_responses (n : nat) : M (list bytes) :=
  match n with
  | O => mret []
  | S n => let! v := sshpkt_get_cstring in let! l := get_responses n in mret (c_str v :: l)
  end.

Definition input_userauth_info_response : M unit :=
  let! a := need_auth in
  match kbdintctxt a with
  | None => fatal
  | Some k =>
    match ctxt k, device k with
    | Some c, Some _ =>
      let! d := get_device k in
      update_auth (set_postponed false) ;;
      let! nresp := sshpkt_get_u32 in
      if negb (nresp =? nreq k) then fatal
      else if nresp >? 100 then fatal
      else
      let! response := get_responses (Z.to_nat nresp) in
      sshpkt_get_end ;;
      let! res := env (respond d c response) in
      (if res =? 1 then
         let! sent := send_userauth_info_request in
         if sent : bool then update_auth (set_postponed true) else mret tt
       else mret tt) ;;
      let authenticated := (res =? 0) && valid a in
      let! a := get_auth in
      (if postponed a then mret tt
       else if authenticated then auth2_challenge_stop
       else auth2_challenge_start) ;;
      userauth_finish authenticated (lit "keyboard-interactive") (Some (dev_name d))
    | _, _ => fatal
    end
  end.

Definition userauth_send_banner (msg : bytes) : M unit :=
  sshpkt_start SSH2_MSG_USERAUTH_BANNER ;;
  sshpkt_put_cstring msg ;;
  sshpkt_put_cstring [] ;;
  sshpkt_send.

Definition userauth_banner : M unit :=
  let! banner := env auth2_read_banner in
  match banner with None => mret tt | Some b => userauth_send_banner b end.

Definition input_userauth_request_fn : handler := other_fn 50.
Definition input_service_request_fn : handler := other_fn 5.

Definition input_service_request : M unit :=
  let! service := sshpkt_get_cstring in
  sshpkt_get_end ;;
  let service := c_str service in
  let! a := need_auth in
  if bool_decide (service = lit "ssh-userauth") && negb (success a) then
    ssh_dispatch_set SSH2_MSG_USERAUTH_REQUEST (Some input_userauth_request_fn) ;;
    sshpkt_start SSH2_MSG_SERVICE_ACCEPT ;;
    sshpkt_put_cstring service ;;
    sshpkt_send ;;
    ssh_packet_write_wait
  else ssh_packet_disconnect (lit "bad service request " ++ service).

(** The first request names the user and the service; the others have to name the same. *)
Definition first_request (name : bytes) (style_ : option bytes) (service_ : bytes) : M unit :=
  let! p := env (getpwnamallow name) in
  update_auth (set_user (Some name)) ;;
  (match p with
   | Some p =>
     if bool_decide (service_ = lit "ssh-connection")
     then update_auth (fun a => set_valid true (set_pw (Some p) a))
     else update_auth (set_pw (Some fakepw))
   | None => update_auth (set_pw (Some fakepw))
   end) ;;
  update_auth (set_service (Some service_)) ;;
  update_auth (set_style style_) ;;
  userauth_banner ;;
  let! ok := auth2_setup_methods_lists in
  if ok : bool then mret tt
  else ssh_packet_disconnect (lit "no authentication methods enabled").

(** [%s] of a string that is there once the first request was read. *)
Definition change_text (a : Authctxt) (name service_ : bytes) : bytes :=
  lit "Change of username or service not allowed: (" ++ default [] (user a) ++ lit "," ++
  default [] (service a) ++ lit ") -> (" ++ name ++ lit "," ++ service_ ++ lit ")".

Definition same_user (a : Authctxt) (name service_ : bytes) : bool :=
  bool_decide (user a = Some name) && bool_decide (service a = Some service_).

Definition input_userauth_request : M unit :=
  let! _a := need_auth in
  let! user_ := sshpkt_get_cstring in
  let! service_ := sshpkt_get_cstring in
  let! method := sshpkt_get_cstring in
  let service_ := c_str service_ in
  let method := c_str method in
  let '(name, style_) := match strchr COLON (c_str user_) with
                         | Some (before, rest) => (before, Some rest)
                         | None => (c_str user_, None)
                         end in
  let! a := get_auth in
  update_auth (set_attempt (attempt a + 1)) ;;
  (if attempt a =? 0 then first_request name style_ service_
   else if same_user a name service_ then mret tt
   else
     ssh_packet_disconnect (change_text a name service_)) ;;
  auth2_challenge_stop ;;
  auth2_authctxt_reset_info ;;
  update_auth (set_postponed false) ;;
  update_auth (set_server_caused_failure false) ;;
  let! a := get_auth in
  let! authenticated := (match authmethod_lookup a method with
                         | Some m => if failures a <? max_authtries options then userauth m else mret false
                         | None => mret false
                         end) in
  userauth_finish authenticated method None.

(** ** The whole *)

(** A context that was just allocated. *)
Definition authctxt_new (methods : list bytes) : Authctxt :=
  mk_authctxt false false false 0 0 false None None None None [] None None None None true methods [].

(** [more]: the handlers of an exchange that begins meanwhile. *)
Definition auth_handlers (more : Z -> Z -> Z -> M unit) (id type seq : Z) : M unit :=
  if id =? 5 then input_service_request
  else if id =? 50 then input_userauth_request
  else if id =? 61 then input_userauth_info_response
  else more id type seq.

Definition auth_success (s : session) : bool :=
  match authctxt s with Some a => success a | None => false end.

(** [methods]: the key exchange methods.  The session forgets the context, which its caller
    still holds: it is the result. *)
Definition do_authentication2 (methods : Z -> option (M unit)) (more : Z -> Z -> Z -> M unit) : M Authctxt :=
  ssh_dispatch_init (Some dispatch_protocol_error_fn) ;;
  ssh_dispatch_set SSH2_MSG_SERVICE_REQUEST (Some input_service_request_fn) ;;
  ssh_dispatch_run methods (auth_handlers more) true auth_success ;;
  let! a := get_auth in
  modify (set_authctxt None) ;;
  mret a.
End code.
