(* ===== verification/AuthFrame.v ===== *)
(** What the packet layer and a key exchange leave alone of an authentication: its context,
    and who handles the two messages of a client. *)

From S2P Require Import Prelude SshErr Wire SshQueue Compat Match KeyTypes AuthCtxt.
From S2P Require Import ChaCha ChachaPoly Digest SshCipher Packet PacketSend PacketRead PacketFrame Kex.
From S2P Require Import Auth.

Section frame.
Context {C : Crypto} {E : Env}.

Definition auth_view (s : session) : option Authctxt * option handler * option handler :=
  (authctxt s, dispatch s !! SSH2_MSG_USERAUTH_REQUEST, dispatch s !! SSH2_MSG_USERAUTH_INFO_RESPONSE).

Lemma frame_dispatch_set t h : t <> SSH2_MSG_USERAUTH_REQUEST -> t <> SSH2_MSG_USERAUTH_INFO_RESPONSE ->
  keeps auth_view (ssh_dispatch_set t h).
Proof.
  intros H1 H2. apply keeps_modify. intros s. unfold auth_view.
  destruct h; cbn -[SSH2_MSG_USERAUTH_REQUEST SSH2_MSG_USERAUTH_INFO_RESPONSE];
    by rewrite ?lookup_insert_ne, ?lookup_delete_ne.
Qed.
Lemma frame_by_mode (g : kex_mode -> session -> session) m :
  (forall s, auth_view (g MODE_IN s) = auth_view s) -> (forall s, auth_view (g MODE_OUT s) = auth_view s) ->
  keeps auth_view (modify (g m)).
Proof. intros H1 H2. apply keeps_modify. by destruct m. Qed.
Lemma frame_update_newkeys m g : keeps auth_view (update_newkeys m g).
Proof. apply keeps_modify. by destruct m. Qed.
Lemma frame_update_kex g : keeps auth_view (update_kex g).
Proof. by apply keeps_modify. Qed.
Lemma frame_update_kex_newkeys m g : keeps auth_view (update_kex_newkeys m g).
Proof. apply frame_update_kex. Qed.

#[local] Hint Resolve frame_update_newkeys frame_update_kex frame_update_kex_newkeys : keeps.
#[local] Hint Extern 1 (keeps auth_view (ssh_dispatch_set _ _)) => apply frame_dispatch_set; done : keeps.
#[local] Hint Extern 1 (keeps auth_view (modify (set_newkeys ?m ?k))) =>
  apply (frame_by_mode (fun m => set_newkeys m k)); reflexivity : keeps.
#[local] Hint Extern 1 (keeps auth_view (modify (set_ctx ?m ?k))) =>
  apply (frame_by_mode (fun m => set_ctx m k)); reflexivity : keeps.
#[local] Hint Extern 1 (keeps auth_view (modify (set_max_blocks ?m ?k))) =>
  apply (frame_by_mode (fun m => set_max_blocks m k)); reflexivity : keeps.

Lemma range_lookup (fn : handler) t l : Forall (fun i => Z.of_nat i <> t) l -> forall d : gmap Z handler,
  fold_left (fun d i => if Z.of_nat i >=? DISPATCH_MAX then d else <[Z.of_nat i := fn]> d) l d !! t = d !! t.
Proof.
  induction 1 as [|i l Hi _ IH]; intros d; cbn [fold_left]; [done|].
  rewrite IH. destruct (_ >=? _); [done|]. by rewrite lookup_insert_ne.
Qed.

Lemma frame_reset_dispatch : keeps auth_view kex_reset_dispatch.
Proof.
  apply keeps_modify. intros s. unfold auth_view. cbn [authctxt dispatch set_dispatch].
  rewrite !range_lookup; [done|apply Forall_forall..]; intros i Hi%elem_of_seq Ht;
    unfold SSH2_MSG_TRANSPORT_MIN, SSH2_MSG_TRANSPORT_MAX, SSH2_MSG_USERAUTH_REQUEST,
      SSH2_MSG_USERAUTH_INFO_RESPONSE in *; lia.
Qed.

(** *** Sending *)

Lemma frame_buf_put q v : keeps auth_view (buf_put q v).
Proof. unfold buf_put. keeps. Qed.
#[local] Hint Resolve frame_reset_dispatch frame_buf_put : keeps.
Lemma frame_put_outgoing v : keeps auth_view (put_outgoing v).
Proof. unfold put_outgoing. keeps. Qed.
Lemma frame_put_output v : keeps auth_view (put_output v).
Proof. unfold put_output. keeps. Qed.
#[local] Hint Resolve frame_put_outgoing frame_put_output : keeps.

Lemma frame_set_newkeys m : keeps auth_view (ssh_set_newkeys m).
Proof.
  unfold ssh_set_newkeys. apply keeps_bind; [auto with keeps|intros _].
  apply keeps_bind; [apply keeps_modify; by destruct m|intros _].
  unfold ssh_packet_init_compression, start_compression, start_compression_out, start_compression_in. keeps.
Qed.
#[local] Hint Resolve frame_set_newkeys : keeps.

Lemma frame_enable_delayed_compress : keeps auth_view ssh_packet_enable_delayed_compress.
Proof.
  unfold ssh_packet_enable_delayed_compress, delayed_compress, ssh_packet_init_compression,
    start_compression, start_compression_in, start_compression_out. keeps.
Qed.
#[local] Hint Resolve frame_enable_delayed_compress : keeps.

Lemma frame_wrapped : keeps auth_view ssh_packet_send2_wrapped.
Proof.
  unfold ssh_packet_send2_wrapped, compress_outgoing, consume_outgoing, compress_buffer, compress_round,
    put_compressed, pad_outgoing, seal_outgoing, mac_of, count_outgoing, after_packet. keeps.
Qed.
Lemma frame_need_rekeying n : keeps auth_view (ssh_packet_need_rekeying n).
Proof. unfold ssh_packet_need_rekeying. keeps. Qed.
#[local] Hint Resolve frame_wrapped frame_need_rekeying : keeps.
Lemma frame_send_queue k l : keeps auth_view k -> keeps auth_view (send_queue k l).
Proof. intros Hk. induction l as [|p l IH]; cbn [send_queue]; keeps. Qed.
#[local] Hint Resolve frame_send_queue : keeps.
Lemma frame_send_with k : keeps auth_view k -> keeps auth_view (send_with k).
Proof. intros Hk. unfold send_with, ssh_packet_send_mux, send2_with. keeps. Qed.
#[local] Hint Resolve frame_send_with : keeps.
Lemma frame_start_rekex : keeps auth_view kex_start_rekex.
Proof.
  unfold kex_start_rekex, kex_start_rekex_with, kex_send_kexinit_with, sshpkt_start, sshpkt_putb. keeps.
Qed.
#[local] Hint Resolve frame_start_rekex : keeps.
Lemma frame_send : keeps auth_view sshpkt_send.
Proof. unfold sshpkt_send. keeps. Qed.
Lemma frame_check_rekey : keeps auth_view ssh_packet_check_rekey.
Proof. unfold ssh_packet_check_rekey. keeps. Qed.
Lemma frame_start type : keeps auth_view (sshpkt_start type).
Proof. unfold sshpkt_start. keeps. Qed.
Lemma frame_put_u8 v : keeps auth_view (sshpkt_put_u8 v).
Proof. unfold sshpkt_put_u8. keeps. Qed.
Lemma frame_put_u32 v : keeps auth_view (sshpkt_put_u32 v).
Proof. unfold sshpkt_put_u32. keeps. Qed.
Lemma frame_put_cstring v : keeps auth_view (sshpkt_put_cstring v).
Proof. unfold sshpkt_put_cstring, sshpkt_put_string. keeps. Qed.
#[local] Hint Resolve frame_send frame_check_rekey frame_start frame_put_u8 frame_put_u32 frame_put_cstring : keeps.
Lemma frame_disconnect text : keeps auth_view (sshpkt_disconnect text).
Proof. unfold sshpkt_disconnect. keeps. Qed.
#[local] Hint Resolve frame_disconnect : keeps.

(** *** Receiving *)

Lemma frame_take_incoming {A} rd : keeps auth_view (@take_incoming _ _ A rd).
Proof. unfold take_incoming. keeps. Qed.
#[local] Hint Resolve @frame_take_incoming : keeps.
Lemma frame_get_u8 : keeps auth_view sshpkt_get_u8.
Proof. unfold sshpkt_get_u8. keeps. Qed.
Lemma frame_get_u32 : keeps auth_view sshpkt_get_u32.
Proof. unfold sshpkt_get_u32. keeps. Qed.
Lemma frame_get_string : keeps auth_view sshpkt_get_string.
Proof. unfold sshpkt_get_string. keeps. Qed.
Lemma frame_get_cstring : keeps auth_view sshpkt_get_cstring.
Proof. unfold sshpkt_get_cstring. keeps. Qed.
Lemma frame_skip_string : keeps auth_view sshpkt_skip_string.
Proof. unfold sshpkt_skip_string. keeps. Qed.
Lemma frame_get_end : keeps auth_view sshpkt_get_end.
Proof. unfold sshpkt_get_end. keeps. Qed.
#[local] Hint Resolve frame_get_u8 frame_get_u32 frame_get_string frame_get_cstring frame_skip_string frame_get_end : keeps.

Lemma frame_write_poll : keeps auth_view ssh_packet_write_poll.
Proof. unfold ssh_packet_write_poll, consume_output. keeps. Qed.
Lemma frame_select_loop n b : forall ms, keeps auth_view (select_loop n b ms).
Proof. induction n as [|n IH]; intros ms; cbn [select_loop]; keeps. Qed.
#[local] Hint Resolve frame_write_poll frame_select_loop : keeps.
Lemma frame_write_wait_loop n : keeps auth_view (write_wait_loop n).
Proof. induction n as [|n IH]; cbn [write_wait_loop]; unfold ssh_packet_have_data_to_write; keeps. Qed.
#[local] Hint Resolve frame_write_wait_loop : keeps.
Lemma frame_write_wait : keeps auth_view ssh_packet_write_wait.
Proof. unfold ssh_packet_write_wait. keeps. Qed.
#[local] Hint Resolve frame_write_wait : keeps.

Lemma frame_fill_incoming n : forall d, keeps auth_view (fill_incoming n d).
Proof. induction n as [|n IH]; intros d; cbn [fill_incoming]; unfold put_incoming; keeps. Qed.
#[local] Hint Resolve frame_fill_incoming : keeps.
Lemma frame_start_discard e m a d : keeps auth_view (ssh_packet_start_discard e m a d).
Proof. unfold ssh_packet_start_discard, ssh_packet_stop_discard. keeps. Qed.
Lemma frame_process_incoming buf : keeps auth_view (ssh_packet_process_incoming buf).
Proof. unfold ssh_packet_process_incoming, ssh_packet_stop_discard, put_input, consume_input. keeps. Qed.
#[local] Hint Resolve frame_start_discard frame_process_incoming : keeps.

Lemma frame_read_poll2_mux : keeps auth_view ssh_packet_read_poll2_mux.
Proof. unfold ssh_packet_read_poll2_mux, put_incoming, consume_input. keeps. Qed.
Lemma frame_read_length u : keeps auth_view (read_length u).
Proof. unfold read_length, put_incoming, consume_input. keeps. Qed.
Lemma frame_finish_packet u : keeps auth_view (finish_packet u).
Proof.
  unfold finish_packet, uncompress_incoming, uncompress_buffer, uncompress_round, put_compressed, put_incoming,
    consume_incoming, consume_end_incoming. keeps.
Qed.
#[local] Hint Resolve frame_read_poll2_mux frame_read_length frame_finish_packet : keeps.
Lemma frame_read_poll2 : keeps auth_view ssh_packet_read_poll2.
Proof.
  unfold ssh_packet_read_poll2, read_body, check_etm, decipher, check_mac, put_incoming, consume_input. keeps.
Qed.
#[local] Hint Resolve frame_read_poll2 : keeps.
Lemma frame_read_poll_seqnr : keeps auth_view ssh_packet_read_poll_seqnr.
Proof.
  unfold ssh_packet_read_poll_seqnr. apply keeps_bind; [auto with keeps|intros n].
  generalize (S (S n)). clear n. induction n as [|n IH]; cbn [read_poll_loop]; unfold read_poll_round; keeps.
Qed.
#[local] Hint Resolve frame_read_poll_seqnr : keeps.
Lemma frame_read_seqnr : keeps auth_view ssh_packet_read_seqnr.
Proof.
  unfold ssh_packet_read_seqnr. assert (Hl : forall n, keeps auth_view (read_seqnr_loop n)).
  { induction n as [|n IH]; cbn [read_seqnr_loop]; keeps. }
  keeps.
Qed.

(** *** An exchange meanwhile *)

Lemma frame_repeat m n : keeps auth_view m -> keeps auth_view (repeat_m n m).
Proof. intros Hm. induction n; cbn [repeat_m]; keeps. Qed.
#[local] Hint Resolve frame_repeat : keeps.
Lemma frame_put_each l : forall q, keeps auth_view (put_each q l).
Proof. induction l as [|v l IH]; intros q; cbn [put_each]; keeps. Qed.
#[local] Hint Resolve frame_put_each : keeps.
Lemma frame_chosen {A} peer i (r : res A) : keeps auth_view (chosen peer i r).
Proof. unfold chosen. keeps. Qed.
#[local] Hint Resolve @frame_chosen : keeps.
Lemma frame_choose_newkeys c s p b m : keeps auth_view (choose_newkeys c s p b m).
Proof. unfold choose_newkeys. keeps. Qed.
Lemma frame_chosen_in_kex peer i ch : keeps auth_view (chosen_in_kex peer i ch).
Proof. unfold chosen_in_kex. keeps. Qed.
#[local] Hint Resolve frame_choose_newkeys frame_chosen_in_kex : keeps.
Lemma frame_get_cstrings n : forall q, keeps auth_view (get_cstrings n q).
Proof. induction n as [|n IH]; intros q; cbn [get_cstrings]; keeps. Qed.
#[local] Hint Resolve frame_get_cstrings : keeps.
Lemma frame_buf2prop b : keeps auth_view (kex_buf2prop b).
Proof. unfold kex_buf2prop. keeps. Qed.
#[local] Hint Resolve frame_buf2prop : keeps.
Lemma frame_choose_conf : keeps auth_view kex_choose_conf.
Proof. unfold kex_choose_conf. keeps. Qed.
Lemma frame_send_kexinit : keeps auth_view kex_send_kexinit.
Proof. unfold kex_send_kexinit, kex_send_kexinit_with, sshpkt_putb. keeps. Qed.
#[local] Hint Resolve frame_choose_conf frame_send_kexinit : keeps.
Lemma frame_ext_info_loop n : keeps auth_view (ext_info_loop n).
Proof. induction n as [|n IH]; cbn [ext_info_loop]; keeps. Qed.
#[local] Hint Resolve frame_ext_info_loop : keeps.

Lemma frame_protocol_error n : keeps auth_view (kex_protocol_error n).
Proof. unfold kex_protocol_error. keeps. Qed.
#[local] Hint Resolve frame_protocol_error : keeps.

Lemma frame_method (methods : Z -> option (M unit)) (b : bool) n e :
  (forall n m, methods n = Some m -> keeps auth_view m) ->
  keeps auth_view (match (if b then methods n else None) with Some f => f | None => mfail e end).
Proof. intros Hm. destruct b; [|auto with keeps]. destruct (methods n) eqn:En; [by eapply Hm|auto with keeps]. Qed.

(** The handlers that are not of the authentication. *)
Lemma frame_call_handler methods other h type seq :
  (forall n m, methods n = Some m -> keeps auth_view m) -> (forall id, h <> other_fn id) ->
  keeps auth_view (call_handler methods other h type seq).
Proof.
  intros Hm Hh. destruct h as [| | | | | |id]; [| | | | | |by destruct (Hh id)]; cbn [call_handler].
  - auto with keeps.
  - unfold kex_input_kexinit. repeat first [apply frame_method, Hm | apply frame_repeat | keeps_step].
  - unfold kex_input_newkeys. keeps.
  - unfold kex_input_ext_info. keeps.
  - unfold dispatch_protocol_error. keeps.
  - auto with keeps.
Qed.
End frame.

#[export] Hint Resolve frame_buf_put frame_put_each frame_send frame_start frame_put_u8 frame_put_u32
  frame_put_cstring frame_disconnect frame_get_u8 frame_get_u32 frame_get_cstring frame_get_end frame_write_wait
  frame_read_seqnr frame_read_poll_seqnr : keeps.
#[export] Hint Resolve @frame_take_incoming : keeps.
