(* ===== verification/AuthPolicy.v ===== *)
(** What the lists of [AuthenticationMethods] require, and what removing a method from them
    does. *)

From S2P Require Import Prelude SshErr Wire SshQueue Compat CompatThms Match KeyTypes AuthCtxt.
From S2P Require Import ChaCha ChachaPoly Digest SshCipher Packet PacketSend PacketRead Kex.
From S2P Require Import Auth.

(** ** The items of a list *)

Lemma split_aux_fuel d n : forall s m, (length s < n)%nat -> (length s < m)%nat ->
  split_aux n (Some s) d = split_aux m (Some s) d.
Proof.
  induction n as [|n IH]; intros s [|m] Hn Hm; try lia. cbn.
  assert (L : match snd (strsep_scan d s) with Some r => (length r < length s)%nat | None => True end).
  { clear. induction s as [|c s IH]; cbn; [done|]. destruct (bool_decide _); cbn; [lia|].
    destruct (strsep_scan d s) as [tok [r|]]; cbn in *; [lia|done]. }
  destruct (strsep_scan d s) as [tok [r|]]; cbn in L; f_equal.
  - apply IH; lia.
  - destruct n, m; try lia; done.
Qed.

Lemma scan_tok tok : COMMA ∉ tok -> forall tail,
  strsep_scan SEP (tok ++ tail) = (tok ++ fst (strsep_scan SEP tail), snd (strsep_scan SEP tail)).
Proof.
  induction tok as [|c tok IH]; cbn; intros H tail; [by destruct (strsep_scan SEP tail)|].
  apply not_elem_of_cons in H as [Hc Ht]. rewrite bool_decide_false by set_solver.
  by rewrite IH.
Qed.

Lemma split_last tok : COMMA ∉ tok -> split tok SEP = [tok].
Proof.
  intros H. pose proof (scan_tok tok H []) as E. rewrite app_nil_r in E.
  unfold split. cbn. rewrite E. cbn. by rewrite app_nil_r.
Qed.

Lemma split_more tok rest : COMMA ∉ tok -> split (tok ++ COMMA :: rest) SEP = tok :: split rest SEP.
Proof.
  intros H. unfold split. rewrite length_app. cbn.
  rewrite scan_tok by done. cbn [strsep_scan]. rewrite bool_decide_true by (unfold SEP; set_solver).
  cbn [fst snd]. rewrite app_nil_r. f_equal.
  apply (split_aux_fuel SEP (S (length tok + S (length rest))) rest (S (S (length rest)))); lia.
Qed.

(** ** What a list requires *)

(** A success of a method, with its device. *)
Definition success_of : Type := bytes * option bytes.

(** An item: a method, or a method with one of its devices. *)
Definition meets (item : bytes) (g : success_of) : Prop :=
  item = fst g \/ exists d, snd g = Some d /\ item = fst g ++ COLON :: d.

(** The items are met by successes in their order, other successes apart. *)
Definition covered (items : list bytes) (gs : list success_of) : Prop :=
  exists gs', gs' `sublist_of` gs /\ Forall2 meets items gs'.

Definition satisfied (conf : list bytes) (gs : list success_of) : Prop :=
  exists l, l ∈ conf /\ covered (split l SEP) gs.

(** What is left of a list that the successes met so far. *)
Definition pending (conf : list bytes) (gs : list success_of) (r : bytes) : Prop :=
  r <> [] /\ exists l done, l ∈ conf /\ Forall (fun t => t <> []) (split l SEP) /\
    split l SEP = done ++ split r SEP /\ covered done gs.

Lemma covered_more items gs g : covered items gs -> covered items (gs ++ [g]).
Proof. intros (gs' & Hs & Hf). exists gs'. split; [|done]. by apply sublist_inserts_r. Qed.

Lemma covered_step items gs item g : covered items gs -> meets item g -> covered (items ++ [item]) (gs ++ [g]).
Proof.
  intros (gs' & Hs & Hf) Hm. exists (gs' ++ [g]). split; [by apply sublist_app|].
  apply Forall2_app; [done|]. by constructor.
Qed.

Lemma pending_more conf gs g r : pending conf gs r -> pending conf (gs ++ [g]) r.
Proof. intros (Hr & l & d & Hl & Hv & Hs & Hc). split; [done|]. exists l, d. split_and!; auto using covered_more. Qed.

(** ** Removing a method *)

Lemma after_prefix_spec p : forall s r, after_prefix p s = Some r <-> s = p ++ r.
Proof.
  induction p as [|a p IH]; intros s r; cbn; [by split; [intros [= ->]|intros ->]|].
  destruct s as [|b s]; [done|]. destruct (byte_eqb_spec a b) as [->|E].
  - rewrite IH. split; [by intros ->|by intros [= ->]].
  - split; [done|]. by intros [= -> ->].
Qed.

Lemma starts_with_spec c s : starts_with c s = true -> exists r, s = c :: r.
Proof. destruct s as [|b s]; cbn; [done|]. destruct (byte_eqb_spec b c) as [->|]; [by eexists|done]. Qed.

(** The two ways an item ends. *)
Lemma item_ends_spec p : item_ends p = true -> p = [] \/ exists r, p = COMMA :: r.
Proof.
  unfold item_ends. destruct p as [|b p]; [by left|]. cbn [is_nil orb]. intros H%starts_with_spec. by right.
Qed.

Definition no_comma (g : success_of) : Prop := (COMMA ∉ fst g) /\ forall d, snd g = Some d -> COMMA ∉ d.

(** What is left of a list is what follows its first item, and the success meets that item. *)
Lemma remove_method_spec l m d r : no_comma (m, d) -> remove_method l m d = Some r ->
  exists t, (COMMA ∉ t) /\ meets t (m, d) /\ (l = t /\ r = [] \/ l = t ++ COMMA :: r).
Proof.
  intros [Hm Hd] H. cbn [fst snd] in *. unfold remove_method, list_starts_with in H.
  destruct (after_prefix m l) as [p|] eqn:Ep; [|done]. apply after_prefix_spec in Ep as ->.
  destruct (starts_with COLON p) eqn:Ec.
  - apply starts_with_spec in Ec as [p' ->]. destruct d as [d|]; [|done]. cbn [tail] in H.
    destruct (after_prefix d p') as [q|] eqn:Eq; [|done]. apply after_prefix_spec in Eq as ->.
    destruct (item_ends q) eqn:Ei; [|done].
    cbn [MATCH_BOTH MATCH_METHOD Z.eqb Pos.eqb negb andb] in H. rewrite drop_app_length in H.
    change (COLON :: d ++ q) with ((COLON :: d) ++ q) in H.
    change (1 + length d)%nat with (length (COLON :: d)) in H. rewrite drop_app_length in H.
    exists (m ++ COLON :: d). split.
    { rewrite not_elem_of_app, not_elem_of_cons. split_and!; [done|done|by apply Hd]. }
    split; [right; by exists d|].
    apply item_ends_spec in Ei as [->|[r' ->]]; cbn in H; injection H as <-.
    + left. by rewrite app_nil_r.
    + right. by rewrite <- app_assoc.
  - destruct (item_ends p) eqn:Ei; [|done]. cbn [MATCH_METHOD MATCH_BOTH Z.eqb Pos.eqb negb andb] in H.
    rewrite drop_app_length in H. exists m. split; [done|]. split; [by left|].
    apply item_ends_spec in Ei as [->|[r' ->]].
    + left. destruct d; cbn in H; injection H as <-; by rewrite app_nil_r.
    + right. destruct d; cbn in H; by injection H as <-.
Qed.

(** A list that begins with the method, after the success. *)
Lemma pending_remove conf gs g l r : no_comma g -> pending conf gs l -> remove_method l (fst g) (snd g) = Some r ->
  (r = [] -> satisfied conf (gs ++ [g])) /\ (r <> [] -> pending conf (gs ++ [g]) r).
Proof.
  intros Hc (Hl & L & d & HL & Hv & Hs & Hd) H. destruct g as [m s]. cbn [fst snd] in *.
  apply remove_method_spec in H as (t & Ht & Hm & H); [|done].
  assert (Hn : split L SEP = d ++ [t] \/ split L SEP = (d ++ [t]) ++ split r SEP).
  { destruct H as [[-> ->]| ->].
    - left. by rewrite Hs, split_last.
    - right. by rewrite Hs, split_more, <- app_assoc. }
  pose proof (covered_step _ _ _ _ Hd Hm) as Hcov. split; intros Hr.
  - subst r. exists L. split; [done|]. destruct Hn as [-> |Hn]; [done|].
    rewrite Hn in Hv. apply Forall_app in Hv as [_ Hv]. cbn in Hv. by inversion Hv.
  - split; [done|]. exists L, (d ++ [t]). split_and!; try done.
    destruct Hn as [Hn|Hn]; [|done]. destruct H as [[_ ->]| ->]; [done|].
    exfalso. rewrite Hs, split_more in Hn by done. apply (f_equal length) in Hn.
    rewrite !length_app in Hn. cbn in Hn. unfold split in Hn. cbn in Hn. unfold strsep in Hn. cbn in Hn.
    destruct (strsep_scan SEP r). cbn in Hn. lia.
Qed.

Lemma update_lists_spec conf gs g lists : no_comma g -> Forall (pending conf gs) lists ->
  match update_lists lists (fst g) (snd g) with
  | (ls, _, complete) =>
    if complete : bool then satisfied conf (gs ++ [g]) else Forall (pending conf (gs ++ [g])) ls
  end.
Proof.
  intros Hg. induction 1 as [|l ls Hl _ IH]; cbn [update_lists]; [done|].
  destruct (remove_method l (fst g) (snd g)) as [r|] eqn:Er.
  - destruct (pending_remove _ _ _ _ _ Hg Hl Er) as [H1 H2].
    destruct r as [|c r]; cbn [is_nil]; [by apply H1|].
    destruct (update_lists ls _ _) as [[ls' f] [|]]; [done|]. constructor; [by apply H2|done].
  - destruct (update_lists ls _ _) as [[ls' f] [|]]; [done|]. constructor; [by apply pending_more|done].
Qed.

(** ** Lists that are kept *)

Section valid.
Context {C : Crypto} {E : Env} {A : AuthEnv}.

Lemma valid_loop_items a ne n : forall s, methods_valid_loop n a s ne = true ->
  Forall (fun t => t <> []) (split_aux n s SEP).
Proof.
  induction n as [|n IH]; intros s H; [constructor|]. cbn [methods_valid_loop split_aux] in *.
  destruct (strsep s SEP) as [[item rest]|]; [|constructor].
  destruct (method_by_name _) as [m|] eqn:Em; [|done]. destruct (ne && _); [done|].
  constructor; [|by apply IH]. intros ->. by vm_compute in Em.
Qed.

Lemma methods_valid_items a l ne : auth2_methods_valid a l ne = true -> l <> [] /\ Forall (fun t => t <> []) (split l SEP).
Proof.
  unfold auth2_methods_valid. destruct l as [|c l]; [done|]. cbn [is_nil]. intros H. split; [done|].
  by apply (valid_loop_items a ne).
Qed.

Lemma valid_pending conf a : Forall (pending conf []) (filter (fun l => auth2_methods_valid a l true = true) conf).
Proof.
  apply Forall_forall. intros l [Hv Hl]%list_elem_of_filter.
  apply methods_valid_items in Hv as [Hne Hi]. split; [done|].
  exists l, []. split_and!; try done. exists []. by split; [|constructor].
Qed.
End valid.
