(* ===== verification/AuthStep.v ===== *)
(** The messages of an authentication: a calculus of what a computation makes of the context
    ([leads]), what the methods leave alone, what an attempt does to the context ([finished]),
    and the invariant of the requests. *)

From S2P Require Import Prelude SshErr Wire SshQueue Compat CompatThms Match KeyTypes AuthCtxt.
From S2P Require Import ChaCha ChachaPoly Digest SshCipher Packet PacketSend PacketRead PacketFrame Kex.
From S2P Require Import Auth AuthFrame AuthPolicy.

(** ** Computations on the context *)

(** The context and the two handlers of the client's messages. *)
Definition view : Type := Authctxt * option handler * option handler.

Section leads.
Context {C : Crypto} {E : Env}.

Definition shows (s : session) (v : view) : Prop := auth_view s = (Some v.1.1, v.1.2, v.2).

Lemma shows_auth s v : shows s v -> authctxt s = Some v.1.1.
Proof. by intros [= -> _ _]. Qed.

(** [m] ends, if it returns, in a state of which [Q] holds. *)
Definition leads {B} (m : M B) (Q : B -> view -> Prop) (v : view) : Prop :=
  forall s b s', shows s v -> m s = Ret b s' -> exists v', shows s' v' /\ Q b v'.

Lemma leads_bind {B D} (m : M B) (k : B -> M D) Q v :
  leads m (fun b => leads (k b) Q) v -> leads (mbind m k) Q v.
Proof.
  intros Hm s d s' Hs H. apply bind_ret in H as (b & s1 & H1 & H).
  destruct (Hm s b s1 Hs H1) as (v1 & Hs1 & Hk). by apply (Hk s1 d s').
Qed.

Lemma leads_mono {B} (m : M B) (Q R : B -> view -> Prop) v :
  leads m Q v -> (forall b v', Q b v' -> R b v') -> leads m R v.
Proof. intros Hm HQ s b s' Hs H. destruct (Hm s b s' Hs H) as (v' & ? & ?). eauto. Qed.

Lemma leads_ret {B} (b : B) (Q : B -> view -> Prop) v : Q b v -> leads (mret b) Q v.
Proof. intros HQ s b' s' Hs [= <- <-]. eauto. Qed.

Lemma leads_fail {B} e (Q : B -> view -> Prop) v : leads (mfail e) Q v.
Proof. done. Qed.

Lemma leads_fatal {B} (Q : B -> view -> Prop) v : leads fatal Q v.
Proof. done. Qed.

Lemma leads_disconnect {B} text (Q : B -> view -> Prop) v : leads (ssh_packet_disconnect text) Q v.
Proof. intros s b s' _ H. unfold ssh_packet_disconnect in H. inv_bind H. inv_bind H. done. Qed.

Lemma leads_keeps {B} (m : M B) (Q : B -> view -> Prop) v : keeps auth_view m -> (forall b, Q b v) -> leads m Q v.
Proof.
  intros Hm HQ s b s' Hs H. exists v. split; [|done]. unfold shows.
  by rewrite (keeps_ret_eq _ _ _ _ _ Hm H).
Qed.

Lemma leads_get_auth (Q : Authctxt -> view -> Prop) v : Q v.1.1 v -> leads get_auth Q v.
Proof.
  intros HQ s b s' Hs H. unfold get_auth, deref in H. rewrite (shows_auth _ _ Hs) in H.
  injection H as <- <-. eauto.
Qed.

Lemma leads_need_auth (Q : Authctxt -> view -> Prop) v : Q v.1.1 v -> leads need_auth Q v.
Proof.
  intros HQ s b s' Hs H. unfold need_auth in H. run H. rewrite (shows_auth _ _ Hs) in H.
  injection H as <- <-. eauto.
Qed.

Lemma leads_update f (Q : unit -> view -> Prop) a d1 d2 : Q tt (f a, d1, d2) -> leads (update_auth f) Q (a, d1, d2).
Proof.
  intros HQ s b s' Hs [= <- <-]. exists (f a, d1, d2). split; [|done].
  unfold shows, auth_view in *. cbn in *. injection Hs as -> -> ->. done.
Qed.

Lemma leads_set_request h (Q : unit -> view -> Prop) a d1 d2 :
  Q tt (a, h, d2) -> leads (ssh_dispatch_set SSH2_MSG_USERAUTH_REQUEST h) Q (a, d1, d2).
Proof.
  intros HQ s b s' Hs [= <- <-]. exists (a, h, d2). split; [|done]. unfold shows, auth_view in *.
  injection Hs as Ha _ Hd. cbn [authctxt set_dispatch dispatch fst snd].
  destruct h; rewrite ?lookup_insert_eq, ?lookup_insert_ne, ?lookup_delete_eq, ?lookup_delete_ne by done; congruence.
Qed.

Lemma leads_set_response h (Q : unit -> view -> Prop) a d1 d2 :
  Q tt (a, d1, h) -> leads (ssh_dispatch_set SSH2_MSG_USERAUTH_INFO_RESPONSE h) Q (a, d1, d2).
Proof.
  intros HQ s b s' Hs [= <- <-]. exists (a, d1, h). split; [|done]. unfold shows, auth_view in *.
  injection Hs as Ha Hd _. cbn [authctxt set_dispatch dispatch fst snd].
  destruct h; rewrite ?lookup_insert_eq, ?lookup_insert_ne, ?lookup_delete_eq, ?lookup_delete_ne by done; congruence.
Qed.
End leads.

(** A step of a computation; what neither reads nor writes the context keeps the view. *)
Ltac leads_step :=
  lazymatch goal with
  | |- leads (mbind _ _) _ _ => apply leads_bind
  | |- leads (mret _) _ _ => apply leads_ret
  | |- leads (mfail _) _ _ => apply leads_fail
  | |- leads fatal _ _ => apply leads_fatal
  | |- leads (ssh_packet_disconnect _) _ _ => apply leads_disconnect
  | |- leads auth_maxtries_exceeded _ _ => apply leads_disconnect
  | |- leads get_auth _ _ => apply leads_get_auth; cbn [fst snd]
  | |- leads need_auth _ _ => apply leads_need_auth; cbn [fst snd]
  | |- leads (update_auth _) _ _ => apply leads_update
  | |- leads (ssh_dispatch_set SSH2_MSG_USERAUTH_REQUEST _) _ _ => apply leads_set_request
  | |- leads (ssh_dispatch_set SSH2_MSG_USERAUTH_INFO_RESPONSE _) _ _ => apply leads_set_response
  | |- leads (let x := _ in _) _ _ => cbv zeta
  | |- leads (if ?b then _ else _) _ _ => let Eb := fresh "Eb" in destruct b eqn:Eb
  | |- leads (match ?x with _ => _ end) _ _ => let Ex := fresh "Ex" in destruct x eqn:Ex
  | |- leads _ _ _ => apply leads_keeps; [solve [keeps]|intros ?; try match goal with u : unit |- _ => destruct u end]
  end.
Ltac leads := repeat leads_step.

(** ** What the methods leave alone *)

(** The part of the context that only [userauth_finish] and the first request change. *)
Definition core (a : Authctxt) :=
  (success a, (valid a, user a, service a, pw a), (attempt a, failures a),
   (auth_methods a, conf_methods a, granted a)).

Section methods.
Context {C : Crypto} {E : Env} {A : AuthEnv}.

Definition core_view (s : session) := (option_map core (authctxt s), dispatch s !! SSH2_MSG_USERAUTH_REQUEST).
Definition method_view (s : session) := (core_view s, dispatch s !! SSH2_MSG_USERAUTH_INFO_RESPONSE).

(** The methods of other files: they may postpone, record a key or a message, or take a
    failure on the server, and nothing else of the context. *)
Class MethodLaws : Prop := {
  pubkey_keeps : keeps method_view userauth_pubkey;
  hostbased_keeps : keeps method_view userauth_hostbased;
  names_plain : Forall (fun d => COMMA ∉ dev_name d) kbdint_devices
}.

Lemma core_of_view {B} (m : M B) : keeps auth_view m -> keeps core_view m.
Proof. intros H. exact (keeps_part auth_view (fun x => (option_map core x.1.1, x.1.2)) m H). Qed.
Lemma core_of_method {B} (m : M B) : keeps method_view m -> keeps core_view m.
Proof. intros H. exact (keeps_part method_view fst m H). Qed.
Lemma core_update f : (forall a, core (f a) = core a) -> keeps core_view (update_auth f).
Proof. intros Hf. apply keeps_modify. intros s. unfold core_view. cbn. destruct (authctxt s); cbn; [by rewrite Hf|done]. Qed.
Lemma core_response h : keeps core_view (ssh_dispatch_set SSH2_MSG_USERAUTH_INFO_RESPONSE h).
Proof.
  apply keeps_modify. intros s. unfold core_view. destruct h; cbn [authctxt set_dispatch dispatch];
    by rewrite ?lookup_insert_ne, ?lookup_delete_ne.
Qed.
Lemma method_update f : (forall a, core (f a) = core a) -> keeps method_view (update_auth f).
Proof. intros Hf s s' H. unfold method_view. injection H as <-. f_equal. by apply (core_update f Hf s). Qed.
Lemma method_of_view {B} (m : M B) : keeps auth_view m -> keeps method_view m.
Proof. intros H. exact (keeps_part auth_view (fun x => ((option_map core x.1.1, x.1.2), x.2)) m H). Qed.

#[local] Hint Extern 1 (keeps core_view (update_auth _)) => apply core_update; intros ?; reflexivity : keeps.
#[local] Hint Extern 1 (keeps method_view (update_auth _)) => apply method_update; intros ?; reflexivity : keeps.
#[local] Hint Resolve core_response : keeps.
#[local] Hint Extern 5 (keeps core_view _) => apply core_of_view; solve [auto with keeps] : keeps.
#[local] Hint Extern 5 (keeps method_view _) => apply method_of_view; solve [auto with keeps] : keeps.

Lemma core_update_kbdint f : keeps core_view (update_kbdint f).
Proof. apply core_update. done. Qed.
#[local] Hint Resolve core_update_kbdint : keeps.
Lemma core_get_kbdint : keeps core_view get_kbdint.
Proof. unfold get_kbdint. keeps. Qed.
Lemma core_get_device k : keeps core_view (get_device k).
Proof. unfold get_device. keeps. Qed.
Lemma core_get_auth : keeps core_view get_auth.
Proof. unfold get_auth. keeps. Qed.
#[local] Hint Resolve core_get_kbdint core_get_device core_get_auth : keeps.
Lemma core_reset_device : keeps core_view kbdint_reset_device.
Proof. unfold kbdint_reset_device. keeps. Qed.
#[local] Hint Resolve core_reset_device : keeps.
Lemma core_challenge_stop : keeps core_view auth2_challenge_stop.
Proof. unfold auth2_challenge_stop. keeps. Qed.
#[local] Hint Resolve core_challenge_stop : keeps.

Lemma core_send_info_request : keeps core_view send_userauth_info_request.
Proof.
  unfold send_userauth_info_request.
  assert (Hp : forall l, keeps core_view ((fix prompts l := match l with
    | [] => mret tt
    | (p, e) :: l => sshpkt_put_cstring p ;; sshpkt_put_u8 e ;; prompts l
    end) l : M unit)).
  { induction l as [|[p e] l IH]; keeps. }
  keeps.
Qed.
#[local] Hint Resolve core_send_info_request : keeps.
Lemma core_challenge_start : keeps core_view auth2_challenge_start.
Proof. unfold auth2_challenge_start, kbdint_next_device. keeps. Qed.
#[local] Hint Resolve core_challenge_start : keeps.
Lemma core_challenge devs : keeps core_view (auth2_challenge devs).
Proof. unfold auth2_challenge. keeps. Qed.
#[local] Hint Resolve core_challenge : keeps.
Lemma core_kbdint : keeps core_view userauth_kbdint.
Proof. unfold userauth_kbdint. keeps. Qed.

Lemma method_get_auth : keeps method_view get_auth.
Proof. unfold get_auth. keeps. Qed.
#[local] Hint Resolve method_get_auth : keeps.
Lemma method_none_keeps : keeps method_view userauth_none.
Proof. unfold userauth_none. keeps. Qed.
Lemma method_passwd_keeps : keeps method_view userauth_passwd.
Proof. unfold userauth_passwd. keeps. Qed.

(** From the views to the triples. *)
Lemma leads_core {B} (m : M B) v : keeps core_view m -> leads m (fun _ v' => core v'.1.1 = core v.1.1 /\ v'.1.2 = v.1.2) v.
Proof.
  intros Hm s b s' Hs H. pose proof (keeps_ret_eq _ _ _ _ _ Hm H) as K. unfold core_view in K.
  rewrite (shows_auth _ _ Hs) in K. pose proof (f_equal (fun x => x.1.2) Hs) as Hr. cbn in Hr.
  rewrite Hr in K. pose proof (f_equal fst K) as K1. pose proof (f_equal snd K) as K2. cbn [fst snd] in K1, K2.
  destruct (authctxt s') as [a'|] eqn:Ea; [|done]. cbn [option_map] in K1.
  exists (a', v.1.2, dispatch s' !! SSH2_MSG_USERAUTH_INFO_RESPONSE).
  split; [unfold shows, auth_view; cbn; by rewrite Ea, K2|].
  split; [|done]. cbn in *. by apply (inj Some).
Qed.

Lemma leads_method {B} (m : M B) v : keeps method_view m ->
  leads m (fun _ v' => core v'.1.1 = core v.1.1 /\ v'.1.2 = v.1.2 /\ v'.2 = v.2) v.
Proof.
  intros Hm s b s' Hs H. destruct (leads_core m v (core_of_method m Hm) s b s' Hs H) as (v' & Hs' & Hc & Hd).
  exists v'. split_and!; try done. pose proof (keeps_ret_eq _ _ _ _ _ Hm H) as K.
  apply (f_equal snd) in K. cbn in K. injection Hs' as _ _ <-. injection Hs as _ _ <-. done.
Qed.

Lemma challenge_false devs v : leads (auth2_challenge devs) (fun ok _ => ok = false) v.
Proof.
  intros s b s' Hs H. destruct (leads_core _ v (core_challenge devs) s b s' Hs H) as (v' & Hs' & _).
  exists v'. split; [done|]. unfold auth2_challenge in H. inv_bind H.
  destruct (user _); [|by injection H]. inv_bind H. inv_bind H. by injection H.
Qed.

(** A method that succeeds has not asked anything. *)
Lemma leads_userauth {L : MethodLaws} m v :
  leads (userauth m) (fun ok v' => core v'.1.1 = core v.1.1 /\ v'.1.2 = v.1.2 /\ (ok = true -> v'.2 = v.2)) v.
Proof.
  destruct m; cbn [userauth].
  - eapply leads_mono; [apply leads_method, method_none_keeps|]. by intros ? ? (? & ? & ?).
  - eapply leads_mono; [apply leads_method, pubkey_keeps|]. by intros ? ? (? & ? & ?).
  - eapply leads_mono; [apply leads_method, method_passwd_keeps|]. by intros ? ? (? & ? & ?).
  - intros s b s' Hs H. destruct (leads_core _ v core_kbdint s b s' Hs H) as (v' & Hs' & Hc & Hd).
    exists v'. split_and!; try done. intros ->. exfalso. unfold userauth_kbdint in H.
    inv_bind H. inv_bind H. inv_bind H. destruct (kbd_interactive_authentication _); [|done].
    assert (Hk : shows s2 v).
    { unfold shows. rewrite <- Hs.
      rewrite (keeps_ret_eq auth_view _ _ _ _ frame_get_end H2), (keeps_ret_eq auth_view _ _ _ _ frame_get_cstring H1).
      by apply (keeps_ret_eq auth_view _ _ _ _ frame_get_cstring H0). }
    by destruct (challenge_false _ v _ _ _ Hk H) as (? & _ & ?).
  - eapply leads_mono; [apply leads_method, hostbased_keeps|]. by intros ? ? (? & ? & ?).
Qed.
End methods.

(** ** The end of an attempt *)

Section finish.
Context {C : Crypto} {E : Env} {A : AuthEnv}.

(** Root may log in with this method, as far as the options say. *)
Definition root_may (method : bytes) : Prop :=
  permit_root_login options = PERMIT_YES \/ permit_root_login options = PERMIT_FORCED_ONLY \/
  (permit_root_login options = PERMIT_NO_PASSWD /\
   method ∈ [lit "publickey"; lit "hostbased"; lit "gssapi-with-mic"]).

Definition root_ok (a : Authctxt) (method : bytes) : Prop :=
  forall p, pw a = Some p -> pw_uid p = 0 -> root_may method.

(** The first request of all may be [none] without being counted. *)
Definition uncounted (a : Authctxt) (method : bytes) : bool :=
  server_caused_failure a || ((attempt a <=? 1) && bool_decide (method = lit "none")).

(** What an attempt [g] with the outcome [ok] makes of the context [a]: the method waits for
    the client, the user is let in, more methods are required, or the attempt failed.  In the
    last two cases the client may go on, with fewer failures than [max_authtries]. *)
Inductive finished (a : Authctxt) (ok : bool) (g : success_of) : Authctxt -> Prop :=
| fin_waits : ok = false -> postponed a = true -> finished a ok g a
| fin_success info lists :
    ok = true -> valid a = true -> postponed a = false -> root_ok a (fst g) ->
    (conf_methods a = [] /\ lists = auth_methods a \/
     conf_methods a <> [] /\ update_lists (auth_methods a) (fst g) (snd g) = (lists, true, true)) ->
    finished a ok g (set_success true (set_session_info info (set_granted (granted a ++ [g]) (set_auth_methods lists a))))
| fin_partial info lists :
    ok = true -> valid a = true -> postponed a = false -> root_ok a (fst g) -> conf_methods a <> [] ->
    update_lists (auth_methods a) (fst g) (snd g) = (lists, true, false) ->
    failures a < max_authtries options ->
    finished a ok g (set_session_info info (set_granted (granted a ++ [g]) (set_auth_methods lists a)))
| fin_failed : postponed a = false ->
    failures a + Z.b2z (negb (uncounted a (fst g))) < max_authtries options ->
    finished a ok g (set_failures (failures a + Z.b2z (negb (uncounted a (fst g)))) a).

Lemma leads_root_check ok method a d1 d2 :
  leads (root_check ok method) (fun r v' => v' = (a, d1, d2) /\ (r = true -> ok = true /\ root_ok a method)) (a, d1, d2).
Proof.
  unfold root_check. destruct ok; [|by apply leads_ret]. leads_step. leads_step. leads_step.
  intros s p s' Hs H. unfold deref in H. destruct (pw a) as [q|] eqn:Ep; [|done]. injection H as <- <-.
  exists (a, d1, d2). split; [done|]. cbn [fst snd].
  destruct (Z.eqb_spec (pw_uid q) 0) as [Hu|Hu].
  - unfold auth_root_allowed. apply leads_bind, leads_keeps; [keeps|intros w]. apply leads_ret. split; [done|].
    intros Hr. split; [done|]. intros p _ _. unfold root_may.
    destruct (Z.eqb_spec (permit_root_login options) PERMIT_YES); [by left|].
    destruct (Z.eqb_spec (permit_root_login options) PERMIT_NO_PASSWD) as [Hn|].
    + right; right. split; [done|].
      apply orb_true_iff in Hr as [Hr|Hr%bool_decide_eq_true]; [apply orb_true_iff in Hr as [Hr%bool_decide_eq_true|Hr%bool_decide_eq_true]|];
        rewrite !elem_of_cons; auto.
    + destruct (Z.eqb_spec (permit_root_login options) PERMIT_FORCED_ONLY); [by right; left|done].
  - apply leads_ret. split; [done|]. intros _. split; [done|]. intros p Hp. rewrite Ep in Hp. by injection Hp as <-.
Qed.

Lemma leads_session_info method d a d1 d2 :
  leads (auth2_update_session_info method d) (fun _ v' => exists info, v' = (set_session_info info a, d1, d2)) (a, d1, d2).
Proof. unfold auth2_update_session_info. leads. by eexists. Qed.

Lemma leads_update_lists method d a d1 d2 :
  leads (auth2_update_methods_lists method d) (fun c v' => exists lists,
      update_lists (auth_methods a) method d = (lists, true, c) /\ v' = (set_auth_methods lists a, d1, d2)) (a, d1, d2).
Proof.
  unfold auth2_update_methods_lists. leads_step. leads_step. cbn [fst snd].
  destruct (update_lists _ _ _) as [[lists f] c] eqn:El. leads_step. leads_step. destruct f; [|by leads_step].
  leads_step. by exists lists.
Qed.

Lemma methods_get_keeps v (Q : bytes -> view -> Prop) : (forall b, Q b v) -> leads authmethods_get Q v.
Proof. intros HQ. unfold authmethods_get. leads. apply HQ. Qed.

(** The handler of requests after a success. *)
Definition after (d : option handler) (a' : Authctxt) : option handler :=
  if success a' then Some dispatch_protocol_ignore_fn else d.

Lemma leads_failed (partial : bool) method a d1 d2 (Q : unit -> view -> Prop) :
  (let n := Z.b2z (negb partial && negb (uncounted a method)) in
   failures a + n < max_authtries options -> Q tt (set_failures (failures a + n) a, d1, d2)) ->
  leads ((if negb partial && negb (server_caused_failure a) &&
        ((attempt a >? 1) || negb (bool_decide (method = lit "none")))
     then update_auth (fun a => set_failures (failures a + 1) a) else mret tt) ;;
    let! a := get_auth in
    if failures a >=? max_authtries options then auth_maxtries_exceeded
    else
    let! methods := authmethods_get in
    sshpkt_start SSH2_MSG_USERAUTH_FAILURE ;;
    sshpkt_put_cstring methods ;;
    sshpkt_put_u8 (Z.b2z partial) ;;
    sshpkt_send ;;
    ssh_packet_write_wait) Q (a, d1, d2).
Proof.
  intros HQ. replace (negb partial && negb (server_caused_failure a) &&
    ((attempt a >? 1) || negb (bool_decide (method = lit "none")))) with (negb partial && negb (uncounted a method)).
  2: { unfold uncounted. rewrite negb_orb, negb_andb, andb_assoc. do 2 f_equal. by rewrite <- Z.ltb_antisym, Z.gtb_ltb. }
  apply leads_bind. destruct (negb partial && negb (uncounted a method)); cbn [Z.b2z] in HQ; leads_step.
  all: leads_step; leads_step; leads_step; [by leads_step|]; leads_step; apply methods_get_keeps; intros l; leads.
  - apply HQ. cbn in *. lia.
  - replace a with (set_failures (failures a + 0) a) by (destruct a; unfold set_failures; cbn; by rewrite Z.add_0_r).
    apply HQ. lia.
Qed.

Lemma leads_finish ok method d a d1 d2 : success a = false ->
  leads (userauth_finish ok method d) (fun _ v' =>
    finished a ok (method, d) v'.1.1 /\ v' = (v'.1.1, after d1 v'.1.1, d2)) (a, d1, d2).
Proof.
  intros Hsucc. unfold userauth_finish. leads_step. leads_step. leads_step; [by leads_step|]. leads_step; [by leads_step|].
  leads_step. eapply leads_mono; [apply leads_root_check|]. intros r v' (-> & Hroot). leads_step. leads_step. leads_step.
  destruct r; cbn [andb].
  - destruct (Hroot eq_refl) as [-> Hr]. rewrite andb_true_r in Eb. apply negb_false_iff in Eb. cbn [andb] in Eb0.
    destruct (is_nil (conf_methods a)) eqn:Ec; cbn [negb].
    + leads_step. cbn [orb]. leads_step. leads_step. unfold grant. leads_step. eapply leads_mono; [apply leads_session_info|].
      intros _ v' [info ->]. leads; try (cbn in *; congruence). split; [|done].
      refine (fin_success a true (method, d) info (auth_methods a) _ _ _ _ _); try done.
      left. by destruct (conf_methods a).
    + assert (Hc : conf_methods a <> []) by (by destruct (conf_methods a)).
      leads_step. eapply leads_mono; [apply leads_update_lists|]. intros c v' (lists & Hl & ->).
      leads_step. destruct c; cbn [negb orb].
      * leads_step. leads_step. unfold grant. leads_step. eapply leads_mono; [apply leads_session_info|].
        intros _ v' [info ->]. leads; try (cbn in *; congruence). split; [|done].
        refine (fin_success a true (method, d) info lists _ _ _ _ _); try done. by right.
      * leads_step. leads_step. unfold grant. leads_step. eapply leads_mono; [apply leads_session_info|].
        intros _ v' [info ->]. leads_step. leads_step. leads_step.
        { cbn in Eb1. congruence. }
        apply (leads_failed true method). cbn [negb andb Z.b2z]. cbn. intros Hf. rewrite Z.add_0_r in *. unfold after.
        cbn. rewrite Hsucc. split; [|done].
        by refine (fin_partial a true (method, d) info lists _ _ _ _ _ _ _).
  - leads_step. cbn [orb]. leads_step. leads_step. leads_step. leads_step. leads_step.
    + leads_step. split; [|by unfold after; cbn; rewrite Hsucc]. apply fin_waits; [|done].
      destruct ok; [|done]. cbn in Eb0. congruence.
    + apply (leads_failed false method). cbn [negb andb]. cbv zeta. intros Hf. split.
      * by apply (fin_failed a ok (method, d)).
      * cbn [fst snd]. unfold after. cbn. by rewrite Hsucc.
Qed.
End finish.

(** ** The requests *)

Section requests.
Context {C : Crypto} {E : Env} {A : AuthEnv} {L : MethodLaws}.

(** [any] stands for no list. *)
Definition required (conf : list bytes) : list bytes := if bool_decide (conf = [lit "any"]) then [] else conf.

(** The context between two messages; [conf] are the lists of the configuration. *)
Record inv (conf : list bytes) (a : Authctxt) : Prop := {
  inv_attempt : 0 <= attempt a;
  inv_fresh : attempt a = 0 -> conf_methods a = conf /\ valid a = false /\ granted a = [];
  inv_started : attempt a <> 0 -> conf_methods a = required conf /\ is_Some (user a) /\ is_Some (service a);
  inv_valid : valid a = true -> attempt a <> 0 /\ service a = Some (lit "ssh-connection");
  inv_lists : attempt a <> 0 -> success a = false -> required conf <> [] ->
    Forall (pending (required conf) (granted a)) (auth_methods a);
  inv_root : Forall (fun g => root_ok a (fst g)) (granted a);
  inv_tries : failures a < max_authtries options;
  inv_success : success a = true -> valid a = true /\ granted a <> [] /\
    (required conf = [] \/ satisfied (required conf) (granted a))
}.

Lemma inv_core conf a a' : core a' = core a -> inv conf a -> inv conf a'.
Proof.
  intros Hc [H1 H2 H3 H4 H5 H6 H7 H8]. unfold core in Hc. injection Hc as E1 E2 E3 E4 E5 E6 E7 E8 E9 E10.
  split; rewrite ?E1, ?E2, ?E3, ?E4, ?E5, ?E6, ?E7, ?E8, ?E9, ?E10; try done.
  eapply Forall_impl; [exact H6|]. intros g Hg p. unfold root_ok in Hg. rewrite E5. apply Hg.
Qed.

Lemma inv_new conf : 0 < max_authtries options -> inv conf (authctxt_new conf).
Proof. intros H. by split; cbn. Qed.

(** A success is recorded. *)
Lemma granted_root a g lists info s : root_ok a (fst g) -> Forall (fun g => root_ok a (fst g)) (granted a) ->
  Forall (fun g => root_ok (set_success s (set_session_info info (set_granted (granted a ++ [g]) (set_auth_methods lists a)))) (fst g))
    (granted a ++ [g]).
Proof. intros Hg Ha. apply Forall_app. split; [exact Ha|]. constructor; [exact Hg|constructor]. Qed.

Lemma finished_inv conf a ok g a' : success a = false -> (ok = true -> no_comma g) -> inv conf a ->
  finished a ok g a' -> inv conf a'.
Proof.
  intros Hs Hg [H1 H2 H3 H4 H5 H6 H7 H8] [| info lists -> Hv Hp Hr Hl | info lists -> Hv Hp Hr Hc Hl Hf | Hp Hf].
  - by split.
  - destruct (H4 Hv) as [Ha Hserv]. destruct (H3 Ha) as [Hm ?]. split; try done.
    + by apply (granted_root a g lists info true).
    + intros _. cbn. split; [done|]. split; [by destruct (granted a)|]. rewrite Hm in Hl.
      destruct Hl as [[Hn _]|[Hn Hl]]; [by left|right].
      pose proof (update_lists_spec (required conf) (granted a) g (auth_methods a) (Hg eq_refl) (H5 Ha Hs Hn)) as U.
      by rewrite Hl in U.
  - destruct (H4 Hv) as [Ha Hserv]. destruct (H3 Ha) as [Hm ?]. rewrite Hm in Hc. split; try done.
    + intros _ _ _. cbn.
      pose proof (update_lists_spec (required conf) (granted a) g (auth_methods a) (Hg eq_refl) (H5 Ha Hs Hc)) as U.
      by rewrite Hl in U.
    + by apply (granted_root a g lists info (success a)).
    + intros Ht. cbn in Ht. congruence.
  - split; try done.
Qed.

Definition same_identity (a a' : Authctxt) : Prop :=
  user a' = user a /\ service a' = service a /\ valid a' = valid a /\ pw a' = pw a.

(** The lists that are kept. *)
Lemma leads_setup a d1 d2 :
  leads auth2_setup_methods_lists (fun ok v' => ok = true -> exists lists,
    v' = (set_auth_methods lists (set_conf_methods (required (conf_methods a)) a), d1, d2) /\
    (required (conf_methods a) <> [] -> Forall (pending (required (conf_methods a)) []) lists)) (a, d1, d2).
Proof.
  unfold auth2_setup_methods_lists. leads_step. leads_step. cbv zeta. fold (required (conf_methods a)).
  destruct (required (conf_methods a)) as [|l ls] eqn:Er; cbn [is_nil]; leads; intros Hk.
  - by exists (auth_methods a).
  - eexists. split; [reflexivity|]. intros _. apply valid_pending.
Qed.

Lemma banner_keeps : keeps auth_view userauth_banner.
Proof. unfold userauth_banner, userauth_send_banner. keeps. Qed.

(** A context the first request has set up, but for the lists. *)
Definition looked_up (conf : list bytes) (n : Z) (a : Authctxt) : Prop :=
  success a = false /\ attempt a = 1 /\ failures a = n /\ granted a = [] /\ conf_methods a = conf /\
  is_Some (user a) /\ is_Some (service a) /\ (valid a = true -> service a = Some (lit "ssh-connection")).

Lemma looked_up_inv conf n lists a : looked_up conf n a -> n < max_authtries options ->
  (required conf <> [] -> Forall (pending (required conf) []) lists) ->
  inv conf (set_auth_methods lists (set_conf_methods (required conf) a)).
Proof.
  intros (Hs & Ha & Hf & Hg & Hc & Hu & Hse & Hv) Hn Hl. split; cbn; rewrite ?Ha, ?Hg, ?Hs; try done.
  - intros Hva. split; [done|]. by apply Hv.
  - by rewrite Hf.
Qed.

(** The first request: the user is looked up and the lists are set up. *)
Lemma leads_first name style_ service_ conf a d1 d2 : inv conf a -> success a = false -> attempt a = 0 ->
  leads (first_request name style_ service_) (fun _ v' =>
    inv conf v'.1.1 /\ success v'.1.1 = false /\ attempt v'.1.1 = 1 /\ failures v'.1.1 = failures a /\
    granted v'.1.1 = granted a /\ v' = (v'.1.1, d1, d2)) (set_attempt (attempt a + 1) a, d1, d2).
Proof.
  intros [H1 H2 H3 H4 H5 H6 H7 H8] Hs H0. destruct (H2 H0) as (Hc & Hv & Hg).
  assert (Hend : forall a', looked_up conf (failures a) a' ->
    leads (userauth_banner ;; let! ok := auth2_setup_methods_lists in
        if ok then mret tt else ssh_packet_disconnect (lit "no authentication methods enabled"))
      (fun _ v' => inv conf v'.1.1 /\ success v'.1.1 = false /\ attempt v'.1.1 = 1 /\ failures v'.1.1 = failures a /\
         granted v'.1.1 = granted a /\ v' = (v'.1.1, d1, d2)) (a', d1, d2)).
  { intros a' Ha. apply leads_bind, leads_keeps; [apply banner_keeps|intros _]. leads_step.
    eapply leads_mono; [apply leads_setup|]. intros ok v' Hok. destruct ok; [|by leads_step].
    destruct (Hok eq_refl) as (lists & -> & Hl). leads_step. pose proof Ha as (? & ? & ? & ? & Hconf & _).
    rewrite Hconf in *. split; [by apply (looked_up_inv conf (failures a))|]. cbn. split_and!; congruence. }
  unfold first_request. leads_step. leads_step. leads_step. leads_step. leads_step.
  destruct b as [q|]; [case_bool_decide as Hse; [subst service_|]|].
  all: leads_step; leads_step; leads_step; leads_step; leads_step; apply Hend; unfold looked_up; cbn;
    rewrite ?H0, ?Hv; split_and!; try done; auto.
Qed.

(** *** The three messages *)

(** A context in which an attempt can be made, after [a0]. *)
Definition begun (conf : list bytes) (a0 a : Authctxt) : Prop :=
  inv conf a /\ success a = false /\ attempt a0 <= attempt a <= attempt a0 + 1 /\
  failures a = failures a0 /\ granted a = granted a0 /\ (attempt a0 <> 0 -> same_identity a0 a).

Lemma begun_core conf a0 a a' : core a' = core a -> begun conf a0 a -> begun conf a0 a'.
Proof.
  intros Hc (Hi & Hs & Ha & Hf & Hg & Hid). pose proof (inv_core _ _ _ Hc Hi) as Hi'.
  unfold core in Hc. injection Hc as E1 E2 E3 E4 E5 E6 E7 E8 E9 E10.
  unfold begun, same_identity in *. rewrite E1, E2, E3, E4, E5, E6, E7, E10.
  destruct Ha. by split_and!.
Qed.

(** What a request or a response makes of the context: an attempt [g] at one of the methods,
    that ended. *)
Definition attempted (conf : list bytes) (v v' : view) : Prop := exists a ok g,
  begun conf v.1.1 a /\ (ok = true -> no_comma g) /\
  finished a ok g v'.1.1 /\ v'.1.2 = after v.1.2 v'.1.1 /\ (ok = true -> v'.2 = None).

(** An attempt whose method has answered. *)
Lemma leads_attempt conf a0 d0 ok method d a d1 d2 : begun conf a0 a -> (ok = true -> no_comma (method, d) /\ d2 = None) ->
  leads (userauth_finish ok method d) (fun _ v' => attempted conf (a0, d1, d0) v') (a, d1, d2).
Proof.
  intros Hb Hok. eapply leads_mono; [apply leads_finish, Hb|]. intros _ v' [Hf Hv].
  exists a, ok, (method, d). split_and!; [done|by intros [? _]%Hok|done|by rewrite Hv|].
  intros [_ ->]%Hok. by rewrite Hv.
Qed.

Lemma challenge_stop_response a d1 d2 :
  leads auth2_challenge_stop (fun _ v' => core v'.1.1 = core a /\ v'.1.2 = d1 /\ v'.2 = None) (a, d1, d2).
Proof.
  unfold auth2_challenge_stop. leads_step. leads_step. leads_step. leads_step. leads_step; [|by leads_step].
  leads_step. assert (K : keeps method_view (match device k with Some _ => kbdint_reset_device | None => mret tt end)).
  { unfold kbdint_reset_device, update_kbdint, get_kbdint, get_device. keeps;
      try (apply method_update; done); apply method_of_view; keeps. }
  eapply leads_mono; [apply leads_method, K|]. intros _ [[a' d1'] d2'] (Hc & Hd1 & Hd2). cbn in *. subst.
  by apply leads_update.
Qed.

Lemma lookup_no_comma a name m : authmethod_lookup a name = Some m -> no_comma (name, None).
Proof.
  intros H. apply find_some in H as [_ H]. apply andb_true_iff in H as [H _].
  apply andb_true_iff in H as [_ H%bool_decide_eq_true]. subst name. split; [|done].
  cbn [fst]. destruct m; apply (bool_decide_unpack _); vm_compute; exact I.
Qed.

Lemma inv_next conf a : inv conf a -> attempt a <> 0 -> inv conf (set_attempt (attempt a + 1) a).
Proof.
  intros [H1 H2 H3 H4 H5 H6 H7 H8] H0. split; cbn; try done; try lia.
  - intros _. by apply H3.
  - intros Hv. split; [lia|]. by apply H4.
  - intros _. by apply H5.
Qed.

Lemma leads_request conf a d1 d2 : inv conf a -> success a = false ->
  leads input_userauth_request (fun _ v' => attempted conf (a, d1, d2) v') (a, d1, d2).
Proof.
  intros Hi Hs. unfold input_userauth_request. leads_step. leads_step. do 6 leads_step. cbv zeta.
  destruct (match strchr COLON _ with Some _ => _ | None => _ end) as [name style_].
  leads_step. leads_step. leads_step. leads_step. leads_step.
  apply (leads_mono _ (fun _ v' => begun conf a v'.1.1 /\ v' = (v'.1.1, d1, d2))).
  { destruct (Z.eqb_spec (attempt a) 0) as [H0|H0].
    - eapply leads_mono; [by apply (leads_first _ _ _ conf)|]. intros _ v' (I1 & I2 & I3 & I4 & I5 & I6).
      split; [|done]. unfold begun. split_and!; try done; lia.
    - destruct (same_user a name _); [|by leads_step]. leads_step. split; [|done]. pose proof (inv_attempt _ _ Hi).
      unfold begun, same_identity. cbn. split_and!; try done; try lia. by apply inv_next. }
  intros _ [[a1 d1'] d2'] [HR [= -> ->]]. cbn [fst snd] in *. leads_step.
  eapply leads_mono; [apply challenge_stop_response|]. intros _ [[a2 d1'] d2'] (Hc & Hd1 & Hd2). cbn in Hd1, Hd2. subst d1' d2'.
  unfold auth2_authctxt_reset_info. do 10 leads_step.
  match goal with |- leads _ _ (?x, _, _) => set (a3 := x) end.
  assert (H3 : begun conf a a3) by exact (begun_core conf a a1 a3 Hc HR). clearbody a3. clear HR Hc.
  leads_step. destruct (authmethod_lookup a3 (c_str b1)) as [m|] eqn:El; [|by leads_step; apply leads_attempt].
  destruct (_ <? _); [|by leads_step; apply leads_attempt].
  eapply leads_mono; [apply leads_userauth|]. intros ok [[a4 d1'] d2'] (Hc & Hd1 & Hd2). cbn in *. subst d1'.
  apply leads_attempt; [by apply (begun_core _ _ a3)|]. intros Ht. split; [|by apply Hd2].
  by apply (lookup_no_comma a3 _ m).
Qed.

Lemma leads_service a d1 d2 : leads input_service_request (fun _ v' => v' = (a, Some input_userauth_request_fn, d2)) (a, d1, d2).
Proof. unfold input_service_request. leads; done. Qed.

Lemma leads_responses n : forall v, leads (get_responses n) (fun _ v' => v' = v) v.
Proof.
  induction n as [|n IH]; intros v; cbn [get_responses]; [by leads_step|]. leads_step. leads_step. leads_step.
  eapply leads_mono; [apply IH|]. intros l v' ->. by leads_step.
Qed.

Lemma leads_device k v : leads (get_device k) (fun d v' => v' = v /\ COMMA ∉ dev_name d) v.
Proof.
  intros s d s' Hs. unfold get_device, deref.
  destruct (match device k with Some i => kbdint_devices !! i | None => None end) as [d'|] eqn:Ed; [|done].
  intros [= <- <-]. exists v. split_and!; [done|done|]. destruct (device k) as [i|]; [|done].
  pose proof names_plain as N. rewrite Forall_lookup in N. by apply (N i).
Qed.

(** The answers to what a device asked. *)
Lemma leads_response conf a d1 d2 : inv conf a -> success a = false ->
  leads input_userauth_info_response (fun _ v' => attempted conf (a, d1, d2) v') (a, d1, d2).
Proof.
  intros Hi Hs. unfold input_userauth_info_response. leads_step. leads_step. leads_step; [|by leads_step].
  leads_step; [|by leads_step]. leads_step; [|by leads_step]. leads_step.
  eapply leads_mono; [apply leads_device|]. intros d v' [-> Hn].
  leads_step. leads_step. leads_step. leads_step. leads_step; [by leads_step|]. leads_step; [by leads_step|]. leads_step.
  eapply leads_mono; [apply leads_responses|]. intros l v' ->. do 4 leads_step. cbv zeta.
  assert (Hb : begun conf a (set_postponed false a)).
  { unfold begun, same_identity. split_and!; try done; cbn; try lia. by apply (inv_core _ a). }
  leads_step.
  assert (Hend : forall a1 ok, begun conf a a1 -> (ok = true -> postponed a1 = false) -> forall d2',
    leads (let! a := get_auth in
        (if postponed a then mret tt else if ok then auth2_challenge_stop else auth2_challenge_start) ;;
        userauth_finish ok (lit "keyboard-interactive") (Some (dev_name d)))
      (fun _ v' => attempted conf (a, d1, d2) v') (a1, d1, d2')).
  { intros a1 ok Hb1 Hp d2'. leads_step. leads_step. leads_step. destruct ok.
    - rewrite Hp by done. eapply leads_mono; [apply challenge_stop_response|].
      intros _ [[a2 d1'] d2''] (Hc & Hd1 & Hd2). cbn in *. subst d1' d2''.
      apply leads_attempt; [by apply (begun_core _ _ a1)|]. intros _. split; [|done]. split; cbn.
      + apply (bool_decide_unpack _). vm_compute. exact I.
      + by intros ? [= <-].
    - assert (K : keeps core_view (if postponed a1 then mret tt else auth2_challenge_start)).
      { destruct (postponed a1); [apply keeps_ret|apply core_challenge_start]. }
      eapply leads_mono; [apply leads_core, K|]. intros _ [[a2 d1'] d2''] [Hc Hd1]. cbn in *. subst d1'.
      by apply leads_attempt; [apply (begun_core _ _ a1)|]. }
  match goal with |- context [?z =? 1] => destruct (Z.eqb_spec z 1) as [->|Hne] end.
  - leads_step. eapply leads_mono; [apply leads_core, core_send_info_request|].
    intros sent [[a2 d1'] d2'] [Hc Hd1]. cbn [fst snd] in *. subst d1'.
    assert (Hb2 : begun conf a a2) by exact (begun_core conf a _ a2 Hc Hb).
    assert (Hb3 : begun conf a (set_postponed true a2)) by exact (begun_core conf a _ (set_postponed true a2) Hc Hb).
    destruct sent; leads_step; by apply Hend.
  - leads_step. by apply Hend.
Qed.
End requests.
