(* ===== verification/AuthThms.v ===== *)
(** What a server that lets a user in has checked, how failures are counted, and the end of an
    attempt on every branch; with a server that runs. *)

From S2P Require Import Prelude SshErr Wire SshQueue Compat CompatThms Match KeyTypes AuthCtxt.
From S2P Require Import ChaCha ChachaPoly Digest SshCipher Packet PacketSend Plain PacketRead PacketFrame Kex.
From S2P Require Import Auth AuthFrame AuthPolicy AuthStep.

(** ** The whole *)

Section whole.
Context {C : Crypto} {E : Env} {A : AuthEnv} {L : MethodLaws}.
Context (methods : Z -> option (M unit)) (methods_keep : forall n m, methods n = Some m -> keeps auth_view m).
Context (more : Z -> Z -> Z -> M unit) (more_keeps : forall id type seq, keeps auth_view (more id type seq)).
Context (conf : list bytes).

Lemma finished_ok a ok g a' : success a = false -> finished a ok g a' -> success a' = true -> ok = true.
Proof. intros Hs [] Ht; cbn in *; congruence. Qed.

(** A message of the client leaves the invariant, and says which way it went. *)
Lemma attempted_inv v v' : attempted conf v v' -> inv conf v'.1.1 /\
  (success v'.1.1 = true -> v' = (v'.1.1, Some dispatch_protocol_ignore_fn, None)).
Proof.
  intros (a & ok & g & (Hi & Hs & _) & Hg & Hf & Hd1 & Hd2). split; [by apply (finished_inv conf a ok g)|].
  intros Ht. destruct v' as [[a' d1] d2]. cbn in *. rewrite Hd1, Hd2 by by apply (finished_ok a ok g a'). unfold after. by rewrite Ht.
Qed.

Lemma handler_inv id type seq a d1 d2 : inv conf a -> success a = false ->
  leads (auth_handlers more id type seq) (fun _ v' => inv conf v'.1.1 /\
    (success v'.1.1 = true -> v' = (v'.1.1, Some dispatch_protocol_ignore_fn, None))) (a, d1, d2).
Proof.
  intros Hi Hs. unfold auth_handlers. destruct (id =? 5); [|destruct (id =? 50); [|destruct (id =? 61)]].
  - eapply leads_mono; [apply leads_service|]. intros _ v' ->. cbn. split; [done|]. by rewrite Hs.
  - eapply leads_mono; [by apply (leads_request conf)|]. intros ? v'. apply attempted_inv.
  - eapply leads_mono; [by apply (leads_response conf)|]. intros ? v'. apply attempted_inv.
  - apply leads_keeps; [apply more_keeps|]. intros _. cbn. split; [done|]. by rewrite Hs.
Qed.

Lemma loop_inv n : forall a d1 d2, inv conf a -> success a = false ->
  leads (dispatch_loop methods (auth_handlers more) n true auth_success) (fun _ v' => inv conf v'.1.1 /\ success v'.1.1 = true /\
    v' = (v'.1.1, Some dispatch_protocol_ignore_fn, None)) (a, d1, d2).
Proof.
  induction n as [|n IH]; intros a d1 d2 Hi Hs; cbn [dispatch_loop]; [done|].
  leads_step. leads_step. cbn [negb andb]. leads_step. leads_step.
  match goal with |- context [match ?x with Some _ => _ | None => _ end] => destruct x as [h|] eqn:Eh end; [|leads; done]. leads_step. leads_step. leads_step.
  { leads_step. leads_step. by apply IH. }
  assert (Hloop : forall v', inv conf v'.1.1 -> (success v'.1.1 = true -> v' = (v'.1.1, Some dispatch_protocol_ignore_fn, None)) ->
    leads (let! stop := gets auth_success in if stop then mret tt else dispatch_loop methods (auth_handlers more) n true auth_success)
      (fun _ v' => inv conf v'.1.1 /\ success v'.1.1 = true /\ v' = (v'.1.1, Some dispatch_protocol_ignore_fn, None)) v').
  { intros [[a' d1'] d2'] Hi' Hv' s u s' Hsh H. unfold mbind, gets in H.
    unfold auth_success in H. rewrite (shows_auth _ _ Hsh) in H. cbn [fst snd] in *. destruct (success a') eqn:Es.
    - injection H as <- <-. exists (a', d1', d2'). split_and!; try done. by apply Hv'.
    - by apply (IH a' d1' d2' Hi' Es s u s'). }
  leads_step. destruct (match h with other_fn id => Some id | _ => None end) as [id|] eqn:Eid.
  - destruct h; try done. cbn [call_handler]. eapply leads_mono; [by apply handler_inv|].
    intros _ v' [Hi' Hv']. by apply Hloop.
  - apply leads_keeps; [apply frame_call_handler; [done|by destruct h]|]. intros _. apply Hloop; [done|]. cbn. congruence.
Qed.
End whole.

(** ** What a server that lets a user in has checked *)

Section theorems.
Context {C : Crypto} {E : Env} {A : AuthEnv} {L : MethodLaws}.

Lemma shows_own s a : authctxt s = Some a ->
  shows s (a, dispatch s !! SSH2_MSG_USERAUTH_REQUEST, dispatch s !! SSH2_MSG_USERAUTH_INFO_RESPONSE).
Proof. intros Ha. unfold shows, auth_view. by rewrite Ha. Qed.

(** Sessions between two messages of an authentication that began with [conf]; whatever else
    happens leaves its state alone. *)
Inductive served (conf : list bytes) : session -> Prop :=
| served_new s : authctxt s = Some (authctxt_new conf) -> served conf s
| served_message more id type seq s s' :
    (forall id type seq, keeps auth_view (more id type seq)) ->
    served conf s -> auth_success s = false -> auth_handlers more id type seq s = Ret tt s' -> served conf s'
| served_other s s' : served conf s -> auth_view s' = auth_view s -> served conf s'.

Lemma served_inv conf s : 0 < max_authtries options -> served conf s -> exists a, authctxt s = Some a /\ inv conf a.
Proof.
  intros Hm. induction 1 as [s Ha|more id type seq s s' Hmore _ (a & Ha & Hi) Hs H|s s' _ (a & Ha & Hi) Hv].
  - exists (authctxt_new conf). split; [done|]. by apply inv_new.
  - unfold auth_success in Hs. rewrite Ha in Hs.
    destruct (handler_inv more Hmore conf id type seq a _ _ Hi Hs s tt s' (shows_own s a Ha) H) as (v' & Hv' & Hi' & _).
    exists v'.1.1. split; [by apply shows_auth|done].
  - exists a. split; [|done]. apply (f_equal (fun x => x.1.1)) in Hv. cbn in Hv. congruence.
Qed.

(** Claim C7.  A server that ends the authentication has let in a user of its password file,
    for the service ssh-connection, after at least one method succeeded and, if lists of
    methods are configured, after all methods of one of them succeeded in its order; a user
    with the number of root only by methods that the options allow to root, and nobody after
    [max_authtries] failures.  It is then deaf to further requests. *)
Theorem authentication_sound methods more conf s a s'
    (Hmethods : forall n m, methods n = Some m -> keeps auth_view m)
    (Hmore : forall id type seq, keeps auth_view (more id type seq))
    (Htries : 0 < max_authtries options)
    (Hnew : authctxt s = Some (authctxt_new conf))
    (Hrun : do_authentication2 methods more s = Ret a s') :
  success a = true /\ valid a = true /\ is_Some (user a) /\ service a = Some (lit "ssh-connection") /\
  granted a <> [] /\ (required conf = [] \/ satisfied (required conf) (granted a)) /\
  Forall (fun g => root_ok a (fst g)) (granted a) /\ failures a < max_authtries options /\
  authctxt s' = None /\ dispatch s' !! SSH2_MSG_USERAUTH_REQUEST = Some dispatch_protocol_ignore_fn /\
  dispatch s' !! SSH2_MSG_USERAUTH_INFO_RESPONSE = None.
Proof.
  unfold do_authentication2 in Hrun. inv_bind Hrun. inv_bind Hrun. inv_bind Hrun. inv_bind Hrun. run Hrun.
  assert (Ha : authctxt s1 = Some (authctxt_new conf)).
  { apply (keeps_ret_eq authctxt) in H0; [|by apply keeps_modify].
    apply (keeps_ret_eq authctxt) in H; [|by apply keeps_modify]. congruence. }
  clear H H0.
  destruct x1. destruct (loop_inv methods Hmethods more Hmore conf _ _ _ _ (inv_new conf Htries) eq_refl s1 tt s2
    (shows_own s1 _ Ha) H1) as ([[a' d1] d2] & Hs2 & Hi & Hsucc & Hv). cbn in Hi, Hsucc.
  injection Hv as -> ->.
  unfold get_auth, deref in H2. rewrite (shows_auth _ _ Hs2) in H2. injection H2 as <- <-. injection Hrun as <- <-.
  destruct (inv_success _ _ Hi Hsucc) as (Hva & Hg & Hp). destruct (inv_valid _ _ Hi Hva) as [Hat Hserv].
  destruct (inv_started _ _ Hi Hat) as (_ & Hu & _). injection Hs2 as _ Hd1 Hd2.
  split_and!; try done; [by apply (inv_root conf)|by apply (inv_tries conf)].
Qed.

(** A failure more, or the reason why there is none. *)
Definition counted (id : Z) (a a' : Authctxt) : Prop :=
  failures a' = failures a + 1 \/
  failures a' = failures a /\ (id <> 50 /\ id <> 61 \/ success a' = true \/ postponed a' = true \/
    length (granted a') = S (length (granted a)) \/ server_caused_failure a' = true \/ attempt a' <= 1).

(** What a message makes of the context. *)
Definition counts_message (id : Z) (a : Authctxt) (s' : session) : Prop := exists a',
  authctxt s' = Some a' /\ failures a' < max_authtries options /\ counted id a a' /\
  (attempt a <> 0 -> same_identity a a').

(** Claim C32.  In every session of an authentication, a message of the client leaves the
    failures below [max_authtries] and adds at most one to them; it adds one unless it is
    neither a request nor an answer, or the method waits for an answer or succeeded, or the failure was the
    server's, or it was the first request.  After the first request the user, the service and
    what is known of the user do not change. *)
Theorem failures_counted more conf id type seq s a s'
    (Hmore : forall id type seq, keeps auth_view (more id type seq))
    (Htries : 0 < max_authtries options) (Hserved : served conf s)
    (Ha : authctxt s = Some a) (Hs : success a = false)
    (H : auth_handlers more id type seq s = Ret tt s') :
  exists a', authctxt s' = Some a' /\ failures a' < max_authtries options /\ counted id a a' /\
    (attempt a <> 0 -> same_identity a a').
Proof.
  change (counts_message id a s').
  destruct (served_inv conf s Htries Hserved) as (a0 & Ha0 & Hi). rewrite Ha in Ha0. injection Ha0 as <-.
  assert (Hatt : forall m : M unit, leads m (fun _ v' => attempted conf
      (a, dispatch s !! SSH2_MSG_USERAUTH_REQUEST, dispatch s !! SSH2_MSG_USERAUTH_INFO_RESPONSE) v')
      (a, dispatch s !! SSH2_MSG_USERAUTH_REQUEST, dispatch s !! SSH2_MSG_USERAUTH_INFO_RESPONSE) -> m s = Ret tt s' ->
    counts_message id a s').
  { intros m Hm Hr. destruct (Hm s tt s' (shows_own s a Ha) Hr) as (v' & Hs' & a1 & ok & g & Hb & _ & Hf & _).
    destruct Hb as (Hi1 & _ & _ & Hf1 & Hg1 & Hid). cbn [fst] in *. exists v'.1.1. split; [by apply shows_auth|].
    pose proof (inv_tries _ _ Hi1) as Ht1. unfold counted. rewrite <- Hf1, <- Hg1.
    destruct Hf as [Hok Hp|info lists|info lists|Hp Hlt]; cbn.
    - split_and!; try done. right. auto.
    - split_and!; try done. right. auto.
    - split_and!; try done. right. rewrite length_app, Nat.add_1_r. auto 10.
    - split_and!; try done. unfold uncounted in *.
      destruct (server_caused_failure a1), (Z.leb_spec (attempt a1) 1), (bool_decide (fst g = lit "none"));
        cbn [orb andb negb Z.b2z]; first [by left|rewrite Z.add_0_r; right; auto 10]. }
  assert (Hsame : forall v', shows s' v' -> v'.1.1 = a -> id <> 50 -> id <> 61 ->
    counts_message id a s').
  { intros v' Hs' <- H1 H2. exists v'.1.1. split; [by apply shows_auth|]. split; [by apply (inv_tries conf)|].
    split; [by right; auto|]. intros _. by unfold same_identity. }
  unfold auth_handlers in H. destruct (Z.eqb_spec id 5) as [->|]; [|destruct (Z.eqb_spec id 50) as [->|]; [|destruct (Z.eqb_spec id 61) as [->|]]].
  - destruct (leads_service a _ _ s tt s' (shows_own s a Ha) H) as (v' & Hs' & ->). by apply (Hsame _ Hs').
  - by apply (Hatt _ (leads_request conf a _ _ Hi Hs)).
  - by apply (Hatt _ (leads_response conf a _ _ Hi Hs)).
  - pose proof (shows_own s a Ha) as Hv. unfold shows in Hv.
    rewrite <- (keeps_ret_eq _ _ _ _ _ (Hmore id type seq) H) in Hv. by apply (Hsame _ Hv).
Qed.

End theorems.

(** ** A server that runs *)

#[export] Instance plain_auth : AuthEnv := {|
  options := mk_options 6 PERMIT_NO_PASSWD false true false false false;
  kbdint_devices := [];
  getpwnamallow name w := (Some (mk_passwd name 1000), w);
  fakepw := mk_passwd [] 1000;
  auth2_read_banner w := (None, w);
  forced_command _ := false;
  auth_password _ p w := (bool_decide (p = lit "secret"), w);
  userauth_pubkey := mret false;
  userauth_hostbased := mret false
|}.

#[export] Instance plain_methods : MethodLaws.
Proof. split; [apply keeps_ret..|constructor]. Qed.

(** After a key exchange. *)
Definition connected : session :=
  let s := ssh_alloc_session_state (tt : @os plain_env) in
  default s (ssh_packet_set_connection (set_rekeying false (set_kex (option_map (set_kex_done true) (kex s)) s))).

Definition put_all (l : list bytes) : M unit := foldr (fun v m => sshpkt_put_cstring v ;; m) (mret tt) l.
Definition ask_password (p : bytes) : M unit :=
  sshpkt_start SSH2_MSG_USERAUTH_REQUEST ;; put_all [lit "alice"; lit "ssh-connection"; lit "password"] ;;
  sshpkt_put_u8 0 ;; put_all [p].

(** What a client sends that first gives a wrong password. *)
Definition client_says : bytes :=
  match (sshpkt_start SSH2_MSG_SERVICE_REQUEST ;; put_all [lit "ssh-userauth"] ;; sshpkt_send ;;
         ask_password (lit "password") ;; sshpkt_send ;; ask_password (lit "secret") ;; sshpkt_send) connected with
  | Ret _ s => output s
  | _ => []
  end.
Definition server : session :=
  set_authctxt (Some (authctxt_new [lit "publickey"; lit "password"]))
    (set_server_side true (set_input client_says connected)).
Definition no_exchange (n : Z) : option (M unit) := None.
Definition no_handler (id type seq : Z) : M unit := mcrash.

Definition returned {B} (o : outcome B) : option (B * session) :=
  match o with Ret b s => Some (b, s) | _ => None end.
Lemma returned_ret {B} (o : outcome B) b s : returned o = Some (b, s) -> o = Ret b s.
Proof. destruct o; cbn; congruence. Qed.

Lemma let_in_once : match returned (do_authentication2 no_exchange no_handler server) with
  | Some (a, _) => failures a = 1 /\ granted a = [(lit "password", None)]
  | None => False
  end.
Proof. vm_compute. split; reflexivity. Qed.

Lemma authentication_sound_witness : exists a s', do_authentication2 no_exchange no_handler server = Ret a s' /\
  failures a = 1 /\ granted a = [(lit "password", None)] /\
  (success a = true /\ valid a = true /\ is_Some (user a) /\ service a = Some (lit "ssh-connection") /\
   granted a <> [] /\ (required [lit "publickey"; lit "password"] = [] \/
     satisfied (required [lit "publickey"; lit "password"]) (granted a)) /\
   Forall (fun g => root_ok a (fst g)) (granted a) /\ failures a < max_authtries options /\
   authctxt s' = None /\ dispatch s' !! SSH2_MSG_USERAUTH_REQUEST = Some dispatch_protocol_ignore_fn /\
   dispatch s' !! SSH2_MSG_USERAUTH_INFO_RESPONSE = None).
Proof.
  pose proof let_in_once as Hc.
  destruct (returned (do_authentication2 no_exchange no_handler server)) as [[a s']|] eqn:El; [|destruct Hc].
  pose proof (returned_ret _ a s' El) as Er. clear El.
  exists a, s'. split; [exact Er|]. split; [apply Hc|]. split; [apply Hc|].
  apply (authentication_sound no_exchange no_handler _ server a s'); [|intros; apply keeps_crash|reflexivity|reflexivity|exact Er].
  intros n m Hn. discriminate Hn.
Defined.

(** The wrong password alone. *)
Definition asked : session :=
  match ask_password (lit "password") connected with
  | Ret _ s => set_incoming_packet (drop 6 (outgoing_packet s)) (set_authctxt (Some (authctxt_new [])) connected)
  | _ => connected
  end.
Definition answered : session :=
  match auth_handlers no_handler 50 50 0 asked with Ret _ s => s | _ => asked end.

Lemma failures_counted_witness : match authctxt answered with Some a => failures a = 1 | None => False end /\
  exists a', authctxt answered = Some a' /\ failures a' < max_authtries options /\
    (failures a' = 0 + 1 \/
     failures a' = 0 /\ (50 <> 50 /\ 50 <> 61 \/ success a' = true \/ postponed a' = true \/
       length (granted a') = 1%nat \/ server_caused_failure a' = true \/ attempt a' <= 1)) /\
    (0 <> 0 -> same_identity (authctxt_new []) a').
Proof.
  split; [vm_compute; reflexivity|].
  apply (failures_counted no_handler [] 50 50 0 asked (authctxt_new []) answered);
    [intros; apply keeps_crash|reflexivity|by apply served_new; vm_compute|vm_compute; reflexivity|reflexivity|vm_compute; reflexivity].
Defined.


(** A list may name a device of a method that has none: it is accepted and allows the method,
    whose success then ends the process. *)
Lemma device_of_password a : password_authentication options = true -> conf_methods a <> [] ->
  auth_methods a = [lit "password:x"] ->
  auth2_methods_valid a (lit "password:x") true = true /\
  authmethod_lookup a (lit "password") = Some method_passwd /\
  update_lists (auth_methods a) (lit "password") None = (auth_methods a, false, false).
Proof.
  intros Hp Hc Ha. split; [reflexivity|]. split; [|by rewrite Ha].
  unfold authmethod_lookup, auth2_method_allowed. rewrite Ha. destruct (conf_methods a) as [|l ls] eqn:El; [done|].
  cbn [is_nil orb authmethods List.find method_enabled method_name]. rewrite Hp. cbn [andb].
  by destruct (none_enabled a).
Qed.
